(* ===== verification/_CoqProject ===== *)
-Q . S2P
Prelude.v
Float32.v
AppState.v
HardwareCheck.v
Reducer.v
ReducerInv.v
Snapshot.v
ReducerFacts.v
ReducerTrace.v
ReducerProps.v
Model.v
Recovery.v
RecoveryProps.v
Machine.v
Tlv.v
Features.v
Codec.v
Buffer.v
Jitter.v
Rtp.v
RtpSender.v
RtpSenderProps.v
Wire.v
Text.v
Clock.v
TimingDiag.v
Ntp.v
PtpWire.v
PtpTracker.v
PtpTrackerProps.v
PtpClient.v
ControlCipher.v
CipherProps.v
Rtsp.v
RtspProps.v
RtspSession.v
PairVerify.v
PairVerifyProps.v
Pairing.v
Supervisor.v
SupervisorProps.v
SupervisorPolicy.v
DiagRing.v
Calibration.v
Device.v
TxtParser.v
Browser.v
Discovery.v
Inventory.v
Group.v
GroupConnect.v
GroupConnectProps.v
Persistence.v
Backend.v
Controller.v
ControllerSteps.v
ControllerProps.v
ControllerRestart.v
ControllerTimers.v
ControllerBatch.v
ControllerRuns.v
ClientDiag.v
Registry.v
RegistryProps.v
Handle.v
Bridge.v
BridgeProps.v
BridgeRuns.v
BridgeKeys.v
PairSetup.v
PairSetupProps.v
PairingSession.v
Preferences.v
Executor.v
ExecutorProps.v
NetworkMonitor.v
LivePcm.v
Transport.v
