(* ===== verification/Prelude.v ===== *)
(** * Verification of OpenAirCast

    OpenAirCast streams the audio of a Windows machine to AirPlay 2 receivers.
    This library models the parts of the program that decide things, and
    proves what makes them correct.

    ** The program and its parts

    The desktop shell ([src/apps/openaircast/src/app]) is an actor: a queue of
    [AppEvent]s is folded into one [AppState] by the pure function [reduce];
    every transition yields commands for the backend ([AppEffect]) and tells
    whether the published [UiSnapshot] changed.  The backend
    ([src/apps/openaircast/src/backend]) keeps one lifecycle per receiver and
    decides when a failed receiver is retried; its session supervisor owns the
    one live AirPlay transport and replaces it generation by generation.  Below
    it, the AirPlay crates ([src/crates]) carry the protocol: pairing (TLV8
    messages, pair-setup, pair-verify, the encrypted control channel), RTSP requests,
    responses and sessions, feature flags, audio formats, NTP and PTP clocks,
    the sender's frame buffer, RTP packets and their retransmission.

    ** Files

    - [Prelude]: record update, [Result], machine integers, byte order, sorting,
      chunking, shared automation.
    - [Float32]: single precision on the Standard Library's [SpecFloat].
    - [AppState], [HardwareCheck], [Reducer]: the data model of [state.rs],
      [event.rs], [effect.rs], [live_diagnostics.rs]; the guards of the audible
      listening check ([hardware_check.rs]); every handler of [reducer.rs], the
      dispatch, the observer of the check, and start-up ([initial_state]).
    - [Snapshot]: the projection [UiSnapshot::from_state] and the event loop
      [run_actor] of [app_handle.rs].
    - [ReducerInv], [ReducerFacts], [ReducerTrace]: invariants and frame lemmas,
      first per handler and through the observer, then the selection and the
      check, then along event queues.  [ReducerProps] holds the theorems.
    - [Preferences], [Executor]: the settings file with its worker thread
      ([preferences.rs]), and the effect executor with the shutdown coordinator
      ([app/mod.rs]) as threads that interleave with the actor.
      [ExecutorProps]: their theorems (its module [ReducerSettings] follows a
      save request through the reducer).  The module [Frames] of [Executor]:
      how snapshots and window effects reach the window ([app_handle.rs]).
    - [Model], [Recovery], [RecoveryProps], [Machine]: [backend/model.rs] and
      [backend/recovery.rs]: receiver identities and storage keys, the retry
      ladder with its floating-point jitter, per-receiver bookkeeping, the
      limiter of rejoin restarts, the receiver state machine.
    - [Tlv]: [airplay-crypto/src/tlv.rs].  [Features], [Codec]:
      [airplay-core/src/features.rs] and [codec.rs].
    - [Buffer], [Jitter], [Rtp], [RtpSender], [RtpSenderProps]:
      [airplay-audio/src/buffer.rs], [diagnostics.rs] and [rtp.rs].
    - [Wire], [Text]: shared by the protocol files: slices and signed reads of
      byte strings with the class [WireFormat] of fixed-size encodings; Rust
      strings as code points with UTF-8, lines, trimming and numbers.
    - [Clock], [TimingDiag], [Ntp]: [airplay-timing/src/clock.rs],
      [diagnostics.rs], [ntp.rs].
    - [PtpWire], [PtpTracker], [PtpClient]: [airplay-timing/src/ptp.rs]: its
      messages, the measurement tracker with the flow that yields mastership
      ([run_bmca_yield_flow_state]), and the client, master and slave roles.
      [PtpTrackerProps] holds the invariant of the flow.
    - [ControlCipher], [CipherProps]: [airplay-crypto/src/chacha.rs] over the
      class [Aead].
    - [Rtsp], [RtspProps], [RtspSession]: [airplay-rtsp/src]: requests,
      responses, the connection; the two session machines and the SDP text.
    - [PairVerify], [PairVerifyProps], [Pairing]: [airplay-pairing/src]:
      [pair_verify.rs] over the class [Curves], [channel.rs], [controller.rs].
    - [PairSetup], [PairSetupProps]: SRP-6a ([airplay-crypto/src/srp.rs])
      over the class [Sha512], pair-setup with its transient form
      ([airplay-pairing/src/pair_setup.rs]) and the accessory its tests use.
      [PairingSession] and its module [PairingSessionProps]: the FairPlay frames
      ([fairplay.rs]) and the session over all four exchanges ([session.rs]).
    - [Supervisor], [SupervisorProps], [SupervisorPolicy]:
      [backend/session.rs]: the supervisor loop over the class
      [SessionTransport], its protocol automaton, and its policies.
    - [DiagRing], [Calibration]: [diagnostics/ring.rs] with the event values of
      [diagnostics/snapshot.rs], and [calibration.rs].
    - [Device], [TxtParser], [Browser]: receiver metadata
      ([airplay-core/src/device.rs]), the TXT records and the service index of
      [airplay-discovery/src].  [Discovery]: the browse supervisor of
      [backend/discovery.rs].  [Inventory] composes the three with the
      controller's copy of the inventory.
    - [Group], [GroupConnect], [GroupConnectProps]: [airplay-client/src/group.rs]
      and the group half of [client.rs]: membership, primary choice, delays,
      and the whole best-effort connect.
    - [Persistence]: the state file of [backend/persistence.rs] (two schemas,
      quarantine, atomic replacement) behind the class [StateStore] of
      operations and its laws [StateStoreOk].
    - [Backend], [Controller]: the published snapshot and its commands
      ([backend/model.rs], [event.rs], [command.rs], [listening_check.rs]) and
      the whole [ControllerActor] of [backend/controller.rs]: restore, one
      function per handler, the drain of a batch, the timers, the main loop.
    - [ControllerSteps]: the handlers decomposed into labelled primitive steps,
      so that an invariant is checked once per label.  [ControllerProps],
      [ControllerRestart], [ControllerTimers], [ControllerBatch] hold the
      theorems, [ControllerRuns] the concrete runs behind the findings.
    - [ClientDiag], [Registry], [RegistryProps]: the diagnostics sources of
      [airplay-client/src/diagnostics.rs] and the registry worker with its
      session tracker ([diagnostics/registry.rs], [diagnostics/snapshot.rs]).
    - [Handle], [Bridge]: the command queue with its receipts
      ([backend/command.rs]) and [backend_bridge]: the projection of snapshots
      into shell events, the port, and the loop of the bridge thread as steps
      that interleave with the shell's thread and the backend.
      [BridgeProps], [BridgeRuns], [BridgeKeys] hold the theorems.
    - [Transport]: the adapter between the supervisor and the AirPlay client
      ([backend/transport.rs], the event feed of [airplay-client/src/events.rs]):
      an instance of [SessionTransport] over the class [AirPlayClient], which
      the client of [GroupConnect] instantiates; every await lets other threads
      act.
    - [LivePcm]: the live queue and its decoder
      ([airplay-audio/src/live_decoder.rs]), and the conversion, meter and
      bridge thread of [backend/capture.rs] with [backend/listening_tone.rs].
    - [NetworkMonitor]: the coalescing of interface notifications and the
      fingerprint of the local bindings ([backend/network.rs]).

    ** How code becomes definitions

    A handler [fn h(state: &mut AppState, ..) -> (Vec<AppEffect>, bool)] is a
    function to the new state, the effects and the flag.  Errors are [Result]
    or [option] values; a Rust panic (division by a channel count of zero, a
    negative duration) is [None].  Integers are [Z] with their wrap-around or
    saturation written out; the release profile sets no overflow checks, so
    [+=] wraps.  [f32] and [f64] are IEEE values of [SpecFloat], so equality
    tests distinguish NaN as the derived [PartialEq] does.  A [HashSet] or
    [BTreeMap] keyed by identities is a [gset] or [gmap]; where the source
    iterates in key order the model sorts.  Shared atomic counters are part of
    the modelled state and are read when a snapshot is taken.

    Code outside the repository is a parameter: [to_lowercase] (Unicode case
    mapping, used to break ties when the hotkey picks a receiver), the packet
    cipher, and the operating system's answer to a datagram ([send_to], of
    which only one documented fact is assumed, that success on a non-empty
    datagram means bytes were taken).  Library cryptography enters through three
    classes whose laws are its documented behaviour: [Aead] (opening undoes
    sealing and accepts nothing else), [Curves] (key agreement commutes,
    signatures verify, digests have their length) and [Sha512] (64 bytes); that
    the group of SRP has a prime modulus is a hypothesis of the theorems that
    need it; each has a concrete
    instance under which the theorems that use it are evaluated.  Loops that
    wait on several events ([select!]) are step functions of an input that says
    what is ready, and theorems quantify over all sequences of inputs.

    ** What the theorems show

    - Shell: the last published snapshot always equals the projection of the
      current state; reachable states are consistent; the audible tone, a
      positive verdict, a session start and a shutdown only happen when they
      may; stale backend reports change nothing; discovery merging, start
      targets, group requests, settings writes and volume commands are exact.
      What the user set is there again after a quit and a restart; a quit
      closes the application once and within its budgets, whatever the services
      answer; no publication and no window effect is missed by the window.
    - Network: published edges are a settle period apart, tell truthfully
      whether the bindings moved, and no notification is forgotten.
    - Recovery: delays are exact whole percentages of the ladder; attempts are
      forgiven only after sixty healthy seconds; rejoin restarts are at least
      thirty seconds apart; the machine's row and fields agree, and exactly
      which operations it rejects.
    - Supervisor: whatever the interleaving, the calls on starts and
      transports and the published edges follow the session protocol (never two
      transports, generations only grow, nothing survives the end); the newest
      reconcile of a batch wins; the probe policy is the documented one; audio
      is released only under the newest levels; cancellation ends in one round.
    - Protocol: TLV8, RTP packets, feature strings and storage keys round-trip;
      the TLV8 and PTP record parsers accept exactly the well-framed inputs;
      PTP time stamps are exact.
    - Control channel: what is sealed opens in order, nothing else is accepted,
      no nonce repeats before the counter does; an RTSP exchange over it is
      exact in both directions, and any printed response is parsed back.
    - Pairing: with an honest accessory pair-verify completes and both sides
      hold the same keys; an accepted second message came from a holder of the
      agreed secret and a matching signature; the identity file round-trips.
      With the same PIN on both sides pair-setup completes with one SRP secret;
      whatever a peer sends, it completes only after a proof of that secret
      and, outside the transient mode, a signed identity; the keys a pairing
      session holds come from such an exchange or from a pair-verify, and a
      transient session hands out the keys the accessory derives.
    - Clocks: NTP and PTP exchanges measure the offset of two clocks up to half
      the path asymmetry; a published PTP state always stems from one matched
      exchange with the currently announced clock, and a clean exchange is
      published; the group master's schedule is exact.
    - Transport: audio is released only when every member has accepted the
      level that is then current; a failed start leaves no client connected;
      every failed send is handed out, queued or counted as lost.
    - Live PCM: packets have the size asked for and keep the samples in order;
      the queue delivers what the bridge forwarded in order, and the drop count
      covers every evicted frame; at most one tone is requested or playing.
    - Sessions: a playing session holds exactly the negotiated ports.
    - Backend controller: nothing durable is published before it is saved, and
      what was published survives a restart; a Stop stays stopped; a suspended
      machine reconciles nothing until the settle timer fires; generations
      strictly increase; a drain keeps exactly the last command of each kind
      and answers each receipt once; no timer arm can spin; the launch policy
      acts at most once.
    - Discovery: only a missing identity rejects a record; the service index
      holds exactly the live services; what the supervisor sends lets its
      consumer rebuild the inventory; announced receivers are shown; a network
      change keeps the rows as unknown.
    - Groups: a best-effort connect accounts for every receiver and leaves no
      connection behind; the primary does not depend on the order of the
      request; the delays of a session differ exactly as tuned.
    - Diagnostics: a reader of the event ring holds the log except the gaps it
      was told about; every client event is drained once, waits, or was
      evicted from a full sink, also when it is recorded during a drain; the tracker opens and closes sessions in brackets; the registry
      shows the running session with the health its history implies.
    - Bridge: the shell receives what the bridge produced, in order, each event
      once; after a pass is delivered it was told what the snapshot says;
      every group request is answered once; the first answer to a press of
      Stop is that the session stopped, and to a press of Start never that it
      stopped or restarts; an endpoint key means the same
      endpoint for ever, and nothing the shell is told depends on the raw
      endpoint identifiers.
    - Audio path: the frame buffer refines a bounded FIFO and its diagnostics
      are truthful; the packet history serves exactly the last 512 packets;
      every retransmit slot is accounted for; transport counters add up;
      jitter statistics cover exactly the last 1024 samples.

    ** Bounds and fuel

    [Tlv.parse] runs on the input length plus one: a record consumes at least
    two bytes ([Tlv.parse_fuel] shows this is always enough).  [chunks] runs on
    the list length.  [Features.hex_fuel] prints with sixteen digits, enough
    for 64 bits.  [PtpWire.parse_tlvs], [ControlCipher.encrypt] and [decrypt],
    and the encrypted reader of [Rtsp] run on the input length: every round
    takes at least one byte, and their theorems give the result, not only a
    bound.  The eviction loop of [LivePcm.try_send_latest] runs once
    ([LivePcm.try_send_latest_spec]), its collecting loop once per queued frame.  [Rtsp.read_head] returns [None] while it is still running, which
    [RtspProps.head_reader_never_sees_eof] shows happens at the end of the
    stream.  Theorems about counters that could only be violated by
    overflowing 64 bits state that bound as a hypothesis.

    ** What is not modelled

    Threads, sockets, WASAPI capture, the egui views, localisation, the file
    system below the state file and mDNS browsing are effects at the edge of the
    modelled code.  The
    wall-clock bound around stopping a transport is not timed, since its
    outcome is ignored.  Property lists and the codecs call into
    libraries.  The streamer's pacing loop,
    single-receiver connections, the capture supervisor with its endpoints and
    the support export are pure enough to be modelled and are the next parts to add. *)

From stdpp Require Export base tactics decidable countable gmap list strings sorting.
From Stdlib Require Export ZArith Lia.

#[global] Open Scope Z_scope.
#[global] Set Default Goal Selector "!".

(** ** Record update

    [r <| field := v |>] is the Rust assignment [r.field = v]: it rebuilds the
    record with one projection replaced.  A record opts in with an [Eta]
    instance, the identity written as a constructor application. *)

Class Eta (R : Type) := eta_rec : R -> R.
Class Setter {R E : Type} (field : R -> E) := upd : (E -> E) -> R -> R.
Arguments upd {R E} field {_} _ _ /.

Ltac find_setter R field :=
  let e := eval hnf in (@eta_rec R _) in
  match eval pattern field in e with
  | ?k _ =>
      let t := eval cbv beta in (fun f => k (fun r => f (field r))) in
      exact t
  end.

#[export] Hint Extern 1 (@Setter ?R _ ?field) => find_setter R field : typeclass_instances.

Declare Scope cast_scope.
Delimit Scope cast_scope with cast.
Notation "r <| field := v |>" := (upd field (fun _ => v) r)
  (at level 1, left associativity, format "r  <| field  :=  v |>") : cast_scope.
#[global] Open Scope cast_scope.

(** ** Fallible code

    [Result] is Rust's [Result<A, E>]; [let? x := e in k] is [e?] followed by
    [k]. *)

Inductive Result (A E : Type) : Type :=
| Ok (a : A)
| Err (e : E).
Arguments Ok {A E} a.
Arguments Err {A E} e.

Definition result_bind {A B E} (r : Result A E) (k : A -> Result B E) : Result B E :=
  match r with Ok a => k a | Err e => Err e end.

Notation "'let?' x ':=' r 'in' k" := (result_bind r (fun x => k))
  (at level 10, x name, r at level 100, k at level 200) : cast_scope.

(** ** Machine integers

    A [w]-bit unsigned integer is a [Z] in [0, 2^w).  [wrap] is the
    truncation performed by [as] casts and by the [wrapping_*] operations; the
    workspace sets no [overflow-checks], so plain [+] wraps in the released
    build too. *)

Definition wrap (w x : Z) : Z := x mod 2 ^ w.
Definition u64_succ (x : Z) : Z := wrap 64 (x + 1).
Definition in_width (w x : Z) : Prop := 0 <= x < 2 ^ w.
Definition u32_max : Z := 2 ^ 32 - 1.
Definition u16_max : Z := 2 ^ 16 - 1.

(** [saturating_add] at width [w]. *)
Definition sat_add (w x y : Z) : Z := Z.min (x + y) (2 ^ w - 1).
Definition sat_sub (x y : Z) : Z := Z.max (x - y) 0.

(** [u{8n}::to_be_bytes] and [from_be_bytes]. *)
Fixpoint to_be_bytes (n : nat) (v : Z) : list Z :=
  match n with
  | O => []
  | S n' => wrap 8 (Z.shiftr v (8 * Z.of_nat n')) :: to_be_bytes n' v
  end.

Definition from_be_bytes (bs : list Z) : Z :=
  fold_left (fun acc b => Z.lor (Z.shiftl acc 8) b) bs 0.

(** [u{8n}::to_le_bytes] and [from_le_bytes]. *)
Fixpoint to_le_bytes (n : nat) (v : Z) : list Z :=
  match n with
  | O => []
  | S n' => wrap 8 v :: to_le_bytes n' (Z.shiftr v 8)
  end.

Fixpoint from_le_bytes (bs : list Z) : Z :=
  match bs with
  | [] => 0
  | b :: bs' => Z.lor b (Z.shiftl (from_le_bytes bs') 8)
  end.

Definition is_byte (b : Z) : Prop := in_width 8 b.
Definition bytes_ok (bs : list Z) : Prop := Forall is_byte bs.

#[export] Instance is_byte_dec b : Decision (is_byte b).
Proof. unfold is_byte, in_width. apply _. Defined.

Create HintDb cast.

Lemma wrap_id w x : in_width w x -> wrap w x = x.
Proof. intros H. apply Z.mod_small. exact H. Qed.

Lemma wrap_bound w x : 0 <= w -> in_width w (wrap w x).
Proof. intros Hw. apply Z.mod_pos_bound, Z.pow_pos_nonneg; lia. Qed.

Lemma wrap_8_byte x : is_byte (wrap 8 x).
Proof. apply wrap_bound. lia. Qed.

Lemma u64_succ_no_overflow x : 0 <= x < 2 ^ 64 - 1 -> u64_succ x = x + 1.
Proof. intros H. apply wrap_id. unfold in_width. lia. Qed.

Lemma in_width_testbit_high w x i : in_width w x -> w <= i -> 0 <= w -> Z.testbit x i = false.
Proof.
  intros [H0 Hw] Hi Hw0.
  destruct (Z.eq_dec x 0) as [->|Hx]; [apply Z.bits_0|].
  apply Z.bits_above_log2; [lia|]. apply Z.lt_le_trans with w; [|lia]. apply Z.log2_lt_pow2; lia.
Qed.

#[export] Hint Resolve wrap_8_byte : cast.

Lemma length_to_be_bytes n v : length (to_be_bytes n v) = n.
Proof. induction n; simpl; congruence. Qed.

Lemma length_to_le_bytes n v : length (to_le_bytes n v) = n.
Proof. revert v; induction n; intros v; simpl; congruence. Qed.

Lemma to_be_bytes_ok n v : bytes_ok (to_be_bytes n v).
Proof. induction n; simpl; constructor; auto with cast. Qed.

Lemma to_le_bytes_ok n v : bytes_ok (to_le_bytes n v).
Proof. revert v; induction n; intros v; simpl; constructor; auto with cast. apply IHn. Qed.

#[export] Hint Resolve to_be_bytes_ok to_le_bytes_ok : cast.

(** Bitwise equality of two [Z]s, the workhorse of the codec proofs. *)
Ltac bits_eq i Hi := apply Z.bits_inj'; intros i Hi.

Lemma testbit_wrap w x i : 0 <= i -> 0 <= w -> Z.testbit (wrap w x) i = (i <? w) && Z.testbit x i.
Proof.
  intros Hi Hw. unfold wrap. rewrite <- Z.land_ones by lia.
  rewrite Z.land_spec, Z.testbit_ones by lia.
  destruct (Z.leb_spec 0 i); [|lia].
  destruct (Z.ltb_spec i w), (Z.testbit x i); reflexivity.
Qed.

Lemma from_be_bytes_app bs cs :
  from_be_bytes (bs ++ cs)
  = fold_left (fun acc b => Z.lor (Z.shiftl acc 8) b) cs (from_be_bytes bs).
Proof. unfold from_be_bytes. rewrite fold_left_app. reflexivity. Qed.

Lemma be_fold_to_be_bytes n v acc :
  fold_left (fun a b => Z.lor (Z.shiftl a 8) b) (to_be_bytes n v) acc
  = Z.lor (Z.shiftl acc (8 * Z.of_nat n)) (wrap (8 * Z.of_nat n) v).
Proof.
  revert acc; induction n as [|n IH]; intros acc; cbn [to_be_bytes fold_left].
  - rewrite Z.shiftl_0_r. unfold wrap. rewrite Z.mod_1_r, Z.lor_0_r. reflexivity.
  - rewrite IH. bits_eq i Hi.
    rewrite !Z.lor_spec, !Z.shiftl_spec, !testbit_wrap by lia.
    rewrite Z.lor_spec.
    destruct (Z.ltb_spec i (8 * Z.of_nat n)).
    + rewrite !(Z.testbit_neg_r _ (i - _)) by lia. cbn.
      destruct (Z.ltb_spec i (8 * Z.of_nat (S n))); [reflexivity|lia].
    + rewrite Z.shiftl_spec, testbit_wrap, Z.shiftr_spec by lia.
      replace (i - 8 * Z.of_nat n - 8) with (i - 8 * Z.of_nat (S n)) by lia.
      replace (i - 8 * Z.of_nat n + 8 * Z.of_nat n) with i by lia.
      destruct (Z.ltb_spec (i - 8 * Z.of_nat n) 8), (Z.ltb_spec i (8 * Z.of_nat (S n)));
        try lia; cbn; rewrite ?orb_false_r; reflexivity.
Qed.

(** Big-endian round trip. *)
Lemma from_to_be_bytes n v :
  in_width (8 * Z.of_nat n) v -> from_be_bytes (to_be_bytes n v) = v.
Proof.
  intros H. unfold from_be_bytes. rewrite be_fold_to_be_bytes, Z.shiftl_0_l, Z.lor_0_l.
  apply wrap_id, H.
Qed.

Lemma lor_shiftl_add b x w : 0 <= w -> in_width w b -> Z.lor b (Z.shiftl x w) = b + x * 2 ^ w.
Proof.
  intros Hw Hb. rewrite <- Z.shiftl_mul_pow2 by lia.
  symmetry. rewrite <- Z.lxor_lor; [apply Z.add_nocarry_lxor|];
    bits_eq i Hi; rewrite Z.land_spec, Z.shiftl_spec, Z.bits_0 by lia;
    destruct (Z.ltb_spec i w);
    first [ rewrite (Z.testbit_neg_r _ (i - w)) by lia; apply andb_false_r
          | rewrite (in_width_testbit_high w b i) by (assumption || lia); reflexivity ].
Qed.

Lemma from_le_bytes_bound bs :
  bytes_ok bs -> in_width (8 * Z.of_nat (length bs)) (from_le_bytes bs).
Proof.
  induction 1 as [|b bs Hb _ IH]; cbn [from_le_bytes length].
  - unfold in_width; cbn; lia.
  - rewrite (lor_shiftl_add b _ 8) by (assumption || lia).
    unfold is_byte, in_width in *.
    replace (8 * Z.of_nat (S (length bs))) with (8 * Z.of_nat (length bs) + 8) by lia.
    rewrite Z.pow_add_r by lia. nia.
Qed.

(** ** Generic list facts *)

Lemma filter_keeps {A} (P : A -> Prop) `{!forall x, Decision (P x)} (l : list A) :
  Forall P l -> filter P l = l.
Proof.
  induction 1 as [|x l Hx _ IH]; [done|]. rewrite filter_cons_True by done. by rewrite IH.
Qed.

Lemma filter_drops {A} (P : A -> Prop) `{!forall x, Decision (P x)} (l : list A) :
  Forall (fun x => ~ P x) l -> filter P l = [].
Proof. induction 1 as [|x l Hx _ IH]; [done|]. by rewrite filter_cons_False. Qed.

Lemma filter_agree {A} (P Q : A -> Prop) `{!forall x, Decision (P x), !forall x, Decision (Q x)}
    (l : list A) :
  Forall (fun x => P x <-> Q x) l -> filter P l = filter Q l.
Proof.
  induction 1 as [|x l Hx _ IH]; [done|]. rewrite !filter_cons, IH.
  cbn in Hx. destruct (decide (P x)), (decide (Q x)); tauto || done.
Qed.

(** A prefix cut at two inner points. *)
Lemma take_three {A} (l : list A) (a b n : nat) :
  (a <= b <= length l)%nat ->
  take (Nat.min (length l) (b + n)) l = take a l ++ take (b - a) (drop a l) ++ take n (drop b l).
Proof.
  intros H. rewrite <- (take_drop a l) at 2. rewrite <- (take_drop (b - a) (drop a l)) at 1.
  rewrite drop_drop. replace (a + (b - a))%nat with b by lia.
  rewrite !take_app, !length_take, length_drop.
  rewrite !take_take. f_equal; [f_equal; lia|]. f_equal; [f_equal; lia|].
  apply list_eq. intros i.
  destruct (decide (i < n)%nat) as [Hi|Hi];
    [|rewrite !lookup_take_ge by lia; done].
  destruct (decide (i < length l - b)%nat).
  - rewrite !lookup_take_lt by lia. done.
  - rewrite lookup_take_ge by lia. symmetry. apply lookup_ge_None_2.
    rewrite length_take, length_drop. lia.
Qed.

(** Stable insertion sort by a boolean [le] on keys ([slice::sort_by_key],
    [slice::sort]). *)
Section Sort.
Context {A : Type} (le : A -> A -> bool).

Fixpoint insert_sorted (x : A) (l : list A) : list A :=
  match l with
  | [] => [x]
  | y :: l' => if le x y then x :: y :: l' else y :: insert_sorted x l'
  end.

Fixpoint isort (l : list A) : list A :=
  match l with
  | [] => []
  | x :: l' => insert_sorted x (isort l')
  end.

Lemma insert_sorted_perm x l : insert_sorted x l ≡ₚ x :: l.
Proof.
  induction l as [|y l IH]; cbn; [done|].
  destruct (le x y); [done|]. rewrite IH. apply Permutation_swap.
Qed.

Lemma isort_perm l : isort l ≡ₚ l.
Proof. induction l as [|x l IH]; cbn; [done|]. by rewrite insert_sorted_perm, IH. Qed.

Context (le_total : forall x y, le x y = true \/ le y x = true).
Context (le_trans : forall x y z, le x y = true -> le y z = true -> le x z = true).

Definition sorted_by (l : list A) : Prop := StronglySorted (fun x y => le x y = true) l.

Lemma insert_sorted_sorted x l : sorted_by l -> sorted_by (insert_sorted x l).
Proof.
  unfold sorted_by. induction l as [|y l IH]; intros Hs; cbn; [by repeat constructor|].
  inversion_clear Hs as [|? ? Hl Hy].
  destruct (le x y) eqn:E.
  - constructor; [by constructor|]. constructor; [done|].
    eapply Forall_impl; [exact Hy|]. eauto.
  - constructor; [by apply IH|]. rewrite insert_sorted_perm.
    constructor; [|done]. destruct (le_total x y); congruence.
Qed.

Lemma isort_sorted l : sorted_by (isort l).
Proof. induction l; cbn; [constructor|]. by apply insert_sorted_sorted. Qed.
End Sort.

(** [slice::chunks(n)]; the fuel is the length, since every chunk consumes at
    least one element. *)
Fixpoint chunks_fuel {A} (fuel n : nat) (l : list A) : list (list A) :=
  match fuel, l with
  | S fuel', _ :: _ => take n l :: chunks_fuel fuel' n (drop n l)
  | _, _ => []
  end.
Definition chunks {A} (n : nat) (l : list A) : list (list A) := chunks_fuel (length l) n l.

Lemma chunks_fuel_concat {A} fuel n (l : list A) :
  (0 < n)%nat -> (length l <= fuel)%nat -> concat (chunks_fuel fuel n l) = l.
Proof.
  intros Hn. revert l; induction fuel as [|fuel IH]; intros [|x l] Hl; cbn in Hl; try done; [lia|].
  cbn [chunks_fuel concat]. rewrite IH; [apply take_drop|].
  rewrite length_drop. cbn. lia.
Qed.

Lemma chunks_concat {A} n (l : list A) : (0 < n)%nat -> concat (chunks n l) = l.
Proof. intros Hn. by apply chunks_fuel_concat. Qed.

Lemma chunks_sizes {A} n (l : list A) :
  (0 < n)%nat -> Forall (fun c => (0 < length c <= n)%nat) (chunks n l).
Proof.
  intros Hn. unfold chunks. generalize (length l) as fuel. intros fuel. revert l.
  induction fuel as [|fuel IH]; intros [|x l]; cbn [chunks_fuel]; constructor; auto.
  rewrite length_take. cbn. lia.
Qed.

Lemma chunks_nil {A} n (l : list A) : (0 < n)%nat -> chunks n l = [] -> l = [].
Proof. intros Hn E. by rewrite <- (chunks_concat n l Hn), E. Qed.

Lemma forallb_elem {A} (p : A -> bool) l : forallb p l = true <-> (forall x, x ∈ l -> p x = true).
Proof. rewrite forallb_forall. setoid_rewrite list_elem_of_In. done. Qed.

Lemma existsb_elem {A} (p : A -> bool) l : existsb p l = true <-> (exists x, x ∈ l /\ p x = true).
Proof. rewrite existsb_exists. setoid_rewrite list_elem_of_In. done. Qed.

(** [Option] combinators used throughout the Rust code. *)
Definition is_some_and {A} (o : option A) (p : A -> bool) : bool :=
  match o with Some a => p a | None => false end.
Definition is_none_or {A} (o : option A) (p : A -> bool) : bool :=
  match o with Some a => p a | None => true end.
Definition is_none {A} (o : option A) : bool :=
  match o with Some _ => false | None => true end.
Definition option_eqb {A} (eqb : A -> A -> bool) (x y : option A) : bool :=
  match x, y with
  | Some a, Some b => eqb a b
  | None, None => true
  | _, _ => false
  end.
Fixpoint list_eqb {A} (eqb : A -> A -> bool) (x y : list A) : bool :=
  match x, y with
  | [], [] => true
  | a :: x', b :: y' => eqb a b && list_eqb eqb x' y'
  | _, _ => false
  end.

(** [x == y] on a type whose [PartialEq] is decidable Leibniz equality. *)
Notation "x ==? y" := (bool_decide (x = y)) (at level 70, no associativity) : cast_scope.

(** ** Automation *)

(** Case analysis on the scrutinee of the first [if]/[match] of the goal or of
    a hypothesis, and cleanup of the equations it leaves. *)
Ltac split_match :=
  match goal with
  | |- context [if ?b then _ else _] => destruct b eqn:?
  | |- context [match ?x with _ => _ end] => destruct x eqn:?
  end.
Ltac split_match_in H :=
  match type of H with
  | context [if ?b then _ else _] => destruct b eqn:?
  | context [match ?x with _ => _ end] => destruct x eqn:?
  end.
Ltac bool_simpl :=
  repeat match goal with
  | H : context [bool_decide _ = true] |- _ => rewrite bool_decide_eq_true in H
  | H : context [bool_decide _ = false] |- _ => rewrite bool_decide_eq_false in H
  | H : _ && _ = true |- _ => apply andb_true_iff in H; destruct H
  | H : _ || _ = false |- _ => apply orb_false_iff in H; destruct H
  | H : negb _ = true |- _ => apply negb_true_iff in H
  | H : negb _ = false |- _ => apply negb_false_iff in H
  | H : (_ =? _) = true |- _ => apply Z.eqb_eq in H
  | H : (_ =? _) = false |- _ => apply Z.eqb_neq in H
  end.
