(* ===== verification/Float32.v ===== *)
(** * IEEE-754 numbers as the Rust code uses them

    [f32] values (volumes, levels, window geometry) and the [f64] arithmetic
    of the retry policy are [SpecFloat] numbers: the inductive IEEE-754 model
    of the Rocq standard library with its correctly rounded operations, so
    NaN, infinities and signed zeros are present and every operation computes.
    [==], [<] and [<=] are the IEEE comparisons, hence [f32_eqb nan nan] is
    [false] exactly as in Rust. *)

From Stdlib Require Export SpecFloat.
From S2P Require Import Prelude.

Definition f32 : Type := spec_float.

#[export] Instance spec_float_eq_dec : EqDecision spec_float.
Proof. solve_decision. Defined.

(** ** Comparisons and classification *)

Definition f32_eqb (x y : f32) : bool := SFeqb x y.
Definition f32_ltb (x y : f32) : bool := SFltb x y.
Definition f32_leb (x y : f32) : bool := SFleb x y.

(** [f32::is_finite] *)
Definition f32_is_finite (x : f32) : bool :=
  match x with
  | S754_zero _ | S754_finite _ _ _ => true
  | S754_infinity _ | S754_nan => false
  end.

Definition f32_is_nan (x : f32) : bool :=
  match x with S754_nan => true | _ => false end.

(** [f32::clamp]: [if self < min { min } else if self > max { max } else self];
    NaN passes through. *)
Definition f32_clamp (x lo hi : f32) : f32 :=
  let x := if f32_ltb x lo then lo else x in
  if f32_ltb hi x then hi else x.

(** [f32::max]: NaN loses. *)
Definition f32_max (x y : f32) : f32 :=
  if f32_is_nan x then y
  else if f32_is_nan y then x
  else if f32_ltb x y then y else x.

(** ** Literals, correctly rounded to binary32 *)

Definition f32_of_Z (n : Z) : f32 := binary_normalize 24 128 n 0 false.
Definition f32_ratio (n d : Z) : f32 := SFdiv 24 128 (f32_of_Z n) (f32_of_Z d).

Definition f32_zero : f32 := S754_zero false.
Definition f32_one : f32 := Eval vm_compute in f32_of_Z 1.
Definition f32_quarter : f32 := Eval vm_compute in f32_ratio 1 4.
Definition f32_0_10 : f32 := Eval vm_compute in f32_ratio 1 10.
Definition f32_0_15 : f32 := Eval vm_compute in f32_ratio 3 20.

(** Arithmetic, rounded to nearest even. *)
Definition f32_mul (x y : f32) : f32 := SFmul 24 128 x y.
Definition f32_div (x y : f32) : f32 := SFdiv 24 128 x y.

(** [f32::min]: NaN loses. *)
Definition f32_min (x y : f32) : f32 :=
  if f32_is_nan x then y
  else if f32_is_nan y then x
  else if f32_ltb y x then y else x.

(** ** Facts *)

Lemma SFcompare_antisym (x y : spec_float) :
  SFcompare y x = match SFcompare x y with Some c => Some (CompOpp c) | None => None end.
Proof.
  destruct x as [sx|sx| |sx mx ex], y as [sy|sy| |sy my ey]; cbn;
    try destruct sx; try destruct sy; cbn; try reflexivity;
    rewrite (Z.compare_antisym ex ey); destruct (ex ?= ey); cbn; try reflexivity;
    change (Pos.compare_cont Eq) with Pos.compare;
    rewrite (Pos.compare_antisym mx my); destruct (mx ?= my)%positive; reflexivity.
Qed.

Lemma SFcompare_None (x y : spec_float) :
  f32_is_nan x = false -> f32_is_nan y = false -> SFcompare x y <> None.
Proof.
  destruct x as [sx|sx| |sx mx ex], y as [sy|sy| |sy my ey]; cbn; try discriminate;
    intros _ _; try destruct sx; try destruct sy; try discriminate;
    destruct (ex ?= ey); discriminate.
Qed.

Lemma f32_finite_not_nan x : f32_is_finite x = true -> f32_is_nan x = false.
Proof. by destruct x. Qed.

Lemma f32_not_lt_le x y :
  f32_is_nan x = false -> f32_is_nan y = false ->
  f32_ltb x y = false -> f32_leb y x = true.
Proof.
  intros Hx Hy. pose proof (SFcompare_None x y Hx Hy) as Hn.
  unfold f32_ltb, f32_leb, SFltb, SFleb. rewrite (SFcompare_antisym x y).
  destruct (SFcompare x y) as [[]|]; cbn; congruence.
Qed.

(** Clamping a finite value lands in the closed interval. *)
Lemma f32_clamp_range x lo hi :
  f32_is_nan x = false -> f32_is_nan lo = false -> f32_is_nan hi = false ->
  f32_leb lo lo = true -> f32_leb hi hi = true -> f32_leb lo hi = true ->
  f32_leb lo (f32_clamp x lo hi) = true /\ f32_leb (f32_clamp x lo hi) hi = true.
Proof.
  intros Hx Hlo Hhi Rlo Rhi Hle. unfold f32_clamp.
  destruct (f32_ltb x lo) eqn:E1.
  - destruct (f32_ltb hi lo); auto.
  - destruct (f32_ltb hi x) eqn:E2; [auto|].
    split; apply f32_not_lt_le; auto.
Qed.

Definition f32_unit_range (x : f32) : Prop :=
  f32_leb f32_zero x = true /\ f32_leb x f32_one = true.

Lemma f32_clamp01_range x :
  f32_is_finite x = true -> f32_unit_range (f32_clamp x f32_zero f32_one).
Proof. intros H. apply f32_clamp_range; try reflexivity. by apply f32_finite_not_nan. Qed.

(** A finite value equals itself; NaN does not. *)
Lemma f32_eqb_refl x : f32_is_nan x = false -> f32_eqb x x = true.
Proof.
  intros H. pose proof (SFcompare_antisym x x) as Ha. pose proof (SFcompare_None x x H H).
  unfold f32_eqb, SFeqb. destruct (SFcompare x x) as [[]|]; cbn in *; congruence.
Qed.

Lemma f32_clamp_finite x lo hi :
  f32_is_finite x = true -> f32_is_finite lo = true -> f32_is_finite hi = true ->
  f32_is_finite (f32_clamp x lo hi) = true.
Proof. unfold f32_clamp. intros. repeat split_match; done. Qed.

(** IEEE equality relates equal non-NaN values and the two zeros. *)
Lemma f32_eqb_spec x y :
  f32_eqb x y = true ->
  x = y \/ exists b c, x = S754_zero b /\ y = S754_zero c.
Proof.
  unfold f32_eqb, SFeqb.
  destruct x as [sx|sx| |sx mx ex], y as [sy|sy| |sy my ey]; cbn; try discriminate; eauto;
    try destruct sx; try destruct sy; try discriminate; eauto;
    destruct (Z.compare_spec ex ey); try discriminate; subst;
    change (Pos.compare_cont Eq mx my) with (mx ?= my)%positive;
    destruct (Pos.compare_spec mx my); cbn; try discriminate; subst; eauto.
Qed.

Lemma f32_eqb_trans x y z : f32_eqb x y = true -> f32_eqb y z = true -> f32_eqb x z = true.
Proof.
  intros Hxy Hyz. destruct (f32_eqb_spec x y Hxy) as [->|(b & c & -> & ->)]; [done|].
  destruct (f32_eqb_spec _ z Hyz) as [<-|(b' & c' & _ & ->)]; done.
Qed.
