(* ===== verification/AppState.v ===== *)
(** * Application state, events and effects

    The data model of the desktop shell: [apps/openaircast/src/app/state.rs],
    [event.rs], [effect.rs], [live_diagnostics.rs] and the state half of
    [hardware_check.rs].  A [HashSet]/[BTreeSet] of receiver identities is a
    [gset DeviceId], a [BTreeMap<DeviceId, f32>] a [gmap DeviceId f32], a
    [u64] counter a [Z] whose increments wrap at 64 bits. *)

From S2P Require Import Prelude Float32.

(** ** Identities *)

(** [airplay_core::DeviceId([u8; 6])]. *)
Inductive DeviceId := MkDeviceId (b0 b1 b2 b3 b4 b5 : Z).

Definition device_bytes (d : DeviceId) : list Z :=
  match d with MkDeviceId b0 b1 b2 b3 b4 b5 => [b0; b1; b2; b3; b4; b5] end.

#[export] Instance DeviceId_eq_dec : EqDecision DeviceId.
Proof. solve_decision. Defined.
#[export] Instance DeviceId_countable : Countable DeviceId.
Proof.
  refine (inj_countable'
    (fun d => match d with MkDeviceId a b c d e f => (a, b, c, d, e, f) end)
    (fun t => match t with (a, b, c, d, e, f) => MkDeviceId a b c d e f end) _).
  by intros [].
Defined.

(** Derived [Ord] of [DeviceId]: lexicographic order of the bytes. *)
Fixpoint bytes_leb (x y : list Z) : bool :=
  match x, y with
  | [], _ => true
  | _ :: _, [] => false
  | a :: x', b :: y' => if a =? b then bytes_leb x' y' else a <? b
  end.
Definition device_leb (x y : DeviceId) : bool := bytes_leb (device_bytes x) (device_bytes y).

Notation GenerationId := Z (only parsing).
Notation GroupId := Z (only parsing).
Notation AudioEndpointKey := Z (only parsing).

(** ** Saved groups *)

Record GroupMember := {
  gm_receiver : DeviceId;
  gm_name : string;
  gm_level : f32;
}.

Record SavedGroupReading := {
  sg_id : GroupId;
  sg_name : string;
  sg_members : list GroupMember;
  sg_available_members : gset DeviceId;
}.

Inductive GroupCommand :=
| GroupSave (id : option GroupId) (name : string) (members : list GroupMember)
| GroupDelete (id : GroupId)
| GroupApply (id : GroupId) (start : bool)
| GroupApplySelection (receiver_ids : list DeviceId).

Inductive GroupFailure :=
| GroupBusy | GroupClosed | GroupValidation | GroupPersistence | GroupConfirmationLost.

Inductive GroupOperationStatus :=
| OperationPending
| OperationSucceeded
| OperationFailed (failure : GroupFailure).

#[export] Instance GroupFailure_eq_dec : EqDecision GroupFailure.
Proof. solve_decision. Defined.
#[export] Instance GroupOperationStatus_eq_dec : EqDecision GroupOperationStatus.
Proof. solve_decision. Defined.

Record GroupOperation := {
  op_request : Z;
  op_command : GroupCommand;
  op_status : GroupOperationStatus;
}.
#[export] Instance eta_GroupOperation : Eta GroupOperation := fun o =>
  {| op_request := op_request o; op_command := op_command o; op_status := op_status o |}.

(** ** Preferences *)

Inductive Page := PageHome | PageSpeakers | PageGroups | PageAudio | PageDiagnostics | PageSettings.
Inductive ThemePreference := ThemeSystem | ThemeLight | ThemeDark.
Inductive LocalePreference := LocaleSystem | LocaleGerman | LocaleEnglish.
Inductive ResolvedLocale := German | English.

#[export] Instance Page_eq_dec : EqDecision Page.
Proof. solve_decision. Defined.
#[export] Instance ThemePreference_eq_dec : EqDecision ThemePreference.
Proof. solve_decision. Defined.
#[export] Instance LocalePreference_eq_dec : EqDecision LocalePreference.
Proof. solve_decision. Defined.
#[export] Instance ResolvedLocale_eq_dec : EqDecision ResolvedLocale.
Proof. solve_decision. Defined.

(** [LocalePreference::resolve] *)
Definition resolve (self : LocalePreference) (windows : ResolvedLocale) : ResolvedLocale :=
  match self with
  | LocaleSystem => windows
  | LocaleGerman => German
  | LocaleEnglish => English
  end.

Record HotkeyBinding := { hk_enabled : bool; hk_modifiers : Z; hk_virtual_key : Z }.
#[export] Instance HotkeyBinding_eq_dec : EqDecision HotkeyBinding.
Proof. solve_decision. Defined.

Definition MOD_ALT : Z := 1.
Definition MOD_CONTROL : Z := 2.
Definition default_hotkey : HotkeyBinding :=
  {| hk_enabled := true; hk_modifiers := Z.lor MOD_CONTROL MOD_ALT; hk_virtual_key := 0x48 |}.

Record WindowGeometry := {
  geo_x : option f32;
  geo_y : option f32;
  geo_width : f32;
  geo_height : f32;
  geo_maximized : bool;
}.
#[export] Instance eta_WindowGeometry : Eta WindowGeometry := fun g =>
  {| geo_x := geo_x g; geo_y := geo_y g; geo_width := geo_width g;
     geo_height := geo_height g; geo_maximized := geo_maximized g |}.

Definition default_geometry : WindowGeometry :=
  {| geo_x := None; geo_y := None; geo_width := f32_of_Z 1120; geo_height := f32_of_Z 720;
     geo_maximized := false |}.

(** [WindowGeometry::validate] *)
Definition validate_geometry (g : WindowGeometry) : option WindowGeometry :=
  if negb (f32_is_finite (geo_width g)) || negb (f32_is_finite (geo_height g))
     || is_some_and (geo_x g) (fun x => negb (f32_is_finite x))
     || is_some_and (geo_y g) (fun y => negb (f32_is_finite y))
  then None
  else Some (g <| geo_width := f32_max (geo_width g) (f32_of_Z 900) |>
               <| geo_height := f32_max (geo_height g) (f32_of_Z 600) |>).

(** Derived [PartialEq]: IEEE equality on every float. *)
Definition geometry_eqb (a b : WindowGeometry) : bool :=
  option_eqb f32_eqb (geo_x a) (geo_x b) && option_eqb f32_eqb (geo_y a) (geo_y b)
  && f32_eqb (geo_width a) (geo_width b) && f32_eqb (geo_height a) (geo_height b)
  && (geo_maximized a ==? geo_maximized b).

Record WindowState := {
  win_visible : bool;
  win_geometry : WindowGeometry;
  win_close_to_tray : bool;
  win_launch_at_startup : bool;
}.
#[export] Instance eta_WindowState : Eta WindowState := fun w =>
  {| win_visible := win_visible w; win_geometry := win_geometry w;
     win_close_to_tray := win_close_to_tray w;
     win_launch_at_startup := win_launch_at_startup w |}.

Definition PREFERENCES_SCHEMA_VERSION : Z := 2.

Record Preferences := {
  pref_schema_version : Z;
  pref_hotkey : HotkeyBinding;
  pref_theme : ThemePreference;
  pref_locale : LocalePreference;
  pref_advanced_information : bool;
  pref_window : WindowGeometry;
  pref_last_page : Page;
  pref_close_to_tray : bool;
  pref_launch_at_startup : bool;
}.

(** ** Discovery, receivers, stream *)

Inductive DiscoveryState :=
| DiscoveryIdle
| DiscoveryDiscovering (generation : GenerationId)
| DiscoveryReady
| DiscoveryFailed (summary : string).
#[export] Instance DiscoveryState_eq_dec : EqDecision DiscoveryState.
Proof. solve_decision. Defined.

Inductive Availability := Available | Unavailable.
#[export] Instance Availability_eq_dec : EqDecision Availability.
Proof. solve_decision. Defined.

Record ReceiverState := {
  rs_id : DeviceId;
  rs_name : string;
  rs_model : string;
  rs_availability : Availability;
}.
#[export] Instance ReceiverState_eq_dec : EqDecision ReceiverState.
Proof. solve_decision. Defined.
#[export] Instance eta_ReceiverState : Eta ReceiverState := fun r =>
  {| rs_id := rs_id r; rs_name := rs_name r; rs_model := rs_model r;
     rs_availability := rs_availability r |}.

Inductive StreamState :=
| StreamStopped
| StreamStarting (generation : GenerationId)
| StreamStreaming (generation : GenerationId)
| StreamDegraded (generation : GenerationId)
| StreamRestarting (generation : GenerationId)
| StreamStopping (generation : GenerationId)
| StreamFailed (generation : GenerationId) (summary : string).
#[export] Instance StreamState_eq_dec : EqDecision StreamState.
Proof. solve_decision. Defined.

(** [StreamState::is_running] *)
Definition is_running (s : StreamState) : bool :=
  match s with
  | StreamStarting _ | StreamStreaming _ | StreamDegraded _ | StreamRestarting _ => true
  | StreamStopped | StreamStopping _ | StreamFailed _ _ => false
  end.

(** ** Audio readings *)

Inductive LatencyChoice := LatencyLow | LatencyNormal | LatencyStable.
Inductive LatencyUnavailable := NotValidated.
#[export] Instance LatencyChoice_eq_dec : EqDecision LatencyChoice.
Proof. solve_decision. Defined.
#[export] Instance LatencyUnavailable_eq_dec : EqDecision LatencyUnavailable.
Proof. solve_decision. Defined.

Record LatencyOption := { lo_choice : LatencyChoice; lo_unavailable : option LatencyUnavailable }.
#[export] Instance LatencyOption_eq_dec : EqDecision LatencyOption.
Proof. solve_decision. Defined.
Record LatencyReading := { lr_selected : LatencyChoice; lr_options : list LatencyOption }.
#[export] Instance LatencyReading_eq_dec : EqDecision LatencyReading.
Proof. solve_decision. Defined.

Record AudioEndpointChoice := { ec_key : AudioEndpointKey; ec_name : string }.
#[export] Instance AudioEndpointChoice_eq_dec : EqDecision AudioEndpointChoice.
Proof. solve_decision. Defined.

Inductive AudioEndpointSelection :=
| SelSystemDefault
| SelChosen (key : AudioEndpointKey)
| SelChosenButMissing (name : string)
| SelChosenUnverified (name : string).
#[export] Instance AudioEndpointSelection_eq_dec : EqDecision AudioEndpointSelection.
Proof. solve_decision. Defined.

Inductive CaptureState :=
| Capturing | SilentSystem | CaptureRecovering | CaptureUnavailable | CaptureFailed.
#[export] Instance CaptureState_eq_dec : EqDecision CaptureState.
Proof. solve_decision. Defined.

Record AudioSourceReading := {
  as_endpoints_known : bool;
  as_refresh_failed : bool;
  as_endpoints : list AudioEndpointChoice;
  as_selection : AudioEndpointSelection;
  as_captured_key : option AudioEndpointKey;
  as_captured_name : option string;
  as_state : CaptureState;
}.
#[export] Instance AudioSourceReading_eq_dec : EqDecision AudioSourceReading.
Proof. solve_decision. Defined.

Inductive AudioEndpointRequest := ReqSystemDefault | ReqEndpoint (key : AudioEndpointKey).

(** ** Notices *)

Inductive Severity := SevInfo | SevWarning | SevError.
Inductive NoticeCode :=
| NoticeNoReceiverAvailable | NoticeDiscoveryFailed | NoticeSessionFailed
| NoticeControllerUnavailable | NoticePreferencesFailed | NoticeHotkeyFailed
| NoticeInvalidInput.
Inductive CorrectiveAction :=
| ActionRefresh | ActionRetry | ActionOpenSettings | ActionRetryPreferencesPersistence.
#[export] Instance Severity_eq_dec : EqDecision Severity.
Proof. solve_decision. Defined.
#[export] Instance NoticeCode_eq_dec : EqDecision NoticeCode.
Proof. solve_decision. Defined.
#[export] Instance CorrectiveAction_eq_dec : EqDecision CorrectiveAction.
Proof. solve_decision. Defined.

Record UserNotice := {
  n_severity : Severity;
  n_code : NoticeCode;
  n_summary : string;
  n_action : option CorrectiveAction;
}.
#[export] Instance UserNotice_eq_dec : EqDecision UserNotice.
Proof. solve_decision. Defined.

(** ** Diagnostics readings *)

Inductive DiagnosticsHealth := HealthUnknown | HealthRunning | HealthAttention | HealthError.
#[export] Instance DiagnosticsHealth_eq_dec : EqDecision DiagnosticsHealth.
Proof. solve_decision. Defined.
Record DiagnosticsReading := {
  dr_health : DiagnosticsHealth;
  dr_events_dropped_total : Z;
  dr_measured_receivers : Z;
}.
#[export] Instance DiagnosticsReading_eq_dec : EqDecision DiagnosticsReading.
Proof. solve_decision. Defined.

Record BufferDiagnosticsReading := {
  bd_queued_frames : Z; bd_capacity_frames : Z; bd_buffered_ms : Z; bd_underruns : Z;
}.
#[export] Instance BufferDiagnosticsReading_eq_dec : EqDecision BufferDiagnosticsReading.
Proof. solve_decision. Defined.
Record TransportDiagnosticsReading := {
  td_packets_accepted : Z; td_bytes_accepted : Z; td_send_failures : Z;
  td_retransmit_requests : Z;
}.
#[export] Instance TransportDiagnosticsReading_eq_dec : EqDecision TransportDiagnosticsReading.
Proof. solve_decision. Defined.
Inductive DiagnosticReceiverState :=
| DiagReady | DiagConnecting | DiagStreaming | DiagRecovering | DiagOffline | DiagFailed.
#[export] Instance DiagnosticReceiverState_eq_dec : EqDecision DiagnosticReceiverState.
Proof. solve_decision. Defined.
Inductive DiagnosticIssue :=
| IssuePairing | IssueSetup | IssueCapture | IssueTiming | IssueTransport | IssueFeedback
| IssueTeardown | IssueOther.
#[export] Instance DiagnosticIssue_eq_dec : EqDecision DiagnosticIssue.
Proof. solve_decision. Defined.
Record ReceiverDiagnosticsReading := {
  rd_id : DeviceId;
  rd_state : DiagnosticReceiverState;
  rd_transport : option TransportDiagnosticsReading;
  rd_issue : option DiagnosticIssue;
}.
#[export] Instance ReceiverDiagnosticsReading_eq_dec : EqDecision ReceiverDiagnosticsReading.
Proof. solve_decision. Defined.
Record LiveDiagnosticsReading := {
  ld_generation : GenerationId;
  ld_input_peak_per_mille : option Z;
  ld_capture_drops_total : Z;
  ld_buffer : option BufferDiagnosticsReading;
  ld_receivers : list ReceiverDiagnosticsReading;
}.
#[export] Instance LiveDiagnosticsReading_eq_dec : EqDecision LiveDiagnosticsReading.
Proof. solve_decision. Defined.

(** ** Hardware (listening) check: reducer-owned state *)

Inductive HardwareCheckAction :=
| CheckOpen | CheckPrepare (value : bool) | CheckLowerVolume | CheckStart
| CheckHeard (heard : bool) | CheckCancel.

Inductive HardwareCheckPhase :=
| PhasePreparation | PhaseConnecting | PhaseListening | PhaseStopPending | PhaseHeard
| PhaseNotHeard | PhaseInvalidated.
#[export] Instance HardwareCheckPhase_eq_dec : EqDecision HardwareCheckPhase.
Proof. solve_decision. Defined.

Record Binding := {
  bnd_receivers : gset DeviceId;
  bnd_endpoint : AudioEndpointSelection;
  bnd_captured_key : option AudioEndpointKey;
  bnd_captured_name : option string;
  bnd_volume : f32;
  bnd_levels : gmap DeviceId f32;
}.

Record HardwareCheck := {
  hc_phase : HardwareCheckPhase;
  hc_prepared : bool;
  hc_binding : option Binding;
  hc_generation : option GenerationId;
  hc_outcome : option bool;
}.
#[export] Instance eta_HardwareCheck : Eta HardwareCheck := fun h =>
  {| hc_phase := hc_phase h; hc_prepared := hc_prepared h; hc_binding := hc_binding h;
     hc_generation := hc_generation h; hc_outcome := hc_outcome h |}.

Definition default_check : HardwareCheck :=
  {| hc_phase := PhasePreparation; hc_prepared := false; hc_binding := None;
     hc_generation := None; hc_outcome := None |}.

(** ** The application state *)

Record Generations := {
  gen_discovery : GenerationId;
  gen_session : GenerationId;
  gen_volume : GenerationId;
  gen_preferences : GenerationId;
  gen_hotkey : GenerationId;
}.
#[export] Instance eta_Generations : Eta Generations := fun g =>
  {| gen_discovery := gen_discovery g; gen_session := gen_session g;
     gen_volume := gen_volume g; gen_preferences := gen_preferences g;
     gen_hotkey := gen_hotkey g |}.

Record AppState := {
  revision : Z;
  saved_groups : option (list SavedGroupReading);
  group_operation : option GroupOperation;
  next_group_request : Z;
  desired_known : bool;
  controller_closed : bool;
  desired_revision : Z;
  page : Page;
  window : WindowState;
  discovery : DiscoveryState;
  receivers : list ReceiverState;
  desired_receivers : gset DeviceId;
  staged_receivers : gset DeviceId;
  staged_base_revision : Z;
  active_receivers : gset DeviceId;
  stream : StreamState;
  master_volume : f32;
  volume_pending : bool;
  confirmed_master_volume : option f32;
  receiver_levels : option (gmap DeviceId f32);
  theme : ThemePreference;
  locale_preference : LocalePreference;
  windows_display_locale : ResolvedLocale;
  resolved_locale : ResolvedLocale;
  advanced_information : bool;
  hotkey : HotkeyBinding;
  notice : option UserNotice;
  muted : option bool;
  latency : option LatencyReading;
  audio_source : option AudioSourceReading;
  diagnostics : option DiagnosticsReading;
  live_diagnostics : option LiveDiagnosticsReading;
  hardware_check : HardwareCheck;
  shutting_down : bool;
  generations : Generations;
}.
#[export] Instance eta_AppState : Eta AppState := fun s =>
  {| revision := revision s; saved_groups := saved_groups s;
     group_operation := group_operation s; next_group_request := next_group_request s;
     desired_known := desired_known s; controller_closed := controller_closed s;
     desired_revision := desired_revision s; page := page s; window := window s;
     discovery := discovery s; receivers := receivers s;
     desired_receivers := desired_receivers s; staged_receivers := staged_receivers s;
     staged_base_revision := staged_base_revision s;
     active_receivers := active_receivers s; stream := stream s;
     master_volume := master_volume s; volume_pending := volume_pending s;
     confirmed_master_volume := confirmed_master_volume s;
     receiver_levels := receiver_levels s; theme := theme s;
     locale_preference := locale_preference s;
     windows_display_locale := windows_display_locale s;
     resolved_locale := resolved_locale s;
     advanced_information := advanced_information s; hotkey := hotkey s;
     notice := notice s; muted := muted s; latency := latency s;
     audio_source := audio_source s; diagnostics := diagnostics s;
     live_diagnostics := live_diagnostics s; hardware_check := hardware_check s;
     shutting_down := shutting_down s; generations := generations s |}.

(** [impl Default for AppState] *)
Definition default_state : AppState :=
  {| revision := 0; saved_groups := None; group_operation := None; next_group_request := 0;
     desired_known := false; controller_closed := false; desired_revision := 0;
     page := PageHome;
     window := {| win_visible := true; win_geometry := default_geometry;
                  win_close_to_tray := true; win_launch_at_startup := false |};
     discovery := DiscoveryIdle; receivers := []; desired_receivers := ∅;
     staged_receivers := ∅; staged_base_revision := 0; active_receivers := ∅;
     stream := StreamStopped; master_volume := f32_quarter; volume_pending := false;
     confirmed_master_volume := None; receiver_levels := None; theme := ThemeSystem;
     locale_preference := LocaleSystem; windows_display_locale := English;
     resolved_locale := English; advanced_information := false; hotkey := default_hotkey;
     notice := None; muted := None; latency := None; audio_source := None;
     diagnostics := None; live_diagnostics := None; hardware_check := default_check;
     shutting_down := false;
     generations := {| gen_discovery := 0; gen_session := 0; gen_volume := 0;
                       gen_preferences := 0; gen_hotkey := 0 |} |}.

(** ** Events ([event.rs]) *)

Inductive ControllerEvent :=
| SavedGroupsChanged (groups : list SavedGroupReading)
| GroupOperationFinished (request : Z) (status : GroupOperationStatus)
| ReceiverLevelsChanged (levels : gmap DeviceId f32)
| DiscoveryCompleted (generation : GenerationId) (found : list ReceiverState)
| DiscoveryFailedEvent (generation : GenerationId) (summary : string)
| DesiredReceiversChanged (revision : Z) (receiver_ids : list DeviceId)
| SessionStarted (generation : GenerationId) (active_receiver_ids : list DeviceId)
| SessionDegraded (generation : GenerationId) (active_receiver_ids : list DeviceId)
| SessionRestarting (generation : GenerationId)
| SessionStopped (generation : GenerationId)
| SessionFailed (generation : GenerationId) (summary : string)
| VolumeApplied (generation : GenerationId) (volume : f32)
| MuteChanged (muted : bool)
| LatencyChanged (reading : LatencyReading)
| AudioSourceChanged (reading : AudioSourceReading)
| DiagnosticsUpdated (reading : DiagnosticsReading)
| LiveDiagnosticsUpdated (reading : LiveDiagnosticsReading)
| ChannelClosed (summary : string).

Inductive PreferencesEvent :=
| PreferencesLoaded (value : Preferences) (notice : option UserNotice)
| PreferencesLoadFailed (summary : string)
| PreferencesPersisted (generation : GenerationId)
| PreferencesPersistFailed (generation : GenerationId)
| HotkeyReconfigured (generation : GenerationId) (applied : HotkeyBinding)
    (failure : option string).

Inductive AppEvent :=
| HardwareCheckEvent (action : HardwareCheckAction)
| GroupRequested (command : GroupCommand)
| Navigate (page : Page)
| MainWindowCloseRequested
| ShowMainWindow
| ToggleStagedReceiver (receiver : DeviceId)
| ApplyStagedReceivers
| DiscardStagedReceivers
| StartRequested
| StopRequested
| GlobalHotkeyPressed
| RefreshRequested
| MasterVolumeChanged (volume : f32)
| ReceiverLevelRequested (receiver : DeviceId) (level : f32)
| MuteChangeRequested (muted : bool)
| LatencyChoiceRequested (choice : LatencyChoice)
| AudioEndpointRequested (request : AudioEndpointRequest)
| ThemeChanged (theme : ThemePreference)
| LocaleChanged (preference : LocalePreference)
| AdvancedInformationChanged (enabled : bool)
| WindowsDisplayLanguageChanged (locale : ResolvedLocale)
| RetryPreferencesPersistence
| HotkeyChanged (binding : HotkeyBinding)
| WindowGeometryChanged (geometry : WindowGeometry)
| Controller (event : ControllerEvent)
| PreferencesEv (event : PreferencesEvent)
| QuitRequested.

(** ** Effects ([effect.rs]) *)

Inductive AppEffect :=
| EffPlayListeningTone (generation : GenerationId)
| EffGroup (request : Z) (generation : option GenerationId) (command : GroupCommand)
| EffApplyReceiverLevel (receiver : DeviceId) (level : f32)
| EffDiscover (generation : GenerationId)
| EffStartSession (generation : GenerationId) (receiver_ids : list DeviceId) (volume : f32)
| EffStopSession (generation : GenerationId)
| EffApplyVolume (generation : GenerationId) (volume : f32)
| EffApplyMute (muted : bool)
| EffApplyLatency (choice : LatencyChoice)
| EffApplyAudioEndpoint (request : AudioEndpointRequest)
| EffPersistPreferences (generation : GenerationId) (value : Preferences)
| EffReconfigureHotkey (generation : GenerationId) (value : HotkeyBinding)
| EffShowMainWindow
| EffHideMainWindow
| EffBeginShutdown.

(** ** Equality tests that go through IEEE comparison *)

(** [BTreeMap<DeviceId, f32>: PartialEq]: same keys, IEEE-equal values. *)
Definition levels_eqb (a b : gmap DeviceId f32) : bool :=
  (dom a ==? dom b)
  && forallb (fun kv => is_some_and (b !! kv.1) (f32_eqb kv.2)) (map_to_list a).

Definition group_member_eqb (a b : GroupMember) : bool :=
  (gm_receiver a ==? gm_receiver b) && (gm_name a ==? gm_name b)
  && f32_eqb (gm_level a) (gm_level b).

Definition saved_group_eqb (a b : SavedGroupReading) : bool :=
  (sg_id a ==? sg_id b) && (sg_name a ==? sg_name b)
  && list_eqb group_member_eqb (sg_members a) (sg_members b)
  && (sg_available_members a ==? sg_available_members b).

(** ** The receiver order is total *)

Lemma bytes_leb_total x y : bytes_leb x y = true \/ bytes_leb y x = true.
Proof.
  revert y; induction x as [|a x IH]; intros [|b y]; cbn; auto.
  rewrite (Z.eqb_sym b a). destruct (Z.eqb_spec a b); [apply IH|].
  destruct (Z.ltb_spec a b); [auto|]. right. apply Z.ltb_lt. lia.
Qed.

Lemma bytes_leb_trans x y z :
  bytes_leb x y = true -> bytes_leb y z = true -> bytes_leb x z = true.
Proof.
  revert y z; induction x as [|a x IH]; intros [|b y] [|c z]; cbn; try congruence.
  destruct (Z.eqb_spec a b), (Z.eqb_spec b c), (Z.eqb_spec a c); subst; try lia; eauto;
    rewrite ?Z.ltb_lt; lia.
Qed.

Lemma device_leb_total x y : device_leb x y = true \/ device_leb y x = true.
Proof. apply bytes_leb_total. Qed.

Lemma device_leb_trans x y z :
  device_leb x y = true -> device_leb y z = true -> device_leb x z = true.
Proof. apply bytes_leb_trans. Qed.

#[export] Hint Resolve device_leb_total device_leb_trans : cast.
