(* ===== verification/HardwareCheck.v ===== *)
(** * The listening check's guards

    [apps/openaircast/src/app/hardware_check.rs]: which state makes the
    audible check admissible, what it binds to, and the projection the
    reducer compares before and after every event. *)

From S2P Require Import Prelude Float32 AppState.

Inductive HardwareCheckBlocker :=
| BlockUnavailable | BlockStopPending | BlockSessionRunning | BlockSelection
| BlockSelectionPending | BlockOffline | BlockReceiverLevels | BlockMuted | BlockLatency
| BlockVolumePending | BlockVolume | BlockSource | BlockConfirmation.
#[export] Instance HardwareCheckBlocker_eq_dec : EqDecision HardwareCheckBlocker.
Proof. solve_decision. Defined.

Record HardwareCheckSnapshot := {
  hs_phase : HardwareCheckPhase;
  hs_prepared : bool;
  hs_ready : bool;
  hs_can_confirm : bool;
  hs_count : nat;
  hs_blocker : option HardwareCheckBlocker;
}.
#[export] Instance HardwareCheckSnapshot_eq_dec : EqDecision HardwareCheckSnapshot.
Proof. solve_decision. Defined.

(** [fn binding]: every [?] that fails yields [None]. *)
Definition binding (s : AppState) : option Binding :=
  src ← audio_source s;
  volume ← confirmed_master_volume s;
  levels ← receiver_levels s;
  Some {| bnd_receivers := desired_receivers s; bnd_endpoint := as_selection src;
          bnd_captured_key := as_captured_key src;
          bnd_captured_name := as_captured_name src;
          bnd_volume := volume; bnd_levels := levels |}.

Definition operation_pending (s : AppState) : bool :=
  is_some_and (group_operation s) (fun o => op_status o ==? OperationPending).

(** [!desired.iter().all(..)]: every desired receiver has an available row. *)
Definition all_desired_online (s : AppState) : bool :=
  forallb (fun d => existsb (fun r => (rs_id r ==? d) && (rs_availability r ==? Available))
                      (receivers s))
    (elements (desired_receivers s)).

Definition level_audible (level : f32) : bool :=
  f32_is_finite level && f32_ltb f32_zero level && f32_leb level f32_one.

Definition levels_audible (s : AppState) : bool :=
  is_some_and (receiver_levels s) (fun levels =>
    forallb (fun d => level_audible (default f32_one (levels !! d)))
      (elements (desired_receivers s))).

Definition volume_safe (s : AppState) : bool :=
  is_some_and (confirmed_master_volume s) (fun v =>
    f32_is_finite v && f32_ltb f32_zero v && f32_leb v f32_0_15
    && f32_eqb v (master_volume s)).

Definition source_usable (a : AudioSourceReading) : bool :=
  as_endpoints_known a && negb (as_refresh_failed a)
  && match as_endpoints a with [] => false | _ => true end
  && match as_selection a with SelSystemDefault | SelChosen _ => true | _ => false end
  && match as_state a with Capturing | SilentSystem => true | _ => false end.

Definition prerequisite_blocker (s : AppState) : option HardwareCheckBlocker :=
  if shutting_down s || controller_closed s then Some BlockUnavailable
  else if negb (desired_known s) || (desired_receivers s ==? ∅) then Some BlockSelection
  else if negb (staged_receivers s ==? desired_receivers s) || operation_pending s
  then Some BlockSelectionPending
  else if negb (all_desired_online s) then Some BlockOffline
  else if negb (levels_audible s) then Some BlockReceiverLevels
  else if negb (muted s ==? Some false) then Some BlockMuted
  else if negb (is_some_and (latency s) (fun l => lr_selected l ==? LatencyNormal))
  then Some BlockLatency
  else if volume_pending s then Some BlockVolumePending
  else if negb (volume_safe s) then Some BlockVolume
  else if negb (is_some_and (audio_source s) source_usable) then Some BlockSource
  else None.

(** [pub fn ready] *)
Definition ready (s : AppState) : bool := is_none (prerequisite_blocker s).

Definition is_stream_failed (t : StreamState) : bool :=
  match t with StreamFailed _ _ => true | _ => false end.
Definition is_stream_stopping (t : StreamState) : bool :=
  match t with StreamStopping _ => true | _ => false end.
Definition is_stream_streaming (t : StreamState) : bool :=
  match t with StreamStreaming _ => true | _ => false end.

Definition start_blocker (s : AppState) : option HardwareCheckBlocker :=
  if shutting_down s || controller_closed s || is_stream_failed (stream s)
  then Some BlockUnavailable
  else if (hc_phase (hardware_check s) ==? PhaseStopPending) || is_stream_stopping (stream s)
  then Some BlockStopPending
  else if negb (stream s ==? StreamStopped) then Some BlockSessionRunning
  else match prerequisite_blocker s with
       | Some b => Some b
       | None => if negb (hc_prepared (hardware_check s)) then Some BlockConfirmation else None
       end.

(** [HardwareCheck::bind] *)
Definition bind_check (self : HardwareCheck) (s : AppState) : HardwareCheck :=
  self <| hc_binding := binding s |>
       <| hc_generation := Some (gen_session (generations s)) |>
       <| hc_phase := PhaseConnecting |>
       <| hc_outcome := None |>.

(** [HardwareCheck::matches] *)
Definition matches_check (self : HardwareCheck) (s : AppState) : bool :=
  ready s
  && is_some_and (hc_binding self) (fun bound =>
       is_some_and (audio_source s) (fun source =>
         (bnd_endpoint bound ==? as_selection source)
         && (bnd_captured_key bound ==? as_captured_key source)
         && (bnd_captured_name bound ==? as_captured_name source))
       && (bnd_receivers bound ==? desired_receivers s)
       && option_eqb f32_eqb (Some (bnd_volume bound)) (confirmed_master_volume s)
       && option_eqb levels_eqb (receiver_levels s) (Some (bnd_levels bound))).

(** [HardwareCheckSnapshot::from_state] *)
Definition check_snapshot (s : AppState) : HardwareCheckSnapshot :=
  let blocker := start_blocker s in
  {| hs_phase := hc_phase (hardware_check s);
     hs_prepared := hc_prepared (hardware_check s);
     hs_ready := is_none blocker || (blocker ==? Some BlockConfirmation);
     hs_can_confirm :=
       (hc_phase (hardware_check s) ==? PhaseListening)
       && matches_check (hardware_check s) s
       && (hc_generation (hardware_check s) ==? Some (gen_session (generations s)))
       && is_stream_streaming (stream s)
       && (active_receivers s ==? desired_receivers s);
     hs_count := size (desired_receivers s);
     hs_blocker := blocker |}.

(** ** What [ready] guarantees *)

Record check_ready (s : AppState) : Prop := {
  cr_open : shutting_down s = false /\ controller_closed s = false;
  cr_known : desired_known s = true /\ desired_receivers s <> ∅;
  cr_staged : staged_receivers s = desired_receivers s /\ operation_pending s = false;
  cr_online : all_desired_online s = true;
  cr_levels : levels_audible s = true;
  cr_muted : muted s = Some false;
  cr_latency : is_some_and (latency s) (fun l => lr_selected l ==? LatencyNormal) = true;
  cr_volume_settled : volume_pending s = false;
  cr_volume : volume_safe s = true;
  cr_source : is_some_and (audio_source s) source_usable = true;
}.

Lemma ready_spec s : ready s = true <-> check_ready s.
Proof.
  unfold ready, prerequisite_blocker. split.
  - intros H. repeat (split_match_in H; [discriminate|]). bool_simpl. by constructor.
  - intros []. destruct_and!.
    repeat case_bool_decide; repeat match goal with H : _ = _ |- _ => rewrite H; cbn end; done.
Qed.

(** A ready selection has at least one available desired receiver. *)
Lemma ready_available s :
  ready s = true ->
  exists r, r ∈ receivers s /\ rs_id r ∈ desired_receivers s /\ rs_availability r = Available.
Proof.
  intros H%ready_spec. destruct H as [_ [_ Hne] _ Hon _ _ _ _ _ _].
  destruct (set_choose_L _ Hne) as [d Hd].
  unfold all_desired_online in Hon. rewrite forallb_elem in Hon.
  specialize (Hon d). rewrite elem_of_elements, existsb_elem in Hon.
  destruct (Hon Hd) as (r & Hr & Hp). bool_simpl. subst. eauto.
Qed.
