(* ===== verification/Reducer.v ===== *)
(** * The application reducer

    [apps/openaircast/src/app/reducer.rs]: every handler and the dispatch
    function [reduce].  A handler [fn h(state: &mut AppState, ..) ->
    (Vec<AppEffect>, bool)] becomes a function to [Step]: the new state, the
    effects to run, and whether the published snapshot changed.  Nothing is
    left out of the dispatch; [to_lowercase] (Unicode case mapping, used only
    to break ties when the hotkey picks a receiver) is a parameter. *)

From S2P Require Import Prelude Float32 AppState HardwareCheck.

Definition Step : Type := AppState * (list AppEffect * bool).
Record Transition := { t_effects : list AppEffect; t_snapshot_changed : bool }.

(** ** Generations *)

(** [next_generation(&mut state.generations.session)] and its four siblings. *)
Definition bump_session (s : AppState) : GenerationId * AppState :=
  let g := u64_succ (gen_session (generations s)) in
  (g, s <| generations := (generations s) <| gen_session := g |> |>).
Definition bump_discovery (s : AppState) : GenerationId * AppState :=
  let g := u64_succ (gen_discovery (generations s)) in
  (g, s <| generations := (generations s) <| gen_discovery := g |> |>).
Definition bump_volume (s : AppState) : GenerationId * AppState :=
  let g := u64_succ (gen_volume (generations s)) in
  (g, s <| generations := (generations s) <| gen_volume := g |> |>).
Definition bump_preferences (s : AppState) : GenerationId * AppState :=
  let g := u64_succ (gen_preferences (generations s)) in
  (g, s <| generations := (generations s) <| gen_preferences := g |> |>).
Definition bump_hotkey (s : AppState) : GenerationId * AppState :=
  let g := u64_succ (gen_hotkey (generations s)) in
  (g, s <| generations := (generations s) <| gen_hotkey := g |> |>).

(** ** Preferences *)

Definition preferences_from_state (s : AppState) : Preferences :=
  {| pref_schema_version := PREFERENCES_SCHEMA_VERSION;
     pref_hotkey := hotkey s;
     pref_theme := theme s;
     pref_locale := locale_preference s;
     pref_advanced_information := advanced_information s;
     pref_window := win_geometry (window s);
     pref_last_page := page s;
     pref_close_to_tray := win_close_to_tray (window s);
     pref_launch_at_startup := win_launch_at_startup (window s) |}.

Definition persist_preferences (s : AppState) : AppEffect * AppState :=
  let (g, s) := bump_preferences s in
  (EffPersistPreferences g (preferences_from_state s), s).

(** The common tail [(vec![persist_preferences(state)], true)]. *)
Definition persisting (s : AppState) : Step :=
  let (e, s) := persist_preferences s in (s, ([e], true)).

Definition navigate (s : AppState) (p : Page) : Step :=
  if page s ==? p then (s, ([], false)) else persisting (s <| page := p |>).

Definition theme_changed (s : AppState) (t : ThemePreference) : Step :=
  if theme s ==? t then (s, ([], false)) else persisting (s <| theme := t |>).

Definition locale_changed (s : AppState) (p : LocalePreference) : Step :=
  if locale_preference s ==? p then (s, ([], false))
  else persisting (s <| locale_preference := p |>
                     <| resolved_locale := resolve p (windows_display_locale s) |>).

Definition advanced_information_changed (s : AppState) (enabled : bool) : Step :=
  if advanced_information s ==? enabled then (s, ([], false))
  else persisting (s <| advanced_information := enabled |>).

Definition windows_display_language_changed (s : AppState) (l : ResolvedLocale) : Step :=
  let s := s <| windows_display_locale := l |> in
  let resolved := resolve (locale_preference s) l in
  let changed := negb (resolved_locale s ==? resolved) in
  (s <| resolved_locale := resolved |>, ([], changed)).

(** The recurring "publish this notice" step; the flag tells whether the slot
    changed. *)
Definition publish_notice (s : AppState) (n : UserNotice) : AppState * bool :=
  (s <| notice := Some n |>, negb (notice s ==? Some n)).

Definition reject_invalid_input (s : AppState) (summary : string) : Step :=
  let (s', changed) := publish_notice s
    {| n_severity := SevWarning; n_code := NoticeInvalidInput; n_summary := summary;
       n_action := None |} in
  (s', ([], changed)).

Definition window_geometry_changed (s : AppState) (g : WindowGeometry) : Step :=
  match validate_geometry g with
  | None =>
      reject_invalid_input s "Window geometry was ignored because it contains invalid values."
  | Some valid =>
      if geometry_eqb (win_geometry (window s)) valid then (s, ([], false))
      else persisting (s <| window := (window s) <| win_geometry := valid |> |>)
  end.

Definition hotkey_changed (s : AppState) (b : HotkeyBinding) : Step :=
  if hotkey s ==? b then (s, ([], false))
  else let (g, s) := bump_hotkey s in (s, ([EffReconfigureHotkey g b], false)).

Definition hotkey_reconfigured (s : AppState) (g : GenerationId) (applied : HotkeyBinding)
    (failure : option string) : Step :=
  if negb (g =? gen_hotkey (generations s)) then (s, ([], false))
  else
    let changed := negb (hotkey s ==? applied) in
    let s := s <| hotkey := applied |> in
    let '(s, changed) :=
      match failure with
      | Some summary =>
          let (s', c) := publish_notice s
            {| n_severity := SevWarning; n_code := NoticeHotkeyFailed; n_summary := summary;
               n_action := Some ActionOpenSettings |} in
          (s', changed || c)
      | None => (s, changed)
      end in
    if negb changed then (s, ([], false)) else persisting s.

Definition preferences_persist_failed_notice : UserNotice :=
  {| n_severity := SevWarning; n_code := NoticePreferencesFailed;
     n_summary := "Your settings could not be saved.";
     n_action := Some ActionRetryPreferencesPersistence |}.

Definition is_scoped_persistence_notice (n : UserNotice) : bool :=
  (n_code n ==? NoticePreferencesFailed)
  && (n_action n ==? Some ActionRetryPreferencesPersistence).

Definition outranks_persistence_failure (n : UserNotice) : bool := n_severity n ==? SevError.

Definition preferences_persist_failed (s : AppState) (g : GenerationId) : Step :=
  if negb (g =? gen_preferences (generations s)) then (s, ([], false))
  else if is_some_and (notice s) outranks_persistence_failure then (s, ([], false))
  else let (s', changed) := publish_notice s preferences_persist_failed_notice in
       (s', ([], changed)).

Definition preferences_persisted (s : AppState) (g : GenerationId) : Step :=
  if negb (g =? gen_preferences (generations s)) then (s, ([], false))
  else if negb (is_some_and (notice s) is_scoped_persistence_notice) then (s, ([], false))
  else (s <| notice := None |>, ([], true)).

Definition retry_preferences_persistence (s : AppState) : Step :=
  let (e, s) := persist_preferences s in (s, ([e], false)).

(** ** Window *)

Definition main_window_close_requested (s : AppState) : Step :=
  (s <| window := (window s) <| win_visible := false |> |>,
   ([EffHideMainWindow], win_visible (window s))).

Definition show_main_window (s : AppState) : Step :=
  (s <| window := (window s) <| win_visible := true |> |>,
   ([EffShowMainWindow], negb (win_visible (window s)))).

(** ** Inventory *)

(** [str: Ord] is the byte-lexicographic order. *)
Definition str_ltb (a b : string) : bool :=
  match String.compare a b with Lt => true | _ => false end.

Definition receiver_preference_key (r : ReceiverState) : Z * string * string :=
  (match rs_availability r with Available => 0 | Unavailable => 1 end, rs_name r, rs_model r).

Definition key_ltb (a b : Z * string * string) : bool :=
  let '(a1, a2, a3) := a in
  let '(b1, b2, b3) := b in
  if a1 <? b1 then true else if b1 <? a1 then false
  else if str_ltb a2 b2 then true else if str_ltb b2 a2 then false
  else str_ltb a3 b3.

Definition receiver_precedes (candidate current : ReceiverState) : bool :=
  key_ltb (receiver_preference_key candidate) (receiver_preference_key current).

(** [state.receivers.retain(..)] *)
Definition receiver_relevant (s : AppState) (r : ReceiverState) : bool :=
  (rs_availability r ==? Available)
  || bool_decide (rs_id r ∈ desired_receivers s)
  || bool_decide (rs_id r ∈ staged_receivers s).

Definition prune_irrelevant_unavailable (s : AppState) : AppState * bool :=
  let kept := List.filter (receiver_relevant s) (receivers s) in
  (s <| receivers := kept |>, negb (length kept =? length (receivers s))%nat).

Definition pruned (s : AppState) : AppState := (prune_irrelevant_unavailable s).1.

(** One iteration of the first loop of [merge_discovery]. *)
Fixpoint merge_receiver (merged : list ReceiverState) (r : ReceiverState) : list ReceiverState :=
  match merged with
  | [] => [r]
  | existing :: rest =>
      if rs_id existing ==? rs_id r
      then (if receiver_precedes r existing then r else existing) :: rest
      else existing :: merge_receiver rest r
  end.

(** One iteration of the second loop: a previous, still relevant receiver that
    the browse did not report stays, marked unavailable. *)
Definition keep_previous (s : AppState) (merged : list ReceiverState) (previous : ReceiverState)
  : list ReceiverState :=
  let is_missing := negb (existsb (fun r => rs_id r ==? rs_id previous) merged) in
  let is_relevant := bool_decide (rs_id previous ∈ desired_receivers s)
                     || bool_decide (rs_id previous ∈ staged_receivers s) in
  if is_missing && is_relevant
  then merged ++ [previous <| rs_availability := Unavailable |>]
  else merged.

Definition receiver_leb (a b : ReceiverState) : bool := device_leb (rs_id a) (rs_id b).

Definition merged_receivers (s : AppState) (found : list ReceiverState) : list ReceiverState :=
  isort receiver_leb
    (fold_left (keep_previous s) (receivers s) (fold_left merge_receiver found [])).

Definition is_discovery_failed_notice (n : UserNotice) : bool := n_code n ==? NoticeDiscoveryFailed.

Definition merge_discovery (s : AppState) (g : GenerationId) (found : list ReceiverState) : Step :=
  if negb (g =? gen_discovery (generations s)) then (s, ([], false))
  else
    let merged := merged_receivers s found in
    let retracts := is_some_and (notice s) is_discovery_failed_notice in
    let changed := negb (discovery s ==? DiscoveryReady)
                   || negb (receivers s ==? merged) || retracts in
    let s := s <| discovery := DiscoveryReady |> <| receivers := merged |> in
    (if retracts then s <| notice := None |> else s, ([], changed)).

Definition discovery_failed (s : AppState) (g : GenerationId) (summary : string) : Step :=
  if negb (g =? gen_discovery (generations s)) then (s, ([], false))
  else
    let d := DiscoveryFailed summary in
    let changed := negb (discovery s ==? d) in
    let (s', c) := publish_notice (s <| discovery := d |>)
      {| n_severity := SevWarning; n_code := NoticeDiscoveryFailed; n_summary := summary;
         n_action := Some ActionRefresh |} in
    (s', ([], changed || c)).

Definition refresh_requested (s : AppState) : Step :=
  if shutting_down s then (s, ([], false))
  else let (g, s) := bump_discovery s in
       (s <| discovery := DiscoveryDiscovering g |>, ([EffDiscover g], true)).

(** ** Selection *)

Definition sort_ids (ids : list DeviceId) : list DeviceId := isort device_leb ids.

Definition available_selected (s : AppState) (r : ReceiverState) : bool :=
  (rs_availability r ==? Available) && bool_decide (rs_id r ∈ desired_receivers s).

Definition available_selected_ids (s : AppState) : list DeviceId :=
  sort_ids (elements (list_to_set
    (List.map rs_id (List.filter (available_selected s) (receivers s))) : gset DeviceId)).

Definition toggle_staged (s : AppState) (d : DeviceId) : Step :=
  let staged := staged_receivers s in
  let staged := if bool_decide (d ∈ staged) then staged ∖ {[d]} else {[d]} ∪ staged in
  (pruned (s <| staged_receivers := staged |>), ([], true)).

Definition group_requested (s : AppState) (command : GroupCommand) : Step :=
  if shutting_down s || operation_pending s then (s, ([], false))
  else
    let s := s <| next_group_request := u64_succ (next_group_request s) |> in
    let request := next_group_request s in
    let status := if controller_closed s then OperationFailed GroupClosed else OperationPending in
    let s := s <| group_operation :=
                 Some {| op_request := request; op_command := command; op_status := status |} |> in
    if controller_closed s then (s, ([], true))
    else
      let starts :=
        match command with GroupApply _ true => true | _ => false end
        && match stream s with
           | StreamStopped | StreamFailed _ _ | StreamStopping _ => true
           | _ => false
           end in
      if starts then
        let (g, s) := bump_session s in
        (s <| stream := StreamStarting g |> <| active_receivers := ∅ |>,
         ([EffGroup request (Some g) command], true))
      else (s, ([EffGroup request None command], true)).

Definition apply_staged (s : AppState) : Step :=
  if desired_known s then
    group_requested s (GroupApplySelection (sort_ids (elements (staged_receivers s))))
  else
    let s := s <| desired_revision := u64_succ (desired_revision s) |> in
    let s := s <| desired_receivers := staged_receivers s |>
               <| staged_base_revision := desired_revision s |> in
    let s := pruned s in
    if negb (is_running (stream s)) then (s, ([], true))
    else if desired_receivers s ==? ∅ then
      let (g, s) := bump_session s in (s, ([EffStopSession g], true))
    else
      let ids := available_selected_ids s in
      match ids with
      | [] => (s, ([], true))
      | _ => let (g, s) := bump_session s in
             (s, ([EffStartSession g ids (master_volume s)], true))
      end.

Definition discard_staged (s : AppState) : Step :=
  if operation_pending s then (s, ([], false))
  else
    let acknowledged := is_some_and (group_operation s) (fun o =>
      match op_command o with GroupApplySelection _ => true | _ => false end) in
    let s := if acknowledged then s <| group_operation := None |> else s in
    let membership_changed := negb (staged_receivers s ==? desired_receivers s)
                              || negb (staged_base_revision s =? desired_revision s) in
    let s := s <| staged_receivers := desired_receivers s |>
               <| staged_base_revision := desired_revision s |> in
    let (s, inventory_changed) := prune_irrelevant_unavailable s in
    (s, ([], membership_changed || inventory_changed || acknowledged)).

Definition update_desired (s : AppState) (rev : Z) (ids : list DeviceId) : Step :=
  if (rev <? desired_revision s) || (desired_known s && (rev =? desired_revision s))
  then (s, ([], false))
  else
    let staging_was_clean := staged_receivers s ==? desired_receivers s in
    let s := s <| desired_known := true |>
               <| desired_receivers := list_to_set ids |>
               <| desired_revision := rev |> in
    let s := if staging_was_clean || (staged_receivers s ==? desired_receivers s)
             then s <| staged_receivers := desired_receivers s |>
                    <| staged_base_revision := rev |>
             else s in
    (pruned s, ([], true)).

(** ** Session *)

Definition start_with_receiver_ids (s : AppState) (ids : list DeviceId) : Step :=
  let (g, s) := bump_session s in
  let s := s <| stream := StreamStarting g |> <| active_receivers := ∅ |> in
  (s, ([EffStartSession g ids (f32_clamp (master_volume s) f32_zero f32_one)], true)).

Definition startable (t : StreamState) : bool :=
  match t with StreamStopped | StreamFailed _ _ => true | _ => false end.

Definition start_requested (s : AppState) : Step :=
  if shutting_down s || negb (startable (stream s)) then (s, ([], false))
  else
    match available_selected_ids s with
    | [] => (s, ([], false))
    | ids => start_with_receiver_ids s
               (if desired_known s then sort_ids (elements (desired_receivers s)) else ids)
    end.

Definition stop_requested (s : AppState) : Step :=
  if negb (is_running (stream s)) then (s, ([], false))
  else
    let (g, s) := bump_session s in
    (s <| stream := StreamStopping g |> <| active_receivers := ∅ |>,
     ([EffStopSession g], true)).

Definition clear_session_failure_notice (s : AppState) : AppState * bool :=
  if is_some_and (notice s) (fun n => n_code n ==? NoticeSessionFailed)
  then (s <| notice := None |>, true) else (s, false).

(** [session_started] and [session_degraded] differ only in the phase. *)
Definition session_live (phase : GenerationId -> StreamState)
    (s : AppState) (g : GenerationId) (ids : list DeviceId) : Step :=
  if negb (g =? gen_session (generations s)) then (s, ([], false))
  else
    let active : gset DeviceId := list_to_set ids in
    let (s, retracts) := clear_session_failure_notice s in
    let changed := negb (stream s ==? phase g) || negb (active_receivers s ==? active)
                   || retracts in
    (s <| stream := phase g |> <| active_receivers := active |>, ([], changed)).

Definition session_started : AppState -> GenerationId -> list DeviceId -> Step :=
  session_live StreamStreaming.
Definition session_degraded : AppState -> GenerationId -> list DeviceId -> Step :=
  session_live StreamDegraded.

Definition session_restarting (s : AppState) (g : GenerationId) : Step :=
  if negb (g =? gen_session (generations s)) then (s, ([], false))
  else
    let changed := negb (stream s ==? StreamRestarting g) || negb (active_receivers s ==? ∅) in
    (s <| stream := StreamRestarting g |> <| active_receivers := ∅ |>, ([], changed)).

Definition session_stopped (s : AppState) (g : GenerationId) : Step :=
  if negb (g =? gen_session (generations s)) then (s, ([], false))
  else
    let changed := negb (stream s ==? StreamStopped) || negb (active_receivers s ==? ∅) in
    (s <| stream := StreamStopped |> <| active_receivers := ∅ |>, ([], changed)).

Definition session_failed (s : AppState) (g : GenerationId) (summary : string) : Step :=
  if negb (g =? gen_session (generations s)) then (s, ([], false))
  else
    let changed := negb (stream s ==? StreamStopped) || negb (active_receivers s ==? ∅) in
    let (s', c) := publish_notice (s <| stream := StreamStopped |> <| active_receivers := ∅ |>)
      {| n_severity := SevError; n_code := NoticeSessionFailed; n_summary := summary;
         n_action := Some ActionRetry |} in
    (s', ([], changed || c)).

Definition quit_requested (s : AppState) : Step :=
  if shutting_down s then (s, ([], false))
  else
    let s := s <| shutting_down := true |> in
    let (persist, s) := persist_preferences s in
    let '(s, stop) :=
      if is_running (stream s) then
        let (g, s) := bump_session s in
        (s <| stream := StreamStopping g |> <| active_receivers := ∅ |>, [EffStopSession g])
      else (s, []) in
    (s, ([persist] ++ stop ++ [EffHideMainWindow; EffBeginShutdown], true)).

(** ** Readings and settings *)

Definition diagnostics_updated (s : AppState) (r : DiagnosticsReading) : Step :=
  if diagnostics s ==? Some r then (s, ([], false))
  else (s <| diagnostics := Some r |>, ([], true)).

Definition live_diagnostics_updated (s : AppState) (r : LiveDiagnosticsReading) : Step :=
  if controller_closed s || negb (ld_generation r =? gen_session (generations s))
     || (live_diagnostics s ==? Some r)
  then (s, ([], false))
  else (s <| live_diagnostics := Some r |>, ([], true)).

Definition channel_closed (s : AppState) (summary : string) : Step :=
  let s := s <| controller_closed := true |> in
  let volume_changed := volume_pending s in
  let s :=
    if volume_pending s then
      (match confirmed_master_volume s with
       | Some confirmed => s <| master_volume := confirmed |>
       | None => s
       end) <| volume_pending := false |>
    else s in
  let '(s, operation_changed) :=
    match group_operation s with
    | Some o =>
        if op_status o ==? OperationPending
        then (s <| group_operation := Some (o <| op_status := OperationFailed GroupClosed |>) |>,
              true)
        else (s, false)
    | None => (s, false)
    end in
  let (s', c) := publish_notice s
    {| n_severity := SevError; n_code := NoticeControllerUnavailable; n_summary := summary;
       n_action := None |} in
  (s', ([], volume_changed || operation_changed || c)).

Definition master_volume_changed (s : AppState) (volume : f32) : Step :=
  if negb (f32_is_finite volume)
  then reject_invalid_input s "Master volume must be between 0% and 100%."
  else
    let clamped := f32_clamp volume f32_zero f32_one in
    let (g, s) := bump_volume s in
    let s := if negb (volume_pending s)
             then s <| confirmed_master_volume := Some (master_volume s) |> else s in
    let s := s <| volume_pending := true |> in
    let changed := negb (f32_eqb (master_volume s) clamped) in
    (s <| master_volume := clamped |>, ([EffApplyVolume g clamped], changed)).

Definition volume_applied (s : AppState) (g : GenerationId) (volume : f32) : Step :=
  let s :=
    if f32_is_finite volume && ((g =? 0) || (g =? gen_volume (generations s)))
    then s <| confirmed_master_volume := Some volume |> else s in
  if f32_is_finite volume
     && ((g =? gen_volume (generations s)) || ((g =? 0) && negb (volume_pending s)))
  then
    let changed := negb (f32_eqb (master_volume s) volume) in
    let s := s <| master_volume := volume |> in
    (if negb (g =? 0) then s <| volume_pending := false |> else s, ([], changed))
  else (s, ([], false)).

Definition receiver_level_requested (s : AppState) (d : DeviceId) (level : f32) : Step :=
  if shutting_down s || is_none (receiver_levels s) || negb (f32_is_finite level)
     || negb (existsb (fun row => rs_id row ==? d) (receivers s))
  then (s, ([], false))
  else (s, ([EffApplyReceiverLevel d (f32_clamp level f32_zero f32_one)], false)).

Definition receiver_levels_changed (s : AppState) (levels : gmap DeviceId f32) : Step :=
  (s <| receiver_levels := Some levels |>,
   ([], negb (option_eqb levels_eqb (receiver_levels s) (Some levels)))).

Definition mute_change_requested (s : AppState) (m : bool) : Step :=
  if muted s ==? Some m then (s, ([], false)) else (s, ([EffApplyMute m], false)).

Definition latency_choice_requested (s : AppState) (choice : LatencyChoice) : Step :=
  match latency s with
  | None => (s, ([], false))
  | Some reading =>
      if negb (existsb (fun o => (lo_choice o ==? choice) && is_none (lo_unavailable o))
                 (lr_options reading))
      then (s, ([], false))
      else if lr_selected reading ==? choice then (s, ([], false))
      else (s, ([EffApplyLatency choice], false))
  end.

Definition audio_endpoint_requested (s : AppState) (request : AudioEndpointRequest) : Step :=
  match audio_source s with
  | None => (s, ([], false))
  | Some reading =>
      let selection :=
        match request with
        | ReqSystemDefault => Some SelSystemDefault
        | ReqEndpoint key =>
            if negb (existsb (fun c => ec_key c =? key) (as_endpoints reading))
            then None else Some (SelChosen key)
        end in
      match selection with
      | None => (s, ([], false))
      | Some sel =>
          if as_selection reading ==? sel then (s, ([], false))
          else (s, ([EffApplyAudioEndpoint request], false))
      end
  end.

Definition mute_changed (s : AppState) (m : bool) : Step :=
  (s <| muted := Some m |>, ([], negb (muted s ==? Some m))).

Definition latency_changed (s : AppState) (r : LatencyReading) : Step :=
  (s <| latency := Some r |>, ([], negb (latency s ==? Some r))).

Definition audio_source_changed (s : AppState) (r : AudioSourceReading) : Step :=
  (s <| audio_source := Some r |>, ([], negb (audio_source s ==? Some r))).

Definition saved_groups_changed (s : AppState) (groups : list SavedGroupReading) : Step :=
  (s <| saved_groups := Some groups |>,
   ([], negb (option_eqb (list_eqb saved_group_eqb) (saved_groups s) (Some groups)))).

Definition group_operation_finished (s : AppState) (request : Z) (status : GroupOperationStatus)
  : Step :=
  match group_operation s with
  | Some o =>
      if (op_request o =? request) && (op_status o ==? OperationPending)
      then (s <| group_operation := Some (o <| op_status := status |>) |>, ([], true))
      else (s, ([], false))
  | None => (s, ([], false))
  end.

(** ** The listening check *)

Definition hardware_check_requested (s : AppState) (action : HardwareCheckAction) : Step :=
  if shutting_down s then (s, ([], false))
  else
    let stop_pending (s : AppState) (outcome : option bool) :=
      s <| hardware_check := (hardware_check s)
             <| hc_phase := PhaseStopPending |>
             <| hc_generation := Some (gen_session (generations s)) |>
             <| hc_outcome := outcome |> |> in
    match action with
    | CheckOpen => (s <| page := PageDiagnostics |>, ([], true))
    | CheckPrepare value =>
        (s <| hardware_check := (hardware_check s) <| hc_prepared := value |> |>, ([], true))
    | CheckLowerVolume => master_volume_changed s f32_0_10
    | CheckStart =>
        if negb (hs_ready (check_snapshot s)) || negb (hc_prepared (hardware_check s))
        then (s, ([], false))
        else
          let (s, result) := start_requested s in
          let check := hardware_check s in
          let s := s <| hardware_check := default_check |> in
          (s <| hardware_check := bind_check check s |>, result)
    | CheckHeard heard =>
        if negb (hs_can_confirm (check_snapshot s)) then (s, ([], false))
        else let (s, result) := stop_requested s in (stop_pending s (Some heard), result)
    | CheckCancel =>
        match hc_phase (hardware_check s) with
        | PhaseConnecting | PhaseListening =>
            let (s, result) := stop_requested s in (stop_pending s None, result)
        | _ => (s, ([], false))
        end
    end.

Record HardwareCheckObservation := {
  obs_configuration_request : bool;
  obs_fault_generation : option GenerationId;
  obs_stopped_generation : option GenerationId;
}.

Definition observation_from_event (e : AppEvent) : HardwareCheckObservation :=
  {| obs_configuration_request :=
       match e with
       | MasterVolumeChanged _ | ReceiverLevelRequested _ _ | MuteChangeRequested _
       | LatencyChoiceRequested _ | AudioEndpointRequested _ | GroupRequested _
       | ToggleStagedReceiver _ | HardwareCheckEvent CheckLowerVolume => true
       | _ => false
       end;
     obs_fault_generation :=
       match e with
       | Controller (SessionFailed g _) | Controller (SessionRestarting g)
       | Controller (SessionDegraded g _) => Some g
       | _ => None
       end;
     obs_stopped_generation :=
       match e with Controller (SessionStopped g) => Some g | _ => None end |}.

(** The fields [observe_hardware_check] compares before and after. *)
Definition check_tuple (s : AppState) :=
  (hc_phase (hardware_check s), hc_outcome (hardware_check s),
   hc_prepared (hardware_check s), hc_generation (hardware_check s)).

Definition starting_or_streaming (t : StreamState) : bool :=
  match t with StreamStarting _ | StreamStreaming _ => true | _ => false end.

(** The abort branch: stop whatever runs, and make sure a stop is in flight. *)
Definition abort_check (s : AppState) (effects : list AppEffect) : AppState * list AppEffect :=
  let s := s <| hardware_check := (hardware_check s) <| hc_outcome := None |> |> in
  let '(s, (stop, _)) := stop_requested s in
  let effects := effects ++ stop in
  let '(s, effects) :=
    if negb (is_stream_stopping (stream s)) then
      let (g, s) := bump_session s in
      (s <| stream := StreamStopping g |>, effects ++ [EffStopSession g])
    else (s, effects) in
  (s <| hardware_check := (hardware_check s)
          <| hc_phase := PhaseStopPending |>
          <| hc_generation := Some (gen_session (generations s)) |> |>, effects).

Definition observe_hardware_check (s : AppState) (o : HardwareCheckObservation)
    (effects : list AppEffect) : AppState * list AppEffect * bool :=
  let before := check_tuple s in
  let check := hardware_check s in
  let session := gen_session (generations s) in
  let matching_fault :=
    negb (is_none (obs_fault_generation o))
    && (obs_fault_generation o ==? hc_generation check)
    && (obs_fault_generation o ==? Some session) in
  let '(s, effects) :=
    match hc_phase check with
    | PhaseConnecting | PhaseListening =>
        if obs_configuration_request o || negb (matches_check check s)
           || negb (hc_generation check ==? Some session)
           || negb (starting_or_streaming (stream s))
        then abort_check s effects
        else if is_stream_streaming (stream s)
                && (active_receivers s ==? desired_receivers s)
        then (s <| hardware_check := check <| hc_phase := PhaseListening |> |>,
              if hc_phase check ==? PhaseConnecting
              then effects ++ [EffPlayListeningTone session] else effects)
        else (s, effects)
    | PhaseStopPending =>
        let check :=
          if obs_configuration_request o || matching_fault || negb (matches_check check s)
          then check <| hc_outcome := None |> else check in
        let check :=
          if negb (is_none (obs_stopped_generation o))
             && (obs_stopped_generation o ==? hc_generation check)
             && (stream s ==? StreamStopped)
          then check <| hc_phase := match hc_outcome check with
                                    | Some true => PhaseHeard
                                    | Some false => PhaseNotHeard
                                    | None => PhaseInvalidated
                                    end |>
                     <| hc_prepared := false |>
          else check in
        (s <| hardware_check := check |>, effects)
    | PhaseHeard | PhaseNotHeard =>
        if obs_configuration_request o || matching_fault || negb (matches_check check s)
           || negb (stream s ==? StreamStopped)
        then (s <| hardware_check := check <| hc_phase := PhaseInvalidated |> |>, effects)
        else (s, effects)
    | PhasePreparation | PhaseInvalidated => (s, effects)
    end in
  (s, effects, negb (before ==? check_tuple s)).

Definition finish (s : AppState) (effects : list AppEffect) (changed : bool)
  : AppState * Transition :=
  (if changed then s <| revision := u64_succ (revision s) |> else s,
   {| t_effects := effects; t_snapshot_changed := changed |}).

(** ** Startup ([app/mod.rs], [initial_state]) *)

Record PreferencesLoad := { pl_value : Preferences; pl_notice : option UserNotice }.

Definition initial_state (loaded : PreferencesLoad) (windows : ResolvedLocale) : AppState :=
  let v := pl_value loaded in
  default_state <| hotkey := pref_hotkey v |>
    <| theme := pref_theme v |>
    <| page := pref_last_page v |>
    <| locale_preference := pref_locale v |>
    <| windows_display_locale := windows |>
    <| resolved_locale := resolve (pref_locale v) windows |>
    <| advanced_information := pref_advanced_information v |>
    <| window := {| win_visible := true;
                    win_geometry := default default_geometry (validate_geometry (pref_window v));
                    win_close_to_tray := pref_close_to_tray v;
                    win_launch_at_startup := pref_launch_at_startup v |} |>
    <| notice := pl_notice loaded |>.

(** ** Hotkey and dispatch *)

Section Dispatch.
Context (to_lowercase : string -> string).

Definition name_key_ltb (a b : ReceiverState) : bool :=
  let na := to_lowercase (rs_name a) in
  let nb := to_lowercase (rs_name b) in
  if str_ltb na nb then true else if str_ltb nb na then false
  else device_leb (rs_id a) (rs_id b) && negb (rs_id a ==? rs_id b).

(** [Iterator::min_by_key]: the first of the minimal elements. *)
Definition min_by_name (rows : list ReceiverState) : option ReceiverState :=
  fold_left (fun best r =>
    match best with
    | None => Some r
    | Some b => if name_key_ltb r b then Some r else Some b
    end) rows None.

Definition first_available_receiver (s : AppState) : option DeviceId :=
  rs_id <$> min_by_name (List.filter (fun r => rs_availability r ==? Available) (receivers s)).

Definition select_first_available_receiver (s : AppState) : AppState * bool :=
  match first_available_receiver s with
  | None => (s, false)
  | Some candidate =>
      let s := s <| staged_receivers := {[candidate]} ∪ staged_receivers s |>
                 <| desired_receivers := {[candidate]} ∪ desired_receivers s |>
                 <| desired_revision := u64_succ (desired_revision s) |> in
      (s <| staged_base_revision := desired_revision s |>, true)
  end.

Definition no_receiver_notice : UserNotice :=
  {| n_severity := SevWarning; n_code := NoticeNoReceiverAvailable;
     n_summary := "No AirPlay receiver is available right now.";
     n_action := Some ActionRefresh |}.

(** The tail of [global_hotkey_pressed] once a candidate was (or was not)
    found. *)
Definition hotkey_start_or_warn (s : AppState) : Step :=
  match available_selected_ids s with
  | [] => let (s', changed) := publish_notice s no_receiver_notice in (s', ([], changed))
  | _ => start_requested s
  end.

Definition global_hotkey_pressed (s : AppState) : Step :=
  if shutting_down s then (s, ([], false))
  else if starting_or_streaming (stream s) then stop_requested s
  else
    match available_selected_ids s with
    | [] =>
        if desired_receivers s ==? ∅ then
          if desired_known s then
            match (if startable (stream s) then first_available_receiver s else None) with
            | Some candidate => start_with_receiver_ids s [candidate]
            | None => hotkey_start_or_warn s
            end
          else hotkey_start_or_warn (select_first_available_receiver s).1
        else hotkey_start_or_warn s
    | _ => start_requested s
    end.

(** The [match event] of [reduce]. *)
Definition dispatch (s : AppState) (e : AppEvent) : Step :=
  match e with
  | HardwareCheckEvent action => hardware_check_requested s action
  | GroupRequested command => group_requested s command
  | ToggleStagedReceiver d => toggle_staged s d
  | ApplyStagedReceivers => apply_staged s
  | DiscardStagedReceivers => discard_staged s
  | StartRequested => start_requested s
  | StopRequested => stop_requested s
  | Navigate p => navigate s p
  | MainWindowCloseRequested => main_window_close_requested s
  | ShowMainWindow => show_main_window s
  | GlobalHotkeyPressed => global_hotkey_pressed s
  | RefreshRequested => refresh_requested s
  | MasterVolumeChanged v => master_volume_changed s v
  | ReceiverLevelRequested d level => receiver_level_requested s d level
  | MuteChangeRequested m => mute_change_requested s m
  | LatencyChoiceRequested c => latency_choice_requested s c
  | AudioEndpointRequested r => audio_endpoint_requested s r
  | ThemeChanged t => theme_changed s t
  | LocaleChanged p => locale_changed s p
  | AdvancedInformationChanged b => advanced_information_changed s b
  | WindowsDisplayLanguageChanged l => windows_display_language_changed s l
  | HotkeyChanged b => hotkey_changed s b
  | WindowGeometryChanged g => window_geometry_changed s g
  | RetryPreferencesPersistence => retry_preferences_persistence s
  | QuitRequested => quit_requested s
  | PreferencesEv (HotkeyReconfigured g applied failure) =>
      hotkey_reconfigured s g applied failure
  | PreferencesEv (PreferencesPersisted g) => preferences_persisted s g
  | PreferencesEv (PreferencesPersistFailed g) => preferences_persist_failed s g
  | PreferencesEv (PreferencesLoaded _ _) | PreferencesEv (PreferencesLoadFailed _) =>
      (s, ([], false))
  | Controller (SavedGroupsChanged groups) => saved_groups_changed s groups
  | Controller (GroupOperationFinished request status) =>
      group_operation_finished s request status
  | Controller (ReceiverLevelsChanged levels) => receiver_levels_changed s levels
  | Controller (DiscoveryCompleted g found) => merge_discovery s g found
  | Controller (DiscoveryFailedEvent g summary) => discovery_failed s g summary
  | Controller (DesiredReceiversChanged rev ids) => update_desired s rev ids
  | Controller (SessionStarted g ids) => session_started s g ids
  | Controller (SessionDegraded g ids) => session_degraded s g ids
  | Controller (SessionRestarting g) => session_restarting s g
  | Controller (SessionStopped g) => session_stopped s g
  | Controller (SessionFailed g summary) => session_failed s g summary
  | Controller (VolumeApplied g v) => volume_applied s g v
  | Controller (MuteChanged m) => mute_changed s m
  | Controller (LatencyChanged r) => latency_changed s r
  | Controller (AudioSourceChanged r) => audio_source_changed s r
  | Controller (DiagnosticsUpdated r) => diagnostics_updated s r
  | Controller (LiveDiagnosticsUpdated r) => live_diagnostics_updated s r
  | Controller (ChannelClosed summary) => channel_closed s summary
  end.

(** The guard at the top of [reduce]: nothing may start while the check's
    stop is unacknowledged. *)
Definition start_suppressed (s : AppState) (e : AppEvent) : bool :=
  (hc_phase (hardware_check s) ==? PhaseStopPending)
  && match e with
     | StartRequested | GlobalHotkeyPressed | GroupRequested (GroupApply _ true) => true
     | _ => false
     end.

Definition reduce (s : AppState) (e : AppEvent) : AppState * Transition :=
  if start_suppressed s e then finish s [] false
  else
    let check_before := check_snapshot s in
    let o := observation_from_event e in
    let '(s, (effects, changed)) := dispatch s e in
    let '(s, effects, check_changed) := observe_hardware_check s o effects in
    finish s effects (changed || check_changed || negb (check_before ==? check_snapshot s)).

(** Folding a queue of events, collecting every effect in order. *)
Fixpoint run (s : AppState) (events : list AppEvent) : AppState * list AppEffect :=
  match events with
  | [] => (s, [])
  | e :: events' =>
      let (s', t) := reduce s e in
      let (s'', effects) := run s' events' in
      (s'', t_effects t ++ effects)
  end.

(** States the event loop can be in.  The settings loader raises notices of
    one kind only ([preferences.rs], [invalid_preferences_notice]). *)
Inductive reachable : AppState -> Prop :=
| reach_init loaded locale :
    (forall n, pl_notice loaded = Some n -> n_code n = NoticePreferencesFailed) ->
    reachable (initial_state loaded locale)
| reach_step s e : reachable s -> reachable (reduce s e).1.
End Dispatch.

Arguments receiver_precedes : simpl never.
Arguments merged_receivers : simpl never.
Arguments available_selected_ids : simpl never.
Arguments matches_check : simpl never.
Arguments check_snapshot : simpl never.
Arguments prerequisite_blocker : simpl never.
Arguments ready : simpl never.
Arguments operation_pending : simpl never.
Arguments validate_geometry : simpl never.
Arguments u64_succ : simpl never.
Arguments f32_clamp : simpl never.
Arguments observe_hardware_check : simpl never.
Arguments preferences_from_state : simpl never.
