(* ===== verification/ReducerInv.v ===== *)
(** * Invariants of the application state

    What holds of every state the event loop can be in, proved handler by
    handler and lifted through [dispatch], [observe_hardware_check] and
    [finish] to [reachable]. *)

From S2P Require Import Prelude Float32 AppState HardwareCheck Reducer.

(** A stream phase in which receivers may carry audio. *)
Definition is_live (t : StreamState) : bool :=
  match t with StreamStreaming _ | StreamDegraded _ => true | _ => false end.

Definition rows_ok (rows : list ReceiverState) : Prop :=
  sorted_by receiver_leb rows /\ NoDup (rs_id <$> rows).

Definition active_ok (s : AppState) : Prop :=
  is_live (stream s) = false -> active_receivers s = ∅.

Definition locale_ok (s : AppState) : Prop :=
  resolved_locale s = resolve (locale_preference s) (windows_display_locale s).

Definition volume_ok (s : AppState) : Prop :=
  f32_is_finite (master_volume s) = true
  /\ forall v, confirmed_master_volume s = Some v -> f32_is_finite v = true.

Definition closed_ok (s : AppState) : Prop :=
  forall n, notice s = Some n -> n_code n = NoticeControllerUnavailable ->
  controller_closed s = true.

(** A published verdict is the recorded outcome of a check whose stop was
    acknowledged and whose setup still stands. *)
Definition check_ok (s : AppState) : Prop :=
  let c := hardware_check s in
  match hc_phase c with
  | PhaseConnecting | PhaseListening =>
      matches_check c s = true /\ hc_generation c = Some (gen_session (generations s))
      /\ starting_or_streaming (stream s) = true
  | PhaseHeard =>
      hc_outcome c = Some true /\ stream s = StreamStopped /\ matches_check c s = true
  | PhaseNotHeard =>
      hc_outcome c = Some false /\ stream s = StreamStopped /\ matches_check c s = true
  | _ => True
  end.

(** What [dispatch] itself must keep for [check_ok]: the observer re-checks
    everything but the recorded outcome. *)
Definition verdict_ok (s : AppState) : Prop :=
  let c := hardware_check s in
  (hc_phase c = PhaseHeard -> hc_outcome c = Some true)
  /\ (hc_phase c = PhaseNotHeard -> hc_outcome c = Some false).

Record app_inv (s : AppState) : Prop := {
  inv_active : active_ok s;
  inv_locale : locale_ok s;
  inv_rows : rows_ok (receivers s);
  inv_volume : volume_ok s;
  inv_closed : closed_ok s;
  inv_check : check_ok s;
}.

(** ** Automation: open a handler and split every branch *)

Create HintDb handlers.
#[export] Hint Unfold
  bump_session bump_discovery bump_volume bump_preferences bump_hotkey persist_preferences
  persisting navigate theme_changed locale_changed advanced_information_changed
  windows_display_language_changed publish_notice reject_invalid_input
  window_geometry_changed hotkey_changed hotkey_reconfigured preferences_persist_failed
  preferences_persisted retry_preferences_persistence main_window_close_requested
  show_main_window prune_irrelevant_unavailable pruned merge_discovery discovery_failed
  refresh_requested toggle_staged group_requested apply_staged discard_staged update_desired
  start_with_receiver_ids start_requested stop_requested clear_session_failure_notice
  session_live session_started session_degraded session_restarting session_stopped
  session_failed quit_requested diagnostics_updated live_diagnostics_updated channel_closed
  master_volume_changed volume_applied receiver_level_requested receiver_levels_changed
  mute_change_requested latency_choice_requested audio_endpoint_requested mute_changed
  latency_changed audio_source_changed saved_groups_changed group_operation_finished
  hardware_check_requested bind_check select_first_available_receiver hotkey_start_or_warn
  global_hotkey_pressed : handlers.

(** [open_handlers]: unfold, reduce projections of updates, split one level. *)
Ltac open_handlers := autounfold with handlers; cbn.
Ltac step_split :=
  match goal with
  | |- context [match ?x with _ => _ end] =>
      lazymatch x with context [match _ with _ => _ end] => fail | _ => idtac end;
      destruct x eqn:?; cbn
  | |- context [if ?x then _ else _] => destruct x eqn:?; cbn
  end.
Ltac each_event e := destruct e as [[]| | | | | | | | | | | | | | | | | | | | | | | | [] | [] |]; cbn.

(** ** Inventory rows *)

Lemma receiver_leb_total x y : receiver_leb x y = true \/ receiver_leb y x = true.
Proof. apply device_leb_total. Qed.
Lemma receiver_leb_trans x y z :
  receiver_leb x y = true -> receiver_leb y z = true -> receiver_leb x z = true.
Proof. apply device_leb_trans. Qed.

Lemma filter_sublist {A} (f : A -> bool) l : List.filter f l `sublist_of` l.
Proof. induction l as [|x l IH]; cbn; [done|]. destruct (f x); by constructor. Qed.

Lemma filter_Forall {A} (P : A -> Prop) f l : Forall P l -> Forall P (List.filter f l).
Proof. induction 1 as [|x l]; cbn; [done|]. destruct (f x); auto. Qed.

Lemma rows_ok_filter f rows : rows_ok rows -> rows_ok (List.filter f rows).
Proof.
  intros [Hs Hn]. split.
  - unfold sorted_by in *. induction Hs as [|x rows Hs IH Hx]; cbn; [constructor|].
    inversion_clear Hn as [|? ? _ Hn']. specialize (IH Hn').
    destruct (f x); [|done]. constructor; [done|].
    by apply filter_Forall.
  - eapply sublist_NoDup; [exact Hn|]. apply fmap_sublist, filter_sublist.
Qed.

Lemma merge_receiver_ids merged r :
  rs_id <$> merge_receiver merged r
  = if bool_decide (rs_id r ∈ rs_id <$> merged) then rs_id <$> merged
    else (rs_id <$> merged) ++ [rs_id r].
Proof.
  induction merged as [|x merged IH]; cbn.
  - case_bool_decide; [exfalso; set_solver|done].
  - destruct (bool_decide (rs_id x = rs_id r)) eqn:E; bool_simpl.
    + clear IH. case_bool_decide as Hin; [|destruct Hin; rewrite E; left]. cbn. f_equal.
      destruct (receiver_precedes r x); congruence.
    + cbn. rewrite IH. clear IH. destruct (decide (rs_id r ∈ rs_id <$> merged)) as [Hi|Hi].
      * by rewrite !bool_decide_eq_true_2 by set_solver.
      * by rewrite !bool_decide_eq_false_2 by set_solver.
Qed.

Lemma merge_receiver_NoDup merged r :
  NoDup (rs_id <$> merged) -> NoDup (rs_id <$> merge_receiver merged r).
Proof.
  intros H. rewrite merge_receiver_ids. case_bool_decide as Hin; [done|].
  apply NoDup_app. split_and!; [done|set_solver|apply NoDup_singleton].
Qed.

Lemma keep_previous_NoDup s merged p :
  NoDup (rs_id <$> merged) -> NoDup (rs_id <$> keep_previous s merged p).
Proof.
  intros H. unfold keep_previous.
  destruct (existsb _ merged) eqn:E; cbn; [done|].
  destruct (_ || _); cbn; [|done].
  rewrite fmap_app. apply NoDup_app. split_and!; [done| |apply NoDup_singleton].
  intros d (r & -> & Hr)%list_elem_of_fmap Hd. cbn in Hd.
  apply list_elem_of_singleton in Hd.
  assert (existsb (fun r => rs_id r ==? rs_id p) merged = true) as E'.
  { apply existsb_elem. exists r. split; [done|]. by apply bool_decide_eq_true. }
  congruence.
Qed.

Lemma fold_left_inv {A B} (f : A -> B -> A) (P : A -> Prop) l a :
  P a -> (forall a b, P a -> P (f a b)) -> P (fold_left f l a).
Proof. revert a; induction l; cbn; eauto. Qed.

Lemma merged_receivers_ok s found : rows_ok (merged_receivers s found).
Proof.
  unfold merged_receivers, rows_ok. split.
  - apply isort_sorted; [apply receiver_leb_total|apply receiver_leb_trans].
  - rewrite isort_perm. apply fold_left_inv; [|apply keep_previous_NoDup].
    apply fold_left_inv; [constructor|apply merge_receiver_NoDup].
Qed.
#[export] Hint Resolve rows_ok_filter merged_receivers_ok : cast.

(** ** [dispatch] keeps each clause *)

Section Inv.
Context (tl : string -> string).

Ltac solve_clause e := each_event e; open_handlers; repeat step_split; auto; try discriminate.

Lemma dispatch_active s e : active_ok s -> active_ok (dispatch tl s e).1.
Proof. unfold active_ok. intros H. solve_clause e. Qed.

Lemma dispatch_locale s e : locale_ok s -> locale_ok (dispatch tl s e).1.
Proof. unfold locale_ok. intros H. solve_clause e. Qed.

Lemma dispatch_rows s e : rows_ok (receivers s) -> rows_ok (receivers (dispatch tl s e).1).
Proof. intros H. solve_clause e; auto with cast. Qed.

Lemma dispatch_closed s e : closed_ok s -> closed_ok (dispatch tl s e).1.
Proof.
  unfold closed_ok. intros H. solve_clause e; intros n Hn Hc; simplify_eq/=; eauto.
Qed.

Lemma dispatch_verdict s e : verdict_ok s -> verdict_ok (dispatch tl s e).1.
Proof. unfold verdict_ok. intros [H1 H2]. solve_clause e; split; intros; auto; congruence. Qed.

Lemma dispatch_volume s e : volume_ok s -> volume_ok (dispatch tl s e).1.
Proof.
  unfold volume_ok. intros [Hm Hc].
  solve_clause e; split; intros; simplify_eq/=; bool_simpl; eauto using f32_clamp_finite.
Qed.

(** ** The observer *)

(** [observe_hardware_check] touches four fields only. *)
Definition session_part_only (s s' : AppState) : Prop :=
  s' = s <| hardware_check := hardware_check s' |> <| stream := stream s' |>
         <| active_receivers := active_receivers s' |> <| generations := generations s' |>.

Lemma session_part_refl s : session_part_only s s.
Proof. by destruct s. Qed.

Lemma abort_check_frame s effects : session_part_only s (abort_check s effects).1.
Proof.
  unfold abort_check, stop_requested, bump_session, session_part_only. cbn.
  by repeat step_split.
Qed.

Lemma observe_frame s o effects : session_part_only s (observe_hardware_check s o effects).1.1.
Proof.
  unfold observe_hardware_check.
  destruct (hc_phase (hardware_check s)) eqn:Hp; cbn;
    try apply session_part_refl;
    repeat (case_match; cbn); simplify_eq/=; try apply session_part_refl; try done;
    match goal with
    | H : abort_check s effects = (?s', _) |- _ =>
        pose proof (abort_check_frame s effects) as Hf; rewrite H in Hf; exact Hf
    end.
Qed.
End Inv.

(** ** The listening-check observer and reachable states

    [observe_hardware_check] runs after every dispatched event.  This file
    shows what it may do (abort with a stop, play the tone, settle or retract
    a verdict) and closes the invariant of [ReducerInv] under [reduce]. *)
(** ** The abort branch *)

Record abort_spec (s : AppState) (effects : list AppEffect) (r : AppState * list AppEffect)
  : Prop := {
  ab_phase : hc_phase (hardware_check r.1) = PhaseStopPending;
  ab_outcome : hc_outcome (hardware_check r.1) = None;
  ab_generation : hc_generation (hardware_check r.1) = Some (gen_session (generations r.1));
  ab_stream : exists g, stream r.1 = StreamStopping g;
  ab_effects : r.2 = effects \/ r.2 = effects ++ [EffStopSession (gen_session (generations r.1))];
}.

Lemma abort_check_spec s effects : abort_spec s effects (abort_check s effects).
Proof.
  unfold abort_check, stop_requested, bump_session. cbn.
  destruct (stream s) eqn:Hs; cbn; rewrite ?Hs; cbn; constructor; cbn; rewrite ?Hs, ?app_nil_r;
    eauto.
Qed.

Lemma abort_check_active s effects :
  active_ok s -> active_receivers (abort_check s effects).1 = ∅.
Proof.
  unfold abort_check, stop_requested, bump_session, active_ok. cbn.
  destruct (stream s) eqn:Hs; cbn; rewrite ?Hs; cbn; auto.
Qed.

(** ** What the observer establishes *)

Lemma observe_active s o effects :
  active_ok s -> active_ok (observe_hardware_check s o effects).1.1.
Proof.
  intros H. unfold observe_hardware_check.
  destruct (hc_phase (hardware_check s)); cbn;
    repeat (case_match; cbn); simplify_eq/=; try done;
    match goal with
    | Ha : abort_check s effects = (?s', _) |- active_ok ?s' =>
        intros _; pose proof (abort_check_active s effects H) as Hf; by rewrite Ha in Hf
    end.
Qed.

Lemma matches_check_frame c c' s s' :
  session_part_only s s' -> hc_binding c' = hc_binding c -> matches_check c' s' = matches_check c s.
Proof. unfold matches_check. intros Hs ->. rewrite Hs. reflexivity. Qed.

Lemma observe_check_ok s o effects :
  verdict_ok s -> check_ok (observe_hardware_check s o effects).1.1.
Proof.
  intros [Hh Hn]. unfold observe_hardware_check.
  destruct (hc_phase (hardware_check s)) eqn:Hp; cbn;
    repeat (case_match; cbn); simplify_eq/=; bool_simpl;
    try (match goal with
    | Ha : abort_check s effects = (?s', ?e') |- check_ok ?s' =>
        pose proof (ab_phase _ _ _ (abort_check_spec s effects)) as Hf; rewrite Ha in Hf;
        cbn in Hf; unfold check_ok; rewrite Hf; exact I
    end);
    unfold check_ok; cbn; rewrite ?Hp; auto.
Qed.

(** ** Closing the invariant under [reduce] *)

Section Closed.
Context (tl : string -> string).

(** The state of [reduce] before [finish] bumps the revision. *)
Definition observed (s : AppState) (e : AppEvent) : AppState * list AppEffect * bool :=
  let '(s', (effects, _)) := dispatch tl s e in
  observe_hardware_check s' (observation_from_event e) effects.

Definition reported (s : AppState) (e : AppEvent) : bool :=
  (dispatch tl s e).2.2 || (observed s e).2
  || negb (check_snapshot s ==? check_snapshot (observed s e).1.1).

Lemma reduce_eq s e :
  reduce tl s e
  = if start_suppressed s e then finish s [] false
    else finish (observed s e).1.1 (observed s e).1.2 (reported s e).
Proof.
  unfold reduce, reported, observed. destruct (start_suppressed s e); [done|].
  destruct (dispatch tl s e) as [s' [effects changed]]. cbn.
  by destruct (observe_hardware_check s' _ effects) as [[s'' effects'] c].
Qed.

Lemma observed_frame s e : session_part_only (dispatch tl s e).1 (observed s e).1.1.
Proof.
  unfold observed. destruct (dispatch tl s e) as [s' [effects c]]. apply observe_frame.
Qed.

Lemma check_ok_verdict s : check_ok s -> verdict_ok s.
Proof.
  unfold check_ok, verdict_ok. destruct (hc_phase (hardware_check s)); split; intros;
    try discriminate; tauto.
Qed.

Lemma observed_inv s e : app_inv s -> app_inv (observed s e).1.1.
Proof.
  intros [Ha Hl Hr Hv Hc Hk].
  pose proof (observed_frame s e) as F.
  apply (dispatch_active tl s e) in Ha. apply (dispatch_locale tl s e) in Hl.
  apply (dispatch_rows tl s e) in Hr. apply (dispatch_volume tl s e) in Hv.
  apply (dispatch_closed tl s e) in Hc.
  apply check_ok_verdict, (dispatch_verdict tl s e) in Hk.
  unfold observed in *. destruct (dispatch tl s e) as [s' [effects c]]. cbn in *.
  constructor.
  - by apply observe_active.
  - unfold locale_ok in *. by rewrite F.
  - by rewrite F.
  - unfold volume_ok in *. by rewrite F.
  - unfold closed_ok in *. by rewrite F.
  - by apply observe_check_ok.
Qed.

Lemma finish_inv s effects changed : app_inv s -> app_inv (finish s effects changed).1.
Proof. intros []. unfold finish. destruct changed; by constructor. Qed.

Lemma reduce_inv s e : app_inv s -> app_inv (reduce tl s e).1.
Proof.
  intros H. rewrite reduce_eq. destruct (start_suppressed s e); apply finish_inv; [done|].
  by apply observed_inv.
Qed.

Lemma initial_inv loaded locale :
  (forall n, pl_notice loaded = Some n -> n_code n = NoticePreferencesFailed) ->
  app_inv (initial_state loaded locale).
Proof.
  intros Hn. constructor; cbn; try done.
  - split; [constructor|constructor].
  - intros n H1 H2. cbn in H1. rewrite (Hn n H1) in H2. discriminate.
Qed.

Lemma reachable_inv s : reachable tl s -> app_inv s.
Proof. induction 1; auto using initial_inv, reduce_inv. Qed.
End Closed.

(** ** Effects: the observer only appends a stop or the tone *)

(** What must hold when the tone is played. *)
Record tone_guard (s : AppState) : Prop := {
  tg_ready : check_ready s;
  tg_streaming : is_stream_streaming (stream s) = true;
  tg_everyone : active_receivers s = desired_receivers s;
  tg_bound : hc_generation (hardware_check s) = Some (gen_session (generations s));
  tg_phase : hc_phase (hardware_check s) = PhaseListening;
}.

Inductive observer_effects (s' : AppState) (effects : list AppEffect) : list AppEffect -> Prop :=
| oe_none : observer_effects s' effects effects
| oe_stop : observer_effects s' effects (effects ++ [EffStopSession (gen_session (generations s'))])
| oe_tone : tone_guard s' ->
    observer_effects s' effects (effects ++ [EffPlayListeningTone (gen_session (generations s'))]).

Lemma matches_ready c s : matches_check c s = true -> ready s = true.
Proof. unfold matches_check. intros H. by bool_simpl. Qed.

Lemma ready_frame s s' : session_part_only s s' -> ready s' = ready s.
Proof. intros ->. reflexivity. Qed.

Lemma observe_effects s o effects :
  observer_effects (observe_hardware_check s o effects).1.1 effects
    (observe_hardware_check s o effects).1.2.
Proof.
  unfold observe_hardware_check.
  destruct (hc_phase (hardware_check s)) eqn:Hp; cbn;
    repeat (case_match; cbn); simplify_eq/=; bool_simpl; try apply oe_none.
  all: try match goal with
    | Ha : abort_check ?s0 ?eff = (?s1, ?l1) |- observer_effects ?s1 ?eff ?l1 =>
        pose proof (ab_effects _ _ _ (abort_check_spec s0 eff)) as Hf; rewrite Ha in Hf;
        cbn in Hf; destruct Hf as [->| ->]; constructor
    end.
  all: match goal with |- observer_effects ?s1 ?eff _ => apply (oe_tone s1 eff) end; constructor; cbn; auto; apply ready_spec;
    match goal with
    | H : matches_check _ ?s0 = true |- _ =>
        transitivity (ready s0); [reflexivity|exact (matches_ready _ _ H)]
    end.
Qed.

Section Effects.
Context (tl : string -> string).

Lemma observed_effects s e :
  observer_effects (observed tl s e).1.1 (dispatch tl s e).2.1 (observed tl s e).1.2.
Proof.
  unfold observed. destruct (dispatch tl s e) as [s' [effects c]]. apply observe_effects.
Qed.

(** Where an effect of [reduce] comes from. *)
Lemma reduce_effect_origin s e x :
  x ∈ t_effects (reduce tl s e).2 ->
  start_suppressed s e = false
  /\ (x ∈ (dispatch tl s e).2.1
      \/ x = EffStopSession (gen_session (generations (observed tl s e).1.1))
      \/ (x = EffPlayListeningTone (gen_session (generations (observed tl s e).1.1))
          /\ tone_guard (observed tl s e).1.1)).
Proof.
  rewrite reduce_eq. destruct (start_suppressed s e); cbn; [by intros ?%elem_of_nil|].
  intros Hx. split; [done|]. destruct (observed_effects s e) as [| |Ht].
  - by left.
  - apply elem_of_app in Hx as [Hx|Hx%list_elem_of_singleton]; auto.
  - apply elem_of_app in Hx as [Hx|Hx%list_elem_of_singleton]; auto.
Qed.

Lemma reduce_state s e :
  start_suppressed s e = false ->
  (reduce tl s e).1 = (observed tl s e).1.1
  \/ (reduce tl s e).1 = (observed tl s e).1.1 <| revision := u64_succ (revision (observed tl s e).1.1) |>.
Proof.
  intros H. rewrite reduce_eq, H. unfold finish. destruct (reported tl s e); auto.
Qed.
End Effects.
