(* ===== verification/Snapshot.v ===== *)
(** * The published snapshot

    [apps/openaircast/src/app/snapshot.rs]: the projection of [AppState] the
    window renders.  The event loop publishes a new projection only when a
    transition reports [snapshot_changed], so the central fact here is that a
    transition that reports no change leaves the projection as it was, up to
    the IEEE equality of [UiSnapshot]'s derived [PartialEq]. *)

From S2P Require Import Prelude Float32 AppState HardwareCheck Reducer ReducerInv.

Record WindowSnapshot := {
  ws_visible : bool; ws_geometry : WindowGeometry; ws_close_to_tray : bool;
}.

Inductive DiscoverySnapshot :=
| SnapIdle | SnapDiscovering | SnapReady | SnapDiscoveryFailed (summary : string).

Record ReceiverSnapshot := {
  rsn_id : DeviceId; rsn_name : string; rsn_model : string; rsn_availability : Availability;
}.

Inductive StreamSnapshot :=
| SnapStopped
| SnapStarting (generation : GenerationId)
| SnapStreaming (generation : GenerationId)
| SnapDegraded (generation : GenerationId)
| SnapRestarting (generation : GenerationId)
| SnapStopping (generation : GenerationId)
| SnapFailed (generation : GenerationId) (summary : string).

Record UiSnapshot := {
  ui_revision : Z;
  ui_saved_groups : option (list SavedGroupReading);
  ui_group_operation : option GroupOperation;
  ui_desired_revision : Z;
  ui_page : Page;
  ui_window : WindowSnapshot;
  ui_discovery : DiscoverySnapshot;
  ui_receivers : list ReceiverSnapshot;
  ui_desired_receivers : list DeviceId;
  ui_staged_receivers : list DeviceId;
  ui_staged_membership_dirty : bool;
  ui_staged_membership_stale : bool;
  ui_active_receivers : list DeviceId;
  ui_stream : StreamSnapshot;
  ui_master_volume : f32;
  ui_receiver_levels : option (gmap DeviceId f32);
  ui_theme : ThemePreference;
  ui_locale_preference : LocalePreference;
  ui_resolved_locale : ResolvedLocale;
  ui_advanced_information : bool;
  ui_hotkey : HotkeyBinding;
  ui_notice : option UserNotice;
  ui_muted : option bool;
  ui_latency : option LatencyReading;
  ui_audio_source : option AudioSourceReading;
  ui_diagnostics : option DiagnosticsReading;
  ui_live_diagnostics : option LiveDiagnosticsReading;
  ui_hardware_check : HardwareCheckSnapshot;
  ui_can_start : bool;
  ui_can_stop : bool;
  ui_shutting_down : bool;
}.

Definition sorted_ids (ids : gset DeviceId) : list DeviceId := isort device_leb (elements ids).

Definition stream_snapshot (t : StreamState) : StreamSnapshot :=
  match t with
  | StreamStopped => SnapStopped
  | StreamStarting g => SnapStarting g
  | StreamStreaming g => SnapStreaming g
  | StreamDegraded g => SnapDegraded g
  | StreamRestarting g => SnapRestarting g
  | StreamStopping g => SnapStopping g
  | StreamFailed g summary => SnapFailed g summary
  end.

Definition discovery_snapshot (d : DiscoveryState) : DiscoverySnapshot :=
  match d with
  | DiscoveryIdle => SnapIdle
  | DiscoveryDiscovering _ => SnapDiscovering
  | DiscoveryReady => SnapReady
  | DiscoveryFailed summary => SnapDiscoveryFailed summary
  end.

Definition has_available_desired_receiver (s : AppState) : bool :=
  existsb (available_selected s) (receivers s).

Section Snapshot.
Context (tl : string -> string).

(** The [sort_by] of [from_state]: lowercased name, then identity. *)
Definition snapshot_row_leb (a b : ReceiverSnapshot) : bool :=
  match String.compare (tl (rsn_name a)) (tl (rsn_name b)) with
  | Lt => true
  | Gt => false
  | Eq => device_leb (rsn_id a) (rsn_id b)
  end.

Definition receiver_snapshot (r : ReceiverState) : ReceiverSnapshot :=
  {| rsn_id := rs_id r; rsn_name := rs_name r; rsn_model := rs_model r;
     rsn_availability := rs_availability r |}.

(** [UiSnapshot::from_state] *)
Definition ui_snapshot (s : AppState) : UiSnapshot :=
  let dirty := negb (staged_receivers s ==? desired_receivers s) in
  {| ui_revision := revision s;
     ui_saved_groups := saved_groups s;
     ui_group_operation := group_operation s;
     ui_desired_revision := desired_revision s;
     ui_page := page s;
     ui_window := {| ws_visible := win_visible (window s);
                     ws_geometry := win_geometry (window s);
                     ws_close_to_tray := win_close_to_tray (window s) |};
     ui_discovery := discovery_snapshot (discovery s);
     ui_receivers := isort snapshot_row_leb (List.map receiver_snapshot (receivers s));
     ui_desired_receivers := sorted_ids (desired_receivers s);
     ui_staged_receivers := sorted_ids (staged_receivers s);
     ui_staged_membership_dirty := dirty;
     ui_staged_membership_stale := dirty && (staged_base_revision s <? desired_revision s);
     ui_active_receivers := sorted_ids (active_receivers s);
     ui_stream := stream_snapshot (stream s);
     ui_master_volume := master_volume s;
     ui_receiver_levels := receiver_levels s;
     ui_theme := theme s;
     ui_locale_preference := locale_preference s;
     ui_resolved_locale := resolved_locale s;
     ui_advanced_information := advanced_information s;
     ui_hotkey := hotkey s;
     ui_notice := notice s;
     ui_muted := muted s;
     ui_latency := latency s;
     ui_audio_source := audio_source s;
     ui_diagnostics := diagnostics s;
     ui_live_diagnostics :=
       match live_diagnostics s with
       | Some r =>
           if negb (controller_closed s) && (ld_generation r =? gen_session (generations s))
           then Some r else None
       | None => None
       end;
     ui_hardware_check := check_snapshot s;
     ui_can_start := startable (stream s) && has_available_desired_receiver s;
     ui_can_stop := is_running (stream s);
     ui_shutting_down := shutting_down s |}.
End Snapshot.

(** ** Equality up to IEEE comparison *)

(** Leibniz equal, or equal for the derived [PartialEq]. *)
Definition same_by {A} (eqb : A -> A -> bool) (x y : A) : Prop := x = y \/ eqb x y = true.

Definition same_groups := same_by (option_eqb (list_eqb saved_group_eqb)).
Definition same_levels := same_by (option_eqb levels_eqb).
Definition same_volume := same_by f32_eqb.

(** Two projections the window cannot tell apart. *)
Record ui_same (a b : UiSnapshot) : Prop := {
  us_groups : same_groups (ui_saved_groups a) (ui_saved_groups b);
  us_volume : same_volume (ui_master_volume a) (ui_master_volume b);
  us_levels : same_levels (ui_receiver_levels a) (ui_receiver_levels b);
  us_rest : b = {| ui_revision := ui_revision a; ui_saved_groups := ui_saved_groups b;
    ui_group_operation := ui_group_operation a; ui_desired_revision := ui_desired_revision a;
    ui_page := ui_page a; ui_window := ui_window a; ui_discovery := ui_discovery a;
    ui_receivers := ui_receivers a; ui_desired_receivers := ui_desired_receivers a;
    ui_staged_receivers := ui_staged_receivers a;
    ui_staged_membership_dirty := ui_staged_membership_dirty a;
    ui_staged_membership_stale := ui_staged_membership_stale a;
    ui_active_receivers := ui_active_receivers a; ui_stream := ui_stream a;
    ui_master_volume := ui_master_volume b; ui_receiver_levels := ui_receiver_levels b;
    ui_theme := ui_theme a; ui_locale_preference := ui_locale_preference a;
    ui_resolved_locale := ui_resolved_locale a;
    ui_advanced_information := ui_advanced_information a; ui_hotkey := ui_hotkey a;
    ui_notice := ui_notice a; ui_muted := ui_muted a; ui_latency := ui_latency a;
    ui_audio_source := ui_audio_source a; ui_diagnostics := ui_diagnostics a;
    ui_live_diagnostics := ui_live_diagnostics a; ui_hardware_check := ui_hardware_check a;
    ui_can_start := ui_can_start a; ui_can_stop := ui_can_stop a;
    ui_shutting_down := ui_shutting_down a |};
}.

(** ** Silent changes

    [silent s s']: every field the projection reads is unchanged (volumes,
    levels and templates up to IEEE equality); what may differ is
    bookkeeping the projection does not read, and the listening check. *)
Record silent (s s' : AppState) : Prop := {
  si_groups : same_groups (saved_groups s) (saved_groups s');
  si_volume : same_volume (master_volume s) (master_volume s');
  si_levels : same_levels (receiver_levels s) (receiver_levels s');
  si_rest : s' = s <| saved_groups := saved_groups s' |>
    <| master_volume := master_volume s' |> <| receiver_levels := receiver_levels s' |>
    <| next_group_request := next_group_request s' |>
    <| volume_pending := volume_pending s' |>
    <| confirmed_master_volume := confirmed_master_volume s' |>
    <| windows_display_locale := windows_display_locale s' |>
    <| hardware_check := hardware_check s' |>
    <| generations := (generations s') <| gen_session := gen_session (generations s) |> |>;
}.

Lemma silent_ui tl s s' :
  silent s s' -> check_snapshot s = check_snapshot s' -> ui_same (ui_snapshot tl s) (ui_snapshot tl s').
Proof.
  intros [Hg Hv Hl Hr] Hc. constructor; [done..|].
  unfold ui_snapshot. rewrite <- Hc. rewrite Hr. reflexivity.
Qed.

Lemma same_by_refl {A} (eqb : A -> A -> bool) x : same_by eqb x x.
Proof. by left. Qed.
#[export] Hint Resolve same_by_refl : cast.

Lemma silent_refl s : silent s s.
Proof. constructor; [by left..|]. by destruct s; match goal with g : Generations |- _ => destruct g end. Qed.
#[export] Hint Resolve silent_refl : cast.

(** ** A handler that reports no change is silent *)

(** Open the records and let the silenced comparisons identify the fields. *)
Ltac open_state s :=
  destruct s; cbn in *;
  repeat match goal with
  | g : Generations |- _ => destruct g; cbn in *
  | w : WindowState |- _ => destruct w; cbn in *
  end.
Ltac silent_tac s :=
  open_state s; simplify_eq/=;
  left; constructor; cbn; [first [by left | by right]..|reflexivity].

Section Silent.
Context (tl : string -> string).

Lemma negb_false_same {A} (eqb : A -> A -> bool) x y : negb (eqb x y) = false -> same_by eqb x y.
Proof. intros H%negb_false_iff. by right. Qed.

Lemma filter_length_id {A} (f : A -> bool) l :
  length (List.filter f l) = length l -> List.filter f l = l.
Proof.
  induction l as [|x l IH]; cbn; [done|].
  destruct (f x); cbn; [intros [= H]; by rewrite IH|].
  pose proof (List.filter_length_le f l). lia.
Qed.

Lemma size_fresh (d : DeviceId) : size ({[d]} ∪ (∅ : gset DeviceId)) <> size (∅ : gset DeviceId).
Proof. rewrite (right_id_L ∅ (∪)), size_singleton, size_empty. lia. Qed.

Lemma dispatch_silent s e :
  closed_ok s -> (dispatch tl s e).2.2 = false ->
  silent s (dispatch tl s e).1
  \/ size (desired_receivers (dispatch tl s e).1) <> size (desired_receivers s).
Proof.
  intros Hc.
  each_event e; open_handlers; repeat step_split; intros H; try discriminate H;
    bool_simpl; simplify_eq/=; try (left; apply silent_refl).
  all: try solve [silent_tac s].
  - rewrite filter_length_id by (by apply Nat.eqb_eq). silent_tac s.
  - right. match goal with H : desired_receivers s = ∅ |- _ => rewrite H end. apply size_fresh.
  - right. match goal with H : desired_receivers s = ∅ |- _ => rewrite H end. apply size_fresh.
  - match goal with H : receivers s = _ |- _ => rewrite <- H end. silent_tac s.
  - rewrite <- (Hc _ ltac:(eassumption) eq_refl). silent_tac s.
  - rewrite <- (Hc _ ltac:(eassumption) eq_refl). silent_tac s.
Qed.
End Silent.

(** ** The comparisons are transitive *)

Definition transitive_eqb {A} (eqb : A -> A -> bool) : Prop :=
  forall x y z, eqb x y = true -> eqb y z = true -> eqb x z = true.

Lemma option_eqb_trans {A} (eqb : A -> A -> bool) :
  transitive_eqb eqb -> transitive_eqb (option_eqb eqb).
Proof. intros H [x|] [y|] [z|]; cbn; try done. apply H. Qed.

Lemma list_eqb_trans {A} (eqb : A -> A -> bool) :
  transitive_eqb eqb -> transitive_eqb (list_eqb eqb).
Proof.
  intros H x. induction x as [|a x IH]; intros [|b y] [|c z]; cbn; try done.
  intros. bool_simpl. apply andb_true_intro. split; [by eapply H|by eapply IH].
Qed.

Lemma bool_decide_eq_trans `{EqDecision A} (x y z : A) :
  (x ==? y) = true -> (y ==? z) = true -> (x ==? z) = true.
Proof. intros. bool_simpl. subst. by apply bool_decide_eq_true. Qed.

Lemma group_member_eqb_trans : transitive_eqb group_member_eqb.
Proof.
  intros x y z. unfold group_member_eqb. intros. bool_simpl.
  rewrite !andb_true_iff, !bool_decide_eq_true. split_and!; try congruence.
  by eapply f32_eqb_trans.
Qed.

Lemma saved_group_eqb_trans : transitive_eqb saved_group_eqb.
Proof.
  intros x y z. unfold saved_group_eqb. intros. bool_simpl.
  rewrite !andb_true_iff, !bool_decide_eq_true. split_and!; try congruence.
  eapply (list_eqb_trans _ group_member_eqb_trans); eauto.
Qed.

Lemma levels_eqb_spec a b :
  levels_eqb a b = true <-> forall k, option_eqb f32_eqb (a !! k) (b !! k) = true.
Proof.
  unfold levels_eqb. rewrite andb_true_iff, bool_decide_eq_true, forallb_elem. split.
  - intros [Hd Hf] k. destruct (a !! k) as [v|] eqn:E.
    + specialize (Hf (k, v)). rewrite elem_of_map_to_list in Hf. specialize (Hf E). cbn in Hf.
      by destruct (b !! k).
    + apply not_elem_of_dom in E. rewrite Hd in E. apply not_elem_of_dom in E. by rewrite E.
  - intros H. split.
    + apply set_eq. intros k. rewrite !elem_of_dom. specialize (H k).
      destruct (a !! k), (b !! k); cbn in H; try discriminate; split; intros []; eauto; done.
    + intros [k v] Hk. apply elem_of_map_to_list in Hk. specialize (H k). cbn.
      rewrite Hk in H. by destruct (b !! k).
Qed.

Lemma levels_eqb_trans : transitive_eqb levels_eqb.
Proof.
  intros x y z. rewrite !levels_eqb_spec. intros H1 H2 k.
  eapply (option_eqb_trans f32_eqb f32_eqb_trans); eauto.
Qed.

Lemma same_by_trans {A} (eqb : A -> A -> bool) x y z :
  transitive_eqb eqb -> same_by eqb x y -> same_by eqb y z -> same_by eqb x z.
Proof. intros Ht [->|H1] [<-|H2]; unfold same_by; eauto. Qed.

Lemma ui_same_refl a : ui_same a a.
Proof. constructor; [by left..|]. by destruct a. Qed.

Lemma ui_same_trans a b c : ui_same a b -> ui_same b c -> ui_same a c.
Proof.
  intros [G1 V1 L1 R1] [G2 V2 L2 R2]. constructor.
  - eapply same_by_trans; [apply option_eqb_trans, list_eqb_trans, saved_group_eqb_trans|..]; eauto.
  - eapply same_by_trans; [exact f32_eqb_trans|..]; eauto.
  - eapply same_by_trans; [apply option_eqb_trans, levels_eqb_trans|..]; eauto.
  - rewrite R2 at 1. rewrite R1. reflexivity.
Qed.

Lemma silent_with_check s s' c : silent s s' -> silent s (s' <| hardware_check := c |>).
Proof. intros [Hg Hv Hl Hr]. constructor; [done..|]. rewrite Hr. reflexivity. Qed.

(** ** The observer reports what it changes *)

Lemma observe_silent s o effects :
  (observe_hardware_check s o effects).2 = false ->
  (observe_hardware_check s o effects).1.1
  = s <| hardware_check := hardware_check (observe_hardware_check s o effects).1.1 |>.
Proof.
  unfold observe_hardware_check.
  destruct (hc_phase (hardware_check s)) eqn:Hp; cbn;
    repeat (case_match; cbn); simplify_eq/=; intros Hf; bool_simpl;
    try (by match goal with |- ?x = _ => is_var x; destruct x end); try (by destruct s).
  all: exfalso;
    match goal with
    | Ha : abort_check ?s0 ?eff = _ |- _ =>
        pose proof (ab_phase _ _ _ (abort_check_spec s0 eff)) as Hf'; rewrite Ha in Hf'
    end; cbn in Hf'; unfold check_tuple in *; congruence.
Qed.

(** ** The event loop ([app_handle.rs], [run_actor]) *)

Section Actor.
Context (tl : string -> string).

Record Actor := {
  ac_state : AppState;
  ac_published : UiSnapshot;
  ac_executed : list AppEffect;
}.

Definition start_actor (initial : AppState) : Actor :=
  {| ac_state := initial; ac_published := ui_snapshot tl initial; ac_executed := [] |}.

(** One turn of the loop: reduce, execute the effects, publish on change. *)
Definition actor_step (a : Actor) (e : AppEvent) : Actor :=
  let (s, t) := reduce tl (ac_state a) e in
  {| ac_state := s;
     ac_published := if t_snapshot_changed t then ui_snapshot tl s else ac_published a;
     ac_executed := ac_executed a ++ t_effects t |}.

Definition run_actor (initial : AppState) (events : list AppEvent) : Actor :=
  fold_left actor_step events (start_actor initial).

(** An event that reports no change is invisible. *)
Lemma reduce_silent s e :
  app_inv s -> t_snapshot_changed (reduce tl s e).2 = false ->
  ui_same (ui_snapshot tl s) (ui_snapshot tl (reduce tl s e).1).
Proof.
  intros Hi. rewrite reduce_eq. destruct (start_suppressed s e) eqn:Hs; cbn.
  { intros _. apply ui_same_refl. }
  intros Hc. rewrite Hc. unfold reported in Hc. bool_simpl.
  apply silent_ui; [|done].
  destruct (dispatch_silent tl s e (inv_closed s Hi)) as [Hd|Hd]; [done| |].
  - unfold observed in *. destruct (dispatch tl s e) as [s' [eff c]]. cbn in *.
    rewrite observe_silent by done. by apply silent_with_check.
  - exfalso. apply Hd.
    match goal with H : check_snapshot s = _ |- _ => apply (f_equal hs_count) in H; cbn in H end.
    rewrite (observed_frame tl s e) in H0. cbn in H0. done.
Qed.
End Actor.
