(* ===== verification/ReducerFacts.v ===== *)
(** * Handler facts the reducer's theorems share

    Frame facts of [dispatch] (which fields it leaves alone, which effects it
    may emit), the merge of a browse into the inventory, and the selection
    queries. *)

From S2P Require Import Prelude Float32 AppState HardwareCheck Reducer ReducerInv.

(** ** Effect classes *)

Definition begin_shutdowns (effects : list AppEffect) : list unit :=
  omap (fun x => match x with EffBeginShutdown => Some tt | _ => None end) effects.

(** A command that makes the backend start a session. *)
Definition is_session_start (x : AppEffect) : bool :=
  match x with EffStartSession _ _ _ | EffGroup _ (Some _) _ => true | _ => false end.

Definition group_requests (effects : list AppEffect) : list Z :=
  omap (fun x => match x with EffGroup r _ _ => Some r | _ => None end) effects.

(** Events by which the backend reports session lifecycle. *)
Definition session_event_generation (e : AppEvent) : option GenerationId :=
  match e with
  | Controller (SessionStarted g _) | Controller (SessionDegraded g _)
  | Controller (SessionRestarting g) | Controller (SessionStopped g)
  | Controller (SessionFailed g _) => Some g
  | _ => None
  end.

(** Reports that put the session (back) into a running phase. *)
Definition reports_running (e : AppEvent) : bool :=
  match e with
  | Controller (SessionStarted _ _) | Controller (SessionDegraded _ _)
  | Controller (SessionRestarting _) => true
  | _ => false
  end.

Lemma start_blocker_stop_pending s :
  hc_phase (hardware_check s) = PhaseStopPending ->
  start_blocker s = Some BlockUnavailable \/ start_blocker s = Some BlockStopPending.
Proof. unfold start_blocker. intros ->. cbn. destruct (_ || _ || _); auto. Qed.

(** ** Frame facts of [dispatch] *)

Section Facts.
Context (tl : string -> string).

Ltac by_event e := each_event e; open_handlers; repeat step_split; auto.

Lemma dispatch_revision s e : revision (dispatch tl s e).1 = revision s.
Proof. by_event e. Qed.

Lemma dispatch_shutdown_monotone s e :
  shutting_down s = true -> shutting_down (dispatch tl s e).1 = true.
Proof. intros H. by_event e; congruence. Qed.

Lemma dispatch_begin_shutdown s e :
  begin_shutdowns (dispatch tl s e).2.1 = []
  \/ (begin_shutdowns (dispatch tl s e).2.1 = [tt]
      /\ shutting_down s = false /\ shutting_down (dispatch tl s e).1 = true).
Proof. by_event e. Qed.

Lemma dispatch_no_tone s e g : EffPlayListeningTone g ∉ (dispatch tl s e).2.1.
Proof. by_event e; set_solver. Qed.

Lemma dispatch_persist s e g v :
  EffPersistPreferences g v ∈ (dispatch tl s e).2.1 ->
  v = preferences_from_state (dispatch tl s e).1
  /\ g = gen_preferences (generations (dispatch tl s e).1).
Proof.
  by_event e; intros Hx; try (exfalso; set_solver);
    rewrite ?elem_of_cons, ?elem_of_nil in Hx; destruct_or?; simplify_eq/=; done.
Qed.

Lemma dispatch_groups s e :
  (group_requests (dispatch tl s e).2.1 = []
   /\ (next_group_request (dispatch tl s e).1 = next_group_request s
       \/ next_group_request (dispatch tl s e).1 = u64_succ (next_group_request s)))
  \/ (group_requests (dispatch tl s e).2.1 = [u64_succ (next_group_request s)]
      /\ next_group_request (dispatch tl s e).1 = u64_succ (next_group_request s)).
Proof. by_event e; cbn; tauto. Qed.

Lemma dispatch_stale_session s e g :
  session_event_generation e = Some g -> g <> gen_session (generations s) ->
  dispatch tl s e = (s, ([], false)).
Proof.
  intros He Hg. apply Z.eqb_neq in Hg.
  each_event e; try discriminate; injection He as ->; open_handlers; by rewrite Hg.
Qed.

(** Nothing starts while the stop of a check is pending. *)
Lemma dispatch_stop_pending s e x :
  hc_phase (hardware_check s) = PhaseStopPending -> is_running (stream s) = false ->
  start_suppressed s e = false ->
  x ∈ (dispatch tl s e).2.1 -> is_session_start x = false.
Proof.
  intros Hp Hr Hs. unfold start_suppressed in Hs. rewrite Hp in Hs. cbn in Hs.
  revert Hs.
  by_event e; intros Hs Hx; try discriminate Hs;
    rewrite ?elem_of_cons, ?elem_of_nil in Hx; destruct_or?; simplify_eq/=; try done.
  all: bool_simpl; try congruence;
    destruct (start_blocker_stop_pending s Hp) as [E|E]; rewrite E in *; discriminate.
Qed.

(** Nothing starts after a quit either, once the session is down. *)
Lemma dispatch_shutting_down s e x :
  shutting_down s = true -> is_running (stream s) = false ->
  x ∈ (dispatch tl s e).2.1 -> is_session_start x = false.
Proof.
  intros Hp Hr.
  by_event e; intros Hx;
    rewrite ?elem_of_cons, ?elem_of_nil in Hx; destruct_or?; simplify_eq/=; try done.
  all: bool_simpl; congruence.
Qed.

Lemma dispatch_shutting_down_stream s e :
  shutting_down s = true -> is_running (stream s) = false ->
  reports_running e = false ->
  is_running (stream (dispatch tl s e).1) = false.
Proof.
  intros Hp Hr He. revert He. by_event e; intros He; try discriminate; bool_simpl; congruence.
Qed.

(** ** Volumes *)

Definition volume_unit (s : AppState) : Prop :=
  f32_unit_range (master_volume s)
  /\ forall v, confirmed_master_volume s = Some v -> f32_unit_range v.

(** The backend only confirms volumes it could have been asked for. *)
Definition volume_report_ok (e : AppEvent) : Prop :=
  match e with Controller (VolumeApplied _ v) => f32_unit_range v | _ => True end.

Definition commanded_volume (x : AppEffect) : option f32 :=
  match x with
  | EffStartSession _ _ v | EffApplyVolume _ v | EffApplyReceiverLevel _ v => Some v
  | _ => None
  end.

Lemma dispatch_unit s e :
  volume_unit s -> volume_ok s -> volume_report_ok e -> volume_unit (dispatch tl s e).1.
Proof.
  intros [Hm Hc] [Hf _]. unfold volume_unit.
  by_event e; intros; simplify_eq/=; auto; split; intros; simplify_eq/=; bool_simpl;
    auto using f32_clamp01_range.
Qed.

Lemma dispatch_commands_unit s e :
  volume_unit s -> volume_ok s ->
  Forall f32_unit_range (omap commanded_volume (dispatch tl s e).2.1).
Proof.
  intros [Hm Hc] [Hf _].
  by_event e; bool_simpl; repeat constructor; auto; apply f32_clamp01_range; done.
Qed.
End Facts.

(** ** Inventory merge and selection queries

    What [merge_discovery] keeps of a browse and of the previous inventory,
    and which receivers a start would address. *)
Notation ids rows := (rs_id <$> (rows : list ReceiverState)).

(** ** Folding a browse *)

Lemma merge_receiver_elem merged r x : x ∈ merge_receiver merged r -> x ∈ merged \/ x = r.
Proof.
  induction merged as [|y merged IH]; cbn.
  - intros ->%list_elem_of_singleton. auto.
  - destruct (bool_decide (rs_id y = rs_id r)).
    + destruct (receiver_precedes r y); rewrite !elem_of_cons; tauto.
    + rewrite !elem_of_cons. tauto.
Qed.

Lemma fold_merge_elem found acc x :
  x ∈ fold_left merge_receiver found acc -> x ∈ acc \/ x ∈ found.
Proof.
  revert acc; induction found as [|r found IH]; intros acc; cbn; [auto|].
  intros [Hx|Hx]%IH; [|rewrite elem_of_cons; tauto].
  apply merge_receiver_elem in Hx as [Hx| ->]; rewrite elem_of_cons; tauto.
Qed.

Lemma fold_merge_ids found acc d :
  d ∈ ids (fold_left merge_receiver found acc) <-> d ∈ ids acc \/ d ∈ ids found.
Proof.
  revert acc; induction found as [|r found IH]; intros acc; cbn.
  - rewrite elem_of_nil. tauto.
  - rewrite IH, merge_receiver_ids, elem_of_cons. case_bool_decide as Hin.
    + split; [tauto|]. intros [?|[->|?]]; auto.
    + rewrite elem_of_app, list_elem_of_singleton. tauto.
Qed.

(** An available report beats an unavailable one for the same receiver. *)
Definition seen_available (d : DeviceId) (rows : list ReceiverState) : Prop :=
  exists r, r ∈ rows /\ rs_id r = d /\ rs_availability r = Available.

Lemma receiver_precedes_available r x :
  receiver_precedes r x = true -> rs_availability x = Available -> rs_availability r = Available.
Proof.
  unfold receiver_precedes, receiver_preference_key, key_ltb. intros H Hx. rewrite Hx in H.
  destruct (rs_availability r); [done|discriminate].
Qed.

Lemma available_precedes r x :
  rs_availability r = Available -> rs_availability x = Unavailable -> receiver_precedes r x = true.
Proof. unfold receiver_precedes, receiver_preference_key, key_ltb. by intros -> ->. Qed.

Lemma merge_receiver_available merged r d :
  seen_available d merged \/ (rs_id r = d /\ rs_availability r = Available) ->
  seen_available d (merge_receiver merged r).
Proof.
  unfold seen_available. induction merged as [|y merged IH]; cbn; intros H.
  - destruct H as [(x & Hx & _)|[Hd Ha]]; [by apply elem_of_nil in Hx|].
    exists r. rewrite list_elem_of_singleton. auto.
  - destruct (bool_decide (rs_id y = rs_id r)) eqn:E; bool_simpl.
    + destruct H as [(x & Hx & Hd & Ha)|[Hd Ha]].
      * apply elem_of_cons in Hx as [->|Hx]; [|exists x; rewrite elem_of_cons; auto].
        destruct (receiver_precedes r y) eqn:Hp; eexists; rewrite elem_of_cons;
          (split; [by left|]); [|auto].
        split; [congruence|]. by eapply receiver_precedes_available.
      * destruct (rs_availability y) eqn:Hy.
        -- destruct (receiver_precedes r y); eexists; rewrite elem_of_cons;
             (split; [by left|]); split; congruence.
        -- rewrite available_precedes by done. exists r. rewrite elem_of_cons. auto.
    + destruct H as [(x & Hx & Hd & Ha)|H].
      * apply elem_of_cons in Hx as [->|Hx]; [exists y; rewrite elem_of_cons; auto|].
        destruct IH as (z & Hz & ?); [left; eauto|]. exists z. rewrite elem_of_cons. auto.
      * destruct IH as (z & Hz & ?); [by right|]. exists z. rewrite elem_of_cons. auto.
Qed.

Lemma fold_merge_available found acc d :
  seen_available d acc \/ seen_available d found ->
  seen_available d (fold_left merge_receiver found acc).
Proof.
  revert acc; induction found as [|r found IH]; intros acc; cbn.
  - intros [?|(x & Hx & _)]; [done|by apply elem_of_nil in Hx].
  - intros H. apply IH. destruct H as [H|(x & Hx & Hd & Ha)].
    + left. apply merge_receiver_available. auto.
    + apply elem_of_cons in Hx as [->|Hx].
      * left. apply merge_receiver_available. auto.
      * right. exists x. auto.
Qed.

(** ** Keeping relevant rows the browse did not report *)

Definition relevant (s : AppState) (d : DeviceId) : Prop :=
  d ∈ desired_receivers s \/ d ∈ staged_receivers s.

Lemma existsb_ids merged d :
  existsb (fun r => rs_id r ==? d) merged = bool_decide (d ∈ ids merged).
Proof.
  destruct (existsb _ merged) eqn:E; symmetry.
  - apply bool_decide_eq_true. apply existsb_elem in E as (r & Hr & Hd). bool_simpl. subst.
    by apply list_elem_of_fmap_2.
  - apply bool_decide_eq_false. intros (r & -> & Hr)%list_elem_of_fmap.
    enough (existsb (fun r0 => rs_id r0 ==? rs_id r) merged = true) by congruence.
    apply existsb_elem. exists r. split; [done|]. by apply bool_decide_eq_true.
Qed.

Lemma keep_previous_cases s merged p :
  (keep_previous s merged p = merged /\ (rs_id p ∈ ids merged \/ ~ relevant s (rs_id p)))
  \/ (keep_previous s merged p = merged ++ [p <| rs_availability := Unavailable |>]
      /\ rs_id p ∉ ids merged /\ relevant s (rs_id p)).
Proof.
  unfold keep_previous, relevant. rewrite existsb_ids.
  repeat case_bool_decide; cbn; tauto.
Qed.

Lemma fold_keep_ids s previous merged d :
  d ∈ ids (fold_left (keep_previous s) previous merged)
  <-> d ∈ ids merged \/ (d ∈ ids previous /\ relevant s d).
Proof.
  revert merged; induction previous as [|p previous IH]; intros merged; cbn.
  - rewrite elem_of_nil. tauto.
  - rewrite IH, elem_of_cons.
    destruct (keep_previous_cases s merged p) as [[-> Hc]|(-> & Hn & Hr)].
    + split; [tauto|]. intros [?|[[->|?] ?]]; tauto.
    + rewrite fmap_app, elem_of_app. cbn. rewrite list_elem_of_singleton.
      split; [|tauto]. intros [[?| ->]|?]; tauto.
Qed.

Lemma fold_keep_elem s previous merged x :
  x ∈ fold_left (keep_previous s) previous merged ->
  x ∈ merged \/ exists p, p ∈ previous /\ x = p <| rs_availability := Unavailable |>
                          /\ rs_id p ∉ ids merged /\ relevant s (rs_id p).
Proof.
  revert merged; induction previous as [|p previous IH]; intros merged; cbn; [auto|].
  intros [Hx|(q & Hq & -> & Hn & Hr)]%IH.
  - destruct (keep_previous_cases s merged p) as [[E _]|(E & Hn & Hr)]; rewrite E in Hx; [auto|].
    apply elem_of_app in Hx as [?| ->%list_elem_of_singleton]; [auto|].
    right. exists p. rewrite elem_of_cons. auto.
  - right. exists q. rewrite elem_of_cons. split_and!; auto.
    intros Hin. apply Hn.
    destruct (keep_previous_cases s merged p) as [[-> _]|(-> & _)]; [done|].
    rewrite fmap_app, elem_of_app. auto.
Qed.

Lemma fold_keep_mono s previous merged x :
  x ∈ merged -> x ∈ fold_left (keep_previous s) previous merged.
Proof.
  revert merged; induction previous as [|p previous IH]; intros merged Hx; cbn; [done|].
  apply IH. destruct (keep_previous_cases s merged p) as [[-> _]|(-> & _)]; [done|].
  apply elem_of_app. auto.
Qed.

(** ** The merged inventory *)

Lemma merged_ids s found d :
  d ∈ ids (merged_receivers s found) <-> d ∈ ids found \/ (d ∈ ids (receivers s) /\ relevant s d).
Proof.
  unfold merged_receivers. rewrite isort_perm, fold_keep_ids, fold_merge_ids. cbn.
  rewrite elem_of_nil. tauto.
Qed.

Lemma merged_elem s found x :
  x ∈ merged_receivers s found ->
  x ∈ found \/ exists p, p ∈ receivers s /\ x = p <| rs_availability := Unavailable |>
                         /\ rs_id p ∉ ids found /\ relevant s (rs_id p).
Proof.
  unfold merged_receivers. rewrite isort_perm. intros [Hx|(p & ? & ? & Hn & ?)]%fold_keep_elem.
  - apply fold_merge_elem in Hx as [Hx|Hx]; [by apply elem_of_nil in Hx|auto].
  - right. exists p. split_and!; auto. intros Hin. apply Hn. apply fold_merge_ids. auto.
Qed.

Lemma merged_available s found d :
  seen_available d found -> seen_available d (merged_receivers s found).
Proof.
  intros H. destruct (fold_merge_available found [] d (or_intror H)) as (x & Hx & ?).
  exists x. split; [|done]. unfold merged_receivers. rewrite isort_perm. by apply fold_keep_mono.
Qed.

(** ** Selection queries *)

Lemma sort_ids_perm l : sort_ids l ≡ₚ l.
Proof. apply isort_perm. Qed.

Lemma sort_ids_sorted l : sorted_by device_leb (sort_ids l).
Proof. apply isort_sorted; [apply device_leb_total|apply device_leb_trans]. Qed.

Lemma elem_of_filter_bool {A} (f : A -> bool) l x : x ∈ List.filter f l <-> x ∈ l /\ f x = true.
Proof. rewrite !list_elem_of_In. apply filter_In. Qed.

Lemma available_selected_ids_elem s d :
  d ∈ available_selected_ids s <-> d ∈ desired_receivers s /\ seen_available d (receivers s).
Proof.
  unfold available_selected_ids, seen_available. rewrite sort_ids_perm, elem_of_elements.
  rewrite elem_of_list_to_set. change (List.map ?f ?l) with (f <$> l).
  rewrite list_elem_of_fmap. setoid_rewrite elem_of_filter_bool. unfold available_selected.
  split.
  - intros (r & -> & Hr & Ha). bool_simpl. eauto 6.
  - intros (Hd & r & Hr & <- & Ha). exists r. split_and!; auto.
    rewrite Ha. cbn. by apply bool_decide_eq_true.
Qed.

Lemma available_selected_ids_sorted s :
  sorted_by device_leb (available_selected_ids s) /\ NoDup (available_selected_ids s).
Proof.
  split; [apply sort_ids_sorted|]. unfold available_selected_ids. rewrite sort_ids_perm.
  apply NoDup_elements.
Qed.

Lemma available_selected_ids_nil s :
  available_selected_ids s = [] <-> forall d, d ∈ desired_receivers s -> ~ seen_available d (receivers s).
Proof.
  split.
  - intros E d Hd Ha. assert (d ∈ available_selected_ids s) as H
      by (apply available_selected_ids_elem; auto). rewrite E in H. by apply elem_of_nil in H.
  - intros H. destruct (available_selected_ids s) as [|d l] eqn:E; [done|].
    assert (d ∈ available_selected_ids s) as Hd by (rewrite E; left).
    apply available_selected_ids_elem in Hd as [Hd Ha]. by apply H in Hd.
Qed.

(** ** Facts about the listening check, group operations and volume drags *)
(** ** The check *)

Lemma observe_heard s o effects :
  hc_phase (hardware_check (observe_hardware_check s o effects).1.1) = PhaseHeard ->
  hc_phase (hardware_check s) = PhaseHeard
  \/ (hc_phase (hardware_check s) = PhaseStopPending
      /\ hc_outcome (hardware_check s) = Some true
      /\ obs_stopped_generation o <> None
      /\ obs_stopped_generation o = hc_generation (hardware_check s)
      /\ stream s = StreamStopped).
Proof.
  unfold observe_hardware_check.
  destruct (hc_phase (hardware_check s)) eqn:Hp; cbn;
    repeat (case_match; cbn); simplify_eq/=; intros Hf; bool_simpl; try congruence; auto.
  all: try (right; split_and!; try done; by destruct (obs_stopped_generation o)).
  all: match goal with
    | Ha : abort_check ?s0 ?eff = _ |- _ =>
        pose proof (ab_phase _ _ _ (abort_check_spec s0 eff)) as Hf'; rewrite Ha in Hf'
    end; cbn in Hf'; congruence.
Qed.

(** From [StopPending], the matching acknowledgement settles the check. *)
Lemma observe_settles_exactly s g :
  hc_phase (hardware_check s) = PhaseStopPending ->
  hc_generation (hardware_check s) = Some g -> stream s = StreamStopped ->
  let r := observe_hardware_check s
             (observation_from_event (Controller (SessionStopped g))) [] in
  hc_phase (hardware_check r.1.1)
  = (if matches_check (hardware_check s) s
     then match hc_outcome (hardware_check s) with
          | Some true => PhaseHeard | Some false => PhaseNotHeard | None => PhaseInvalidated
          end
     else PhaseInvalidated)
  /\ hc_prepared (hardware_check r.1.1) = false /\ stream r.1.1 = StreamStopped
  /\ r.1.2 = [].
Proof.
  intros Hp Hg Hs. unfold observe_hardware_check. rewrite Hp. cbn.
  destruct (matches_check (hardware_check s) s); cbn; rewrite Hg, Hs;
    rewrite !bool_decide_eq_true_2 by done; done.
Qed.

(** The observer never touches a check that is not running, apart from the
    check itself. *)
Lemma observe_idle s o effects :
  hc_phase (hardware_check s) <> PhaseConnecting ->
  hc_phase (hardware_check s) <> PhaseListening ->
  (observe_hardware_check s o effects).1.1
  = s <| hardware_check := hardware_check (observe_hardware_check s o effects).1.1 |>
  /\ (observe_hardware_check s o effects).1.2 = effects.
Proof.
  intros H1 H2. unfold observe_hardware_check.
  destruct (hc_phase (hardware_check s)) eqn:Hp; try congruence; cbn;
    repeat (case_match; cbn); simplify_eq/=; (split; [|done]); try done;
    match goal with |- ?x = _ => destruct x; reflexivity end.
Qed.

(** The observer can stop a session but not start one. *)
Lemma observe_not_running s o effects :
  is_running (stream s) = false ->
  is_running (stream (observe_hardware_check s o effects).1.1) = false.
Proof.
  intros H. unfold observe_hardware_check.
  destruct (hc_phase (hardware_check s)); cbn; repeat (case_match; cbn); simplify_eq/=; try done.
  all: match goal with
    | Ha : abort_check ?s0 ?eff = (?s1, _) |- _ =>
        destruct (ab_stream _ _ _ (abort_check_spec s0 eff)) as [g Hg]; rewrite Ha in Hg;
        cbn in Hg; by rewrite Hg
    end.
Qed.

Lemma observe_generations s o effects :
  gen_preferences (generations (observe_hardware_check s o effects).1.1)
  = gen_preferences (generations s).
Proof.
  unfold observe_hardware_check, abort_check, stop_requested, bump_session.
  destruct (hc_phase (hardware_check s)); cbn; repeat (case_match; cbn); by simplify_eq/=.
Qed.

Section Check.
Context (tl : string -> string).

Ltac by_event e := each_event e; open_handlers; repeat step_split; auto.

Lemma dispatch_heard s e :
  hc_phase (hardware_check (dispatch tl s e).1) = PhaseHeard ->
  hc_phase (hardware_check s) = PhaseHeard.
Proof. by_event e; intros; simplify_eq/=; congruence. Qed.

Lemma dispatch_stopped_check s g :
  hardware_check (dispatch tl s (Controller (SessionStopped g))).1 = hardware_check s.
Proof. cbn. open_handlers. by repeat step_split. Qed.

(** ** Group operations *)

(** How a pending operation can leave the pending state. *)
Lemma dispatch_group_operation s e op :
  group_operation s = Some op -> op_status op = OperationPending ->
  group_operation (dispatch tl s e).1 = Some op
  \/ (exists status, e = Controller (GroupOperationFinished (op_request op) status)
      /\ group_operation (dispatch tl s e).1 = Some (op <| op_status := status |>))
  \/ (exists summary, e = Controller (ChannelClosed summary)
      /\ group_operation (dispatch tl s e).1
         = Some (op <| op_status := OperationFailed GroupClosed |>)).
Proof.
  intros Ho Hp.
  assert (Hpend : operation_pending s = true).
  { unfold operation_pending. rewrite Ho. cbn. rewrite Hp. by apply bool_decide_eq_true. }
  destruct e as [[]| | | | | | | | | | | | | | | | | | | | | | | | [] | [] |];
    try (left; cbn; open_handlers; rewrite ?Hpend, ?orb_true_r; cbn;
         repeat step_split; auto; bool_simpl; congruence).
  - cbn. unfold group_operation_finished. rewrite Ho. destruct (_ && _) eqn:E; [|auto].
    bool_simpl. subst. right; left. eauto.
  - right; right. eexists. split; [done|]. cbn. unfold channel_closed, publish_notice. cbn.
    destruct (volume_pending s), (confirmed_master_volume s); cbn; rewrite Ho; cbn; rewrite Hp;
      by rewrite bool_decide_eq_true_2.
Qed.
End Check.

(** ** Volume drags *)

(** A drag never moves the value a closed channel restores. *)
Lemma master_volume_drag s v :
  f32_is_finite v = true ->
  let s' := (master_volume_changed s v).1 in
  volume_pending s' = true
  /\ (volume_pending s = true -> confirmed_master_volume s' = confirmed_master_volume s)
  /\ (volume_pending s = false -> confirmed_master_volume s' = Some (master_volume s)).
Proof.
  intros Hf. unfold master_volume_changed, bump_volume. rewrite Hf. cbn.
  destruct (volume_pending s); cbn; split_and!; done.
Qed.
