(* ===== verification/ReducerTrace.v ===== *)
(** * Lifting handler facts to transitions and event queues

    [ReducerFacts] speaks about one [dispatch]; here the
    same facts are carried through the observer ([reduce]) and along a whole
    queue of events ([run]). *)

From S2P Require Import Prelude Float32 AppState HardwareCheck Reducer ReducerInv Snapshot ReducerFacts.

Section Trace.
Context (tl : string -> string).

Lemma run_cons s e es :
  run tl s (e :: es)
  = ((run tl (reduce tl s e).1 es).1,
     t_effects (reduce tl s e).2 ++ (run tl (reduce tl s e).1 es).2).
Proof. cbn [run]. destruct (reduce tl s e) as [s' t]. cbn. by destruct (run tl s' es). Qed.

Lemma run_reachable es s : reachable tl s -> reachable tl (run tl s es).1.
Proof.
  revert s; induction es as [|e es IH]; intros s Hs; [exact Hs|].
  rewrite run_cons. apply IH. by constructor.
Qed.

(** What [reduce] leaves of a field outside the session part and the check. *)
Lemma reduce_outside {A} (f : AppState -> A) s e :
  (forall s' r, f (s' <| revision := r |>) = f s') ->
  (forall s' c t a g, f (s' <| hardware_check := c |> <| stream := t |>
     <| active_receivers := a |> <| generations := g |>) = f s') ->
  f (reduce tl s e).1 = if start_suppressed s e then f s else f (dispatch tl s e).1.
Proof.
  intros Hr Hs. destruct (start_suppressed s e) eqn:E.
  - by rewrite reduce_eq, E.
  - assert (Ho : f (observed tl s e).1.1 = f (dispatch tl s e).1)
      by (rewrite (observed_frame tl s e); apply Hs).
    destruct (reduce_state tl s e E) as [->| ->]; rewrite ?Hr; exact Ho.
Qed.

(** [reduce] up to the revision bump is [dispatch] followed by the observer. *)
Lemma reduce_observe s e :
  start_suppressed s e = false ->
  let o := observe_hardware_check (dispatch tl s e).1 (observation_from_event e)
             (dispatch tl s e).2.1 in
  hardware_check (reduce tl s e).1 = hardware_check o.1.1
  /\ stream (reduce tl s e).1 = stream o.1.1 /\ t_effects (reduce tl s e).2 = o.1.2.
Proof.
  intros E. cbn. rewrite reduce_eq, E. unfold observed.
  destruct (dispatch tl s e) as [s' [effects c]]. cbn. by destruct (reported tl s e).
Qed.

Lemma stop_event_dispatch s g :
  g = gen_session (generations s) ->
  let s' := (dispatch tl s (Controller (SessionStopped g))).1 in
  stream s' = StreamStopped /\ (dispatch tl s (Controller (SessionStopped g))).2.1 = []
  /\ hardware_check s' = hardware_check s.
Proof. intros ->. cbn. unfold session_stopped. by rewrite Z.eqb_refl. Qed.

(** ** Shutdown *)

Lemma reduce_shutdown_monotone s e :
  shutting_down s = true -> shutting_down (reduce tl s e).1 = true.
Proof.
  intros H. rewrite (reduce_outside shutting_down) by done.
  destruct (start_suppressed s e); [done|by apply dispatch_shutdown_monotone].
Qed.

Lemma reduce_omap {B} (f : AppEffect -> option B) s e :
  (forall g, f (EffStopSession g) = None) -> (forall g, f (EffPlayListeningTone g) = None) ->
  omap f (t_effects (reduce tl s e).2)
  = if start_suppressed s e then [] else omap f (dispatch tl s e).2.1.
Proof.
  intros Hs Ht. rewrite reduce_eq. destruct (start_suppressed s e); [done|]. cbn.
  destruct (observed_effects tl s e) as [| |_]; [done|..];
    rewrite omap_app; cbn; rewrite ?Hs, ?Ht; apply app_nil_r.
Qed.

Lemma reduce_begin_shutdown s e :
  begin_shutdowns (t_effects (reduce tl s e).2) = []
  \/ (begin_shutdowns (t_effects (reduce tl s e).2) = [tt]
      /\ shutting_down s = false /\ shutting_down (reduce tl s e).1 = true).
Proof.
  unfold begin_shutdowns. rewrite reduce_omap, (reduce_outside shutting_down) by done.
  destruct (start_suppressed s e); [auto|]. apply dispatch_begin_shutdown.
Qed.

Lemma run_begin_shutdown s es :
  (length (begin_shutdowns (run tl s es).2) <= if shutting_down s then 0 else 1)%nat.
Proof.
  revert s; induction es as [|e es IH]; intros s; [cbn; lia|].
  rewrite run_cons. unfold begin_shutdowns in *. cbn [fst snd].
  rewrite omap_app, length_app. specialize (IH (reduce tl s e).1).
  pose proof (reduce_shutdown_monotone s e) as Hm.
  destruct (reduce_begin_shutdown s e) as [E|(E & Hs & Hs')]; unfold begin_shutdowns in E;
    rewrite E; cbn [length].
  - destruct (shutting_down s); [rewrite Hm in IH by done|]; [done|].
    destruct (shutting_down (reduce tl s e).1); lia.
  - rewrite Hs, Hs' in *. lia.
Qed.

(** The session does not come back up by itself once a quit stopped it. *)
Lemma reduce_stays_down s e :
  shutting_down s = true -> is_running (stream s) = false -> reports_running e = false ->
  is_running (stream (reduce tl s e).1) = false
  /\ forall x, x ∈ t_effects (reduce tl s e).2 -> is_session_start x = false.
Proof.
  intros Hd Hr He. split.
  - destruct (start_suppressed s e) eqn:E; [by rewrite reduce_eq, E|].
    assert (H : is_running (stream (observed tl s e).1.1) = false).
    { pose proof (dispatch_shutting_down_stream tl s e Hd Hr He) as H. unfold observed.
      destruct (dispatch tl s e) as [s' [effects c]]. by apply observe_not_running. }
    destruct (reduce_state tl s e E) as [->| ->]; exact H.
  - intros x (_ & [Hx|[->|[-> _]]])%reduce_effect_origin; [|done..].
    by eapply dispatch_shutting_down.
Qed.

Lemma run_stays_down s es :
  shutting_down s = true -> is_running (stream s) = false ->
  Forall (fun e => reports_running e = false) es ->
  forall x, x ∈ (run tl s es).2 -> is_session_start x = false.
Proof.
  intros Hd Hr Hes. revert s Hd Hr; induction Hes as [|e es He _ IH]; intros s Hd Hr x.
  - by intros ?%elem_of_nil.
  - rewrite run_cons. cbn [snd]. destruct (reduce_stays_down s e Hd Hr He) as [Hr' Hx].
    intros [?|?]%elem_of_app; [auto|]. apply (IH (reduce tl s e).1); auto using reduce_shutdown_monotone.
Qed.

(** ** Stale session reports *)

(** On a state that satisfies [check_ok], an observation that is not a
    configuration request and concerns another generation touches nothing but
    the check. *)
Lemma observe_stale s o :
  check_ok s -> obs_configuration_request o = false ->
  (exists c, (observe_hardware_check s o []).1.1 = s <| hardware_check := c |>)
  /\ forall x, x ∈ (observe_hardware_check s o []).1.2 -> exists g, x = EffPlayListeningTone g.
Proof.
  intros Hc Ho. unfold observe_hardware_check, check_ok in *. rewrite Ho. cbn.
  destruct (hc_phase (hardware_check s)) eqn:Hp;
    try (destruct Hc as (-> & -> & ->); rewrite bool_decide_eq_true_2 by done; cbn);
    repeat (case_match; cbn); simplify_eq/=; split;
    try (eexists; reflexivity); try (match goal with |- exists _, ?a = _ => exists (hardware_check a); by destruct a end);
    try (by intros x ?%elem_of_nil);
    intros x ->%list_elem_of_singleton; eauto.
Qed.

Lemma reduce_stale s e g :
  app_inv s -> session_event_generation e = Some g -> g <> gen_session (generations s) ->
  (exists c r, (reduce tl s e).1 = s <| hardware_check := c |> <| revision := r |>)
  /\ forall x, x ∈ t_effects (reduce tl s e).2 -> exists g', x = EffPlayListeningTone g'.
Proof.
  intros Hi He Hg.
  assert (E : start_suppressed s e = false).
  { unfold start_suppressed. destruct e; try discriminate; apply andb_false_r. }
  assert (Ho : obs_configuration_request (observation_from_event e) = false)
    by (by destruct e).
  destruct (observe_stale s _ (inv_check s Hi) Ho) as [[k Hk] Hx].
  rewrite reduce_eq, E. unfold finish, observed, reported.
  rewrite (dispatch_stale_session tl s e g He Hg). cbn. split; [|done].
  rewrite Hk. exists k. case_match; eexists; [reflexivity|by instantiate (1 := revision s); destruct s].
Qed.

(** ** Group requests *)

Lemma reduce_groups s e :
  let n := next_group_request s in
  let n' := next_group_request (reduce tl s e).1 in
  (group_requests (t_effects (reduce tl s e).2) = [] /\ (n' = n \/ n' = u64_succ n))
  \/ (group_requests (t_effects (reduce tl s e).2) = [u64_succ n] /\ n' = u64_succ n).
Proof.
  cbn. unfold group_requests. rewrite reduce_omap, (reduce_outside next_group_request) by done.
  destruct (start_suppressed s e); [auto|]. apply dispatch_groups.
Qed.

Lemma run_groups s es :
  0 <= next_group_request s -> next_group_request s + Z.of_nat (length es) < 2 ^ 64 ->
  StronglySorted Z.lt (group_requests (run tl s es).2)
  /\ Forall (Z.lt (next_group_request s)) (group_requests (run tl s es).2).
Proof.
  revert s; induction es as [|e es IH]; intros s H0 Hb; [by repeat constructor|].
  cbn [length] in Hb. rewrite run_cons. unfold group_requests. cbn [snd]. rewrite omap_app.
  pose proof (u64_succ_no_overflow (next_group_request s)) as Hsucc.
  destruct (IH (reduce tl s e).1) as [Hs Hf];
    [destruct (reduce_groups s e) as [[_ [E|E]]|[_ E]]; rewrite E; lia..|].
  destruct (reduce_groups s e) as [[E [En|En]]|[E En]]; unfold group_requests in E; rewrite E;
    rewrite En in Hf; cbn [app].
  - auto.
  - split; [done|]. eapply Forall_impl; [exact Hf|]. intros; lia.
  - split; constructor; auto; [lia|]. eapply Forall_impl; [exact Hf|]. intros; lia.
Qed.

(** A pending group operation stays until the backend answers that very
    request or the channel closes. *)
Lemma reduce_group_operation s e op :
  group_operation s = Some op -> op_status op = OperationPending ->
  group_operation (reduce tl s e).1 = Some op
  \/ (exists status, e = Controller (GroupOperationFinished (op_request op) status)
      /\ group_operation (reduce tl s e).1 = Some (op <| op_status := status |>))
  \/ (exists summary, e = Controller (ChannelClosed summary)
      /\ group_operation (reduce tl s e).1
         = Some (op <| op_status := OperationFailed GroupClosed |>)).
Proof.
  intros Ho Hp. rewrite (reduce_outside group_operation) by done.
  destruct (start_suppressed s e); [by left|by apply dispatch_group_operation].
Qed.

(** ** Preferences *)

Lemma reduce_persist s e g v :
  EffPersistPreferences g v ∈ t_effects (reduce tl s e).2 ->
  v = preferences_from_state (reduce tl s e).1
  /\ g = gen_preferences (generations (reduce tl s e).1).
Proof.
  intros (E & [Hx|[?|[? _]]])%reduce_effect_origin; [|done..].
  apply dispatch_persist in Hx as [-> ->].
  rewrite (reduce_outside preferences_from_state), E by done. split; [done|].
  assert (H : gen_preferences (generations (observed tl s e).1.1)
    = gen_preferences (generations (dispatch tl s e).1)).
  { unfold observed. destruct (dispatch tl s e) as [s' [effects c]]. apply observe_generations. }
  by destruct (reduce_state tl s e E) as [->| ->]; rewrite <- H.
Qed.

(** ** Volumes *)

Lemma drag_step s v :
  f32_is_finite v = true ->
  let s' := (reduce tl s (MasterVolumeChanged v)).1 in
  volume_pending s' = true
  /\ (volume_pending s = true -> confirmed_master_volume s' = confirmed_master_volume s)
  /\ (volume_pending s = false -> confirmed_master_volume s' = Some (master_volume s)).
Proof.
  intros Hf. cbv zeta.
  rewrite (reduce_outside volume_pending), (reduce_outside confirmed_master_volume) by done.
  unfold start_suppressed. rewrite andb_false_r. by apply master_volume_drag.
Qed.

(** A drag keeps the value it started from as the confirmed one. *)
Lemma drag_confirmed s vs :
  volume_pending s = true -> Forall (fun v => f32_is_finite v = true) vs ->
  let s' := (run tl s (MasterVolumeChanged <$> vs)).1 in
  volume_pending s' = true /\ confirmed_master_volume s' = confirmed_master_volume s.
Proof.
  intros Hp Hvs. revert s Hp; induction Hvs as [|v vs Hv _ IH]; intros s Hp; [done|].
  cbn [fmap list_fmap]. rewrite run_cons. cbn [fst].
  destruct (drag_step s v Hv) as (Hp' & Hc & _).
  destruct (IH _ Hp') as [? Hi]. split; [done|]. cbv zeta in *. by rewrite Hi, Hc.
Qed.

Lemma run_app s es es' : (run tl s (es ++ es')).1 = (run tl (run tl s es).1 es').1.
Proof.
  revert s; induction es as [|e es IH]; intros s; [done|].
  cbn [app]. rewrite !run_cons. cbn [fst]. apply IH.
Qed.

Lemma closed_restores s m v :
  volume_pending s = true -> confirmed_master_volume s = Some v ->
  let s' := (reduce tl s (Controller (ChannelClosed m))).1 in
  master_volume s' = v /\ volume_pending s' = false.
Proof.
  intros Hp Hc. cbv zeta.
  rewrite (reduce_outside volume_pending), (reduce_outside master_volume) by done.
  unfold start_suppressed. rewrite andb_false_r. cbn. unfold channel_closed, publish_notice. cbn.
  rewrite Hp, Hc. cbn.
  destruct (group_operation s) as [o|]; cbn; [destruct (op_status o ==? _)|]; by split.
Qed.

Lemma run_volumes s es :
  volume_unit s -> app_inv s -> Forall volume_report_ok es ->
  Forall f32_unit_range (omap commanded_volume (run tl s es).2).
Proof.
  intros Hu Hi Hes. revert s Hu Hi; induction Hes as [|e es He _ IH]; intros s Hu Hi.
  - constructor.
  - rewrite run_cons. cbn [snd]. rewrite omap_app, reduce_omap by done.
    pose proof (inv_volume s Hi) as Hv.
    apply Forall_app; split.
    + destruct (start_suppressed s e); [constructor|by apply dispatch_commands_unit].
    + apply IH; [|by apply reduce_inv]. unfold volume_unit.
      rewrite (reduce_outside master_volume), (reduce_outside confirmed_master_volume) by done.
      destruct (start_suppressed s e); [done|by apply dispatch_unit].
Qed.
End Trace.

(** ** Starting a session

    What a start asks of the backend, from the start button and from the
    listening check. *)
(** The receivers a start addresses: the acknowledged target when there is
    one, otherwise the selected receivers that are online. *)
Definition start_targets (s : AppState) : list DeviceId :=
  if desired_known s then sort_ids (elements (desired_receivers s)) else available_selected_ids s.

Lemma start_targets_sorted s :
  sorted_by device_leb (start_targets s) /\ NoDup (start_targets s).
Proof.
  unfold start_targets. destruct (desired_known s); [|apply available_selected_ids_sorted].
  split; [apply sort_ids_sorted|]. rewrite sort_ids_perm. apply NoDup_elements.
Qed.

Lemma start_targets_elem s d :
  d ∈ start_targets s <->
  d ∈ desired_receivers s /\ (desired_known s = true \/ seen_available d (receivers s)).
Proof.
  unfold start_targets. destruct (desired_known s).
  - rewrite sort_ids_perm, elem_of_elements. naive_solver.
  - rewrite available_selected_ids_elem. naive_solver.
Qed.

Lemma start_requested_starts s :
  shutting_down s = false -> startable (stream s) = true -> available_selected_ids s <> [] ->
  start_requested s = start_with_receiver_ids s (start_targets s).
Proof.
  intros Hd Hs Ha. unfold start_requested, start_targets. rewrite Hd, Hs. cbn.
  by destruct (available_selected_ids s).
Qed.

Lemma seen_selected s d :
  d ∈ desired_receivers s -> seen_available d (receivers s) -> available_selected_ids s <> [].
Proof.
  intros Hd Ha E. assert (H : d ∈ available_selected_ids s)
    by (apply available_selected_ids_elem; auto).
  rewrite E in H. by apply elem_of_nil in H.
Qed.

(** ** Starting the listening check *)

Lemma levels_eqb_refl l :
  map_Forall (fun _ v => f32_is_nan v = false) l -> levels_eqb l l = true.
Proof.
  intros H. unfold levels_eqb. rewrite bool_decide_eq_true_2 by done. cbn.
  apply forallb_elem. intros [k v] Hk. apply elem_of_map_to_list in Hk. cbn. rewrite Hk. cbn.
  apply f32_eqb_refl. exact (H k v Hk).
Qed.

(** A fresh binding matches the state it was taken from. *)
Lemma bind_matches c s :
  ready s = true ->
  (forall l, receiver_levels s = Some l -> map_Forall (fun _ v => f32_is_nan v = false) l) ->
  matches_check (bind_check c s) s = true.
Proof.
  intros Hr Hl. unfold matches_check. rewrite Hr. cbn.
  apply ready_spec in Hr as [_ _ _ _ Hlev _ _ _ Hv Hsrc].
  unfold levels_audible, volume_safe in *. unfold binding.
  destruct (audio_source s) as [src|]; [|done].
  destruct (confirmed_master_volume s) as [v|]; [|done].
  destruct (receiver_levels s) as [l|]; [|done]. cbn in *. bool_simpl.
  rewrite !bool_decide_eq_true_2 by done. cbn.
  rewrite f32_eqb_refl by (by apply f32_finite_not_nan). cbn. apply levels_eqb_refl. by apply Hl.
Qed.

Lemma check_startable s :
  hs_ready (check_snapshot s) = true ->
  stream s = StreamStopped /\ ready s = true /\ hc_phase (hardware_check s) <> PhaseStopPending.
Proof.
  unfold check_snapshot, start_blocker, ready. cbn.
  destruct (_ || is_stream_failed _); [done|]. destruct (_ || is_stream_stopping _) eqn:E; [done|].
  destruct (negb (stream s ==? StreamStopped)) eqn:Es; [done|]. bool_simpl.
  destruct (prerequisite_blocker s) as [[]|] eqn:Hb; cbn; try done.
  exfalso. unfold prerequisite_blocker in Hb. by repeat split_match_in Hb.
Qed.

(** The observer leaves a check alone whose session is coming up as bound. *)
Lemma observe_connecting s o effects :
  obs_configuration_request o = false ->
  hc_phase (hardware_check s) = PhaseConnecting ->
  hc_generation (hardware_check s) = Some (gen_session (generations s)) ->
  (exists g, stream s = StreamStarting g) ->
  matches_check (hardware_check s) s = true ->
  (observe_hardware_check s o effects).1.1 = s /\ (observe_hardware_check s o effects).1.2 = effects.
Proof.
  intros Ho Hp Hg [g Hs] Hm. unfold observe_hardware_check. rewrite Ho, Hp, Hm, Hg, Hs. cbn.
  by rewrite bool_decide_eq_true_2.
Qed.

Section Start.
Context (tl : string -> string).

(** What the hotkey does to a degraded or restarting session. *)
Lemma degraded_hotkey s g :
  stream s = StreamDegraded g \/ stream s = StreamRestarting g ->
  let d := dispatch tl s GlobalHotkeyPressed in
  stream d.1 = stream s /\ d.2.1 = [] /\ hardware_check d.1 = hardware_check s.
Proof.
  intros Hs. cbn. open_handlers.
  destruct Hs as [Hs|Hs]; rewrite Hs; cbn; repeat (step_split; rewrite ?Hs; cbn); auto;
    rewrite ?orb_true_r in *; try discriminate.
Qed.

Lemma reduce_start s :
  check_ok s -> shutting_down s = false -> startable (stream s) = true ->
  hc_phase (hardware_check s) <> PhaseStopPending -> available_selected_ids s <> [] ->
  let g := u64_succ (gen_session (generations s)) in
  t_effects (reduce tl s StartRequested).2
  = [EffStartSession g (start_targets s) (f32_clamp (master_volume s) f32_zero f32_one)]
  /\ stream (reduce tl s StartRequested).1 = StreamStarting g.
Proof.
  intros Hc Hd Hs Hp Ha. cbv zeta.
  destruct (reduce_observe tl s StartRequested) as (_ & -> & ->).
  { unfold start_suppressed. by rewrite bool_decide_eq_false_2. }
  cbn [dispatch]. rewrite start_requested_starts by done.
  unfold start_with_receiver_ids, bump_session. cbn.
  match goal with
  | |- (observe_hardware_check ?s0 ?o ?l).1.2 = _ /\ _ =>
      destruct (observe_idle s0 o l) as [-> ->]; cbn; auto
  end; intros E; unfold check_ok in Hc; rewrite E in Hc; destruct Hc as (_ & _ & Hc);
    by destruct (stream s).
Qed.

Lemma reduce_check_start s :
  hs_ready (check_snapshot s) = true -> hc_prepared (hardware_check s) = true ->
  (forall l, receiver_levels s = Some l -> map_Forall (fun _ v => f32_is_nan v = false) l) ->
  let g := u64_succ (gen_session (generations s)) in
  let r := reduce tl s (HardwareCheckEvent CheckStart) in
  t_effects r.2 = [EffStartSession g (sort_ids (elements (desired_receivers s)))
                     (f32_clamp (master_volume s) f32_zero f32_one)]
  /\ stream r.1 = StreamStarting g
  /\ hc_phase (hardware_check r.1) = PhaseConnecting
  /\ hc_generation (hardware_check r.1) = Some g.
Proof.
  intros Hr Hp Hl. cbv zeta. destruct (check_startable s Hr) as (Hs & Hready & Hstop).
  destruct (reduce_observe tl s (HardwareCheckEvent CheckStart)) as (-> & -> & ->).
  { apply andb_false_r. }
  destruct (ready_available s Hready) as (r & Hr1 & Hr2 & Hr3).
  pose proof (proj1 (ready_spec s) Hready) as [[Hd _] [Hk _] _ _ _ _ _ _ _ _].
  assert (Ha : available_selected_ids s <> []) by (eapply seen_selected; [done|by exists r]).
  cbn [dispatch]. unfold hardware_check_requested. rewrite Hd, Hr, Hp. cbn [negb orb].
  rewrite start_requested_starts by (done || by rewrite Hs).
  unfold start_targets. rewrite Hk. unfold start_with_receiver_ids, bump_session. cbn.
  match goal with
  | |- context [observe_hardware_check ?s2 ?o ?l] =>
      destruct (observe_connecting s2 o l) as [-> ->]; cbn; eauto
  end.
  transitivity (matches_check (bind_check (hardware_check s) s) s); [reflexivity|].
  by apply bind_matches.
Qed.
End Start.
