(* ===== verification/ReducerProps.v ===== *)
(** * Theorems about the application shell

    The claims proved of the reducer, its observer and the event loop, each
    with a concrete run that satisfies its hypotheses. *)

From S2P Require Import Prelude Float32 AppState HardwareCheck Reducer ReducerInv.
From S2P Require Import Snapshot ReducerFacts ReducerTrace.

(** ** Concrete inputs for the witnesses *)

Definition demo_id : DeviceId := MkDeviceId 0x58 0x55 0xCA 0x1A 0xE2 0x88.
Definition demo_row : ReceiverState :=
  {| rs_id := demo_id; rs_name := "Kitchen"; rs_model := "AudioAccessory5,1";
     rs_availability := Available |}.
Definition demo_prefs : Preferences := preferences_from_state default_state.
Definition demo_load : PreferencesLoad := {| pl_value := demo_prefs; pl_notice := None |}.
Definition demo_source : AudioSourceReading :=
  {| as_endpoints_known := true; as_refresh_failed := false;
     as_endpoints := [{| ec_key := 3; ec_name := "Speakers" |}];
     as_selection := SelSystemDefault; as_captured_key := Some 3;
     as_captured_name := Some "Speakers"; as_state := Capturing |}.

(** The backend reports that make a fresh shell ready for a listening check. *)
Definition demo_reports : list AppEvent :=
  [ Controller (DiscoveryCompleted 0 [demo_row]);
    Controller (DesiredReceiversChanged 0 [demo_id]);
    Controller (ReceiverLevelsChanged ∅);
    Controller (MuteChanged false);
    Controller (LatencyChanged {| lr_selected := LatencyNormal;
      lr_options := [{| lo_choice := LatencyNormal; lo_unavailable := None |}] |});
    Controller (AudioSourceChanged demo_source);
    Controller (VolumeApplied 0 f32_0_10);
    HardwareCheckEvent (CheckPrepare true) ].

Definition demo_tl (s : string) : string := s.
Definition demo_ready : AppState := (run demo_tl (initial_state demo_load English) demo_reports).1.
Definition demo_connecting : AppState := (reduce demo_tl demo_ready (HardwareCheckEvent CheckStart)).1.
Definition demo_started : AppEvent := Controller (SessionStarted 1 [demo_id]).
Definition demo_listening : AppState := (reduce demo_tl demo_connecting demo_started).1.
Definition demo_stopping : AppState :=
  (reduce demo_tl demo_listening (HardwareCheckEvent (CheckHeard true))).1.

Lemma demo_load_notice :
  forall n, pl_notice demo_load = Some n -> n_code n = NoticePreferencesFailed.
Proof. intros n H. discriminate H. Qed.

Section Props.
Context (tl : string -> string).

Lemma actor_inv initial events :
  app_inv initial ->
  app_inv (ac_state (run_actor tl initial events))
  /\ ui_same (ac_published (run_actor tl initial events))
             (ui_snapshot tl (ac_state (run_actor tl initial events))).
Proof.
  intros Hi. unfold run_actor.
  apply (fold_left_inv (actor_step tl)
    (fun a => app_inv (ac_state a) /\ ui_same (ac_published a) (ui_snapshot tl (ac_state a)))).
  - split; [done|apply ui_same_refl].
  - intros a e [Ha Hu]. unfold actor_step.
    pose proof (reduce_inv tl (ac_state a) e Ha) as Hr.
    pose proof (reduce_silent tl (ac_state a) e Ha) as Hq.
    destruct (reduce tl (ac_state a) e) as [s t]. cbn in *. split; [done|].
    destruct (t_snapshot_changed t); [apply ui_same_refl|].
    eapply ui_same_trans; [exact Hu|by apply Hq].
Qed.
End Props.

(** C1: the window never shows a stale projection.  After any queue of events
    processed by the event loop from a startup state, the last published
    [UiSnapshot] is indistinguishable (derived [PartialEq]) from the projection
    of the current state, although it is only republished on
    [snapshot_changed]. *)
Theorem published_snapshot_is_current tl loaded locale events :
  (forall n, pl_notice loaded = Some n -> n_code n = NoticePreferencesFailed) ->
  let a := run_actor tl (initial_state loaded locale) events in
  ui_same (ac_published a) (ui_snapshot tl (ac_state a)).
Proof. intros Hn. apply actor_inv, initial_inv, Hn. Qed.

Lemma published_snapshot_is_current_witness :
  let a := run_actor demo_tl (initial_state demo_load English) demo_reports in
  ui_same (ac_published a) (ui_snapshot demo_tl (ac_state a)).
Proof.
  apply (published_snapshot_is_current demo_tl demo_load English demo_reports).
  exact demo_load_notice.
Defined.

(** C15: in every reachable state receivers are marked active only while the
    stream is live, the rendered language is the resolved preference, the
    inventory is sorted by identity without duplicates, the volume is finite,
    and a listening check in progress or a published verdict matches the
    bound setup. *)
Theorem reachable_states_are_consistent tl s : reachable tl s -> app_inv s.
Proof. apply reachable_inv. Qed.

Lemma reachable_states_are_consistent_witness : app_inv demo_connecting.
Proof.
  apply (reachable_states_are_consistent demo_tl).
  apply reach_step, run_reachable, reach_init, demo_load_notice.
Defined.

(** The revision counter counts exactly the transitions that report a
    changed snapshot. *)
Theorem revision_counts_reported_changes tl s e :
  revision (reduce tl s e).1
  = if t_snapshot_changed (reduce tl s e).2 then u64_succ (revision s) else revision s.
Proof.
  rewrite reduce_eq. destruct (start_suppressed s e); [done|].
  assert (E : revision (observed tl s e).1.1 = revision s)
    by (rewrite (observed_frame tl s e); cbn; apply dispatch_revision).
  unfold finish. cbn. destruct (reported tl s e); cbn; by rewrite E.
Qed.

(** C35: the audible listening tone is only ever requested in a safe, settled
    situation: the stream is up in the generation the check is bound to, it
    reaches exactly the desired receivers, nothing is muted or pending, and
    the confirmed master volume is positive and at most 15 percent. *)
Theorem listening_tone_only_when_safe tl s e g :
  EffPlayListeningTone g ∈ t_effects (reduce tl s e).2 ->
  let s' := (reduce tl s e).1 in
  tone_guard s' /\ g = gen_session (generations s')
  /\ exists v, confirmed_master_volume s' = Some v /\ f32_ltb f32_zero v = true
               /\ f32_leb v f32_0_15 = true.
Proof.
  intros Hx. apply reduce_effect_origin in Hx as [Hs [Hx|[Hx|[[= ->] Ht]]]].
  - by apply dispatch_no_tone in Hx.
  - discriminate.
  - assert (Ht' : tone_guard (reduce tl s e).1 /\
      gen_session (generations (observed tl s e).1.1) = gen_session (generations (reduce tl s e).1)).
    { destruct (reduce_state tl s e Hs) as [->| ->]; [done|]. destruct Ht as [[] ? ? ? ?].
      split; [|done]. by constructor; [constructor|..]. }
    destruct Ht' as [Ht' ->]. split_and!; [done..|].
    pose proof (cr_volume _ (tg_ready _ Ht')) as Hv. unfold volume_safe in Hv.
    destruct (confirmed_master_volume _) as [v|]; [|discriminate]. cbn in Hv. bool_simpl. eauto.
Qed.

Lemma listening_tone_only_when_safe_witness :
  EffPlayListeningTone 1 ∈ t_effects (reduce demo_tl demo_connecting demo_started).2
  /\ tone_guard demo_listening.
Proof.
  assert (H : EffPlayListeningTone 1 ∈ t_effects (reduce demo_tl demo_connecting demo_started).2).
  { replace (t_effects (reduce demo_tl demo_connecting demo_started).2)
      with [EffPlayListeningTone 1] by (vm_compute; reflexivity). left. }
  split; [exact H|].
  exact (proj1 (listening_tone_only_when_safe demo_tl demo_connecting demo_started 1 H)).
Defined.

(** ** The verdict of a listening check *)

(** A check is only ever recorded as heard by the acknowledgement of the
    stop it asked for: the event is the backend's [SessionStopped] for the
    generation the check is bound to, the user had answered yes, and the
    stream is down. *)
Theorem verdict_needs_stop_acknowledgement tl s e :
  hc_phase (hardware_check s) <> PhaseHeard ->
  hc_phase (hardware_check (reduce tl s e).1) = PhaseHeard ->
  exists g, e = Controller (SessionStopped g)
    /\ hc_phase (hardware_check s) = PhaseStopPending
    /\ hc_generation (hardware_check s) = Some g
    /\ hc_outcome (hardware_check s) = Some true
    /\ stream (reduce tl s e).1 = StreamStopped.
Proof.
  intros Hn Hh. destruct (start_suppressed s e) eqn:E; [by rewrite reduce_eq, E in Hh|].
  destruct (reduce_observe tl s e E) as (Hc & Hs & _). rewrite Hc in Hh. rewrite Hs.
  apply observe_heard in Hh as Hh'. destruct Hh' as [Ho|(Hp & Hout & Hne & Hg & Hst)].
  { by apply dispatch_heard in Ho. }
  destruct e as [| | | | | | | | | | | | | | | | | | | | | | | |[]| |]; try done.
  destruct (observe_idle (dispatch tl s (Controller (SessionStopped generation))).1
    (observation_from_event (Controller (SessionStopped generation)))
    (dispatch tl s (Controller (SessionStopped generation))).2.1) as [-> _]; [by rewrite Hp..|].
  rewrite dispatch_stopped_check in Hp, Hg, Hout. exists generation. split_and!; auto.
Qed.

Lemma verdict_needs_stop_acknowledgement_witness :
  hc_phase (hardware_check demo_stopping) <> PhaseHeard
  /\ exists g, Controller (SessionStopped 2) = Controller (SessionStopped g)
    /\ hc_generation (hardware_check demo_stopping) = Some g.
Proof.
  assert (H : hc_phase (hardware_check demo_stopping) <> PhaseHeard) by (vm_compute; discriminate).
  split; [exact H|].
  destruct (verdict_needs_stop_acknowledgement demo_tl demo_stopping
    (Controller (SessionStopped 2)) H) as (g & E & _ & Hg & _); [vm_compute; reflexivity|].
  exists g. split; assumption.
Defined.

(** The acknowledgement of the pending stop always settles the check.  The
    verdict is the user's answer when the setup is still the one the check was
    bound to, and an invalidation otherwise; the preparation must be confirmed
    again and nothing is sent to the backend. *)
Theorem stop_acknowledgement_settles_check tl s g :
  hc_phase (hardware_check s) = PhaseStopPending ->
  hc_generation (hardware_check s) = Some g ->
  g = gen_session (generations s) ->
  let s' := (reduce tl s (Controller (SessionStopped g))).1 in
  hc_phase (hardware_check s')
  = (if matches_check (hardware_check s)
          (dispatch tl s (Controller (SessionStopped g))).1
     then match hc_outcome (hardware_check s) with
          | Some true => PhaseHeard | Some false => PhaseNotHeard | None => PhaseInvalidated
          end
     else PhaseInvalidated)
  /\ hc_prepared (hardware_check s') = false /\ stream s' = StreamStopped
  /\ t_effects (reduce tl s (Controller (SessionStopped g))).2 = [].
Proof.
  intros Hp Hg Hgen. cbv zeta.
  destruct (reduce_observe tl s (Controller (SessionStopped g))) as (-> & -> & ->);
    [unfold start_suppressed; apply andb_false_r|].
  destruct (stop_event_dispatch tl s g Hgen) as (Hs & He & Hk).
  destruct (dispatch tl s (Controller (SessionStopped g))) as [s' [effects c]]. cbn in *. subst.
  rewrite <- Hk in *. apply observe_settles_exactly; auto.
Qed.

Lemma stop_acknowledgement_settles_check_witness :
  hc_phase (hardware_check (reduce demo_tl demo_stopping (Controller (SessionStopped 2))).1)
  = PhaseHeard.
Proof.
  destruct (stop_acknowledgement_settles_check demo_tl demo_stopping 2) as [-> _];
    vm_compute; reflexivity.
Defined.

(** ** Starting and stopping *)

(** While the stop of a listening check is unacknowledged (and no session
    is reported running), no event whatsoever makes the reducer ask for a new
    session, directly or through a saved group. *)
Theorem no_start_while_stop_pending tl s e x :
  hc_phase (hardware_check s) = PhaseStopPending -> is_running (stream s) = false ->
  x ∈ t_effects (reduce tl s e).2 -> is_session_start x = false.
Proof.
  intros Hp Hr (E & [Hx|[->|[-> _]]])%reduce_effect_origin; [|done..].
  by eapply dispatch_stop_pending.
Qed.

Lemma no_start_while_stop_pending_witness :
  let e := HardwareCheckEvent CheckLowerVolume in
  t_effects (reduce demo_tl demo_stopping e).2 = [EffApplyVolume 1 f32_0_10]
  /\ is_session_start (EffApplyVolume 1 f32_0_10) = false.
Proof.
  assert (H : t_effects (reduce demo_tl demo_stopping (HardwareCheckEvent CheckLowerVolume)).2
    = [EffApplyVolume 1 f32_0_10]) by (vm_compute; reflexivity).
  split; [exact H|].
  apply (no_start_while_stop_pending demo_tl demo_stopping (HardwareCheckEvent CheckLowerVolume));
    [vm_compute; reflexivity..|]. rewrite H. left.
Defined.

(** An accepted start addresses exactly the right receivers.  It issues one
    [StartSession] under a fresh generation with a volume in [0, 1] and moves
    the stream to starting; the target list is sorted, free of duplicates and
    consists of the desired receivers, restricted to those online as long as
    the backend has not acknowledged a target. *)
Theorem start_addresses_desired_receivers tl s :
  reachable tl s -> shutting_down s = false -> startable (stream s) = true ->
  hc_phase (hardware_check s) <> PhaseStopPending ->
  (exists d, d ∈ desired_receivers s /\ seen_available d (receivers s)) ->
  exists g ids v,
    t_effects (reduce tl s StartRequested).2 = [EffStartSession g ids v]
    /\ g = u64_succ (gen_session (generations s))
    /\ stream (reduce tl s StartRequested).1 = StreamStarting g
    /\ f32_unit_range v
    /\ sorted_by device_leb ids /\ NoDup ids
    /\ forall d, d ∈ ids <->
         d ∈ desired_receivers s /\ (desired_known s = true \/ seen_available d (receivers s)).
Proof.
  intros Hr Hd Hs Hp (d & Hd1 & Hd2). apply reachable_inv in Hr.
  destruct (reduce_start tl s) as [He Hst]; auto using inv_check.
  { by eapply seen_selected. }
  pose proof (start_targets_sorted s) as [? ?].
  do 3 eexists. split_and!; eauto using start_targets_elem.
  apply f32_clamp01_range. by destruct (inv_volume s Hr).
Qed.

Lemma start_addresses_desired_receivers_witness :
  exists g ids v, t_effects (reduce demo_tl demo_ready StartRequested).2
                  = [EffStartSession g ids v] /\ NoDup ids.
Proof.
  destruct (start_addresses_desired_receivers demo_tl demo_ready)
    as (g & ids & v & H & _ & _ & _ & _ & Hn & _).
  - apply run_reachable, reach_init, demo_load_notice.
  - vm_compute; reflexivity.
  - vm_compute; reflexivity.
  - vm_compute; discriminate.
  - exists demo_id. split; [vm_compute; reflexivity|].
    exists demo_row. replace (receivers demo_ready) with [demo_row] by (vm_compute; reflexivity).
    repeat split. left.
  - exists g, ids, v. split; assumption.
Defined.

(** A listening check that is offered as ready and was prepared does start:
    exactly one session request for the whole desired set, and the check is
    connecting, bound to the new generation.  (Levels must not be NaN; a NaN
    level of an unrelated receiver would make the fresh binding differ from
    itself and abort the check at once.) *)
Theorem ready_check_starts tl s :
  hs_ready (check_snapshot s) = true -> hc_prepared (hardware_check s) = true ->
  (forall l, receiver_levels s = Some l -> map_Forall (fun _ v => f32_is_nan v = false) l) ->
  let g := u64_succ (gen_session (generations s)) in
  let r := reduce tl s (HardwareCheckEvent CheckStart) in
  t_effects r.2 = [EffStartSession g (sort_ids (elements (desired_receivers s)))
                     (f32_clamp (master_volume s) f32_zero f32_one)]
  /\ stream r.1 = StreamStarting g
  /\ hc_phase (hardware_check r.1) = PhaseConnecting
  /\ hc_generation (hardware_check r.1) = Some g.
Proof. apply reduce_check_start. Qed.

Lemma ready_check_starts_witness :
  hc_phase (hardware_check demo_connecting) = PhaseConnecting.
Proof.
  apply (ready_check_starts demo_tl demo_ready); [vm_compute; reflexivity..|].
  intros l H. replace (receiver_levels demo_ready) with (Some (∅ : gmap DeviceId f32)) in H
    by (vm_compute; reflexivity).
  injection H as <-. apply map_Forall_empty.
Defined.

(** A session report of an older generation never changes the stream, the
    active receivers or any other part of the state but the check and the
    revision, and asks the backend for nothing. *)
Theorem stale_session_reports_change_nothing tl s e g :
  reachable tl s -> session_event_generation e = Some g -> g <> gen_session (generations s) ->
  (exists c r, (reduce tl s e).1 = s <| hardware_check := c |> <| revision := r |>)
  /\ forall x, x ∈ t_effects (reduce tl s e).2 -> exists g', x = EffPlayListeningTone g'.
Proof. intros Hr. apply reduce_stale. by apply reachable_inv in Hr. Qed.

Lemma stale_session_reports_change_nothing_witness :
  stream (reduce demo_tl demo_connecting (Controller (SessionStopped 0))).1 = StreamStarting 1.
Proof.
  destruct (stale_session_reports_change_nothing demo_tl demo_connecting
    (Controller (SessionStopped 0)) 0) as [(c & r & E) _].
  - apply reach_step, run_reachable, reach_init, demo_load_notice.
  - reflexivity.
  - vm_compute. discriminate.
  - rewrite E. vm_compute. reflexivity.
Defined.

(** ** Shutdown *)

(** Whatever queue of events is processed from whatever state, shutdown is
    begun at most once, and never again once it was begun. *)
Theorem shutdown_begins_at_most_once tl s events :
  (length (begin_shutdowns (run tl s events).2) <= if shutting_down s then 0 else 1)%nat.
Proof. apply run_begin_shutdown. Qed.

(** Once the shell is shutting down with its session stopped, no further
    queue of events starts a session, unless the backend itself reports one
    running. *)
Theorem no_start_after_quit tl s events x :
  shutting_down s = true -> is_running (stream s) = false ->
  Forall (fun e => reports_running e = false) events ->
  x ∈ (run tl s events).2 -> is_session_start x = false.
Proof. intros Hd Hr He. by apply run_stays_down. Qed.

Definition demo_quit : AppState := (reduce demo_tl demo_listening QuitRequested).1.

Lemma no_start_after_quit_witness :
  let es := [MainWindowCloseRequested; StartRequested; GlobalHotkeyPressed] in
  (run demo_tl demo_quit es).2 = [EffHideMainWindow] /\ is_session_start EffHideMainWindow = false.
Proof.
  set (es := [MainWindowCloseRequested; StartRequested; GlobalHotkeyPressed]).
  assert (H : (run demo_tl demo_quit es).2 = [EffHideMainWindow]) by (vm_compute; reflexivity).
  split; [exact H|].
  apply (no_start_after_quit demo_tl demo_quit es); [vm_compute; reflexivity..| |].
  - repeat constructor.
  - rewrite H. left.
Defined.

(** ** Group operations *)

(** Group requests are never reused.  Along any queue of events (short
    enough not to overflow the counter) the request ids sent to the backend
    strictly increase, starting above the last one used. *)
Theorem group_requests_increase tl s events :
  0 <= next_group_request s -> next_group_request s + Z.of_nat (length events) < 2 ^ 64 ->
  StronglySorted Z.lt (group_requests (run tl s events).2)
  /\ Forall (Z.lt (next_group_request s)) (group_requests (run tl s events).2).
Proof. apply run_groups. Qed.

Definition demo_group_events : list AppEvent :=
  [GroupRequested (GroupDelete 7); GroupRequested (GroupDelete 8);
   Controller (GroupOperationFinished 1 OperationSucceeded); GroupRequested (GroupDelete 9)].

Lemma group_requests_increase_witness :
  group_requests (run demo_tl demo_ready demo_group_events).2 = [1; 2]
  /\ StronglySorted Z.lt (group_requests (run demo_tl demo_ready demo_group_events).2).
Proof.
  split; [vm_compute; reflexivity|].
  apply (group_requests_increase demo_tl demo_ready demo_group_events).
  - vm_compute. discriminate.
  - vm_compute. reflexivity.
Defined.

(** A pending group operation is resolved only by the backend's answer to
    that very request, or by the loss of the backend, which fails it; every
    other event leaves it exactly as it is. *)
Theorem pending_group_operation_resolution tl s e op :
  group_operation s = Some op -> op_status op = OperationPending ->
  group_operation (reduce tl s e).1 = Some op
  \/ (exists status, e = Controller (GroupOperationFinished (op_request op) status)
      /\ group_operation (reduce tl s e).1 = Some (op <| op_status := status |>))
  \/ (exists summary, e = Controller (ChannelClosed summary)
      /\ group_operation (reduce tl s e).1
         = Some (op <| op_status := OperationFailed GroupClosed |>)).
Proof. apply reduce_group_operation. Qed.

Definition demo_operation : GroupOperation :=
  {| op_request := 1; op_command := GroupDelete 7; op_status := OperationPending |}.

Lemma pending_group_operation_resolution_witness :
  let s := (reduce demo_tl demo_ready (GroupRequested (GroupDelete 7))).1 in
  group_operation (reduce demo_tl s (GroupRequested (GroupDelete 8))).1 = Some demo_operation.
Proof.
  intros s.
  destruct (pending_group_operation_resolution demo_tl s (GroupRequested (GroupDelete 8))
    demo_operation) as [H|[(st & H & _)|(su & H & _)]];
    [vm_compute; reflexivity..|exact H|discriminate H|discriminate H].
Defined.

(** ** Inventory *)

(** Merging a current browse keeps exactly the reported receivers and the
    still relevant known ones.  Every row is a reported row or a known,
    selected or staged receiver that the browse missed, marked unavailable; a
    receiver reported available by any of its records is available; the result
    is sorted and free of duplicates. *)
Theorem discovery_merge_is_exact tl s found :
  let rows := receivers
    (reduce tl s (Controller (DiscoveryCompleted (gen_discovery (generations s)) found))).1 in
  rows_ok rows
  /\ (forall d, d ∈ rs_id <$> rows <->
        d ∈ rs_id <$> found \/ (d ∈ rs_id <$> receivers s /\ relevant s d))
  /\ (forall r, r ∈ rows ->
        r ∈ found \/ exists p, p ∈ receivers s /\ r = p <| rs_availability := Unavailable |>
                               /\ rs_id p ∉ rs_id <$> found /\ relevant s (rs_id p))
  /\ (forall d, seen_available d found -> seen_available d rows).
Proof.
  cbv zeta. rewrite (reduce_outside tl receivers) by done. unfold start_suppressed.
  rewrite andb_false_r. cbn. unfold merge_discovery. rewrite Z.eqb_refl. cbn.
  replace (receivers _) with (merged_receivers s found) by (by split_match).
  split_and!; [apply merged_receivers_ok|apply merged_ids|apply merged_elem|apply merged_available].
Qed.

(** ** Settings and volume *)

(** Whenever settings are written, the written value is the projection of
    the state after the event, under its current settings generation, so a
    confirmation of that generation confirms the settings shown. *)
Theorem persisted_preferences_are_current tl s e g v :
  EffPersistPreferences g v ∈ t_effects (reduce tl s e).2 ->
  v = preferences_from_state (reduce tl s e).1
  /\ g = gen_preferences (generations (reduce tl s e).1).
Proof. apply reduce_persist. Qed.

Lemma persisted_preferences_are_current_witness :
  let r := reduce demo_tl demo_ready (ThemeChanged ThemeDark) in
  exists g v, EffPersistPreferences g v ∈ t_effects r.2 /\ pref_theme v = ThemeDark
              /\ g = gen_preferences (generations r.1).
Proof.
  set (r := reduce demo_tl demo_ready (ThemeChanged ThemeDark)).
  set (v := preferences_from_state r.1).
  assert (H : EffPersistPreferences 1 v ∈ t_effects r.2).
  { replace (t_effects r.2) with [EffPersistPreferences 1 v] by (vm_compute; reflexivity). left. }
  destruct (persisted_preferences_are_current demo_tl demo_ready (ThemeChanged ThemeDark) 1 v H)
    as [_ Hg].
  exists 1, v. split; [exact H|]. split; [vm_compute; reflexivity|exact Hg].
Defined.

(** Every volume the shell commands (a session start, the master volume, a
    receiver level) lies in [0, 1], along any queue of events in which the
    backend only confirms volumes in that range. *)
Theorem commanded_volumes_in_unit_range tl loaded locale events :
  (forall n, pl_notice loaded = Some n -> n_code n = NoticePreferencesFailed) ->
  Forall volume_report_ok events ->
  Forall f32_unit_range (omap commanded_volume (run tl (initial_state loaded locale) events).2).
Proof.
  intros Hn He. apply run_volumes; [|by apply initial_inv|done].
  split; [split; reflexivity|]. intros v H. discriminate H.
Qed.

Lemma commanded_volumes_in_unit_range_witness :
  let es := demo_reports ++ [StartRequested; MasterVolumeChanged (f32_of_Z 7)] in
  omap commanded_volume (run demo_tl (initial_state demo_load English) es).2 = [f32_0_10; f32_one]
  /\ Forall f32_unit_range
       (omap commanded_volume (run demo_tl (initial_state demo_load English) es).2).
Proof.
  split; [vm_compute; reflexivity|].
  apply commanded_volumes_in_unit_range; [exact demo_load_notice|].
  repeat constructor.
Defined.

(** Losing the backend in the middle of a volume drag restores the volume
    from before the drag, whatever values the slider went through. *)
Theorem lost_backend_undoes_volume_drag tl s v vs m :
  volume_pending s = false -> Forall (fun x => f32_is_finite x = true) (v :: vs) ->
  let s' := (run tl s ((MasterVolumeChanged <$> v :: vs) ++ [Controller (ChannelClosed m)])).1 in
  master_volume s' = master_volume s /\ volume_pending s' = false.
Proof.
  intros Hp Hvs. inversion_clear Hvs as [|? ? Hv Hvs']. cbv zeta.
  rewrite run_app. cbn [fmap list_fmap]. rewrite !run_cons. cbn [fst run].
  destruct (drag_step tl s v Hv) as (Hp1 & _ & Hc1).
  destruct (drag_confirmed tl _ vs Hp1 Hvs') as [Hp2 Hc2].
  apply closed_restores; [done|]. rewrite Hc2. by apply Hc1.
Qed.

Lemma lost_backend_undoes_volume_drag_witness :
  let es := (MasterVolumeChanged <$> [f32_one; f32_quarter])
              ++ [Controller (ChannelClosed "gone")] in
  master_volume (run demo_tl demo_ready es).1 = f32_0_10.
Proof.
  destruct (lost_backend_undoes_volume_drag demo_tl demo_ready f32_one [f32_quarter] "gone")
    as [E _]; [vm_compute; reflexivity|repeat constructor|].
  etransitivity; [exact E|vm_compute; reflexivity].
Defined.

(** The global hotkey stops a session that is starting or streaming, but
    not one that runs degraded or is restarting: those keep running, and no
    command about a session is sent. *)
Theorem hotkey_leaves_degraded_session_running tl s g :
  reachable tl s -> (stream s = StreamDegraded g \/ stream s = StreamRestarting g) ->
  stream (reduce tl s GlobalHotkeyPressed).1 = stream s
  /\ t_effects (reduce tl s GlobalHotkeyPressed).2 = [].
Proof.
  intros Hr Hs. apply reachable_inv, inv_check in Hr.
  destruct (start_suppressed s GlobalHotkeyPressed) eqn:E; [by rewrite reduce_eq, E|].
  destruct (reduce_observe tl s GlobalHotkeyPressed E) as (_ & -> & ->).
  destruct (degraded_hotkey tl s g Hs) as (Hst & He & Hk).
  destruct (observe_idle (dispatch tl s GlobalHotkeyPressed).1
    (observation_from_event GlobalHotkeyPressed) (dispatch tl s GlobalHotkeyPressed).2.1)
    as [-> ->]; [..|by rewrite He];
    rewrite Hk; intros Hp; unfold check_ok in Hr; rewrite Hp in Hr; destruct Hr as (_ & _ & Hr);
    by destruct Hs as [Hs|Hs]; rewrite Hs in Hr.
Qed.

Definition demo_degraded : AppState :=
  (run demo_tl demo_ready [StartRequested; Controller (SessionDegraded 1 [demo_id])]).1.

Lemma hotkey_leaves_degraded_session_running_witness :
  stream (reduce demo_tl demo_degraded GlobalHotkeyPressed).1 = StreamDegraded 1.
Proof.
  destruct (hotkey_leaves_degraded_session_running demo_tl demo_degraded 1) as [E _].
  - apply run_reachable, run_reachable, reach_init, demo_load_notice.
  - left. vm_compute. reflexivity.
  - rewrite E. vm_compute. reflexivity.
Defined.
