(* ===== verification/Model.v ===== *)
(** * Backend domain values

    [apps/openaircast/src/backend/model.rs]: receiver identities and their
    storage form, validated volumes, latency presets, and the lifecycle the
    recovery code moves receivers through.  A [&str] is the list of its UTF-8
    bytes; a [SystemTime] is a number of nanoseconds. *)

From S2P Require Import Prelude Float32 AppState.

Module Model.

Inductive ModelError := InvalidReceiverId (value : list Z) | InvalidVolume.

(** ** Receiver identity *)

(** [ReceiverId([u8; 6])]: the backend's name for a [DeviceId]. *)
Notation ReceiverId := DeviceId (only parsing).

Definition is_hex_digit (b : Z) : bool :=
  ((0x30 <=? b) && (b <=? 0x39)) || ((0x41 <=? b) && (b <=? 0x46)).

(** [char::to_digit(16)] on a validated byte. *)
Definition digit_value (b : Z) : Z := if b <=? 0x39 then b - 0x30 else b - 0x41 + 10.

(** [u8::from_str_radix(&value[..2], 16)] *)
Definition hex_pair (hi lo : Z) : Z := digit_value hi * 16 + digit_value lo.

Definition from_storage_key (value : list Z) : Result ReceiverId ModelError :=
  match value with
  | [a; b; c; d; e; f; g; h; i; j; k; l] =>
      if forallb is_hex_digit value
      then Ok (MkDeviceId (hex_pair a b) (hex_pair c d) (hex_pair e f) (hex_pair g h)
                 (hex_pair i j) (hex_pair k l))
      else Err (InvalidReceiverId value)
  | _ => Err (InvalidReceiverId value)
  end.

Definition upper_digit (d : Z) : Z := if d <? 10 then 0x30 + d else 0x41 + (d - 10).

(** [format!("{b:02X}")] *)
Definition upper_hex (b : Z) : list Z := [upper_digit (b / 16); upper_digit (b mod 16)].

Definition storage_key (self : ReceiverId) : list Z := concat (upper_hex <$> device_bytes self).

(** ** Volume *)

Definition new_volume (value : f32) : Result f32 ModelError :=
  if f32_is_finite value && f32_leb f32_zero value && f32_leb value f32_one
  then Ok value else Err InvalidVolume.

(** ** Latency presets *)

Inductive LatencyPreset := Low | Normal | Stable.
Record LatencyConfig := { sender_buffer_ms : Z; render_delay_ms : Z }.

Definition preset_label (p : LatencyPreset) : string :=
  match p with Low => "Low" | Normal => "Normal" | Stable => "Stable" end.

Definition enabled_config (p : LatencyPreset) : option LatencyConfig :=
  match p with
  | Normal => Some {| sender_buffer_ms := 2000; render_delay_ms := 200 |}
  | Low | Stable => None
  end.

Definition disabled_latency (p : LatencyPreset) : string :=
  String.append "the " (String.append (preset_label p)
    " latency profile is disabled until hardware validation passes").

Definition disabled_reason (p : LatencyPreset) : option string :=
  if is_none (enabled_config p) then Some (disabled_latency p) else None.

Definition offered : list (LatencyPreset * option string) :=
  (fun p => (p, disabled_reason p)) <$> [Low; Normal; Stable].

(** ** Receiver lifecycle *)

Inductive ReceiverRole := Single | Primary | Secondary.
#[export] Instance ReceiverRole_eq_dec : EqDecision ReceiverRole.
Proof. solve_decision. Defined.

Inductive SetupPhase :=
| PhaseConnect | PhasePair | PhasePrimaryTiming | PhaseRtspSetup | PhaseSetPeers
| PhaseBuildSender | PhaseStartAudio.
#[export] Instance SetupPhase_eq_dec : EqDecision SetupPhase.
Proof. solve_decision. Defined.

(** A pre-redacted [UserFacingError] is its text. *)
Inductive ReceiverLifecycle :=
| Discovered
| Connecting (attempt : Z)
| SettingUp (role : ReceiverRole) (phase : SetupPhase)
| Ready (role : ReceiverRole)
| Streaming (role : ReceiverRole)
| RetryWaiting (attempt : Z) (retry_at : Z)
| Unreachable
| Failed (retryable : bool) (error : string).
#[export] Instance ReceiverLifecycle_eq_dec : EqDecision ReceiverLifecycle.
Proof. solve_decision. Defined.

(** ** The storage key is canonical *)

Definition device_ok (d : ReceiverId) : Prop := bytes_ok (device_bytes d).

(** Checked on all 256 bytes and on all pairs of accepted digits. *)
Lemma upper_hex_exhaustive :
  forallb (fun b => match upper_hex b with
                    | [hi; lo] => is_hex_digit hi && is_hex_digit lo && (hex_pair hi lo =? b)
                    | _ => false
                    end) (seqZ 0 256) = true.
Proof. vm_compute. reflexivity. Qed.

Definition hex_digits : list Z := List.filter is_hex_digit (seqZ 0 256).

Lemma hex_pair_exhaustive :
  forallb (fun hi => forallb (fun lo =>
    (0 <=? hex_pair hi lo) && (hex_pair hi lo <? 256)
    && bool_decide (upper_hex (hex_pair hi lo) = [hi; lo])) hex_digits) hex_digits = true.
Proof. vm_compute. reflexivity. Qed.

Lemma upper_hex_ok b :
  is_byte b -> exists hi lo, upper_hex b = [hi; lo] /\ is_hex_digit hi = true
    /\ is_hex_digit lo = true /\ hex_pair hi lo = b.
Proof.
  intros Hb. pose proof (proj1 (forallb_elem _ _) upper_hex_exhaustive b) as H.
  unfold is_byte, in_width in Hb. specialize (H ltac:(apply elem_of_seqZ; lia)).
  cbn beta in H. unfold upper_hex in *. bool_simpl. eauto 6.
Qed.

Lemma hex_digit_range d : is_hex_digit d = true -> d ∈ hex_digits.
Proof.
  intros H. unfold hex_digits. apply list_elem_of_In, filter_In. split; [|done].
  apply list_elem_of_In, elem_of_seqZ. unfold is_hex_digit in H. lia.
Qed.

Lemma hex_pair_ok hi lo :
  is_hex_digit hi = true -> is_hex_digit lo = true ->
  is_byte (hex_pair hi lo) /\ upper_hex (hex_pair hi lo) = [hi; lo].
Proof.
  intros Hh Hl. pose proof (proj1 (forallb_elem _ _) hex_pair_exhaustive hi (hex_digit_range hi Hh))
    as H. cbn beta in H.
  pose proof (proj1 (forallb_elem _ _) H lo (hex_digit_range lo Hl)) as H'. cbn beta in H'.
  bool_simpl. split; [unfold is_byte, in_width; lia|done].
Qed.

(** The storage key of a receiver is its canonical name.  Every identity
    is restored from its key, and every accepted key is the key of the
    identity it restores, so two stored spellings never denote one receiver. *)
Theorem storage_key_canonical :
  (forall d, device_ok d -> from_storage_key (storage_key d) = Ok d)
  /\ (forall value d, from_storage_key value = Ok d -> device_ok d /\ storage_key d = value).
Proof.
  split.
  - intros [b0 b1 b2 b3 b4 b5] Hd. unfold device_ok, bytes_ok in Hd. cbn in Hd.
    repeat (inversion_clear Hd as [|? ? H Hd']; rename Hd' into Hd;
      destruct (upper_hex_ok _ H) as (? & ? & ? & ? & ? & ?); clear H).
    unfold storage_key. cbn [device_bytes fmap list_fmap concat].
    repeat match goal with H : upper_hex _ = _ |- _ => rewrite H; clear H end.
    cbn [app from_storage_key forallb].
    repeat match goal with H : is_hex_digit _ = true |- _ => rewrite H; clear H end.
    cbn. congruence.
  - intros value d. do 13 (destruct value as [|? value]; try discriminate).
    cbn [from_storage_key]. destruct (forallb is_hex_digit _) eqn:E; [|discriminate].
    intros [= <-]. cbn [forallb] in E. bool_simpl.
    unfold device_ok, storage_key, bytes_ok. cbn [device_bytes fmap list_fmap concat].
    repeat match goal with
    | Hh : is_hex_digit ?h = true |- context [hex_pair ?h ?l] =>
        match goal with Hl : is_hex_digit l = true |- _ =>
          destruct (hex_pair_ok h l Hh Hl) as [? ->]; clear Hh end
    end.
    split; [|reflexivity]. repeat (apply Forall_cons_2; [done|]). apply Forall_nil_2.
Qed.

Lemma storage_key_canonical_witness :
  let d := MkDeviceId 0x58 0x55 0xCA 0x1A 0xE2 0x88 in from_storage_key (storage_key d) = Ok d.
Proof.
  apply (proj1 storage_key_canonical). unfold device_ok, bytes_ok.
  apply (bool_decide_unpack _). vm_compute. exact I.
Defined.

End Model.
