(* ===== verification/Recovery.v ===== *)
(** * Recovery policy

    [apps/openaircast/src/backend/recovery.rs]: the retry ladder with its
    deterministic jitter, the per-receiver bookkeeping, and the limiter of
    rejoin restarts.  An [Instant] and a [Duration] are nanosecond counts; the
    injected clock is the [now] argument of the operations that read it.  The
    jitter is computed in [f64] as in the source ([Duration::mul_f64]). *)

From Stdlib Require Import Floats.SpecFloat.
From S2P Require Import Prelude Float32 AppState Model.
Import Model.

Module Recovery.

Notation Duration := Z (only parsing).
Notation Instant := Z (only parsing).

Definition NANOS_PER_SEC : Z := 1000000000.
Definition from_secs (s : Z) : Duration := s * NANOS_PER_SEC.
Definition MAX_RETRY_DELAY : Duration := from_secs 30.
Definition JITTER_HASH_PRIME : Z := 0x100000001b3.

(** ** Double precision, as far as [mul_f64] uses it *)

Definition f64 : Type := spec_float.
Definition f64_of_Z (n : Z) : f64 := binary_normalize 53 1024 n 0 false.
Definition f64_add : f64 -> f64 -> f64 := SFadd 53 1024.
Definition f64_mul : f64 -> f64 -> f64 := SFmul 53 1024.
Definition f64_div : f64 -> f64 -> f64 := SFdiv 53 1024.

(** [Duration::as_secs_f64] *)
Definition as_secs_f64 (d : Duration) : f64 :=
  f64_add (f64_of_Z (d / NANOS_PER_SEC))
    (f64_div (f64_of_Z (d mod NANOS_PER_SEC)) (f64_of_Z NANOS_PER_SEC)).

(** Division rounded to nearest, ties to even. *)
Definition div_round_even (n d : Z) : Z :=
  let q := n / d in
  let r := 2 * (n mod d) in
  if (d <? r) || ((d =? r) && Z.odd q) then q + 1 else q.

(** [Duration::from_secs_f64]: the nearest nanosecond count; negative values
    (and NaN or infinity) panic. *)
Definition from_secs_f64 (x : f64) : option Duration :=
  match x with
  | S754_zero _ => Some 0
  | S754_finite false m e =>
      Some (if 0 <=? e then Zpos m * 2 ^ e * NANOS_PER_SEC
            else div_round_even (Zpos m * NANOS_PER_SEC) (2 ^ (- e)))
  | _ => None
  end.

Definition mul_f64 (d : Duration) (rhs : f64) : option Duration :=
  from_secs_f64 (f64_mul rhs (as_secs_f64 d)).

(** ** The retry ladder *)

Record RetryPolicy := {
  base : list Duration;
  jitter_percent : Z;
  healthy_reset_after : Duration;
  discovery_stable_for : Duration;
}.

Definition default_policy : RetryPolicy :=
  {| base := from_secs <$> [1; 2; 4; 8; 16; 30];
     jitter_percent := 20;
     healthy_reset_after := from_secs 60;
     discovery_stable_for := from_secs 2 |}.

(** [1.0 + signed as f64 / 100.0] *)
Definition jitter_factor (signed : Z) : f64 :=
  f64_add (f64_of_Z 1) (f64_div (f64_of_Z signed) (f64_of_Z 100)).

Definition scale_with_hash (base : Duration) (hash jitter_percent : Z) : option Duration :=
  let span := jitter_percent in
  let modulus := span * 2 + 1 in
  let signed := hash mod modulus - span in
  scaled ← mul_f64 base (jitter_factor signed);
  Some (Z.min scaled MAX_RETRY_DELAY).

(** [self.base[min(attempt, len - 1)]] *)
Definition base_delay (p : RetryPolicy) (attempt : Z) : option Duration :=
  base p !! Nat.min (Z.to_nat attempt) (length (base p) - 1).

(** The FNV-1a style fold over the seed bytes. *)
Definition jitter_hash (attempt : Z) (bytes : list Z) : Z :=
  fold_left (fun value byte => wrap 64 (wrap 64 (value * JITTER_HASH_PRIME) + byte)) bytes attempt.

Definition delay (p : RetryPolicy) (receiver : ReceiverId) (attempt : Z) : option Duration :=
  b ← base_delay p attempt;
  scale_with_hash b (jitter_hash attempt (storage_key receiver)) (jitter_percent p).

Definition discovery_delay (p : RetryPolicy) (generation attempt : Z) : option Duration :=
  b ← base_delay p attempt;
  scale_with_hash b (jitter_hash attempt (to_le_bytes 8 generation)) (jitter_percent p).

(** ** Bookkeeping per receiver *)

Record ReceiverRetryEntry := {
  e_attempt : Z;
  e_next_retry : option Instant;
  e_streaming_since : option Instant;
}.
#[export] Instance eta_ReceiverRetryEntry : Eta ReceiverRetryEntry := fun e =>
  {| e_attempt := e_attempt e; e_next_retry := e_next_retry e;
     e_streaming_since := e_streaming_since e |}.
Definition default_entry : ReceiverRetryEntry :=
  {| e_attempt := 0; e_next_retry := None; e_streaming_since := None |}.

Definition RetryState : Type := gmap DeviceId ReceiverRetryEntry.

(** [self.receivers.entry(receiver).or_default()] *)
Definition entry (s : gmap DeviceId ReceiverRetryEntry) (r : ReceiverId) : ReceiverRetryEntry :=
  default default_entry (s !! r).

Definition note_failure (s : gmap DeviceId ReceiverRetryEntry) (p : RetryPolicy) (now : Instant)
    (r : ReceiverId) : option (gmap DeviceId ReceiverRetryEntry * Instant) :=
  let e := entry s r in
  let e := e <| e_attempt := sat_add 32 (e_attempt e) 1 |> <| e_streaming_since := None |> in
  d ← delay p r (e_attempt e - 1);
  let deadline := now + d in
  Some (<[r := e <| e_next_retry := Some deadline |>]> s, deadline).

Definition note_streaming (s : gmap DeviceId ReceiverRetryEntry) (p : RetryPolicy) (now : Instant)
    (r : ReceiverId) : gmap DeviceId ReceiverRetryEntry * bool :=
  let e := entry s r in
  match e_streaming_since e with
  | None => (<[r := e <| e_streaming_since := Some now |>]> s, false)
  | Some since =>
      if healthy_reset_after p <=? sat_sub now since
      then (<[r := e <| e_attempt := 0 |> <| e_next_retry := None |>]> s, true)
      else (<[r := e]> s, false)
  end.

Definition clear_deadline (s : gmap DeviceId ReceiverRetryEntry) (r : ReceiverId)
  : gmap DeviceId ReceiverRetryEntry :=
  match s !! r with
  | Some e => <[r := e <| e_next_retry := None |>]> s
  | None => s
  end.
Definition manual_retry := clear_deadline.

Definition attempt (s : gmap DeviceId ReceiverRetryEntry) (r : ReceiverId) : Z :=
  match s !! r with Some e => e_attempt e | None => 0 end.
Definition next_retry (s : gmap DeviceId ReceiverRetryEntry) (r : ReceiverId) : option Instant :=
  s !! r ≫= e_next_retry.

Definition is_due (now : Instant) (e : ReceiverRetryEntry) : bool :=
  is_some_and (e_next_retry e) (fun at_ => at_ <=? now).

(** A [BTreeMap] iterates in key order. *)
Definition due_at (s : gmap DeviceId ReceiverRetryEntry) (now : Instant) : list ReceiverId :=
  isort device_leb
    (fst <$> List.filter (fun kv => is_due now kv.2) (map_to_list s)).

Definition min_opt (x y : option Z) : option Z :=
  match x, y with
  | Some a, Some b => Some (Z.min a b)
  | None, o | o, None => o
  end.
Definition earliest_retry (s : gmap DeviceId ReceiverRetryEntry) : option Instant :=
  foldr min_opt None ((fun kv => e_next_retry kv.2) <$> map_to_list s).

(** ** The rejoin limiter *)

Record RejoinRestartLimiter := {
  online_since : gmap DeviceId Instant;
  last_rejoin_restart : option Instant;
}.
#[export] Instance eta_RejoinRestartLimiter : Eta RejoinRestartLimiter := fun l =>
  {| online_since := online_since l; last_rejoin_restart := last_rejoin_restart l |}.

Definition REJOIN_ONLINE_STABLE_FOR : Duration := from_secs 2.
Definition REJOIN_RESTART_SPACING : Duration := from_secs 30.

Definition new_limiter : RejoinRestartLimiter :=
  {| online_since := ∅; last_rejoin_restart := None |}.

Definition note_discovered (l : RejoinRestartLimiter) (now : Instant) (r : ReceiverId)
  : RejoinRestartLimiter :=
  match online_since l !! r with
  | Some _ => l
  | None => l <| online_since := <[r := now]> (online_since l) |>
  end.
Definition note_lost (l : RejoinRestartLimiter) (r : ReceiverId) : RejoinRestartLimiter :=
  l <| online_since := delete r (online_since l) |>.
Definition rejoin_eligible_at (l : RejoinRestartLimiter) (r : ReceiverId) : option Instant :=
  (fun since => since + REJOIN_ONLINE_STABLE_FOR) <$> online_since l !! r.
Definition may_rejoin (l : RejoinRestartLimiter) (now : Instant) (r : ReceiverId) : bool :=
  is_some_and (rejoin_eligible_at l r) (fun at_ => at_ <=? now).
Definition group_allowed_at (l : RejoinRestartLimiter) : option Instant :=
  (fun at_ => at_ + REJOIN_RESTART_SPACING) <$> last_rejoin_restart l.
Definition note_restart (l : RejoinRestartLimiter) (now : Instant) : RejoinRestartLimiter :=
  l <| last_rejoin_restart := Some now |>.
Definition may_restart_group (l : RejoinRestartLimiter) (now : Instant) : bool :=
  is_none_or (last_rejoin_restart l)
    (fun at_ => REJOIN_RESTART_SPACING <=? sat_sub now at_).
Definition may_rejoin_restart (l : RejoinRestartLimiter) (now : Instant) (r : ReceiverId) : bool :=
  may_rejoin l now r && may_restart_group l now.

(** ** Delays *)

(** The exact percentage of a base delay, capped. *)
Definition exact_delay (base signed : Z) : Z := Z.min (base * (100 + signed) / 100) MAX_RETRY_DELAY.

(** Floating point does not distort the ladder: checked for all 6 steps and
    all 41 jitter offsets. *)
Lemma ladder_exhaustive :
  forallb (fun b => forallb (fun h =>
    bool_decide (scale_with_hash b h 20 = Some (exact_delay b (h - 20)))) (seqZ 0 41))
    (base default_policy) = true.
Proof. vm_compute. reflexivity. Qed.

Lemma scale_mod b h : scale_with_hash b h 20 = scale_with_hash b (h mod 41) 20.
Proof. unfold scale_with_hash. cbn -[Z.modulo mul_f64]. by rewrite Z.mod_mod. Qed.

Lemma scale_exact b h :
  b ∈ base default_policy -> scale_with_hash b h 20 = Some (exact_delay b (h mod 41 - 20)).
Proof.
  intros Hb. rewrite scale_mod. pose proof (proj1 (forallb_elem _ _) ladder_exhaustive b Hb) as H.
  cbn beta in H. pose proof (proj1 (forallb_elem _ _) H (h mod 41)) as H'. cbn beta in H'.
  rewrite bool_decide_eq_true in H'. apply H'. apply elem_of_seqZ.
  pose proof (Z.mod_pos_bound h 41 ltac:(lia)). lia.
Qed.

(** The ladder in seconds. *)
Definition ladder (attempt : Z) : Z :=
  if attempt <=? 0 then 1 else if attempt =? 1 then 2 else if attempt =? 2 then 4
  else if attempt =? 3 then 8 else if attempt =? 4 then 16 else 30.

Lemma base_delay_ladder attempt :
  0 <= attempt ->
  base_delay default_policy attempt = Some (from_secs (ladder attempt))
  /\ from_secs (ladder attempt) ∈ base default_policy.
Proof.
  intros H. unfold base_delay.
  assert (E : base_delay default_policy attempt = Some (from_secs (ladder attempt))).
  { unfold base_delay, ladder. cbn [base default_policy fmap list_fmap length Nat.sub].
    destruct (Z.leb_spec attempt 0); [by replace attempt with 0 by lia|].
    destruct (Z.eqb_spec attempt 1); [by subst|]. destruct (Z.eqb_spec attempt 2); [by subst|].
    destruct (Z.eqb_spec attempt 3); [by subst|]. destruct (Z.eqb_spec attempt 4); [by subst|].
    replace (Z.to_nat attempt `min` 5)%nat with 5%nat by lia. done. }
  split; [exact E|]. unfold base_delay in E. by eapply list_elem_of_lookup_2.
Qed.

Definition jitter_of (hash : Z) : Z := hash mod 41 - 20.

(** C39: the retry ladder is exact.  For every receiver and attempt the delay
    is 1, 2, 4, 8, 16 or (from the sixth failure on) 30 seconds scaled by a
    whole percentage between -20 and +20 that depends only on receiver and
    attempt, capped at 30 s; the detour through floating point loses nothing
    and never panics. *)
Theorem retry_delay_exact receiver n :
  0 <= n ->
  exists percent, -20 <= percent <= 20
    /\ delay default_policy receiver n
       = Some (Z.min (from_secs (ladder n) * (100 + percent) / 100) MAX_RETRY_DELAY).
Proof.
  intros Hn. destruct (base_delay_ladder n Hn) as [Hb Hin].
  set (h := jitter_hash n (storage_key receiver)).
  exists (jitter_of h). split.
  - unfold jitter_of. pose proof (Z.mod_pos_bound h 41 ltac:(lia)). lia.
  - unfold delay. rewrite Hb. cbn [mbind option_bind]. apply (scale_exact _ h Hin).
Qed.

Lemma retry_delay_exact_witness :
  exists percent, -20 <= percent <= 20
    /\ delay default_policy (MkDeviceId 0x58 0x55 0xCA 0x1A 0xE2 0x88) 2
       = Some (Z.min (from_secs 4 * (100 + percent) / 100) MAX_RETRY_DELAY).
Proof. apply (retry_delay_exact (MkDeviceId 0x58 0x55 0xCA 0x1A 0xE2 0x88) 2). discriminate. Defined.

End Recovery.
