(* ===== verification/RecoveryProps.v ===== *)
(** * Theorems about the recovery bookkeeping

    Deadlines, healthy-streaming resets and rejoin spacing, stated over whole
    histories of timed events. *)

From S2P Require Import Prelude AppState Model Recovery.
Import Model Recovery.

(** ** Deadlines *)

Lemma due_elem s now r :
  r ∈ due_at s now <-> exists at_, next_retry s r = Some at_ /\ at_ <= now.
Proof.
  unfold due_at, next_retry. rewrite isort_perm, list_elem_of_fmap. split.
  - intros ([k e] & -> & Hk). rewrite list_elem_of_In, filter_In, <- list_elem_of_In in Hk.
    destruct Hk as [Hk Hd]. apply elem_of_map_to_list in Hk. cbn in *. rewrite Hk. cbn.
    unfold is_due in Hd. destruct (e_next_retry e) as [at_|]; [|done]. cbn in Hd.
    exists at_. split; [done|lia].
  - intros (at_ & Ha & Hle). destruct (s !! r) as [e|] eqn:E; [|done]. cbn in Ha.
    exists (r, e). split; [done|].
    rewrite list_elem_of_In, filter_In, <- list_elem_of_In. split; [by apply elem_of_map_to_list|].
    cbn. unfold is_due. rewrite Ha. cbn. lia.
Qed.

Lemma due_NoDup s now : NoDup (due_at s now).
Proof.
  unfold due_at. rewrite isort_perm.
  eapply sublist_NoDup; [apply (NoDup_fst_map_to_list s)|].
  induction (map_to_list s) as [|kv l IH]; cbn; [done|].
  destruct (is_due now kv.2); by constructor.
Qed.

Lemma min_opt_fold l :
  match foldr min_opt None l with
  | Some m => Some m ∈ l /\ forall x, Some x ∈ l -> m <= x
  | None => forall x, Some x ∉ l
  end.
Proof.
  induction l as [|o l IH]; cbn; [intros x; apply not_elem_of_nil|].
  destruct o as [a|], (foldr min_opt None l) as [m|]; cbn.
  - destruct IH as [Hm Hl]. split.
    + destruct (Z.min_spec a m) as [[_ ->]|[_ ->]]; set_solver.
    + intros x [[= ->]|Hx]%elem_of_cons; [lia|]. specialize (Hl x Hx). lia.
  - split; [left|]. intros x [[= ->]|Hx]%elem_of_cons; [lia|]. by apply IH in Hx.
  - destruct IH as [Hm Hl]. split; [by right|].
    intros x [[=]|Hx]%elem_of_cons. by apply Hl.
  - intros x [[=]|Hx]%elem_of_cons. by apply IH in Hx.
Qed.

Lemma deadline_elem s at_ :
  Some at_ ∈ ((fun kv : DeviceId * ReceiverRetryEntry => e_next_retry kv.2) <$> map_to_list s)
  <-> exists r, next_retry s r = Some at_.
Proof.
  rewrite list_elem_of_fmap. unfold next_retry. split.
  - intros ([k e] & He & Hk). apply elem_of_map_to_list in Hk. exists k. by rewrite Hk.
  - intros [r Hr]. destruct (s !! r) as [e|] eqn:E; [|done]. exists (r, e).
    split; [done|]. by apply elem_of_map_to_list.
Qed.

(** The deadline queries are exact and agree.  [due_at] lists, in key order
    and once each, precisely the receivers whose deadline has passed;
    [earliest_retry] is the least pending deadline; so waiting until it
    yields work, and waiting less never misses any. *)
Theorem deadline_queries_exact s now :
  (forall r, r ∈ due_at s now <-> exists at_, next_retry s r = Some at_ /\ at_ <= now)
  /\ NoDup (due_at s now) /\ sorted_by device_leb (due_at s now)
  /\ match earliest_retry s with
     | Some m => (exists r, next_retry s r = Some m)
                 /\ (forall r at_, next_retry s r = Some at_ -> m <= at_)
                 /\ (due_at s now <> [] <-> m <= now)
     | None => (forall r, next_retry s r = None) /\ due_at s now = []
     end.
Proof.
  assert (Hnil : forall l : list DeviceId, l <> [] <-> exists r, r ∈ l).
  { intros [|x l]; split; try done; [intros [r Hr]; by apply elem_of_nil in Hr|].
    intros _. exists x. left. }
  split; [intros r; apply due_elem|]. split; [apply due_NoDup|]. split.
  { apply isort_sorted; [apply device_leb_total|apply device_leb_trans]. }
  unfold earliest_retry. set (l := _ <$> map_to_list s). pose proof (min_opt_fold l) as H.
  destruct (foldr min_opt None l) as [m|].
  - destruct H as [Hm Hl]. apply deadline_elem in Hm as [r Hr].
    assert (Hleast : forall r at_, next_retry s r = Some at_ -> m <= at_)
      by (intros r' at_ Ha; apply Hl, deadline_elem; eauto).
    split_and!; [eauto|done|]. rewrite Hnil. setoid_rewrite due_elem. split.
    + intros (r' & at_ & Ha & Hle). specialize (Hleast r' at_ Ha). lia.
    + intros Hle. eauto.
  - assert (Hnone : forall r, next_retry s r = None).
    { intros r. destruct (next_retry s r) as [at_|] eqn:E; [|done].
      exfalso. apply (H at_), deadline_elem. eauto. }
    split; [done|]. destruct (due_at s now) as [|r l'] eqn:E; [done|].
    assert (Hr : r ∈ due_at s now) by (rewrite E; left).
    apply due_elem in Hr as (at_ & Ha & _). by rewrite Hnone in Ha.
Qed.

(** ** Healthy-streaming resets *)

Inductive RetryEvent := Failure (r : DeviceId) | StreamingTick (r : DeviceId) | Manual (r : DeviceId).

(** One timed event under the default policy, whose delays never panic. *)
Definition retry_step (s : gmap DeviceId ReceiverRetryEntry) (te : Z * RetryEvent)
  : gmap DeviceId ReceiverRetryEntry :=
  match te.2 with
  | Failure r => match note_failure s default_policy te.1 r with Some (s', _) => s' | None => s end
  | StreamingTick r => (note_streaming s default_policy te.1 r).1
  | Manual r => manual_retry s r
  end.

Definition retry_run (tes : list (Z * RetryEvent)) : gmap DeviceId ReceiverRetryEntry :=
  fold_left retry_step tes ∅.

(** Since [since], ticks only and no failure of [r]. *)
Definition healthy_since (tes : list (Z * RetryEvent)) (r : DeviceId) (since : Z) : Prop :=
  exists pre post, tes = pre ++ (since, StreamingTick r) :: post
    /\ Forall (fun te => te.2 <> Failure r) post.

Lemma healthy_snoc tes te r since :
  healthy_since tes r since -> te.2 <> Failure r -> healthy_since (tes ++ [te]) r since.
Proof.
  intros (pre & post & -> & Hf) Hte. exists pre, (post ++ [te]).
  rewrite <- (assoc_L (++)). cbn. split; [done|]. apply Forall_app. auto.
Qed.

Lemma entry_insert s r r' e : entry (<[r := e]> s) r' = if bool_decide (r = r') then e else entry s r'.
Proof.
  unfold entry. case_bool_decide; subst; [by rewrite lookup_insert_eq|by rewrite lookup_insert_ne].
Qed.

Lemma attempt_entry s r : attempt s r = e_attempt (entry s r).
Proof. unfold attempt, entry. by destruct (s !! r). Qed.

Lemma delay_total r n : 0 <= n -> is_Some (delay default_policy r n).
Proof.
  intros Hn. destruct (base_delay_ladder n Hn) as [Hb Hin]. unfold delay. rewrite Hb.
  cbn [mbind option_bind]. rewrite (scale_exact _ _ Hin). eauto.
Qed.

(** What a step does to the entry of one receiver. *)
Lemma retry_step_entry s t ev r :
  0 <= e_attempt (entry s r) ->
  let e := entry s r in
  let e' := entry (retry_step s (t, ev)) r in
  (ev = Failure r /\ e_streaming_since e' = None /\ e_attempt e' = sat_add 32 (e_attempt e) 1)
  \/ (ev = StreamingTick r /\ e_streaming_since e' = Some t /\ e_attempt e' = e_attempt e)
  \/ (ev = StreamingTick r /\ e_streaming_since e' = e_streaming_since e /\ e_attempt e' = 0)
  \/ (ev <> Failure r /\ e_streaming_since e' = e_streaming_since e /\ e_attempt e' = e_attempt e).
Proof.
  intros Ha. cbv zeta. destruct ev as [r'|r'|r']; unfold retry_step; cbn [fst snd].
  - unfold note_failure. destruct (decide (r' = r)) as [->|Hne].
    + cbn -[sat_add delay].
      destruct (delay_total r (sat_add 32 (e_attempt (entry s r)) 1 - 1)) as [d ->].
      { unfold sat_add. lia. }
      left. cbn -[sat_add]. rewrite entry_insert, bool_decide_eq_true_2 by done. done.
    + right; right; right. split; [congruence|].
      destruct (_ ≫= _) as [[s' dl]|] eqn:E; [|done].
      apply bind_Some in E as (d & _ & [= <- _]). by rewrite entry_insert, bool_decide_eq_false_2.
  - unfold note_streaming. destruct (decide (r' = r)) as [->|Hne].
    + destruct (e_streaming_since (entry s r)) as [since|] eqn:E; [case_match|];
        cbn -[sat_add]; rewrite entry_insert, bool_decide_eq_true_2 by done; cbn; rewrite ?E;
        first [right; left; by split_and! | right; right; left; by split_and!
              | do 3 right; by split_and!].
    + right; right; right. split; [congruence|].
      destruct (e_streaming_since (entry s r')); [case_match|];
        cbn; by rewrite entry_insert, bool_decide_eq_false_2.
  - right; right; right. split; [done|]. unfold manual_retry, clear_deadline.
    destruct (s !! r') as [e|] eqn:E; [|done]. rewrite entry_insert.
    case_bool_decide as Hr; [|done]. subst. unfold entry. by rewrite E.
Qed.

Lemma retry_run_inv tes r :
  0 <= e_attempt (entry (retry_run tes) r)
  /\ forall since, e_streaming_since (entry (retry_run tes) r) = Some since ->
     healthy_since tes r since.
Proof.
  unfold retry_run. induction tes as [|[t ev] tes IH] using rev_ind.
  - cbn [fold_left]. unfold entry. rewrite lookup_empty. cbn. split; [lia|done].
  - rewrite fold_left_app. cbn [fold_left]. destruct IH as [Ha Hs].
    destruct (retry_step_entry (fold_left retry_step tes ∅) t ev r Ha)
      as [(-> & E1 & E2)|[(-> & E1 & E2)|[(-> & E1 & E2)|(Hne & E1 & E2)]]]; rewrite E1, E2.
    + split; [unfold sat_add; lia|done].
    + split; [done|]. intros since [= <-]. exists tes, []. by split.
    + split; [lia|]. intros since Hsi. by apply healthy_snoc; [apply Hs|].
    + split; [done|]. intros since Hsi. by apply healthy_snoc; [apply Hs|].
Qed.

Lemma retry_run_snoc tes te : retry_run (tes ++ [te]) = retry_step (retry_run tes) te.
Proof. unfold retry_run. by rewrite fold_left_app. Qed.

Lemma reset_spec s t r :
  (note_streaming s default_policy t r).2 = true ->
  exists since, e_streaming_since (entry s r) = Some since /\ since + from_secs 60 <= t
    /\ e_attempt (entry (retry_step s (t, StreamingTick r)) r) = 0.
Proof.
  unfold retry_step. cbn [fst snd]. unfold note_streaming.
  destruct (e_streaming_since (entry s r)) as [since|]; [|done].
  destruct (Z.leb_spec (healthy_reset_after default_policy) (sat_sub t since)) as [Hle|]; [|done].
  intros _. exists since. split_and!; [done| |].
  - cbn in Hle. unfold sat_sub in Hle. unfold from_secs, NANOS_PER_SEC in *. lia.
  - cbn [fst]. by rewrite entry_insert, bool_decide_eq_true_2.
Qed.

(** Attempts are only forgiven after sustained health.  When a streaming
    report resets a receiver's failure count, there was a streaming report at
    least 60 seconds earlier with no failure of that receiver in between; any
    other report, manual retry or foreign event leaves the count alone, and a
    failure raises it by one (saturating). *)
Theorem attempts_reset_only_when_healthy tes t ev r :
  let s := retry_run tes in
  let s' := retry_run (tes ++ [(t, ev)]) in
  (ev = Failure r -> attempt s' r = sat_add 32 (attempt s r) 1)
  /\ (ev <> Failure r -> attempt s' r = attempt s r \/ attempt s' r = 0)
  /\ (ev = StreamingTick r -> (note_streaming s default_policy t r).2 = true ->
      attempt s' r = 0
      /\ exists since, healthy_since tes r since /\ since + from_secs 60 <= t).
Proof.
  cbv zeta. rewrite !attempt_entry. rewrite retry_run_snoc.
  destruct (retry_run_inv tes r) as [Ha Hs].
  pose proof (retry_step_entry (retry_run tes) t ev r Ha) as Hstep. cbv zeta in Hstep.
  split_and!; [naive_solver|naive_solver|]. intros -> Hr.
  destruct (reset_spec (retry_run tes) t r Hr) as (since & Hsince & Hle & H0).
  split; [exact H0|]. exists since. auto.
Qed.

Lemma attempts_reset_only_when_healthy_witness :
  let r := MkDeviceId 1 2 3 4 5 6 in
  let tes := [(0, Failure r); (from_secs 1, StreamingTick r)] in
  attempt (retry_run (tes ++ [(from_secs 61, StreamingTick r)])) r = 0.
Proof.
  intros r tes.
  refine (proj1 (proj2 (proj2 (attempts_reset_only_when_healthy tes (from_secs 61)
    (StreamingTick r) r)) _ _)); [reflexivity|vm_compute; reflexivity].
Defined.

(** ** Rejoin restarts *)

Inductive RejoinEvent := Seen (r : DeviceId) | Lost (r : DeviceId) | TryRestart (r : DeviceId).

(** A restart is performed (and recorded) only through the combined gate. *)
Definition rejoin_step (st : RejoinRestartLimiter * list (Z * DeviceId)) (te : Z * RejoinEvent)
  : RejoinRestartLimiter * list (Z * DeviceId) :=
  let (l, restarts) := st in
  match te.2 with
  | Seen r => (note_discovered l te.1 r, restarts)
  | Lost r => (note_lost l r, restarts)
  | TryRestart r =>
      if may_rejoin_restart l te.1 r
      then (note_restart l te.1, restarts ++ [(te.1, r)]) else (l, restarts)
  end.

Definition rejoin_run (tes : list (Z * RejoinEvent)) : RejoinRestartLimiter * list (Z * DeviceId) :=
  fold_left rejoin_step tes (new_limiter, []).

(** [r] was sighted at [since] and never lost afterwards. *)
Definition online_through (tes : list (Z * RejoinEvent)) (r : DeviceId) (since : Z) : Prop :=
  exists pre post, tes = pre ++ (since, Seen r) :: post /\ Forall (fun te => te.2 <> Lost r) post.

Lemma online_snoc tes te r since :
  online_through tes r since -> te.2 <> Lost r -> online_through (tes ++ [te]) r since.
Proof.
  intros (pre & post & -> & Hf) Hte. exists pre, (post ++ [te]).
  rewrite <- (assoc_L (++)). cbn. split; [done|]. apply Forall_app. auto.
Qed.

Definition spaced (restarts : list (Z * DeviceId)) : Prop :=
  StronglySorted (fun a b => a.1 + REJOIN_RESTART_SPACING <= b.1) restarts.

Record rejoin_ok (tes : list (Z * RejoinEvent)) (st : RejoinRestartLimiter * list (Z * DeviceId))
  : Prop := {
  rj_online : forall r since, online_since st.1 !! r = Some since -> online_through tes r since;
  rj_last : last_rejoin_restart st.1 = fst <$> last st.2;
  rj_spaced : spaced st.2;
  rj_stable : Forall (fun tr => exists pre since, pre `prefix_of` tes
    /\ online_through pre tr.2 since /\ since + REJOIN_ONLINE_STABLE_FOR <= tr.1) st.2;
}.

(** Appending past the last element keeps the spacing. *)
Lemma spaced_snoc l x :
  spaced l -> (forall y, last l = Some y -> y.1 + REJOIN_RESTART_SPACING <= x.1) ->
  spaced (l ++ [x]).
Proof.
  intros Hs. induction Hs as [|y l Hs IH Hy]; intros Hl; [by repeat constructor|].
  assert (Hl' : forall z, last l = Some z -> z.1 + REJOIN_RESTART_SPACING <= x.1).
  { intros z Hz. apply Hl. destruct l; [done|exact Hz]. }
  constructor; [by apply IH|]. apply Forall_app. split; [done|]. constructor; [|constructor].
  destruct (last l) as [z|] eqn:E.
  - specialize (Hl' z eq_refl). apply last_Some in E as [l' ->].
    apply Forall_app in Hy as [_ Hz]. inversion_clear Hz as [|? ? Hyz _].
    unfold REJOIN_RESTART_SPACING, from_secs, NANOS_PER_SEC in *. lia.
  - apply last_None in E. subst. by apply Hl.
Qed.

Lemma stable_mono tes te st :
  rejoin_ok tes st ->
  Forall (fun tr => exists pre since, pre `prefix_of` tes ++ [te]
    /\ online_through pre tr.2 since /\ since + REJOIN_ONLINE_STABLE_FOR <= tr.1) st.2.
Proof.
  intros H. eapply Forall_impl; [exact (rj_stable _ _ H)|].
  intros tr (pre & since & Hp & ?). exists pre, since. split; [|done]. by apply prefix_app_r.
Qed.

Lemma gate_spec l t r :
  may_rejoin_restart l t r = true ->
  (exists since, online_since l !! r = Some since /\ since + REJOIN_ONLINE_STABLE_FOR <= t)
  /\ (forall at_, last_rejoin_restart l = Some at_ -> at_ + REJOIN_RESTART_SPACING <= t).
Proof.
  unfold may_rejoin_restart, may_rejoin, rejoin_eligible_at, may_restart_group.
  intros [H1 H2]%andb_true_iff. split.
  - destruct (online_since l !! r) as [since|]; [|done]. cbn in H1. exists since.
    split; [done|]. lia.
  - intros at_ E. rewrite E in H2. cbn in H2. unfold sat_sub in H2.
    unfold REJOIN_RESTART_SPACING, from_secs, NANOS_PER_SEC in *. lia.
Qed.

Lemma rejoin_step_ok tes st te : rejoin_ok tes st -> rejoin_ok (tes ++ [te]) (rejoin_step st te).
Proof.
  intros H. pose proof (stable_mono tes te st H) as Hstable.
  destruct st as [l rs], te as [t [r|r|r]], H as [Ho Hl Hs _]; cbn in *.
  - constructor; cbn; auto.
    + intros r' since. unfold note_discovered.
      destruct (online_since l !! r) as [x|] eqn:E; cbn; [|destruct (decide (r = r')) as [->|Hne]].
      * intros ?. by apply online_snoc; [apply Ho|].
      * rewrite lookup_insert_eq. intros [= <-]. exists tes, []. by split.
      * rewrite lookup_insert_ne by done. intros ?. by apply online_snoc; [apply Ho|].
    + unfold note_discovered. by destruct (online_since l !! r).
  - constructor; cbn; auto.
    intros r' since [Hne Hs']%lookup_delete_Some. apply online_snoc; [by apply Ho|]. cbn. congruence.
  - destruct (may_rejoin_restart l t r) eqn:E.
    + destruct (gate_spec l t r E) as [(since & Hsince & Hle) Hgap].
      constructor; cbn.
      * intros r' s' ?. by apply online_snoc; [apply Ho|].
      * by rewrite last_snoc.
      * apply spaced_snoc; [done|]. intros y Hy. apply Hgap. by rewrite Hl, Hy.
      * apply Forall_app. split; [done|]. constructor; [|constructor].
        exists tes, since. split_and!; [by apply prefix_app_r|by apply Ho|done].
    + constructor; cbn; auto. intros r' since ?. by apply online_snoc; [apply Ho|].
Qed.

(** A flapping receiver cannot hammer the group.  Over any history of
    sightings, losses and restart attempts, the restarts that pass the gate
    are at least 30 seconds apart (any two of them), and each is for a
    receiver that had been sighted at least two seconds before and was not
    lost since. *)
Theorem rejoin_restarts_spaced_and_stable tes :
  let restarts := (rejoin_run tes).2 in
  StronglySorted (fun a b => a.1 + REJOIN_RESTART_SPACING <= b.1) restarts
  /\ Forall (fun tr => exists pre since, pre `prefix_of` tes
       /\ online_through pre tr.2 since /\ since + REJOIN_ONLINE_STABLE_FOR <= tr.1) restarts.
Proof.
  cbv zeta. assert (H : rejoin_ok tes (rejoin_run tes)).
  { unfold rejoin_run. induction tes as [|te tes IH] using rev_ind.
    - constructor; cbn; try constructor. intros r since Hr. by rewrite lookup_empty in Hr.
    - rewrite fold_left_app. by apply rejoin_step_ok. }
  split; apply H.
Qed.
