(* ===== verification/Machine.v ===== *)
(** * The receiver state machine

    [ReceiverMachine] of [apps/openaircast/src/backend/recovery.rs].  Every
    operation returns the machine together with its [Result]: as in release
    builds a rejected transition is an [InvalidTransition] value (debug builds
    assert), and whatever the operation wrote before it was rejected stays. *)

From S2P Require Import Prelude AppState Model.
Import Model.

Module Machine.

Record InvalidTransition := { from : string; to : string }.

Definition label (state : ReceiverLifecycle) : string :=
  match state with
  | Discovered => "Discovered" | Connecting _ => "Connecting" | SettingUp _ _ => "SettingUp"
  | Ready _ => "Ready" | Streaming _ => "Streaming" | RetryWaiting _ _ => "RetryWaiting"
  | Unreachable => "Unavailable" | Failed _ _ => "Failed"
  end.

Definition permitted (from to : ReceiverLifecycle) : bool :=
  match from, to with
  | _, Unreachable => true
  | Unreachable, Discovered => true
  | Discovered, Connecting _ => true
  | Connecting _, SettingUp _ _ => true
  | SettingUp _ _, SettingUp _ _ => true
  | SettingUp _ _, Ready _ => true
  | Ready _, Streaming _ => true
  | (Connecting _ | SettingUp _ _ | Ready _ | Streaming _), Failed _ _ => true
  | Failed true _, RetryWaiting _ _ => true
  | RetryWaiting _ _, Connecting _ => true
  | Failed _ _, Connecting _ => true
  | _, _ => false
  end.

Definition owned_by_generation (state : ReceiverLifecycle) : bool :=
  match state with
  | Connecting _ | SettingUp _ _ | Ready _ | Streaming _ => true
  | _ => false
  end.

Record ReceiverMachine := {
  state : ReceiverLifecycle;
  attempt : Z;
  next_retry : option Z;
  last_error : option string;
  generation : Z;
  service_available : bool;
  role : option ReceiverRole;
}.
#[export] Instance eta_ReceiverMachine : Eta ReceiverMachine := fun m =>
  {| state := state m; attempt := attempt m; next_retry := next_retry m;
     last_error := last_error m; generation := generation m;
     service_available := service_available m; role := role m |}.

(** [if available { Discovered } else { Unavailable }] *)
Definition idle_state (available : bool) : ReceiverLifecycle :=
  if available then Discovered else Unreachable.

Definition new (available : bool) : ReceiverMachine :=
  {| state := idle_state available; attempt := 0; next_retry := None; last_error := None;
     generation := 0; service_available := available; role := None |}.

Definition removable (m : ReceiverMachine) : bool := state m ==? Unreachable.
Definition awaiting_rejoin (m : ReceiverMachine) : bool :=
  match state m with Discovered | RetryWaiting _ _ | Failed true _ => true | _ => false end.
Definition in_backoff (m : ReceiverMachine) : bool :=
  match state m with RetryWaiting _ _ | Failed _ _ => true | _ => false end.

Definition Outcome : Type := ReceiverMachine * Result unit InvalidTransition.

Definition transition (m : ReceiverMachine) (to : ReceiverLifecycle) : Outcome :=
  if state m ==? to then (m, Ok tt)
  else if negb (permitted (state m) to) then (m, Err {| from := label (state m); to := label to |})
  else (m <| state := to |>, Ok tt).

(** [self.transition(..)?; k] *)
Definition and_then (o : Outcome) (k : ReceiverMachine -> Outcome) : Outcome :=
  match o with (m, Ok _) => k m | (m, Err e) => (m, Err e) end.

Definition set_service_available (m : ReceiverMachine) (available : bool) : Outcome :=
  let m := m <| service_available := available |> in
  if available then
    match state m with Unreachable => transition m Discovered | _ => (m, Ok tt) end
  else if owned_by_generation (state m) then (m, Ok tt)
  else transition (m <| role := None |>) Unreachable.

Definition begin_generation (m : ReceiverMachine) (g a : Z) : Outcome :=
  (m <| generation := g |> <| attempt := a |> <| role := None |>
     <| state := Connecting a |>, Ok tt).

Definition enter_setup (m : ReceiverMachine) (r : ReceiverRole) (phase : SetupPhase) : Outcome :=
  transition (m <| role := Some r |>) (SettingUp r phase).

Definition enter_streaming (m : ReceiverMachine) (r : ReceiverRole) : Outcome :=
  if state m ==? Streaming r then (m, Ok tt)
  else
    let m := if negb (owned_by_generation (state m))
             then m <| state := Connecting (attempt m) |> else m in
    and_then
      (match state m with
       | Connecting _ => transition m (SettingUp r PhaseStartAudio)
       | _ => (m, Ok tt)
       end) (fun m =>
    and_then
      (match state m with SettingUp _ _ => transition m (Ready r) | _ => (m, Ok tt) end) (fun m =>
    transition (m <| role := Some r |>) (Streaming r))).

Definition fail (m : ReceiverMachine) (retryable : bool) (error : string) : Outcome :=
  (m <| last_error := Some error |> <| role := None |> <| state := Failed retryable error |>, Ok tt).

Definition wait_retry (m : ReceiverMachine) (a retry_at : Z) : Outcome :=
  transition (m <| attempt := a |> <| next_retry := Some retry_at |>) (RetryWaiting a retry_at).

Definition retry_now (m : ReceiverMachine) : Outcome :=
  let m := m <| next_retry := None |> in
  match state m with
  | RetryWaiting _ _ | Failed _ _ => transition m (Connecting (attempt m))
  | _ => (m, Ok tt)
  end.

Definition leave_session (m : ReceiverMachine) : ReceiverMachine :=
  if owned_by_generation (state m)
  then m <| role := None |> <| state := idle_state (service_available m) |>
  else m.

Definition release (m : ReceiverMachine) : ReceiverMachine :=
  match state m with
  | Unreachable => m
  | _ => m <| role := None |> <| next_retry := None |>
           <| state := idle_state (service_available m) |>
  end.

(** ** Operation histories *)

Inductive Op :=
| SetServiceAvailable (available : bool)
| BeginGeneration (generation attempt : Z)
| EnterSetup (r : ReceiverRole) (phase : SetupPhase)
| EnterStreaming (r : ReceiverRole)
| Fail (retryable : bool) (error : string)
| WaitRetry (attempt retry_at : Z)
| RetryNow
| LeaveSession
| Release.

Definition apply (m : ReceiverMachine) (op : Op) : Outcome :=
  match op with
  | SetServiceAvailable a => set_service_available m a
  | BeginGeneration g a => begin_generation m g a
  | EnterSetup r p => enter_setup m r p
  | EnterStreaming r => enter_streaming m r
  | Fail b e => fail m b e
  | WaitRetry a t => wait_retry m a t
  | RetryNow => retry_now m
  | LeaveSession => (leave_session m, Ok tt)
  | Release => (release m, Ok tt)
  end.

(** Machines reachable through operations that were all accepted. *)
Inductive accepted_run : ReceiverMachine -> Prop :=
| run_new available : accepted_run (new available)
| run_op m op m' : accepted_run m -> apply m op = (m', Ok tt) -> accepted_run m'.

(** The role a lifecycle row shows. *)
Definition shown_role (s : ReceiverLifecycle) : option ReceiverRole :=
  match s with SettingUp r _ | Ready r | Streaming r => Some r | _ => None end.

Record machine_ok (m : ReceiverMachine) : Prop := {
  mk_idle : match state m with
            | Discovered => service_available m = true
            | Unreachable => service_available m = false
            | _ => True
            end;
  mk_role : match shown_role (state m) with Some r => role m = Some r | None => True end;
  mk_waiting : match state m with
               | RetryWaiting a t => attempt m = a /\ next_retry m = Some t
               | Connecting a => attempt m = a
               | _ => True
               end;
  mk_failed : match state m with Failed _ e => last_error m = Some e | _ => True end;
}.

Ltac open_machine :=
  unfold apply, set_service_available, begin_generation, enter_setup, enter_streaming, fail,
    wait_retry, retry_now, leave_session, release, transition, and_then, idle_state; cbn.

Lemma machine_ok_step m op m' : machine_ok m -> apply m op = (m', Ok tt) -> machine_ok m'.
Proof.
  intros [H1 H2 H3 H4]. destruct m as [st at_ nr le gen av ro]; cbn in *.
  destruct op; open_machine;
    destruct st; cbn in *;
    repeat (case_bool_decide || case_match; cbn in * ); intros Hop; simplify_eq/=;
    constructor; cbn; auto.
Qed.

(** As long as no operation was rejected, the published row and the fields
    behind it agree: an idle row mirrors discovery availability, a row that
    shows a role shows the negotiated one, a waiting row shows the scheduled
    attempt and deadline, and a failed row shows the recorded reason. *)
Theorem machine_rows_consistent m : accepted_run m -> machine_ok m.
Proof.
  induction 1 as [available|m op m' _ IH Hop].
  - by destruct available; constructor.
  - by eapply machine_ok_step.
Qed.

Lemma machine_rows_consistent_witness :
  machine_ok (enter_streaming (begin_generation (new true) 7 0).1 Primary).1.
Proof.
  apply machine_rows_consistent.
  apply (run_op (begin_generation (new true) 7 0).1 (EnterStreaming Primary)); [|reflexivity].
  apply (run_op (new true) (BeginGeneration 7 0)); [|reflexivity].
  apply run_new.
Defined.

(** When an operation is vetoed. *)
Definition rejected (m : ReceiverMachine) (op : Op) : bool :=
  match op, state m with
  | EnterSetup _ _, (Connecting _ | SettingUp _ _) => false
  | EnterSetup _ _, _ => true
  | EnterStreaming r, Streaming held => negb (held ==? r)
  | WaitRetry _ _, Failed true _ => false
  | WaitRetry a t, RetryWaiting a' t' => negb ((a ==? a') && (t ==? t'))
  | WaitRetry _ _, _ => true
  | _, _ => false
  end.

(** Exactly which operations are rejected.  Discovery changes, new
    generations, failures, retries, leaving and releasing are accepted in every
    state; setup progress only from connecting or setting up; a backoff only
    from a retryable failure (or unchanged); streaming everywhere except for a
    receiver already streaming in another role. *)
Theorem rejections_are_exact m op :
  (exists e, (apply m op).2 = Err e) <-> rejected m op = true.
Proof.
  destruct m as [st at_ nr le gen av ro]. unfold rejected.
  destruct op; cbn [state]; open_machine; destruct st; cbn;
    repeat (case_bool_decide || case_match; cbn in * ); simplify_eq/=;
    split; intros He; try (destruct He; discriminate); try discriminate; eauto.
Qed.

(** Changing the role of a receiver that is already streaming is refused,
    although entering the stream is described as authoritative, and the
    refusal is not clean: the row keeps the old role while the machine already
    records the new one. *)
Theorem streaming_role_change_desynchronises m held r :
  state m = Streaming held -> r <> held ->
  (enter_streaming m r).2 = Err {| from := "Streaming"; to := "Streaming" |}
  /\ state (enter_streaming m r).1 = Streaming held
  /\ role (enter_streaming m r).1 = Some r.
Proof.
  intros Hs Hr. unfold enter_streaming. rewrite Hs.
  rewrite bool_decide_eq_false_2 by congruence. cbn. rewrite Hs. cbn. rewrite Hs. cbn.
  unfold transition. cbn. rewrite Hs, bool_decide_eq_false_2 by congruence. done.
Qed.

Lemma streaming_role_change_desynchronises_witness :
  let m := (enter_streaming (begin_generation (new true) 7 0).1 Primary).1 in
  role (enter_streaming m Secondary).1 = Some Secondary.
Proof.
  apply (streaming_role_change_desynchronises
    (enter_streaming (begin_generation (new true) 7 0).1 Primary).1 Primary Secondary);
    [reflexivity|discriminate].
Defined.

End Machine.
