(* ===== verification/Tlv.v ===== *)
(** * TLV8 messages of the HomeKit pairing protocol

    [crates/airplay-crypto/src/tlv.rs].  A [Tlv8] is the [HashMap<u8, Vec<u8>>]
    of its items, a [gmap Z (list Z)].  [parse] keeps the source's loop (the
    cursor is the remaining input, the loop variables are [last_type] and
    [items]); it runs on fuel, one unit per record, and a record consumes at
    least two bytes, so the input length is always enough ([parse_fuel]). *)

From stdpp Require Import pretty.
From S2P Require Import Prelude.

Module Tlv.

Inductive TlvType :=
| Method | Identifier | Salt | PublicKey | Proof_ | EncryptedData | State | Error_ | RetryDelay
| Certificate | Signature | Permissions | FragmentData | FragmentLast | SessionId | Flags
| Separator.

(** [typ as u8] *)
Definition to_byte (t : TlvType) : Z :=
  match t with
  | Method => 0x00 | Identifier => 0x01 | Salt => 0x02 | PublicKey => 0x03 | Proof_ => 0x04
  | EncryptedData => 0x05 | State => 0x06 | Error_ => 0x07 | RetryDelay => 0x08
  | Certificate => 0x09 | Signature => 0x0A | Permissions => 0x0B | FragmentData => 0x0C
  | FragmentLast => 0x0D | SessionId => 0x0E | Flags => 0x13 | Separator => 0xFF
  end.

Definition from_byte (b : Z) : option TlvType :=
  match b with
  | 0x00 => Some Method | 0x01 => Some Identifier | 0x02 => Some Salt | 0x03 => Some PublicKey
  | 0x04 => Some Proof_ | 0x05 => Some EncryptedData | 0x06 => Some State | 0x07 => Some Error_
  | 0x08 => Some RetryDelay | 0x09 => Some Certificate | 0x0A => Some Signature
  | 0x0B => Some Permissions | 0x0C => Some FragmentData | 0x0D => Some FragmentLast
  | 0x0E => Some SessionId | 0x13 => Some Flags | 0xFF => Some Separator
  | _ => None
  end.

(** [struct Tlv8 { items: HashMap<u8, Vec<u8>> }] *)
Notation Tlv8 := (gmap Z (list Z)) (only parsing).

(** The two [ParseError::InvalidFormat] messages. *)
Inductive ParseError :=
| TruncatedHeader
| TruncatedValue (expected got : nat).

(** The body of [if Some(typ) == last_type { .. } else { .. }]. *)
Definition add_value (items : Tlv8) (last_type : option Z) (typ : Z) (value : list Z) : Tlv8 :=
  if Some typ ==? last_type then
    match items !! typ with
    | Some existing => <[typ := existing ++ value]> items
    | None => items
    end
  else <[typ := default [] (items !! typ) ++ value]> items.

(** The [while i < data.len()] loop; [None] means out of fuel. *)
Fixpoint parse_loop (fuel : nat) (data : list Z) (last_type : option Z) (items : Tlv8)
  : option (Result Tlv8 ParseError) :=
  match fuel with
  | O => None
  | S fuel' =>
      match data with
      | [] => Some (Ok items)
      | [_] => Some (Err TruncatedHeader)
      | typ :: len :: rest =>
          let n := Z.to_nat len in
          if (length rest <? n)%nat then Some (Err (TruncatedValue n (length rest)))
          else parse_loop fuel' (drop n rest) (Some typ)
                 (add_value items last_type typ (take n rest))
      end
  end.

Definition parse (data : list Z) : Result Tlv8 ParseError :=
  default (Err TruncatedHeader) (parse_loop (S (length data)) data None ∅).

(** One record on the wire. *)
Definition encode_record (typ : Z) (chunk : list Z) : list Z :=
  typ :: wrap 8 (Z.of_nat (length chunk)) :: chunk.

(** The loop body of [encode] for one type. *)
Definition encode_item (typ : Z) (value : list Z) : list Z :=
  match value with
  | [] => [typ; 0]
  | _ => concat (encode_record typ <$> chunks 255 value)
  end.

(** [keys().collect(); sort()]. *)
Definition sorted_types (t : Tlv8) : list Z := isort Z.leb (elements (dom t)).

Definition encode (t : Tlv8) : list Z :=
  concat ((fun typ => encode_item typ (default [] (t !! typ))) <$> sorted_types t).

Definition new : Tlv8 := ∅.
Definition get (t : Tlv8) (typ : TlvType) : option (list Z) := t !! to_byte typ.
Definition get_raw (t : Tlv8) (typ : Z) : option (list Z) := t !! typ.
Definition set (t : Tlv8) (typ : TlvType) (value : list Z) : Tlv8 := <[to_byte typ := value]> t.
Definition set_raw (t : Tlv8) (typ : Z) (value : list Z) : Tlv8 := <[typ := value]> t.
Definition contains (t : Tlv8) (typ : TlvType) : bool := negb (is_none (t !! to_byte typ)).
Definition state (t : Tlv8) : option Z := get t State ≫= head.
Definition error (t : Tlv8) : option Z := get t Error_ ≫= head.

Definition retry_delay (t : Tlv8) : option Z :=
  (fun v => match v with
            | [] => 0
            | [b] => b
            | b0 :: b1 :: _ => from_le_bytes [b0; b1]
            end) <$> get t RetryDelay.

Definition error_name (code : Z) : string :=
  match code with
  | 0x01 => "Unknown"
  | 0x02 => "Authentication"
  | 0x03 => "Backoff (rate limited)"
  | 0x04 => "MaxPeers"
  | 0x05 => "MaxTries"
  | 0x06 => "Unavailable"
  | 0x07 => "Busy"
  | _ => "Unknown error code"
  end.

(** [{:02x}] of a byte. *)
Definition hex_digit (d : Z) : string :=
  match d with
  | 0 => "0" | 1 => "1" | 2 => "2" | 3 => "3" | 4 => "4" | 5 => "5" | 6 => "6" | 7 => "7"
  | 8 => "8" | 9 => "9" | 10 => "a" | 11 => "b" | 12 => "c" | 13 => "d" | 14 => "e" | _ => "f"
  end.
Definition hex_byte (b : Z) : string :=
  String.append (hex_digit (Z.shiftr b 4)) (hex_digit (Z.land b 0xF)).

Definition error_description (t : Tlv8) : option string :=
  error_code ← error t;
  let desc := String.append "Error 0x" (String.append (hex_byte error_code)
                (String.append ": " (error_name error_code))) in
  Some match retry_delay t with
       | Some delay =>
           if 0 <? delay then
             String.append desc (String.append " (retry after "
               (String.append (pretty delay) " seconds)"))
           else desc
       | None => desc
       end.

Definition pair_setup_m1 : Tlv8 := set (set new State [0x01]) Method [0x00].
Definition pair_setup_m1_with_flags : Tlv8 :=
  set (set (set new State [0x01]) Method [0x00]) Flags [0x10; 0x00; 0x00; 0x00].
Definition pair_verify_m1 (public_key : list Z) : Tlv8 :=
  set (set new State [0x01]) PublicKey public_key.

Example pair_setup_wire : encode pair_setup_m1 = [0x00; 1; 0x00; 0x06; 1; 0x01].
Proof. vm_compute. reflexivity. Qed.

Example busy_description :
  error_description (set (set new Error_ [0x03]) RetryDelay [0x2C; 0x01])
  = Some "Error 0x03: Backoff (rate limited) (retry after 300 seconds)"%string.
Proof. vm_compute. reflexivity. Qed.

(** ** Records *)

Notation record := (Z * list Z)%type (only parsing).

Definition frame (r : record) : list Z := encode_record r.1 r.2.
Definition frames (rs : list record) : list Z := concat (frame <$> rs).
Definition record_ok (r : record) : Prop := (length r.2 <= 255)%nat.

(** The values a type carries in a record sequence, in order. *)
Definition values_of (k : Z) (rs : list record) : list (list Z) :=
  omap (fun r => if r.1 ==? k then Some r.2 else None) rs.

(** The message a record sequence denotes: all fragments of a type, glued. *)
Definition add_record (m : Tlv8) (r : record) : Tlv8 := <[r.1 := default [] (m !! r.1) ++ r.2]> m.
Definition collect (rs : list record) : Tlv8 := foldl add_record ∅ rs.

Lemma fold_record_lookup rs m k :
  foldl add_record m rs !! k
  = match values_of k rs with
    | [] => m !! k
    | vs => Some (default [] (m !! k) ++ concat vs)
    end.
Proof.
  revert m; induction rs as [|[typ v] rs IH]; intros m; [done|].
  cbn [foldl]. rewrite IH. unfold values_of. cbn [omap list_omap fst snd]. unfold add_record. cbn [fst snd].
  case_bool_decide as E.
  - subst typ. rewrite lookup_insert_eq. cbn [default from_option].
    destruct (omap _ rs); cbn; by rewrite ?app_nil_r, ?(assoc_L (++)).
  - by rewrite lookup_insert_ne.
Qed.

Lemma collect_lookup rs k :
  collect rs !! k = match values_of k rs with [] => None | vs => Some (concat vs) end.
Proof. unfold collect. rewrite fold_record_lookup, lookup_empty. by destruct (values_of k rs). Qed.

(** The two branches of [add_value] agree: a repeated type is in the map. *)
Lemma add_value_record items last typ v :
  (forall k, last = Some k -> is_Some (items !! k)) ->
  add_value items last typ v = add_record items (typ, v).
Proof.
  intros H. unfold add_value, add_record. cbn. case_bool_decide as E; [|done].
  destruct (H typ) as [x Hx]; [done|]. by rewrite Hx.
Qed.

Lemma add_value_last items last typ v k :
  (forall k, last = Some k -> is_Some (items !! k)) ->
  Some typ = Some k -> is_Some (add_value items last typ v !! k).
Proof. intros H [= <-]. rewrite add_value_record by done. apply lookup_insert_is_Some. auto. Qed.

Lemma parse_loop_frames rs fuel last items :
  (length rs < fuel)%nat -> Forall record_ok rs ->
  (forall k, last = Some k -> is_Some (items !! k)) ->
  parse_loop fuel (frames rs) last items = Some (Ok (foldl add_record items rs)).
Proof.
  revert fuel last items; induction rs as [|[typ v] rs IH];
    intros [|fuel] last items Hf Hok Hl; cbn in Hf; try lia; [done|].
  inversion_clear Hok as [|? ? Hv Hok']. unfold record_ok in Hv. cbn in Hv.
  unfold frames. cbn [fmap list_fmap concat]. unfold frame at 1, encode_record. cbn [fst snd app].
  cbn [parse_loop]. rewrite wrap_id by (unfold in_width; lia). rewrite Nat2Z.id.
  destruct (Nat.ltb_spec (length (v ++ concat (frame <$> rs))) (length v)) as [Hlt|_].
  { rewrite length_app in Hlt. lia. }
  rewrite take_app_length, drop_app_length.
  rewrite IH; [|lia|done|eauto using add_value_last].
  by rewrite add_value_record.
Qed.

Lemma length_frames rs : (2 * length rs <= length (frames rs))%nat.
Proof.
  induction rs as [|r rs IH]; [done|]. unfold frames in *. cbn [fmap list_fmap concat length].
  rewrite length_app.
  assert (E : (2 <= length (frame r))%nat) by (unfold frame, encode_record; cbn; lia). lia.
Qed.

Lemma parse_frames rs : Forall record_ok rs -> parse (frames rs) = Ok (collect rs).
Proof.
  intros H. unfold parse. pose proof (length_frames rs).
  rewrite parse_loop_frames; [done|lia|done|done].
Qed.

(** The loop never runs out of fuel, and stops with [Ok] only at a record
    boundary. *)
Lemma parse_fuel fuel data last items :
  (length data < fuel)%nat -> is_Some (parse_loop fuel data last items).
Proof.
  revert data last items; induction fuel as [|fuel IH]; intros data last items Hf; [lia|].
  destruct data as [|typ [|len rest]]; cbn [parse_loop]; eauto. cbn in Hf.
  case_match; [eauto|]. apply IH. rewrite length_drop. lia.
Qed.

Lemma parse_loop_boundary fuel data last items m :
  bytes_ok data -> parse_loop fuel data last items = Some (Ok m) ->
  exists rs, Forall record_ok rs /\ data = frames rs.
Proof.
  revert data last items; induction fuel as [|fuel IH]; intros data last items Hb; [done|].
  destruct data as [|typ [|len rest]]; cbn [parse_loop]; [exists []; by split|done|].
  destruct (Nat.ltb_spec (length rest) (Z.to_nat len)) as [|Hlen]; [done|].
  inversion_clear Hb as [|? ? _ Hb']. inversion_clear Hb' as [|? ? Hl Hr].
  intros (rs & Hok & E)%IH; [|by apply Forall_drop].
  unfold is_byte, in_width in Hl.
  exists ((typ, take (Z.to_nat len) rest) :: rs). split.
  - constructor; [|done]. unfold record_ok. cbn. rewrite length_take. lia.
  - unfold frames, frame, encode_record in *. cbn. rewrite <- E, length_take.
    rewrite wrap_id by (unfold in_width; lia).
    by replace (Z.of_nat (Z.to_nat len `min` length rest)) with len by lia; rewrite take_drop.
Qed.

(** ** The encoder's record sequence *)

Definition fragments (typ : Z) (value : list Z) : list record :=
  match value with [] => [(typ, [])] | _ => pair typ <$> chunks 255 value end.

Definition wire_records (t : Tlv8) : list record :=
  concat ((fun typ => fragments typ (default [] (t !! typ))) <$> sorted_types t).

Lemma fragments_encode typ value : encode_item typ value = frames (fragments typ value).
Proof.
  unfold encode_item, fragments, frames. destruct value; [done|]. by rewrite <- list_fmap_compose.
Qed.

Lemma frames_concat rss : frames (concat rss) = concat (frames <$> rss).
Proof.
  unfold frames. induction rss as [|rs rss IH]; [done|]. cbn. by rewrite fmap_app, concat_app, IH.
Qed.

Lemma encode_frames t : encode t = frames (wire_records t).
Proof.
  unfold encode, wire_records. rewrite frames_concat, <- list_fmap_compose. f_equal.
  apply list_fmap_ext. intros. apply fragments_encode.
Qed.

Lemma fragments_ok typ value : Forall record_ok (fragments typ value).
Proof.
  unfold fragments. destruct value as [|b v]; [repeat constructor; unfold record_ok; cbn; lia|].
  apply Forall_fmap. eapply Forall_impl; [apply (chunks_sizes 255 (b :: v)); lia|].
  intros c [_ Hc]. exact Hc.
Qed.

Lemma wire_records_ok t : Forall record_ok (wire_records t).
Proof.
  apply Forall_concat, Forall_fmap, Forall_forall. intros typ _. apply fragments_ok.
Qed.

Lemma fragments_values typ value :
  values_of typ (fragments typ value)
  = match value with [] => [[]] | _ => chunks 255 value end.
Proof.
  unfold fragments, values_of. destruct value as [|b v]; [cbn; by rewrite bool_decide_eq_true_2|].
  induction (chunks 255 (b :: v)) as [|c cs IH]; [done|]. cbn in *.
  rewrite bool_decide_eq_true_2 by done. by rewrite IH.
Qed.

Lemma fragments_other typ k value : typ <> k -> values_of k (fragments typ value) = [].
Proof.
  intros Hk. unfold fragments, values_of.
  destruct value as [|b v]; [cbn; by rewrite bool_decide_eq_false_2|].
  induction (chunks 255 (b :: v)) as [|c cs IH]; [done|]. cbn in *. by rewrite bool_decide_eq_false_2.
Qed.

Lemma values_of_types (g : Z -> list Z) types k :
  NoDup types ->
  values_of k (concat ((fun typ => fragments typ (g typ)) <$> types))
  = if bool_decide (k ∈ types) then values_of k (fragments k (g k)) else [].
Proof.
  induction 1 as [|typ types Hn Hd IH]; [done|].
  cbn [fmap list_fmap concat]. unfold values_of in *. rewrite omap_app, IH.
  destruct (decide (typ = k)) as [->|Hne].
  - rewrite (bool_decide_eq_false_2 (k ∈ types)), (bool_decide_eq_true_2 (k ∈ k :: types)) by set_solver.
    by rewrite app_nil_r.
  - pose proof (fragments_other typ k (g typ) Hne) as E. unfold values_of in E. rewrite E. cbn.
    rewrite (bool_decide_ext (k ∈ typ :: types) (k ∈ types)) by set_solver. done.
Qed.

Lemma sorted_types_elem t k : k ∈ sorted_types t <-> is_Some (t !! k).
Proof. unfold sorted_types. by rewrite isort_perm, elem_of_elements, elem_of_dom. Qed.

Lemma sorted_types_NoDup t : NoDup (sorted_types t).
Proof. unfold sorted_types. rewrite isort_perm. apply NoDup_elements. Qed.

Lemma collect_wire t : collect (wire_records t) = t.
Proof.
  apply map_eq. intros k. rewrite collect_lookup. unfold wire_records.
  rewrite values_of_types by apply sorted_types_NoDup.
  case_bool_decide as Hk.
  - apply sorted_types_elem in Hk as [v Hv]. rewrite Hv. cbn. rewrite fragments_values.
    destruct v as [|b v]; [done|]. destruct (chunks 255 (b :: v)) eqn:E.
    + apply chunks_nil in E; [done|lia].
    + pose proof (chunks_concat 255 (b :: v) ltac:(lia)) as Hc. rewrite E in Hc. by rewrite <- Hc.
  - rewrite sorted_types_elem in Hk. symmetry. by apply eq_None_not_Some.
Qed.

Lemma parse_encode t : parse (encode t) = Ok t.
Proof. rewrite encode_frames, parse_frames by apply wire_records_ok. by rewrite collect_wire. Qed.

(** ** Theorems *)

(** C37: encoding and parsing are inverse: every message, with values of any
    length including empty ones, survives the wire. *)
Theorem tlv_roundtrip t : parse (encode t) = Ok t.
Proof. apply parse_encode. Qed.

(** The parser accepts exactly the byte strings that split into
    type-length-value records, and then yields, for each type, the
    concatenation of all its values in order of appearance, adjacent or not;
    any truncated input is an error. *)
Theorem tlv_parse_exact data m :
  bytes_ok data ->
  parse data = Ok m <->
  exists rs, Forall record_ok rs /\ data = frames rs
    /\ forall k, m !! k = match values_of k rs with [] => None | vs => Some (concat vs) end.
Proof.
  intros Hb. split.
  - intros H. assert (Hl : exists r, parse_loop (S (length data)) data None ∅ = Some r)
      by (apply parse_fuel; lia).
    destruct Hl as [r Hr]. unfold parse in H. rewrite Hr in H. cbn in H. subst r.
    destruct (parse_loop_boundary _ _ _ _ _ Hb Hr) as (rs & Hok & ->).
    exists rs. split_and!; [done..|]. intros k. rewrite <- collect_lookup.
    rewrite parse_loop_frames in Hr; [|pose proof (length_frames rs); lia|done..].
    by injection Hr as <-.
  - intros (rs & Hok & -> & Hm). rewrite parse_frames by done. f_equal. apply map_eq.
    intros k. by rewrite collect_lookup, Hm.
Qed.

Lemma tlv_parse_exact_witness :
  parse [6; 1; 7; 9; 0; 6; 1; 8] = Ok {[6 := [7; 8]; 9 := []]}.
Proof.
  apply tlv_parse_exact; [repeat constructor; unfold in_width; lia|].
  exists [(6, [7]); (9, []); (6, [8])]. split; [repeat constructor; unfold record_ok; cbn; lia|].
  split; [reflexivity|]. intros k.
  destruct (decide (k = 6)) as [->|H6]; [reflexivity|].
  destruct (decide (k = 9)) as [->|H9]; [reflexivity|].
  rewrite lookup_insert_ne, lookup_singleton_ne by congruence. unfold values_of. cbn.
  by repeat (rewrite bool_decide_eq_false_2 by congruence).
Defined.

End Tlv.
