(* ===== verification/Features.v ===== *)
(** * Feature flags

    [crates/airplay-core/src/features.rs]: the 64-bit capability mask a
    receiver advertises, its TXT record notation, the queries, and the choice
    of the authentication method.  A [str] is the list of its characters (code
    points). *)

From S2P Require Import Prelude.

Module Features.

(** [Features(pub u64)]. *)
Notation Features := Z (only parsing).

Inductive AuthMethod := NoAuth | HomeKitTransient | FairPlay | MfiRequired.

(** ** Flag constants *)

Definition SUPPORTS_VIDEO_V1 : Z := Z.shiftl 1 0.
Definition SUPPORTS_PHOTO : Z := Z.shiftl 1 1.
Definition SUPPORTS_SLIDESHOW : Z := Z.shiftl 1 5.
Definition SUPPORTS_SCREEN : Z := Z.shiftl 1 7.
Definition SUPPORTS_AUDIO : Z := Z.shiftl 1 9.
Definition AUDIO_REDUNDANT : Z := Z.shiftl 1 11.
Definition AUTHENTICATION_FAIRPLAY : Z := Z.shiftl 1 14.
Definition METADATA_FEATURES_0 : Z := Z.shiftl 1 15.
Definition METADATA_FEATURES_1 : Z := Z.shiftl 1 16.
Definition METADATA_FEATURES_2 : Z := Z.shiftl 1 17.
Definition AUDIO_FORMATS_0 : Z := Z.shiftl 1 18.
Definition AUDIO_FORMATS_1 : Z := Z.shiftl 1 19.
Definition AUDIO_FORMATS_2 : Z := Z.shiftl 1 20.
Definition AUDIO_FORMATS_3 : Z := Z.shiftl 1 21.
Definition AUTHENTICATION_1 : Z := Z.shiftl 1 23.
Definition AUTHENTICATION_MFI : Z := Z.shiftl 1 26.
Definition SUPPORTS_LEGACY_PAIRING : Z := Z.shiftl 1 27.
Definition HAS_UNIFIED_ADVERTISER_INFO : Z := Z.shiftl 1 30.
Definition IS_CARPLAY : Z := Z.shiftl 1 32.
Definition SUPPORTS_VIDEO_PLAY_QUEUE : Z := Z.shiftl 1 33.
Definition SUPPORTS_AIRPLAY_FROM_CLOUD : Z := Z.shiftl 1 34.
Definition SUPPORTS_TLS_PSK : Z := Z.shiftl 1 35.
Definition SUPPORTS_UNIFIED_MEDIA_CONTROL : Z := Z.shiftl 1 38.
Definition SUPPORTS_BUFFERED_AUDIO : Z := Z.shiftl 1 40.
Definition SUPPORTS_PTP : Z := Z.shiftl 1 41.
Definition SUPPORTS_SCREEN_MULTI_CODEC : Z := Z.shiftl 1 42.
Definition SUPPORTS_SYSTEM_PAIRING : Z := Z.shiftl 1 43.
Definition IS_AP_VALERIA_SCREEN_SENDER : Z := Z.shiftl 1 44.
Definition SUPPORTS_HOMEKIT_PAIRING : Z := Z.shiftl 1 46.
Definition SUPPORTS_TRANSIENT_PAIRING : Z := Z.shiftl 1 48.
Definition SUPPORTS_VIDEO_V2 : Z := Z.shiftl 1 49.
Definition METADATA_FEATURES_3 : Z := Z.shiftl 1 50.
Definition SUPPORTS_UNIFIED_PAIR_MFI : Z := Z.shiftl 1 51.
Definition SUPPORTS_SET_PEERS_EXTENDED_MESSAGE : Z := Z.shiftl 1 52.
Definition SUPPORTS_AP_SYNC : Z := Z.shiftl 1 54.
Definition SUPPORTS_WOL_55 : Z := Z.shiftl 1 55.
Definition SUPPORTS_WOL_56 : Z := Z.shiftl 1 56.
Definition SUPPORTS_HANGDOG_REMOTE_CONTROL : Z := Z.shiftl 1 58.
Definition SUPPORTS_AUDIO_STREAM_CONNECTION_SETUP : Z := Z.shiftl 1 59.
Definition SUPPORTS_AUDIO_MEDIA_DATA_CONTROL : Z := Z.shiftl 1 60.
Definition SUPPORTS_RFC2198_REDUNDANCY : Z := Z.shiftl 1 61.

(** [self.0 & FLAG != 0] *)
Definition has (f : Features) (flag : Z) : bool := negb (Z.land f flag =? 0).

(** ** Queries *)

Definition supports_video_v1 (f : Features) : bool := has f SUPPORTS_VIDEO_V1.
Definition supports_photo (f : Features) : bool := has f SUPPORTS_PHOTO.
Definition supports_slideshow (f : Features) : bool := has f SUPPORTS_SLIDESHOW.
Definition supports_screen (f : Features) : bool := has f SUPPORTS_SCREEN.
Definition supports_audio (f : Features) : bool := has f SUPPORTS_AUDIO.
Definition supports_redundant_audio (f : Features) : bool := has f AUDIO_REDUNDANT.
Definition requires_fairplay (f : Features) : bool := has f AUTHENTICATION_FAIRPLAY.
Definition has_authentication_1 (f : Features) : bool := has f AUTHENTICATION_1.
Definition requires_mfi (f : Features) : bool := has f AUTHENTICATION_MFI.
Definition supports_legacy_pairing (f : Features) : bool := has f SUPPORTS_LEGACY_PAIRING.
Definition has_unified_advertiser_info (f : Features) : bool := has f HAS_UNIFIED_ADVERTISER_INFO.
Definition is_carplay (f : Features) : bool := has f IS_CARPLAY.
Definition supports_video_play_queue (f : Features) : bool := has f SUPPORTS_VIDEO_PLAY_QUEUE.
Definition supports_airplay_from_cloud (f : Features) : bool := has f SUPPORTS_AIRPLAY_FROM_CLOUD.
Definition supports_tls_psk (f : Features) : bool := has f SUPPORTS_TLS_PSK.
Definition supports_unified_media_control (f : Features) : bool := has f SUPPORTS_UNIFIED_MEDIA_CONTROL.
Definition supports_buffered_audio (f : Features) : bool := has f SUPPORTS_BUFFERED_AUDIO.
Definition supports_ptp (f : Features) : bool := has f SUPPORTS_PTP.
Definition supports_screen_multi_codec (f : Features) : bool := has f SUPPORTS_SCREEN_MULTI_CODEC.
Definition supports_system_pairing (f : Features) : bool := has f SUPPORTS_SYSTEM_PAIRING.
Definition is_ap_valeria_screen_sender (f : Features) : bool := has f IS_AP_VALERIA_SCREEN_SENDER.
Definition supports_homekit_pairing (f : Features) : bool := has f SUPPORTS_HOMEKIT_PAIRING.
Definition supports_transient_pairing (f : Features) : bool := has f SUPPORTS_TRANSIENT_PAIRING.
Definition supports_video_v2 (f : Features) : bool := has f SUPPORTS_VIDEO_V2.
Definition supports_unified_pair_mfi (f : Features) : bool := has f SUPPORTS_UNIFIED_PAIR_MFI.
Definition supports_set_peers_extended_message (f : Features) : bool := has f SUPPORTS_SET_PEERS_EXTENDED_MESSAGE.
Definition supports_ap_sync (f : Features) : bool := has f SUPPORTS_AP_SYNC.
Definition supports_hangdog_remote_control (f : Features) : bool := has f SUPPORTS_HANGDOG_REMOTE_CONTROL.
Definition supports_audio_stream_connection_setup (f : Features) : bool := has f SUPPORTS_AUDIO_STREAM_CONNECTION_SETUP.
Definition supports_audio_media_data_control (f : Features) : bool := has f SUPPORTS_AUDIO_MEDIA_DATA_CONTROL.
Definition supports_rfc2198_redundancy (f : Features) : bool := has f SUPPORTS_RFC2198_REDUNDANCY.
Definition supports_wol (f : Features) : bool :=
  has f (Z.lor SUPPORTS_WOL_55 SUPPORTS_WOL_56).

Definition metadata_features (f : Features) : Z :=
  let b0 := Z.land (Z.shiftr f 15) 1 in
  let b1 := Z.land (Z.shiftr f 16) 1 in
  let b2 := Z.land (Z.shiftr f 17) 1 in
  let b3 := Z.land (Z.shiftr f 50) 1 in
  wrap 8 (Z.lor (Z.lor (Z.lor b0 (Z.shiftl b1 1)) (Z.shiftl b2 2)) (Z.shiftl b3 3)).

Definition audio_formats (f : Features) : Z := wrap 8 (Z.land (Z.shiftr f 18) 0xF).

Definition auth_method (f : Features) : AuthMethod :=
  if requires_mfi f then MfiRequired
  else if supports_unified_pair_mfi f || supports_transient_pairing f then HomeKitTransient
  else if requires_fairplay f then FairPlay
  else NoAuth.

(** ** TXT notation *)

Inductive ParseError := EmptyFeatures | EmptyHex | InvalidHex (part : list Z).

(** [char::is_whitespace] (Unicode White_Space). *)
Definition is_whitespace (c : Z) : bool :=
  ((9 <=? c) && (c <=? 13)) || (c =? 32) || (c =? 0x85) || (c =? 0xA0) || (c =? 0x1680)
  || ((0x2000 <=? c) && (c <=? 0x200A)) || (c =? 0x2028) || (c =? 0x2029) || (c =? 0x202F)
  || (c =? 0x205F) || (c =? 0x3000).

Fixpoint trim_start (s : list Z) : list Z :=
  match s with
  | c :: s' => if is_whitespace c then trim_start s' else s
  | [] => []
  end.
Definition trim (s : list Z) : list Z := reverse (trim_start (reverse (trim_start s))).

(** [strip_prefix("0x").or_else(|| strip_prefix("0X")).unwrap_or(part)] *)
Definition strip_0x (part : list Z) : list Z :=
  match part with
  | 0x30 :: 0x78 :: rest | 0x30 :: 0x58 :: rest => rest
  | _ => part
  end.

(** [char::to_digit(16)] *)
Definition to_digit16 (c : Z) : option Z :=
  if (0x30 <=? c) && (c <=? 0x39) then Some (c - 0x30)
  else if (0x41 <=? c) && (c <=? 0x46) then Some (c - 0x41 + 10)
  else if (0x61 <=? c) && (c <=? 0x66) then Some (c - 0x61 + 10)
  else None.

(** The digit loop of [u64::from_str_radix(_, 16)]: overflow is an error. *)
Fixpoint digits_value (acc : Z) (s : list Z) : option Z :=
  match s with
  | [] => Some acc
  | c :: s' =>
      d ← to_digit16 c;
      let acc := acc * 16 + d in
      if acc <? 2 ^ 64 then digits_value acc s' else None
  end.

(** [from_str_radix] accepts one leading plus sign. *)
Definition from_str_radix16 (s : list Z) : option Z :=
  match s with
  | [] => None
  | 0x2B :: rest => match rest with [] => None | _ => digits_value 0 rest end
  | _ => digits_value 0 s
  end.

Definition parse_hex (part : list Z) : Result Z ParseError :=
  let part := trim part in
  match strip_0x part with
  | [] => Err EmptyHex
  | hex_str => match from_str_radix16 hex_str with Some v => Ok v | None => Err (InvalidHex part) end
  end.

(** [split_once(',')] *)
Fixpoint split_comma (s : list Z) : option (list Z * list Z) :=
  match s with
  | [] => None
  | c :: s' =>
      if c =? 0x2C then Some ([], s')
      else '(a, b) ← split_comma s'; Some (c :: a, b)
  end.

(** [upper << 32] on a [u64] drops the bits that leave the word. *)
Definition from_txt_value (s : list Z) : Result Features ParseError :=
  let s := trim s in
  match s with
  | [] => Err EmptyFeatures
  | _ =>
      match split_comma s with
      | Some (lower_str, upper_str) =>
          let? lower := parse_hex lower_str in
          let? upper := parse_hex upper_str in
          Ok (Z.lor lower (wrap 64 (Z.shiftl upper 32)))
      | None => let? lower := parse_hex s in Ok (Z.lor lower 0)
      end
  end.

Definition hex_char (d : Z) : Z := if d <? 10 then 0x30 + d else 0x41 + (d - 10).

(** [{:X}] of a [u64]: at most sixteen digits. *)
Fixpoint hex_fuel (fuel : nat) (n : Z) : list Z :=
  match fuel with
  | O => []
  | S fuel' => if n <? 16 then [hex_char n] else hex_fuel fuel' (n / 16) ++ [hex_char (n mod 16)]
  end.
Definition upper_hex (n : Z) : list Z := hex_fuel 16 n.

Definition to_txt_value (f : Features) : list Z :=
  let lower := Z.land f 0xFFFFFFFF in
  let upper := Z.shiftr f 32 in
  if upper =? 0 then [0x30; 0x78] ++ upper_hex lower
  else [0x30; 0x78] ++ upper_hex lower ++ [0x2C; 0x30; 0x78] ++ upper_hex upper.

(** ** The notation reads back *)

Definition is_hex (c : Z) : bool := ((0x30 <=? c) && (c <=? 0x39)) || ((0x41 <=? c) && (c <=? 0x46)).

Lemma hex_char_ok d : 0 <= d < 16 -> is_hex (hex_char d) = true /\ to_digit16 (hex_char d) = Some d.
Proof.
  intros H.
  assert (Hd : d ∈ seqZ 0 16) by (apply elem_of_seqZ; lia).
  change (seqZ 0 16) with [0; 1; 2; 3; 4; 5; 6; 7; 8; 9; 10; 11; 12; 13; 14; 15] in Hd.
  repeat (apply elem_of_cons in Hd as [->|Hd]; [done|]). by apply elem_of_nil in Hd.
Qed.

Lemma hex_fuel_chars fuel n : 0 <= n -> Forall (fun c => is_hex c = true) (hex_fuel fuel n).
Proof.
  revert n; induction fuel as [|fuel IH]; intros n Hn; [constructor|]. cbn [hex_fuel].
  destruct (Z.ltb_spec n 16).
  - constructor; [|constructor]. apply hex_char_ok. lia.
  - apply Forall_app. split; [apply IH, Z.div_pos; lia|]. constructor; [|constructor].
    apply hex_char_ok, Z.mod_pos_bound. lia.
Qed.

Lemma digits_value_app acc s t :
  digits_value acc (s ++ t) = (v ← digits_value acc s; digits_value v t).
Proof.
  revert acc; induction s as [|c s IH]; intros acc; [done|]. cbn [app digits_value].
  destruct (to_digit16 c) as [d|]; [|done]. cbn [mbind option_bind].
  destruct (_ <? _); [apply IH|done].
Qed.

Lemma digits_value_hex fuel n :
  0 <= n < 2 ^ 64 -> n < 16 ^ Z.of_nat fuel -> digits_value 0 (hex_fuel fuel n) = Some n.
Proof.
  revert n; induction fuel as [|fuel IH]; intros n Hn Hf.
  { change (16 ^ Z.of_nat 0) with 1 in Hf. cbn. f_equal. lia. }
  cbn [hex_fuel].
  assert (Hone : forall d, 0 <= d < 16 -> digits_value (n / 16) [hex_char d]
    = if n / 16 * 16 + d <? 2 ^ 64 then Some (n / 16 * 16 + d) else None).
  { intros d Hd. cbn [digits_value]. destruct (hex_char_ok d Hd) as [_ ->]. done. }
  destruct (Z.ltb_spec n 16) as [Hlt|Hge].
  - assert (E : n / 16 = 0) by (apply Z.div_small; lia). rewrite E in Hone.
    rewrite Hone by lia. destruct (Z.ltb_spec (0 * 16 + n) (2 ^ 64)); [f_equal; lia|lia].
  - pose proof (Z.div_mod n 16 ltac:(lia)) as Ed. pose proof (Z.mod_pos_bound n 16 ltac:(lia)) as Hm.
    rewrite digits_value_app, IH.
    + cbn [mbind option_bind]. rewrite Hone by lia.
      destruct (Z.ltb_spec (n / 16 * 16 + n mod 16) (2 ^ 64)); [f_equal; lia|lia].
    + lia.
    + rewrite Nat2Z.inj_succ, Z.pow_succ_r in Hf by lia. lia.
Qed.

Lemma hex_nonempty fuel n : hex_fuel (S fuel) n <> [].
Proof. cbn. destruct (n <? 16); [done|]. by destruct (hex_fuel fuel (n / 16)). Qed.

(** A string without whitespace is its own trimming. *)
Lemma trim_start_id s : Forall (fun c => is_whitespace c = false) s -> trim_start s = s.
Proof. destruct 1 as [|c s Hc _]; cbn; [done|]. by rewrite Hc. Qed.

Lemma trim_id s : Forall (fun c => is_whitespace c = false) s -> trim s = s.
Proof.
  intros H. unfold trim. rewrite (trim_start_id s) by done.
  rewrite trim_start_id by (by apply Forall_reverse). apply reverse_involutive.
Qed.

Lemma hex_not_space c : is_hex c = true -> is_whitespace c = false.
Proof. unfold is_hex, is_whitespace. intros H. repeat (apply orb_false_iff; split); lia. Qed.

Lemma hex_no_space n : 0 <= n -> Forall (fun c => is_whitespace c = false) (upper_hex n).
Proof.
  intros Hn. eapply Forall_impl; [apply hex_fuel_chars; exact Hn|]. apply hex_not_space.
Qed.

Lemma split_comma_hex s t :
  Forall (fun c => is_hex c = true) s ->
  split_comma (s ++ t) = ('(a, b) ← split_comma t; Some (s ++ a, b)).
Proof.
  induction 1 as [|c s Hc _ IH]; cbn [app split_comma].
  - by destruct (split_comma t) as [[a b]|].
  - destruct (Z.eqb_spec c 0x2C) as [->|_]; [discriminate|]. rewrite IH.
    by destruct (split_comma t) as [[a b]|].
Qed.

Lemma parse_hex_printed n :
  0 <= n < 2 ^ 64 -> parse_hex ([0x30; 0x78] ++ upper_hex n) = Ok n.
Proof.
  intros Hn. unfold parse_hex. rewrite trim_id.
  - cbn [app strip_0x]. pose proof (hex_nonempty 15 n) as Hne. unfold upper_hex in *.
    pose proof (digits_value_hex 16 n Hn ltac:(cbn; lia)) as Hv.
    assert (Hc : Forall (fun c => is_hex c = true) (hex_fuel 16 n)) by (apply hex_fuel_chars; lia).
    destruct (hex_fuel 16 n) as [|c s]; [done|]. inversion_clear Hc as [|? ? Hc' _].
    assert (Hr : from_str_radix16 (c :: s) = digits_value 0 (c :: s)).
    { unfold from_str_radix16, is_hex in *. repeat (case_match; try done); lia. }
    by rewrite Hr, Hv.
  - repeat (constructor; [done|]). apply hex_no_space. lia.
Qed.

(** The TXT notation is lossless: every 64-bit capability mask is read back
    from what is written, with one or two hexadecimal words. *)
Theorem features_txt_roundtrip f : in_width 64 f -> from_txt_value (to_txt_value f) = Ok f.
Proof.
  intros Hf. unfold in_width in Hf.
  assert (Hl : 0 <= Z.land f 0xFFFFFFFF < 2 ^ 32).
  { change 0xFFFFFFFF with (Z.ones 32). rewrite Z.land_ones by lia. apply Z.mod_pos_bound. lia. }
  assert (Hu : 0 <= Z.shiftr f 32 < 2 ^ 32).
  { rewrite Z.shiftr_div_pow2 by lia. split; [apply Z.div_pos; lia|].
    apply Z.div_lt_upper_bound; lia. }
  assert (Hjoin : Z.lor (Z.land f 0xFFFFFFFF) (wrap 64 (Z.shiftl (Z.shiftr f 32) 32)) = f).
  { rewrite wrap_id.
    - rewrite (lor_shiftl_add _ _ 32) by (lia || exact Hl).
      change 0xFFFFFFFF with (Z.ones 32). rewrite Z.land_ones, Z.shiftr_div_pow2 by lia.
      pose proof (Z.div_mod f (2 ^ 32) ltac:(lia)). lia.
    - unfold in_width. rewrite Z.shiftl_mul_pow2 by lia. lia. }
  set (lo := Z.land f 0xFFFFFFFF) in *. set (hi := Z.shiftr f 32) in *.
  assert (Hc : forall n, 0 <= n -> Forall (fun c => is_hex c = true) (upper_hex n))
    by (intros n Hn; by apply hex_fuel_chars).
  assert (Hprefix : forall t, split_comma ([0x30; 0x78] ++ upper_hex lo ++ t)
    = ('(a, b) ← split_comma t; Some ([0x30; 0x78] ++ upper_hex lo ++ a, b))).
  { intros t. cbn [app split_comma Z.eqb Pos.eqb]. rewrite split_comma_hex by (apply Hc; lia).
    by destruct (split_comma t) as [[a b]|]. }
  unfold from_txt_value, to_txt_value. fold lo hi. destruct (Z.eqb_spec hi 0) as [E|E].
  - rewrite trim_id by (repeat (constructor; [done|]); apply hex_no_space; lia).
    specialize (Hprefix []). rewrite app_nil_r in Hprefix. rewrite Hprefix.
    rewrite parse_hex_printed by lia. cbn [app result_bind mbind option_bind split_comma].
    rewrite E in Hjoin. exact (f_equal Ok Hjoin).
  - rewrite trim_id.
    2: { repeat (constructor; [done|]). apply Forall_app.
         split; [apply hex_no_space; lia|]. repeat (constructor; [done|]). apply hex_no_space. lia. }
    rewrite Hprefix. cbn [split_comma app Z.eqb Pos.eqb mbind option_bind].
    rewrite app_nil_r.
    pose proof (parse_hex_printed lo ltac:(lia)) as P1.
    pose proof (parse_hex_printed hi ltac:(lia)) as P2. cbn [app] in P1, P2. rewrite P1, P2.
    cbn [result_bind]. by rewrite Hjoin.
Qed.

Lemma features_txt_roundtrip_witness :
  from_txt_value (to_txt_value 0x445F8A00) = Ok 0x445F8A00.
Proof. apply (features_txt_roundtrip 0x445F8A00). split; [discriminate|reflexivity]. Defined.

(** ** Queries are bit tests *)

Lemma has_testbit f i : 0 <= i -> has f (Z.shiftl 1 i) = Z.testbit f i.
Proof.
  intros Hi. unfold has. rewrite Z.shiftl_1_l. destruct (Z.eqb_spec (Z.land f (2 ^ i)) 0) as [E|E].
  - cbn. symmetry. pose proof (f_equal (fun z => Z.testbit z i) E) as H. cbn beta in H.
    rewrite Z.land_spec, Z.pow2_bits_true, andb_true_r, Z.bits_0 in H by lia. done.
  - cbn. symmetry. apply not_false_is_true. intros Hb. apply E. bits_eq j Hj.
    rewrite Z.land_spec, Z.bits_0. destruct (Z.eq_dec j i) as [->|Hne]; [by rewrite Hb|].
    rewrite Z.pow2_bits_false by lia. apply andb_false_r.
Qed.

(** The documented priority, in terms of the advertised bits. *)
Lemma auth_method_bits f :
  auth_method f
  = if Z.testbit f 26 then MfiRequired
    else if Z.testbit f 51 || Z.testbit f 48 then HomeKitTransient
    else if Z.testbit f 14 then FairPlay else NoAuth.
Proof.
  unfold auth_method, requires_mfi, supports_unified_pair_mfi, supports_transient_pairing,
    requires_fairplay, AUTHENTICATION_MFI, SUPPORTS_UNIFIED_PAIR_MFI, SUPPORTS_TRANSIENT_PAIRING,
    AUTHENTICATION_FAIRPLAY. by rewrite !has_testbit by lia.
Qed.

End Features.
