(* ===== verification/Codec.v ===== *)
(** * Audio formats

    [crates/airplay-core/src/codec.rs]: codecs, sample rates, and the sizes
    derived from a format. *)

From S2P Require Import Prelude.

Module Codec.

Inductive AudioCodec := Pcm | Alac | Aac | AacEld | Opus.
Inductive SampleRate := Hz44100 | Hz48000.

Record AudioFormat := {
  codec : AudioCodec;
  sample_rate : SampleRate;
  bit_depth : Z;
  channels : Z;
  frames_per_packet : Z;
}.

Definition compression_type (self : AudioCodec) : Z :=
  match self with Pcm => 1 | Alac => 2 | Aac => 3 | AacEld => 4 | Opus => 32 end.

Definition audio_format_value (self : AudioCodec) : Z :=
  match self with
  | Pcm => 0 | Alac => 0x40000 | Aac => 0x400000 | AacEld => 0x1000000 | Opus => 0x2000000
  end.

Definition from_compression_type (ct : Z) : option AudioCodec :=
  match ct with
  | 1 => Some Pcm | 2 => Some Alac | 3 => Some Aac | 4 => Some AacEld | 32 => Some Opus
  | _ => None
  end.

Definition as_hz (self : SampleRate) : Z :=
  match self with Hz44100 => 44100 | Hz48000 => 48000 end.

Definition default_format : AudioFormat :=
  {| codec := Alac; sample_rate := Hz44100; bit_depth := 16; channels := 2;
     frames_per_packet := 352 |}.
Definition realtime_default : AudioFormat := default_format.
Definition buffered_default : AudioFormat :=
  {| codec := Aac; sample_rate := Hz44100; bit_depth := 16; channels := 2;
     frames_per_packet := 1024 |}.

(** [usize] is 64 bits wide: no product below can reach it. *)
Definition bytes_per_frame (self : AudioFormat) : Z := bit_depth self * channels self / 8.

Definition buffer_size_for_duration_ms (self : AudioFormat) (ms : Z) : Z :=
  let samples := as_hz (sample_rate self) * ms / 1000 in
  wrap 64 (samples * bytes_per_frame self).

(** Field widths of the Rust struct. *)
Definition format_ok (f : AudioFormat) : Prop :=
  in_width 8 (bit_depth f) /\ in_width 8 (channels f) /\ in_width 32 (frames_per_packet f).

(** The byte count of a duration never wraps. *)
Lemma buffer_size_exact f ms :
  format_ok f -> in_width 32 ms ->
  buffer_size_for_duration_ms f ms = as_hz (sample_rate f) * ms / 1000 * bytes_per_frame f
  /\ 1000 * buffer_size_for_duration_ms f ms <= as_hz (sample_rate f) * ms * bytes_per_frame f.
Proof.
  intros (Hb & Hc & _) Hm. unfold in_width in *. unfold buffer_size_for_duration_ms.
  assert (Hp : 0 <= bit_depth f * channels f <= 255 * 255) by nia.
  assert (Hbf : 0 <= bytes_per_frame f <= 8129).
  { unfold bytes_per_frame. split; [apply Z.div_pos; lia|]. apply Z.div_le_upper_bound; lia. }
  assert (Hr : 0 < as_hz (sample_rate f) <= 48000) by (destruct (sample_rate f); cbn; lia).
  set (n := as_hz (sample_rate f) * ms) in *.
  assert (Hn : 0 <= n <= 48000 * 2 ^ 32) by (unfold n; nia).
  pose proof (Z.div_mod n 1000 ltac:(lia)). pose proof (Z.mod_pos_bound n 1000 ltac:(lia)).
  assert (0 <= n / 1000 <= 48 * 2 ^ 32) by lia.
  assert (E : wrap 64 (n / 1000 * bytes_per_frame f) = n / 1000 * bytes_per_frame f)
    by (apply wrap_id; unfold in_width; nia).
  split; [exact E|]. rewrite E. nia.
Qed.

End Codec.
