(* ===== verification/Buffer.v ===== *)
(** * The sender's ring buffer

    [crates/airplay-audio/src/buffer.rs] and the sender-buffer half of
    [crates/airplay-audio/src/diagnostics.rs].  The counters live in an [Arc]
    shared between the buffer and any diagnostics source, so they are part of
    the modelled state and a snapshot reads them at the moment it is taken.
    Dividing by [channels] panics in Rust when a format has no channel; [push]
    and [pop] return [None] there. *)

From S2P Require Import Prelude Float32 Codec.
Import Codec.

Module Buffer.

Record AudioFrame := { samples : list Z; timestamp : Z }.

Definition frame_count (self : AudioFrame) (channels : Z) : Z :=
  if channels =? 0 then 0 else Z.of_nat (length (samples self)) / channels.

Inductive BufferError := Overflow | Underrun.

(** [SenderBufferCounters]: atomics that wrap at their width. *)
Record Counters := {
  queued_frames : Z;
  queued_samples_per_channel : Z;
  samples_written_total : Z;
  samples_read_total : Z;
  underrun_events_total : Z;
}.
#[export] Instance eta_Counters : Eta Counters := fun c =>
  {| queued_frames := queued_frames c;
     queued_samples_per_channel := queued_samples_per_channel c;
     samples_written_total := samples_written_total c;
     samples_read_total := samples_read_total c;
     underrun_events_total := underrun_events_total c |}.

Definition zero_counters : Counters :=
  {| queued_frames := 0; queued_samples_per_channel := 0; samples_written_total := 0;
     samples_read_total := 0; underrun_events_total := 0 |}.

Record AudioBuffer := {
  frames : list AudioFrame;
  format : AudioFormat;
  capacity_frames : nat;
  stats : Counters;
}.
#[export] Instance eta_AudioBuffer : Eta AudioBuffer := fun b =>
  {| frames := frames b; format := format b; capacity_frames := capacity_frames b;
     stats := stats b |}.

Definition new (format : AudioFormat) (capacity_ms : Z) : AudioBuffer :=
  let samples_per_ms := as_hz (sample_rate format) / 1000 in
  let capacity_samples := wrap 32 (samples_per_ms * capacity_ms) in
  let capacity := if 0 <? frames_per_packet format
                  then capacity_samples / frames_per_packet format else 1 in
  {| frames := []; format := format; capacity_frames := Z.to_nat (Z.max capacity 1);
     stats := zero_counters |}.

(** [frame.samples.len() as u64 / self.format.channels as u64] *)
Definition sample_count (b : AudioBuffer) (f : AudioFrame) : option Z :=
  if channels (format b) =? 0 then None
  else Some (Z.of_nat (length (samples f)) / channels (format b)).

Definition push (b : AudioBuffer) (frame : AudioFrame)
  : option (AudioBuffer * Result unit BufferError) :=
  if (capacity_frames b <=? length (frames b))%nat then Some (b, Err Overflow)
  else
    count ← sample_count b frame;
    let stats1 := (stats b)
      <| samples_written_total := wrap 64 (samples_written_total (stats b) + count) |>
      <| queued_samples_per_channel :=
           wrap 64 (queued_samples_per_channel (stats b) + count) |> in
    let frames' := frames b ++ [frame] in
    Some (b <| frames := frames' |>
            <| stats := stats1 <| queued_frames := wrap 32 (Z.of_nat (length frames')) |> |>,
          Ok tt).

Definition pop (b : AudioBuffer) : option (AudioBuffer * option AudioFrame) :=
  match frames b with
  | [] =>
      Some (b <| stats := (stats b)
                 <| underrun_events_total := u64_succ (underrun_events_total (stats b)) |> |>,
            None)
  | frame :: rest =>
      count ← sample_count b frame;
      Some (b <| frames := rest |>
              <| stats := (stats b)
                 <| samples_read_total := wrap 64 (samples_read_total (stats b) + count) |>
                 <| queued_samples_per_channel :=
                      wrap 64 (queued_samples_per_channel (stats b) - count) |>
                 <| queued_frames := wrap 32 (Z.of_nat (length rest)) |> |>,
            Some frame)
  end.

Definition peek (b : AudioBuffer) : option AudioFrame := head (frames b).
Definition len (b : AudioBuffer) : nat := length (frames b).
Definition is_empty (b : AudioBuffer) : bool := match frames b with [] => true | _ => false end.
Definition is_full (b : AudioBuffer) : bool := (capacity_frames b <=? length (frames b))%nat.
Definition total_written (b : AudioBuffer) : Z := samples_written_total (stats b).
Definition total_read (b : AudioBuffer) : Z := samples_read_total (stats b).
Definition capacity (b : AudioBuffer) : nat := capacity_frames b.

Definition fill_percentage (b : AudioBuffer) : f32 :=
  if (capacity_frames b =? 0)%nat then f32_zero
  else f32_mul (f32_div (f32_of_Z (Z.of_nat (length (frames b))))
                  (f32_of_Z (Z.of_nat (capacity_frames b)))) (f32_of_Z 100).

(** All [u32] arithmetic: both products wrap. *)
Definition buffered_ms (b : AudioBuffer) : Z :=
  let samples := wrap 32 (wrap 32 (Z.of_nat (length (frames b))) * frames_per_packet (format b)) in
  let sample_rate := as_hz (sample_rate (format b)) in
  if sample_rate =? 0 then 0 else wrap 32 (samples * 1000) / sample_rate.

Definition reset_queue (b : AudioBuffer) : AudioBuffer :=
  b <| frames := [] |>
    <| stats := (stats b) <| queued_samples_per_channel := 0 |> <| queued_frames := 0 |> |>.
Definition clear (b : AudioBuffer) : AudioBuffer := reset_queue b.
Definition flush (b : AudioBuffer) : AudioBuffer * list AudioFrame := (reset_queue b, frames b).

(** ** Diagnostics *)

Record SenderBufferSnapshot := {
  ss_queued_frames : Z;
  ss_capacity_frames : Z;
  ss_queued_samples_per_channel : Z;
  ss_buffered_ns : Z;
  ss_fill_ratio : f32;
  ss_samples_written_total : Z;
  ss_samples_read_total : Z;
  ss_underrun_events_total : Z;
}.

Definition samples_to_ns (samples sample_rate_hz : Z) : Z :=
  if sample_rate_hz =? 0 then 0 else wrap 64 (samples * 1000000000 / sample_rate_hz).

Definition fill_ratio (queued_frames capacity_frames : Z) : f32 :=
  if capacity_frames =? 0 then f32_zero
  else f32_min (f32_div (f32_of_Z queued_frames) (f32_of_Z capacity_frames)) f32_one.

(** What a source created by [diagnostics_source(sample_rate_hz)] reports. *)
Definition diagnostics (b : AudioBuffer) (sample_rate_hz : Z) : SenderBufferSnapshot :=
  let c := stats b in
  let capacity := wrap 32 (Z.of_nat (capacity_frames b)) in
  {| ss_queued_frames := queued_frames c;
     ss_capacity_frames := capacity;
     ss_queued_samples_per_channel := queued_samples_per_channel c;
     ss_buffered_ns := samples_to_ns (queued_samples_per_channel c) sample_rate_hz;
     ss_fill_ratio := fill_ratio (queued_frames c) capacity;
     ss_samples_written_total := samples_written_total c;
     ss_samples_read_total := samples_read_total c;
     ss_underrun_events_total := underrun_events_total c |}.

(** ** Operation sequences and the abstract queue *)

Inductive Op := OpPush (frame : AudioFrame) | OpPop | OpClear | OpFlush.
Inductive Out :=
| OutPush (r : Result unit BufferError)
| OutPop (r : option AudioFrame)
| OutClear
| OutFlush (frames : list AudioFrame).

Definition step (b : AudioBuffer) (op : Op) : option (AudioBuffer * Out) :=
  match op with
  | OpPush f => '(b, r) ← push b f; Some (b, OutPush r)
  | OpPop => '(b, r) ← pop b; Some (b, OutPop r)
  | OpClear => Some (clear b, OutClear)
  | OpFlush => let (b, l) := flush b in Some (b, OutFlush l)
  end.

Fixpoint run_ops (b : AudioBuffer) (ops : list Op) : option (AudioBuffer * list Out) :=
  match ops with
  | [] => Some (b, [])
  | op :: ops' =>
      '(b, o) ← step b op;
      '(b, os) ← run_ops b ops';
      Some (b, o :: os)
  end.

(** The contract: a bounded first-in first-out queue. *)
Definition queue_step (capacity : nat) (q : list AudioFrame) (op : Op) : list AudioFrame * Out :=
  match op with
  | OpPush f =>
      if (length q <? capacity)%nat then (q ++ [f], OutPush (Ok tt)) else (q, OutPush (Err Overflow))
  | OpPop => (tail q, OutPop (head q))
  | OpClear => ([], OutClear)
  | OpFlush => ([], OutFlush q)
  end.

Fixpoint queue_run (capacity : nat) (q : list AudioFrame) (ops : list Op)
  : list AudioFrame * list Out :=
  match ops with
  | [] => (q, [])
  | op :: ops' =>
      let (q, o) := queue_step capacity q op in
      let (q, os) := queue_run capacity q ops' in
      (q, o :: os)
  end.

(** ** Invariant *)

Definition count (ch : Z) (f : AudioFrame) : Z := Z.of_nat (length (samples f)) / ch.
Definition total (ch : Z) (fs : list AudioFrame) : Z := foldr (fun f n => count ch f + n) 0 fs.

Record buffer_ok (b : AudioBuffer) : Prop := {
  bo_channels : channels (format b) <> 0;
  bo_capacity : (1 <= capacity_frames b)%nat;
  bo_bounded : (length (frames b) <= capacity_frames b)%nat;
  bo_frames : queued_frames (stats b) = wrap 32 (Z.of_nat (length (frames b)));
  bo_samples : queued_samples_per_channel (stats b)
               = wrap 64 (total (channels (format b)) (frames b));
}.

Arguments total : simpl never.
Arguments wrap : simpl never.

Lemma total_app ch fs gs : total ch (fs ++ gs) = total ch fs + total ch gs.
Proof. unfold total. induction fs as [|f fs IH]; cbn; [lia|]. rewrite IH. lia. Qed.

Lemma total_cons ch f fs : total ch (f :: fs) = count ch f + total ch fs.
Proof. reflexivity. Qed.

Lemma total_nil ch : total ch [] = 0.
Proof. reflexivity. Qed.

Lemma wrap_add_l w a b : wrap w (wrap w a + b) = wrap w (a + b).
Proof. apply Zplus_mod_idemp_l. Qed.

Lemma wrap_sub_l w a b : wrap w (wrap w a - b) = wrap w (a - b).
Proof. apply Zminus_mod_idemp_l. Qed.

Lemma sample_count_some b f :
  channels (format b) <> 0 -> sample_count b f = Some (count (channels (format b)) f).
Proof. intros H. unfold sample_count. by destruct (Z.eqb_spec (channels (format b)) 0). Qed.

Lemma new_ok f ms : channels f <> 0 -> buffer_ok (new f ms).
Proof. intros H. constructor; cbn; auto; lia. Qed.

(** One operation keeps the invariant and answers like the queue; format and
    capacity are fixed. *)
Lemma step_refines b op :
  buffer_ok b ->
  exists b', step b op = Some (b', (queue_step (capacity_frames b) (frames b) op).2)
    /\ frames b' = (queue_step (capacity_frames b) (frames b) op).1
    /\ capacity_frames b' = capacity_frames b /\ format b' = format b /\ buffer_ok b'.
Proof.
  intros Hb. pose proof Hb as [Hch Hcap Hlen Hq Hs].
  destruct op as [f| | |]; cbn [step queue_step].
  - unfold push. destruct (Nat.leb_spec (capacity_frames b) (length (frames b))) as [Hle|Hlt].
    + destruct (Nat.ltb_spec (length (frames b)) (capacity_frames b)); [lia|].
      exists b. split_and!; done.
    + destruct (Nat.ltb_spec (length (frames b)) (capacity_frames b)); [|lia].
      rewrite sample_count_some by done. eexists. split; [reflexivity|].
      split_and!; try done. constructor; cbn; auto.
      * rewrite length_app. cbn. lia.
      * rewrite Hs, total_app, wrap_add_l, total_cons, total_nil. f_equal. lia.
  - unfold pop. destruct (frames b) as [|f fs] eqn:E.
    + eexists. split; [reflexivity|]. split_and!; try done.
      constructor; cbn; rewrite ?E; auto.
    + rewrite sample_count_some by done. eexists. split; [reflexivity|].
      split_and!; try done. cbn in *. constructor; cbn; auto; [lia|].
      rewrite Hs, wrap_sub_l, total_cons. f_equal. lia.
  - eexists. split; [reflexivity|]. split_and!; try done. constructor; cbn; auto; lia.
  - eexists. split; [reflexivity|]. split_and!; try done. constructor; cbn; auto; lia.
Qed.

Lemma run_refines b ops :
  buffer_ok b ->
  exists b', run_ops b ops = Some (b', (queue_run (capacity_frames b) (frames b) ops).2)
    /\ frames b' = (queue_run (capacity_frames b) (frames b) ops).1
    /\ capacity_frames b' = capacity_frames b /\ format b' = format b /\ buffer_ok b'.
Proof.
  revert b; induction ops as [|op ops IH]; intros b Hb; cbn; [eauto 6|].
  destruct (step_refines b op Hb) as (b1 & Hs & Hf & Hc & Hm & Hb1). rewrite Hs. cbn.
  destruct (IH b1 Hb1) as (b2 & Hr & Hf2 & Hc2 & Hm2 & Hb2). rewrite Hc, Hf in *.
  destruct (queue_step (capacity_frames b) (frames b) op) as [q o]. cbn in *. rewrite Hr. cbn.
  destruct (queue_run (capacity_frames b) q ops) as [q' os]. cbn in *.
  exists b2. split_and!; [done..|congruence|congruence|done].
Qed.

(** ** Sample accounting *)

Definition moves_samples (op : Op) : bool :=
  match op with OpPush _ | OpPop => true | _ => false end.

(** Everything written was read or is still queued. *)
Definition balanced (b : AudioBuffer) : Prop :=
  samples_written_total (stats b)
  = wrap 64 (samples_read_total (stats b) + total (channels (format b)) (frames b)).

Lemma step_balanced b op b' o :
  buffer_ok b -> balanced b -> moves_samples op = true -> step b op = Some (b', o) -> balanced b'.
Proof.
  intros [Hch _ _ _ _] Hb Hm Hs. unfold balanced in *. destruct op as [f| | |]; try done; cbn in Hs.
  - unfold push in Hs. destruct (_ <=? _)%nat; [by simplify_eq/=|].
    rewrite sample_count_some in Hs by done. simplify_eq/=.
    rewrite Hb, total_app, !wrap_add_l, total_cons, total_nil. f_equal. lia.
  - unfold pop in Hs. destruct (frames b) as [|f fs] eqn:E; [simplify_eq/=; by rewrite E|].
    rewrite sample_count_some in Hs by done. simplify_eq/=. cbn in Hb.
    rewrite Hb, wrap_add_l, total_cons. f_equal. lia.
Qed.

Lemma run_balanced b ops b' os :
  buffer_ok b -> balanced b -> Forall (fun op => moves_samples op = true) ops ->
  run_ops b ops = Some (b', os) -> balanced b'.
Proof.
  intros Hok Hb Hops. revert b os Hok Hb.
  induction Hops as [|op ops Hop _ IH]; intros b os Hok Hb Hr; cbn in Hr; [by simplify_eq|].
  destruct (step_refines b op Hok) as (b1 & Hs & _ & _ & _ & Hok1). rewrite Hs in Hr. cbn in Hr.
  destruct (run_ops b1 ops) as [[b2 os2]|] eqn:E; simplify_eq/=.
  eapply (IH b1); eauto using step_balanced.
Qed.

(** ** Capacity *)

Lemma new_capacity f ms :
  format_ok f -> Z.of_nat (capacity_frames (new f ms)) < 2 ^ 32.
Proof.
  intros (_ & _ & Hf). unfold in_width in Hf. cbn [new capacity_frames].
  set (n := wrap 32 _). assert (Hn : 0 <= n < 2 ^ 32) by (apply wrap_bound; lia).
  destruct (Z.ltb_spec 0 (frames_per_packet f)) as [Hp|]; [|lia].
  assert (n / frames_per_packet f <= n) by (apply Z.div_le_upper_bound; nia). lia.
Qed.

(** The millisecond budget a capacity stands for. *)
Lemma capacity_budget f ms :
  0 < frames_per_packet f -> in_width 32 (as_hz (sample_rate f) / 1000 * ms) ->
  frames_per_packet f <= as_hz (sample_rate f) / 1000 * ms ->
  Z.of_nat (capacity_frames (new f ms)) * frames_per_packet f
  <= as_hz (sample_rate f) / 1000 * ms.
Proof.
  intros Hp Hw Hfit. cbn [new capacity_frames]. rewrite wrap_id by done.
  set (n := as_hz (sample_rate f) / 1000 * ms) in *.
  destruct (Z.ltb_spec 0 (frames_per_packet f)); [|lia].
  pose proof (Z.div_mod n (frames_per_packet f) ltac:(lia)).
  pose proof (Z.mod_pos_bound n (frames_per_packet f) ltac:(lia)).
  assert (1 <= n / frames_per_packet f) by (apply Z.div_le_lower_bound; lia). nia.
Qed.

Lemma f32_min_one_le x : f32_leb (f32_min x f32_one) f32_one = true.
Proof.
  unfold f32_min. destruct (f32_is_nan x) eqn:Hx; [reflexivity|]. cbn.
  destruct (f32_ltb f32_one x) eqn:E; [reflexivity|]. by apply f32_not_lt_le.
Qed.

(** ** Theorems *)

Definition after (f : AudioFormat) (ms : Z) (ops : list Op) : option (AudioBuffer * list Out) :=
  run_ops (new f ms) ops.

(** The ring buffer is a bounded FIFO.  Whatever sequence of pushes, pops,
    clears and flushes runs on a fresh buffer, it never panics, its answers are
    those of the abstract queue of the same capacity, its content is that
    queue's content, and the capacity (at least one frame) is never exceeded. *)
Theorem buffer_is_bounded_fifo f ms ops :
  channels f <> 0 ->
  exists b, after f ms ops = Some (b, (queue_run (capacity (new f ms)) [] ops).2)
    /\ frames b = (queue_run (capacity (new f ms)) [] ops).1
    /\ (1 <= capacity b)%nat /\ (len b <= capacity b)%nat.
Proof.
  intros H. destruct (run_refines (new f ms) ops (new_ok f ms H)) as (b & Hr & Hf & Hc & _ & Hb).
  exists b. split_and!; [done..|apply Hb|apply Hb].
Qed.

Definition demo_frame (t : Z) : AudioFrame := {| samples := [1; 2; 3; 4]; timestamp := t |}.
Definition demo_ops : list Op :=
  [OpPush (demo_frame 0); OpPop; OpPop; OpPush (demo_frame 2); OpPush (demo_frame 4); OpFlush].

Lemma buffer_is_bounded_fifo_witness :
  exists b, after default_format 0 demo_ops = Some (b,
    [OutPush (Ok tt); OutPop (Some (demo_frame 0)); OutPop None; OutPush (Ok tt);
     OutPush (Err Overflow); OutFlush [demo_frame 2]]) /\ frames b = [].
Proof.
  destruct (buffer_is_bounded_fifo default_format 0 demo_ops) as (b & H & Hf & _);
    [discriminate|].
  exists b. split; [exact H|exact Hf].
Defined.

(** The shared counters tell the truth.  After any operation sequence the
    diagnostics report the exact number of queued frames and their sample
    total, a fill ratio of at most one, and, as long as frames only enter by
    [push] and leave by [pop], everything written was read or is queued. *)
Theorem buffer_diagnostics_truthful f ms ops hz b outs :
  channels f <> 0 -> format_ok f -> after f ms ops = Some (b, outs) ->
  let d := diagnostics b hz in
  ss_queued_frames d = Z.of_nat (len b)
  /\ ss_capacity_frames d = Z.of_nat (capacity b)
  /\ ss_queued_samples_per_channel d = wrap 64 (total (channels f) (frames b))
  /\ f32_leb (ss_fill_ratio d) f32_one = true
  /\ (Forall (fun op => moves_samples op = true) ops ->
      ss_samples_written_total d
      = wrap 64 (ss_samples_read_total d + total (channels f) (frames b))).
Proof.
  intros Hch Hf Hr. destruct (run_refines (new f ms) ops (new_ok f ms Hch))
    as (b' & Hr' & _ & Hc & Hm & Hb). unfold after in Hr.
  assert (b' = b) as -> by congruence.
  pose proof (new_capacity f ms Hf) as Hcap. pose proof (bo_bounded b Hb) as Hlen.
  assert (Hw : forall n, (n <= capacity_frames b)%nat -> wrap 32 (Z.of_nat n) = Z.of_nat n)
    by (intros n Hn; apply wrap_id; unfold in_width; lia).
  cbn. rewrite (bo_frames b Hb), (bo_samples b Hb), Hm, !Hw by lia. split_and!; try done.
  - unfold fill_ratio. destruct (_ =? 0); [reflexivity|apply f32_min_one_le].
  - intros Hops. change (channels f) with (channels (format (new f ms))). rewrite <- Hm.
    eapply (run_balanced (new f ms)); eauto using new_ok. reflexivity.
Qed.

Lemma buffer_diagnostics_truthful_witness :
  exists b outs, after default_format 0 [OpPush (demo_frame 0)] = Some (b, outs)
    /\ ss_queued_frames (diagnostics b 44100) = Z.of_nat (len b).
Proof.
  destruct (after default_format 0 [OpPush (demo_frame 0)]) as [[b outs]|] eqn:E.
  - exists b, outs. split; [reflexivity|].
    refine (proj1 (buffer_diagnostics_truthful _ _ _ 44100 _ _ _ _ E)).
    + discriminate.
    + repeat split; unfold in_width; cbn; lia.
  - vm_compute in E. discriminate E.
Defined.

(** The reported buffered duration is exact and never exceeds the
    configured capacity, up to capacities of 89.478 seconds; beyond that the
    32-bit product [samples * 1000] could wrap.  (The capacity must hold one
    packet, otherwise it is rounded up.) *)
Theorem buffered_ms_within_capacity f ms ops b outs :
  channels f <> 0 -> 0 <= ms <= 89478 -> 0 < frames_per_packet f ->
  frames_per_packet f <= as_hz (sample_rate f) / 1000 * ms ->
  after f ms ops = Some (b, outs) ->
  buffered_ms b
  = Z.of_nat (len b) * frames_per_packet f * 1000 / as_hz (sample_rate f)
  /\ buffered_ms b <= ms.
Proof.
  intros Hch Hms Hp Hfit Hr. destruct (run_refines (new f ms) ops (new_ok f ms Hch))
    as (b' & Hr' & _ & Hc & Hm & Hb). unfold after in Hr.
  assert (b' = b) as -> by congruence. pose proof (bo_bounded b Hb) as Hlen.
  assert (Hrate : as_hz (sample_rate f) / 1000 * 1000 <= as_hz (sample_rate f)
    /\ 0 < as_hz (sample_rate f) / 1000 <= 48 /\ 0 < as_hz (sample_rate f))
    by (destruct (sample_rate f); vm_compute; intuition discriminate).
  destruct Hrate as (Hr1 & Hr2 & Hr3). set (spm := as_hz (sample_rate f) / 1000) in *.
  pose proof (capacity_budget f ms Hp) as Hbud. fold spm in Hbud.
  specialize (Hbud ltac:(unfold in_width; nia) Hfit). rewrite <- Hc in Hbud.
  unfold buffered_ms. rewrite Hm. cbn [format new].
  destruct (Z.eqb_spec (as_hz (sample_rate f)) 0) as [|_]; [lia|].
  set (n := Z.of_nat (length (frames b))) in *.
  assert (Hn : 0 <= n <= Z.of_nat (capacity_frames b)) by (unfold n; lia).
  assert (Hnf : n * frames_per_packet f <= 48 * 89478) by nia.
  rewrite (wrap_id 32 n) by (unfold in_width; nia).
  rewrite (wrap_id 32 (n * _)) by (unfold in_width; nia).
  rewrite wrap_id by (unfold in_width; nia). split; [done|].
  apply Z.div_le_upper_bound; [lia|]. nia.
Qed.

Lemma buffered_ms_within_capacity_witness :
  exists b outs, after default_format 100 [OpPush (demo_frame 0)] = Some (b, outs)
    /\ buffered_ms b <= 100.
Proof.
  destruct (after default_format 100 [OpPush (demo_frame 0)]) as [[b outs]|] eqn:E.
  - exists b, outs. split; [reflexivity|].
    refine (proj2 (buffered_ms_within_capacity _ _ _ _ _ _ _ _ _ E)).
    + discriminate.
    + lia.
    + reflexivity.
    + vm_compute. discriminate.
  - vm_compute in E. discriminate E.
Defined.

End Buffer.
