(* ===== verification/Jitter.v ===== *)
(** * Ring buffers and jitter statistics

    Fixed-size rings in general, and the scheduler's jitter ring. *)

From S2P Require Import Prelude.

(** ** Fixed-size ring buffers

    The pattern shared by the packet history and the jitter statistics: the
    [i]-th element ever written goes to slot [i mod cap], so the slots always
    hold the last [cap] elements. *)

Section Ring.
Context {A : Type} (cap : nat).
Context (cap_pos : (0 < cap)%nat).

Lemma slots_differ i n :
  (i < n)%nat -> (n < i + cap)%nat -> (i mod cap)%nat <> (n mod cap)%nat.
Proof.
  intros Hi Hn E. pose proof (Nat.div_mod_eq i cap) as Ei. pose proof (Nat.div_mod_eq n cap) as En.
  rewrite E in Ei. destruct (Nat.lt_trichotomy (n / cap) (i / cap)) as [H|[H|H]]; [nia| |nia].
  rewrite H in En. lia.
Qed.

(** Which element a slot holds once it was written. *)
Lemma slot_owner n j :
  (j < cap)%nat -> (j < n)%nat ->
  exists i, (i < n)%nat /\ (n <= i + cap)%nat /\ (i mod cap)%nat = j.
Proof.
  intros Hj Hn.
  pose proof (Nat.div_mod_eq (n - 1 - j) cap) as E.
  pose proof (Nat.mod_upper_bound (n - 1 - j) cap ltac:(lia)).
  exists (j + (n - 1 - j) / cap * cap)%nat. split_and!; [lia|lia|].
  rewrite Nat.Div0.mod_add. by apply Nat.mod_small.
Qed.

(** [slots] holds the last [cap] elements of the sequence [xs] written to it. *)
Record ring_holds (slots xs : list A) : Prop := {
  rh_length : length slots = cap;
  rh_recent : forall i x, xs !! i = Some x -> (length xs <= i + cap)%nat ->
    slots !! (i mod cap)%nat = Some x;
}.

Lemma ring_push slots xs x :
  ring_holds slots xs -> ring_holds (<[(length xs mod cap)%nat := x]> slots) (xs ++ [x]).
Proof.
  intros [Hl Hr].
  assert (Hm : (length xs mod cap < cap)%nat) by (apply Nat.mod_upper_bound; lia).
  constructor; [by rewrite length_insert|].
  intros i y Hi Hlen. rewrite length_app in Hlen. cbn [length] in Hlen.
  apply lookup_app_Some in Hi as [Hi|[Hge Hi]].
  - pose proof (lookup_lt_Some _ _ _ Hi). rewrite list_lookup_insert_ne.
    + apply Hr; [done|lia].
    + intros Heq. apply (slots_differ i (length xs)); [lia|lia|exact (eq_sym Heq)].
  - apply list_lookup_singleton_Some in Hi as [Hz ->].
    replace i with (length xs) by lia. apply list_lookup_insert_eq. lia.
Qed.

(** Reading the slots from the oldest to the newest gives the last elements. *)
Lemma ring_window slots xs (d : A) :
  ring_holds slots xs ->
  let n := Nat.min (length xs) cap in
  (fun k => default d (slots !! ((length xs - n + k) mod cap)%nat)) <$> seq 0 n
  = drop (length xs - n) xs.
Proof.
  intros [Hl Hr]. cbv zeta. set (n := Nat.min (length xs) cap).
  apply list_eq. intros k. rewrite list_lookup_fmap, lookup_drop.
  destruct (decide (k < n)%nat) as [Hk|Hk].
  - rewrite lookup_seq_lt by done. cbn.
    destruct (lookup_lt_is_Some_2 xs (length xs - n + k)) as [x Hx]; [lia|].
    rewrite Hx. rewrite (Hr (length xs - n + k)%nat x Hx) by lia. done.
  - rewrite lookup_seq_ge by lia. symmetry. apply lookup_ge_None_2. lia.
Qed.
End Ring.

(** ** Scheduler jitter statistics

    [SchedulerJitterRecorder] of [crates/airplay-audio/src/diagnostics.rs]: a
    ring of the last 1024 absolute jitter samples and the statistics a
    snapshot derives from it.  The atomics are touched by a single producer;
    the model is its sequence of recordings, with counters at their width. *)
Module Jitter.

Definition SCHEDULER_JITTER_RING_CAPACITY : nat := 1024.
Notation CAP := SCHEDULER_JITTER_RING_CAPACITY (only parsing).

Record SchedulerJitterRing := {
  absolute_ns : list Z;
  write_index : Z;
  event_count : Z;
  jitter_count : Z;
  last_signed_ns : Z;
  deadline_resets_total : Z;
}.
#[export] Instance eta_SchedulerJitterRing : Eta SchedulerJitterRing := fun r =>
  {| absolute_ns := absolute_ns r; write_index := write_index r; event_count := event_count r;
     jitter_count := jitter_count r; last_signed_ns := last_signed_ns r;
     deadline_resets_total := deadline_resets_total r |}.

Definition new_ring : SchedulerJitterRing :=
  {| absolute_ns := replicate CAP 0; write_index := 0; event_count := 0; jitter_count := 0;
     last_signed_ns := 0; deadline_resets_total := 0 |}.

Definition record_jitter (r : SchedulerJitterRing) (signed_ns : Z) : SchedulerJitterRing :=
  let slot := Z.to_nat (write_index r mod Z.of_nat CAP) in
  r <| write_index := u64_succ (write_index r) |>
    <| absolute_ns := <[slot := Z.abs signed_ns]> (absolute_ns r) |>
    <| last_signed_ns := signed_ns |>
    <| jitter_count := u64_succ (jitter_count r) |>
    <| event_count := u64_succ (event_count r) |>.

Definition record_deadline_reset (r : SchedulerJitterRing) : SchedulerJitterRing :=
  r <| deadline_resets_total := u64_succ (deadline_resets_total r) |>
    <| event_count := u64_succ (event_count r) |>.

Record SchedulerJitterSnapshot := {
  js_sample_count : Z;
  js_last_signed : option Z;
  js_mean : option Z;
  js_p95 : option Z;
  js_max : option Z;
  js_deadline_resets : Z;
}.

(** [(19 * valid).div_ceil(20)] *)
Definition p95_rank (n : nat) : nat := ((19 * n + 19) / 20)%nat.

(** The statistics of the collected samples, in whatever order. *)
Definition statistics (samples : list Z) : option Z * option Z * option Z :=
  let sorted := isort Z.leb samples in
  match sorted with
  | [] => (None, None, None)
  | _ =>
      (Some (wrap 64 (foldr Z.add 0 sorted / Z.of_nat (length sorted))),
       sorted !! (p95_rank (length sorted) - 1)%nat, last sorted)
  end.

(** The samples the loop of [snapshot] reads out of the ring. *)
Definition collected (r : SchedulerJitterRing) : list Z :=
  let valid := Z.to_nat (Z.min (jitter_count r) (Z.of_nat CAP)) in
  let start := wrap 64 (write_index r + Z.of_nat CAP - Z.of_nat valid) in
  (fun k => default 0 (absolute_ns r !! Z.to_nat (wrap 64 (start + Z.of_nat k) mod Z.of_nat CAP)))
  <$> seq 0 valid.

Definition snapshot (r : SchedulerJitterRing) : SchedulerJitterSnapshot :=
  let '(mean, p95, max) := statistics (collected r) in
  {| js_sample_count := event_count r;
     js_last_signed := if 0 <? jitter_count r then Some (last_signed_ns r) else None;
     js_mean := mean; js_p95 := p95; js_max := max;
     js_deadline_resets := deadline_resets_total r |}.

(** ** Recorded histories *)

Inductive Recording := Jittered (signed_ns : Z) | DeadlineReset.

Definition record (r : SchedulerJitterRing) (e : Recording) : SchedulerJitterRing :=
  match e with Jittered ns => record_jitter r ns | DeadlineReset => record_deadline_reset r end.

Definition jitters (es : list Recording) : list Z :=
  omap (fun e => match e with Jittered ns => Some ns | DeadlineReset => None end) es.

Definition resets (es : list Recording) : nat := (length es - length (jitters es))%nat.

(** What the statistics should cover: the most recent 1024 magnitudes. *)
Definition recent (es : list Recording) : list Z :=
  let xs := Z.abs <$> jitters es in drop (length xs - Nat.min (length xs) CAP) xs.

Record ring_ok (es : list Recording) (r : SchedulerJitterRing) : Prop := {
  ro_slots : ring_holds CAP (absolute_ns r) (Z.abs <$> jitters es);
  ro_index : write_index r = Z.of_nat (length (jitters es));
  ro_count : jitter_count r = Z.of_nat (length (jitters es));
  ro_events : event_count r = Z.of_nat (length es);
  ro_resets : deadline_resets_total r = Z.of_nat (resets es);
  ro_last : forall ns, last (jitters es) = Some ns -> last_signed_ns r = ns;
}.

Lemma jitters_length es : (length (jitters es) <= length es)%nat.
Proof. unfold jitters. induction es as [|[] es IH]; cbn; lia. Qed.

Lemma jitters_snoc es e : jitters (es ++ [e]) = jitters es ++ jitters [e].
Proof. apply omap_app. Qed.

Lemma slot_of_nat n : Z.to_nat (Z.of_nat n mod Z.of_nat CAP) = (n mod CAP)%nat.
Proof. rewrite <- Nat2Z.inj_mod. apply Nat2Z.id. Qed.

Lemma record_ok es r e :
  Z.of_nat (length es) + 1 < 2 ^ 64 -> ring_ok es r -> ring_ok (es ++ [e]) (record r e).
Proof.
  intros Hb [Hs Hi Hc He Hr Hl]. pose proof (jitters_length es).
  assert (Hsucc : forall n, (n <= length es)%nat -> u64_succ (Z.of_nat n) = Z.of_nat (S n))
    by (intros n Hn; rewrite u64_succ_no_overflow; lia).
  unfold resets in *.
  destruct e as [ns|]; constructor; unfold resets; cbn -[u64_succ Z.of_nat Nat.modulo SCHEDULER_JITTER_RING_CAPACITY];
    rewrite ?jitters_snoc; cbn [jitters omap list_omap];
    rewrite ?app_nil_r, ?length_app; cbn [length]; rewrite ?Hi, ?Hc, ?He, ?Hr, ?Hsucc by lia;
    try done; try lia.
  - rewrite fmap_app, slot_of_nat. cbn [fmap list_fmap].
    rewrite <- (length_fmap Z.abs (jitters es)). apply ring_push; [vm_compute; lia|done].
  - intros x. rewrite last_snoc. by intros [= ->].
Qed.

Lemma new_ring_ok : ring_ok [] new_ring.
Proof. by constructor. Qed.

Lemma record_all_ok es :
  Z.of_nat (length es) < 2 ^ 64 -> ring_ok es (fold_left record es new_ring).
Proof.
  induction es as [|e es IH] using rev_ind; intros Hb; [apply new_ring_ok|].
  rewrite length_app in Hb. cbn [length] in Hb. rewrite fold_left_app. cbn [fold_left].
  apply record_ok; [lia|]. apply IH. lia.
Qed.

Lemma collected_recent es r :
  ring_ok es r -> Z.of_nat (length es) + 1024 < 2 ^ 64 -> collected r = recent es.
Proof.
  intros [Hs Hi Hc _ _ _] Hb. pose proof (jitters_length es). unfold collected, recent.
  rewrite Hi, Hc, length_fmap. set (n := length (jitters es)) in *.
  assert (Hcap : (0 < CAP)%nat) by (vm_compute; lia).
  assert (HC : Z.of_nat CAP = 1024) by reflexivity.
  replace (Z.to_nat (Z.min (Z.of_nat n) (Z.of_nat CAP))) with (Nat.min n CAP) by lia.
  pose proof (ring_window CAP Hcap _ _ 0 Hs) as Hw. cbv zeta in Hw. rewrite length_fmap in Hw.
  fold n in Hw. rewrite <- Hw. apply list_fmap_ext. intros i k Hk.
  apply lookup_seq in Hk as [-> Hk]. f_equal. f_equal.
  rewrite (wrap_id 64 (Z.of_nat n + _ - _)) by (unfold in_width; lia).
  rewrite wrap_id by (unfold in_width; lia).
  replace (Z.of_nat n + Z.of_nat CAP - Z.of_nat (Nat.min n CAP) + Z.of_nat (0 + i))
    with (Z.of_nat (n - Nat.min n CAP + i) + 1 * Z.of_nat CAP) by lia.
  rewrite Z.mod_add by (rewrite HC; done). apply slot_of_nat.
Qed.

(** ** The claimed order statistics *)

Lemma p95_rank_bounds n :
  (0 < n)%nat -> (1 <= p95_rank n <= n)%nat /\ (19 * n <= 20 * p95_rank n < 19 * n + 20)%nat.
Proof.
  intros Hn. unfold p95_rank. pose proof (Nat.div_mod_eq (19 * n + 19) 20).
  pose proof (Nat.mod_upper_bound (19 * n + 19) 20 ltac:(done)). lia.
Qed.

Lemma sorted_prefix_le (l : list Z) k x :
  StronglySorted Z.le l -> l !! k = Some x ->
  Forall (fun y => y <= x) (take (S k) l) /\ Forall (fun y => x <= y) (drop k l).
Proof.
  intros Hs. revert k; induction Hs as [|y l Hs IH Hy]; intros k; [done|].
  destruct k as [|k]; cbn; intros Hk.
  - injection Hk as ->. split; [by repeat constructor|]. constructor; [lia|done].
  - destruct (IH k Hk) as [H1 H2]. split; [|done]. constructor; [|done].
    rewrite Forall_forall in Hy. apply Hy. by eapply list_elem_of_lookup_2.
Qed.

Lemma isort_Z_sorted l : StronglySorted Z.le (isort Z.leb l).
Proof.
  assert (H : sorted_by Z.leb (isort Z.leb l)).
  { apply isort_sorted.
    - intros x y. destruct (Z.leb_spec x y), (Z.leb_spec y x); auto; lia.
    - intros x y z. rewrite !Z.leb_le. lia. }
  unfold sorted_by in H. induction H as [|x l' _ IH Hx]; constructor; [done|].
  eapply Forall_impl; [exact Hx|]. intros y. apply Z.leb_le.
Qed.

Lemma p95_split samples x :
  Some x = (statistics samples).1.2 ->
  exists low high, low ++ high ≡ₚ samples /\ length low = p95_rank (length samples)
    /\ Forall (fun y => y <= x) low /\ Forall (fun y => x <= y) high.
Proof.
  unfold statistics. set (l := isort Z.leb samples).
  assert (Hp : l ≡ₚ samples) by apply isort_perm.
  assert (Hs : StronglySorted Z.le l) by apply isort_Z_sorted. rewrite <- (Permutation_length Hp).
  destruct l as [|y l'] eqn:E; [done|]. rewrite <- E in *. cbn [fst snd]. intros Hx. symmetry in Hx.
  assert (Hn : (0 < length l)%nat) by (rewrite E; cbn; lia).
  pose proof (p95_rank_bounds (length l) Hn) as [Hk _].
  destruct (sorted_prefix_le l (p95_rank (length l) - 1) x Hs Hx) as [H1 H2].
  replace (S (p95_rank (length l) - 1)) with (p95_rank (length l)) in H1 by lia.
  exists (take (p95_rank (length l)) l), (drop (p95_rank (length l)) l).
  split_and!; [by rewrite take_drop|rewrite length_take; lia|done|].
  replace (p95_rank (length l)) with (1 + (p95_rank (length l) - 1))%nat by lia.
  rewrite Nat.add_comm, <- drop_drop. by apply Forall_drop.
Qed.

(** The jitter snapshot reports true statistics of exactly the most recent
    (at most 1024) samples: it counts every recorded event, and the 95th
    percentile is a value [x] of a sorted arrangement of those samples such
    that the [ceil (0.95 n)] smallest are at most [x] and the others at least
    [x]. *)
Theorem jitter_snapshot_covers_recent_samples es :
  Z.of_nat (length es) + 1024 < 2 ^ 64 ->
  let s := snapshot (fold_left record es new_ring) in
  (js_mean s, js_p95 s, js_max s) = statistics (recent es)
  /\ js_sample_count s = Z.of_nat (length es)
  /\ js_deadline_resets s = Z.of_nat (resets es)
  /\ js_last_signed s = last (jitters es)
  /\ (forall x, js_p95 s = Some x ->
      exists low high, low ++ high ≡ₚ recent es
        /\ length low = p95_rank (length (recent es))
        /\ Forall (fun y => y <= x) low /\ Forall (fun y => x <= y) high).
Proof.
  intros Hb. cbv zeta. set (r := fold_left record es new_ring).
  assert (Hr : ring_ok es r) by (apply record_all_ok; lia).
  pose proof (collected_recent es r Hr Hb) as Hc.
  assert (E : (js_mean (snapshot r), js_p95 (snapshot r), js_max (snapshot r))
    = statistics (recent es)).
  { unfold snapshot. rewrite Hc. by destruct (statistics (recent es)) as [[? ?] ?]. }
  assert (E' : js_sample_count (snapshot r) = event_count r
    /\ js_deadline_resets (snapshot r) = deadline_resets_total r
    /\ js_last_signed (snapshot r) = if 0 <? jitter_count r then Some (last_signed_ns r) else None)
    by (unfold snapshot; by destruct (statistics (collected r)) as [[? ?] ?]).
  destruct E' as (-> & -> & ->).
  destruct Hr as [_ _ Hcount Hev Hres Hlast]. split_and!; [done..| |].
  - rewrite Hcount. destruct (last (jitters es)) as [x|] eqn:El.
    + rewrite (Hlast x) by done. destruct (jitters es); [done|]. cbn [length].
      by destruct (Z.ltb_spec 0 (Z.of_nat (S (length l)))); [|lia].
    + apply last_None in El. by rewrite El.
  - intros x Hx. assert (Ep : Some x = (statistics (recent es)).1.2) by (rewrite <- E, <- Hx; done).
    by apply p95_split.
Qed.

Lemma jitter_snapshot_covers_recent_samples_witness :
  js_last_signed (snapshot (fold_left record [Jittered (-5); DeadlineReset; Jittered 9] new_ring))
  = Some 9.
Proof.
  apply (jitter_snapshot_covers_recent_samples [Jittered (-5); DeadlineReset; Jittered 9]).
  reflexivity.
Defined.

End Jitter.
