(* ===== verification/Rtp.v ===== *)
(** * RTP packets

    [crates/airplay-audio/src/rtp.rs], the wire formats: the 12-byte header,
    plain and encrypted packets, retransmit requests and responses.  Bytes are
    [Z]s, multi-byte fields big-endian.  An array access the source performs
    after a length check is a [match] on the list that the check makes total. *)

From S2P Require Import Prelude.

Module Rtp.

(** [mod payload_types] *)
Definition TIMING_REQUEST : Z := 82.
Definition TIMING_RESPONSE : Z := 83.
Definition SYNC : Z := 84.
Definition RETRANSMIT_REQUEST : Z := 85.
Definition RETRANSMIT_RESPONSE : Z := 86.
Definition PTP_SYNC : Z := 87.
Definition AUDIO_REALTIME : Z := 96.
Definition AUDIO_BUFFERED : Z := 103.

Record RtpHeader := {
  version : Z;
  padding : bool;
  extension : bool;
  csrc_count : Z;
  marker : bool;
  payload_type : Z;
  sequence : Z;
  timestamp : Z;
  ssrc : Z;
}.
#[export] Instance eta_RtpHeader : Eta RtpHeader := fun h =>
  {| version := version h; padding := padding h; extension := extension h;
     csrc_count := csrc_count h; marker := marker h; payload_type := payload_type h;
     sequence := sequence h; timestamp := timestamp h; ssrc := ssrc h |}.

(** [RtpHeader::new] *)
Definition new_header (payload_type sequence timestamp ssrc : Z) : RtpHeader :=
  {| version := 2; padding := false; extension := false; csrc_count := 0; marker := false;
     payload_type := payload_type; sequence := sequence; timestamp := timestamp;
     ssrc := ssrc |}.
Definition with_marker (h : RtpHeader) (m : bool) : RtpHeader := h <| marker := m |>.
Definition with_extension (h : RtpHeader) (x : bool) : RtpHeader := h <| extension := x |>.

(** [bool as u8] *)
Definition b2u8 (b : bool) : Z := if b then 1 else 0.

(** Byte 0: V(2) P(1) X(1) CC(4); byte 1: M(1) PT(7).  [version << 6] is a
    [u8] shift and drops the high bits. *)
Definition header_byte0 (v : Z) (p x : bool) (cc : Z) : Z :=
  Z.lor (Z.lor (Z.lor (wrap 8 (Z.shiftl v 6)) (Z.shiftl (b2u8 p) 5)) (Z.shiftl (b2u8 x) 4))
    (Z.land cc 0x0F).
Definition header_byte1 (m : bool) (pt : Z) : Z :=
  Z.lor (Z.shiftl (b2u8 m) 7) (Z.land pt 0x7F).

Definition serialize_header (h : RtpHeader) : list Z :=
  [header_byte0 (version h) (padding h) (extension h) (csrc_count h);
   header_byte1 (marker h) (payload_type h)]
  ++ to_be_bytes 2 (sequence h) ++ to_be_bytes 4 (timestamp h) ++ to_be_bytes 4 (ssrc h).

Inductive ParseError :=
| HeaderTooShort | PacketTooShort | EncryptedTooShort | RequestTooShort
| UnexpectedPayloadType (got : Z).

Definition bit_set (b n : Z) : bool := negb (Z.land (Z.shiftr b n) 0x01 =? 0).

Definition parse_header (data : list Z) : Result RtpHeader ParseError :=
  match data with
  | d0 :: d1 :: d2 :: d3 :: d4 :: d5 :: d6 :: d7 :: d8 :: d9 :: d10 :: d11 :: _ =>
      Ok {| version := Z.land (Z.shiftr d0 6) 0x03;
            padding := bit_set d0 5;
            extension := bit_set d0 4;
            csrc_count := Z.land d0 0x0F;
            marker := bit_set d1 7;
            payload_type := Z.land d1 0x7F;
            sequence := from_be_bytes [d2; d3];
            timestamp := from_be_bytes [d4; d5; d6; d7];
            ssrc := from_be_bytes [d8; d9; d10; d11] |}
  | _ => Err HeaderTooShort
  end.

Record RtpPacket := {
  header : RtpHeader;
  payload : list Z;
  nonce : option (list Z);
  tag : option (list Z);
}.

Definition new_packet (h : RtpHeader) (payload : list Z) : RtpPacket :=
  {| header := h; payload := payload; nonce := None; tag := None |}.

(** The trailer: tag, then nonce. *)
Definition trailer (tag nonce : option (list Z)) : list Z := default [] tag ++ default [] nonce.

Definition serialize_packet (p : RtpPacket) : list Z :=
  serialize_header (header p) ++ payload p ++ trailer (tag p) (nonce p).

Definition parse_packet (data : list Z) : Result RtpPacket ParseError :=
  if (length data <? 12)%nat then Err PacketTooShort
  else
    let? h := parse_header data in
    Ok {| header := h; payload := drop 12 data; nonce := None; tag := None |}.

Definition parse_encrypted (data : list Z) : Result RtpPacket ParseError :=
  if (length data <? 36)%nat then Err EncryptedTooShort
  else
    let? h := parse_header data in
    let trailer_start := (length data - 24)%nat in
    Ok {| header := h;
          payload := drop 12 (take trailer_start data);
          nonce := Some (drop (trailer_start + 16) data);
          tag := Some (take 16 (drop trailer_start data)) |}.

Definition size (p : RtpPacket) : nat :=
  (12 + length (payload p) + (if is_none (nonce p) then 0 else 8)
   + (if is_none (tag p) then 0 else 16))%nat.

Record RetransmitRequest := { first_sequence : Z; req_count : Z }.

Definition parse_request (data : list Z) : Result RetransmitRequest ParseError :=
  match data with
  | _ :: d1 :: _ :: _ :: _ :: _ :: _ :: _ :: d8 :: d9 :: d10 :: d11 :: _ =>
      let payload_type := Z.land d1 0x7F in
      if negb (payload_type =? RETRANSMIT_REQUEST) then Err (UnexpectedPayloadType payload_type)
      else Ok {| first_sequence := from_be_bytes [d8; d9]; req_count := from_be_bytes [d10; d11] |}
  | _ => Err RequestTooShort
  end.

Definition build_retransmit_response (original_packet : list Z) : list Z :=
  [0x80; Z.lor 0x80 RETRANSMIT_RESPONSE]
  ++ match original_packet with
     | _ :: _ :: d2 :: d3 :: _ => [d2; d3]
     | _ => [0; 0]
     end
  ++ original_packet.

(** ** Field bytes *)

(** Fields at their Rust width; the two sub-byte fields at their wire width. *)
Record header_ok (h : RtpHeader) : Prop := {
  ho_version : in_width 2 (version h);
  ho_csrc : in_width 4 (csrc_count h);
  ho_type : in_width 7 (payload_type h);
  ho_sequence : in_width 16 (sequence h);
  ho_timestamp : in_width 32 (timestamp h);
  ho_ssrc : in_width 32 (ssrc h);
}.

Definition byte0_reads_back (v : Z) (p x : bool) (cc : Z) : bool :=
  let b := header_byte0 v p x cc in
  (Z.land (Z.shiftr b 6) 0x03 =? v) && eqb (bit_set b 5) p && eqb (bit_set b 4) x
  && (Z.land b 0x0F =? cc) && (0 <=? b) && (b <? 256).

Definition byte1_reads_back (m : bool) (pt : Z) : bool :=
  let b := header_byte1 m pt in
  eqb (bit_set b 7) m && (Z.land b 0x7F =? pt) && (0 <=? b) && (b <? 256).

(** The bit packing is checked on all 256 contents of each byte. *)
Lemma byte0_exhaustive :
  forallb (fun v => forallb (fun cc =>
    forallb (fun p => forallb (fun x => byte0_reads_back v p x cc) [true; false]) [true; false])
    (seqZ 0 16)) (seqZ 0 4) = true.
Proof. vm_compute. reflexivity. Qed.

Lemma byte1_exhaustive :
  forallb (fun pt => forallb (fun m => byte1_reads_back m pt) [true; false]) (seqZ 0 128) = true.
Proof. vm_compute. reflexivity. Qed.

Lemma forallb_seqZ (f : Z -> bool) n :
  forallb f (seqZ 0 n) = true -> forall v, 0 <= v < n -> f v = true.
Proof. rewrite forallb_elem. intros H v Hv. apply H, elem_of_seqZ. lia. Qed.

Lemma forallb_bool (f : bool -> bool) :
  forallb f [true; false] = true -> forall b, f b = true.
Proof. cbn. intros H []; bool_simpl; done. Qed.

Lemma byte0_ok v p x cc : in_width 2 v -> in_width 4 cc -> byte0_reads_back v p x cc = true.
Proof.
  intros Hv Hc. pose proof byte0_exhaustive as H.
  apply (forallb_seqZ _ 4) with (v := v) in H; [|exact Hv].
  apply (forallb_seqZ _ 16) with (v := cc) in H; [|exact Hc].
  apply forallb_bool with (b := p) in H. by apply forallb_bool with (b := x) in H.
Qed.

Lemma byte1_ok m pt : in_width 7 pt -> byte1_reads_back m pt = true.
Proof.
  intros Hp. pose proof byte1_exhaustive as H.
  apply (forallb_seqZ _ 128) with (v := pt) in H; [|exact Hp].
  by apply forallb_bool with (b := m) in H.
Qed.

Lemma length_serialize_header h : length (serialize_header h) = 12%nat.
Proof. unfold serialize_header. by rewrite !length_app, !length_to_be_bytes. Qed.

Lemma parse_serialize_header h rest :
  header_ok h -> parse_header (serialize_header h ++ rest) = Ok h.
Proof.
  intros [Hv Hc Ht Hs Hts Hss]. unfold parse_header, serialize_header.
  pose proof (byte0_ok (version h) (padding h) (extension h) (csrc_count h) Hv Hc) as H0.
  pose proof (byte1_ok (marker h) (payload_type h) Ht) as H1.
  unfold byte0_reads_back, byte1_reads_back in *. cbn [app to_be_bytes].
  pose proof (from_to_be_bytes 2 (sequence h) Hs) as E1. cbn [to_be_bytes] in E1.
  pose proof (from_to_be_bytes 4 (timestamp h) Hts) as E2. cbn [to_be_bytes] in E2.
  pose proof (from_to_be_bytes 4 (ssrc h) Hss) as E3. cbn [to_be_bytes] in E3.
  rewrite E1, E2, E3. bool_simpl. rewrite !eqb_true_iff in *.
  destruct h; cbn in *. congruence.
Qed.

(** A packet is well formed when its header is and when tag and nonce are both
    absent or both present at their lengths. *)
Definition packet_ok (p : RtpPacket) : Prop :=
  header_ok (header p)
  /\ match tag p, nonce p with
     | None, None => True
     | Some t, Some n => length t = 16%nat /\ length n = 8%nat
     | _, _ => False
     end.

Definition is_encrypted (p : RtpPacket) : bool := negb (is_none (tag p)).

(** The parser that matches a packet's kind. *)
Definition parse_like (p : RtpPacket) (data : list Z) : Result RtpPacket ParseError :=
  if is_encrypted p then parse_encrypted data else parse_packet data.

Lemma parse_plain p :
  header_ok (header p) -> tag p = None -> nonce p = None ->
  parse_packet (serialize_packet p) = Ok p.
Proof.
  intros Hh Ht Hn. unfold parse_packet, serialize_packet.
  rewrite length_app, length_serialize_header, parse_serialize_header by done.
  destruct (Nat.ltb_spec (12 + length (payload p ++ trailer (tag p) (nonce p))) 12); [lia|].
  cbn [result_bind]. rewrite (drop_app_length' _ _ 12) by (by rewrite length_serialize_header).
  destruct p; cbn in *; subst. by rewrite app_nil_r.
Qed.

Lemma parse_sealed p t n :
  header_ok (header p) -> tag p = Some t -> nonce p = Some n ->
  length t = 16%nat -> length n = 8%nat ->
  parse_encrypted (serialize_packet p) = Ok p.
Proof.
  intros Hh Ht Hn Lt Ln. unfold parse_encrypted, serialize_packet. rewrite Ht, Hn.
  change (trailer (Some t) (Some n)) with (t ++ n).
  assert (L : length (serialize_header (header p) ++ payload p ++ t ++ n)
    = (36 + length (payload p))%nat)
    by (rewrite !length_app, length_serialize_header; lia).
  rewrite L.
  destruct (Nat.ltb_spec (36 + length (payload p)) 36); [lia|].
  rewrite parse_serialize_header by done. cbn [result_bind].
  set (h := serialize_header (header p)).
  assert (Lh : length h = 12%nat) by apply length_serialize_header.
  assert (E1 : take (36 + length (payload p) - 24) (h ++ payload p ++ t ++ n) = h ++ payload p)
    by (rewrite (assoc_L (++)); apply take_app_length'; rewrite length_app; lia).
  assert (E2 : drop (36 + length (payload p) - 24) (h ++ payload p ++ t ++ n) = t ++ n)
    by (rewrite (assoc_L (++)); apply drop_app_length'; rewrite length_app; lia).
  assert (E3 : drop (36 + length (payload p) - 24 + 16) (h ++ payload p ++ t ++ n) = n).
  { rewrite <- drop_drop, E2. by apply drop_app_length'. }
  rewrite E1, E2, E3, (drop_app_length' h), (take_app_length' t) by done.
  destruct p; cbn in *; subst. done.
Qed.

(** Packets survive the wire.  Serializing a well-formed packet, plain or
    sealed with tag and nonce, and parsing it with the parser for its kind
    gives back the packet, and the announced size is the wire length. *)
Theorem rtp_packet_roundtrip p :
  packet_ok p ->
  parse_like p (serialize_packet p) = Ok p /\ length (serialize_packet p) = size p.
Proof.
  intros [Hh Hk]. unfold parse_like, is_encrypted.
  assert (L : length (serialize_packet p)
    = (12 + length (payload p) + length (trailer (tag p) (nonce p)))%nat)
    by (unfold serialize_packet; rewrite !length_app, length_serialize_header; lia).
  rewrite L. unfold size, trailer.
  destruct (tag p) as [t|] eqn:Ht, (nonce p) as [n|] eqn:Hn; try done.
  - destruct Hk as [Lt Ln]. cbn. rewrite length_app. split; [by eapply parse_sealed|lia].
  - cbn. split; [by apply parse_plain|lia].
Qed.

Definition demo_packet : RtpPacket :=
  {| header := with_marker (new_header AUDIO_REALTIME 65535 352 7) true; payload := [1; 2; 3];
     nonce := Some [1; 2; 3; 4; 5; 6; 7; 8]; tag := Some (repeat 9 16) |}.

Lemma rtp_packet_roundtrip_witness :
  parse_encrypted (serialize_packet demo_packet) = Ok demo_packet.
Proof.
  apply (rtp_packet_roundtrip demo_packet).
  split; [|split; reflexivity].
  constructor; (split; [vm_compute; discriminate|vm_compute; reflexivity]).
Defined.

(** ** Retransmit messages *)

Lemma request_parse data :
  parse_request data
  = if (length data <? 12)%nat then Err RequestTooShort
    else
      let pt := Z.land (nth 1 data 0) 0x7F in
      if pt =? RETRANSMIT_REQUEST
      then Ok {| first_sequence := from_be_bytes [nth 8 data 0; nth 9 data 0];
                 req_count := from_be_bytes [nth 10 data 0; nth 11 data 0] |}
      else Err (UnexpectedPayloadType pt).
Proof.
  do 12 (destruct data as [|? data]; [reflexivity|]). cbn. by destruct (_ =? _).
Qed.

(** The sequence number a wire packet carries, as the history lookup reads it. *)
Definition wire_sequence (packet : list Z) : option Z :=
  match packet with _ :: _ :: d2 :: d3 :: _ => Some (from_be_bytes [d2; d3]) | _ => None end.

Lemma wire_sequence_header h rest :
  in_width 16 (sequence h) -> wire_sequence (serialize_header h ++ rest) = Some (sequence h).
Proof.
  intros Hs. pose proof (from_to_be_bytes 2 (sequence h) Hs) as E. cbn [to_be_bytes] in E.
  unfold serialize_header. cbn [app to_be_bytes wire_sequence]. by rewrite E.
Qed.

(** A response announces the sequence number of the packet it carries. *)
Lemma response_sequence packet n :
  wire_sequence packet = Some n ->
  wire_sequence (build_retransmit_response packet) = Some n
  /\ drop 4 (build_retransmit_response packet) = packet
  /\ length (build_retransmit_response packet) = (4 + length packet)%nat.
Proof.
  destruct packet as [|? [|? [|d2 [|d3 rest]]]]; cbn; try discriminate. intros [= <-]. done.
Qed.

End Rtp.
