(* ===== verification/RtpSender.v ===== *)
(** * The RTP sender

    [crates/airplay-audio/src/rtp.rs] ([RtpSender]) and the transport counters
    of [crates/airplay-audio/src/diagnostics.rs].  Sockets are the operating
    system's: an operation that sends threads the list of datagrams handed to
    the system so far, and the system's answer is the parameter [send_to].  A
    cipher ([Box<dyn PacketCipher>]) is the function it implements. *)

From S2P Require Import Prelude Rtp.
Import Rtp.

Module RtpSender.

Record SocketAddr := { host : string; port : Z }.
Inductive Source := DataSocket | ControlSocket.
Record Datagram := { dg_from : Source; dg_to : SocketAddr; dg_bytes : list Z }.

Inductive IoError := SendFailed.
Inductive Error := NotBound | Io (e : IoError) | Crypto.

(** ** Transport counters *)

Record TargetTransportCounters := {
  data_attempted_total : Z;
  data_accepted_local_total : Z;
  data_send_failures_total : Z;
  data_bytes_sent_total : Z;
  sync_attempted_total : Z;
  sync_accepted_local_total : Z;
  sync_send_failures_total : Z;
  sync_bytes_sent_total : Z;
}.
#[export] Instance eta_TargetTransportCounters : Eta TargetTransportCounters := fun c =>
  {| data_attempted_total := data_attempted_total c;
     data_accepted_local_total := data_accepted_local_total c;
     data_send_failures_total := data_send_failures_total c;
     data_bytes_sent_total := data_bytes_sent_total c;
     sync_attempted_total := sync_attempted_total c;
     sync_accepted_local_total := sync_accepted_local_total c;
     sync_send_failures_total := sync_send_failures_total c;
     sync_bytes_sent_total := sync_bytes_sent_total c |}.

Definition new_counters : TargetTransportCounters :=
  {| data_attempted_total := 0; data_accepted_local_total := 0; data_send_failures_total := 0;
     data_bytes_sent_total := 0; sync_attempted_total := 0; sync_accepted_local_total := 0;
     sync_send_failures_total := 0; sync_bytes_sent_total := 0 |}.

Definition bump_data_attempted (c : TargetTransportCounters) : TargetTransportCounters :=
  c <| data_attempted_total := u64_succ (data_attempted_total c) |>.

Definition record_data_outcome (c : TargetTransportCounters) (sent : Result Z IoError)
  : TargetTransportCounters :=
  match sent with
  | Ok len =>
      if 0 <? len
      then c <| data_accepted_local_total := u64_succ (data_accepted_local_total c) |>
             <| data_bytes_sent_total := wrap 64 (data_bytes_sent_total c + len) |>
      else c
  | Err _ => c <| data_send_failures_total := u64_succ (data_send_failures_total c) |>
  end.

Definition bump_sync_attempted (c : TargetTransportCounters) : TargetTransportCounters :=
  c <| sync_attempted_total := u64_succ (sync_attempted_total c) |>.

Definition record_sync_outcome (c : TargetTransportCounters) (sent : Result Z IoError)
  : TargetTransportCounters :=
  match sent with
  | Ok len =>
      if 0 <? len
      then c <| sync_accepted_local_total := u64_succ (sync_accepted_local_total c) |>
             <| sync_bytes_sent_total := wrap 64 (sync_bytes_sent_total c + len) |>
      else c
  | Err _ => c <| sync_send_failures_total := u64_succ (sync_send_failures_total c) |>
  end.

(** ** The sender *)

Record EncryptedPayload := {
  enc_data : list Z;
  enc_tag : option (list Z);
  enc_nonce : option (list Z);
}.

(** [encrypt_payload(payload, timestamp, ssrc, sequence)] *)
Definition PacketCipher : Type := list Z -> Z -> Z -> Z -> Result EncryptedPayload Error.

Definition PACKET_HISTORY_SIZE : nat := 512.

Record Sender := {
  socket : bool;
  dest : SocketAddr;
  control_dest : option SocketAddr;
  control_socket : bool;
  next_sequence : Z;
  own_ssrc : Z;
  cipher : option PacketCipher;
  sync_sequence : Z;
  first_sync_sent : bool;
  packet_history : list (option (list Z));
  transport_counters : option TargetTransportCounters;
}.
#[export] Instance eta_Sender : Eta Sender := fun s =>
  {| socket := socket s; dest := dest s; control_dest := control_dest s;
     control_socket := control_socket s; next_sequence := next_sequence s;
     own_ssrc := own_ssrc s; cipher := cipher s; sync_sequence := sync_sequence s;
     first_sync_sent := first_sync_sent s; packet_history := packet_history s;
     transport_counters := transport_counters s |}.

(** [RtpSender::new] *)
Definition new_sender (dest : SocketAddr) (ssrc : Z) : Sender :=
  {| socket := false; dest := dest; control_dest := None; control_socket := false;
     next_sequence := 0; own_ssrc := ssrc; cipher := None; sync_sequence := 0;
     first_sync_sent := false; packet_history := repeat None PACKET_HISTORY_SIZE;
     transport_counters := None |}.

Definition set_control_dest (s : Sender) (d : SocketAddr) : Sender := s <| control_dest := Some d |>.
Definition set_control_socket (s : Sender) : Sender := s <| control_socket := true |>.
Definition set_transport_counters (s : Sender) (c : TargetTransportCounters) : Sender :=
  s <| transport_counters := Some c |>.
Definition set_cipher (s : Sender) (c : PacketCipher) : Sender := s <| cipher := Some c |>.
Definition reset_sync_state (s : Sender) : Sender := s <| first_sync_sent := false |>.

(** [bind]: [bound] is the port the system granted, or its error. *)
Definition bind (s : Sender) (bound : Result Z IoError) : Sender * Result Z Error :=
  match bound with
  | Ok p => (s <| socket := true |>, Ok p)
  | Err e => (s, Err (Io e))
  end.

(** The wire bytes of [serialize_audio], before they are stored. *)
Definition audio_wire (s : Sender) (payload_type timestamp : Z) (payload : list Z) (marker : bool)
  : Result (list Z) Error :=
  let header := with_marker (new_header payload_type (next_sequence s) timestamp (own_ssrc s))
                  marker in
  match cipher s with
  | Some encrypt_payload =>
      let? encrypted := encrypt_payload payload timestamp (own_ssrc s) (next_sequence s) in
      Ok (serialize_header header ++ enc_data encrypted
          ++ trailer (enc_tag encrypted) (enc_nonce encrypted))
  | None => Ok (serialize_packet (new_packet header payload))
  end.

Definition history_index (sequence : Z) : nat :=
  Z.to_nat (sequence mod Z.of_nat PACKET_HISTORY_SIZE).

Definition serialize_audio (s : Sender) (payload_type timestamp : Z) (payload : list Z)
    (marker : bool) : Sender * Result (list Z) Error :=
  match audio_wire s payload_type timestamp payload marker with
  | Err e => (s, Err e)
  | Ok serialized =>
      let idx := history_index (next_sequence s) in
      (s <| packet_history := <[idx := Some serialized]> (packet_history s) |>
         <| next_sequence := wrap 16 (next_sequence s + 1) |>,
       Ok serialized)
  end.

Definition prepare_audio := serialize_audio.

(** ** Sync packets *)

(** [self.control_dest.unwrap_or(self.dest)] *)
Definition control_target (s : Sender) : SocketAddr := default (dest s) (control_dest s).

(** Byte 0 and the state it leaves: the extension bit marks the first packet. *)
Definition sync_mark (s : Sender) : Z := if first_sync_sent s then 0x80 else 0x90.
Definition after_sync (s : Sender) : Sender :=
  s <| first_sync_sent := true |> <| sync_sequence := wrap 16 (sync_sequence s + 1) |>.

Definition sync_packet (s : Sender) (rtp_timestamp ntp_timestamp : Z) : list Z :=
  [sync_mark s; 0xd4] ++ to_be_bytes 2 (sync_sequence s) ++ to_be_bytes 4 rtp_timestamp
  ++ to_be_bytes 8 ntp_timestamp ++ to_be_bytes 4 rtp_timestamp.

Definition prepare_sync (s : Sender) (rtp_timestamp ntp_timestamp : Z)
  : Sender * option (list Z) :=
  if port (control_target s) =? 0 then (s, None)
  else (after_sync s, Some (sync_packet s rtp_timestamp ntp_timestamp)).

Definition ptp_secs (ns : Z) : Z := wrap 32 (ns / 1000000000).
Definition ptp_frac (ns : Z) : Z :=
  wrap 32 (wrap 64 (Z.shiftl (ns mod 1000000000) 32) / 1000000000).

Definition ptp_sync_packet (s : Sender) (current_rtp_ts ptp_clock_ns next_rtp_ts : Z)
    (master_clock_id : list Z) : list Z :=
  [sync_mark s; 0xD7] ++ to_be_bytes 2 (sync_sequence s) ++ to_be_bytes 4 current_rtp_ts
  ++ to_be_bytes 4 (ptp_secs ptp_clock_ns) ++ to_be_bytes 4 (ptp_frac ptp_clock_ns)
  ++ to_be_bytes 4 next_rtp_ts ++ master_clock_id.

Definition prepare_ptp_sync (s : Sender) (current_rtp_ts ptp_clock_ns next_rtp_ts : Z)
    (master_clock_id : list Z) : Sender * option (list Z) :=
  if port (control_target s) =? 0 then (s, None)
  else (after_sync s,
        Some (ptp_sync_packet s current_rtp_ts ptp_clock_ns next_rtp_ts master_clock_id)).

(** ** Retransmission *)

Record RetransmitOutcome := {
  requested_slots : Z;
  accepted_local : Z;
  history_misses : Z;
  send_failures : Z;
}.
#[export] Instance eta_RetransmitOutcome : Eta RetransmitOutcome := fun o =>
  {| requested_slots := requested_slots o; accepted_local := accepted_local o;
     history_misses := history_misses o; send_failures := send_failures o |}.

(** The history match of [handle_retransmit]: the slot must hold a packet that
    carries the requested sequence number. *)
Definition history_lookup (s : Sender) (seq : Z) : option (list Z) :=
  match packet_history s !! history_index seq with
  | Some (Some original) => if wire_sequence original ==? Some seq then Some original else None
  | _ => None
  end.

(** [self.control_socket.as_ref().or(self.socket.as_ref())] *)
Definition control_source (s : Sender) : option Source :=
  if control_socket s then Some ControlSocket
  else if socket s then Some DataSocket else None.

Section Net.
Context (send_to : list Datagram -> Datagram -> Result Z IoError).

(** A [send_to] call: the datagram is handed over, whatever the answer. *)
Definition transmit (log : list Datagram) (d : Datagram) : list Datagram * Result Z IoError :=
  (log ++ [d], send_to log d).

Definition send_result (sent : Result Z IoError) : Result unit Error :=
  match sent with Ok _ => Ok tt | Err e => Err (Io e) end.

Definition map_counters (f : TargetTransportCounters -> TargetTransportCounters) (s : Sender)
  : Sender := s <| transport_counters := f <$> transport_counters s |>.

(** The common tail of [send], [send_audio] and [send_prepared_audio]. *)
Definition send_prepared_audio (s : Sender) (log : list Datagram) (wire : list Z)
  : Sender * list Datagram * Result unit Error :=
  if socket s then
    let s := map_counters bump_data_attempted s in
    let (log, sent) :=
      transmit log {| dg_from := DataSocket; dg_to := dest s; dg_bytes := wire |} in
    (map_counters (fun c => record_data_outcome c sent) s, log, send_result sent)
  else (s, log, Err NotBound).

Definition send (s : Sender) (log : list Datagram) (p : RtpPacket)
  : Sender * list Datagram * Result unit Error := send_prepared_audio s log (serialize_packet p).

Definition send_audio (s : Sender) (log : list Datagram) (payload_type timestamp : Z)
    (payload : list Z) (marker : bool) : Sender * list Datagram * Result unit Error :=
  match serialize_audio s payload_type timestamp payload marker with
  | (s, Ok serialized) => send_prepared_audio s log serialized
  | (s, Err e) => (s, log, Err e)
  end.

Definition send_prepared_sync (s : Sender) (log : list Datagram) (wire : list Z)
  : Sender * list Datagram * Result unit Error :=
  match control_source s with
  | Some source =>
      let s := map_counters bump_sync_attempted s in
      let (log, sent) :=
        transmit log {| dg_from := source; dg_to := control_target s; dg_bytes := wire |} in
      (map_counters (fun c => record_sync_outcome c sent) s, log, send_result sent)
  | None => (s, log, Err NotBound)
  end.

(** [send_sync] checks the socket before it touches the sync state ... *)
Definition send_sync (s : Sender) (log : list Datagram) (rtp_timestamp ntp_timestamp : Z)
  : Sender * list Datagram * Result unit Error :=
  if port (control_target s) =? 0 then (s, log, Ok tt)
  else match control_source s with
       | None => (s, log, Err NotBound)
       | Some _ => send_prepared_sync (after_sync s) log (sync_packet s rtp_timestamp ntp_timestamp)
       end.

(** ... [send_ptp_sync] after. *)
Definition send_ptp_sync (s : Sender) (log : list Datagram)
    (current_rtp_ts ptp_clock_ns next_rtp_ts : Z) (master_clock_id : list Z)
  : Sender * list Datagram * Result unit Error :=
  match prepare_ptp_sync s current_rtp_ts ptp_clock_ns next_rtp_ts master_clock_id with
  | (s, Some packet) => send_prepared_sync s log packet
  | (s, None) => (s, log, Ok tt)
  end.

(** One iteration of the loop of [handle_retransmit]. *)
Definition retransmit_slot (s : Sender) (request : RetransmitRequest)
    (acc : RetransmitOutcome * list Datagram) (i : Z) : RetransmitOutcome * list Datagram :=
  let (outcome, log) := acc in
  let seq := wrap 16 (first_sequence request + i) in
  match history_lookup s seq with
  | None => (outcome <| history_misses := sat_add 16 (history_misses outcome) 1 |>, log)
  | Some original =>
      match control_source s with
      | None => (outcome <| send_failures := sat_add 16 (send_failures outcome) 1 |>, log)
      | Some source =>
          let (log, sent) := transmit log
            {| dg_from := source; dg_to := control_target s;
               dg_bytes := build_retransmit_response original |} in
          (match sent with
           | Ok n => if 0 <? n
                     then outcome <| accepted_local := sat_add 16 (accepted_local outcome) 1 |>
                     else outcome
           | Err _ => outcome <| send_failures := sat_add 16 (send_failures outcome) 1 |>
           end, log)
      end
  end.

Definition handle_retransmit (s : Sender) (log : list Datagram) (request : RetransmitRequest)
  : RetransmitOutcome * list Datagram :=
  fold_left (retransmit_slot s request) (seqZ 0 (req_count request))
    ({| requested_slots := req_count request; accepted_local := 0; history_misses := 0;
        send_failures := 0 |}, log).
End Net.

End RtpSender.
