(* ===== verification/RtpSenderProps.v ===== *)
(** * Theorems about the RTP sender

    The packet history always serves the last 512 packets and nothing else,
    every slot of a retransmit request is accounted for, sync packets are
    numbered, and the transport counters add up. *)

From S2P Require Import Prelude Jitter Rtp RtpSender.
Import Rtp RtpSender.

(** ** The packet history *)

Record AudioRequest := {
  ar_type : Z; ar_timestamp : Z; ar_payload : list Z; ar_marker : bool;
}.

(** Preparing a sequence of packets; a failed encryption yields no packet. *)
Fixpoint prepare_all (s : Sender) (reqs : list AudioRequest) : Sender * list (list Z) :=
  match reqs with
  | [] => (s, [])
  | r :: reqs' =>
      let (s1, result) :=
        prepare_audio s (ar_type r) (ar_timestamp r) (ar_payload r) (ar_marker r) in
      let (s2, wires) := prepare_all s1 reqs' in
      (s2, match result with Ok w => w :: wires | Err _ => wires end)
  end.

Record history_ok (wires : list (list Z)) (s : Sender) : Prop := {
  ho_next : next_sequence s = wrap 16 (Z.of_nat (length wires));
  ho_ring : ring_holds PACKET_HISTORY_SIZE (packet_history s) (Some <$> wires);
  ho_empty : forall j, (length wires <= j < PACKET_HISTORY_SIZE)%nat ->
    packet_history s !! j = Some None;
  ho_wire : forall i w, wires !! i = Some w -> wire_sequence w = Some (wrap 16 (Z.of_nat i));
}.

Lemma history_index_wrap i :
  history_index (wrap 16 (Z.of_nat i)) = (i mod PACKET_HISTORY_SIZE)%nat.
Proof.
  unfold history_index, wrap.
  rewrite <- (Znumtheory.Zmod_div_mod (Z.of_nat PACKET_HISTORY_SIZE) (2 ^ 16)); try done.
  - rewrite <- Nat2Z.inj_mod. apply Nat2Z.id.
  - exists 128. reflexivity.
Qed.

Lemma history_size_pos : (0 < PACKET_HISTORY_SIZE)%nat.
Proof. unfold PACKET_HISTORY_SIZE. lia. Qed.

#[local] Instance Ok_inj {A E} : Inj (=) (=) (@Ok A E).
Proof. by intros x y [=]. Qed.

Lemma audio_wire_sequence s pt ts pl m w :
  in_width 16 (next_sequence s) -> audio_wire s pt ts pl m = Ok w ->
  wire_sequence w = Some (next_sequence s).
Proof.
  intros Hw. unfold audio_wire. destruct (cipher s) as [enc|].
  - destruct (enc pl ts (own_ssrc s) (next_sequence s)) as [e|];
      cbn [result_bind]; [|discriminate].
    intros <-%(inj Ok). by rewrite wire_sequence_header.
  - intros <-%(inj Ok). unfold serialize_packet. cbn [header new_packet].
    by rewrite wire_sequence_header.
Qed.

Lemma serialize_history wires s pt ts pl m s' w :
  history_ok wires s -> serialize_audio s pt ts pl m = (s', Ok w) ->
  history_ok (wires ++ [w]) s'.
Proof.
  intros [Hn Hr He Hw]. unfold serialize_audio.
  destruct (audio_wire s pt ts pl m) as [w'|e] eqn:E; intros [= <- <-].
  assert (Hws : wire_sequence w' = Some (wrap 16 (Z.of_nat (length wires)))).
  { rewrite <- Hn. eapply audio_wire_sequence; [|exact E]. rewrite Hn. apply wrap_bound. lia. }
  constructor; cbn [packet_history next_sequence]; rewrite ?Hn, ?history_index_wrap.
  - cbn -[wrap Z.of_nat]. rewrite length_app. unfold wrap. rewrite Zplus_mod_idemp_l.
    f_equal. cbn [length]. lia.
  - cbn -[PACKET_HISTORY_SIZE Nat.modulo]. rewrite fmap_app, <- (length_fmap Some wires).
    by apply ring_push; [apply history_size_pos|].
  - intros j [Hj1 Hj2]. rewrite length_app in Hj1. cbn [length] in Hj1.
    cbn -[PACKET_HISTORY_SIZE Nat.modulo].
    rewrite list_lookup_insert_ne; [apply He; lia|].
    rewrite Nat.mod_small by lia. lia.
  - intros i x [Hi|[Hge Hi]]%lookup_app_Some; [by apply Hw|].
    apply list_lookup_singleton_Some in Hi as [Hz ->].
    replace i with (length wires) by lia. done.
Qed.

Lemma prepare_all_history reqs wires s :
  history_ok wires s ->
  history_ok (wires ++ (prepare_all s reqs).2) (prepare_all s reqs).1.
Proof.
  revert wires s; induction reqs as [|r reqs IH]; intros wires s H; cbn; [by rewrite app_nil_r|].
  unfold prepare_audio.
  destruct (serialize_audio s (ar_type r) (ar_timestamp r) (ar_payload r) (ar_marker r))
    as [s1 [w|e]] eqn:E.
  - specialize (IH (wires ++ [w]) s1 (serialize_history _ _ _ _ _ _ _ _ H E)).
    destruct (prepare_all s1 reqs) as [s2 ws]. cbn in *. by rewrite <- (assoc_L (++)) in IH.
  - assert (s1 = s) as -> by (unfold serialize_audio in E; by case_match; simplify_eq).
    specialize (IH wires s H). by destruct (prepare_all s reqs) as [s2 ws].
Qed.

(** A new sender, with or without a cipher. *)
Definition fresh_sender (d : SocketAddr) (ssrc : Z) (c : option PacketCipher) : Sender :=
  (new_sender d ssrc) <| cipher := c |>.

Lemma fresh_history d ssrc c : history_ok [] (fresh_sender d ssrc c).
Proof.
  constructor; try done. intros j Hj.
  change (packet_history (fresh_sender d ssrc c))
    with (replicate PACKET_HISTORY_SIZE (None : option (list Z))).
  apply lookup_replicate_2. lia.
Qed.

(** Reading the history back. *)
Lemma history_lookup_iff wires s seq w :
  history_ok wires s -> in_width 16 seq ->
  history_lookup s seq = Some w <->
  exists i, wires !! i = Some w /\ (length wires <= i + PACKET_HISTORY_SIZE)%nat
            /\ seq = wrap 16 (Z.of_nat i).
Proof.
  intros [Hn [Hl Hr] He Hw] Hs. rewrite length_fmap in Hr. unfold history_lookup. split.
  - destruct (packet_history s !! history_index seq) as [[x|]|] eqn:E; try done.
    case_bool_decide as Hx; [|done]. intros [= ->].
    assert (Hj : (history_index seq < PACKET_HISTORY_SIZE)%nat)
      by (rewrite <- Hl; by eapply lookup_lt_Some).
    destruct (decide (history_index seq < length wires)%nat) as [Hlt|Hge].
    + destruct (slot_owner PACKET_HISTORY_SIZE history_size_pos _ _ Hj Hlt) as (i & Hi & Hlen & Hm).
      destruct (lookup_lt_is_Some_2 _ _ Hi) as [v Hv].
      pose proof (Hr i (Some v)) as Hri. rewrite list_lookup_fmap, Hv in Hri.
      specialize (Hri eq_refl Hlen). rewrite Hm, E in Hri. simplify_eq.
      exists i. split_and!; [done..|]. pose proof (Hw i v Hv). congruence.
    + rewrite He in E by lia. done.
  - intros (i & Hi & Hlen & ->). rewrite history_index_wrap.
    rewrite (Hr i (Some w)) by (done || by rewrite list_lookup_fmap, Hi).
    rewrite (Hw i w Hi), bool_decide_eq_true_2 by done. done.
Qed.

(** C34: the retransmit history serves exactly the recent packets.  After
    preparing any number of packets on a fresh sender, with or without
    encryption (failed encryptions included), a sequence number is answered
    with a packet if and only if that packet is among the last 512 sent and
    carries that number, also after the 16-bit sequence wrapped around. *)
Theorem history_serves_exactly_recent_packets d ssrc c reqs seq w :
  in_width 16 seq ->
  let s := (prepare_all (fresh_sender d ssrc c) reqs).1 in
  let wires := (prepare_all (fresh_sender d ssrc c) reqs).2 in
  history_lookup s seq = Some w <->
  exists i, wires !! i = Some w /\ (length wires <= i + PACKET_HISTORY_SIZE)%nat
            /\ seq = wrap 16 (Z.of_nat i).
Proof.
  intros Hs. cbv zeta. apply history_lookup_iff; [|done].
  apply (prepare_all_history reqs []), fresh_history.
Qed.

Definition demo_addr : SocketAddr := {| host := "192.168.0.7"; port := 6001 |}.
Definition demo_request (t : Z) : AudioRequest :=
  {| ar_type := AUDIO_REALTIME; ar_timestamp := t; ar_payload := [t]; ar_marker := false |}.

Lemma history_serves_exactly_recent_packets_witness :
  exists w, history_lookup
    (prepare_all (fresh_sender demo_addr 7 None) [demo_request 1; demo_request 2]).1 1 = Some w.
Proof.
  eexists. apply (history_serves_exactly_recent_packets demo_addr 7 None
    [demo_request 1; demo_request 2] 1); [split; [discriminate|reflexivity]|].
  exists 1%nat. split; [vm_compute; reflexivity|]. split; [vm_compute; lia|reflexivity].
Defined.

(** ** Retransmit accounting *)

Section Retransmit.
Context (send_to : list Datagram -> Datagram -> Result Z IoError).
(** A datagram socket never reports success without having taken bytes of a
    non-empty datagram. *)
Context (send_to_takes_bytes : forall log d n,
  dg_bytes d <> [] -> send_to log d = Ok n -> 0 < n).

Definition handled (o : RetransmitOutcome) : Z :=
  accepted_local o + history_misses o + send_failures o.

Definition outcome_ok (k : Z) (o : RetransmitOutcome) : Prop :=
  0 <= accepted_local o /\ 0 <= history_misses o /\ 0 <= send_failures o /\ handled o = k.

(** The responses to a list of requested sequence numbers. *)
Definition responses (s : Sender) (seqs : list Z) : list Datagram :=
  match control_source s with
  | Some source =>
      (fun w => {| dg_from := source; dg_to := control_target s;
                   dg_bytes := build_retransmit_response w |})
      <$> omap (history_lookup s) seqs
  | None => []
  end.

Definition slot_sequence (request : RetransmitRequest) (i : Z) : Z :=
  wrap 16 (first_sequence request + i).

Lemma sat_add_exact x : 0 <= x < 2 ^ 16 - 1 -> sat_add 16 x 1 = x + 1.
Proof. intros H. unfold sat_add. lia. Qed.

Lemma retransmit_slot_step s request o log i k :
  outcome_ok k o -> k < 2 ^ 16 - 1 ->
  let r := retransmit_slot send_to s request (o, log) i in
  outcome_ok (k + 1) r.1 /\ requested_slots r.1 = requested_slots o
  /\ r.2 = log ++ responses s [slot_sequence request i].
Proof.
  intros (Ha & Hm & Hf & Hk) Hb. unfold handled in Hk. cbn. unfold responses, slot_sequence.
  destruct (history_lookup s (wrap 16 (first_sequence request + i))) as [w|] eqn:E; cbn; rewrite ?E.
  - destruct (control_source s) as [source|]; cbn; rewrite ?E.
    + match goal with |- context [send_to log ?d] => destruct (send_to log d) as [n|] eqn:Es end.
      * apply send_to_takes_bytes in Es; [|by destruct w].
        destruct (Z.ltb_spec 0 n); [|lia]. split_and!; try done.
        unfold outcome_ok, handled. cbn. rewrite sat_add_exact by lia. lia.
      * split_and!; try done. unfold outcome_ok, handled. cbn. rewrite sat_add_exact by lia. lia.
    + split_and!; [|done|by rewrite app_nil_r].
      unfold outcome_ok, handled. cbn. rewrite sat_add_exact by lia. lia.
  - split_and!; [|done|].
    + unfold outcome_ok, handled. cbn. rewrite sat_add_exact by lia. lia.
    + destruct (control_source s); cbn; rewrite ?E; by rewrite app_nil_r.
Qed.

Lemma responses_cons s q qs : responses s (q :: qs) = responses s [q] ++ responses s qs.
Proof.
  unfold responses. destruct (control_source s); [|done]. rewrite <- fmap_app. f_equal. cbn.
  by destruct (history_lookup s q).
Qed.

Lemma retransmit_slots s request ks o log k :
  outcome_ok k o -> 0 <= k -> k + Z.of_nat (length ks) < 2 ^ 16 ->
  let r := fold_left (retransmit_slot send_to s request) ks (o, log) in
  outcome_ok (k + Z.of_nat (length ks)) r.1 /\ requested_slots r.1 = requested_slots o
  /\ r.2 = log ++ responses s (slot_sequence request <$> ks).
Proof.
  revert o log k; induction ks as [|i ks IH]; intros o log k Ho Hk Hb; cbn [length] in *.
  - cbn. rewrite Z.add_0_r. split_and!; try done.
    unfold responses. destruct (control_source s); cbn; by rewrite app_nil_r.
  - cbn [fold_left fmap list_fmap].
    pose proof (retransmit_slot_step s request o log i k Ho ltac:(lia)) as (Ho1 & Hr1 & Hl1).
    destruct (retransmit_slot send_to s request (o, log) i) as [o1 log1]. cbn [fst snd] in *.
    destruct (IH o1 log1 (k + 1) Ho1 ltac:(lia) ltac:(lia)) as (Ho2 & Hr2 & Hl2).
    split_and!.
    + by replace (k + Z.of_nat (S (length ks))) with (k + 1 + Z.of_nat (length ks)) by lia.
    + congruence.
    + rewrite Hl2, Hl1, (responses_cons s _ (slot_sequence request <$> ks)).
      by rewrite (assoc_L (++)).
Qed.
End Retransmit.

(** Every slot of a retransmit request is accounted for.  Accepted slots,
    history misses and send failures add up to the requested count (no counter
    saturates), and what goes out is, in request order, one response to the
    control port for each requested packet still in the history. *)
Theorem retransmit_accounts_every_slot send_to s log request :
  (forall log d n, dg_bytes d <> [] -> send_to log d = Ok n -> 0 < n) ->
  in_width 16 (req_count request) ->
  let r := handle_retransmit send_to s log request in
  accepted_local r.1 + history_misses r.1 + send_failures r.1 = requested_slots r.1
  /\ requested_slots r.1 = req_count request
  /\ r.2 = log ++ responses s (slot_sequence request <$> seqZ 0 (req_count request)).
Proof.
  intros Hos Hc. unfold in_width in Hc. cbv zeta. unfold handle_retransmit.
  destruct (retransmit_slots send_to Hos s request (seqZ 0 (req_count request))
    {| requested_slots := req_count request; accepted_local := 0; history_misses := 0;
       send_failures := 0 |} log 0) as (Ho & Hr & Hl).
  - unfold outcome_ok, handled. cbn. lia.
  - lia.
  - rewrite length_seqZ. lia.
  - rewrite length_seqZ in Ho. destruct Ho as (_ & _ & _ & Hh). unfold handled in Hh.
    rewrite Hr, Hl. cbn [requested_slots]. split_and!; [lia|done|done].
Qed.

(** A socket that takes everything. *)
Definition demo_send (log : list Datagram) (d : Datagram) : Result Z IoError :=
  Ok (Z.of_nat (length (dg_bytes d))).

Lemma demo_send_takes_bytes log d n : dg_bytes d <> [] -> demo_send log d = Ok n -> 0 < n.
Proof. unfold demo_send. intros H [= <-]. destruct (dg_bytes d); cbn; [done|lia]. Qed.

Lemma retransmit_accounts_every_slot_witness :
  let s := (bind (prepare_all (fresh_sender demo_addr 7 None)
                    [demo_request 1; demo_request 2]).1 (Ok 5000)).1 in
  let r := handle_retransmit demo_send s [] {| first_sequence := 0; req_count := 3 |} in
  accepted_local r.1 + history_misses r.1 + send_failures r.1 = requested_slots r.1
  /\ history_misses r.1 = 1 /\ length r.2 = 2%nat.
Proof.
  intros s r. split; [|split; vm_compute; reflexivity].
  apply (retransmit_accounts_every_slot demo_send s [] {| first_sequence := 0; req_count := 3 |});
    [exact demo_send_takes_bytes|split; [discriminate|reflexivity]].
Defined.

(** ** Sync packets *)

Inductive SyncOp :=
| NtpSync (rtp_timestamp ntp_timestamp : Z)
| PtpSync (current_rtp_ts ptp_clock_ns next_rtp_ts : Z) (master_clock_id : list Z).

Definition prepare_op (s : Sender) (op : SyncOp) : Sender * option (list Z) :=
  match op with
  | NtpSync rtp ntp => prepare_sync s rtp ntp
  | PtpSync rtp ns next id => prepare_ptp_sync s rtp ns next id
  end.

Fixpoint prepare_syncs (s : Sender) (ops : list SyncOp) : list (list Z) :=
  match ops with
  | [] => []
  | op :: ops' =>
      let (s', packet) := prepare_op s op in
      option_list packet ++ prepare_syncs s' ops'
  end.

Lemma prepare_op_some s op :
  port (control_target s) <> 0 ->
  exists p, prepare_op s op = (after_sync s, Some p)
    /\ head p = Some (sync_mark s) /\ wire_sequence p = Some (wrap 16 (sync_sequence s)).
Proof.
  intros Hp. apply Z.eqb_neq in Hp.
  assert (Hs : from_be_bytes (to_be_bytes 2 (sync_sequence s)) = wrap 16 (sync_sequence s)).
  { unfold from_be_bytes. rewrite be_fold_to_be_bytes, Z.shiftl_0_l, Z.lor_0_l. reflexivity. }
  destruct op as [rtp ntp|rtp ns next id]; cbn [prepare_op];
    unfold prepare_sync, prepare_ptp_sync; rewrite Hp; eexists; split_and!; try reflexivity;
    unfold sync_packet, ptp_sync_packet; cbn [app to_be_bytes wire_sequence];
    cbn [to_be_bytes] in Hs; by rewrite Hs.
Qed.

(** Sync packets are numbered consecutively (modulo 2^16), and exactly the
    first one after a start or a flush carries the extension bit, whatever mix
    of NTP and PTP packets is sent. *)
Theorem sync_packets_numbered s ops k p :
  port (control_target s) <> 0 -> prepare_syncs (reset_sync_state s) ops !! k = Some p ->
  wire_sequence p = Some (wrap 16 (sync_sequence s + Z.of_nat k))
  /\ head p = Some (if (k =? 0)%nat then 0x90 else 0x80).
Proof.
  intros Hp. assert (Hgen : forall s' k', port (control_target s') <> 0 ->
    prepare_syncs s' ops !! k' = Some p ->
    wire_sequence p = Some (wrap 16 (sync_sequence s' + Z.of_nat k'))
    /\ head p = Some (if (k' =? 0)%nat then sync_mark s' else 0x80)).
  { clear s k Hp. induction ops as [|op ops IH]; intros s k Hp Hk; [done|]. cbn in Hk.
    destruct (prepare_op_some s op Hp) as (q & Hq & Hh & Hw). rewrite Hq in Hk. cbn in Hk.
    destruct k as [|k]; cbn in Hk.
    - injection Hk as <-. rewrite Z.add_0_r. done.
    - destruct (IH (after_sync s) k Hp Hk) as [Hs2 Hh2]. split.
      + rewrite Hs2. cbn -[wrap Z.of_nat]. unfold wrap. rewrite Zplus_mod_idemp_l.
        do 2 f_equal. lia.
      + rewrite Hh2. by destruct k. }
  intros Hk. exact (Hgen (reset_sync_state s) k Hp Hk).
Qed.

Lemma sync_packets_numbered_witness :
  exists p, prepare_syncs (reset_sync_state (new_sender demo_addr 7)) [NtpSync 1 2; PtpSync 1 2 3 []]
            !! 1%nat = Some p /\ wire_sequence p = Some 1.
Proof.
  eexists. split; [vm_compute; reflexivity|].
  refine (proj1 (sync_packets_numbered (new_sender demo_addr 7) [NtpSync 1 2; PtpSync 1 2 3 []]
    1 _ _ _)); [discriminate|vm_compute; reflexivity].
Defined.

(** The 32.32 fixed-point PTP time of a sync packet is the clock time
    rounded down to a multiple of 2^-32 s, an error below a quarter of a
    nanosecond, for every uptime below 2^32 seconds; no 64-bit intermediate
    overflows. *)
Theorem ptp_time_is_exact_floor ns :
  0 <= ns < 2 ^ 32 * 1000000000 ->
  let fixed := ptp_secs ns * 2 ^ 32 + ptp_frac ns in
  fixed * 1000000000 <= ns * 2 ^ 32 < (fixed + 1) * 1000000000
  /\ fixed = ns * 2 ^ 32 / 1000000000.
Proof.
  intros Hns. cbv zeta. unfold ptp_secs, ptp_frac.
  set (q := ns / 1000000000). set (r := ns mod 1000000000).
  pose proof (Z.div_mod ns 1000000000 ltac:(lia)) as E. fold q r in E.
  pose proof (Z.mod_pos_bound ns 1000000000 ltac:(lia)) as Hr. fold r in Hr.
  rewrite Z.shiftl_mul_pow2 by lia.
  rewrite (wrap_id 64) by (unfold in_width; lia).
  rewrite (wrap_id 32 q) by (unfold in_width; lia).
  set (f := r * 2 ^ 32 / 1000000000).
  pose proof (Z.div_mod (r * 2 ^ 32) 1000000000 ltac:(lia)) as Ef. fold f in Ef.
  pose proof (Z.mod_pos_bound (r * 2 ^ 32) 1000000000 ltac:(lia)) as Hf.
  rewrite wrap_id by (unfold in_width; lia).
  assert (Hb : (q * 2 ^ 32 + f) * 1000000000 <= ns * 2 ^ 32
    < (q * 2 ^ 32 + f + 1) * 1000000000) by lia.
  split; [exact Hb|]. apply (Z.div_unique_pos _ _ _ (ns * 2 ^ 32 - (q * 2 ^ 32 + f) * 1000000000)); lia.
Qed.

Lemma ptp_time_is_exact_floor_witness :
  ptp_secs 1500000000 * 2 ^ 32 + ptp_frac 1500000000 = 1500000000 * 2 ^ 32 / 1000000000.
Proof. apply (ptp_time_is_exact_floor 1500000000). split; [discriminate|reflexivity]. Defined.

(** ** Transport counters *)

Inductive SendOp :=
| DoSend (p : RtpPacket)
| DoSendAudio (r : AudioRequest)
| DoSendPreparedAudio (wire : list Z)
| DoSendSync (rtp_timestamp ntp_timestamp : Z)
| DoSendPtpSync (current_rtp_ts ptp_clock_ns next_rtp_ts : Z) (master_clock_id : list Z)
| DoSendPreparedSync (wire : list Z).

(** Prepared bytes come from [prepare_audio] or [prepare_sync]: never empty. *)
Definition op_bytes_ok (op : SendOp) : Prop :=
  match op with
  | DoSendPreparedAudio wire | DoSendPreparedSync wire => wire <> []
  | _ => True
  end.

Definition counters_ok (c : TargetTransportCounters) : Prop :=
  data_attempted_total c = wrap 64 (data_accepted_local_total c + data_send_failures_total c)
  /\ sync_attempted_total c = wrap 64 (sync_accepted_local_total c + sync_send_failures_total c).

Definition sender_counters_ok (s : Sender) : Prop :=
  forall c, transport_counters s = Some c -> counters_ok c.

Section Counters.
Context (send_to : list Datagram -> Datagram -> Result Z IoError).
Context (send_to_takes_bytes : forall log d n,
  dg_bytes d <> [] -> send_to log d = Ok n -> 0 < n).

Definition do_send (s : Sender) (log : list Datagram) (op : SendOp)
  : Sender * list Datagram * Result unit Error :=
  match op with
  | DoSend p => send send_to s log p
  | DoSendAudio r =>
      send_audio send_to s log (ar_type r) (ar_timestamp r) (ar_payload r) (ar_marker r)
  | DoSendPreparedAudio wire => send_prepared_audio send_to s log wire
  | DoSendSync rtp ntp => send_sync send_to s log rtp ntp
  | DoSendPtpSync rtp ns next id => send_ptp_sync send_to s log rtp ns next id
  | DoSendPreparedSync wire => send_prepared_sync send_to s log wire
  end.

Fixpoint do_sends (s : Sender) (log : list Datagram) (ops : list SendOp)
  : Sender * list Datagram :=
  match ops with
  | [] => (s, log)
  | op :: ops' => let '(s, log, _) := do_send s log op in do_sends s log ops'
  end.

Lemma succ_sum a b : wrap 64 (u64_succ a + b) = u64_succ (wrap 64 (a + b)).
Proof. unfold u64_succ, wrap. rewrite Zplus_mod_idemp_l, Zplus_mod_idemp_l. f_equal. lia. Qed.

Lemma succ_sum_r a b : wrap 64 (a + u64_succ b) = u64_succ (wrap 64 (a + b)).
Proof. rewrite Z.add_comm, succ_sum. do 2 f_equal. lia. Qed.

Lemma data_outcome_ok c log d :
  dg_bytes d <> [] -> counters_ok c ->
  counters_ok (record_data_outcome (bump_data_attempted c) (send_to log d)).
Proof.
  intros Hd [H1 H2]. unfold record_data_outcome, counters_ok.
  destruct (send_to log d) as [n|] eqn:E; cbn -[u64_succ wrap].
  - apply send_to_takes_bytes in E; [|done]. destruct (Z.ltb_spec 0 n); [|lia].
    cbn -[u64_succ wrap]. by rewrite succ_sum, <- H1.
  - by rewrite succ_sum_r, <- H1.
Qed.

Lemma sync_outcome_ok c log d :
  dg_bytes d <> [] -> counters_ok c ->
  counters_ok (record_sync_outcome (bump_sync_attempted c) (send_to log d)).
Proof.
  intros Hd [H1 H2]. unfold record_sync_outcome, counters_ok.
  destruct (send_to log d) as [n|] eqn:E; cbn -[u64_succ wrap].
  - apply send_to_takes_bytes in E; [|done]. destruct (Z.ltb_spec 0 n); [|lia].
    cbn -[u64_succ wrap]. by rewrite succ_sum, <- H2.
  - by rewrite succ_sum_r, <- H2.
Qed.

Lemma prepared_audio_counters s log wire :
  wire <> [] -> sender_counters_ok s ->
  sender_counters_ok (send_prepared_audio send_to s log wire).1.1.
Proof.
  intros Hw Hs c. unfold send_prepared_audio. destruct (socket s); [|apply Hs]. cbn.
  unfold sender_counters_ok in Hs. destruct (transport_counters s) as [c0|]; [|done].
  intros [= <-]. apply data_outcome_ok; auto.
Qed.

Lemma prepared_sync_counters s log wire :
  wire <> [] -> sender_counters_ok s ->
  sender_counters_ok (send_prepared_sync send_to s log wire).1.1.
Proof.
  intros Hw Hs c. unfold send_prepared_sync. destruct (control_source s); [|apply Hs]. cbn.
  unfold sender_counters_ok in Hs. destruct (transport_counters s) as [c0|]; [|done].
  intros [= <-]. apply sync_outcome_ok; auto.
Qed.

Lemma audio_wire_nonempty s pt ts pl m w : audio_wire s pt ts pl m = Ok w -> w <> [].
Proof.
  unfold audio_wire. destruct (cipher s) as [enc|].
  - destruct (enc pl ts (own_ssrc s) (next_sequence s)); cbn; by intros [= <-].
  - by intros [= <-].
Qed.

Lemma do_send_counters s log op :
  op_bytes_ok op -> sender_counters_ok s -> sender_counters_ok (do_send s log op).1.1.
Proof.
  intros Hop Hs.
  destruct op as [p|r|wire|rtp ntp|rtp ns next id|wire]; cbn [do_send];
    auto using prepared_audio_counters, prepared_sync_counters.
  - by apply prepared_audio_counters.
  - unfold send_audio, serialize_audio.
    destruct (audio_wire s (ar_type r) (ar_timestamp r) (ar_payload r) (ar_marker r)) as [w|] eqn:E;
      [|done]. apply prepared_audio_counters; [by eapply audio_wire_nonempty|done].
  - unfold send_sync. destruct (_ =? 0); [done|]. destruct (control_source s); [|done].
    by apply prepared_sync_counters.
  - unfold send_ptp_sync, prepare_ptp_sync. destruct (_ =? 0); [done|].
    by apply prepared_sync_counters.
Qed.
End Counters.

(** The transport counters add up.  After any sequence of data and sync
    sends, successful or not, datagrams attempted equal datagrams accepted
    plus send failures (modulo the 64-bit counter width), for data and for
    sync traffic separately. *)
Theorem transport_counters_add_up send_to d ssrc log ops c :
  (forall log d n, dg_bytes d <> [] -> send_to log d = Ok n -> 0 < n) ->
  Forall op_bytes_ok ops ->
  let s := (bind (set_transport_counters (new_sender d ssrc) new_counters) (Ok 0)).1 in
  transport_counters (do_sends send_to s log ops).1 = Some c ->
  data_attempted_total c = wrap 64 (data_accepted_local_total c + data_send_failures_total c)
  /\ sync_attempted_total c = wrap 64 (sync_accepted_local_total c + sync_send_failures_total c).
Proof.
  intros Hos Hops. cbv zeta. set (s := (bind _ _).1).
  assert (Hs : sender_counters_ok s) by (intros c0 [= <-]; split; reflexivity).
  clearbody s. revert s log Hs. induction Hops as [|op ops Hop _ IH]; intros s log Hs; [apply Hs|].
  cbn [do_sends]. pose proof (do_send_counters send_to Hos s log op Hop Hs) as H1.
  destruct (do_send send_to s log op) as [[s1 log1] r]. exact (IH s1 log1 H1).
Qed.

Lemma transport_counters_add_up_witness :
  let s := (bind (set_transport_counters (new_sender demo_addr 7) new_counters) (Ok 0)).1 in
  exists c, transport_counters (do_sends demo_send s []
              [DoSendAudio (demo_request 1); DoSendSync 1 2]).1 = Some c
    /\ data_attempted_total c = wrap 64 (data_accepted_local_total c + data_send_failures_total c).
Proof.
  intros s. eexists. split; [vm_compute; reflexivity|].
  refine (proj1 (transport_counters_add_up demo_send demo_addr 7 []
    [DoSendAudio (demo_request 1); DoSendSync 1 2] _ _ _ _)).
  - exact demo_send_takes_bytes.
  - repeat constructor.
  - vm_compute. reflexivity.
Defined.
