(* ===== verification/Wire.v ===== *)
(** * Wire formats

    What the packet codecs of the crates share: slices of a received datagram
    ([&data[a..b]]), signed machine integers, and the interface between a
    packet type and the code that exchanges it ([WireFormat]): an encoder, a
    parser, and the law that well-formed values survive the wire. *)

From S2P Require Import Prelude.

(** ** Slices *)

(** [&l[a..b]] for [a <= b <= l.len()]. *)
Definition slice {A} (a b : nat) (l : list A) : list A := take (b - a) (drop a l).

Lemma length_slice {A} a b (l : list A) :
  (b <= length l)%nat -> length (slice a b l) = (b - a)%nat.
Proof. intros H. unfold slice. rewrite length_take, length_drop. lia. Qed.

(** A field that starts behind the prefix [x]. *)
Lemma slice_skip {A} a b n (x l : list A) :
  length x = n -> (n <= a)%nat -> slice a b (x ++ l) = slice (a - n) (b - n) l.
Proof.
  intros <- Ha. unfold slice. rewrite drop_app_ge by done. f_equal. lia.
Qed.

(** The field at the front. *)
Lemma slice_here {A} b (x l : list A) : length x = b -> slice 0 b (x ++ l) = x.
Proof. intros <-. unfold slice. rewrite drop_0, Nat.sub_0_r. apply take_app_length. Qed.

Lemma slice_whole {A} b (x : list A) : length x = b -> slice 0 b x = x.
Proof. intros <-. unfold slice. rewrite drop_0, Nat.sub_0_r. apply take_ge. done. Qed.

Lemma slice_prefix {A} a b n (x l : list A) :
  length x = n -> (b <= n)%nat -> slice a b (x ++ l) = slice a b x.
Proof.
  intros <- Hb. unfold slice. destruct (decide (a <= length x)%nat) as [Ha|Ha].
  - rewrite drop_app_le by done. apply take_app_le. rewrite length_drop. lia.
  - replace (b - a)%nat with O by lia. by rewrite !take_0.
Qed.

(** The [i]-th byte of a datagram whose length was checked. *)
Definition byte_at (data : list Z) (i : nat) : Z := default 0 (data !! i).

Lemma byte_at_skip n i (x l : list Z) :
  length x = n -> (n <= i)%nat -> byte_at (x ++ l) i = byte_at l (i - n).
Proof. intros <- H. unfold byte_at. by rewrite lookup_app_r. Qed.

Lemma byte_at_prefix n i (x l : list Z) :
  length x = n -> (i < n)%nat -> byte_at (x ++ l) i = byte_at x i.
Proof. intros <- H. unfold byte_at. by rewrite lookup_app_l. Qed.

Lemma byte_at_here x (l : list Z) : byte_at (x :: l) 0 = x.
Proof. done. Qed.
Lemma byte_at_next x (l : list Z) i : byte_at (x :: l) (S i) = byte_at l i.
Proof. done. Qed.

(** Little-endian round trip. *)
Lemma from_to_le_bytes k x :
  in_width (8 * Z.of_nat k) x -> from_le_bytes (to_le_bytes k x) = x.
Proof.
  revert x. induction k as [|k IH]; intros x Hx; cbn [to_le_bytes from_le_bytes].
  - unfold in_width in Hx. cbn in Hx. lia.
  - unfold in_width in *. replace (8 * Z.of_nat (S k)) with (8 * Z.of_nat k + 8) in Hx by lia.
    rewrite Z.pow_add_r in Hx by lia.
    rewrite Z.shiftr_div_pow2, IH
      by (lia || (split; [apply Z.div_pos|apply Z.div_lt_upper_bound]; lia)).
    rewrite (lor_shiftl_add _ _ 8) by (lia || (apply wrap_bound; lia)).
    unfold wrap. pose proof (Z.div_mod x (2 ^ 8)). lia.
Qed.

(** ** Signed integers *)

(** The [w]-bit two's complement value of the low [w] bits of [x] ([as i64]). *)
Definition as_signed (w x : Z) : Z :=
  let y := wrap w x in if y <? 2 ^ (w - 1) then y else y - 2 ^ w.
Definition in_signed (w x : Z) : Prop := - 2 ^ (w - 1) <= x < 2 ^ (w - 1).

Lemma as_signed_id w x : 0 < w -> in_signed w x -> as_signed w x = x.
Proof.
  intros Hw [Hl Hu]. unfold as_signed, wrap.
  assert (2 ^ w = 2 * 2 ^ (w - 1)) as Hp by (rewrite <- Z.pow_succ_r by lia; f_equal; lia).
  destruct (Z.ltb_spec x 0).
  - replace (x mod 2 ^ w) with (x + 2 ^ w).
    + destruct (Z.ltb_spec (x + 2 ^ w) (2 ^ (w - 1))); lia.
    + rewrite <- (Z.mod_add x 1) by lia. rewrite Z.mod_small; lia.
  - rewrite Z.mod_small by lia. destruct (Z.ltb_spec x (2 ^ (w - 1))); lia.
Qed.

Lemma as_signed_wrap w x : 0 < w -> as_signed w (wrap w x) = as_signed w x.
Proof. intros Hw. unfold as_signed, wrap. by rewrite Z.mod_mod by (apply Z.pow_nonzero; lia). Qed.

Lemma as_signed_bound w x : 0 < w -> in_signed w (as_signed w x).
Proof.
  intros Hw. unfold as_signed, in_signed. pose proof (wrap_bound w x ltac:(lia)) as [H0 H1].
  assert (2 ^ w = 2 * 2 ^ (w - 1)) as Hp by (rewrite <- Z.pow_succ_r by lia; f_equal; lia).
  destruct (Z.ltb_spec (wrap w x) (2 ^ (w - 1))); lia.
Qed.

(** [x / 2] on signed integers rounds toward zero. *)
Lemma quot2_bounds x : 2 * (x ÷ 2) - 1 <= x <= 2 * (x ÷ 2) + 1.
Proof. pose proof (Z.quot_rem' x 2). pose proof (Z.rem_bound_abs x 2). lia. Qed.

(** ** The interface *)

(** [wire_ok] delimits the values the type can hold; the law is what a peer
    relies on. *)
Class WireFormat (A E : Type) := {
  wire_ok : A -> Prop;
  to_wire : A -> list Z;
  of_wire : list Z -> Result A E;
  wire_size : nat;
  wire_length : forall a, wire_ok a -> length (to_wire a) = wire_size;
  of_to_wire : forall a rest, wire_ok a -> of_wire (to_wire a ++ rest) = Ok a;
}.

(** Two well-formed values with the same bytes are the same value. *)
Lemma to_wire_inj {A E} `{WireFormat A E} (x y : A) :
  wire_ok x -> wire_ok y -> to_wire x = to_wire y -> x = y.
Proof.
  intros Hx Hy Heq. pose proof (of_to_wire x [] Hx) as Ex. pose proof (of_to_wire y [] Hy) as Ey.
  rewrite Heq, Ey in Ex. by injection Ex.
Qed.

(** Lengths of concatenated fields. *)
Ltac wire_len :=
  repeat (rewrite length_app || rewrite length_cons || rewrite length_to_be_bytes
          || rewrite length_to_le_bytes || rewrite length_replicate);
  cbn [length]; try lia.

(** The length of a field, as a numeral. *)
Ltac field_size x :=
  match x with
  | to_be_bytes ?n _ => n
  | to_le_bytes ?n _ => n
  | replicate ?n _ => n
  | _ => match goal with H : length x = ?n |- _ => n end
  | _ => let n := eval cbv [length] in (length x) in n
  end.
Ltac field_length :=
  first [ assumption | apply length_to_be_bytes | apply length_to_le_bytes
        | apply length_replicate | reflexivity ].

(** Evaluates slices of a concatenation of fields of known length. *)
Ltac wire_slice :=
  repeat match goal with
  | |- context [slice 0 ?b (?x ++ ?l)] => rewrite (slice_here b x l) by field_length
  | |- context [slice 0 ?b ?x] => rewrite (slice_whole b x) by field_length
  | |- context [slice ?a ?b (?x ++ ?l)] =>
      let n := field_size x in
      rewrite (slice_skip a b n x l) by (field_length || lia);
      let a' := eval cbv in (a - n)%nat in
      let b' := eval cbv in (b - n)%nat in
      change (a - n)%nat with a'; change (b - n)%nat with b'
  end.

(** Evaluates single bytes of such a concatenation. *)
Ltac wire_byte :=
  repeat match goal with
  | |- context [byte_at (?x :: ?l) 0] => rewrite (byte_at_here x l)
  | |- context [byte_at (?x :: ?l) (S ?i)] => rewrite (byte_at_next x l i)
  | |- context [byte_at (?x ++ ?l) ?i] =>
      let n := field_size x in
      let i' := eval cbv in (i - n)%nat in
      let lt := eval cbv in (Nat.ltb i n) in
      match lt with
      | true => rewrite (byte_at_prefix n i x l) by (field_length || lia)
      | false => rewrite (byte_at_skip n i x l) by (field_length || lia);
                 change (i - n)%nat with i'
      end
  end.
