(* ===== verification/Text.v ===== *)
(** * Text

    Rust strings as the program uses them: a [str] is the list of its Unicode
    scalar values, [utf8_encode] its bytes.  UTF-8 validation and lossy
    decoding, line and field splitting, trimming, decimal and hexadecimal
    numbers, with the laws the parsers of the other components rely on. *)

From Stdlib Require Import String Ascii.
From S2P Require Import Prelude Wire.

Notation text := (list Z).

(** A literal of the source. *)
Definition lit (s : string) : text :=
  (fun a => Z.of_nat (nat_of_ascii a)) <$> list_ascii_of_string s.

Definition CR : Z := 13.
Definition LF : Z := 10.
Definition CRLF : text := [CR; LF].

(** ** UTF-8 *)

Definition is_scalar (c : Z) : Prop := 0 <= c < 0xD800 \/ 0xE000 <= c < 0x110000.

Definition utf8_char (c : Z) : list Z :=
  if c <? 0x80 then [c]
  else if c <? 0x800 then [0xC0 + c / 64; 0x80 + c mod 64]
  else if c <? 0x10000 then [0xE0 + c / 4096; 0x80 + c / 64 mod 64; 0x80 + c mod 64]
  else [0xF0 + c / 262144; 0x80 + c / 4096 mod 64; 0x80 + c / 64 mod 64; 0x80 + c mod 64].
Definition utf8_encode (s : text) : list Z := concat (utf8_char <$> s).

Definition in_range (lo hi b : Z) : bool := (lo <=? b) && (b <=? hi).
Definition is_cont (b : Z) : bool := in_range 0x80 0xBF b.

(** The first scalar value and the remaining bytes; [None] in front when the
    bytes are invalid, the rest then starts behind the longest prefix of a
    well-formed sequence, as [from_utf8_lossy] replaces it. *)
Definition utf8_next (bs : list Z) : option (option Z * list Z) :=
  match bs with
  | [] => None
  | b0 :: r0 =>
      if b0 <? 0x80 then Some (Some b0, r0)
      else if in_range 0xC2 0xDF b0 then
        match r0 with
        | b1 :: r1 => if is_cont b1 then Some (Some ((b0 - 0xC0) * 64 + (b1 - 0x80)), r1)
                      else Some (None, r0)
        | [] => Some (None, [])
        end
      else if in_range 0xE0 0xEF b0 then
        let lo := if b0 =? 0xE0 then 0xA0 else 0x80 in
        let hi := if b0 =? 0xED then 0x9F else 0xBF in
        match r0 with
        | b1 :: r1 =>
            if in_range lo hi b1 then
              match r1 with
              | b2 :: r2 =>
                  if is_cont b2
                  then Some (Some ((b0 - 0xE0) * 4096 + (b1 - 0x80) * 64 + (b2 - 0x80)), r2)
                  else Some (None, r1)
              | [] => Some (None, [])
              end
            else Some (None, r0)
        | [] => Some (None, [])
        end
      else if in_range 0xF0 0xF4 b0 then
        let lo := if b0 =? 0xF0 then 0x90 else 0x80 in
        let hi := if b0 =? 0xF4 then 0x8F else 0xBF in
        match r0 with
        | b1 :: r1 =>
            if in_range lo hi b1 then
              match r1 with
              | b2 :: r2 =>
                  if is_cont b2 then
                    match r2 with
                    | b3 :: r3 =>
                        if is_cont b3
                        then Some (Some ((b0 - 0xF0) * 262144 + (b1 - 0x80) * 4096
                                         + (b2 - 0x80) * 64 + (b3 - 0x80)), r3)
                        else Some (None, r2)
                    | [] => Some (None, [])
                    end
                  else Some (None, r1)
              | [] => Some (None, [])
              end
            else Some (None, r0)
        | [] => Some (None, [])
        end
      else Some (None, r0)
  end.

(** [String::from_utf8_lossy] and [std::str::from_utf8]; a step takes at least
    one byte. *)
Definition REPLACEMENT : Z := 0xFFFD.
Fixpoint utf8_items (fuel : nat) (bs : list Z) : list (option Z) :=
  match fuel with
  | O => []
  | S fuel => match utf8_next bs with
              | None => []
              | Some (c, rest) => c :: utf8_items fuel rest
              end
  end.
Definition from_utf8_lossy (bs : list Z) : text :=
  default REPLACEMENT <$> utf8_items (length bs) bs.
Definition from_utf8 (bs : list Z) : option text := mapM id (utf8_items (length bs) bs).

(** ** Splitting and trimming *)

(** [str::lines]: split behind every line feed, drop it and one carriage return
    before it; no empty line behind the last line feed. *)
Definition strip_cr (rev_line : text) : text :=
  match rev_line with c :: l => if c =? CR then l else rev_line | [] => [] end.
Fixpoint lines_from (rev_line : text) (s : text) : list text :=
  match s with
  | [] => match rev_line with [] => [] | _ => [rev rev_line] end
  | c :: s =>
      if c =? LF then rev (strip_cr rev_line) :: lines_from [] s
      else lines_from (c :: rev_line) s
  end.
Definition lines (s : text) : list text := lines_from [] s.

Definition is_whitespace (c : Z) : bool :=
  in_range 9 13 c || (c =? 32) || (c =? 0x85) || (c =? 0xA0) || (c =? 0x1680)
  || in_range 0x2000 0x200A c || (c =? 0x2028) || (c =? 0x2029) || (c =? 0x202F)
  || (c =? 0x205F) || (c =? 0x3000).
Fixpoint trim_start (s : text) : text :=
  match s with c :: s' => if is_whitespace c then trim_start s' else s | [] => [] end.
Definition trim (s : text) : text := rev (trim_start (rev (trim_start s))).

(** [split_once(sep)] on a character. *)
Fixpoint split_once (sep : Z) (s : text) : option (text * text) :=
  match s with
  | [] => None
  | c :: s =>
      if c =? sep then Some ([], s)
      else match split_once sep s with Some (a, b) => Some (c :: a, b) | None => None end
  end.
(** [split(sep)] on a character: always at least one piece. *)
Fixpoint split (sep : Z) (s : text) : list text :=
  match s with
  | [] => [[]]
  | c :: s =>
      if c =? sep then [] :: split sep s
      else match split sep s with p :: ps => (c :: p) :: ps | [] => [[c]] end
  end.

Fixpoint strip_prefix (p s : text) : option text :=
  match p, s with
  | [], _ => Some s
  | a :: p, b :: s => if a =? b then strip_prefix p s else None
  | _ :: _, [] => None
  end.
Definition starts_with (p s : text) : bool :=
  match strip_prefix p s with Some _ => true | None => false end.

Definition to_ascii_lower (c : Z) : Z := if in_range 65 90 c then c + 32 else c.
Definition eq_ignore_ascii_case (a b : text) : bool :=
  bool_decide (to_ascii_lower <$> a = to_ascii_lower <$> b).

(** The position of the first occurrence of a byte string. *)
Fixpoint find_sub (p bs : list Z) : option nat :=
  if starts_with p bs then Some O
  else match bs with [] => None | _ :: bs => S <$> find_sub p bs end.

(** ** Numbers *)

(** [parse::<uN>()] with the given maximum. *)
Definition digit (c : Z) : option Z := if in_range 48 57 c then Some (c - 48) else None.
Fixpoint parse_digits (max acc : Z) (s : text) : option Z :=
  match s with
  | [] => Some acc
  | c :: s =>
      d ← digit c;
      let v := 10 * acc + d in
      if max <? v then None else parse_digits max v s
  end.
Definition parse_uint (max : Z) (s : text) : option Z :=
  match s with
  | [] => None
  | 43 :: [] => None
  | 43 :: s => parse_digits max 0 s
  | _ => parse_digits max 0 s
  end.

(** [Display] of an unsigned integer; one digit per round. *)
Fixpoint decimal_loop (fuel : nat) (n : Z) (acc : text) : text :=
  match fuel with
  | O => acc
  | S fuel => if n <? 10 then (n + 48) :: acc
              else decimal_loop fuel (n / 10) ((n mod 10 + 48) :: acc)
  end.
Definition decimal (n : Z) : text := decimal_loop (S (Z.to_nat (Z.log2 n))) n [].

(** ** UTF-8 round trip *)

Lemma utf8_next_char c rest :
  is_scalar c -> utf8_next (utf8_char c ++ rest) = Some (Some c, rest).
Proof.
  unfold is_scalar. intros Hc. unfold utf8_char.
  destruct (Z.ltb_spec c 0x80); [cbn; by destruct (Z.ltb_spec c 0x80); [|lia]|].
  destruct (Z.ltb_spec c 0x800); [|destruct (Z.ltb_spec c 0x10000)].
  - pose proof (Z.div_mod c 64). pose proof (Z.mod_pos_bound c 64).
    cbn [app utf8_next]. unfold in_range, is_cont, in_range.
    destruct (Z.ltb_spec (0xC0 + c / 64) 0x80); [lia|].
    destruct (Z.leb_spec 0xC2 (0xC0 + c / 64)), (Z.leb_spec (0xC0 + c / 64) 0xDF); try lia. cbn [andb].
    destruct (Z.leb_spec 0x80 (0x80 + c mod 64)), (Z.leb_spec (0x80 + c mod 64) 0xBF); try lia.
    cbn [andb]. do 3 f_equal. lia.
  - set (x := c / 64). pose proof (Z.div_mod c 64). pose proof (Z.mod_pos_bound c 64).
    assert (c / 4096 = x / 64) as -> by (unfold x; rewrite Z.div_div by lia; done).
    pose proof (Z.div_mod x 64). pose proof (Z.mod_pos_bound x 64). fold x in H1.
    cbn [app utf8_next]. unfold in_range, is_cont, in_range.
    destruct (Z.ltb_spec (0xE0 + x / 64) 0x80); [lia|].
    destruct (Z.leb_spec 0xC2 (0xE0 + x / 64)); [|lia]. cbn [andb].
    destruct (Z.leb_spec (0xE0 + x / 64) 0xDF); [lia|].
    destruct (Z.leb_spec 0xE0 (0xE0 + x / 64)), (Z.leb_spec (0xE0 + x / 64) 0xEF); try lia. cbn [andb].
    destruct (Z.eqb_spec (0xE0 + x / 64) 0xE0), (Z.eqb_spec (0xE0 + x / 64) 0xED); try lia;
      repeat match goal with |- context [?a <=? ?b] => destruct (Z.leb_spec a b); [|lia] end;
      cbn [andb]; do 3 f_equal; lia.
  - set (x := c / 64). set (y := x / 64). pose proof (Z.div_mod c 64). pose proof (Z.mod_pos_bound c 64).
    assert (c / 4096 = y) as -> by (unfold y, x; rewrite Z.div_div by lia; done).
    assert (c / 262144 = y / 64) as -> by (unfold y, x; rewrite !Z.div_div by lia; done).
    pose proof (Z.div_mod x 64). pose proof (Z.mod_pos_bound x 64).
    pose proof (Z.div_mod y 64). pose proof (Z.mod_pos_bound y 64). fold x in H2. fold y in H4.
    cbn [app utf8_next]. unfold in_range, is_cont, in_range.
    destruct (Z.ltb_spec (0xF0 + y / 64) 0x80); [lia|].
    destruct (Z.leb_spec 0xC2 (0xF0 + y / 64)); [|lia]. cbn [andb].
    destruct (Z.leb_spec (0xF0 + y / 64) 0xDF); [lia|].
    destruct (Z.leb_spec 0xE0 (0xF0 + y / 64)); [|lia]. cbn [andb].
    destruct (Z.leb_spec (0xF0 + y / 64) 0xEF); [lia|].
    destruct (Z.leb_spec 0xF0 (0xF0 + y / 64)), (Z.leb_spec (0xF0 + y / 64) 0xF4); try lia. cbn [andb].
    destruct (Z.eqb_spec (0xF0 + y / 64) 0xF0), (Z.eqb_spec (0xF0 + y / 64) 0xF4); try lia;
      repeat match goal with |- context [?a <=? ?b] => destruct (Z.leb_spec a b); [|lia] end;
      cbn [andb]; do 3 f_equal; lia.
Qed.

Lemma utf8_char_length c : is_scalar c -> (1 <= length (utf8_char c))%nat.
Proof. intros _. unfold utf8_char. repeat case_match; simpl; lia. Qed.

Lemma utf8_items_encode s fuel :
  Forall is_scalar s -> (length (utf8_encode s) <= fuel)%nat ->
  utf8_items fuel (utf8_encode s) = Some <$> s.
Proof.
  intros Hs. revert fuel. induction Hs as [|c s Hc _ IH]; intros fuel Hf.
  { by destruct fuel. }
  unfold utf8_encode in *. cbn [fmap list_fmap concat] in *. rewrite length_app in Hf.
  pose proof (utf8_char_length c Hc).
  destruct fuel as [|fuel]; [lia|]. cbn [utf8_items]. rewrite utf8_next_char by done.
  by rewrite IH by lia.
Qed.

Lemma from_utf8_encode s : Forall is_scalar s -> from_utf8 (utf8_encode s) = Some s.
Proof.
  intros Hs. unfold from_utf8. rewrite utf8_items_encode by done. clear Hs.
  induction s as [|c s IH]; [done|]. cbn. cbn in IH. by rewrite IH.
Qed.

Lemma from_utf8_lossy_encode s : Forall is_scalar s -> from_utf8_lossy (utf8_encode s) = s.
Proof.
  intros Hs. unfold from_utf8_lossy. rewrite utf8_items_encode by done. clear Hs.
  induction s as [|c s IH]; [done|]. cbn. cbn in IH. by rewrite IH.
Qed.

Lemma utf8_encode_app s t : utf8_encode (s ++ t) = utf8_encode s ++ utf8_encode t.
Proof. unfold utf8_encode. by rewrite fmap_app, concat_app. Qed.

Lemma utf8_encode_cons c s : utf8_encode (c :: s) = utf8_char c ++ utf8_encode s.
Proof. done. Qed.

Lemma utf8_char_ascii c : 0 <= c < 0x80 -> utf8_char c = [c].
Proof. intros Hc. unfold utf8_char. destruct (Z.ltb_spec c 0x80); [done|lia]. Qed.

(** An ASCII byte occurs in the encoding only where the character does. *)
Lemma utf8_char_high c : 0x80 <= c -> Forall (fun b => 0x80 <= b) (utf8_char c).
Proof.
  intros Hc. unfold utf8_char. destruct (Z.ltb_spec c 0x80); [lia|].
  assert (forall x, 0x80 <= 0x80 + x mod 64) as Hm
    by (intros x; pose proof (Z.mod_pos_bound x 64 ltac:(lia)); lia).
  assert (forall k, 0 < k -> 0 <= c / k) as Hd by (intros; apply Z.div_pos; lia).
  pose proof (Hd 64 ltac:(lia)). pose proof (Hd 4096 ltac:(lia)). pose proof (Hd 262144 ltac:(lia)).
  repeat case_match; rewrite !Forall_cons; split_and!; auto; lia.
Qed.

Lemma utf8_char_no_ascii c b : 0 <= c -> b < 0x80 -> b ∈ utf8_char c -> c = b.
Proof.
  intros Hc Hb Hin. destruct (Z.lt_ge_cases c 0x80).
  - rewrite utf8_char_ascii in Hin by lia. by apply list_elem_of_singleton in Hin.
  - pose proof (utf8_char_high c H) as Hf. rewrite Forall_forall in Hf. apply Hf in Hin. lia.
Qed.

(** ** Decimal numbers *)

Definition decimal_value (s : text) (acc : Z) : Z := fold_left (fun v c => 10 * v + (c - 48)) s acc.
Definition is_digit (c : Z) : Prop := 48 <= c <= 57.

Lemma decimal_loop_digits fuel n acc :
  0 <= n -> Forall is_digit acc -> Forall is_digit (decimal_loop fuel n acc).
Proof.
  revert n acc. induction fuel as [|fuel IH]; intros n acc Hn Ha; [done|]. cbn [decimal_loop].
  destruct (Z.ltb_spec n 10).
  - constructor; [unfold is_digit; lia|done].
  - pose proof (Z.mod_pos_bound n 10). apply IH; [apply Z.div_pos; lia|].
    constructor; [unfold is_digit; lia|done].
Qed.

Lemma decimal_loop_value fuel n acc :
  0 <= n < 2 ^ Z.of_nat fuel ->
  decimal_value (decimal_loop fuel n acc) 0 = decimal_value acc n
  /\ (0 < fuel -> decimal_loop fuel n acc <> [])%nat.
Proof.
  revert n acc. induction fuel as [|fuel IH]; intros n acc Hn.
  { assert (n = 0) as -> by (cbn in Hn; lia). split; [done|lia]. }
  cbn [decimal_loop]. destruct (Z.ltb_spec n 10).
  { split; [|done]. cbn. f_equal. lia. }
  assert (0 <= n / 10 < 2 ^ Z.of_nat fuel) as Hd.
  { split; [apply Z.div_pos; lia|]. rewrite Nat2Z.inj_succ, Z.pow_succ_r in Hn by lia.
    apply Z.div_lt_upper_bound; lia. }
  destruct (IH (n / 10) ((n mod 10 + 48) :: acc) Hd) as [-> Hne]. split.
  - cbn [decimal_value fold_left]. unfold decimal_value. cbn [fold_left]. f_equal.
    pose proof (Z.div_mod n 10). lia.
  - intros _. apply Hne. destruct fuel; [cbn in Hd; pose proof (Z.div_le_lower_bound n 10 1); lia|lia].
Qed.

Lemma decimal_spec n :
  0 <= n -> decimal_value (decimal n) 0 = n /\ Forall is_digit (decimal n) /\ decimal n <> [].
Proof.
  intros Hn. unfold decimal. set (fuel := S (Z.to_nat (Z.log2 n))).
  assert (0 <= n < 2 ^ Z.of_nat fuel) as Hb.
  { split; [done|]. pose proof (Z.log2_nonneg n). unfold fuel. rewrite Nat2Z.inj_succ, Z2Nat.id by done.
    destruct (Z.eq_dec n 0) as [->|Hz]; [done|]. apply Z.log2_spec. lia. }
  destruct (decimal_loop_value fuel n [] Hb) as [Hv Hne]. split; [done|].
  split; [by apply decimal_loop_digits|]. apply Hne. unfold fuel. lia.
Qed.

Lemma parse_digits_value max s acc :
  Forall is_digit s -> 0 <= acc -> decimal_value s acc <= max ->
  parse_digits max acc s = Some (decimal_value s acc).
Proof.
  intros Hs. revert acc. induction Hs as [|c s Hc Hs IH]; intros acc Ha Hm; [done|].
  cbn [parse_digits]. unfold digit, in_range, is_digit in *.
  destruct (Z.leb_spec 48 c), (Z.leb_spec c 57); try lia. cbn [andb mbind option_bind].
  assert (forall s a b, Forall is_digit s -> 0 <= a <= b -> a <= decimal_value s b) as Hmono.
  { clear. intros s a b Hs. revert a b. induction Hs as [|c s Hc _ IH]; intros a b Hab; [cbn; lia|].
    cbn. apply IH. unfold is_digit in Hc. lia. }
  change (decimal_value (c :: s) acc) with (decimal_value s (10 * acc + (c - 48))) in *.
  destruct (Z.ltb_spec max (10 * acc + (c - 48))) as [Hlt|_].
  - pose proof (Hmono s (10 * acc + (c - 48)) (10 * acc + (c - 48)) Hs). lia.
  - apply IH; lia.
Qed.

(** [n.to_string().parse()] gives [n] back. *)
Lemma parse_decimal max n : 0 <= n <= max -> parse_uint max (decimal n) = Some n.
Proof.
  intros Hn. destruct (decimal_spec n) as (Hv & Hd & Hne); [lia|].
  rewrite <- Hv at 2. rewrite <- (parse_digits_value max) by (done || lia).
  unfold parse_uint. destruct (decimal n) as [|c s]; [done|].
  apply Forall_cons in Hd as [Hc _]. unfold is_digit in Hc.
  destruct c as [|p|p]; try done. repeat (destruct p as [p|p|]; try done; try lia).
Qed.

(** ** Lines *)

Definition no_break (l : text) : Prop := CR ∉ l /\ LF ∉ l.

Lemma lines_from_line r l s :
  LF ∉ l -> lines_from r (l ++ LF :: s) = rev (strip_cr (rev l ++ r)) :: lines_from [] s.
Proof.
  revert r. induction l as [|c l IH]; intros r Hl; cbn [app lines_from].
  - done.
  - apply not_elem_of_cons in Hl as [Hc Hl]. destruct (Z.eqb_spec c LF); [done|].
    rewrite IH by done. cbn [rev]. by rewrite <- app_assoc.
Qed.

Lemma lines_from_last r l : LF ∉ l -> l <> [] -> lines_from r l = [rev r ++ l].
Proof.
  revert r. induction l as [|c l IH]; intros r Hl Hne; [done|]. cbn [lines_from].
  apply not_elem_of_cons in Hl as [Hc Hl]. destruct (Z.eqb_spec c LF); [done|].
  destruct l as [|c' l]; [done|]. rewrite IH by done. cbn [rev]. by rewrite <- app_assoc.
Qed.

(** The lines of a message head: each line ended by CRLF but the last. *)
Lemma lines_joined ls l :
  Forall no_break ls -> no_break l -> l <> [] ->
  lines (concat ((fun x => x ++ CRLF) <$> ls) ++ l) = ls ++ [l].
Proof.
  intros Hls [_ Hl] Hne. unfold lines. induction Hls as [|x ls [Hcr Hlf] _ IH]; cbn.
  - rewrite lines_from_last by done. done.
  - rewrite <- !app_assoc. cbn [CRLF app].
    change (x ++ CR :: LF :: ?t) with (x ++ [CR] ++ LF :: t). rewrite app_assoc.
    rewrite lines_from_line; [|apply not_elem_of_app; split; [done|set_solver]].
    rewrite app_nil_r, rev_app_distr. cbn. rewrite rev_involutive. f_equal. exact IH.
Qed.

(** Every line ended by CRLF. *)
Lemma lines_crlf ls :
  Forall no_break ls -> lines (concat ((fun x => x ++ CRLF) <$> ls)) = ls.
Proof.
  unfold lines. induction 1 as [|x ls [Hcr Hlf] _ IH]; cbn; [done|].
  rewrite <- !app_assoc. cbn [CRLF app].
  change (x ++ CR :: LF :: ?t) with (x ++ [CR] ++ LF :: t). rewrite app_assoc.
  rewrite lines_from_line; [|apply not_elem_of_app; split; [done|set_solver]].
  rewrite app_nil_r, rev_app_distr. cbn. rewrite rev_involutive. f_equal. exact IH.
Qed.

Lemma utf8_no_ascii l b :
  Forall is_scalar l -> b < 0x80 -> b ∉ l -> b ∉ utf8_encode l.
Proof.
  intros Hl Hb. unfold utf8_encode. induction Hl as [|c l Hc _ IH]; cbn; intros Hn; [set_solver|].
  apply not_elem_of_cons in Hn as [Hbc Hn]. apply not_elem_of_app. split; [|auto].
  intros Hin. apply utf8_char_no_ascii in Hin; [done|unfold is_scalar in Hc; lia|done].
Qed.

(** ** Fields *)

Lemma split_once_here sep a b : sep ∉ a -> split_once sep (a ++ sep :: b) = Some (a, b).
Proof.
  induction a as [|c a IH]; intros Ha; cbn.
  - by rewrite Z.eqb_refl.
  - apply not_elem_of_cons in Ha as [Hc Ha]. destruct (Z.eqb_spec c sep); [done|]. by rewrite IH.
Qed.

(** Text that [trim] leaves alone. *)
Definition trimmed (s : text) : Prop := trim_start s = s /\ trim_start (rev s) = rev s.

Lemma trim_trimmed s : trimmed s -> trim s = s.
Proof. intros [H1 H2]. unfold trim. rewrite H1, H2. apply rev_involutive. Qed.

Lemma trim_leading_space s : trimmed s -> trim (32 :: s) = s.
Proof. intros Hs. unfold trim. cbn. by apply trim_trimmed. Qed.

Lemma strip_prefix_app p s : strip_prefix p (p ++ s) = Some s.
Proof. induction p as [|c p IH]; [by destruct s|]. cbn. by rewrite Z.eqb_refl. Qed.

Lemma strip_prefix_some p s r : strip_prefix p s = Some r -> s = p ++ r.
Proof.
  revert s. induction p as [|c p IH]; intros s Hs; cbn in Hs; [by injection Hs as <-|].
  destruct s as [|d s]; [done|]. destruct (Z.eqb_spec c d); [|done]. subst. cbn. f_equal. auto.
Qed.

Lemma split_none sep s : sep ∉ s -> split sep s = [s].
Proof.
  induction s as [|c s IH]; intros Hs; [done|]. apply not_elem_of_cons in Hs as [Hc Hs]. cbn.
  destruct (Z.eqb_spec c sep); [done|]. by rewrite IH.
Qed.
Lemma split_here sep a b : sep ∉ a -> split sep (a ++ sep :: b) = a :: split sep b.
Proof.
  induction a as [|c a IH]; intros Ha; cbn.
  - by rewrite Z.eqb_refl.
  - apply not_elem_of_cons in Ha as [Hc Ha]. destruct (Z.eqb_spec c sep); [done|]. by rewrite IH.
Qed.

(** ** Literals *)

Lemma is_digit_scalar l : Forall is_digit l -> Forall is_scalar l.
Proof. intros H. eapply Forall_impl; [exact H|]. unfold is_digit, is_scalar. lia. Qed.
Lemma is_digit_not c l : Forall is_digit l -> c < 48 -> c ∉ l.
Proof. intros Hl Hc Hin. rewrite Forall_forall in Hl. apply Hl in Hin. unfold is_digit in Hin. lia. Qed.

Lemma scalar_lit s : forallb (fun c => bool_decide (0 <= c < 128)) (lit s) = true -> Forall is_scalar (lit s).
Proof.
  intros H. rewrite forallb_forall in H. apply Forall_forall. intros c Hc.
  apply list_elem_of_In in Hc. apply H, bool_decide_eq_true in Hc. unfold is_scalar. lia.
Qed.

Lemma not_in_lit c s : forallb (fun d => negb (c =? d)) (lit s) = true -> c ∉ lit s.
Proof.
  intros H Hin. rewrite forallb_forall in H. apply list_elem_of_In in Hin. apply H in Hin.
  rewrite Z.eqb_refl in Hin. done.
Qed.
