(* ===== verification/Clock.v ===== *)
(** * Clock arithmetic ([airplay-timing/src/clock.rs])

    Conversions between wall-clock nanoseconds, RTP sample counts and NTP
    fixed-point time.  A reading of the system clock is an argument; a
    [SystemTime] is its distance from the Unix epoch in nanoseconds, which may
    be negative.  Division by a sample rate of zero panics and is [None]. *)

From S2P Require Import Prelude Wire.

Module Clock.

Definition NTP_EPOCH_OFFSET : Z := 2208988800.
Definition NANOS : Z := 1000000000.

Record TimestampPair := { rtp : Z; wall_ns : Z }.

Record ClockOffset := { offset_ns : Z; error_ns : Z; rtt_ns : Z }.
Definition default_offset : ClockOffset := {| offset_ns := 0; error_ns := 0; rtt_ns := 0 |}.

Record Clock := { start_instant : Z; start_system : Z; sample_rate : Z }.

(** [t.duration_since(UNIX_EPOCH).unwrap_or(ZERO).as_nanos() as u64] *)
Definition since_epoch (t : Z) : Z := wrap 64 (Z.max 0 t).

Definition now_mono_ns (c : Clock) (now : Z) : Z := wrap 64 (sat_sub now (start_instant c)).
Definition now_wall_ns (now : Z) : Z := since_epoch now.

Definition samples_to_ns (samples rate : Z) : option Z :=
  if rate =? 0 then None else Some (samples * NANOS / rate).

Definition ns_to_samples (ns rate : Z) : Z := wrap 32 (ns * rate / NANOS).

Definition unix_to_ntp (unix_ns : Z) : Z :=
  let unix_secs := unix_ns / NANOS in
  let frac_ns := unix_ns mod NANOS in
  let ntp_secs := unix_secs + NTP_EPOCH_OFFSET in
  let ntp_frac := Z.shiftl frac_ns 32 / NANOS in
  Z.lor (wrap 64 (Z.shiftl ntp_secs 32)) ntp_frac.

Definition ntp_to_unix (ntp : Z) : Z :=
  let ntp_secs := Z.shiftr ntp 32 in
  let ntp_frac := Z.land ntp 0xFFFFFFFF in
  let unix_secs := sat_sub ntp_secs NTP_EPOCH_OFFSET in
  let frac_ns := Z.shiftr (ntp_frac * NANOS) 32 in
  unix_secs * NANOS + frac_ns.

Definition now_ntp (now : Z) : Z := unix_to_ntp (now_wall_ns now).

Definition wall_to_rtp (c : Clock) (wall : Z) : Z :=
  ns_to_samples (sat_sub wall (since_epoch (start_system c))) (sample_rate c).

Definition rtp_to_wall (c : Clock) (r : Z) : option Z :=
  elapsed ← samples_to_ns r (sample_rate c);
  Some (wrap 64 (since_epoch (start_system c) + elapsed)).

Definition timestamp_pair (c : Clock) (now : Z) : TimestampPair :=
  let wall := now_wall_ns now in {| rtp := wall_to_rtp c wall; wall_ns := wall |}.

(** The deprecated conversion: adds, and wraps. *)
Definition apply_offset (local : Z) (o : ClockOffset) : Z :=
  wrap 64 (as_signed 64 local + offset_ns o).

(** ** NTP time *)

(** The last second of NTP era 0, 7 February 2036. *)
Definition era0_ns : Z := (2 ^ 32 - NTP_EPOCH_OFFSET) * NANOS.

Lemma frac_bound n : 0 <= n < NANOS -> 0 <= Z.shiftl n 32 / NANOS < 2 ^ 32.
Proof.
  intros H. unfold NANOS in *. rewrite Z.shiftl_mul_pow2 by lia.
  split; [apply Z.div_pos; lia|]. apply Z.div_lt_upper_bound; lia.
Qed.

(** In era 0 the two words of the time stamp do not overlap. *)
Lemma unix_to_ntp_words ns :
  0 <= ns < era0_ns ->
  unix_to_ntp ns = (ns / NANOS + NTP_EPOCH_OFFSET) * 2 ^ 32 + Z.shiftl (ns mod NANOS) 32 / NANOS.
Proof.
  intros H. unfold unix_to_ntp.
  pose proof (frac_bound (ns mod NANOS) ltac:(apply Z.mod_pos_bound; unfold NANOS; lia)) as Hf.
  assert (0 <= ns / NANOS < 2 ^ 32 - NTP_EPOCH_OFFSET) as Hs.
  { split; [apply Z.div_pos; unfold NANOS; lia|].
    apply Z.div_lt_upper_bound; unfold era0_ns, NANOS in *; lia. }
  unfold NTP_EPOCH_OFFSET in *.
  rewrite wrap_id.
  - rewrite Z.lor_comm, lor_shiftl_add by (unfold in_width; lia). lia.
  - rewrite Z.shiftl_mul_pow2 by lia. unfold in_width. lia.
Qed.

(** Down to the 2^-32 second grid and back costs less than a nanosecond. *)
Lemma frac_back n :
  0 <= n < NANOS ->
  n - 1 <= Z.shiftr (Z.shiftl n 32 / NANOS * NANOS) 32 <= n.
Proof.
  intros H. rewrite Z.shiftl_mul_pow2, Z.shiftr_div_pow2 by lia. unfold NANOS in *.
  pose proof (Z.div_mod (n * 2 ^ 32) 1000000000 ltac:(lia)) as Hd.
  pose proof (Z.mod_pos_bound (n * 2 ^ 32) 1000000000 ltac:(lia)) as Hm.
  set (f := n * 2 ^ 32 / 1000000000) in *.
  pose proof (Z.div_mod (f * 1000000000) (2 ^ 32) ltac:(lia)) as Hd2.
  pose proof (Z.mod_pos_bound (f * 1000000000) (2 ^ 32) ltac:(lia)) as Hm2.
  nia.
Qed.

Lemma ntp_words w f : 0 <= f < 2 ^ 32 -> 0 <= w ->
  Z.shiftr (w * 2 ^ 32 + f) 32 = w /\ Z.land (w * 2 ^ 32 + f) 0xFFFFFFFF = f.
Proof.
  intros Hf Hw. change 0xFFFFFFFF with (Z.ones 32).
  rewrite Z.shiftr_div_pow2, Z.land_ones by lia.
  split.
  - rewrite Z.div_add_l, Z.div_small by lia. lia.
  - rewrite Z.add_comm, Z.mod_add, Z.mod_small by lia. done.
Qed.

(** The wire carries time without drift: until the NTP era ends, converting to
    NTP and back loses at most one nanosecond and never gains. *)
Theorem ntp_time_survives_wire ns :
  0 <= ns < era0_ns -> in_width 64 (unix_to_ntp ns) /\ ns - 1 <= ntp_to_unix (unix_to_ntp ns) <= ns.
Proof.
  intros H. rewrite unix_to_ntp_words by done.
  pose proof (frac_bound (ns mod NANOS) ltac:(apply Z.mod_pos_bound; unfold NANOS; lia)) as Hf.
  pose proof (frac_back (ns mod NANOS) ltac:(apply Z.mod_pos_bound; unfold NANOS; lia)) as Hb.
  assert (0 <= ns / NANOS < 2 ^ 32 - NTP_EPOCH_OFFSET) as Hs.
  { split; [apply Z.div_pos; unfold NANOS; lia|].
    apply Z.div_lt_upper_bound; unfold era0_ns, NANOS in *; lia. }
  unfold NTP_EPOCH_OFFSET in *. split; [unfold in_width; lia|]. unfold ntp_to_unix.
  destruct (ntp_words (ns / NANOS + 2208988800) (Z.shiftl (ns mod NANOS) 32 / NANOS) Hf
              ltac:(lia)) as [-> ->].
  unfold NTP_EPOCH_OFFSET, sat_sub.
  pose proof (Z.div_mod ns NANOS ltac:(unfold NANOS; lia)). lia.
Qed.

(** Later times alias: the first instant of era 1 reads back as the epoch. *)
Example era1_aliases : ntp_to_unix (unix_to_ntp era0_ns) = 0.
Proof. reflexivity. Qed.

(** ** RTP time *)

(** For any audio rate, a sample position converted to wall-clock time and back
    is exact or one sample early. *)
Theorem rtp_wall_roundtrip c r wall :
  0 < sample_rate c <= NANOS -> in_width 32 r ->
  since_epoch (start_system c) < 2 ^ 64 - 2 ^ 32 * NANOS ->
  rtp_to_wall c r = Some wall -> r - 1 <= wall_to_rtp c wall <= r.
Proof.
  intros Hrate [Hr0 Hr] Hstart. unfold rtp_to_wall, samples_to_ns.
  destruct (Z.eqb_spec (sample_rate c) 0) as [?|_]; [lia|]. cbn. intros [= <-].
  unfold wall_to_rtp. set (s := since_epoch (start_system c)) in *.
  assert (0 <= s) by (apply wrap_bound; lia).
  set (e := r * NANOS / sample_rate c).
  pose proof (Z.div_mod (r * NANOS) (sample_rate c) ltac:(lia)) as Hd.
  pose proof (Z.mod_pos_bound (r * NANOS) (sample_rate c) ltac:(lia)) as Hm.
  fold e in Hd.
  assert (0 <= e <= r * NANOS) as He.
  { unfold e. split; [apply Z.div_pos; unfold NANOS in *; nia|].
    apply Z.div_le_upper_bound; unfold NANOS in *; nia. }
  rewrite wrap_id by (unfold in_width, NANOS in *; lia).
  replace (sat_sub (s + e) s) with e by (unfold sat_sub; lia).
  assert (r - 1 <= e * sample_rate c / NANOS <= r) as Hb.
  { split; [apply Z.div_le_lower_bound|apply Z.div_le_upper_bound]; unfold NANOS in *; nia. }
  unfold ns_to_samples. destruct (Z.eq_dec (e * sample_rate c / NANOS) (-1)) as [E|E].
  - exfalso. assert (0 <= e * sample_rate c / NANOS) by (apply Z.div_pos; unfold NANOS in *; nia).
    lia.
  - rewrite wrap_id by (unfold in_width; lia). done.
Qed.

End Clock.
