(* ===== verification/TimingDiag.v ===== *)
(** * Timing diagnostics ([airplay-timing/src/diagnostics.rs])

    Measurements of a remote clock from four time stamps, the shared bounded
    history of measurements, and the snapshot a reader takes of it: age,
    staleness and a least-squares drift estimate in [f64]. *)

From S2P Require Import Prelude Float32 AppState Model Recovery Wire.
Import Recovery.

Module TimingDiag.

(** ** Measurements *)

Record TimingMeasurement := {
  measurement_sequence : Z;
  observed_elapsed_ns : Z;
  offset_local_minus_master_ns : Z;
  mean_path_delay_ns : Z;
}.
#[export] Instance eta_TimingMeasurement : Eta TimingMeasurement := fun m =>
  {| measurement_sequence := measurement_sequence m; observed_elapsed_ns := observed_elapsed_ns m;
     offset_local_minus_master_ns := offset_local_minus_master_ns m;
     mean_path_delay_ns := mean_path_delay_ns m |}.

(** [i64::try_from] and [u64::checked_sub]. *)
Definition try_i64 (x : Z) : option Z :=
  if (- 2 ^ 63 <=? x) && (x <? 2 ^ 63) then Some x else None.
Definition checked_sub (x y : Z) : option Z := if y <=? x then Some (x - y) else None.

Definition ptp_measurement (sequence elapsed t1 t2 t3 t4 : Z) : option TimingMeasurement :=
  let rx_leg := t2 - t1 in
  let tx_leg := t3 - t4 in
  offset ← try_i64 ((rx_leg + tx_leg) ÷ 2);
  uplink ← checked_sub t4 t1;
  downlink ← checked_sub t3 t2;
  path ← checked_sub uplink downlink;
  Some {| measurement_sequence := sequence; observed_elapsed_ns := elapsed;
          offset_local_minus_master_ns := offset; mean_path_delay_ns := path / 2 |}.

Definition local_to_master_ns (local offset : Z) : option Z :=
  let master := local - offset in
  if (master <? 0) || (2 ^ 64 - 1 <? master) then None else Some master.

Definition local_to_master (m : TimingMeasurement) (local : Z) : option Z :=
  local_to_master_ns local (offset_local_minus_master_ns m).

(** ** The shared history *)

Inductive TimingReferenceKind := SenderReference | PtpMeasured.

Definition MAX_SAMPLES : nat := 256.
Definition MIN_DRIFT_SAMPLES : nat := 8.
Definition MIN_DRIFT_WINDOW_NS : Z := 2000000000.
Definition STALENESS_FLOOR_NS : Z := 2000000000.
Definition STALENESS_MEDIAN_FACTOR : Z := 5.

Record SharedSamples := {
  reference : TimingReferenceKind;
  samples : list TimingMeasurement;
  next_sequence : Z;
}.

Definition timing_diagnostics_pair (r : TimingReferenceKind) : SharedSamples :=
  {| reference := r; samples := []; next_sequence := 1 |}.

(** [while self.samples.len() > MAX_SAMPLES { pop_front }] *)
Definition trim_front (l : list TimingMeasurement) : list TimingMeasurement :=
  drop (length l - MAX_SAMPLES) l.

Definition push (s : SharedSamples) (m : TimingMeasurement) : SharedSamples :=
  let stamped := m <| measurement_sequence := next_sequence s |> in
  {| reference := reference s;
     samples := trim_front (samples s ++ [stamped]);
     next_sequence := u64_succ (next_sequence s) |}.

(** ** Drift *)

Definition f64_sub : f64 -> f64 -> f64 := SFsub 53 1024.
Definition f64_sqrt : f64 -> f64 := SFsqrt 53 1024.
Definition f64_zero : f64 := S754_zero false.

Record DriftEstimate := {
  drift_ppm : f64;
  sample_count : Z;
  window_ns : Z;
  residual_rms_ns : f64;
}.

Record Sums := { sum_x : f64; sum_y : f64; sum_xx : f64; sum_xy : f64 }.

Definition sample_x (origin : f64) (m : TimingMeasurement) : f64 :=
  f64_sub (f64_of_Z (observed_elapsed_ns m)) origin.
Definition sample_y (m : TimingMeasurement) : f64 := f64_of_Z (offset_local_minus_master_ns m).

Definition add_sample (origin : f64) (s : Sums) (m : TimingMeasurement) : Sums :=
  let x := sample_x origin m in
  let y := sample_y m in
  {| sum_x := f64_add (sum_x s) x; sum_y := f64_add (sum_y s) y;
     sum_xx := f64_add (sum_xx s) (f64_mul x x); sum_xy := f64_add (sum_xy s) (f64_mul x y) |}.

Definition add_residual (origin slope intercept : f64) (acc : f64) (m : TimingMeasurement) : f64 :=
  let residual :=
    f64_sub (sample_y m) (f64_add (f64_mul slope (sample_x origin m)) intercept) in
  f64_add acc (f64_mul residual residual).

Definition drift (s : SharedSamples) : option DriftEstimate :=
  oldest ← head (samples s);
  newest ← last (samples s);
  window ← checked_sub (observed_elapsed_ns newest) (observed_elapsed_ns oldest);
  if (length (samples s) <? MIN_DRIFT_SAMPLES)%nat || (window <? MIN_DRIFT_WINDOW_NS) then None
  else
    let n := f64_of_Z (Z.of_nat (length (samples s))) in
    let origin := f64_of_Z (observed_elapsed_ns oldest) in
    let sums := fold_left (add_sample origin) (samples s)
      {| sum_x := f64_zero; sum_y := f64_zero; sum_xx := f64_zero; sum_xy := f64_zero |} in
    let denominator := f64_sub (f64_mul n (sum_xx sums)) (f64_mul (sum_x sums) (sum_x sums)) in
    let slope :=
      if SFeqb denominator f64_zero then f64_zero
      else f64_div (f64_sub (f64_mul n (sum_xy sums)) (f64_mul (sum_x sums) (sum_y sums)))
             denominator in
    let intercept := f64_div (f64_sub (sum_y sums) (f64_mul slope (sum_x sums))) n in
    let residuals := fold_left (add_residual origin slope intercept) (samples s) f64_zero in
    Some {| drift_ppm := f64_mul slope (f64_of_Z 1000000);
            sample_count := wrap 16 (Z.of_nat (length (samples s)));
            window_ns := window;
            residual_rms_ns := f64_sqrt (f64_div residuals n) |}.

(** ** Staleness *)

Fixpoint gaps (l : list TimingMeasurement) : list Z :=
  match l with
  | older :: ((newer :: _) as l') =>
      sat_sub (observed_elapsed_ns newer) (observed_elapsed_ns older) :: gaps l'
  | _ => []
  end.

Definition median_interval_ns (s : SharedSamples) : option Z :=
  if (length (samples s) <? 2)%nat then None
  else let sorted := isort Z.leb (gaps (samples s)) in sorted !! (length sorted / 2)%nat.

(** [u64::saturating_mul] *)
Definition sat_mul64 (x y : Z) : Z := Z.min (x * y) (2 ^ 64 - 1).

Definition staleness_threshold_ns (s : SharedSamples) : Z :=
  match median_interval_ns s with
  | Some median => Z.max STALENESS_FLOOR_NS (sat_mul64 STALENESS_MEDIAN_FACTOR median)
  | None => STALENESS_FLOOR_NS
  end.

Record TimingDiagnosticsSnapshot := {
  ts_reference : TimingReferenceKind;
  ts_latest : option TimingMeasurement;
  ts_sample_age_ns : option Z;
  ts_stale : bool;
  ts_drift : option DriftEstimate;
}.

Definition snapshot (s : SharedSamples) (now : Z) : TimingDiagnosticsSnapshot :=
  let latest := last (samples s) in
  let age := (fun m => sat_sub now (observed_elapsed_ns m)) <$> latest in
  {| ts_reference := reference s;
     ts_latest := latest;
     ts_sample_age_ns := age;
     ts_stale := is_some_and age (fun a => staleness_threshold_ns s <? a);
     ts_drift := drift s |}.

(** ** What a measurement means

    [theta] is how far the local clock is ahead of the master; [d1] and [d2]
    are the times the two messages spend on the way. *)

Lemma try_i64_some x : in_signed 64 x -> try_i64 x = Some x.
Proof.
  intros [H1 H2]. unfold try_i64. cbn in H1, H2.
  destruct (Z.leb_spec (- 2 ^ 63) x); [|lia]. destruct (Z.ltb_spec x (2 ^ 63)); [done|lia].
Qed.

Lemma checked_sub_some x y : y <= x -> checked_sub x y = Some (x - y).
Proof. intros H. unfold checked_sub. destruct (Z.leb_spec y x); [done|lia]. Qed.

Theorem exchange_measures_offset seq elapsed t1 t3 theta d1 d2 :
  0 <= d1 -> 0 <= d2 -> t1 + d1 + theta <= t3 ->
  Z.abs theta + d1 + d2 < 2 ^ 63 ->
  exists m, ptp_measurement seq elapsed t1 (t1 + d1 + theta) t3 (t3 - theta + d2) = Some m
    /\ mean_path_delay_ns m = (d1 + d2) / 2
    /\ Z.abs (2 * (offset_local_minus_master_ns m - theta) - (d1 - d2)) <= 1
    /\ (d1 = d2 -> offset_local_minus_master_ns m = theta).
Proof.
  intros H1 H2 H3 Hb. unfold ptp_measurement.
  replace (t1 + d1 + theta - t1 + (t3 - (t3 - theta + d2))) with (2 * theta + (d1 - d2)) by lia.
  pose proof (quot2_bounds (2 * theta + (d1 - d2))) as Hq.
  rewrite try_i64_some by (unfold in_signed; change (64 - 1) with 63; lia). cbn.
  rewrite !checked_sub_some by lia. cbn. rewrite checked_sub_some by lia. cbn.
  eexists. split; [reflexivity|]. cbn. split_and!.
  - f_equal. lia.
  - lia.
  - intros ->. lia.
Qed.

(** ** What the history holds *)

Definition record_all (r : TimingReferenceKind) (ms : list TimingMeasurement) : SharedSamples :=
  fold_left push ms (timing_diagnostics_pair r).

(** The recorded measurements with the sequence numbers they get. *)
Definition stamped (ms : list TimingMeasurement) : list TimingMeasurement :=
  imap (fun i m => m <| measurement_sequence := Z.of_nat i + 1 |>) ms.

(** The last [n] elements. *)
Definition newest {A} (n : nat) (l : list A) : list A := drop (length l - n) l.

Lemma newest_snoc {A} n (l : list A) x : (0 < n)%nat -> newest n (newest n l ++ [x]) = newest n (l ++ [x]).
Proof.
  intros Hn. unfold newest. rewrite !length_app, length_drop. cbn [length].
  destruct (decide (length l <= n)%nat).
  - replace (length l - n)%nat with O by lia. rewrite drop_0. f_equal. lia.
  - rewrite (drop_app_le l) by lia. rewrite drop_app_le by (rewrite length_drop; lia).
    rewrite drop_drop. do 2 f_equal. lia.
Qed.

Lemma stamped_snoc ms m :
  stamped (ms ++ [m]) = stamped ms ++ [m <| measurement_sequence := Z.of_nat (length ms) + 1 |>].
Proof. unfold stamped. rewrite imap_app. cbn. do 3 f_equal. by rewrite Nat.add_0_r. Qed.

Lemma record_all_state r ms :
  Z.of_nat (length ms) < 2 ^ 64 - 1 ->
  record_all r ms = {| reference := r; samples := newest MAX_SAMPLES (stamped ms);
                       next_sequence := Z.of_nat (length ms) + 1 |}.
Proof.
  unfold record_all. induction ms as [|m ms IH] using rev_ind; intros Hb; [done|].
  rewrite length_app in Hb. cbn [length] in Hb.
  rewrite fold_left_app, IH by lia. cbn [fold_left]. unfold push. cbn [reference samples next_sequence].
  f_equal.
  - unfold trim_front. change (drop (length ?l - MAX_SAMPLES) ?l) with (newest MAX_SAMPLES l).
    rewrite stamped_snoc. rewrite newest_snoc; [done|unfold MAX_SAMPLES; lia].
  - rewrite u64_succ_no_overflow by lia. rewrite length_app. cbn [length]. lia.
Qed.

Lemma last_newest {A} n (l : list A) : (0 < n)%nat -> last (newest n l) = last l.
Proof.
  intros Hn. destruct l as [|x l _] using rev_ind; [done|]. unfold newest.
  rewrite drop_app_le by (rewrite length_app; cbn; lia). by rewrite !last_snoc.
Qed.

(** The history holds exactly the newest 256 measurements, numbered
    consecutively from one, and the snapshot reports the newest one; without a
    measurement nothing is stale, and with fewer than eight no drift is
    claimed. *)
Theorem history_is_recent_and_numbered r ms now :
  Z.of_nat (length ms) < 2 ^ 64 - 1 ->
  samples (record_all r ms) = newest MAX_SAMPLES (stamped ms)
  /\ ts_latest (snapshot (record_all r ms) now) = last (stamped ms)
  /\ (ts_stale (snapshot (record_all r ms) now) = true ->
      exists m, last ms = Some m /\ STALENESS_FLOOR_NS < now - observed_elapsed_ns m)
  /\ (ts_drift (snapshot (record_all r ms) now) <> None -> (MIN_DRIFT_SAMPLES <= length ms)%nat).
Proof.
  intros Hb. rewrite record_all_state by done. cbn [samples snapshot ts_latest ts_stale ts_drift].
  rewrite last_newest by (unfold MAX_SAMPLES; lia). split_and!; [done|done| |].
  - destruct ms as [|m ms _] using rev_ind; [done|]. rewrite stamped_snoc, last_snoc. cbn.
    intros Hs%Z.ltb_lt. exists m. rewrite last_snoc. split; [done|].
    assert (STALENESS_FLOOR_NS <= staleness_threshold_ns
      {| reference := r; samples := newest MAX_SAMPLES (stamped ms ++ [m
           <| measurement_sequence := Z.of_nat (length ms) + 1 |>]);
         next_sequence := Z.of_nat (length (ms ++ [m])) + 1 |}).
    { unfold staleness_threshold_ns. destruct (median_interval_ns _); lia. }
    unfold sat_sub, STALENESS_FLOOR_NS in *. cbn in *. lia.
  - unfold drift. cbn [samples]. intros Hd.
    destruct (decide (MIN_DRIFT_SAMPLES <= length ms)%nat) as [|Hn]; [done|]. exfalso. apply Hd.
    destruct (head _) as [o|]; [|done]. destruct (last _) as [w|]; [|done]. cbn [mbind option_bind].
    destruct (checked_sub _ _) as [d|]; [|done]. cbn [mbind option_bind].
    destruct (Nat.ltb_spec (length (newest MAX_SAMPLES (stamped ms))) MIN_DRIFT_SAMPLES) as [|Hge];
      [done|].
    unfold newest, stamped in Hge. rewrite length_drop, length_imap in Hge. lia.
Qed.

End TimingDiag.
