(* ===== verification/Ntp.v ===== *)
(** * NTP timing ([airplay-timing/src/ntp.rs])

    Timing requests (payload type 82) and responses (83), the offset and
    round-trip arithmetic, the client's exchange and the server's answer.  The
    clock readings of an exchange, the datagram that comes back and the
    socket's errors are arguments.  Times on the wire are NTP fixed-point
    stamps, converted by [Clock.ntp_to_unix]. *)

From S2P Require Import Prelude Wire Clock TimingDiag.
Import Clock.

Module Ntp.

Definition TIMING_REQUEST_PT : Z := 82.
Definition TIMING_RESPONSE_PT : Z := 83.

Record NtpRequest := { rq_sequence : Z; rq_reference_time : Z }.
Record NtpResponse := {
  rs_sequence : Z;
  rs_reference_time : Z;
  rs_receive_time : Z;
  rs_send_time : Z;
}.

Inductive ParseError := RequestTooShort | ResponseTooShort | UnexpectedPt (expected got : Z).

(** The [i]-th byte of a datagram whose length was checked. *)
Definition byte (data : list Z) (i : nat) : Z := default 0 (data !! i).

(** ** Packets *)

Definition new_request (now : Z) : NtpRequest :=
  {| rq_sequence := 0; rq_reference_time := now_ntp now |}.
Definition with_sequence (r : NtpRequest) (seq : Z) : NtpRequest :=
  {| rq_sequence := seq; rq_reference_time := rq_reference_time r |}.

Definition serialize_request (r : NtpRequest) : list Z :=
  [0x80; Z.lor TIMING_REQUEST_PT 0x80] ++ to_be_bytes 2 (rq_sequence r) ++ replicate 20 0
  ++ to_be_bytes 8 (rq_reference_time r).

Definition parse_request (data : list Z) : Result NtpRequest ParseError :=
  if (length data <? 32)%nat then Err RequestTooShort
  else
    let pt := Z.land (byte data 1) 0x7F in
    if negb (pt =? TIMING_REQUEST_PT) then Err (UnexpectedPt TIMING_REQUEST_PT pt)
    else Ok {| rq_sequence := from_be_bytes (slice 2 4 data);
               rq_reference_time := from_be_bytes (slice 24 32 data) |}.

Definition from_request (r : NtpRequest) (receive_time send_time : Z) : NtpResponse :=
  {| rs_sequence := rq_sequence r; rs_reference_time := rq_reference_time r;
     rs_receive_time := receive_time; rs_send_time := send_time |}.

Definition serialize_response (r : NtpResponse) : list Z :=
  [0x80; Z.lor TIMING_RESPONSE_PT 0x80] ++ to_be_bytes 2 (rs_sequence r) ++ replicate 4 0
  ++ to_be_bytes 8 (rs_reference_time r) ++ to_be_bytes 8 (rs_receive_time r)
  ++ to_be_bytes 8 (rs_send_time r).

Definition parse_response (data : list Z) : Result NtpResponse ParseError :=
  if (length data <? 32)%nat then Err ResponseTooShort
  else
    let pt := Z.land (byte data 1) 0x7F in
    if negb (pt =? TIMING_RESPONSE_PT) then Err (UnexpectedPt TIMING_RESPONSE_PT pt)
    else Ok {| rs_sequence := from_be_bytes (slice 2 4 data);
               rs_reference_time := from_be_bytes (slice 8 16 data);
               rs_receive_time := from_be_bytes (slice 16 24 data);
               rs_send_time := from_be_bytes (slice 24 32 data) |}.

(** ** Offset and round trip *)

(** Subtraction, addition and halving of [i64]. *)
Definition i64_sub (x y : Z) : Z := as_signed 64 (x - y).
Definition i64_add (x y : Z) : Z := as_signed 64 (x + y).
Definition unix_i64 (ntp : Z) : Z := as_signed 64 (ntp_to_unix ntp).

Definition round_trip_time (r : NtpResponse) (local_recv : Z) : Z :=
  let t1 := unix_i64 (rs_reference_time r) in
  let t2 := unix_i64 (rs_receive_time r) in
  let t3 := unix_i64 (rs_send_time r) in
  let t4 := unix_i64 local_recv in
  i64_sub (i64_sub t4 t1) (i64_sub t3 t2).

Definition clock_offset (r : NtpResponse) (local_recv : Z) : Z :=
  let t1 := unix_i64 (rs_reference_time r) in
  let t2 := unix_i64 (rs_receive_time r) in
  let t3 := unix_i64 (rs_send_time r) in
  let t4 := unix_i64 local_recv in
  i64_add (i64_sub t2 t1) (i64_sub t3 t4) ÷ 2.

(** ** The client *)

Inductive Error := NoSession | Io | Parse (e : ParseError).

Record NtpTimingClient := {
  bound : bool;
  sequence : Z;
  offset : ClockOffset;
  synchronized : bool;
  diagnostics : option TimingDiag.SharedSamples;
}.
#[export] Instance eta_NtpTimingClient : Eta NtpTimingClient := fun c =>
  {| bound := bound c; sequence := sequence c; offset := offset c;
     synchronized := synchronized c; diagnostics := diagnostics c |}.

Definition new_client : NtpTimingClient :=
  {| bound := false; sequence := 0; offset := default_offset; synchronized := false;
     diagnostics := None |}.

Definition start (c : NtpTimingClient) : NtpTimingClient := c <| bound := true |>.
Definition stop (c : NtpTimingClient) : NtpTimingClient :=
  c <| bound := false |> <| synchronized := false |>.

(** One exchange.  [sent_at] and [received_at] are the wall-clock readings
    around it, [sent] and [received] the socket's answers, [elapsed] the
    diagnostics clock. *)
Definition sync (c : NtpTimingClient) (sent_at : Z) (sent : bool)
    (received : option (list Z)) (received_at elapsed : Z)
  : NtpTimingClient * option (list Z) * Result ClockOffset Error :=
  if negb (bound c) then (c, None, Err NoSession)
  else
    let request := with_sequence (new_request sent_at) (sequence c) in
    let c := c <| sequence := wrap 16 (sequence c + 1) |> in
    let packet := serialize_request request in
    if negb sent then (c, Some packet, Err Io)
    else
      match received with
      | None => (c, Some packet, Err Io)
      | Some data =>
          let recv_time := now_ntp received_at in
          match parse_response data with
          | Err e => (c, Some packet, Err (Parse e))
          | Ok response =>
              let rtt := round_trip_time response recv_time in
              let o := {| offset_ns := clock_offset response recv_time;
                          error_ns := Z.abs rtt / 2; rtt_ns := Z.abs rtt |} in
              let c := c <| offset := o |> <| synchronized := true |> in
              let c := c <| diagnostics :=
                (fun recorder =>
                   match TimingDiag.ptp_measurement 0 elapsed
                           (ntp_to_unix (rq_reference_time request))
                           (ntp_to_unix (rs_receive_time response))
                           (ntp_to_unix (rs_send_time response)) (ntp_to_unix recv_time) with
                   | Some m => TimingDiag.push recorder m
                   | None => recorder
                   end) <$> diagnostics c |> in
              (c, Some packet, Ok o)
          end
      end.

Definition local_to_remote (c : NtpTimingClient) (local : Z) : Z :=
  wrap 64 (i64_add (as_signed 64 local) (offset_ns (offset c))).
Definition remote_to_local (c : NtpTimingClient) (remote : Z) : Z :=
  wrap 64 (i64_sub (as_signed 64 remote) (offset_ns (offset c))).

(** ** The server: one iteration of [run_loop] *)

Definition server_answer (data : list Z) (received_at sent_at : Z) : option (list Z) :=
  match parse_request data with
  | Ok request =>
      Some (serialize_response (from_request request (now_ntp received_at) (now_ntp sent_at)))
  | Err _ => None
  end.

(** ** Packets survive the wire *)

Definition request_ok (r : NtpRequest) : Prop :=
  in_width 16 (rq_sequence r) /\ in_width 64 (rq_reference_time r).
Definition response_ok (r : NtpResponse) : Prop :=
  in_width 16 (rs_sequence r) /\ in_width 64 (rs_reference_time r)
  /\ in_width 64 (rs_receive_time r) /\ in_width 64 (rs_send_time r).

Lemma length_serialize_request r : length (serialize_request r) = 32%nat.
Proof. unfold serialize_request. wire_len. Qed.
Lemma length_serialize_response r : length (serialize_response r) = 32%nat.
Proof. unfold serialize_response. wire_len. Qed.

Lemma parse_serialize_request r rest :
  request_ok r -> parse_request (serialize_request r ++ rest) = Ok r.
Proof.
  intros [Hs Ht]. unfold parse_request.
  destruct (Nat.ltb_spec (length (serialize_request r ++ rest)) 32) as [Hl|_].
  { rewrite length_app, length_serialize_request in Hl. lia. }
  rewrite !(slice_prefix _ _ 32) by (apply length_serialize_request || lia).
  unfold serialize_request. wire_slice.
  rewrite !from_to_be_bytes by assumption. by destruct r.
Qed.

Lemma parse_serialize_response r rest :
  response_ok r -> parse_response (serialize_response r ++ rest) = Ok r.
Proof.
  intros (Hs & Ht1 & Ht2 & Ht3). unfold parse_response.
  destruct (Nat.ltb_spec (length (serialize_response r ++ rest)) 32) as [Hl|_].
  { rewrite length_app, length_serialize_response in Hl. lia. }
  rewrite !(slice_prefix _ _ 32) by (apply length_serialize_response || lia).
  unfold serialize_response. wire_slice.
  rewrite !from_to_be_bytes by assumption. by destruct r.
Qed.

#[export] Instance request_wire : WireFormat NtpRequest ParseError := {|
  wire_ok := request_ok; to_wire := serialize_request; of_wire := parse_request;
  wire_size := 32; wire_length r _ := length_serialize_request r;
  of_to_wire := parse_serialize_request |}.
#[export] Instance response_wire : WireFormat NtpResponse ParseError := {|
  wire_ok := response_ok; to_wire := serialize_response; of_wire := parse_response;
  wire_size := 32; wire_length r _ := length_serialize_response r;
  of_to_wire := parse_serialize_response |}.

(** ** The arithmetic stays inside [i64] *)

Lemma ntp_to_unix_bound ntp : in_width 64 ntp -> 0 <= ntp_to_unix ntp < 2 ^ 61.
Proof.
  intros [H0 H1]. unfold ntp_to_unix, sat_sub, NTP_EPOCH_OFFSET, NANOS.
  change 0xFFFFFFFF with (Z.ones 32). rewrite Z.land_ones, !Z.shiftr_div_pow2 by lia.
  pose proof (Z.mod_pos_bound ntp (2 ^ 32) ltac:(lia)).
  assert (0 <= ntp / 2 ^ 32 < 2 ^ 32)
    by (split; [apply Z.div_pos|apply Z.div_lt_upper_bound]; lia).
  assert (0 <= ntp mod 2 ^ 32 * 1000000000 / 2 ^ 32 < 1000000000)
    by (split; [apply Z.div_pos|apply Z.div_lt_upper_bound]; lia).
  lia.
Qed.

Lemma unix_i64_exact ntp : in_width 64 ntp -> unix_i64 ntp = ntp_to_unix ntp.
Proof.
  intros H. pose proof (ntp_to_unix_bound ntp H). apply as_signed_id; [lia|].
  unfold in_signed. change (64 - 1) with 63. lia.
Qed.

(** No intermediate of the offset and round-trip formulas overflows, whatever
    the peer puts on the wire. *)
Lemma ntp_arithmetic_exact r t4 :
  response_ok r -> in_width 64 t4 ->
  round_trip_time r t4
    = (ntp_to_unix t4 - ntp_to_unix (rs_reference_time r))
      - (ntp_to_unix (rs_send_time r) - ntp_to_unix (rs_receive_time r))
  /\ clock_offset r t4
    = ((ntp_to_unix (rs_receive_time r) - ntp_to_unix (rs_reference_time r))
       + (ntp_to_unix (rs_send_time r) - ntp_to_unix t4)) ÷ 2.
Proof.
  intros (_ & H1 & H2 & H3) H4. unfold round_trip_time, clock_offset.
  rewrite !unix_i64_exact by done.
  pose proof (ntp_to_unix_bound _ H1). pose proof (ntp_to_unix_bound _ H2).
  pose proof (ntp_to_unix_bound _ H3). pose proof (ntp_to_unix_bound _ H4).
  unfold i64_sub, i64_add.
  assert (forall x, - 2 ^ 63 <= x < 2 ^ 63 -> as_signed 64 x = x) as E
    by (intros x Hx; apply as_signed_id; [lia|exact Hx]).
  rewrite !E by (rewrite ?E; lia). done.
Qed.

(** The two conversions are inverse to each other, also where they wrap. *)
Lemma wrap_as_signed x : wrap 64 (as_signed 64 x) = wrap 64 x.
Proof.
  unfold as_signed. destruct (wrap 64 x <? _).
  - apply wrap_id, wrap_bound. lia.
  - unfold wrap. rewrite <- (Z.mod_add _ 1) by lia. rewrite Z.mul_1_l, Z.sub_add.
    by rewrite Z.mod_mod by lia.
Qed.

Lemma wrap_as_signed_add x y : wrap 64 (as_signed 64 x + y) = wrap 64 (x + y).
Proof.
  unfold wrap. rewrite <- Z.add_mod_idemp_l by lia. fold (wrap 64 (as_signed 64 x)).
  rewrite wrap_as_signed. unfold wrap. by rewrite Z.add_mod_idemp_l by lia.
Qed.

Lemma conversions_inverse c local :
  in_width 64 local -> remote_to_local c (local_to_remote c local) = local.
Proof.
  intros Hl. unfold remote_to_local, local_to_remote, i64_add, i64_sub.
  generalize (offset_ns (offset c)) as k. intros k.
  rewrite as_signed_wrap, wrap_as_signed by lia.
  rewrite <- Z.add_opp_r, !wrap_as_signed_add. rewrite <- Z.add_assoc, wrap_as_signed_add.
  transitivity (wrap 64 local); [f_equal; lia|by apply wrap_id].
Qed.

(** ** One exchange between the two ends

    [theta] is how far the remote clock is ahead of the local one; [d1] and
    [d2] are the travel times, [p] the server's processing time.  All clock
    readings are in NTP era 0. *)

Section Exchange.
Context (c : NtpTimingClient) (t theta d1 d2 p elapsed : Z).
Context (Hbound : bound c = true) (Hseq : in_width 16 (sequence c)).
Context (Hd1 : 0 <= d1) (Hd2 : 0 <= d2) (Hp : 0 <= p).
Context (Ht1 : 0 <= t < era0_ns).
Context (Ht2 : 0 <= t + d1 + theta) (Ht3 : t + d1 + theta + p < era0_ns).
Context (Ht4 : t + d1 + p + d2 < era0_ns).

(** The request the client sends, the server's answer, and what the client
    makes of it. *)
Definition exchange_request : list Z :=
  serialize_request (with_sequence (new_request t) (sequence c)).
Definition exchange_answer : option (list Z) :=
  server_answer exchange_request (t + d1 + theta) (t + d1 + theta + p).
Definition exchange : NtpTimingClient * option (list Z) * Result ClockOffset Error :=
  sync c t true exchange_answer (t + d1 + p + d2) elapsed.

Lemma now_ntp_era0 x : 0 <= x < era0_ns -> now_ntp x = unix_to_ntp x /\ in_width 64 (unix_to_ntp x)
  /\ x - 1 <= ntp_to_unix (unix_to_ntp x) <= x.
Proof.
  intros H. pose proof (ntp_time_survives_wire x H). split_and!; try tauto.
  unfold now_ntp, now_wall_ns, since_epoch. rewrite wrap_id, Z.max_r; [done|lia|].
  unfold in_width, era0_ns, NTP_EPOCH_OFFSET, NANOS in *. lia.
Qed.

Definition exchange_response : NtpResponse :=
  {| rs_sequence := sequence c; rs_reference_time := unix_to_ntp t;
     rs_receive_time := unix_to_ntp (t + d1 + theta);
     rs_send_time := unix_to_ntp (t + d1 + theta + p) |}.

Lemma exchange_response_ok : response_ok exchange_response.
Proof using Hseq Ht1 Ht2 Ht3 Hp.
  unfold response_ok; cbn. split_and!; [done|..]; apply now_ntp_era0; lia.
Qed.

Lemma exchange_answer_eq : exchange_answer = Some (serialize_response exchange_response).
Proof using Hseq Ht1 Ht2 Ht3 Hp.
  unfold exchange_answer, server_answer, exchange_request.
  rewrite <- (app_nil_r (serialize_request _)), parse_serialize_request.
  - unfold from_request. cbn. unfold exchange_response.
    destruct (now_ntp_era0 t Ht1) as (-> & _). 
    destruct (now_ntp_era0 (t + d1 + theta) ltac:(lia)) as (-> & _).
    by destruct (now_ntp_era0 (t + d1 + theta + p) ltac:(lia)) as (-> & _).
  - split; cbn; [done|]. destruct (now_ntp_era0 t Ht1) as (-> & ? & _). done.
Qed.

Lemma exchange_eq :
  exchange = sync c t true (Some (serialize_response exchange_response)) (t + d1 + p + d2) elapsed.
Proof using Hseq Ht1 Ht2 Ht3 Hp. unfold exchange. by rewrite exchange_answer_eq. Qed.

Lemma exchange_parsed : parse_response (serialize_response exchange_response) = Ok exchange_response.
Proof using Hseq Ht1 Ht2 Ht3 Hp.
  rewrite <- (app_nil_r (serialize_response _)). apply parse_serialize_response, exchange_response_ok.
Qed.

(** The exchange succeeds and the client learns the remote clock: offset
    (remote minus local) up to half the path asymmetry, round trip up to the
    grid of NTP time, and the conversions are inverse to each other. *)
Theorem exchange_learns_remote_clock :
  exists c' o, exchange = (c', Some exchange_request, Ok o)
    /\ offset c' = o /\ synchronized c' = true
    /\ Z.abs (2 * (offset_ns o - theta) - (d1 - d2)) <= 3
    /\ d1 + d2 - 2 <= rtt_ns o <= d1 + d2 + 2
    /\ forall local, in_width 64 local -> remote_to_local c' (local_to_remote c' local) = local.
Proof using All.
  rewrite exchange_eq. unfold sync. rewrite Hbound, exchange_parsed. cbn [negb].
  set (t4 := t + d1 + p + d2).
  destruct (now_ntp_era0 t4 ltac:(unfold t4; lia)) as (-> & Hw4 & Hb4).
  destruct (ntp_arithmetic_exact exchange_response (unix_to_ntp t4) exchange_response_ok Hw4)
    as [-> ->].
  cbn [exchange_response rs_reference_time rs_receive_time rs_send_time].
  destruct (now_ntp_era0 t Ht1) as (_ & _ & Hb1).
  destruct (now_ntp_era0 (t + d1 + theta) ltac:(lia)) as (_ & _ & Hb2).
  destruct (now_ntp_era0 (t + d1 + theta + p) ltac:(lia)) as (_ & _ & Hb3).
  match goal with |- context [?x ÷ 2] => pose proof (quot2_bounds x) as Hq end.
  eexists _, _. split; [reflexivity|]. cbn [offset synchronized offset_ns rtt_ns].
  unfold t4 in *. split_and!; [done|done|lia|lia|lia|].
  intros local. apply conversions_inverse.
Qed.

(** The diagnostics entry of the same exchange: the field documented as local
    minus master holds the remote clock's lead over the local one. *)
Theorem ntp_measurement_sign recorder :
  diagnostics c = Some recorder -> 1 <= p -> 2 <= d1 + d2 ->
  exists m recorder', diagnostics exchange.1.1 = Some recorder'
    /\ last (TimingDiag.samples recorder') = Some m
    /\ Z.abs (2 * (TimingDiag.offset_local_minus_master_ns m - theta) - (d1 - d2)) <= 3.
Proof using All.
  intros Hrec Hp1 Hd. rewrite exchange_eq. unfold sync. rewrite Hbound, exchange_parsed.
  cbn -[TimingDiag.ptp_measurement TimingDiag.push ntp_to_unix unix_to_ntp now_ntp
        round_trip_time clock_offset serialize_request wrap Z.abs Z.div]. rewrite Hrec.
  cbn [fmap option_fmap option_map].
  cbn [exchange_response rs_reference_time rs_receive_time rs_send_time rq_reference_time
       with_sequence new_request].
  set (t4 := t + d1 + p + d2).
  destruct (now_ntp_era0 t4 ltac:(unfold t4; lia)) as (-> & Hw4 & Hb4).
  destruct (now_ntp_era0 t Ht1) as (-> & Hw1 & Hb1).
  destruct (now_ntp_era0 (t + d1 + theta) ltac:(lia)) as (_ & Hw2 & Hb2).
  destruct (now_ntp_era0 (t + d1 + theta + p) ltac:(lia)) as (_ & Hw3 & Hb3).
  pose proof (ntp_to_unix_bound _ Hw1). pose proof (ntp_to_unix_bound _ Hw2).
  pose proof (ntp_to_unix_bound _ Hw3). pose proof (ntp_to_unix_bound _ Hw4).
  revert Hb1 Hb2 Hb3 Hb4 H H0 H1 H2.
  generalize (ntp_to_unix (unix_to_ntp t)) as u1, (ntp_to_unix (unix_to_ntp (t + d1 + theta))) as u2,
    (ntp_to_unix (unix_to_ntp (t + d1 + theta + p))) as u3, (ntp_to_unix (unix_to_ntp t4)) as u4.
  intros u1 u2 u3 u4 Hb1 Hb2 Hb3 Hb4 Hu1 Hu2 Hu3 Hu4. unfold t4 in *.
  pose proof (quot2_bounds (u2 - u1 + (u3 - u4))) as Hq.
  unfold TimingDiag.ptp_measurement.
  rewrite TimingDiag.try_i64_some by (unfold in_signed; change (64 - 1) with 63; lia). cbn [mbind option_bind].
  rewrite !TimingDiag.checked_sub_some by lia. cbn [mbind option_bind].
  rewrite TimingDiag.checked_sub_some by lia. cbn [mbind option_bind].
  eexists _, _. split; [reflexivity|]. split.
  - unfold TimingDiag.push. cbn [TimingDiag.samples]. unfold TimingDiag.trim_front.
    change (drop (length ?l - TimingDiag.MAX_SAMPLES) ?l) with (TimingDiag.newest TimingDiag.MAX_SAMPLES l).
    rewrite TimingDiag.last_newest by (unfold TimingDiag.MAX_SAMPLES; lia). by rewrite last_snoc.
  - cbn [TimingDiag.offset_local_minus_master_ns upd]. cbn. lia.
Qed.
End Exchange.

(** A server a second ahead, a millisecond each way. *)
Lemma exchange_learns_remote_clock_witness :
  exists c' o,
    exchange (start new_client) 1700000000000000000 1000000000 1000000 1000000 500 0
      = (c', Some (exchange_request (start new_client) 1700000000000000000), Ok o)
    /\ synchronized c' = true /\ Z.abs (2 * (offset_ns o - 1000000000) - 0) <= 3.
Proof.
  assert (Hw : in_width 16 (sequence (start new_client))) by (unfold in_width; cbn; lia).
  assert (He : era0_ns = 2085978496000000000) by reflexivity.
  destruct (exchange_learns_remote_clock (start new_client) 1700000000000000000 1000000000 1000000
    1000000 500 0 eq_refl Hw ltac:(lia) ltac:(lia) ltac:(lia) ltac:(lia) ltac:(lia) ltac:(lia)
    ltac:(lia)) as (c' & o & H1 & _ & H2 & H3 & _).
  exists c', o. split; [exact H1|]. split; [exact H2|exact H3].
Defined.
End Ntp.
