(* ===== verification/PtpWire.v ===== *)
(** * PTP messages ([airplay-timing/src/ptp.rs])

    The IEEE 1588 header and time stamp, the 802.1AS and Apple extension
    records (TLVs), and every message the sender builds.  Byte arrays of fixed
    size ([[u8; 10]]) are lists whose length is part of well-formedness.  An
    [i8], [i32] or [i64] is written as its two's complement bytes. *)

From S2P Require Import Prelude Wire.

Module PtpWire.

Definition PTP_EVENT_PORT : Z := 319.
Definition PTP_GENERAL_PORT : Z := 320.

Inductive PtpMessageType := MSync | MDelayReq | MFollowUp | MDelayResp | MAnnounce | MSignaling.
#[export] Instance PtpMessageType_eq_dec : EqDecision PtpMessageType.
Proof. solve_decision. Defined.

Definition type_byte (t : PtpMessageType) : Z :=
  match t with
  | MSync => 0x00 | MDelayReq => 0x01 | MFollowUp => 0x08 | MDelayResp => 0x09
  | MAnnounce => 0x0B | MSignaling => 0x0C
  end.

Definition from_byte (b : Z) : option PtpMessageType :=
  match Z.land b 0x0F with
  | 0x00 => Some MSync
  | 0x01 => Some MDelayReq
  | 0x08 => Some MFollowUp
  | 0x09 => Some MDelayResp
  | 0x0B => Some MAnnounce
  | 0x0C => Some MSignaling
  | _ => None
  end.

(** ** Extension records *)

Definition ORGANIZATION_EXTENSION : Z := 0x0003.
Definition GPTP : list Z := [0x00; 0x80; 0xC2].
Definition APPLE : list Z := [0x00; 0x0D; 0x93].
Definition FOLLOW_UP_INFO : list Z := [0x00; 0x00; 0x01].
Definition MESSAGE_INTERVAL_REQUEST : list Z := [0x00; 0x00; 0x02].

Definition tlv_header (tlv_type length : Z) : list Z :=
  to_be_bytes 2 tlv_type ++ to_be_bytes 2 length.

Record FollowUpInformationTlv := {
  fu_organization_id : list Z;
  fu_organization_subtype : list Z;
  fu_cumulative_scaled_rate_offset : Z;
  fu_gm_time_base_indicator : Z;
  fu_last_gm_phase_change : list Z;
  fu_scaled_last_gm_freq_change : Z;
}.
Definition new_follow_up_tlv : FollowUpInformationTlv :=
  {| fu_organization_id := GPTP; fu_organization_subtype := FOLLOW_UP_INFO;
     fu_cumulative_scaled_rate_offset := 0; fu_gm_time_base_indicator := 0;
     fu_last_gm_phase_change := replicate 12 0; fu_scaled_last_gm_freq_change := 0 |}.
Definition serialize_follow_up_tlv (t : FollowUpInformationTlv) : list Z :=
  tlv_header ORGANIZATION_EXTENSION 28 ++ fu_organization_id t ++ fu_organization_subtype t
  ++ to_be_bytes 4 (fu_cumulative_scaled_rate_offset t)
  ++ to_be_bytes 2 (fu_gm_time_base_indicator t) ++ fu_last_gm_phase_change t
  ++ to_be_bytes 4 (fu_scaled_last_gm_freq_change t).

Record MessageIntervalRequestTlv := {
  mi_organization_id : list Z;
  mi_organization_subtype : list Z;
  mi_link_delay_interval : Z;
  mi_time_sync_interval : Z;
  mi_announce_interval : Z;
  mi_flags : Z;
}.
Definition new_interval_tlv (sync_interval announce_interval : Z) : MessageIntervalRequestTlv :=
  {| mi_organization_id := GPTP; mi_organization_subtype := MESSAGE_INTERVAL_REQUEST;
     mi_link_delay_interval := sync_interval; mi_time_sync_interval := sync_interval;
     mi_announce_interval := announce_interval; mi_flags := 0x02 |}.
Definition serialize_interval_tlv (t : MessageIntervalRequestTlv) : list Z :=
  tlv_header ORGANIZATION_EXTENSION 10 ++ mi_organization_id t ++ mi_organization_subtype t
  ++ [wrap 8 (mi_link_delay_interval t); wrap 8 (mi_time_sync_interval t);
      wrap 8 (mi_announce_interval t); mi_flags t].

Record AppleTlv := {
  ap_organization_id : list Z;
  ap_organization_subtype : list Z;
  ap_payload : list Z;
}.
Definition new_apple_tlv (subtype payload : list Z) : AppleTlv :=
  {| ap_organization_id := APPLE; ap_organization_subtype := subtype; ap_payload := payload |}.
Definition serialize_apple_tlv (t : AppleTlv) : list Z :=
  tlv_header ORGANIZATION_EXTENSION (wrap 16 (6 + Z.of_nat (length (ap_payload t))))
  ++ ap_organization_id t ++ ap_organization_subtype t ++ ap_payload t.

Inductive ParseError := AppleTlvTooShort | TimestampTooShort | HeaderTooShort | UnknownType (b : Z).

Definition parse_apple_tlv (data : list Z) : Result AppleTlv ParseError :=
  if (length data <? 6)%nat then Err AppleTlvTooShort
  else Ok {| ap_organization_id := slice 0 3 data; ap_organization_subtype := slice 3 6 data;
             ap_payload := drop 6 data |}.

(** The loop of [parse_tlvs]; a record takes at least four bytes, so the length
    of the input is enough fuel. *)
Fixpoint parse_tlvs_loop (fuel : nat) (data : list Z) : list (Z * Z * list Z) :=
  match fuel, data with
  | S fuel', b0 :: b1 :: b2 :: b3 :: rest =>
      let tlv_type := from_be_bytes [b0; b1] in
      let len := from_be_bytes [b2; b3] in
      if (length rest <? Z.to_nat len)%nat then []
      else (tlv_type, len, take (Z.to_nat len) rest)
           :: parse_tlvs_loop fuel' (drop (Z.to_nat len) rest)
  | _, _ => []
  end.
Definition parse_tlvs (data : list Z) : list (Z * Z * list Z) :=
  parse_tlvs_loop (length data) data.

(** ** Time stamps *)

Record PtpTimestamp := { seconds : Z; nanoseconds : Z }.

Definition from_nanos (nanos : Z) : PtpTimestamp :=
  {| seconds := wrap 64 (nanos / 1000000000); nanoseconds := wrap 32 (nanos mod 1000000000) |}.
Definition to_nanos (t : PtpTimestamp) : Z := seconds t * 1000000000 + nanoseconds t.

Definition serialize_timestamp (t : PtpTimestamp) : list Z :=
  drop 2 (to_be_bytes 8 (seconds t)) ++ to_be_bytes 4 (nanoseconds t).
Definition parse_timestamp (data : list Z) : Result PtpTimestamp ParseError :=
  if (length data <? 10)%nat then Err TimestampTooShort
  else Ok {| seconds := from_be_bytes ([0; 0] ++ slice 0 6 data);
             nanoseconds := from_be_bytes (slice 6 10 data) |}.

(** ** The header *)

Record PtpHeader := {
  message_type : PtpMessageType;
  version : Z;
  message_length : Z;
  domain_number : Z;
  flags : Z;
  correction_field : Z;
  source_port_identity : list Z;
  sequence_id : Z;
  control_field : Z;
  log_message_interval : Z;
}.
#[export] Instance eta_PtpHeader : Eta PtpHeader := fun h =>
  {| message_type := message_type h; version := version h; message_length := message_length h;
     domain_number := domain_number h; flags := flags h; correction_field := correction_field h;
     source_port_identity := source_port_identity h; sequence_id := sequence_id h;
     control_field := control_field h; log_message_interval := log_message_interval h |}.

Definition new_header (t : PtpMessageType) (seq : Z) : PtpHeader :=
  {| message_type := t; version := 2; message_length := 44; domain_number := 0; flags := 0;
     correction_field := 0; source_port_identity := replicate 10 0; sequence_id := seq;
     control_field := match t with
                      | MSync => 0 | MDelayReq => 1 | MFollowUp => 2 | MDelayResp => 3
                      | MAnnounce => 5 | MSignaling => 5
                      end;
     log_message_interval := 0 |}.

Definition serialize_header (h : PtpHeader) : list Z :=
  [type_byte (message_type h); version h] ++ to_be_bytes 2 (message_length h)
  ++ [domain_number h; 0] ++ to_be_bytes 2 (flags h) ++ to_be_bytes 8 (correction_field h)
  ++ replicate 4 0 ++ source_port_identity h ++ to_be_bytes 2 (sequence_id h)
  ++ [control_field h; wrap 8 (log_message_interval h)].

Definition parse_header (data : list Z) : Result PtpHeader ParseError :=
  if (length data <? 34)%nat then Err HeaderTooShort
  else
    match from_byte (byte_at data 0) with
    | None => Err (UnknownType (Z.land (byte_at data 0) 0x0F))
    | Some t =>
        Ok {| message_type := t;
              version := Z.land (byte_at data 1) 0x0F;
              message_length := from_be_bytes (slice 2 4 data);
              domain_number := byte_at data 4;
              flags := from_be_bytes (slice 6 8 data);
              correction_field := as_signed 64 (from_be_bytes (slice 8 16 data));
              source_port_identity := slice 20 30 data;
              sequence_id := from_be_bytes (slice 30 32 data);
              control_field := byte_at data 32;
              log_message_interval := as_signed 8 (byte_at data 33) |}
    end.

(** ** The messages the sender builds *)

Definition port_identity (clock_identity : list Z) : list Z := clock_identity ++ to_be_bytes 2 1.

(** [send_ptp_sync]: a two-step Sync and its Follow_Up. *)
Definition sync_packet (clock_identity : list Z) (seq : Z) : list Z :=
  serialize_header ((new_header MSync seq) <| flags := 0x0200 |>
                      <| source_port_identity := port_identity clock_identity |>)
  ++ replicate 10 0.

Definition follow_up_packet (clock_identity : list Z) (seq : Z) (sync_time : PtpTimestamp)
  : list Z :=
  let tlv_bytes := serialize_follow_up_tlv new_follow_up_tlv in
  serialize_header ((new_header MFollowUp seq)
                      <| source_port_identity := port_identity clock_identity |>
                      <| message_length := 44 + wrap 16 (Z.of_nat (length tlv_bytes)) |>)
  ++ serialize_timestamp sync_time ++ tlv_bytes.

(** [send_ptp_announce] *)
Definition announce_packet (clock_identity : list Z) (seq clock_class priority1 : Z) : list Z :=
  serialize_header ((new_header MAnnounce seq)
                      <| source_port_identity := port_identity clock_identity |>
                      <| message_length := 64 |> <| log_message_interval := 1 |>)
  ++ replicate 10 0 ++ to_be_bytes 2 37 ++ [0; priority1; clock_class; 0xFE]
  ++ to_be_bytes 2 0xFFFF ++ [128] ++ clock_identity ++ [0; 0; 0xA0].

(** The Delay_Req of the flow that yields mastership; it carries its own send
    time. *)
Definition delay_req_packet (identity : list Z) (seq : Z) (sent_at : PtpTimestamp) : list Z :=
  serialize_header ((new_header MDelayReq seq) <| source_port_identity := identity |>)
  ++ serialize_timestamp sent_at.

(** The Delay_Req of [PtpClient], of the gPTP master towards its peer and of
    [run_ptp_slave]: the header is left as it was made, without an identity. *)
Definition unnamed_delay_req_packet (seq : Z) (sent_at : PtpTimestamp) : list Z :=
  serialize_header (new_header MDelayReq seq) ++ serialize_timestamp sent_at.

(** [send_delay_resp_static] *)
Definition delay_resp_packet (clock_identity : list Z) (seq : Z) (recv_time : PtpTimestamp)
    (requesting_port_identity : list Z) : list Z :=
  serialize_header ((new_header MDelayResp seq)
                      <| source_port_identity := port_identity clock_identity |>
                      <| message_length := 54 |>)
  ++ serialize_timestamp recv_time ++ requesting_port_identity.

(** The common frame of the three signaling messages: header, wildcard target,
    records. *)
Definition signaling_packet (clock_identity : list Z) (seq : Z) (tlvs : list (list Z)) : list Z :=
  serialize_header ((new_header MSignaling seq)
                      <| source_port_identity := port_identity clock_identity |>
                      <| message_length :=
                           34 + 10 + Z.of_nat (length (concat tlvs)) |>)
  ++ replicate 10 0xFF ++ concat tlvs.

(** [send_ptp_signaling] *)
Definition ptp_signaling (clock_identity : list Z) (seq sync_log announce_log : Z) : list Z :=
  signaling_packet clock_identity seq
    [serialize_interval_tlv (new_interval_tlv sync_log announce_log);
     serialize_apple_tlv (new_apple_tlv [0x00; 0x00; 0x01]
       ([0x00; 0x04; wrap 8 sync_log; wrap 8 announce_log] ++ replicate 12 0));
     serialize_apple_tlv (new_apple_tlv [0x00; 0x00; 0x05]
       ([0x00; 0x10; wrap 8 sync_log; wrap 8 announce_log] ++ replicate 22 0))].

(** [send_mac_style_signaling] *)
Definition mac_style_signaling (clock_identity : list Z) (seq : Z) : list Z :=
  signaling_packet clock_identity seq
    [serialize_interval_tlv (new_interval_tlv (-3) (-2));
     serialize_apple_tlv (new_apple_tlv [0x00; 0x00; 0x01]
       [0x00; 0x03; 0x00; 0x00; 0x00; 0x00; 0x27; 0x10; 0x00; 0x00; 0x27; 0x10; 0x00; 0x00; 0x00;
        0x00]);
     serialize_apple_tlv (new_apple_tlv [0x00; 0x00; 0x05]
       ([0x00; 0x0f; 0x00; 0x00; 0x00; 0x00; 0x27; 0x10; 0x00; 0x00; 0x27; 0x10]
        ++ replicate 14 0))].

(** [send_stop_signaling] *)
Definition stop_signaling (clock_identity : list Z) (seq : Z) : list Z :=
  signaling_packet clock_identity seq
    [serialize_interval_tlv {| mi_organization_id := GPTP;
       mi_organization_subtype := MESSAGE_INTERVAL_REQUEST; mi_link_delay_interval := 0x7E;
       mi_time_sync_interval := 0x7E; mi_announce_interval := 0x7E; mi_flags := 0x00 |}].

(** ** Time stamps and headers survive the wire *)

Definition timestamp_ok (t : PtpTimestamp) : Prop :=
  in_width 48 (seconds t) /\ in_width 32 (nanoseconds t).

Lemma drop_to_be_bytes k n v : drop k (to_be_bytes (k + n) v) = to_be_bytes n v.
Proof. induction k; [done|]. simpl. done. Qed.

Lemma serialize_timestamp_fields t :
  serialize_timestamp t = to_be_bytes 6 (seconds t) ++ to_be_bytes 4 (nanoseconds t).
Proof. unfold serialize_timestamp. by rewrite (drop_to_be_bytes 2 6). Qed.

Lemma length_serialize_timestamp t : length (serialize_timestamp t) = 10%nat.
Proof. rewrite serialize_timestamp_fields. wire_len. Qed.

Lemma parse_serialize_timestamp t rest :
  timestamp_ok t -> parse_timestamp (serialize_timestamp t ++ rest) = Ok t.
Proof.
  intros [Hs Hn]. unfold parse_timestamp.
  destruct (Nat.ltb_spec (length (serialize_timestamp t ++ rest)) 10) as [Hl|_].
  { rewrite length_app, length_serialize_timestamp in Hl. lia. }
  rewrite !(slice_prefix _ _ 10) by (apply length_serialize_timestamp || lia).
  rewrite serialize_timestamp_fields. wire_slice.
  rewrite from_be_bytes_app, be_fold_to_be_bytes, from_to_be_bytes by done.
  rewrite wrap_id by done. by destruct t.
Qed.

#[export] Instance timestamp_wire : WireFormat PtpTimestamp ParseError := {|
  wire_ok := timestamp_ok; to_wire := serialize_timestamp; of_wire := parse_timestamp;
  wire_size := 10; wire_length t _ := length_serialize_timestamp t;
  of_to_wire := parse_serialize_timestamp |}.

(** The system clock read now fits the wire for millions of years. *)
Lemma from_nanos_ok ns : 0 <= ns < 2 ^ 48 * 1000000000 -> timestamp_ok (from_nanos ns).
Proof.
  intros [H0 H1]. unfold timestamp_ok, from_nanos; cbn.
  assert (0 <= ns / 1000000000 < 2 ^ 48)
    by (split; [apply Z.div_pos|apply Z.div_lt_upper_bound]; lia).
  pose proof (Z.mod_pos_bound ns 1000000000 ltac:(lia)).
  rewrite !wrap_id by (unfold in_width; lia). unfold in_width. lia.
Qed.

Lemma to_from_nanos ns : 0 <= ns < 2 ^ 48 * 1000000000 -> to_nanos (from_nanos ns) = ns.
Proof.
  intros [H0 H1]. unfold to_nanos, from_nanos; cbn.
  assert (0 <= ns / 1000000000 < 2 ^ 48)
    by (split; [apply Z.div_pos|apply Z.div_lt_upper_bound]; lia).
  pose proof (Z.mod_pos_bound ns 1000000000 ltac:(lia)).
  rewrite !wrap_id by (unfold in_width; lia).
  pose proof (Z.div_mod ns 1000000000). lia.
Qed.

Definition header_ok (h : PtpHeader) : Prop :=
  in_width 4 (version h) /\ in_width 16 (message_length h) /\ in_width 8 (domain_number h)
  /\ in_width 16 (flags h) /\ in_signed 64 (correction_field h)
  /\ length (source_port_identity h) = 10%nat /\ in_width 16 (sequence_id h)
  /\ in_width 8 (control_field h) /\ in_signed 8 (log_message_interval h).

Lemma from_type_byte t : from_byte (type_byte t) = Some t.
Proof. by destruct t. Qed.

Lemma signed_be_bytes n x :
  (0 < n)%nat -> in_signed (8 * Z.of_nat n) x ->
  as_signed (8 * Z.of_nat n) (from_be_bytes (to_be_bytes n x)) = x.
Proof.
  intros Hn Hx. unfold from_be_bytes. rewrite be_fold_to_be_bytes, Z.shiftl_0_l, Z.lor_0_l.
  rewrite as_signed_wrap by lia. apply as_signed_id; [lia|done].
Qed.

Lemma serialize_header_size h :
  length (source_port_identity h) = 10%nat -> length (serialize_header h) = 34%nat.
Proof. intros Hl. unfold serialize_header. wire_len. Qed.

Lemma length_serialize_ptp_header h :
  header_ok h -> length (serialize_header h) = 34%nat.
Proof. intros (_ & _ & _ & _ & _ & Hl & _). by apply serialize_header_size. Qed.

(** A field of the message body. *)
Lemma slice_body h body a b :
  length (source_port_identity h) = 10%nat ->
  slice (34 + a) (34 + b) (serialize_header h ++ body) = slice a b body.
Proof.
  intros Hl. rewrite (slice_skip _ _ 34) by (by apply serialize_header_size || lia). f_equal; lia.
Qed.

Lemma parse_serialize_ptp_header h rest :
  header_ok h -> parse_header (serialize_header h ++ rest) = Ok h.
Proof.
  intros Hok. pose proof (length_serialize_ptp_header h Hok) as Hlen.
  destruct Hok as (Hv & Hm & Hd & Hf & Hc & Hl & Hs & Hb & Hi). unfold parse_header.
  destruct (Nat.ltb_spec (length (serialize_header h ++ rest)) 34) as [Hx|_].
  { rewrite length_app in Hx. lia. }
  rewrite !(slice_prefix _ _ 34), !(byte_at_prefix 34) by (done || lia).
  unfold serialize_header. wire_slice. wire_byte.
  rewrite from_type_byte, (signed_be_bytes 8) by (lia || done).
  rewrite !from_to_be_bytes by done. rewrite as_signed_wrap, as_signed_id by (lia || done).
  change 0x0F with (Z.ones 4). rewrite Z.land_ones by lia. rewrite Z.mod_small by done.
  by destruct h.
Qed.

#[export] Instance header_wire : WireFormat PtpHeader ParseError := {|
  wire_ok := header_ok; to_wire := serialize_header; of_wire := parse_header;
  wire_size := 34; wire_length := length_serialize_ptp_header;
  of_to_wire := parse_serialize_ptp_header |}.

(** ** Extension records are framed exactly *)

(** The grammar of a record sequence: each record announces the length of its
    payload; bytes behind the last complete record are ignored. *)
Inductive framing : list Z -> list (Z * Z * list Z) -> Prop :=
| framing_short d : (length d < 4)%nat -> framing d []
| framing_truncated t len rest :
    in_width 16 t -> in_width 16 len -> Z.of_nat (length rest) < len ->
    framing (tlv_header t len ++ rest) []
| framing_record t len payload rest l :
    in_width 16 t -> in_width 16 len -> Z.of_nat (length payload) = len ->
    framing rest l ->
    framing (tlv_header t len ++ payload ++ rest) ((t, len, payload) :: l).

Lemma two_bytes b0 b1 :
  is_byte b0 -> is_byte b1 ->
  in_width 16 (from_be_bytes [b0; b1]) /\ to_be_bytes 2 (from_be_bytes [b0; b1]) = [b0; b1].
Proof.
  unfold is_byte, in_width. intros H0 H1. unfold from_be_bytes; cbn [fold_left].
  rewrite Z.shiftl_0_l, Z.lor_0_l, Z.lor_comm.
  rewrite (lor_shiftl_add b1 b0 8) by (unfold in_width; lia).
  split; [lia|]. cbn [to_be_bytes]. rewrite !Z.shiftr_div_pow2 by lia. cbn [Z.mul Z.of_nat].
  unfold wrap. change (8 * Z.of_nat 1) with 8. change (8 * Z.of_nat 0) with 0.
  rewrite Z.div_1_r, Z.div_add, Z.mod_add by lia.
  rewrite (Z.div_small b1), Z.add_0_l, !Z.mod_small by lia. done.
Qed.

Lemma parse_tlvs_step fuel t len rest :
  in_width 16 t -> in_width 16 len ->
  parse_tlvs_loop (S fuel) (tlv_header t len ++ rest)
  = if (length rest <? Z.to_nat len)%nat then []
    else (t, len, take (Z.to_nat len) rest) :: parse_tlvs_loop fuel (drop (Z.to_nat len) rest).
Proof.
  intros Ht Hl. pose proof (from_to_be_bytes 2 t Ht) as Et.
  pose proof (from_to_be_bytes 2 len Hl) as El. unfold tlv_header.
  cbn [to_be_bytes app parse_tlvs_loop] in *. by rewrite Et, El.
Qed.

Lemma parse_tlvs_loop_short fuel d : (length d < 4)%nat -> parse_tlvs_loop fuel d = [].
Proof. intros Hd. destruct fuel; [done|]. destruct d as [|?[|?[|?[|??]]]]; simpl in *; done || lia. Qed.

Lemma parse_follows_framing d l :
  framing d l -> forall fuel, (length d <= fuel)%nat -> parse_tlvs_loop fuel d = l.
Proof.
  induction 1 as [d Hd|t len rest Ht Hl Hr|t len payload rest l Ht Hl Hp _ IH]; intros fuel Hf.
  - by apply parse_tlvs_loop_short.
  - destruct fuel; [cbn in Hf; lia|]. rewrite parse_tlvs_step by done.
    destruct (Nat.ltb_spec (length rest) (Z.to_nat len)); [done|lia].
  - destruct fuel; [cbn in Hf; lia|]. rewrite parse_tlvs_step by done.
    replace (Z.to_nat len) with (length payload) by lia.
    destruct (Nat.ltb_spec (length (payload ++ rest)) (length payload)) as [Hx|_].
    { rewrite length_app in Hx. lia. }
    rewrite take_app_length, drop_app_length, IH; [done|].
    rewrite !length_app in Hf. cbn in Hf. lia.
Qed.

Lemma framing_exists n d : (length d <= n)%nat -> bytes_ok d -> exists l, framing d l.
Proof.
  revert d. induction n as [|n IH]; intros d Hn Hd.
  { exists []. constructor. lia. }
  destruct d as [|b0 [|b1 [|b2 [|b3 rest]]]]; try (exists []; constructor; simpl; lia).
  apply Forall_cons in Hd as [H0 Hd]. apply Forall_cons in Hd as [H1 Hd].
  apply Forall_cons in Hd as [H2 Hd]. apply Forall_cons in Hd as [H3 Hd].
  destruct (two_bytes b0 b1 H0 H1) as [Wt Et], (two_bytes b2 b3 H2 H3) as [Wl El].
  change (b0 :: b1 :: b2 :: b3 :: rest) with (([b0; b1] ++ [b2; b3]) ++ rest).
  rewrite <- Et, <- El. change (to_be_bytes 2 ?a ++ to_be_bytes 2 ?b) with (tlv_header a b).
  set (t := from_be_bytes [b0; b1]) in *. set (len := from_be_bytes [b2; b3]) in *.
  destruct (decide (Z.of_nat (length rest) < len)) as [Hs|Hs].
  { exists []. by constructor. }
  destruct (IH (drop (Z.to_nat len) rest)) as [l Hl].
  - rewrite length_drop. simpl in Hn. lia.
  - by apply Forall_drop.
  - exists ((t, len, take (Z.to_nat len) rest) :: l).
    rewrite <- (take_drop (Z.to_nat len) rest) at 1. constructor; try done.
    rewrite length_take. unfold in_width in Wl. lia.
Qed.

(** [parse_tlvs] computes exactly the grammar of record sequences on every
    datagram: it terminates with the records of the longest completely framed
    prefix, and no other reading of the bytes exists. *)
Theorem parse_tlvs_exact d l : bytes_ok d -> parse_tlvs d = l <-> framing d l.
Proof.
  intros Hd. unfold parse_tlvs. split.
  - intros <-. destruct (framing_exists _ d (le_n _) Hd) as [l Hl].
    by rewrite (parse_follows_framing d l Hl).
  - intros Hl. by apply parse_follows_framing.
Qed.

Lemma parse_tlvs_exact_witness :
  framing [0; 3; 0; 2; 7; 9; 0; 3; 0; 5; 1] [(3, 2, [7; 9])].
Proof.
  apply (parse_tlvs_exact [0; 3; 0; 2; 7; 9; 0; 3; 0; 5; 1]).
  - unfold bytes_ok. apply (bool_decide_unpack _). vm_compute. exact I.
  - vm_compute. reflexivity.
Defined.

(** ** Every message the sender builds is well framed *)

(** What a receiver reads from the front of a datagram: the kind, the sender and
    the sequence number it was built with, and its true length. *)
Definition announces (packet : list Z) (t : PtpMessageType) (identity : list Z) (seq : Z) : Prop :=
  exists h, parse_header packet = Ok h /\ message_type h = t
    /\ source_port_identity h = identity /\ sequence_id h = seq
    /\ message_length h = Z.of_nat (length packet).

Lemma framed_announces h body :
  header_ok h -> message_length h = 34 + Z.of_nat (length body) ->
  announces (serialize_header h ++ body) (message_type h) (source_port_identity h) (sequence_id h).
Proof.
  intros Hok Hl. exists h. rewrite parse_serialize_ptp_header by done. repeat split; try done.
  rewrite length_app, length_serialize_ptp_header by done. lia.
Qed.

Lemma new_header_ok t seq identity len interval fl :
  in_width 16 seq -> length identity = 10%nat -> in_width 16 len -> in_signed 8 interval ->
  in_width 16 fl ->
  header_ok ((new_header t seq) <| source_port_identity := identity |>
               <| message_length := len |> <| log_message_interval := interval |> <| flags := fl |>).
Proof.
  intros. unfold header_ok, new_header, in_width, in_signed in *; cbn. repeat split; try lia; try done;
    by destruct t.
Qed.

Lemma length_apple_tlv sub payload :
  length sub = 3%nat ->
  length (serialize_apple_tlv (new_apple_tlv sub payload)) = (10 + length payload)%nat.
Proof. intros H. unfold serialize_apple_tlv, tlv_header; cbn. rewrite !length_app, H. lia. Qed.

Lemma length_port_identity ci : length ci = 8%nat -> length (port_identity ci) = 10%nat.
Proof. intros H. unfold port_identity. wire_len. Qed.

(** The shape shared by all builders. *)
Ltac built :=
  match goal with
  | |- announces (serialize_header ?h ++ ?body) _ _ _ =>
      apply (framed_announces h body)
  end.

Section Built.
Context (ci : list Z) (seq : Z).
Hypothesis clock_identity_size : length ci = 8%nat.
Hypothesis seq_u16 : in_width 16 seq.

Lemma signaling_announces tlvs :
  Z.of_nat (length (concat tlvs)) < 65000 ->
  announces (signaling_packet ci seq tlvs) MSignaling (port_identity ci) seq.
Proof.
  intros Hl. unfold signaling_packet. built.
  - apply (new_header_ok MSignaling seq (port_identity ci)
             (34 + 10 + Z.of_nat (length (concat tlvs))) 0 0); auto using length_port_identity;
      unfold in_width, in_signed; lia.
  - rewrite length_app. cbn -[Z.add Z.of_nat]. lia.
Qed.

Lemma sync_announces : announces (sync_packet ci seq) MSync (port_identity ci) seq.
Proof.
  unfold sync_packet. built; [|done].
  apply (new_header_ok MSync seq (port_identity ci) 44 0 0x0200); auto using length_port_identity;
    unfold in_width, in_signed; cbn; lia.
Qed.

Lemma follow_up_announces t :
  announces (follow_up_packet ci seq t) MFollowUp (port_identity ci) seq.
Proof.
  unfold follow_up_packet. built.
  - apply (new_header_ok MFollowUp seq (port_identity ci) 76 0 0); auto using length_port_identity;
      unfold in_width, in_signed; cbn; lia.
  - rewrite length_app, length_serialize_timestamp. done.
Qed.

Lemma delay_req_announces t requester :
  length requester = 10%nat -> announces (delay_req_packet requester seq t) MDelayReq requester seq.
Proof.
  intros Hr. unfold delay_req_packet. built.
  - apply (new_header_ok MDelayReq seq requester 44 0 0); auto;
      unfold in_width, in_signed; cbn; lia.
  - rewrite length_serialize_timestamp. done.
Qed.

Lemma unnamed_delay_req_announces t :
  announces (unnamed_delay_req_packet seq t) MDelayReq (replicate 10 0) seq.
Proof. exact (delay_req_announces t (replicate 10 0) eq_refl). Qed.

Lemma delay_resp_announces t requester :
  length requester = 10%nat ->
  announces (delay_resp_packet ci seq t requester) MDelayResp (port_identity ci) seq.
Proof.
  intros Hr. unfold delay_resp_packet. built.
  - apply (new_header_ok MDelayResp seq (port_identity ci) 54 0 0); auto using length_port_identity;
      unfold in_width, in_signed; cbn; lia.
  - rewrite length_app, length_serialize_timestamp, Hr. done.
Qed.

Lemma announce_announces clock_class p1 :
  announces (announce_packet ci seq clock_class p1) MAnnounce (port_identity ci) seq.
Proof.
  unfold announce_packet. built.
  - apply (new_header_ok MAnnounce seq (port_identity ci) 64 1 0); auto using length_port_identity;
      unfold in_width, in_signed; cbn; lia.
  - rewrite !length_app, clock_identity_size. done.
Qed.

(** C40: Every kind of datagram the timing code builds is read back by a
    receiver that parses the header: the message kind, the sequence number, a
    length field equal to the datagram's true length, and the port identity of
    the sender's clock; only the Delay_Req of [PtpClient], of the gPTP master
    and of [run_ptp_slave] is read back with an identity of zeros, and the one
    of the yielding flow with the identity it was given. *)
Theorem built_messages_parse t requester sync_log announce_log :
  length requester = 10%nat ->
  announces (sync_packet ci seq) MSync (port_identity ci) seq
  /\ announces (follow_up_packet ci seq t) MFollowUp (port_identity ci) seq
  /\ announces (delay_req_packet requester seq t) MDelayReq requester seq
  /\ announces (unnamed_delay_req_packet seq t) MDelayReq (replicate 10 0) seq
  /\ announces (delay_resp_packet ci seq t requester) MDelayResp (port_identity ci) seq
  /\ (forall clock_class priority1,
        announces (announce_packet ci seq clock_class priority1) MAnnounce (port_identity ci) seq)
  /\ announces (ptp_signaling ci seq sync_log announce_log) MSignaling (port_identity ci) seq
  /\ announces (mac_style_signaling ci seq) MSignaling (port_identity ci) seq
  /\ announces (stop_signaling ci seq) MSignaling (port_identity ci) seq.
Proof.
  intros Hr.
  split_and!; auto using sync_announces, follow_up_announces, delay_req_announces, unnamed_delay_req_announces,
    delay_resp_announces, announce_announces;
    apply signaling_announces; cbn; lia.
Qed.

(** The fields a peer reads from the bodies. *)
Lemma announce_grandmaster clock_class p1 :
  slice 53 61 (announce_packet ci seq clock_class p1) = ci.
Proof.
  unfold announce_packet. rewrite (slice_body _ _ 19 27) by (by apply length_port_identity).
  wire_slice. done.
Qed.

Lemma follow_up_time t :
  timestamp_ok t -> parse_timestamp (slice 34 44 (follow_up_packet ci seq t)) = Ok t.
Proof.
  intros Ht. unfold follow_up_packet. rewrite (slice_body _ _ 0 10) by (by apply length_port_identity).
  rewrite slice_here by apply length_serialize_timestamp.
  rewrite <- (app_nil_r (serialize_timestamp t)). by apply parse_serialize_timestamp.
Qed.

Lemma delay_resp_time t requester :
  timestamp_ok t -> parse_timestamp (slice 34 44 (delay_resp_packet ci seq t requester)) = Ok t.
Proof.
  intros Ht. unfold delay_resp_packet. rewrite (slice_body _ _ 0 10) by (by apply length_port_identity).
  rewrite slice_here by apply length_serialize_timestamp.
  rewrite <- (app_nil_r (serialize_timestamp t)). by apply parse_serialize_timestamp.
Qed.

Lemma delay_resp_requester t requester :
  length requester = 10%nat -> slice 44 54 (delay_resp_packet ci seq t requester) = requester.
Proof.
  intros Hr. unfold delay_resp_packet. rewrite (slice_body _ _ 10 20) by (by apply length_port_identity).
  rewrite (slice_skip _ _ 10) by (apply length_serialize_timestamp || lia). by apply slice_whole.
Qed.
End Built.

Lemma built_messages_parse_witness :
  announces (sync_packet (replicate 8 7) 65535) MSync (port_identity (replicate 8 7)) 65535
  /\ announces (stop_signaling (replicate 8 7) 65535) MSignaling (port_identity (replicate 8 7)) 65535.
Proof.
  assert (Hs : in_width 16 65535) by (unfold in_width; lia).
  destruct (built_messages_parse (replicate 8 7) 65535 eq_refl Hs (from_nanos 0) (replicate 10 1)
    (-3) (-2) eq_refl) as (H1 & _ & _ & _ & _ & _ & _ & _ & H8).
  split; [exact H1|exact H8].
Defined.
End PtpWire.
