(* ===== verification/PtpTracker.v ===== *)
(** * Measuring the master's clock ([airplay-timing/src/ptp.rs])

    The generation-aware matcher [PtpMeasurementTracker] and the flow that
    drives it, [run_bmca_yield_flow_state]: announce ourselves, wait for the
    remote Announce, yield, and then follow the master's Sync, Follow_Up and
    Delay_Resp messages, publishing a clock state through a watch channel.

    One input of the flow is one completed [select!] branch: a datagram read
    from one of the two sockets, with its sender and the system time read while
    it is handled, or the expiry of the negotiation deadline. *)

From S2P Require Import Prelude Wire Clock PtpWire.
Import Clock PtpWire.

Module PtpTracker.

Definition UNMEASURED_PATH_DELAY_NS : Z := 500000.

Definition one_way_offset (t1 t2 : PtpTimestamp) : ClockOffset :=
  {| offset_ns := as_signed 64 (to_nanos t2 - to_nanos t1);
     error_ns := UNMEASURED_PATH_DELAY_NS; rtt_ns := 0 |}.

Record PtpClockState := { master_clock_id : list Z; offset : ClockOffset }.

Inductive TrackerPublication := Unchanged | Invalidate.

Record AnnouncedClock := {
  grandmaster_id : list Z;
  relay_port_identity : list Z;
  generation : Z;
}.
Record PendingSync := {
  ps_sequence_id : Z;
  ps_relay_port_identity : list Z;
  ps_generation : Z;
  received_at : PtpTimestamp;
}.
Record CompletedSync := {
  cs_generation : Z;
  master_sent_at : PtpTimestamp;
  local_received_at : PtpTimestamp;
}.
Record PendingDelay := {
  pd_sequence_id : Z;
  requesting_port_identity : list Z;
  pd_generation : Z;
  local_sent_at : PtpTimestamp;
  sync : CompletedSync;
}.
Record PtpMeasurementTracker := {
  local_port_identity : list Z;
  announced : option AnnouncedClock;
  pending_sync : option PendingSync;
  completed_sync : option CompletedSync;
  pending_delay : option PendingDelay;
  next_generation : Z;
}.
#[export] Instance eta_Tracker : Eta PtpMeasurementTracker := fun t =>
  {| local_port_identity := local_port_identity t; announced := announced t;
     pending_sync := pending_sync t; completed_sync := completed_sync t;
     pending_delay := pending_delay t; next_generation := next_generation t |}.

Definition new_tracker (identity : list Z) : PtpMeasurementTracker :=
  {| local_port_identity := identity; announced := None; pending_sync := None;
     completed_sync := None; pending_delay := None; next_generation := 1 |}.

(** The grandmaster an acceptable Announce names. *)
Definition announced_identity (h : PtpHeader) (packet : list Z) : option (list Z) :=
  if negb (bool_decide (message_type h = MAnnounce)) || (length packet <? 61)%nat then None
  else
    let gm := slice 53 61 packet in
    if bool_decide (gm = replicate 8 0)
       || bool_decide (slice 0 8 (source_port_identity h) = replicate 8 0) then None
    else Some gm.

Definition same_clock (a : AnnouncedClock) (gm relay : list Z) : bool :=
  bool_decide (grandmaster_id a = gm) && bool_decide (relay_port_identity a = relay).

Definition observe_announce (t : PtpMeasurementTracker) (h : PtpHeader) (packet : list Z)
  : PtpMeasurementTracker * TrackerPublication :=
  match announced_identity h packet with
  | None => (t, Unchanged)
  | Some gm =>
      if match announced t with
         | Some current => same_clock current gm (source_port_identity h)
         | None => false
         end
      then (t, Unchanged)
      else
        ({| local_port_identity := local_port_identity t;
            announced := Some {| grandmaster_id := gm;
                                 relay_port_identity := source_port_identity h;
                                 generation := next_generation t |};
            pending_sync := None; completed_sync := None; pending_delay := None;
            next_generation := Z.max (u64_succ (next_generation t)) 1 |},
         match announced t with Some _ => Invalidate | None => Unchanged end)
  end.

Definition observe_sync (t : PtpMeasurementTracker) (h : PtpHeader) (packet : list Z)
    (now : PtpTimestamp) : PtpMeasurementTracker :=
  if negb (bool_decide (message_type h = MSync)) || (length packet <? 34)%nat then t
  else
    match announced t with
    | None => t
    | Some a =>
        if negb (bool_decide (source_port_identity h = relay_port_identity a)) then t
        else t <| pending_sync :=
                    Some {| ps_sequence_id := sequence_id h;
                            ps_relay_port_identity := source_port_identity h;
                            ps_generation := generation a; received_at := now |} |>
    end.

Definition observe_follow_up (t : PtpMeasurementTracker) (h : PtpHeader) (packet : list Z)
  : PtpMeasurementTracker * option PtpClockState :=
  if negb (bool_decide (message_type h = MFollowUp)) || (length packet <? 44)%nat then (t, None)
  else
    match announced t, pending_sync t with
    | Some a, Some p =>
        if negb (sequence_id h =? ps_sequence_id p)
           || negb (bool_decide (source_port_identity h = ps_relay_port_identity p))
           || negb (bool_decide (source_port_identity h = relay_port_identity a))
           || negb (ps_generation p =? generation a)
        then (t, None)
        else
          match parse_timestamp (slice 34 44 packet) with
          | Err _ => (t, None)
          | Ok sent =>
              (t <| pending_sync := None |>
                 <| completed_sync := Some {| cs_generation := generation a;
                                              master_sent_at := sent;
                                              local_received_at := received_at p |} |>,
               Some {| master_clock_id := grandmaster_id a;
                       offset := one_way_offset sent (received_at p) |})
          end
    | _, _ => (t, None)
    end.

Definition record_delay_request (t : PtpMeasurementTracker) (seq : Z) (requester : list Z)
    (sent_at : PtpTimestamp) : PtpMeasurementTracker :=
  match announced t, completed_sync t with
  | Some a, Some s =>
      if negb (bool_decide (requester = local_port_identity t))
         || negb (cs_generation s =? generation a)
      then t
      else t <| pending_delay :=
                  Some {| pd_sequence_id := seq; requesting_port_identity := requester;
                          pd_generation := generation a; local_sent_at := sent_at; sync := s |} |>
  | _, _ => t
  end.

(** The offset of a complete round trip, in [i128]. *)
Definition round_trip_offset (t1 t2 t3 t4 : PtpTimestamp) : ClockOffset :=
  let '(t1, t2, t3, t4) := (to_nanos t1, to_nanos t2, to_nanos t3, to_nanos t4) in
  let offset := ((t2 - t1) + (t3 - t4)) ÷ 2 in
  let delay := ((t2 - t1) - (t3 - t4)) ÷ 2 in
  {| offset_ns := as_signed 64 offset; error_ns := wrap 64 (Z.abs delay ÷ 2);
     rtt_ns := wrap 64 (Z.abs delay) |}.

Definition observe_delay_response (t : PtpMeasurementTracker) (h : PtpHeader) (packet : list Z)
  : PtpMeasurementTracker * option PtpClockState :=
  if negb (bool_decide (message_type h = MDelayResp)) || (length packet <? 54)%nat then (t, None)
  else
    match announced t, pending_delay t with
    | Some a, Some p =>
        if negb (sequence_id h =? pd_sequence_id p)
           || negb (bool_decide (source_port_identity h = relay_port_identity a))
           || negb (bool_decide (slice 44 54 packet = requesting_port_identity p))
           || negb (pd_generation p =? generation a)
           || negb (cs_generation (sync p) =? generation a)
        then (t, None)
        else
          match parse_timestamp (slice 34 44 packet) with
          | Err _ => (t, None)
          | Ok received =>
              (t <| pending_delay := None |>,
               Some {| master_clock_id := grandmaster_id a;
                       offset := round_trip_offset (master_sent_at (sync p))
                                   (local_received_at (sync p)) (local_sent_at p) received |})
          end
    | _, _ => (t, None)
    end.

(** ** The flow *)

Inductive Socket := EventSocket | GeneralSocket.

Inductive Input :=
| Datagram (on : Socket) (src : Z) (data : list Z) (now : PtpTimestamp)
| BmcaDeadline.

Inductive Phase := Negotiating | Slave.

Record Flow := {
  phase : Phase;
  remote_priority1 : Z;
  tracker : PtpMeasurementTracker;
  signaling_seq : Z;
  delay_req_seq : Z;
  published : option PtpClockState;
  sent : list (Socket * list Z);
}.
#[export] Instance eta_Flow : Eta Flow := fun f =>
  {| phase := phase f; remote_priority1 := remote_priority1 f; tracker := tracker f;
     signaling_seq := signaling_seq f; delay_req_seq := delay_req_seq f;
     published := published f; sent := sent f |}.

Definition u16_succ (x : Z) : Z := wrap 16 (x + 1).

Section Run.
(** The peer followed, the sender's own priority and clock identity. *)
Context (master_ip priority1 : Z) (clock_identity : list Z).

(** Phase 1: three Sync/Follow_Up pairs, stamped at the given times, two
    Announces between them, and one signaling message. *)
Definition opening (times : PtpTimestamp * PtpTimestamp * PtpTimestamp) : list (Socket * list Z) :=
  let '(s1, s2, s3) := times in
  let pair seq t := [(EventSocket, sync_packet clock_identity seq);
                     (GeneralSocket, follow_up_packet clock_identity seq t)] in
  let announce seq := [(GeneralSocket, announce_packet clock_identity seq 248 priority1)] in
  pair 1 s1 ++ announce 1 ++ pair 2 s2 ++ announce 2 ++ pair 3 s3
  ++ [(GeneralSocket, mac_style_signaling clock_identity 1)].

Definition start_flow (times : PtpTimestamp * PtpTimestamp * PtpTimestamp) : Flow :=
  {| phase := Negotiating; remote_priority1 := 255;
     tracker := new_tracker (port_identity clock_identity);
     signaling_seq := 1; delay_req_seq := 0; published := None; sent := opening times |}.

(** Phase 3: the lower priority wins; unless it is ours, tell the peer to stop
    expecting our messages. *)
Definition decide_master (f : Flow) : Flow :=
  let f := f <| phase := Slave |> in
  if priority1 <? remote_priority1 f then f
  else
    let seq := u16_succ (signaling_seq f) in
    f <| signaling_seq := seq |>
      <| sent := sent f ++ [(GeneralSocket, stop_signaling clock_identity seq)] |>.

(** Phase 2: one iteration of the negotiation loop. *)
Definition negotiate (f : Flow) (i : Input) : Flow :=
  match i with
  | BmcaDeadline => decide_master f
  | Datagram EventSocket _ _ _ => f
  | Datagram GeneralSocket src data _ =>
      if negb (src =? master_ip) then f
      else
        match parse_header data with
        | Err _ => f
        | Ok h =>
            if bool_decide (message_type h = MAnnounce) && (61 <=? length data)%nat then
              let f := f <| remote_priority1 := byte_at data 47 |>
                         <| tracker := fst (observe_announce (tracker f) h data) |> in
              match announced (tracker f) with Some _ => decide_master f | None => f end
            else f
        end
  end.

Definition publish_clock_state (f : Flow) (s : option PtpClockState) : Flow :=
  f <| published := s |>.

Definition on_delay_response (f : Flow) (h : PtpHeader) (data : list Z) : Flow :=
  let '(t, s) := observe_delay_response (tracker f) h data in
  let f := f <| tracker := t |> in
  match s with Some _ => publish_clock_state f s | None => f end.

Definition on_announce (f : Flow) (h : PtpHeader) (data : list Z) : Flow :=
  let '(t, p) := observe_announce (tracker f) h data in
  let f := f <| tracker := t |> in
  match p with Invalidate => publish_clock_state f None | Unchanged => f end.

(** A completed pair is published at once and followed by a delay request. *)
Definition on_follow_up (f : Flow) (h : PtpHeader) (data : list Z) (now : PtpTimestamp) : Flow :=
  let '(t, s) := observe_follow_up (tracker f) h data in
  let f := f <| tracker := t |> in
  match s with
  | None => f
  | Some _ =>
      let seq := u16_succ (delay_req_seq f) in
      let identity := port_identity clock_identity in
      (publish_clock_state f s)
        <| delay_req_seq := seq |>
        <| tracker := record_delay_request t seq identity now |>
        <| sent := sent f ++ [(EventSocket, delay_req_packet identity seq now)] |>
  end.

(** Phase 4: one iteration of the slave loop. *)
Definition follow (f : Flow) (i : Input) : Flow :=
  match i with
  | BmcaDeadline => f
  | Datagram on src data now =>
      if negb (src =? master_ip) then f
      else
        match parse_header data with
        | Err _ => f
        | Ok h =>
            match on, message_type h with
            | EventSocket, MSync => f <| tracker := observe_sync (tracker f) h data now |>
            | EventSocket, MDelayResp => on_delay_response f h data
            | GeneralSocket, MAnnounce => on_announce f h data
            | GeneralSocket, MDelayResp => on_delay_response f h data
            | GeneralSocket, MFollowUp => on_follow_up f h data now
            | _, _ => f
            end
        end
  end.

Definition step (f : Flow) (i : Input) : Flow :=
  match phase f with Negotiating => negotiate f i | Slave => follow f i end.

Definition run (times : PtpTimestamp * PtpTimestamp * PtpTimestamp) (ins : list Input) : Flow :=
  fold_left step ins (start_flow times).

(** ** What a published state rests on

    The specification reads only the sequence of inputs: which clock is being
    announced, what arrived since it was first announced, and which messages of
    that period make up a measurement. *)

(** An input that is a datagram of the master with the given header fields. *)
Definition received (i : Input) (on : Socket) (t : PtpMessageType) (relay : list Z) (seq : Z)
    (data : list Z) (now : PtpTimestamp) : Prop :=
  i = Datagram on master_ip data now
  /\ exists h, parse_header data = Ok h /\ message_type h = t
       /\ source_port_identity h = relay /\ sequence_id h = seq.

(** The clock an input announces: grandmaster and relay. *)
Definition announcement (i : Input) : option (list Z * list Z) :=
  match i with
  | Datagram GeneralSocket src data _ =>
      if src =? master_ip then
        match parse_header data with
        | Ok h => gm ← announced_identity h data; Some (gm, source_port_identity h)
        | Err _ => None
        end
      else None
  | _ => None
  end.

(** The announced clock and the inputs since it was first announced. *)
Definition epoch_step (e : option (list Z * list Z * list Input)) (i : Input)
  : option (list Z * list Z * list Input) :=
  match announcement i, e with
  | Some c, Some (c', since) => if bool_decide (c = c') then Some (c', since ++ [i]) else Some (c, [])
  | Some c, None => Some (c, [])
  | None, Some (c', since) => Some (c', since ++ [i])
  | None, None => None
  end.
Definition epoch (ins : list Input) : option (list Z * list Z * list Input) :=
  fold_left epoch_step ins None.

(** A Sync of the relay. *)
Definition is_sync (relay : list Z) (i : Input) : Prop :=
  exists seq data now, received i EventSocket MSync relay seq data now.

(** [l] ends with a Follow_Up that belongs to the newest Sync before it: the
    master sent at [t1], the Sync arrived at [t2], the Follow_Up at [t3]. *)
Definition paired (relay : list Z) (l : list Input) (t1 t2 t3 : PtpTimestamp) : Prop :=
  exists pre i mid j seq data data',
    l = pre ++ i :: mid ++ [j]
    /\ received i EventSocket MSync relay seq data t2
    /\ Forall (fun x => ~ is_sync relay x) mid
    /\ received j GeneralSocket MFollowUp relay seq data' t3
    /\ parse_timestamp (slice 34 44 data') = Ok t1.

(** [l] holds the relay's answer to our request [k]: received there at [t4]. *)
Definition answered (relay : list Z) (l : list Input) (k : Z) (t4 : PtpTimestamp) : Prop :=
  exists pre i post on data now,
    l = pre ++ i :: post /\ received i on MDelayResp relay k data now
    /\ slice 44 54 data = port_identity clock_identity
    /\ parse_timestamp (slice 34 44 data) = Ok t4.

(** The offset is that of a completed pair, or of a completed pair refined by
    the answer to the request sent when the pair completed. *)
Definition measured (f : Flow) (relay : list Z) (since : list Input) (o : ClockOffset) : Prop :=
  exists l post t1 t2 t3,
    since = l ++ post /\ paired relay l t1 t2 t3
    /\ (o = one_way_offset t1 t2
        \/ exists k t4, answered relay post k t4 /\ o = round_trip_offset t1 t2 t3 t4
             /\ (EventSocket, delay_req_packet (port_identity clock_identity) k t3) ∈ sent f).
End Run.
End PtpTracker.
