(* ===== verification/PtpTrackerProps.v ===== *)
(** * Published clock states are coherent

    Invariant of [run_bmca_yield_flow_state] over every sequence of datagrams:
    what the watch channel holds is the identity announced last together with
    an offset measured, since that announcement, from messages that belong
    together; and a clean exchange is measured exactly. *)

From S2P Require Import Prelude Wire Clock PtpWire PtpTracker.
Import Clock PtpWire PtpTracker.

Module PtpTrackerProps.

(** The facts behind a chain of rejecting conditions that did not fire. *)
Ltac pass_guard Eg :=
  repeat (apply orb_false_iff in Eg as [Eg ?]);
  repeat match goal with H : negb _ = false |- _ => apply negb_false_iff in H end;
  repeat match goal with H : bool_decide _ = true |- _ => apply bool_decide_eq_true in H end.

Section Coherence.
Context (master_ip priority1 : Z) (ci : list Z).

Notation received := (received master_ip).
Notation is_sync := (is_sync master_ip).
Notation paired := (paired master_ip).
Notation answered := (answered master_ip ci).
Notation measured := (measured master_ip ci).
Notation epoch := (epoch master_ip).
Notation epoch_step := (epoch_step master_ip).
Notation announcement := (announcement master_ip).
Notation step := (step master_ip priority1 ci).
Notation local := (port_identity ci).

(** The newest Sync of [since] is waiting for its Follow_Up. *)
Definition awaiting (relay : list Z) (since : list Input) (seq : Z) (t2 : PtpTimestamp) : Prop :=
  exists pre i mid data, since = pre ++ i :: mid
    /\ received i EventSocket MSync relay seq data t2
    /\ Forall (fun x => ~ is_sync relay x) mid.

Record clock_inv (f : Flow) (gm relay : list Z) (since : list Input) (g : Z) : Prop := {
  ci_announced : announced (tracker f)
    = Some {| grandmaster_id := gm; relay_port_identity := relay; generation := g |};
  ci_pending p : pending_sync (tracker f) = Some p ->
    ps_relay_port_identity p = relay /\ awaiting relay since (ps_sequence_id p) (received_at p);
  ci_delay d : pending_delay (tracker f) = Some d ->
    requesting_port_identity d = local
    /\ (EventSocket, delay_req_packet local (pd_sequence_id d) (local_sent_at d)) ∈ sent f
    /\ exists l post, since = l ++ post
         /\ paired relay l (master_sent_at (sync d)) (local_received_at (sync d)) (local_sent_at d);
  ci_published s : published f = Some s ->
    master_clock_id s = gm /\ measured f relay since (offset s);
}.

Record inv (f : Flow) (e : option (list Z * list Z * list Input)) : Prop := {
  inv_local : local_port_identity (tracker f) = local;
  inv_negotiating : phase f = Negotiating -> e = None;
  inv_clock : match e with
              | None => announced (tracker f) = None /\ published f = None
              | Some (gm, relay, since) => exists g, clock_inv f gm relay since g
              end;
}.

(** ** Evidence is never lost as inputs arrive *)

Lemma awaiting_extend relay since seq t2 i :
  ~ is_sync relay i -> awaiting relay since seq t2 -> awaiting relay (since ++ [i]) seq t2.
Proof.
  intros Hi (pre & j & mid & data & -> & Hj & Hm). exists pre, j, (mid ++ [i]), data.
  split; [by rewrite <- app_assoc|]. split; [done|]. apply Forall_app. auto.
Qed.

Lemma answered_extend relay l k t4 i : answered relay l k t4 -> answered relay (l ++ [i]) k t4.
Proof.
  intros (pre & j & post & on & data & now & -> & H). exists pre, j, (post ++ [i]), on, data, now.
  by rewrite <- app_assoc.
Qed.

Lemma measured_extend f f' relay since o i :
  sent f ⊆ sent f' -> measured f relay since o -> measured f' relay (since ++ [i]) o.
Proof.
  intros Hs (l & post & t1 & t2 & t3 & -> & Hp & Ho). exists l, (post ++ [i]), t1, t2, t3.
  split; [by rewrite app_assoc|]. split; [done|]. destruct Ho as [->|(k & t4 & Ha & -> & Hk)]; [auto|].
  right. exists k, t4. eauto using answered_extend.
Qed.

(** An input that changes neither the tracker nor the published state. *)
Lemma clock_inv_idle f gm relay since g i :
  ~ is_sync relay i -> clock_inv f gm relay since g -> clock_inv f gm relay (since ++ [i]) g.
Proof.
  intros Hi [Ha Hp Hd Hs]. split; [done| | |].
  - intros p Ep. destruct (Hp p Ep). auto using awaiting_extend.
  - intros d Ed. destruct (Hd d Ed) as (? & ? & l & post & -> & ?). split; [done|]. split; [done|].
    exists l, (post ++ [i]). by rewrite app_assoc.
  - intros s Es. destruct (Hs s Es). eauto using measured_extend.
Qed.

(** ** Which inputs are Syncs *)

Lemma not_sync_other relay on src data now :
  (src =? master_ip) = false -> ~ is_sync relay (Datagram on src data now).
Proof. intros Hs (seq & d & n & [=] & _). subst. lia. Qed.

Lemma not_sync_garbage relay on src data now e :
  parse_header data = Err e -> ~ is_sync relay (Datagram on src data now).
Proof. intros Hp (seq & d & n & [=] & h & Hh & _). subst. congruence. Qed.

Lemma not_sync relay on src data now h :
  parse_header data = Ok h ->
  on = GeneralSocket \/ message_type h <> MSync \/ source_port_identity h <> relay ->
  ~ is_sync relay (Datagram on src data now).
Proof.
  intros Hp Hn (seq & d & n & [=] & h' & Hh & ? & ? & ?). subst. assert (h' = h) as -> by congruence.
  destruct Hn as [?|[?|?]]; congruence.
Qed.

Lemma received_intro on data now h :
  parse_header data = Ok h ->
  received (Datagram on master_ip data now) on (message_type h) (source_port_identity h)
    (sequence_id h) data now.
Proof. intros Hp. split; [done|]. by exists h. Qed.

Lemma parse_header_length data h : parse_header data = Ok h -> (34 <= length data)%nat.
Proof. unfold parse_header. destruct (Nat.ltb_spec (length data) 34); [done|lia]. Qed.

Lemma announced_identity_type h data gm :
  announced_identity h data = Some gm -> message_type h = MAnnounce.
Proof. unfold announced_identity. case_bool_decide; [done|]. done. Qed.

(** The epoch of an input that announces nothing. *)
Lemma epoch_step_idle e i :
  announcement i = None ->
  epoch_step e i = match e with Some (c, since) => Some (c, since ++ [i]) | None => None end.
Proof. intros Hi. unfold PtpTracker.epoch_step. by rewrite Hi. Qed.

Lemma announcement_type on src data now h :
  parse_header data = Ok h -> message_type h <> MAnnounce ->
  announcement (Datagram on src data now) = None.
Proof.
  intros Hp Ht. destruct on; simpl; [done|]. destruct (src =? master_ip); [|done]. rewrite Hp.
  destruct (announced_identity h data) eqn:Ea; [|done]. by apply announced_identity_type in Ea.
Qed.

Lemma announcement_of data now h :
  parse_header data = Ok h ->
  announcement (Datagram GeneralSocket master_ip data now)
  = option_map (fun gm => (gm, source_port_identity h)) (announced_identity h data).
Proof. intros Hp. simpl. rewrite Z.eqb_refl, Hp. by destruct (announced_identity h data). Qed.

(** ** The steps of the slave loop *)

Lemma inv_idle f e i :
  announcement i = None -> (forall relay, ~ is_sync relay i) ->
  inv f e -> inv f (epoch_step e i).
Proof.
  intros Ha Hi [Hl Hn Hc]. rewrite epoch_step_idle by done. split; [done| |].
  - intros Hp. by rewrite (Hn Hp).
  - destruct e as [[[gm relay] since]|]; [|done]. destruct Hc as [g Hc]. exists g.
    by apply clock_inv_idle.
Qed.

Lemma inv_sync f e data now h :
  phase f = Slave -> parse_header data = Ok h -> message_type h = MSync -> inv f e ->
  inv (f <| tracker := observe_sync (tracker f) h data now |>)
    (epoch_step e (Datagram EventSocket master_ip data now)).
Proof.
  intros Hf Hp Ht [Hl Hn Hc]. rewrite epoch_step_idle by done.
  pose proof (parse_header_length _ _ Hp) as Hlen. unfold observe_sync.
  rewrite bool_decide_true by done. destruct (Nat.ltb_spec (length data) 34); [lia|]. cbn [negb orb].
  destruct e as [[[gm relay] since]|].
  2: { destruct Hc as [Ha Hs]. rewrite Ha. by split. }
  destruct Hc as [g Hc]. pose proof (ci_announced _ _ _ _ _ Hc) as Ha. rewrite Ha. cbn.
  case_bool_decide as Hr; cbn [negb].
  - split; [done|by rewrite Hf|]. exists g. destruct Hc as [_ _ Hd Hs]. split; cbn; [done| | |].
    + intros p [= <-]; cbn. split; [done|].
      exists since, (Datagram EventSocket master_ip data now), [], data.
      split; [done|]. split; [|done]. rewrite <- Ht, <- Hr. by apply received_intro.
    + intros d Ed. destruct (Hd d Ed) as (? & ? & l & post & -> & ?). split; [done|]. split; [done|].
      exists l, (post ++ [Datagram EventSocket master_ip data now]). by rewrite app_assoc.
    + intros s Es. destruct (Hs s Es) as [? Hm]. split; [done|]. by eapply measured_extend; [|exact Hm].
  - split; [done|by rewrite Hf|]. exists g. apply clock_inv_idle.
    + eapply not_sync; [done|auto].
    + destruct Hc as [H1 H2 H3 H4]. split; assumption.
Qed.

Lemma inv_announce f e data now h :
  phase f = Slave -> parse_header data = Ok h -> inv f e ->
  inv (on_announce f h data) (epoch_step e (Datagram GeneralSocket master_ip data now)).
Proof.
  intros Hf Hp Hinv. unfold on_announce, observe_announce.
  pose proof (announcement_of data now h Hp) as Ean.
  destruct (announced_identity h data) as [gm|] eqn:Ea; cbn [option_map] in Ean.
  2: { destruct f. apply inv_idle; [done| |done]. intros relay. eapply not_sync; eauto. }
  destruct Hinv as [Hl Hn Hc]. unfold PtpTracker.epoch_step. rewrite Ean.
  destruct e as [[[gm' relay] since]|].
  - destruct Hc as [g Hc]. pose proof (ci_announced _ _ _ _ _ Hc) as Ha. rewrite Ha.
    unfold same_clock; cbn [grandmaster_id relay_port_identity].
    destruct (decide ((gm, source_port_identity h) = (gm', relay))) as [Hsame|Hsame].
    + injection Hsame as <- <-. rewrite !bool_decide_true by done. cbn. split; [done|by rewrite Hf|].
      exists g. apply clock_inv_idle; [eapply not_sync; eauto|]. destruct Hc. split; assumption.
    + replace (bool_decide (gm' = gm) && bool_decide (relay = source_port_identity h)) with false.
      2: { symmetry. apply andb_false_iff. rewrite !bool_decide_eq_false.
           destruct (decide (gm' = gm)) as [->|]; [right|by left]. congruence. }
      rewrite bool_decide_false by done. cbn. split; cbn; [done|by rewrite Hf|]. eexists. split; cbn; done.
  - destruct Hc as [Ha Hs]. rewrite Ha. cbn. split; cbn; [done|by rewrite Hf|].
    eexists. split; cbn; [done|done|done|]. intros s. by rewrite Hs.
Qed.

Lemma inv_delay_response f e on data now h :
  phase f = Slave -> parse_header data = Ok h -> message_type h = MDelayResp -> inv f e ->
  inv (on_delay_response f h data) (epoch_step e (Datagram on master_ip data now)).
Proof.
  intros Hf Hp Ht Hinv. unfold on_delay_response, observe_delay_response.
  assert (forall relay, ~ is_sync relay (Datagram on master_ip data now)) as Hns.
  { intros relay. eapply not_sync; [done|]. right; left. by rewrite Ht. }
  assert (announcement (Datagram on master_ip data now) = None) as Han.
  { apply (announcement_type _ _ _ _ h); [done|by rewrite Ht]. }
  assert (inv (f <| tracker := tracker f |>) (epoch_step e (Datagram on master_ip data now))) as Hid.
  { destruct f. by apply inv_idle. }
  destruct (negb _ || _); [done|].
  destruct (announced (tracker f)) as [a|] eqn:Ha; [|done].
  destruct (pending_delay (tracker f)) as [d|] eqn:Ed; [|done].
  destruct (_ || _) eqn:Eg; [done|].
  pass_guard Eg.
  destruct (parse_timestamp _) as [t4|] eqn:E4; [|done].
  destruct Hinv as [Hl Hn Hc]. rewrite epoch_step_idle by done.
  destruct e as [[[gm relay] since]|]; [|destruct Hc; congruence].
  destruct Hc as [g Hc]. pose proof (ci_announced _ _ _ _ _ Hc) as Ha'.
  assert (a = {| grandmaster_id := gm; relay_port_identity := relay; generation := g |}) as -> by congruence.
  cbn in *. split; cbn; [done|by rewrite Hf|]. exists g. split; cbn; [done| |done|].
  - intros p Ep. destruct (ci_pending _ _ _ _ _ Hc p Ep). auto using awaiting_extend.
  - intros s [= <-]; cbn. split; [done|].
    destruct (ci_delay _ _ _ _ _ Hc d Ed) as (Hq & Hsent & l & post & -> & Hpair).
    exists l, (post ++ [Datagram on master_ip data now]).
    eexists _, _, _. split; [by rewrite app_assoc|]. split; [done|]. right.
    exists (pd_sequence_id d), t4. split; [|done].
    exists post, (Datagram on master_ip data now), [], on, data, now.
    split; [done|]. split; [|by rewrite <- Hq].
    pose proof (received_intro on data now h Hp) as Hr. rewrite Ht in Hr.
    replace (pd_sequence_id d) with (sequence_id h) by lia. congruence.
Qed.

Lemma inv_follow_up f e data now h :
  phase f = Slave -> parse_header data = Ok h -> message_type h = MFollowUp -> inv f e ->
  inv (on_follow_up ci f h data now) (epoch_step e (Datagram GeneralSocket master_ip data now)).
Proof.
  intros Hf Hp Ht Hinv. unfold on_follow_up, observe_follow_up.
  assert (forall relay, ~ is_sync relay (Datagram GeneralSocket master_ip data now)) as Hns
    by (intros; eapply not_sync; eauto).
  assert (announcement (Datagram GeneralSocket master_ip data now) = None) as Han.
  { apply (announcement_type _ _ _ _ h); [done|by rewrite Ht]. }
  assert (inv (f <| tracker := tracker f |>)
            (epoch_step e (Datagram GeneralSocket master_ip data now))) as Hid.
  { destruct f. by apply inv_idle. }
  destruct (negb _ || _); [done|].
  destruct (announced (tracker f)) as [a|] eqn:Ha; [|done].
  destruct (pending_sync (tracker f)) as [p|] eqn:Ep; [|done].
  destruct (_ || _) eqn:Eg; [done|].
  pass_guard Eg.
  destruct (parse_timestamp _) as [t1|] eqn:E1; [|done].
  destruct Hinv as [Hl Hn Hc]. rewrite epoch_step_idle by done.
  destruct e as [[[gm relay] since]|]; [|destruct Hc; congruence].
  destruct Hc as [g Hc]. pose proof (ci_announced _ _ _ _ _ Hc) as Ha'.
  assert (a = {| grandmaster_id := gm; relay_port_identity := relay; generation := g |}) as -> by congruence.
  destruct (ci_pending _ _ _ _ _ Hc p Ep) as [_ (pre & i & mid & d & -> & Hi & Hmid)].
  assert (paired relay ((pre ++ i :: mid) ++ [Datagram GeneralSocket master_ip data now])
            t1 (received_at p) now) as Hpair.
  { exists pre, i, mid, (Datagram GeneralSocket master_ip data now), (ps_sequence_id p), d, data.
    split; [by rewrite <- app_assoc|]. split; [done|]. split; [done|]. split; [|done].
    pose proof (received_intro GeneralSocket data now h Hp) as Hr. rewrite Ht in Hr.
    replace (ps_sequence_id p) with (sequence_id h) by lia. cbn in *. congruence. }
  cbn in *. unfold record_delay_request; cbn. rewrite Ha, bool_decide_true by done.
  cbn. rewrite Z.eqb_refl. cbn.
  split; cbn; [done|by rewrite Hf|]. exists g. split; cbn; [done|done| |].
  - intros d' [= <-]; cbn. split; [done|]. split; [set_solver|].
    eexists _, []. rewrite app_nil_r. split; [done|exact Hpair].
  - intros s [= <-]; cbn. split; [done|].
    eexists _, [], _, _, _. rewrite app_nil_r. split; [done|]. split; [exact Hpair|]. by left.
Qed.

(** ** The negotiation *)

Lemma decide_master_fields f :
  tracker (decide_master priority1 ci f) = tracker f
  /\ published (decide_master priority1 ci f) = published f
  /\ phase (decide_master priority1 ci f) = Slave.
Proof. unfold decide_master. cbn. by destruct (_ <? _). Qed.

(** A fresh announcement opens an epoch in which nothing is measured yet. *)
Lemma inv_opened f gm relay g :
  phase f = Slave -> local_port_identity (tracker f) = local -> published f = None ->
  announced (tracker f) = Some {| grandmaster_id := gm; relay_port_identity := relay; generation := g |} ->
  pending_sync (tracker f) = None -> pending_delay (tracker f) = None ->
  inv f (Some (gm, relay, [])).
Proof.
  intros Hf Hl Hs Ha Hp Hd. split; [done|by rewrite Hf|]. exists g.
  split; [done| | |]; intros x; [rewrite Hp|rewrite Hd|rewrite Hs]; done.
Qed.

Lemma inv_negotiate f i :
  phase f = Negotiating -> inv f None -> inv (negotiate master_ip priority1 ci f i) (epoch_step None i).
Proof.
  intros Hf [Hl _ [Ha Hs]].
  assert (inv f None) as Hstay by (by split).
  assert (inv (decide_master priority1 ci f) None) as Hdec.
  { destruct (decide_master_fields f) as (Et & Ep & Eph).
    split; rewrite ?Et, ?Ep, ?Eph; [done|done|by split]. }
  destruct i as [[] src data now|]; [done| |done].
  cbn [negotiate]. unfold PtpTracker.epoch_step. cbn [PtpTracker.announcement].
  destruct (src =? master_ip); cbn [negb]; [|done].
  destruct (parse_header data) as [h|]; [|done].
  unfold observe_announce. rewrite Ha.
  destruct (announced_identity h data) as [gm|] eqn:Ea; cbn [mbind option_bind].
  - assert (bool_decide (message_type h = MAnnounce) && (61 <=? length data)%nat = true) as ->.
    { unfold announced_identity in Ea. case_bool_decide; cbn [negb orb andb] in *; [|done].
      destruct (Nat.ltb_spec (length data) 61); [done|]. apply Nat.leb_le. lia. }
    cbn [fst]. match goal with
    | |- context [announced (tracker ?x)] => set (f' := x)
    end.
    change (inv (decide_master priority1 ci f') (Some (gm, source_port_identity h, []))).
    destruct (decide_master_fields f') as (Et & Ep & Eph).
    by eapply inv_opened; rewrite ?Et, ?Ep, ?Eph.
  - destruct (_ && _); [|done]. cbn. rewrite Ha. by split.
Qed.

Lemma inv_follow f e i :
  phase f = Slave -> inv f e -> inv (follow master_ip ci f i) (epoch_step e i).
Proof.
  intros Hf Hinv. destruct i as [on src data now|].
  2: { apply inv_idle; [done| |done]. by intros relay (? & ? & ? & [=] & _). }
  cbn [follow]. destruct (src =? master_ip) eqn:Esrc; cbn [negb].
  2: { apply inv_idle; [|by intros; apply not_sync_other|done]. destruct on; [done|]. simpl. by rewrite Esrc. }
  apply Z.eqb_eq in Esrc as ->.
  destruct (parse_header data) as [h|err] eqn:Hp.
  2: { apply inv_idle; [|by intros; eapply not_sync_garbage|done].
       destruct on; [done|]. simpl. by rewrite Z.eqb_refl, Hp. }
  assert (forall t, message_type h = t -> t <> MSync \/ on = GeneralSocket -> t <> MAnnounce ->
            inv f (epoch_step e (Datagram on master_ip data now))) as Hother.
  { intros t <- Ht Hna. apply inv_idle; [by eapply announcement_type| |done].
    intros relay. eapply not_sync; [done|]. tauto. }
  destruct on, (message_type h) eqn:Et; eauto using inv_sync, inv_delay_response, inv_announce, inv_follow_up.
  all: try (eapply Hother; [reflexivity|auto|done]).
  apply inv_idle; [done| |done]. intros relay. eapply not_sync; [done|]. rewrite Et. auto.
Qed.

Lemma inv_step f e i : inv f e -> inv (step f i) (epoch_step e i).
Proof.
  intros Hinv. unfold PtpTracker.step. destruct (phase f) eqn:Ef; [|by apply inv_follow].
  pose proof (inv_negotiating _ _ Hinv Ef) as ->. by apply inv_negotiate.
Qed.

Lemma inv_run times ins : inv (run master_ip priority1 ci times ins) (epoch ins).
Proof.
  unfold run, PtpTracker.epoch. induction ins as [|i ins IH] using rev_ind.
  - split; [done|done|]. by split.
  - rewrite !fold_left_app. cbn [fold_left]. by apply inv_step.
Qed.

(** C14: Whatever datagrams arrive, in whatever order, from the master or from
    strangers: a published clock state names the grandmaster announced last, and
    its offset was computed, since that announcement, from the master's newest
    Sync and the Follow_Up with the same sequence number and the same relay;
    or from such a pair and the relay's answer to the delay request that was sent
    for that pair under the sender's own port identity. *)
Theorem published_state_is_coherent times ins s :
  published (run master_ip priority1 ci times ins) = Some s ->
  exists relay since,
    epoch ins = Some (master_clock_id s, relay, since)
    /\ measured (run master_ip priority1 ci times ins) relay since (offset s).
Proof.
  intros Hs. destruct (inv_run times ins) as [_ _ Hc].
  destruct (epoch ins) as [[[gm relay] since]|]; [|destruct Hc; congruence].
  destruct Hc as [g Hc]. destruct (ci_published _ _ _ _ _ Hc s Hs) as [<- Hm]. by exists relay, since.
Qed.

(** A changed announcement withdraws the state at once. *)
Lemma new_epoch_withdraws times ins gm relay :
  epoch ins = Some (gm, relay, []) -> published (run master_ip priority1 ci times ins) = None.
Proof.
  intros He. destruct (published _) as [s|] eqn:Hs; [|done].
  destruct (inv_run times ins) as [_ _ Hc]. rewrite He in Hc. destruct Hc as [g Hc].
  destruct (ci_published _ _ _ _ _ Hc s Hs) as [_ (l & post & t1 & t2 & t3 & Hl & Hp & _)].
  symmetry in Hl. apply app_eq_nil in Hl as [-> _].
  destruct Hp as (pre & i & mid & j & seq & d & d' & Hbad & _). by destruct pre.
Qed.

(** ** A clean exchange is measured *)

(** One step of the slave loop on a message whose header is known. *)
Lemma follow_sync f a data now h :
  phase f = Slave -> announced (tracker f) = Some a ->
  parse_header data = Ok h -> message_type h = MSync -> source_port_identity h = relay_port_identity a ->
  step f (Datagram EventSocket master_ip data now)
  = f <| tracker := (tracker f) <| pending_sync :=
          Some {| ps_sequence_id := sequence_id h; ps_relay_port_identity := relay_port_identity a;
                  ps_generation := generation a; received_at := now |} |> |>.
Proof.
  intros Hf Ha Hp Ht Hs. unfold PtpTracker.step. rewrite Hf. cbn [follow]. rewrite Z.eqb_refl, Hp, Ht.
  cbn [negb]. unfold observe_sync. pose proof (parse_header_length _ _ Hp).
  destruct (Nat.ltb_spec (length data) 34); [lia|].
  rewrite Ha, !bool_decide_true by done. cbn [negb orb]. by rewrite Hs.
Qed.

Lemma follow_follow_up f a p data now h t1 :
  phase f = Slave -> announced (tracker f) = Some a -> pending_sync (tracker f) = Some p ->
  local_port_identity (tracker f) = local ->
  ps_sequence_id p = sequence_id h -> ps_relay_port_identity p = relay_port_identity a ->
  ps_generation p = generation a ->
  parse_header data = Ok h -> message_type h = MFollowUp ->
  source_port_identity h = relay_port_identity a -> (44 <= length data)%nat ->
  parse_timestamp (slice 34 44 data) = Ok t1 ->
  let f' := step f (Datagram GeneralSocket master_ip data now) in
  phase f' = Slave /\ announced (tracker f') = Some a
  /\ delay_req_seq f' = u16_succ (delay_req_seq f)
  /\ published f' = Some {| master_clock_id := grandmaster_id a;
                            offset := one_way_offset t1 (received_at p) |}
  /\ pending_delay (tracker f')
     = Some {| pd_sequence_id := delay_req_seq f'; requesting_port_identity := local;
               pd_generation := generation a; local_sent_at := now;
               sync := {| cs_generation := generation a; master_sent_at := t1;
                          local_received_at := received_at p |} |}.
Proof.
  intros Hf Ha Hpe Hl Hseq Hrel Hgen Hp Ht Hs Hlen H1. unfold PtpTracker.step. rewrite Hf.
  cbn [follow]. rewrite Z.eqb_refl, Hp, Ht. cbn [negb]. unfold on_follow_up, observe_follow_up.
  destruct (Nat.ltb_spec (length data) 44); [lia|]. rewrite Ha, Hpe, Hseq, Hrel, Hgen, H1, Hs.
  rewrite !Z.eqb_refl, !bool_decide_true by done. cbn.
  unfold record_delay_request; cbn. rewrite Ha, bool_decide_true, Z.eqb_refl by done. cbn. done.
Qed.

Lemma follow_delay_response f a d data now h t4 on :
  phase f = Slave -> announced (tracker f) = Some a -> pending_delay (tracker f) = Some d ->
  pd_sequence_id d = sequence_id h -> pd_generation d = generation a ->
  cs_generation (sync d) = generation a ->
  parse_header data = Ok h -> message_type h = MDelayResp ->
  source_port_identity h = relay_port_identity a -> (54 <= length data)%nat ->
  slice 44 54 data = requesting_port_identity d ->
  parse_timestamp (slice 34 44 data) = Ok t4 ->
  published (step f (Datagram on master_ip data now))
  = Some {| master_clock_id := grandmaster_id a;
            offset := round_trip_offset (master_sent_at (sync d)) (local_received_at (sync d))
                        (local_sent_at d) t4 |}.
Proof.
  intros Hf Ha Hd Hseq Hgen Hgen' Hp Ht Hs Hlen Hr H4. unfold PtpTracker.step. rewrite Hf.
  cbn [follow]. rewrite Z.eqb_refl, Hp, Ht. cbn [negb].
  destruct on; unfold on_delay_response, observe_delay_response;
    (destruct (Nat.ltb_spec (length data) 54); [lia|]);
    rewrite Ha, Hd, Hseq, Hgen, Hgen', H4, Hs, Hr, !Z.eqb_refl, !bool_decide_true by done; done.
Qed.

(** One whole exchange with a master that builds its messages as this crate
    does, behind any history. *)
Section CleanExchange.
Context (mi : list Z) (seq : Z) (t1 t2 t3 t4 : PtpTimestamp).
Hypothesis ci_size : length ci = 8%nat.
Hypothesis mi_size : length mi = 8%nat.
Hypothesis mi_nonzero : mi <> replicate 8 0.
Hypothesis seq_u16 : in_width 16 seq.
Hypothesis t1_ok : timestamp_ok t1.
Hypothesis t4_ok : timestamp_ok t4.

Definition announce_input (aseq cc p1 : Z) (now : PtpTimestamp) : Input :=
  Datagram GeneralSocket master_ip (announce_packet mi aseq cc p1) now.
Definition sync_input : Input := Datagram EventSocket master_ip (sync_packet mi seq) t2.
Definition follow_up_input : Input := Datagram GeneralSocket master_ip (follow_up_packet mi seq t1) t3.
Definition response_input (k : Z) (now : PtpTimestamp) : Input :=
  Datagram GeneralSocket master_ip (delay_resp_packet mi k t4 local) now.

(** The packets of the master as the parser sees them. *)
Lemma master_packets k aseq cc p1 :
  in_width 16 k -> in_width 16 aseq ->
  announces (sync_packet mi seq) MSync (port_identity mi) seq
  /\ announces (follow_up_packet mi seq t1) MFollowUp (port_identity mi) seq
  /\ announces (delay_resp_packet mi k t4 local) MDelayResp (port_identity mi) k
  /\ announces (announce_packet mi aseq cc p1) MAnnounce (port_identity mi) aseq.
Proof.
  intros Hk Ha. pose proof (length_port_identity ci ci_size) as Hl.
  auto using sync_announces, follow_up_announces, delay_resp_announces, announce_announces.
Qed.

Lemma packet_sizes k aseq cc p1 :
  length (follow_up_packet mi seq t1) = 76%nat
  /\ length (delay_resp_packet mi k t4 local) = 54%nat
  /\ length (announce_packet mi aseq cc p1) = 64%nat.
Proof.
  pose proof (length_port_identity ci ci_size). pose proof (length_port_identity mi mi_size).
  unfold follow_up_packet, delay_resp_packet, announce_packet.
  rewrite !length_app, !serialize_header_size, !length_serialize_timestamp by done.
  rewrite mi_size, H. done.
Qed.

(** The announcement opens an epoch of this master, or continues it. *)
Lemma announce_selects ins aseq cc p1 now :
  in_width 16 aseq ->
  exists since, epoch (ins ++ [announce_input aseq cc p1 now]) = Some (mi, port_identity mi, since).
Proof.
  intros Ha. destruct (master_packets 0 aseq cc p1) as (_ & _ & _ & h & Hp & Ht & Hs & _);
    [by unfold in_width|done|].
  assert (announcement (announce_input aseq cc p1 now) = Some (mi, port_identity mi)) as Han.
  { unfold announce_input. rewrite (announcement_of _ _ h) by done. unfold announced_identity.
    destruct (packet_sizes 0 aseq cc p1) as (_ & _ & ->).
    rewrite announce_grandmaster, Ht, Hs by done. rewrite bool_decide_true by done. cbn [negb orb Nat.ltb Nat.leb].
    assert (slice 0 8 (port_identity mi) = mi) as -> by (by apply slice_here).
    rewrite !bool_decide_false by done. done. }
  unfold PtpTracker.epoch. rewrite fold_left_app. cbn [fold_left]. unfold PtpTracker.epoch_step at 1.
  rewrite Han. destruct (fold_left _ ins None) as [[c since]|]; [|by exists []].
  case_bool_decide as Hc; [subst c; by eexists|by exists []].
Qed.

(** The state behind the pair: published, with our request outstanding. *)
Lemma pair_completes f0 g :
  phase f0 = Slave -> local_port_identity (tracker f0) = local ->
  announced (tracker f0)
  = Some {| grandmaster_id := mi; relay_port_identity := port_identity mi; generation := g |} ->
  let f := step (step f0 sync_input) follow_up_input in
  phase f = Slave
  /\ announced (tracker f)
     = Some {| grandmaster_id := mi; relay_port_identity := port_identity mi; generation := g |}
  /\ delay_req_seq f = u16_succ (delay_req_seq f0)
  /\ published f = Some {| master_clock_id := mi; offset := one_way_offset t1 t2 |}
  /\ pending_delay (tracker f)
     = Some {| pd_sequence_id := delay_req_seq f; requesting_port_identity := local;
               pd_generation := g; local_sent_at := t3;
               sync := {| cs_generation := g; master_sent_at := t1; local_received_at := t2 |} |}.
Proof.
  intros Hf Hl Ha.
  destruct (sync_announces mi seq mi_size seq_u16) as (hs & Hps & Hts & Hss & Hqs & _).
  destruct (follow_up_announces mi seq mi_size seq_u16 t1) as (hf & Hpf & Htf & Hsf & Hqf & _).
  unfold sync_input. rewrite (follow_sync _ _ _ _ hs Hf Ha) by done.
  refine (follow_follow_up _ {| grandmaster_id := mi; relay_port_identity := port_identity mi;
            generation := g |}
            {| ps_sequence_id := sequence_id hs; ps_relay_port_identity := port_identity mi;
               ps_generation := g; received_at := t2 |} _ _ hf t1 _ _ _ _ _ _ _ _ _ _ _ _); try done.
  - cbn. congruence.
  - destruct (packet_sizes 0 0 0 0) as (-> & _). lia.
  - by apply follow_up_time.
Qed.

(** Behind any history of datagrams, an Announce, a Sync, its Follow_Up and
    the answer to the delay request that follows are measured: the pair alone
    publishes the one-way offset at once, the answer refines it to the offset of
    the whole round trip. *)
Theorem clean_exchange_is_published times ins aseq cc p1 now now' :
  in_width 16 aseq ->
  let pre := ins ++ [announce_input aseq cc p1 now; sync_input; follow_up_input] in
  let f := run master_ip priority1 ci times pre in
  published f = Some {| master_clock_id := mi; offset := one_way_offset t1 t2 |}
  /\ published (run master_ip priority1 ci times (pre ++ [response_input (delay_req_seq f) now']))
     = Some {| master_clock_id := mi; offset := round_trip_offset t1 t2 t3 t4 |}.
Proof.
  intros Ha pre f.
  destruct (announce_selects ins aseq cc p1 now Ha) as [since He].
  pose proof (inv_run times (ins ++ [announce_input aseq cc p1 now])) as [Hl Hn Hc].
  rewrite He in Hc, Hn. destruct Hc as [g Hc]. apply ci_announced in Hc.
  set (f0 := run master_ip priority1 ci times (ins ++ [announce_input aseq cc p1 now])) in *.
  assert (phase f0 = Slave) as Hf0 by (destruct (phase f0); [by discriminate Hn|done]).
  assert (f = step (step f0 sync_input) follow_up_input) as Hf.
  { unfold f, f0, pre, run. by rewrite !fold_left_app. }
  destruct (pair_completes f0 g Hf0 Hl Hc) as (H1 & H2 & H3 & H4 & H5). rewrite <- Hf in *.
  split; [done|].
  replace (run _ _ _ _ (pre ++ _)) with (step f (response_input (delay_req_seq f) now'))
    by (unfold f, run; by rewrite (fold_left_app _ pre)).
  assert (in_width 16 (delay_req_seq f)) as Hk by (rewrite H3; apply wrap_bound; lia).
  pose proof (length_port_identity ci ci_size) as Hci.
  destruct (delay_resp_announces mi (delay_req_seq f) mi_size Hk t4 local Hci)
    as (hr & Hp & Ht & Hs & Hq & _).
  eapply (follow_delay_response f _ _ _ _ hr t4 GeneralSocket H1 H2 H5); try done.
  - destruct (packet_sizes (delay_req_seq f) 0 0 0) as (_ & -> & _). lia.
  - by apply delay_resp_requester.
  - by apply delay_resp_time.
Qed.

(** The measured offset is the true one when the path is symmetric: a local
    clock [D] ahead of the master, [d] nanoseconds of travel each way. *)
Lemma round_trip_offset_exact D d d' :
  0 <= d -> 0 <= d' -> Z.abs D + d + d' < 2 ^ 62 ->
  to_nanos t2 = to_nanos t1 + d + D -> to_nanos t4 = to_nanos t3 - D + d' ->
  offset_ns (round_trip_offset t1 t2 t3 t4) = (2 * D + (d - d')) ÷ 2
  /\ rtt_ns (round_trip_offset t1 t2 t3 t4) = (d + d') ÷ 2.
Proof.
  intros Hd Hd' Hb H2 H4. unfold round_trip_offset; cbn. rewrite H2, H4.
  replace (to_nanos t1 + d + D - to_nanos t1 + (to_nanos t3 - (to_nanos t3 - D + d')))
    with (2 * D + (d - d')) by lia.
  replace (to_nanos t1 + d + D - to_nanos t1 - (to_nanos t3 - (to_nanos t3 - D + d')))
    with (d + d') by lia.
  pose proof (quot2_bounds (2 * D + (d - d'))). pose proof (quot2_bounds (d + d')).
  assert (0 <= (d + d') ÷ 2) by (apply Z.quot_pos; lia).
  rewrite as_signed_id by (unfold in_signed; lia).
  rewrite wrap_id by (unfold in_width; lia). rewrite Z.abs_eq by lia. done.
Qed.
End CleanExchange.
End Coherence.

(** ** Witnesses *)

Definition ex_ci : list Z := [1; 2; 3; 4; 5; 6; 7; 8].
Definition ex_mi : list Z := [9; 9; 9; 9; 9; 9; 9; 9].
Definition ex_at (s n : Z) : PtpTimestamp := {| seconds := s; nanoseconds := n |}.
Definition ex_times := (ex_at 0 0, ex_at 0 0, ex_at 0 0).
Definition ex_inputs : list Input :=
  [ announce_input 7 ex_mi 1 248 248 (ex_at 100 0);
    sync_input 7 ex_mi 5 (ex_at 100 300);
    follow_up_input 7 ex_mi 5 (ex_at 40 100) (ex_at 100 900) ].

Lemma published_state_is_coherent_witness :
  exists s relay since,
    published (run 7 250 ex_ci ex_times ex_inputs) = Some s
    /\ epoch 7 ex_inputs = Some (master_clock_id s, relay, since)
    /\ measured 7 ex_ci (run 7 250 ex_ci ex_times ex_inputs) relay since (offset s).
Proof.
  assert (published (run 7 250 ex_ci ex_times ex_inputs)
          = Some {| master_clock_id := ex_mi;
                    offset := {| offset_ns := 60000000200; error_ns := 500000; rtt_ns := 0 |} |})
    as Hs by (vm_compute; reflexivity).
  destruct (published_state_is_coherent 7 250 ex_ci ex_times ex_inputs _ Hs) as (relay & since & He & Hm).
  eexists _, relay, since. split; [exact Hs|]. split; [exact He|exact Hm].
Defined.

Lemma clean_exchange_is_published_witness :
  let f := run 7 250 ex_ci ex_times ex_inputs in
  published (run 7 250 ex_ci ex_times
               (ex_inputs ++ [response_input 7 ex_ci ex_mi (ex_at 40 700) (delay_req_seq f) (ex_at 101 0)]))
  = Some {| master_clock_id := ex_mi;
            offset := round_trip_offset (ex_at 40 100) (ex_at 100 300) (ex_at 100 900) (ex_at 40 700) |}.
Proof.
  refine (proj2 (clean_exchange_is_published 7 250 ex_ci ex_mi 5 (ex_at 40 100) (ex_at 100 300)
            (ex_at 100 900) (ex_at 40 700) eq_refl eq_refl _ _ _ _ ex_times [] 1 248 248
            (ex_at 100 0) (ex_at 101 0) _));
    unfold timestamp_ok, in_width; cbn; first [discriminate | lia].
Defined.
End PtpTrackerProps.
