(* ===== verification/PtpClient.v ===== *)
(** * PTP client and masters ([airplay-timing/src/ptp.rs])

    [PtpClient] (the four time stamps of one exchange, offset calculation, the
    [TimingProtocol] operations), the listening task of [PtpMaster], the legacy
    slave loop [run_ptp_slave], and the periodic cycle of
    [run_ptp_group_master_flow].  The sockets are inputs: what [recv_from]
    returned and what the system clock said.  [send_to] errors are inputs where
    the code propagates them. *)

From S2P Require Import Prelude Wire Clock TimingDiag PtpWire PtpTracker.
Import Clock PtpWire PtpTracker.

Module PtpClient.

Inductive PtpState := Unsynchronized | Synchronizing | Synchronized.
#[export] Instance PtpState_eq_dec : EqDecision PtpState.
Proof. solve_decision. Defined.

Inductive Error := NoSession | IoError | BadPacket (e : ParseError).

Record PtpClient := {
  state : PtpState;
  sockets_bound : bool;
  client_sequence_id : Z;
  t1 : option PtpTimestamp;
  t2 : option PtpTimestamp;
  t3 : option PtpTimestamp;
  t4 : option PtpTimestamp;
  client_offset : ClockOffset;
  (* the recorder's shared history and the instant it was installed at *)
  diagnostics : option (TimingDiag.SharedSamples * Z);
}.
#[export] Instance eta_PtpClient : Eta PtpClient := fun c =>
  {| state := state c; sockets_bound := sockets_bound c;
     client_sequence_id := client_sequence_id c; t1 := t1 c; t2 := t2 c; t3 := t3 c; t4 := t4 c;
     client_offset := client_offset c; diagnostics := diagnostics c |}.

Definition new_client : PtpClient :=
  {| state := Unsynchronized; sockets_bound := false; client_sequence_id := 0; t1 := None;
     t2 := None; t3 := None; t4 := None; client_offset := default_offset; diagnostics := None |}.

Definition set_diagnostics_recorder (c : PtpClient) (history : TimingDiag.SharedSamples)
    (now : Z) : PtpClient := c <| diagnostics := Some (history, now) |>.

Definition process_sync (c : PtpClient) (now : PtpTimestamp) : PtpClient :=
  c <| t2 := Some now |> <| state := Synchronizing |>.

Definition process_follow_up (c : PtpClient) (data : list Z) : Result PtpClient Error :=
  if (44 <=? length data)%nat then
    match parse_timestamp (slice 34 44 data) with
    | Ok t => Ok (c <| t1 := Some t |>)
    | Err e => Err (BadPacket e)
    end
  else Ok c.

(** The packet goes to the wire; the state change stays even if sending fails. *)
Definition send_delay_req (c : PtpClient) (now : PtpTimestamp) (send_ok : bool)
  : PtpClient * Result (list Z) Error :=
  if negb (sockets_bound c) then (c, Err NoSession)
  else
    let seq := u16_succ (client_sequence_id c) in
    let c := c <| client_sequence_id := seq |> <| t3 := Some now |> in
    (c, if send_ok then Ok (unnamed_delay_req_packet seq now)
        else Err IoError).

(** [u64::try_from(t.to_nanos()).ok()] *)
Definition conv (t : PtpTimestamp) : option Z :=
  if to_nanos t <? 2 ^ 64 then Some (to_nanos t) else None.

(** The recorder hook of [calculate_offset] at instant [now]. *)
Definition record_exchange (d : option (TimingDiag.SharedSamples * Z)) (now : Z)
    (a b c e : PtpTimestamp) : option (TimingDiag.SharedSamples * Z) :=
  match d with
  | None => None
  | Some (history, started) =>
      let elapsed := Z.min (sat_sub now started) (2 ^ 64 - 1) in
      match conv a, conv b, conv c, conv e with
      | Some a, Some b, Some c, Some e =>
          match TimingDiag.ptp_measurement 0 elapsed a b c e with
          | Some m => Some (TimingDiag.push history m, started)
          | None => d
          end
      | _, _, _, _ => d
      end
  end.

Definition calculate_offset (c : PtpClient) (now : Z) : PtpClient :=
  match t1 c, t2 c, t3 c, t4 c with
  | Some a, Some b, Some d, Some e =>
      c <| client_offset := round_trip_offset a b d e |> <| state := Synchronized |>
        <| diagnostics := record_exchange (diagnostics c) now a b d e |>
        <| t1 := None |> <| t2 := None |> <| t3 := None |> <| t4 := None |>
  | _, _, _, _ => c
  end.

Definition process_delay_resp (c : PtpClient) (data : list Z) (now : Z) : Result PtpClient Error :=
  if (44 <=? length data)%nat then
    match parse_timestamp (slice 34 44 data) with
    | Ok t => Ok (calculate_offset (c <| t4 := Some t |>) now)
    | Err e => Err (BadPacket e)
    end
  else Ok c.

Definition local_to_master (c : PtpClient) (local : Z) : Z :=
  default 0 (TimingDiag.local_to_master_ns local (offset_ns (client_offset c))).
Definition master_to_local (c : PtpClient) (master : Z) : Z :=
  Z.max 0 (Z.min (master + offset_ns (client_offset c)) (2 ^ 64 - 1)).

Definition start (c : PtpClient) (bind_ok : bool) : PtpClient * Result unit Error :=
  if bind_ok then (c <| sockets_bound := true |>, Ok tt) else (c, Err IoError).
Definition stop (c : PtpClient) : PtpClient :=
  c <| sockets_bound := false |> <| state := Unsynchronized |>.
Definition is_synchronized (c : PtpClient) : bool := bool_decide (state c = Synchronized).

(** [sync]: one Delay_Req at [sent_at], then one datagram from the event socket
    ([None] when [recv_from] fails or times out), handled at instant [now]. *)
Definition sync (c : PtpClient) (sent_at : PtpTimestamp) (send_ok : bool)
    (reply : option (list Z)) (now : Z) : PtpClient * Result ClockOffset Error :=
  match send_delay_req c sent_at send_ok with
  | (c, Err e) => (c, Err e)
  | (c, Ok _) =>
      match reply with
      | None => (c, Err IoError)
      | Some data =>
          match parse_header data with
          | Err e => (c, Err (BadPacket e))
          | Ok h =>
              if bool_decide (message_type h = MDelayResp) then
                match process_delay_resp c data now with
                | Ok c => (c, Ok (client_offset c))
                | Err e => (c, Err e)
                end
              else (c, Ok (client_offset c))
          end
      end
  end.

(** ** The listening task of [PtpMaster] *)

Record MasterTask := {
  m_t1 : option PtpTimestamp;
  m_t2 : option PtpTimestamp;
  m_t3 : option PtpTimestamp;
  m_delay_req_seq : Z;
  m_peer : option Z;
  m_offset : option ClockOffset;
  (* destination address, datagram *)
  m_sent : list (Z * list Z);
}.
#[export] Instance eta_MasterTask : Eta MasterTask := fun m =>
  {| m_t1 := m_t1 m; m_t2 := m_t2 m; m_t3 := m_t3 m; m_delay_req_seq := m_delay_req_seq m;
     m_peer := m_peer m; m_offset := m_offset m; m_sent := m_sent m |}.

Definition new_task : MasterTask :=
  {| m_t1 := None; m_t2 := None; m_t3 := None; m_delay_req_seq := 0; m_peer := None;
     m_offset := None; m_sent := [] |}.

Definition task_event (identity : list Z) (m : MasterTask) (src : Z) (data : list Z)
    (now : PtpTimestamp) : MasterTask :=
  match parse_header data with
  | Err _ => m
  | Ok h =>
      match message_type h with
      | MSync => m <| m_t2 := Some now |> <| m_peer := Some src |>
      | MDelayResp =>
          if (44 <=? length data)%nat then
            match parse_timestamp (slice 34 44 data), m_t1 m, m_t2 m, m_t3 m with
            | Ok e, Some a, Some b, Some c =>
                m <| m_offset := Some (round_trip_offset a b c e) |>
                  <| m_t1 := None |> <| m_t2 := None |> <| m_t3 := None |>
            | _, _, _, _ => m
            end
          else m
      | MDelayReq =>
          m <| m_sent := m_sent m
                 ++ [(src, delay_resp_packet identity (sequence_id h) now (source_port_identity h))] |>
      | _ => m
      end
  end.

Definition task_general (m : MasterTask) (data : list Z) (now : PtpTimestamp) : MasterTask :=
  match parse_header data with
  | Err _ => m
  | Ok h =>
      if bool_decide (message_type h = MFollowUp) && (44 <=? length data)%nat then
        match parse_timestamp (slice 34 44 data) with
        | Err _ => m
        | Ok t =>
            let m := m <| m_t1 := Some t |> in
            match m_peer m with
            | None => m
            | Some peer =>
                let seq := u16_succ (m_delay_req_seq m) in
                m <| m_delay_req_seq := seq |> <| m_t3 := Some now |>
                  <| m_sent := m_sent m
                       ++ [(peer, unnamed_delay_req_packet seq now)] |>
            end
        end
      else m
  end.

(** ** The legacy slave loop [run_ptp_slave] *)

Record SlaveLoop := {
  s_t1 : option PtpTimestamp;
  s_t2 : option PtpTimestamp;
  s_t3 : option PtpTimestamp;
  s_sequence_id : Z;
  s_announce_seq : Z;
  s_offset : option ClockOffset;
  s_sent : list (list Z);
}.
#[export] Instance eta_SlaveLoop : Eta SlaveLoop := fun m =>
  {| s_t1 := s_t1 m; s_t2 := s_t2 m; s_t3 := s_t3 m; s_sequence_id := s_sequence_id m;
     s_announce_seq := s_announce_seq m; s_offset := s_offset m; s_sent := s_sent m |}.

(** The handshake: one Announce that loses every election, one interval
    request. *)
Definition start_slave (identity : list Z) : SlaveLoop :=
  {| s_t1 := None; s_t2 := None; s_t3 := None; s_sequence_id := 0; s_announce_seq := 1;
     s_offset := None;
     s_sent := [announce_packet identity 1 255 255; ptp_signaling identity 1 (-3) (-2)] |}.

Definition slave_tick (identity : list Z) (m : SlaveLoop) : SlaveLoop :=
  let seq := u16_succ (s_announce_seq m) in
  m <| s_announce_seq := seq |> <| s_sent := s_sent m ++ [announce_packet identity seq 255 255] |>.

Definition slave_event (m : SlaveLoop) (data : list Z) (now : PtpTimestamp) : SlaveLoop :=
  match parse_header data with
  | Err _ => m
  | Ok h =>
      match message_type h with
      | MSync => m <| s_t2 := Some now |>
      | MDelayResp =>
          if (44 <=? length data)%nat then
            match parse_timestamp (slice 34 44 data) with
            | Err _ => m
            | Ok e =>
                match s_t1 m, s_t2 m, s_t3 m with
                | Some a, Some b, Some c => m <| s_offset := Some (round_trip_offset a b c e) |>
                | _, _, _ => m
                end <| s_t1 := None |> <| s_t2 := None |> <| s_t3 := None |>
            end
          else m
      | _ => m
      end
  end.

Definition slave_general (m : SlaveLoop) (data : list Z) (now : PtpTimestamp) : SlaveLoop :=
  match parse_header data with
  | Err _ => m
  | Ok h =>
      if bool_decide (message_type h = MFollowUp) && (44 <=? length data)%nat then
        match parse_timestamp (slice 34 44 data) with
        | Err _ => m
        | Ok t =>
            let seq := u16_succ (s_sequence_id m) in
            m <| s_t1 := Some t |> <| s_sequence_id := seq |> <| s_t3 := Some now |>
              <| s_sent := s_sent m ++ [unnamed_delay_req_packet seq now] |>
        end
      else m
  end.

(** ** The periodic cycle of [run_ptp_group_master_flow] *)

Record GroupMaster := { sync_seq : Z; announce_seq : Z; announce_interval_counter : Z }.
Definition announce_every : Z := 16.

(** [send_ptp_sync] to each peer in turn; [time i] is the clock behind the i-th
    Sync. *)
Fixpoint sync_peers (identity : list Z) (seq : Z) (peers : list Z) (time : Z -> PtpTimestamp)
  : Z * list (Z * Socket * list Z) :=
  match peers with
  | [] => (seq, [])
  | peer :: peers =>
      let seq := u16_succ seq in
      let '(last, rest) := sync_peers identity seq peers time in
      (last, (peer, EventSocket, sync_packet identity seq)
             :: (peer, GeneralSocket, follow_up_packet identity seq (time seq)) :: rest)
  end.

Fixpoint announce_peers (identity : list Z) (priority1 seq : Z) (peers : list Z)
  : Z * list (Z * Socket * list Z) :=
  match peers with
  | [] => (seq, [])
  | peer :: peers =>
      let seq := u16_succ seq in
      let '(last, rest) := announce_peers identity priority1 seq peers in
      (last, (peer, GeneralSocket, announce_packet identity seq 248 priority1) :: rest)
  end.

Definition master_cycle (identity : list Z) (priority1 : Z) (peers : list Z)
    (time : Z -> PtpTimestamp) (g : GroupMaster) : GroupMaster * list (Z * Socket * list Z) :=
  let '(sseq, syncs) := sync_peers identity (sync_seq g) peers time in
  let counter := wrap 32 (announce_interval_counter g + 1) in
  if announce_every <=? counter then
    let '(aseq, announces) := announce_peers identity priority1 (announce_seq g) peers in
    ({| sync_seq := sseq; announce_seq := aseq; announce_interval_counter := 0 |},
     syncs ++ announces)
  else
    ({| sync_seq := sseq; announce_seq := announce_seq g; announce_interval_counter := counter |},
     syncs).

(** Between two cycles only Delay_Req on the event port is answered. *)
Definition group_answer (identity data : list Z) (now : PtpTimestamp) : option (list Z) :=
  match parse_header data with
  | Ok h => if bool_decide (message_type h = MDelayReq)
            then Some (delay_resp_packet identity (sequence_id h) now (source_port_identity h))
            else None
  | Err _ => None
  end.

(** ** Client against master *)

Lemma delay_req_header seq now :
  in_width 16 seq ->
  exists h, parse_header (unnamed_delay_req_packet seq now) = Ok h
    /\ message_type h = MDelayReq /\ sequence_id h = seq
    /\ source_port_identity h = replicate 10 0.
Proof.
  intros Hs. exists (new_header MDelayReq seq). split; [|done]. apply parse_serialize_ptp_header.
  apply (new_header_ok MDelayReq seq (replicate 10 0) 44 0 0);
    unfold in_width, in_signed in *; cbn; done || lia.
Qed.

Section Exchange.
Context (mi : list Z) (seq : Z) (a b d e : PtpTimestamp).
Hypothesis mi_size : length mi = 8%nat.
Hypothesis seq_u16 : in_width 16 seq.
Hypothesis a_ok : timestamp_ok a.
Hypothesis e_ok : timestamp_ok e.

Lemma follow_up_recorded c :
  process_follow_up c (follow_up_packet mi seq a) = Ok (c <| t1 := Some a |>).
Proof.
  unfold process_follow_up. rewrite follow_up_time by done.
  assert (length (follow_up_packet mi seq a) = 76%nat) as ->; [|done].
  unfold follow_up_packet. rewrite !length_app, serialize_header_size, length_serialize_timestamp;
    [done|by apply length_port_identity].
Qed.

Lemma response_recorded c k requester now :
  length requester = 10%nat ->
  process_delay_resp c (delay_resp_packet mi k e requester) now
  = Ok (calculate_offset (c <| t4 := Some e |>) now).
Proof.
  intros Hr. unfold process_delay_resp. rewrite delay_resp_time by done.
  assert (length (delay_resp_packet mi k e requester) = 54%nat) as ->; [|done].
  unfold delay_resp_packet. rewrite !length_app, serialize_header_size, length_serialize_timestamp, Hr;
    [done|by apply length_port_identity].
Qed.

(** A client that saw the master's Sync at [b] and its Follow_Up, asked at
    [d], and got the answer the master's listening task produced for exactly that
    request at [e], returns the offset of the four time stamps and is synchronised;
    the stamps are consumed, and the exchange enters the diagnostics history. *)
Theorem client_measures_master c m src now :
  sockets_bound c = true ->
  exists c1 request reply,
    process_follow_up (process_sync c b) (follow_up_packet mi seq a) = Ok c1
    /\ snd (send_delay_req c1 d true) = Ok request
    /\ m_sent (task_event mi m src request e) = m_sent m ++ [(src, reply)]
    /\ sync c1 d true (Some reply) now
       = (c <| state := Synchronized |> <| client_sequence_id := u16_succ (client_sequence_id c) |>
            <| t1 := None |> <| t2 := None |> <| t3 := None |> <| t4 := None |>
            <| client_offset := round_trip_offset a b d e |>
            <| diagnostics := record_exchange (diagnostics c) now a b d e |>,
          Ok (round_trip_offset a b d e)).
Proof.
  intros Hb. rewrite follow_up_recorded. set (k := u16_succ (client_sequence_id c)).
  assert (in_width 16 k) as Hk by (apply wrap_bound; lia).
  destruct (delay_req_header k d Hk) as (h & Hp & Ht & Hq & Hs).
  set (c1 := (process_sync c b) <| t1 := Some a |>).
  set (request := unnamed_delay_req_packet k d) in *.
  assert (send_delay_req c1 d true
          = (c1 <| client_sequence_id := k |> <| t3 := Some d |>, Ok request)) as Hsend.
  { unfold send_delay_req. change (sockets_bound c1) with (sockets_bound c). by rewrite Hb. }
  exists c1, request, (delay_resp_packet mi k e (replicate 10 0)).
  split; [done|]. split; [by rewrite Hsend|]. split.
  { unfold task_event. rewrite Hp, Ht, Hq, Hs. done. }
  destruct (delay_resp_announces mi k mi_size Hk e (replicate 10 0) eq_refl) as (h' & Hp' & Ht' & _).
  unfold sync. rewrite Hsend, Hp', bool_decide_true by done.
  rewrite response_recorded by done. done.
Qed.
End Exchange.

(** The two conversions of a synchronised client are inverse wherever the
    master's time is representable, and outside they saturate instead of
    wrapping. *)
Theorem client_conversions_inverse c local :
  in_width 64 local ->
  let o := offset_ns (client_offset c) in
  in_width 64 (master_to_local c local) /\ in_width 64 (local_to_master c local)
  /\ (in_width 64 (local - o) ->
      local_to_master c local = local - o /\ master_to_local c (local_to_master c local) = local).
Proof.
  unfold in_width, master_to_local, local_to_master, TimingDiag.local_to_master_ns. cbn zeta.
  set (o := offset_ns _). intros H.
  destruct (Z.ltb_spec (local - o) 0), (Z.ltb_spec (2 ^ 64 - 1) (local - o)); cbn; lia.
Qed.

(** ** The group schedule *)

Fixpoint cycles (identity : list Z) (priority1 : Z) (peers : list Z) (time : Z -> PtpTimestamp)
    (n : nat) (g : GroupMaster) : GroupMaster * list (Z * Socket * list Z) :=
  match n with
  | O => (g, [])
  | S n => let '(g, out) := master_cycle identity priority1 peers time g in
           let '(g, rest) := cycles identity priority1 peers time n g in (g, out ++ rest)
  end.
Definition fresh_master (sseq aseq : Z) : GroupMaster :=
  {| sync_seq := sseq; announce_seq := aseq; announce_interval_counter := 0 |}.

(** Messages of one kind to one peer. *)
Definition is_to (peer : Z) (t : PtpMessageType) (x : Z * Socket * list Z) : bool :=
  let '(dest, _, data) := x in
  (dest =? peer) && match parse_header data with
                    | Ok h => bool_decide (message_type h = t)
                    | Err _ => false
                    end.
Definition count_to (peer : Z) (t : PtpMessageType) (out : list (Z * Socket * list Z)) : nat :=
  length (filter (fun x => is_to peer t x = true) out).

Lemma count_to_app peer t l l' : count_to peer t (l ++ l') = (count_to peer t l + count_to peer t l')%nat.
Proof. unfold count_to. by rewrite filter_app, length_app. Qed.

Lemma count_to_cons peer t x l :
  count_to peer t (x :: l) = ((if is_to peer t x then 1 else 0) + count_to peer t l)%nat.
Proof. unfold count_to. rewrite filter_cons. destruct (is_to peer t x) eqn:E; by destruct decide. Qed.

Lemma is_to_packet peer dest on t kind identity seq data :
  announces data kind identity seq ->
  is_to peer t (dest, on, data) = (dest =? peer) && bool_decide (kind = t).
Proof. intros (h & Hp & <- & _). cbn. by rewrite Hp. Qed.

Section Schedule.
Context (identity : list Z) (priority1 : Z) (peers : list Z) (time : Z -> PtpTimestamp).
Hypothesis identity_size : length identity = 8%nat.
Hypothesis peers_distinct : NoDup peers.

Lemma u16_succ_u16 seq : in_width 16 (u16_succ seq).
Proof. apply wrap_bound. lia. Qed.

(** How often a peer occurs in a duplicate-free list. *)
Definition occurs (peer : Z) (l : list Z) : nat := if bool_decide (peer ∈ l) then 1 else 0.

Lemma occurs_cons peer p l :
  p ∉ l -> occurs peer (p :: l) = ((if (p =? peer)%Z then 1 else 0) + occurs peer l)%nat.
Proof.
  intros Hp. unfold occurs. destruct (Z.eqb_spec p peer) as [->|Hn]; repeat case_bool_decide; set_solver.
Qed.

Lemma sync_peers_count peer t l :
  NoDup l -> forall seq,
  count_to peer t (snd (sync_peers identity seq l time))
  = match t with MSync | MFollowUp => occurs peer l | _ => 0 end%nat.
Proof.
  induction 1 as [|p l Hp Hnd IH]; intros seq; [by destruct t|]. cbn [sync_peers].
  destruct (sync_peers identity (u16_succ seq) l time) as [last rest] eqn:E.
  pose proof (IH (u16_succ seq)) as IHs. rewrite E in IHs. cbn [snd] in *.
  rewrite !count_to_cons, IHs.
  rewrite (is_to_packet _ _ _ _ _ _ _ _ (sync_announces identity _ identity_size (u16_succ_u16 seq))).
  rewrite (is_to_packet _ _ _ _ _ _ _ _
             (follow_up_announces identity _ identity_size (u16_succ_u16 seq) _)).
  rewrite occurs_cons by done. destruct t, (p =? peer); reflexivity.
Qed.

Lemma announce_peers_count peer t l :
  NoDup l -> forall seq,
  count_to peer t (snd (announce_peers identity priority1 seq l))
  = match t with MAnnounce => occurs peer l | _ => 0 end%nat.
Proof.
  induction 1 as [|p l Hp Hnd IH]; intros seq; [by destruct t|]. cbn [announce_peers].
  destruct (announce_peers identity priority1 (u16_succ seq) l) as [last rest] eqn:E.
  pose proof (IH (u16_succ seq)) as IHs. rewrite E in IHs. cbn [snd] in *.
  rewrite !count_to_cons, IHs.
  rewrite (is_to_packet _ _ _ _ _ _ _ _ (announce_announces identity _ identity_size (u16_succ_u16 seq) _ _)).
  rewrite occurs_cons by done. destruct t, (p =? peer); reflexivity.
Qed.

Lemma cycle_counts peer g :
  peer ∈ peers -> 0 <= announce_interval_counter g < 16 ->
  let '(g', out) := master_cycle identity priority1 peers time g in
  count_to peer MSync out = 1%nat /\ count_to peer MFollowUp out = 1%nat
  /\ 16 * Z.of_nat (count_to peer MAnnounce out) + announce_interval_counter g'
     = announce_interval_counter g + 1
  /\ 0 <= announce_interval_counter g' < 16.
Proof.
  intros Hin Hc. unfold master_cycle, announce_every.
  pose proof (fun t => sync_peers_count peer t peers peers_distinct (sync_seq g)) as Hs.
  pose proof (fun t => announce_peers_count peer t peers peers_distinct (announce_seq g)) as Ha.
  destruct (sync_peers _ _ _ _) as [sseq syncs]. destruct (announce_peers _ _ _ _) as [aseq anns].
  cbn [snd] in *. unfold occurs in *.
  rewrite wrap_id by (unfold in_width; lia).
  destruct (Z.leb_spec 16 (announce_interval_counter g + 1)); cbn [announce_interval_counter];
    rewrite ?count_to_app, ?Hs, ?Ha; rewrite !bool_decide_true by done; lia.
Qed.

(** In [n] cycles every peer of a group gets exactly [n] Syncs, [n]
    Follow_Ups and one Announce per sixteen cycles, whatever the sequence
    counters do. *)
Theorem group_schedule_exact n peer sseq aseq :
  peer ∈ peers ->
  let out := snd (cycles identity priority1 peers time n (fresh_master sseq aseq)) in
  count_to peer MSync out = n /\ count_to peer MFollowUp out = n
  /\ Z.of_nat (count_to peer MAnnounce out) = Z.of_nat n / 16.
Proof.
  intros Hin.
  assert (forall g, 0 <= announce_interval_counter g < 16 ->
            let out := snd (cycles identity priority1 peers time n g) in
            count_to peer MSync out = n /\ count_to peer MFollowUp out = n
            /\ Z.of_nat (count_to peer MAnnounce out)
               = (announce_interval_counter g + Z.of_nat n) / 16) as Hgen; [|by apply Hgen].
  induction n as [|n IH]; intros g Hg; cbn [cycles].
  { cbn. split; [done|]. split; [done|]. rewrite Z.add_0_r, Z.div_small; [done|lia]. }
  pose proof (cycle_counts peer g Hin Hg) as Hc.
  destruct (master_cycle _ _ _ _ g) as [g' out]. destruct Hc as (H1 & H2 & H3 & H4).
  specialize (IH g' H4). destruct (cycles _ _ _ _ n g') as [g'' rest]. cbn [snd] in *.
  rewrite !count_to_app. destruct IH as (I1 & I2 & I3). split; [lia|]. split; [lia|].
  rewrite Nat2Z.inj_add, I3.
  replace (announce_interval_counter g + Z.of_nat (S n))
    with (announce_interval_counter g' + Z.of_nat n + Z.of_nat (count_to peer MAnnounce out) * 16) by lia.
  rewrite Z.div_add by lia. lia.
Qed.
End Schedule.

Definition bound_client : PtpClient := new_client <| sockets_bound := true |>.

(** A master two seconds ahead, with symmetric paths of one millisecond. *)
Lemma client_measures_master_witness :
  exists c1 request reply,
    process_follow_up (process_sync bound_client
        {| seconds := 10; nanoseconds := 1000000 |})
      (follow_up_packet (replicate 8 7) 5 {| seconds := 12; nanoseconds := 0 |}) = Ok c1
    /\ snd (send_delay_req c1 {| seconds := 10; nanoseconds := 2000000 |} true) = Ok request
    /\ m_sent (task_event (replicate 8 7) new_task 9 request
                 {| seconds := 12; nanoseconds := 3000000 |}) = [(9, reply)]
    /\ state (fst (sync c1 {| seconds := 10; nanoseconds := 2000000 |} true (Some reply) 0))
       = Synchronized
    /\ offset_ns (client_offset
         (fst (sync c1 {| seconds := 10; nanoseconds := 2000000 |} true (Some reply) 0)))
       = -2000000000.
Proof.
  assert (Ha : timestamp_ok {| seconds := 12; nanoseconds := 0 |})
    by (split; unfold in_width; cbn; lia).
  assert (He : timestamp_ok {| seconds := 12; nanoseconds := 3000000 |})
    by (split; unfold in_width; cbn; lia).
  destruct (client_measures_master (replicate 8 7) 5 {| seconds := 12; nanoseconds := 0 |}
    {| seconds := 10; nanoseconds := 1000000 |} {| seconds := 10; nanoseconds := 2000000 |}
    {| seconds := 12; nanoseconds := 3000000 |} eq_refl Ha He bound_client
    new_task 9 0 eq_refl) as (c1 & request & reply & H1 & H2 & H3 & H4).
  exists c1, request, reply. rewrite H4. split_and!; [exact H1|exact H2|exact H3|reflexivity|].
  vm_compute. reflexivity.
Defined.

Lemma group_schedule_exact_witness :
  let out := snd (cycles (replicate 8 7) 246 [1; 2] (fun _ => from_nanos 0) 40
                    (fresh_master 65530 0)) in
  count_to 2 MSync out = 40%nat /\ Z.of_nat (count_to 2 MAnnounce out) = 2.
Proof.
  assert (Hnd : NoDup [1; 2]) by (apply (bool_decide_unpack _); vm_compute; exact I).
  assert (Hin : 2 ∈ [1; 2]) by (right; left).
  destruct (group_schedule_exact (replicate 8 7) 246 [1; 2] (fun _ => from_nanos 0) eq_refl Hnd
    40 2 65530 0 Hin) as (H1 & _ & H3).
  split; [exact H1|exact H3].
Defined.
End PtpClient.
