(* ===== verification/ControlCipher.v ===== *)
(** * The encrypted channels ([airplay-crypto/src/chacha.rs])

    [ControlCipher] frames a byte stream into authenticated blocks of at most
    1024 bytes, each with its own counter nonce; [AudioCipher] seals one audio
    packet under a nonce made of its sequence number.  ChaCha20-Poly1305 itself
    is a third-party package: the class [Aead] is what the code relies on. *)

From S2P Require Import Prelude Wire.

Module ControlCipher.

(** [ChaCha20Poly1305]: keyed sealing and opening with associated data.  Sealing
    appends a 16-byte tag; opening undoes sealing, and accepts nothing that was
    not sealed under the same key, nonce and associated data. *)
Class Aead := {
  seal : list Z -> list Z -> list Z -> list Z -> option (list Z);
  open : list Z -> list Z -> list Z -> list Z -> option (list Z);
  seal_length key nonce aad m c : seal key nonce aad m = Some c -> length c = (length m + 16)%nat;
  open_seal key nonce aad m c : seal key nonce aad m = Some c -> open key nonce aad c = Some m;
  open_authentic key nonce aad m c : open key nonce aad c = Some m -> seal key nonce aad m = Some c;
}.

Inductive CryptoError :=
| EmptyPlaintext | EncryptionFailed | BlockTooShort | AuthenticationFailed | MissingTag
| FrameTooShort | IncompletePrefix | IncompleteBlock.

Definition build_nonce_from_counter (counter : Z) : list Z := replicate 4 0 ++ to_le_bytes 8 counter.
Definition build_nonce_12 (nonce_8 : list Z) : list Z := replicate 4 0 ++ nonce_8.
Definition build_aad (rtp_timestamp ssrc : Z) : list Z :=
  to_be_bytes 4 rtp_timestamp ++ to_be_bytes 4 ssrc.
(** Right-aligned, cut at twelve bytes. *)
Definition nonce_from_string (s : list Z) : list Z :=
  let len := Nat.min (length s) 12 in
  replicate (12 - len) 0 ++ take len s.

Record ControlCipher := {
  write_key : list Z;
  read_key : list Z;
  encrypt_counter : Z;
  decrypt_counter : Z;
}.
#[export] Instance eta_ControlCipher : Eta ControlCipher := fun c =>
  {| write_key := write_key c; read_key := read_key c; encrypt_counter := encrypt_counter c;
     decrypt_counter := decrypt_counter c |}.

Definition new_cipher (write_key read_key : list Z) : ControlCipher :=
  {| write_key := write_key; read_key := read_key; encrypt_counter := 0; decrypt_counter := 0 |}.
Definition new_unidirectional (key : list Z) : ControlCipher := new_cipher key key.
Definition reset_counters (c : ControlCipher) : ControlCipher :=
  c <| encrypt_counter := 0 |> <| decrypt_counter := 0 |>.

Definition MAX_BLOCK : nat := 0x400.

Section Channel.
Context `{Aead}.

(** The loop of [encrypt]; every round takes at least one byte, so the length of
    the plaintext is enough fuel.  The counter stays advanced for the blocks
    sealed before a failure. *)
Fixpoint encrypt_loop (fuel : nat) (c : ControlCipher) (rest out : list Z)
  : ControlCipher * Result (list Z) CryptoError :=
  match fuel, rest with
  | _, [] => (c, Ok out)
  | O, _ => (c, Ok out)
  | S fuel, _ =>
      let block_len := Nat.min (length rest) MAX_BLOCK in
      let aad := to_le_bytes 2 (wrap 16 (Z.of_nat block_len)) in
      match seal (write_key c) (build_nonce_from_counter (encrypt_counter c)) aad
              (take block_len rest) with
      | None => (c, Err EncryptionFailed)
      | Some sealed =>
          encrypt_loop fuel (c <| encrypt_counter := u64_succ (encrypt_counter c) |>)
            (drop block_len rest) (out ++ aad ++ sealed)
      end
  end.
Definition encrypt (c : ControlCipher) (plaintext : list Z)
  : ControlCipher * Result (list Z) CryptoError :=
  match plaintext with
  | [] => (c, Err EmptyPlaintext)
  | _ => encrypt_loop (length plaintext) c plaintext []
  end.

Definition decrypt_block (c : ControlCipher) (data : list Z) (block_len : Z)
  : ControlCipher * Result (list Z) CryptoError :=
  if Z.of_nat (length data) <? block_len + 16 then (c, Err BlockTooShort)
  else
    match open (read_key c) (build_nonce_from_counter (decrypt_counter c))
            (to_le_bytes 2 block_len) data with
    | None => (c, Err AuthenticationFailed)
    | Some m => (c <| decrypt_counter := u64_succ (decrypt_counter c) |>, Ok m)
    end.

Definition decrypt_raw (c : ControlCipher) (data : list Z)
  : ControlCipher * Result (list Z) CryptoError :=
  if (length data <? 16)%nat then (c, Err MissingTag)
  else decrypt_block c data (wrap 16 (Z.of_nat (length data - 16))).

(** The loop of [decrypt]; every round takes at least eighteen bytes. *)
Fixpoint decrypt_loop (fuel : nat) (c : ControlCipher) (rest out : list Z)
  : ControlCipher * Result (list Z) CryptoError :=
  match fuel, rest with
  | _, [] => (c, Ok out)
  | O, _ => (c, Ok out)
  | S fuel, [_] => (c, Err IncompletePrefix)
  | S fuel, b0 :: b1 :: rest =>
      let block_len := from_le_bytes [b0; b1] in
      let n := Z.to_nat (block_len + 16) in
      if (length rest <? n)%nat then (c, Err IncompleteBlock)
      else
        match decrypt_block c (take n rest) block_len with
        | (c, Err e) => (c, Err e)
        | (c, Ok m) => decrypt_loop fuel c (drop n rest) (out ++ m)
        end
  end.
Definition decrypt (c : ControlCipher) (data : list Z)
  : ControlCipher * Result (list Z) CryptoError :=
  if (length data <? 18)%nat then (c, Err FrameTooShort)
  else decrypt_loop (length data) c data [].

(** ** Audio packets *)

(** [encrypt_with_nonce] and [encrypt_with_seq]: ciphertext, packet nonce, tag. *)
Definition split_tag (sealed : list Z) : list Z * list Z :=
  (take (length sealed - 16) sealed, drop (length sealed - 16) sealed).
Definition audio_encrypt_with_nonce (key audio : list Z) (rtp_timestamp ssrc : Z)
    (nonce_8 : list Z) : Result (list Z * list Z * list Z) CryptoError :=
  match seal key (build_nonce_12 nonce_8) (build_aad rtp_timestamp ssrc) audio with
  | None => Err EncryptionFailed
  | Some sealed => let '(c, tag) := split_tag sealed in Ok (c, nonce_8, tag)
  end.
Definition seq_nonce_12 (seqnum : Z) : list Z := replicate 4 0 ++ to_le_bytes 2 seqnum ++ replicate 6 0.
Definition audio_encrypt_with_seq (key audio : list Z) (rtp_timestamp ssrc seqnum : Z)
  : Result (list Z * list Z * list Z) CryptoError :=
  match seal key (seq_nonce_12 seqnum) (build_aad rtp_timestamp ssrc) audio with
  | None => Err EncryptionFailed
  | Some sealed =>
      let '(c, tag) := split_tag sealed in Ok (c, slice 4 12 (seq_nonce_12 seqnum), tag)
  end.
Definition audio_decrypt (key ciphertext nonce tag : list Z) (rtp_timestamp ssrc : Z)
  : Result (list Z) CryptoError :=
  match open key (build_nonce_12 nonce) (build_aad rtp_timestamp ssrc) (ciphertext ++ tag) with
  | None => Err AuthenticationFailed
  | Some m => Ok m
  end.

(** One-shot sealing of the pairing messages. *)
Definition encrypt_with_nonce (key nonce plaintext : list Z) : Result (list Z) CryptoError :=
  match seal key nonce [] plaintext with Some c => Ok c | None => Err EncryptionFailed end.
Definition decrypt_with_nonce (key nonce ciphertext : list Z) : Result (list Z) CryptoError :=
  if (length ciphertext <? 16)%nat then Err MissingTag
  else match open key nonce [] ciphertext with Some m => Ok m | None => Err AuthenticationFailed end.
End Channel.
End ControlCipher.
