(* ===== verification/CipherProps.v ===== *)
(** * The control channel is a faithful byte stream

    [encrypt] and [decrypt] meet in one declarative description of the wire
    ([sealed_stream]): blocks in order, each sealed under the next counter nonce
    with its own length as associated data. *)

From S2P Require Import Prelude Wire ControlCipher.
Import ControlCipher.

Module CipherProps.
Section Channel.
Context `{Aead}.

Definition block_aad (m : list Z) : list Z := to_le_bytes 2 (Z.of_nat (length m)).

(** The plaintext blocks [ms], sealed under [key] from counter [n] to [n']. *)
Inductive sealed_stream (key : list Z) : Z -> list (list Z) -> list Z -> Z -> Prop :=
| sealed_nil n : sealed_stream key n [] [] n
| sealed_block n m c ms s n' :
    Z.of_nat (length m) < 2 ^ 16 ->
    seal key (build_nonce_from_counter n) (block_aad m) m = Some c ->
    sealed_stream key (u64_succ n) ms s n' ->
    sealed_stream key n (m :: ms) (block_aad m ++ c ++ s) n'.

Lemma sealed_stream_app key n ms s n' ms' s' n'' :
  sealed_stream key n ms s n' -> sealed_stream key n' ms' s' n'' ->
  sealed_stream key n (ms ++ ms') (s ++ s') n''.
Proof.
  induction 1 as [|n m c ms s n' Hm Hc _ IH]; intros H'; [done|].
  cbn [app]. rewrite <- !app_assoc. constructor; auto.
Qed.

(** Counter and stream are functions of the blocks. *)
Lemma sealed_stream_det key n ms s1 n1 s2 n2 :
  sealed_stream key n ms s1 n1 -> sealed_stream key n ms s2 n2 -> s1 = s2 /\ n1 = n2.
Proof.
  intros H1. revert s2 n2. induction H1 as [|n m c ms s n' Hm Hc _ IH]; intros s2 n2 H2;
    inversion H2; subst; [done|].
  match goal with Hs : sealed_stream _ (u64_succ n) ms _ _ |- _ => destruct (IH _ _ Hs) as [-> ->] end.
  split; congruence.
Qed.

(** ** Sealing *)

Lemma encrypt_loop_exact fuel c rest out c' out' :
  (length rest <= fuel)%nat -> encrypt_loop fuel c rest out = (c', Ok out') ->
  exists ms s,
    out' = out ++ s /\ concat ms = rest
    /\ Forall (fun m => (1 <= length m <= MAX_BLOCK)%nat) ms
    /\ sealed_stream (write_key c) (encrypt_counter c) ms s (encrypt_counter c')
    /\ c' = c <| encrypt_counter := encrypt_counter c' |>.
Proof.
  revert c rest out. induction fuel as [|fuel IH]; intros c rest out Hf Hr.
  { destruct rest; [|simpl in Hf; lia]. injection Hr as <- <-. exists [], [].
    rewrite app_nil_r. repeat split; try constructor. by destruct c. }
  destruct rest as [|b rest].
  { injection Hr as <- <-. exists [], []. rewrite app_nil_r. repeat split; try constructor. by destruct c. }
  cbn [encrypt_loop] in Hr. set (r := b :: rest) in *. set (n := Nat.min (length r) MAX_BLOCK) in *.
  assert (1 <= n <= MAX_BLOCK /\ n <= length r)%nat as [Hn Hn'] by (unfold n, r, MAX_BLOCK; simpl length; lia).
  assert (length (take n r) = n) as Hlen by (rewrite length_take; lia).
  assert (Z.of_nat n < 2 ^ 16) as Hw by (unfold MAX_BLOCK in Hn; lia).
  rewrite wrap_id in Hr by (unfold in_width; lia).
  assert (to_le_bytes 2 (Z.of_nat n) = block_aad (take n r)) as Eaad
    by (unfold block_aad; by rewrite Hlen).
  rewrite Eaad in Hr. destruct (seal _ _ _ _) as [sealed|] eqn:Es; [|done].
  apply IH in Hr as (ms & s & -> & Hc & Hb & Hss & Hc').
  2: { rewrite length_drop. unfold r in *. simpl length in *. lia. }
  exists (take n r :: ms), (block_aad (take n r) ++ sealed ++ s).
  split_and!.
  - by rewrite <- !app_assoc.
  - cbn [concat]. rewrite Hc. apply take_drop.
  - constructor; [by rewrite Hlen|done].
  - apply sealed_block; [by rewrite Hlen|done|done].
  - by rewrite Hc' at 1.
Qed.

(** ** Opening *)

Lemma two_le_bytes b0 b1 :
  is_byte b0 -> is_byte b1 ->
  in_width 16 (from_le_bytes [b0; b1]) /\ to_le_bytes 2 (from_le_bytes [b0; b1]) = [b0; b1].
Proof.
  intros H0 H1. pose proof (from_le_bytes_bound [b0; b1]) as Hb.
  split; [apply Hb; unfold bytes_ok; rewrite !Forall_cons; auto|].
  unfold is_byte, in_width in *. cbn [from_le_bytes]. rewrite Z.shiftl_0_l, Z.lor_0_r.
  rewrite (lor_shiftl_add b0 b1 8) by (unfold in_width; lia). cbn [to_le_bytes].
  rewrite Z.shiftr_div_pow2 by lia. unfold wrap. rewrite Z.mod_add, Z.div_add by lia.
  rewrite (Z.div_small b0), Z.add_0_l, !Z.mod_small by lia. done.
Qed.

Lemma le_prefix m : Z.of_nat (length m) < 2 ^ 16 -> from_le_bytes (block_aad m) = Z.of_nat (length m).
Proof. intros Hm. apply (from_to_le_bytes 2). unfold in_width. cbn. lia. Qed.

Lemma decrypt_block_step c m s :
  Z.of_nat (length m) < 2 ^ 16 ->
  seal (read_key c) (build_nonce_from_counter (decrypt_counter c)) (block_aad m) m = Some s ->
  decrypt_block c s (Z.of_nat (length m))
  = (c <| decrypt_counter := u64_succ (decrypt_counter c) |>, Ok m).
Proof.
  intros Hm Hs. unfold decrypt_block. pose proof (seal_length _ _ _ _ _ Hs) as Hl.
  destruct (Z.ltb_spec (Z.of_nat (length s)) (Z.of_nat (length m) + 16)); [lia|].
  apply open_seal in Hs. unfold block_aad in Hs. by rewrite Hs.
Qed.

Lemma decrypt_follows fuel c ms s n' out :
  (length s <= fuel)%nat -> sealed_stream (read_key c) (decrypt_counter c) ms s n' ->
  decrypt_loop fuel c s out = (c <| decrypt_counter := n' |>, Ok (out ++ concat ms)).
Proof.
  intros Hf Hs. remember (read_key c) as key eqn:Hk. remember (decrypt_counter c) as n eqn:Hn.
  revert fuel c out Hf Hk Hn. induction Hs as [n|n m b ms s n' Hm Hb _ IH]; intros fuel c out Hf -> ->.
  { rewrite app_nil_r. destruct fuel, c; done. }
  pose proof (seal_length _ _ _ _ _ Hb) as Hl.
  destruct fuel as [|fuel]; [rewrite length_app in Hf; unfold block_aad in Hf; cbn in Hf; lia|].
  pose proof (le_prefix m Hm) as Hp. unfold block_aad in *. cbn [to_le_bytes app decrypt_loop] in *.
  rewrite Hp. set (k := Z.to_nat (Z.of_nat (length m) + 16)).
  assert (k = length b) as -> by lia.
  destruct (Nat.ltb_spec (length (b ++ s)) (length b)) as [Hx|_]; [rewrite length_app in Hx; lia|].
  rewrite take_app_length, drop_app_length.
  rewrite (decrypt_block_step c m b) by done.
  rewrite IH; [|cbn [length] in Hf; rewrite length_app in Hf; lia|done|done].
  cbn [concat]. rewrite <- app_assoc. done.
Qed.

Lemma decrypt_only fuel c s out c' p :
  (length s <= fuel)%nat -> bytes_ok s -> decrypt_loop fuel c s out = (c', Ok p) ->
  exists ms, p = out ++ concat ms
    /\ sealed_stream (read_key c) (decrypt_counter c) ms s (decrypt_counter c')
    /\ c' = c <| decrypt_counter := decrypt_counter c' |>.
Proof.
  revert c s out. induction fuel as [|fuel IH]; intros c s out Hf Hb Hd.
  { destruct s; [|simpl in Hf; lia]. injection Hd as <- <-. exists []. rewrite app_nil_r.
    repeat split; [constructor|by destruct c]. }
  destruct s as [|b0 [|b1 rest]]; [|done|].
  { injection Hd as <- <-. exists []. rewrite app_nil_r. repeat split; [constructor|by destruct c]. }
  cbn [decrypt_loop] in Hd. set (len := from_le_bytes [b0; b1]) in *.
  apply Forall_cons in Hb as [H0 Hb]. apply Forall_cons in Hb as [H1 Hb].
  destruct (two_le_bytes b0 b1 H0 H1) as [Hw Ele]. fold len in Hw, Ele. unfold in_width in Hw.
  destruct (Nat.ltb_spec (length rest) (Z.to_nat (len + 16))) as [|Hlen]; [done|].
  unfold decrypt_block in Hd.
  destruct (Z.ltb_spec (Z.of_nat (length (take (Z.to_nat (len + 16)) rest))) (len + 16)) as [|_]; [done|].
  destruct (open _ _ _ _) as [m|] eqn:Eo; [|done].
  apply open_authentic in Eo. pose proof (seal_length _ _ _ _ _ Eo) as Hm. rewrite length_take in Hm.
  assert (len = Z.of_nat (length m)) as Elen by lia.
  apply IH in Hd as (ms & -> & Hs & Hc').
  2: { rewrite length_drop. simpl in Hf. lia. }
  2: { by apply Forall_drop. }
  exists (m :: ms). split; [cbn [concat]; by rewrite app_assoc|]. split; [|by rewrite Hc' at 1].
  change (b0 :: b1 :: rest) with ([b0; b1] ++ rest). rewrite <- Ele.
  rewrite <- (take_drop (Z.to_nat (len + 16)) rest), Elen.
  change (to_le_bytes 2 (Z.of_nat (length m))) with (block_aad m).
  rewrite Elen in Eo, Hs. apply sealed_block; [lia|exact Eo|exact Hs].
Qed.

Lemma decrypt_counter_exact c ms s n' :
  (18 <= length s)%nat -> sealed_stream (read_key c) (decrypt_counter c) ms s n' ->
  decrypt c s = (c <| decrypt_counter := n' |>, Ok (concat ms)).
Proof.
  intros Hl Hs. unfold decrypt. destruct (Nat.ltb_spec (length s) 18); [lia|].
  by rewrite (decrypt_follows _ c ms s n' []).
Qed.

Lemma encrypt_exact c p c' s :
  encrypt c p = (c', Ok s) ->
  exists ms, concat ms = p /\ (18 <= length s)%nat
    /\ Forall (fun m => (1 <= length m <= MAX_BLOCK)%nat) ms
    /\ sealed_stream (write_key c) (encrypt_counter c) ms s (encrypt_counter c')
    /\ c' = c <| encrypt_counter := encrypt_counter c' |>.
Proof.
  unfold encrypt. destruct p as [|b p]; [done|]. intros He.
  apply encrypt_loop_exact in He as (ms & s' & -> & Hc & Hb & Hs & Hc'); [|done].
  exists ms. split; [done|]. split; [|done]. cbn [app].
  destruct Hs as [|n m c0 ms s n' Hm Hseal Hs]; [done|].
  pose proof (seal_length _ _ _ _ _ Hseal). unfold block_aad.
  rewrite !length_app, length_to_le_bytes. lia.
Qed.

(** A run of [encrypt] calls; the output is what goes to the socket. *)
Fixpoint encrypt_all (c : ControlCipher) (ps : list (list Z))
  : ControlCipher * Result (list Z) CryptoError :=
  match ps with
  | [] => (c, Ok [])
  | p :: ps =>
      match encrypt c p with
      | (c, Err e) => (c, Err e)
      | (c, Ok s) => match encrypt_all c ps with
                     | (c, Ok rest) => (c, Ok (s ++ rest))
                     | r => r
                     end
      end
  end.

Lemma encrypt_all_exact c ps c' s :
  encrypt_all c ps = (c', Ok s) ->
  exists ms, concat ms = concat ps
    /\ Forall (fun m => (1 <= length m <= MAX_BLOCK)%nat) ms
    /\ sealed_stream (write_key c) (encrypt_counter c) ms s (encrypt_counter c')
    /\ c' = c <| encrypt_counter := encrypt_counter c' |>.
Proof.
  revert c s. induction ps as [|p ps IH]; intros c s He; cbn in He.
  { injection He as <- <-. exists []. repeat split; [constructor|constructor|by destruct c]. }
  destruct (encrypt c p) as [c1 [s1|]] eqn:E1; [|done].
  destruct (encrypt_all c1 ps) as [c2 [s2|]] eqn:E2; [|done]. injection He as <- <-.
  apply encrypt_exact in E1 as (ms1 & <- & _ & Hb1 & Hs1 & Hc1).
  apply IH in E2 as (ms2 & Hms2 & Hb2 & Hs2 & Hc2).
  rewrite Hc1 in Hs2, Hc2. cbn in Hs2, Hc2.
  exists (ms1 ++ ms2). split; [by rewrite concat_app, Hms2|]. split; [by apply Forall_app|].
  split; [|by rewrite Hc2 at 1]. by eapply sealed_stream_app.
Qed.

(** Everything one side sends through [encrypt], in any number of calls with
    messages of any length, comes out of the other side's [decrypt] as the same
    bytes in the same order, and the two counters agree afterwards, so that the
    channel can be continued. *)
Theorem control_channel_roundtrip tx rx ps tx' s :
  read_key rx = write_key tx -> decrypt_counter rx = encrypt_counter tx ->
  ps <> [] -> encrypt_all tx ps = (tx', Ok s) ->
  decrypt rx s = (rx <| decrypt_counter := encrypt_counter tx' |>, Ok (concat ps)).
Proof.
  intros Hk Hn Hps He. pose proof He as He'.
  apply encrypt_all_exact in He as (ms & <- & _ & Hs & _). apply decrypt_counter_exact; [|congruence].
  destruct ps as [|p ps]; [done|]. cbn in He'.
  destruct (encrypt tx p) as [c1 [s1|]] eqn:E1; [|done].
  destruct (encrypt_all c1 ps) as [c2 [s2|]] eqn:E2; [|done]. injection He' as _ <-.
  apply encrypt_exact in E1 as (_ & _ & Hl & _). rewrite length_app. lia.
Qed.

(** C21: What [decrypt] accepts is exactly a sequence of complete blocks sealed
    with the channel's key, in the order of its counter: a missing, reordered,
    truncated or altered block is rejected. *)
Theorem decrypt_accepts_only_sealed rx s rx' p :
  bytes_ok s ->
  decrypt rx s = (rx', Ok p) <->
  (18 <= length s)%nat /\ exists ms, p = concat ms
    /\ sealed_stream (read_key rx) (decrypt_counter rx) ms s (decrypt_counter rx')
    /\ rx' = rx <| decrypt_counter := decrypt_counter rx' |>.
Proof.
  intros Hb. split.
  - unfold decrypt. destruct (Nat.ltb_spec (length s) 18); [done|]. intros Hd.
    split; [done|]. by apply decrypt_only in Hd.
  - intros (Hl & ms & -> & Hs & ->). by apply decrypt_counter_exact.
Qed.

(** ** Nonces *)

Lemma counter_nonce_inj n n' :
  in_width 64 n -> in_width 64 n' ->
  build_nonce_from_counter n = build_nonce_from_counter n' -> n = n'.
Proof.
  intros Hn Hn' Heq. apply app_inv_head in Heq.
  rewrite <- (from_to_le_bytes 8 n Hn), <- (from_to_le_bytes 8 n' Hn'). by rewrite Heq.
Qed.

(** The nonces of a stream that starts at counter [n]. *)
Fixpoint stream_nonces (n : Z) (ms : list (list Z)) : list (list Z) :=
  match ms with [] => [] | _ :: ms => build_nonce_from_counter n :: stream_nonces (u64_succ n) ms end.

Lemma stream_nonces_fresh n ms k :
  0 <= k < n -> n + Z.of_nat (length ms) <= 2 ^ 64 ->
  build_nonce_from_counter k ∉ stream_nonces n ms.
Proof.
  revert n. induction ms as [|m ms IH]; intros n Hk Hn; [apply not_elem_of_nil|].
  cbn [stream_nonces length] in *. apply not_elem_of_cons. split.
  - intros Heq. apply counter_nonce_inj in Heq; [lia|unfold in_width; lia..].
  - destruct ms as [|m' ms]; [apply not_elem_of_nil|]. cbn [length] in *.
    rewrite u64_succ_no_overflow by lia. apply IH; cbn [length]; lia.
Qed.

Lemma sealed_stream_counter key n ms s n' :
  sealed_stream key n ms s n' -> 0 <= n -> n + Z.of_nat (length ms) < 2 ^ 64 ->
  n' = n + Z.of_nat (length ms) /\ NoDup (stream_nonces n ms).
Proof.
  induction 1 as [n|n m c ms s n' Hm Hc _ IH]; intros H0 Hn; cbn [length stream_nonces] in *.
  - split; [lia|constructor].
  - rewrite u64_succ_no_overflow in * by lia. destruct IH as [-> Hnd]; [lia..|]. split; [lia|].
    constructor; [|done]. apply stream_nonces_fresh; lia.
Qed.

(** C33: No nonce is ever used twice under a channel's key: over any run of
    [encrypt] calls, as long as the counter plus the bytes sealed stay below
    2^64 (a block has at least one byte), every block has a nonce of its own, the counter has advanced by exactly the number of blocks, and no
    nonce from before the run occurs in it. *)
Theorem control_nonces_never_repeat c ps c' s :
  encrypt_all c ps = (c', Ok s) -> 0 <= encrypt_counter c ->
  encrypt_counter c + Z.of_nat (length (concat ps)) < 2 ^ 64 ->
  exists ms, concat ms = concat ps
    /\ sealed_stream (write_key c) (encrypt_counter c) ms s (encrypt_counter c')
    /\ NoDup (stream_nonces (encrypt_counter c) ms)
    /\ encrypt_counter c' = encrypt_counter c + Z.of_nat (length ms)
    /\ forall k, 0 <= k < encrypt_counter c ->
         build_nonce_from_counter k ∉ stream_nonces (encrypt_counter c) ms.
Proof.
  intros He H0 Hn. apply encrypt_all_exact in He as (ms & Hms & Hb & Hs & _).
  assert (length ms <= length (concat ms))%nat as Hle.
  { clear -Hb. induction Hb as [|m ms Hm _ IH]; [done|]. cbn. rewrite length_app. lia. }
  rewrite Hms in Hle. destruct (sealed_stream_counter _ _ _ _ _ Hs) as [Hc Hnd]; [lia..|].
  exists ms. split_and!; [done|done|done|done|]. intros k Hk. apply stream_nonces_fresh; lia.
Qed.

(** ** Audio packets *)

Lemma seq_nonce_packet_nonce seqnum :
  build_nonce_12 (slice 4 12 (seq_nonce_12 seqnum)) = seq_nonce_12 seqnum.
Proof. reflexivity. Qed.

(** A sealed audio packet opens, with the nonce and tag it carries and the
    time stamp and stream id of its header, to the audio that was sealed; and its
    ciphertext is as long as the audio. *)
Theorem audio_packet_roundtrip key audio ts ssrc seqnum c nonce tag :
  audio_encrypt_with_seq key audio ts ssrc seqnum = Ok (c, nonce, tag) ->
  audio_decrypt key c nonce tag ts ssrc = Ok audio
  /\ length c = length audio /\ length nonce = 8%nat /\ length tag = 16%nat.
Proof.
  unfold audio_encrypt_with_seq, split_tag. destruct (seal _ _ _ _) as [sealed|] eqn:Es; [|done].
  intros [= <- <- <-]. pose proof (seal_length _ _ _ _ _ Es) as Hl.
  unfold audio_decrypt. rewrite seq_nonce_packet_nonce, take_drop, (open_seal _ _ _ _ _ Es).
  rewrite length_take, length_drop. split; [done|]. split; [lia|]. split; [done|lia].
Qed.

(** Packet nonces depend on the 16-bit sequence number alone: two packets of
    a stream share a nonce exactly when their running numbers agree modulo
    65536. *)
Theorem audio_nonce_period i j :
  seq_nonce_12 (wrap 16 i) = seq_nonce_12 (wrap 16 j) <-> i mod 2 ^ 16 = j mod 2 ^ 16.
Proof.
  split; [|unfold wrap; by intros ->].
  unfold seq_nonce_12. rewrite !app_assoc. intros Heq. apply app_inv_tail, app_inv_head in Heq.
  fold (wrap 16 i) (wrap 16 j). pose proof (wrap_bound 16 i ltac:(lia)) as Hi.
  pose proof (wrap_bound 16 j ltac:(lia)) as Hj. unfold in_width in *.
  set (x := wrap 16 i) in *. set (y := wrap 16 j) in *.
  cbn [to_le_bytes] in Heq. rewrite !Z.shiftr_div_pow2 in Heq by lia. unfold wrap in Heq.
  injection Heq as E0 E1.
  rewrite !(Z.mod_small (_ / 2 ^ 8)) in E1
    by (split; [apply Z.div_pos|apply Z.div_lt_upper_bound]; lia).
  pose proof (Z.div_mod x (2 ^ 8)). pose proof (Z.div_mod y (2 ^ 8)). lia.
Qed.
End Channel.

(** ** Witnesses: a cipher that only tags *)

Definition toy_tag (nonce : list Z) : list Z := take 16 (nonce ++ replicate 16 0).

Lemma toy_tag_length nonce : length (toy_tag nonce) = 16%nat.
Proof. unfold toy_tag. rewrite length_take, length_app, length_replicate. lia. Qed.

Definition toy_seal (key nonce aad m : list Z) : option (list Z) := Some (m ++ toy_tag nonce).
Definition toy_open (key nonce aad c : list Z) : option (list Z) :=
  let m := take (length c - 16) c in
  if bool_decide (c = m ++ toy_tag nonce) then Some m else None.

Lemma toy_seal_length key nonce aad m c :
  toy_seal key nonce aad m = Some c -> length c = (length m + 16)%nat.
Proof. intros [= <-]. by rewrite length_app, toy_tag_length. Qed.
Lemma toy_open_seal key nonce aad m c :
  toy_seal key nonce aad m = Some c -> toy_open key nonce aad c = Some m.
Proof.
  intros [= <-]. unfold toy_open. rewrite length_app, toy_tag_length.
  replace (length m + 16 - 16)%nat with (length m) by lia. rewrite take_app_length.
  by rewrite bool_decide_true.
Qed.
Lemma toy_open_authentic key nonce aad m c :
  toy_open key nonce aad c = Some m -> toy_seal key nonce aad m = Some c.
Proof.
  unfold toy_open, toy_seal. cbn zeta. case_bool_decide as Hc; [|done]. intros [= <-].
  by rewrite <- Hc.
Qed.
Definition toy_aead : Aead := {|
  seal := toy_seal; open := toy_open; seal_length := toy_seal_length;
  open_seal := toy_open_seal; open_authentic := toy_open_authentic |}.

Lemma control_channel_roundtrip_witness :
  exists tx' s,
    @encrypt_all toy_aead (new_unidirectional [1]) [[7; 8]; replicate 2000 9] = (tx', Ok s)
    /\ @decrypt toy_aead (new_unidirectional [1]) s
       = ((new_unidirectional [1]) <| decrypt_counter := encrypt_counter tx' |>,
          Ok (concat [[7; 8]; replicate 2000 9])).
Proof.
  destruct (@encrypt_all toy_aead (new_unidirectional [1]) [[7; 8]; replicate 2000 9])
    as [tx' [s|e]] eqn:E.
  - exists tx', s. split; [reflexivity|].
    apply (@control_channel_roundtrip toy_aead (new_unidirectional [1])); auto.
  - exfalso. vm_compute in E. discriminate E.
Defined.

Lemma decrypt_accepts_only_sealed_witness :
  @decrypt toy_aead (new_unidirectional [1]) (replicate 18 0)
  = ((new_unidirectional [1]) <| decrypt_counter := 1 |>, Ok []).
Proof.
  apply (@decrypt_accepts_only_sealed toy_aead).
  - unfold bytes_ok. apply (bool_decide_unpack _). vm_compute. exact I.
  - split; [vm_compute; lia|]. exists [[]]. split; [reflexivity|]. split; [|reflexivity].
    apply (@sealed_block toy_aead [1] 0 [] (toy_tag (build_nonce_from_counter 0)) [] [] 1);
      [simpl; lia|reflexivity|]. apply sealed_nil.
Defined.

Lemma control_nonces_never_repeat_witness :
  exists tx' s ms,
    @encrypt_all toy_aead (new_unidirectional [1]) [replicate 2000 9] = (tx', Ok s)
    /\ encrypt_counter tx' = Z.of_nat (length ms) /\ NoDup (stream_nonces 0 ms).
Proof.
  destruct (@encrypt_all toy_aead (new_unidirectional [1]) [replicate 2000 9])
    as [tx' [s|e]] eqn:E.
  - destruct (@control_nonces_never_repeat toy_aead _ _ _ _ E) as (ms & _ & _ & Hnd & Hc & _).
    + simpl. lia.
    + apply Z.ltb_lt. vm_compute. reflexivity.
    + exists tx', s, ms. auto.
  - exfalso. vm_compute in E. discriminate E.
Defined.

Lemma audio_packet_roundtrip_witness :
  @audio_decrypt toy_aead [1] [5; 6; 7] [3; 1; 0; 0; 0; 0; 0; 0]
    (toy_tag (seq_nonce_12 259)) 1000 42 = Ok [5; 6; 7].
Proof.
  apply (@audio_packet_roundtrip toy_aead [1] [5; 6; 7] 1000 42 259). vm_compute. reflexivity.
Defined.
End CipherProps.
