(* ===== verification/Rtsp.v ===== *)
(** * RTSP requests, responses and the connection ([airplay-rtsp])

    [request.rs]: building and serialising requests.  [response.rs]: parsing.
    [connection.rs]: one request/response exchange, in clear or through the
    control cipher.  A [HashMap<String, String>] is a finite map; where the code
    searches it in iteration order, that order is a parameter.

    The socket is an input of an exchange: the bytes the peer delivers until the
    exchange is over, and whether it then closes the connection or stays silent
    until the ten-second timeout. *)

From S2P Require Import Prelude Wire Text ControlCipher.
Import ControlCipher.

Module Rtsp.

(** ** Requests *)

Inductive RtspMethod :=
| Options | Announce | Setup | Record_ | Pause | Flush | Teardown | GetParameter
| SetParameter | Post | Get | SetPeers.

Definition as_str (m : RtspMethod) : text :=
  lit match m with
      | Options => "OPTIONS" | Announce => "ANNOUNCE" | Setup => "SETUP" | Record_ => "RECORD"
      | Pause => "PAUSE" | Flush => "FLUSH" | Teardown => "TEARDOWN"
      | GetParameter => "GET_PARAMETER" | SetParameter => "SET_PARAMETER" | Post => "POST"
      | Get => "GET" | SetPeers => "SETPEERS"
      end.

Record RtspRequest := {
  method : RtspMethod;
  uri : text;
  rq_headers : gmap text text;
  rq_body : option (list Z);
}.
#[export] Instance eta_RtspRequest : Eta RtspRequest := fun r =>
  {| method := method r; uri := uri r; rq_headers := rq_headers r; rq_body := rq_body r |}.

Definition new_request (m : RtspMethod) (uri : text) : RtspRequest :=
  {| method := m; uri := uri; rq_headers := ∅; rq_body := None |}.
Definition with_header (key value : text) (r : RtspRequest) : RtspRequest :=
  r <| rq_headers := <[key := value]> (rq_headers r) |>.
Definition with_body (body : list Z) (r : RtspRequest) : RtspRequest := r <| rq_body := Some body |>.
Definition content_type_bplist (r : RtspRequest) : RtspRequest :=
  with_header (lit "Content-Type") (lit "application/x-apple-binary-plist") r.

(** [str::cmp]: lexicographic. *)
Fixpoint text_leb (a b : text) : bool :=
  match a, b with
  | [], _ => true
  | _ :: _, [] => false
  | x :: a, y :: b => (x <? y) || ((x =? y) && text_leb a b)
  end.
Definition sorted_headers (m : gmap text text) : list (text * text) :=
  isort (fun p q => text_leb (fst p) (fst q)) (map_to_list m).

Definition header_line (kv : text * text) : text := kv.1 ++ lit ": " ++ kv.2 ++ CRLF.

Definition serialize (r : RtspRequest) (cseq : Z) : list Z :=
  utf8_encode
    (as_str (method r) ++ lit " " ++ uri r ++ lit " RTSP/1.0" ++ CRLF
     ++ header_line (lit "CSeq", decimal cseq)
     ++ match rq_body r with
        | Some body => header_line (lit "Content-Length", decimal (Z.of_nat (length body)))
        | None => []
        end
     ++ concat (header_line <$> sorted_headers (rq_headers r)) ++ CRLF)
  ++ default [] (rq_body r).

(** The factories. *)
Definition octet_stream : RtspRequest -> RtspRequest :=
  with_header (lit "Content-Type") (lit "application/octet-stream").
Definition rtp_info (seq rtptime : Z) : text :=
  lit "seq=" ++ decimal seq ++ lit ";rtptime=" ++ decimal rtptime.

Definition get_info : RtspRequest := content_type_bplist (new_request Get (lit "/info")).
Definition options : RtspRequest := new_request Options (lit "*").
Definition announce (uri : text) (body : list Z) : RtspRequest :=
  with_body body (with_header (lit "Content-Type") (lit "application/sdp") (new_request Announce uri)).
Definition setup (uri : text) (body : list Z) : RtspRequest :=
  with_body body (content_type_bplist (new_request Setup uri)).
Definition record (uri : text) : RtspRequest :=
  with_header (lit "X-Apple-ProtocolVersion") (lit "1") (new_request Record_ uri).
Definition teardown (uri : text) : RtspRequest := new_request Teardown uri.
Definition flush (uri : text) : RtspRequest := new_request Flush uri.
Definition flush_with_info (uri : text) (seq rtptime : Z) : RtspRequest :=
  with_header (lit "RTP-Info") (rtp_info seq rtptime) (new_request Flush uri).
Definition set_parameter (uri : text) (body : list Z) : RtspRequest :=
  with_body body (content_type_bplist (new_request SetParameter uri)).
Definition set_parameter_text (uri : text) (body : list Z) : RtspRequest :=
  with_body body
    (with_header (lit "Content-Type") (lit "text/parameters") (new_request SetParameter uri)).
Definition setpeers (body : list Z) : RtspRequest :=
  with_body body (content_type_bplist (new_request SetPeers (lit "/peer-list-changed"))).
Definition record_with_info (uri : text) (seq rtptime : Z) : RtspRequest :=
  with_header (lit "RTP-Info") (rtp_info seq rtptime)
    (with_header (lit "Range") (lit "npt=0-") (record uri)).
Definition pair_setup (body : list Z) (device_id : text) (hkp : Z) : RtspRequest :=
  with_body body
    (with_header (lit "User-Agent") (lit "AirPlay/745.83")
    (with_header (lit "Active-Remote") (lit "1234567890")
    (with_header (lit "DACP-ID") (filter (fun c => c <> 58) device_id)
    (with_header (lit "X-Apple-HKP") (decimal hkp)
    (with_header (lit "X-Apple-Device-ID") device_id
    (octet_stream (new_request Post (lit "/pair-setup")))))))).
Definition pair_verify (body : list Z) (hkp : Z) : RtspRequest :=
  with_body body (with_header (lit "X-Apple-HKP") (decimal hkp)
    (octet_stream (new_request Post (lit "/pair-verify")))).
Definition fruit_pair_setup (body : list Z) : RtspRequest :=
  with_body body (content_type_bplist (new_request Post (lit "/pair-setup"))).
Definition fruit_pair_verify (body : list Z) : RtspRequest :=
  with_body body (octet_stream (new_request Post (lit "/pair-verify"))).
Definition fp_setup (body : list Z) : RtspRequest :=
  with_body body (octet_stream (new_request Post (lit "/fp-setup"))).
Definition feedback (uri : text) : RtspRequest :=
  content_type_bplist (new_request Post (uri ++ lit "/feedback")).
Definition options_with_challenge (challenge : text) : RtspRequest :=
  with_header (lit "Apple-Challenge") challenge (new_request Options (lit "*")).
Definition setup_raop (uri transport : text) : RtspRequest :=
  with_header (lit "Transport") transport (new_request Setup uri).

(** ** Responses *)

Inductive RtspError :=
| MissingTerminator | InvalidUtf8 | MissingStatusLine | MalformedStatusLine | NotRtsp
| InvalidStatusCode | BodyTooShort | ConnectionRefused | Crypto (e : CryptoError) | Io | Timeout
| Panicked.

Record RtspResponse := {
  status_code : Z;
  status_text : text;
  rs_headers : gmap text text;
  rs_body : option (list Z);
}.

Definition usize_max : Z := 2 ^ 64 - 1.
Definition SP : Z := 32.
Definition HEAD_END : list Z := CRLF ++ CRLF.

(** [line.splitn(3, ' ')] *)
Definition parse_status_line (line : text) : Result (Z * text) RtspError :=
  match split_once SP line with
  | None => Err MalformedStatusLine
  | Some (version, rest) =>
      if negb (starts_with (lit "RTSP/") version) then Err NotRtsp
      else
        let '(code, reason) := default (rest, []) (split_once SP rest) in
        match parse_uint u16_max code with
        | None => Err InvalidStatusCode
        | Some c => Ok (c, reason)
        end
  end.

(** The header loop; a line without a colon is skipped, a repeated key keeps the
    last value. *)
Definition add_header (m : gmap text text) (line : text) : gmap text text :=
  match split_once 58 line with
  | Some (key, value) => <[trim key := trim value]> m
  | None => m
  end.
Definition parse_headers (ls : list text) : gmap text text := fold_left add_header ls ∅.

(** The first item of a list with a property ([Iterator::find]). *)
Fixpoint find_first {A} (p : A -> bool) (l : list A) : option A :=
  match l with [] => None | x :: l => if p x then Some x else find_first p l end.

Section Iteration.
(** The iteration order of a [HashMap]. *)
Context (iter : gmap text text -> list (text * text)).

Definition find_header (m : gmap text text) (name : text) : option text :=
  snd <$> find_first (fun kv => eq_ignore_ascii_case (fst kv) name) (iter m).

Definition body_length (m : gmap text text) : Z :=
  default 0 (find_header m (lit "Content-Length") ≫= parse_uint usize_max).

(** [body_start + content_length] wraps; a range that ends before it starts
    panics. *)
Definition parse_body (data : list Z) (body_start : nat) (content_length : Z)
  : Result (option (list Z)) RtspError :=
  if 0 <? content_length then
    let body_end := wrap 64 (Z.of_nat body_start + content_length) in
    if body_end <=? Z.of_nat (length data) then
      if body_end <? Z.of_nat body_start then Err Panicked
      else Ok (Some (slice body_start (Z.to_nat body_end) data))
    else Err BodyTooShort
  else Ok None.

Definition parse_response (data : list Z) : Result RtspResponse RtspError :=
  match find_sub HEAD_END data with
  | None => Err MissingTerminator
  | Some header_end =>
      match from_utf8 (take header_end data) with
      | None => Err InvalidUtf8
      | Some head =>
          match lines head with
          | [] => Err MissingStatusLine
          | status_line :: ls =>
              let? status := parse_status_line status_line in
              let headers := parse_headers ls in
              let? body := parse_body data (header_end + 4) (body_length headers) in
              Ok {| status_code := fst status; status_text := snd status;
                    rs_headers := headers; rs_body := body |}
          end
      end
  end.

Definition is_success (r : RtspResponse) : bool := (200 <=? status_code r) && (status_code r <? 300).
Definition header (r : RtspResponse) (name : text) : option text := find_header (rs_headers r) name.
Definition cseq_of (r : RtspResponse) : option Z :=
  header r (lit "CSeq") ≫= parse_uint (2 ^ 32 - 1).
Definition content_length (r : RtspResponse) : option Z :=
  header r (lit "Content-Length") ≫= parse_uint usize_max.
Definition ensure_success (r : RtspResponse) : Result unit Z :=
  if is_success r then Ok tt else Err (status_code r).

(** ** The connection *)

Record RtspConnection := {
  cseq : Z;
  cipher : option ControlCipher;
  connected : bool;
  session_headers : gmap text text;
}.
#[export] Instance eta_RtspConnection : Eta RtspConnection := fun c =>
  {| cseq := cseq c; cipher := cipher c; connected := connected c;
     session_headers := session_headers c |}.

Definition new_connection : RtspConnection :=
  {| cseq := 0; cipher := None; connected := false; session_headers := ∅ |}.
Definition connect (c : RtspConnection) (ok : bool) : RtspConnection * Result unit RtspError :=
  if ok then (c <| connected := true |>, Ok tt) else (c, Err ConnectionRefused).
Definition set_cipher (c : RtspConnection) (k : ControlCipher) : RtspConnection :=
  c <| cipher := Some k |>.
Definition clear_cipher (c : RtspConnection) : RtspConnection := c <| cipher := None |>.
Definition add_session_header (c : RtspConnection) (key value : text) : RtspConnection :=
  c <| session_headers := <[key := value]> (session_headers c) |>.
Definition clear_session_headers (c : RtspConnection) : RtspConnection :=
  c <| session_headers := ∅ |>.
Definition next_cseq (c : RtspConnection) : RtspConnection * Z :=
  let n := wrap 32 (cseq c + 1) in (c <| cseq := n |>, n).
Definition close (c : RtspConnection) : RtspConnection := c <| connected := false |>.

(** What the peer delivers: bytes, then the end of the stream or silence. *)
Record Inbox := { bytes : list Z; closed : bool }.
Definition starved (i : Inbox) : RtspError := if closed i then Io else Timeout.

(** The content length both readers look for: the first header line of that
    name whose value is a number. *)
Definition line_length (line : text) : option Z :=
  match split_once 58 line with
  | Some (key, value) =>
      if eq_ignore_ascii_case (trim key) (lit "Content-Length")
      then parse_uint usize_max (trim value) else None
  | None => None
  end.
Fixpoint announced_length (ls : list text) : Z :=
  match ls with
  | [] => 0
  | l :: ls => match line_length l with Some n => n | None => announced_length ls end
  end.

(** [read_line]: up to and including a line feed; at the end of the stream,
    whatever is left, possibly nothing. *)
Inductive ReadLine := Line (l : list Z) (rest : list Z) | Silence.
Fixpoint split_line (bs : list Z) : option (list Z * list Z) :=
  match bs with
  | [] => None
  | b :: bs => if b =? LF then Some ([b], bs)
               else match split_line bs with Some (l, r) => Some (b :: l, r) | None => None end
  end.
Definition read_line (i : Inbox) : ReadLine :=
  match split_line (bytes i) with
  | Some (l, rest) => Line l rest
  | None => if closed i then Line (bytes i) [] else Silence
  end.

(** The header loop of [read_plaintext_response]: it ends only at an empty line.
    [None] after [fuel] rounds means that it is still running. *)
Fixpoint read_head (fuel : nat) (head : list Z) (i : Inbox)
  : option (Result (list Z * list Z) RtspError) :=
  match fuel with
  | O => None
  | S fuel =>
      match read_line i with
      | Silence => Some (Err Timeout)
      | Line l rest =>
          match from_utf8 l with
          | None => Some (Err Io)
          | Some _ =>
              if bool_decide (l = CRLF) then Some (Ok (head ++ l, rest))
              else read_head fuel (head ++ l) {| bytes := rest; closed := closed i |}
          end
      end
  end.

(** Every round that does not end the loop takes a byte or has reached the end of
    the stream, where the loop spins until the timeout. *)
Definition read_plaintext_response (i : Inbox) : Result (list Z) RtspError :=
  match read_head (S (length (bytes i))) [] i with
  | None => Err Timeout
  | Some (Err e) => Err e
  | Some (Ok (head, rest)) =>
      let n := announced_length (lines (from_utf8_lossy head)) in
      if 2 ^ 63 - 1 <? n then Err Panicked
      else if 0 <? n then
        if Z.of_nat (length rest) <? n then Err (starved i)
        else Ok (head ++ take (Z.to_nat n) rest)
      else Ok head
  end.

Section Encrypted.
Context `{Aead}.

(** The complete response at the front of the decrypted bytes, if there. *)
Definition complete_response (data : list Z) : option (list Z) :=
  match find_sub HEAD_END data with
  | None => None
  | Some end_ =>
      let n := announced_length (lines (from_utf8_lossy (take end_ data))) in
      let total := wrap 64 (Z.of_nat end_ + 4 + n) in
      if total <=? Z.of_nat (length data) then Some (take (Z.to_nat total) data) else None
  end.

(** The loop of [read_encrypted_response]; a round takes at least eighteen
    bytes. *)
Fixpoint read_blocks (fuel : nat) (k : ControlCipher) (acc : list Z) (i : Inbox)
  : ControlCipher * Result (list Z) RtspError :=
  match fuel with
  | O => (k, Err (starved i))
  | S fuel =>
      match bytes i with
      | b0 :: b1 :: rest =>
          let block_len := from_le_bytes [b0; b1] in
          let n := Z.to_nat (block_len + 16) in
          if (length rest <? n)%nat then (k, Err (starved i))
          else
            match decrypt_block k (take n rest) block_len with
            | (k, Err e) => (k, Err (Crypto e))
            | (k, Ok plain) =>
                match complete_response (acc ++ plain) with
                | Some r => (k, Ok r)
                | None => read_blocks fuel k (acc ++ plain)
                            {| bytes := drop n rest; closed := closed i |}
                end
            end
      | _ => (k, Err (starved i))
      end
  end.
Definition read_encrypted_response (k : ControlCipher) (i : Inbox)
  : ControlCipher * Result (list Z) RtspError :=
  read_blocks (S (length (bytes i))) k [] i.

(** The request as it leaves: session headers added, number assigned. *)
Definition add_session (c : RtspConnection) (r : RtspRequest) : RtspRequest :=
  r <| rq_headers := session_headers c ∪ rq_headers r |>.

(** [send]: new connection state, bytes handed to a successful write, outcome. *)
Definition send (c : RtspConnection) (r : RtspRequest) (write_ok : bool) (i : Inbox)
  : RtspConnection * list Z * Result RtspResponse RtspError :=
  if negb (connected c) then (c, [], Err ConnectionRefused)
  else
    let r := add_session c r in
    let '(c, n) := next_cseq c in
    let data := serialize r n in
    match cipher c with
    | None =>
        if negb write_ok then (c, [], Err Io)
        else (c, data, let? response := read_plaintext_response i in parse_response response)
    | Some k =>
        match encrypt k data with
        | (k, Err e) => (c <| cipher := Some k |>, [], Err (Crypto e))
        | (k, Ok wire) =>
            if negb write_ok then (c <| cipher := Some k |>, [], Err Io)
            else
              let '(k, response) := read_encrypted_response k i in
              (c <| cipher := Some k |>, wire, let? response := response in parse_response response)
        end
    end.
End Encrypted.
End Iteration.
End Rtsp.
