(* ===== verification/RtspProps.v ===== *)
(** * What a device answers is what the caller gets

    A reference printer for responses, and the proof that the parser, the clear
    text reader and the decrypting reader all recover exactly the printed
    response, however the bytes are cut into blocks. *)

From S2P Require Import Prelude Wire Text ControlCipher CipherProps Rtsp.
Import ControlCipher CipherProps Rtsp.

Module RtspProps.

(** ** The reference printer *)

Record Reply := {
  code : Z;
  reason : text;
  fields : list (text * text);
  payload : list Z;
}.

Definition status_line (r : Reply) : text :=
  lit "RTSP/1.0 " ++ decimal (code r) ++ lit " " ++ reason r.
Definition field_line (kv : text * text) : text := kv.1 ++ lit ": " ++ kv.2.
Definition head_lines (r : Reply) : list text := status_line r :: (field_line <$> fields r).
Definition with_crlf (ls : list text) : text := concat ((fun l => l ++ CRLF) <$> ls).
Definition render (r : Reply) : list Z := utf8_encode (with_crlf (head_lines r) ++ CRLF) ++ payload r.

Definition lower_key (kv : text * text) : text := to_ascii_lower <$> kv.1.
Definition is_length_field (kv : text * text) : bool :=
  eq_ignore_ascii_case kv.1 (lit "Content-Length").

Record field_ok (kv : text * text) : Prop := {
  fo_scalars : Forall is_scalar (field_line kv);
  fo_no_break : no_break (field_line kv);
  fo_colon : 58 ∉ kv.1;
  fo_key : trimmed kv.1;
  fo_value : trimmed kv.2;
}.
Record reply_ok (r : Reply) : Prop := {
  ro_code : 0 <= code r <= u16_max;
  ro_reason : Forall is_scalar (reason r) /\ no_break (reason r);
  ro_fields : Forall field_ok (fields r);
  ro_keys : NoDup (lower_key <$> fields r);
  (* the length of a body is announced, and only that *)
  ro_length : forall kv, kv ∈ fields r -> is_length_field kv = true ->
                kv.2 = decimal (Z.of_nat (length (payload r)));
  ro_announced : payload r <> [] -> exists kv, kv ∈ fields r /\ is_length_field kv = true;
  ro_size : Z.of_nat (length (render r)) < 2 ^ 63;
}.

(** ** Finding the end of the head *)

Definition plain_line (l : list Z) : Prop := l <> [] /\ CR ∉ l /\ LF ∉ l.

Lemma find_head_skip x y :
  CR ∉ x ->
  find_sub HEAD_END (x ++ CRLF ++ y)
  = if starts_with CRLF y then Some (length x)
    else (fun n => length x + 2 + n)%nat <$> find_sub HEAD_END y.
Proof.
  intros Hx. induction x as [|b x IH].
  - cbn [app length]. destruct (starts_with CRLF y) eqn:E.
    + unfold starts_with in E. destruct (strip_prefix CRLF y) as [r|] eqn:Es; [|done].
      apply strip_prefix_some in Es as ->. done.
    + change (CRLF ++ y) with (CR :: LF :: y). cbn [find_sub].
      assert (starts_with HEAD_END (CR :: LF :: y) = starts_with CRLF y) as -> by done. rewrite E.
      assert (starts_with HEAD_END (LF :: y) = false) as -> by done.
      destruct (find_sub HEAD_END y); done.
  - apply not_elem_of_cons in Hx as [Hb Hx]. cbn [app find_sub].
    assert (starts_with HEAD_END (b :: x ++ CRLF ++ y) = false) as ->.
    { change HEAD_END with [CR; LF; CR; LF]. unfold starts_with. cbn [strip_prefix].
      destruct (Z.eqb_spec CR b); [by subst|done]. }
    rewrite IH by done. destruct (starts_with CRLF y); [done|]. by destruct (find_sub HEAD_END y).
Qed.

Lemma find_head_end (ls : list (list Z)) rest :
  ls <> [] -> Forall plain_line ls ->
  find_sub HEAD_END (concat ((fun l => l ++ CRLF) <$> ls) ++ CRLF ++ rest)
  = Some (length (concat ((fun l => l ++ CRLF) <$> ls)) - 2)%nat.
Proof.
  intros Hne Hls. induction Hls as [|l ls (Hl & Hcr & Hlf) Hls IH]; [done|].
  cbn [fmap list_fmap concat]. rewrite <- !app_assoc, find_head_skip by done.
  destruct ls as [|l' ls].
  - cbn. rewrite !length_app. cbn. f_equal. lia.
  - apply Forall_cons in Hls as [(Hl' & Hcr' & _) _].
    assert (starts_with CRLF (concat ((fun l => l ++ CRLF) <$> l' :: ls) ++ CRLF ++ rest) = false) as ->.
    { destruct l' as [|b l']; [done|]. apply not_elem_of_cons in Hcr' as [Hb _].
      unfold starts_with. cbn [fmap list_fmap concat app CRLF strip_prefix].
      destruct (Z.eqb_spec CR b); [by subst|done]. }
    rewrite IH by done. cbn [fmap option_fmap option_map]. f_equal.
    rewrite length_app. cbn [fmap list_fmap concat]. rewrite !length_app. cbn [length CRLF]. lia.
Qed.

(** What was found in a prefix is found in the whole. *)
Lemma starts_with_app p a b : starts_with p a = true -> starts_with p (a ++ b) = true.
Proof.
  unfold starts_with. intros H. destruct (strip_prefix p a) as [r|] eqn:E; [|done].
  apply strip_prefix_some in E as ->. by rewrite <- app_assoc, strip_prefix_app.
Qed.

Lemma starts_with_prefix p a b : (length p <= length a)%nat ->
  starts_with p (a ++ b) = starts_with p a.
Proof.
  revert a. induction p as [|x p IH]; intros a Ha; [done|].
  destruct a as [|y a]; [simpl in Ha; lia|]. unfold starts_with in *. cbn.
  destruct (x =? y); [|done]. apply IH. simpl in Ha. lia.
Qed.

Lemma find_sub_length p a n : find_sub p a = Some n -> (n + length p <= length a)%nat.
Proof.
  revert n. induction a as [|x a IH]; intros n; cbn [find_sub].
  - unfold starts_with. destruct (strip_prefix p []) as [r|] eqn:E; [|done]. intros [= <-].
    apply strip_prefix_some in E. symmetry in E. apply app_eq_nil in E as [-> _]. done.
  - destruct (starts_with p (x :: a)) eqn:Es.
    + intros [= <-]. unfold starts_with in Es. destruct (strip_prefix p (x :: a)) as [r|] eqn:E; [|done].
      apply strip_prefix_some in E. rewrite E, length_app. lia.
    + destruct (find_sub p a) as [m|] eqn:Em; [|done]. intros [= <-]. specialize (IH m eq_refl). simpl. lia.
Qed.

Lemma find_sub_app p a b n :
  find_sub p a = Some n -> find_sub p (a ++ b) = Some n.
Proof.
  revert n. induction a as [|x a IH]; intros n Hn.
  - cbn [find_sub] in Hn. destruct (starts_with p []) eqn:Es; [|done]. injection Hn as <-.
    pose proof (starts_with_app p [] b Es) as Hs. cbn [app] in *. destruct b; cbn [find_sub]; by rewrite Hs.
  - pose proof (find_sub_length _ _ _ Hn) as Hlen.
    cbn [app find_sub] in *. change (x :: a ++ b) with ((x :: a) ++ b).
    rewrite starts_with_prefix by lia. destruct (starts_with p (x :: a)); [done|].
    destruct (find_sub p a) as [m|] eqn:Em; [|done]. injection Hn as <-. by rewrite (IH m).
Qed.

(** ** Header fields *)

Lemma find_first_unique {A} (p : A -> bool) l x :
  x ∈ l -> p x = true -> (forall y, y ∈ l -> p y = true -> y = x) -> find_first p l = Some x.
Proof.
  induction l as [|y l IH]; intros Hx Hp Hu; [by apply elem_of_nil in Hx|]. cbn.
  destruct (p y) eqn:Ey; [f_equal; apply Hu; [set_solver|done]|].
  apply IH; [|done|]; [apply elem_of_cons in Hx as [->|Hx]; [congruence|done]|set_solver].
Qed.

Lemma find_first_none {A} (p : A -> bool) l :
  (forall y, y ∈ l -> p y = false) -> find_first p l = None.
Proof. induction l as [|y l IH]; intros Hl; cbn; [done|]. rewrite Hl by set_solver. apply IH. set_solver. Qed.

Lemma split_field kv :
  field_ok kv -> split_once 58 (field_line kv) = Some (kv.1, 32 :: kv.2).
Proof. intros Hk. unfold field_line. apply split_once_here, (fo_colon kv Hk). Qed.

Lemma fold_add_header hs m :
  Forall field_ok hs ->
  fold_left add_header (field_line <$> hs) m = fold_left (fun m kv => <[kv.1 := kv.2]> m) hs m.
Proof.
  intros Hh. revert m. induction Hh as [|kv hs Hkv _ IH]; intros m; [done|]. cbn [fmap list_fmap fold_left].
  rewrite IH. f_equal. unfold add_header. rewrite split_field by done.
  rewrite trim_trimmed by (by apply fo_key). by rewrite trim_leading_space by (by apply fo_value).
Qed.

Lemma NoDup_keys r : reply_ok r -> NoDup (fields r).*1.
Proof.
  intros Hr. apply (NoDup_fmap_1 (fun k : text => to_ascii_lower <$> k)).
  rewrite <- list_fmap_compose. exact (ro_keys r Hr).
Qed.

Lemma parse_fields r : reply_ok r -> parse_headers (field_line <$> fields r) = list_to_map (fields r).
Proof.
  intros Hr. unfold parse_headers. rewrite fold_add_header by (by apply ro_fields).
  pose proof (NoDup_keys r Hr) as Hnd. 
  rewrite <- (fold_left_rev_right (fun (kv : text * text) (m : gmap text text) => <[kv.1 := kv.2]> m)).
  transitivity (list_to_map (M := gmap text text) (rev (fields r))).
  - generalize (rev (fields r)). intros l. induction l as [|[k v] l IH]; [done|]. cbn. by rewrite IH.
  - assert (rev (fields r) ≡ₚ fields r) as Hp by (symmetry; apply Permutation_rev).
    apply list_to_map_proper; [|done]. by rewrite Hp.
Qed.

(** Two fields of a reply with the same name up to case are the same. *)
Lemma field_unique r kv kv' :
  reply_ok r -> kv ∈ fields r -> kv' ∈ fields r ->
  is_length_field kv = true -> is_length_field kv' = true -> kv = kv'.
Proof.
  intros Hr Hin Hin' Hl Hl'. unfold is_length_field, eq_ignore_ascii_case in *.
  apply bool_decide_eq_true in Hl, Hl'. pose proof (ro_keys r Hr) as Hnd.
  apply list_elem_of_lookup_1 in Hin as [i Hi], Hin' as [j Hj].
  assert (i = j) as ->; [|congruence].
  eapply (NoDup_lookup _ i j (lower_key kv) Hnd); rewrite list_lookup_fmap; [by rewrite Hi|rewrite Hj].
  cbn. unfold lower_key. congruence.
Qed.

(** ** The printed head *)

Lemma with_crlf_snoc ls l : with_crlf (ls ++ [l]) = (with_crlf ls ++ l) ++ CRLF.
Proof. unfold with_crlf. rewrite fmap_app, concat_app. cbn. by rewrite app_nil_r, app_assoc. Qed.

Lemma utf8_with_crlf ls :
  utf8_encode (with_crlf ls) = concat ((fun l => l ++ CRLF) <$> (utf8_encode <$> ls)).
Proof.
  unfold with_crlf. induction ls as [|l ls IH]; [done|]. cbn [fmap list_fmap concat].
  rewrite !utf8_encode_app. by f_equal.
Qed.

Section Head.
Context (r : Reply) (r_ok : reply_ok r).

Lemma decimal_code : Forall is_digit (decimal (code r)).
Proof. pose proof (ro_code r r_ok). apply decimal_spec. lia. Qed.

Lemma head_lines_ok :
  Forall (fun l => Forall is_scalar l /\ no_break l /\ l <> []) (head_lines r).
Proof.
  pose proof decimal_code as Hd. destruct (ro_reason r r_ok) as [Hs [Hcr Hlf]].
  unfold head_lines. constructor.
  - unfold status_line. split; [|split; [|done]].
    + rewrite !Forall_app. split_and!; [by apply scalar_lit| |by apply scalar_lit|done].
      by apply is_digit_scalar.
    + split; rewrite !not_elem_of_app; split_and!; auto;
        try (apply (is_digit_not _ _ Hd); unfold CR, LF; lia); by apply not_in_lit.
  - apply Forall_fmap. eapply Forall_impl; [apply (ro_fields r r_ok)|]. intros kv Hkv. cbn.
    split; [by apply fo_scalars|]. split; [by apply fo_no_break|]. unfold field_line. by destruct kv.1.
Qed.

Lemma plain_head : Forall plain_line (utf8_encode <$> head_lines r).
Proof.
  apply Forall_fmap. eapply Forall_impl; [apply head_lines_ok|]. intros l (Hs & [Hcr Hlf] & Hne). cbn.
  split; [|split; by apply utf8_no_ascii].
  destruct l as [|c l]; [done|]. rewrite utf8_encode_cons. apply Forall_cons in Hs as [Hc _].
  pose proof (utf8_char_length c Hc). by destruct (utf8_char c); [simpl in *; lia|].
Qed.

Lemma head_no_break : Forall no_break (head_lines r).
Proof. eapply Forall_impl; [apply head_lines_ok|]. by intros l (_ & ? & _). Qed.

(** The text of the head without its last line end. *)
Lemma head_split :
  exists h, with_crlf (head_lines r) = h ++ CRLF /\ Forall is_scalar h /\ lines h = head_lines r.
Proof.
  pose proof head_lines_ok as Hok.
  destruct (exists_last (l := head_lines r)) as (ls & l & Heq); [done|]. rewrite Heq in *.
  exists (with_crlf ls ++ l). split; [apply with_crlf_snoc|].
  apply Forall_app in Hok as [Hls Hl]. apply Forall_singleton in Hl as (Hsl & Hnl & Hne). split.
  - apply Forall_app. split; [|done]. unfold with_crlf. apply Forall_concat, Forall_fmap.
    eapply Forall_impl; [exact Hls|]. intros x (Hx & _). cbn. apply Forall_app. split; [done|].
    unfold CRLF, CR, LF, is_scalar. rewrite !Forall_cons. split_and!; try lia. constructor.
  - apply lines_joined; [|done|done]. eapply Forall_impl; [exact Hls|]. by intros x (_ & ? & _).
Qed.

(** The printed response: head, blank line, body. *)
Lemma render_split rest :
  exists h, with_crlf (head_lines r) = h ++ CRLF /\ Forall is_scalar h /\ lines h = head_lines r
    /\ render r ++ rest = utf8_encode h ++ HEAD_END ++ payload r ++ rest
    /\ find_sub HEAD_END (render r ++ rest) = Some (length (utf8_encode h)).
Proof.
  destruct head_split as (h & Hh & Hs & Hl). exists h. split_and!; try done.
  - unfold render. rewrite Hh, !utf8_encode_app. by rewrite <- !app_assoc.
  - unfold render. rewrite utf8_encode_app, utf8_with_crlf, <- !app_assoc.
    change (utf8_encode CRLF) with CRLF. rewrite find_head_end; [|done|apply plain_head].
    rewrite <- utf8_with_crlf, Hh, utf8_encode_app, length_app. cbn. f_equal. lia.
Qed.

Lemma parse_status : parse_status_line (status_line r) = Ok (code r, reason r).
Proof.
  unfold parse_status_line, status_line.
  change (lit "RTSP/1.0 " ++ ?t) with (lit "RTSP/1.0" ++ SP :: t).
  rewrite split_once_here by (by apply not_in_lit).
  change (starts_with (lit "RTSP/") (lit "RTSP/1.0")) with true. cbn [negb].
  change (lit " " ++ ?t) with (SP :: t).
  rewrite split_once_here by (apply (is_digit_not _ _ decimal_code); unfold SP; lia).
  cbn [default from_option id]. rewrite parse_decimal by apply (ro_code r r_ok). done.
Qed.

(** The length the readers look for. *)
Lemma status_no_length : line_length (status_line r) = None.
Proof.
  unfold line_length. destruct (split_once 58 (status_line r)) as [[key value]|] eqn:E; [|done].
  assert (exists k, key = 82 :: k) as [k ->].
  { unfold status_line in E. change (lit "RTSP/1.0 " ++ ?t) with (82 :: lit "TSP/1.0 " ++ t) in E.
    cbn [split_once] in E. change (82 =? 58) with false in E. cbn iota in E.
    destruct (split_once 58 _) as [[a b]|]; [|done]. injection E as <- _. by exists a. }
  assert (exists t, trim (82 :: k) = 82 :: t) as [t ->].
  { unfold trim. change (trim_start (82 :: k)) with (82 :: k). cbn [rev].
    assert (forall l, exists t, trim_start (l ++ [82]) = t ++ [82]) as Ht.
    { induction l as [|c l [t IH]]; [by exists []|]. cbn [app trim_start].
      destruct (is_whitespace c); [by exists t|]. by exists (c :: l). }
    destruct (Ht (rev k)) as [t ->]. exists (rev t). by rewrite rev_app_distr. }
  unfold eq_ignore_ascii_case. rewrite bool_decide_false; [done|]. by intros [=].
Qed.

Lemma field_length_value kv :
  kv ∈ fields r ->
  line_length (field_line kv)
  = if is_length_field kv then Some (Z.of_nat (length (payload r))) else None.
Proof.
  intros Hin. pose proof (ro_fields r r_ok) as Hf. rewrite Forall_forall in Hf. specialize (Hf kv Hin).
  unfold line_length. rewrite split_field by done. rewrite trim_trimmed by (by apply fo_key).
  change (eq_ignore_ascii_case kv.1 (lit "Content-Length")) with (is_length_field kv).
  destruct (is_length_field kv) eqn:El; [|done].
  rewrite trim_leading_space by (by apply fo_value). rewrite (ro_length r r_ok kv Hin El).
  apply parse_decimal. pose proof (ro_size r r_ok) as Hsz. unfold render in Hsz.
  rewrite length_app in Hsz. unfold usize_max. lia.
Qed.

Lemma announced_head tail :
  Forall (fun l => line_length l = None) tail ->
  announced_length (head_lines r ++ tail) = Z.of_nat (length (payload r)).
Proof.
  intros Ht. unfold head_lines. cbn [app announced_length]. rewrite status_no_length.
  assert (announced_length tail = 0) as H0.
  { induction Ht as [|l tail Hl _ IH]; [done|]. cbn. by rewrite Hl. }
  assert (forall hs, (forall kv, kv ∈ hs -> kv ∈ fields r) ->
            announced_length ((field_line <$> hs) ++ tail)
            = if existsb is_length_field hs then Z.of_nat (length (payload r)) else 0) as Hgen.
  { induction hs as [|kv hs IH]; intros Hin; [done|]. cbn [fmap list_fmap app announced_length existsb].
    rewrite field_length_value by set_solver. destruct (is_length_field kv); [done|]. apply IH. set_solver. }
  rewrite Hgen by done. destruct (existsb is_length_field (fields r)) eqn:E; [done|].
  destruct (decide (payload r = [])) as [->|Hp]; [done|].
  destruct (ro_announced r r_ok Hp) as (kv & Hin & Hl). apply Bool.not_true_iff_false in E. exfalso. apply E.
  apply existsb_exists. exists kv. by rewrite <- list_elem_of_In.
Qed.
End Head.

Section Parser.
Context (iter : gmap text text -> list (text * text)).
(** A [HashMap] is iterated over in some order, each entry once. *)
Hypothesis iter_entries : forall m, iter m ≡ₚ map_to_list m.

Lemma iter_fields r kv :
  reply_ok r -> kv ∈ iter (list_to_map (fields r)) <-> kv ∈ fields r.
Proof.
  intros Hr. rewrite iter_entries, map_to_list_to_map by (by apply NoDup_keys). done.
Qed.

Lemma body_length_announced r :
  reply_ok r -> body_length iter (list_to_map (fields r)) = Z.of_nat (length (payload r)).
Proof.
  intros Hr. unfold body_length, find_header.
  assert (0 <= Z.of_nat (length (payload r)) <= usize_max) as Hb.
  { pose proof (ro_size r Hr) as Hs. unfold render in Hs. rewrite length_app in Hs. unfold usize_max. lia. }
  destruct (find_first is_length_field (fields r)) as [kv|] eqn:Ef.
  - assert (kv ∈ fields r /\ is_length_field kv = true) as [Hin Hl].
    { clear -Ef. induction (fields r) as [|x l IH]; [done|]. cbn in Ef. destruct (is_length_field x) eqn:E.
      - injection Ef as <-. split; [set_solver|done].
      - destruct (IH Ef). split; [set_solver|done]. }
    rewrite (find_first_unique is_length_field _ kv); [|by apply iter_fields|done|].
    + cbn. rewrite (ro_length r Hr kv Hin Hl), parse_decimal by done. done.
    + intros y Hy Hly. apply iter_fields in Hy; [|done]. by apply (field_unique r).
  - assert (forall y, y ∈ fields r -> is_length_field y = false) as Hno.
    { clear -Ef. induction (fields r) as [|x l IH]; intros y Hy; [by apply elem_of_nil in Hy|].
      cbn in Ef. destruct (is_length_field x) eqn:E; [done|].
      apply elem_of_cons in Hy as [->|Hy]; auto. }
    rewrite (find_first_none is_length_field); [|intros y Hy; apply Hno; by apply iter_fields in Hy].
    cbn. destruct (decide (payload r = [])) as [->|Hp]; [done|].
    destruct (ro_announced r Hr Hp) as (kv & Hin & Hl). rewrite Hno in Hl by done. done.
Qed.

(** The response a printed reply stands for. *)
Definition meaning (r : Reply) : RtspResponse :=
  {| status_code := code r; status_text := reason r; rs_headers := list_to_map (fields r);
     rs_body := match payload r with [] => None | body => Some body end |}.

Lemma parse_rendered r rest : reply_ok r -> parse_response iter (render r ++ rest) = Ok (meaning r).
Proof.
  intros Hr. destruct (render_split r Hr rest) as (h & Hh & Hs & Hl & Hd & Hf).
  unfold parse_response. rewrite Hf. rewrite Hd at 1. rewrite take_app_length, from_utf8_encode, Hl by done.
  cbn [head_lines]. rewrite parse_status by done. cbn [result_bind].
  rewrite parse_fields, body_length_announced by done. unfold parse_body, meaning.
  destruct (payload r) as [|b body] eqn:Ep; [done|].
  destruct (Z.ltb_spec 0 (Z.of_nat (length (b :: body)))) as [_|Hx]; [|simpl in Hx; lia].
  assert (length (render r ++ rest)
          = length (utf8_encode h) + 4 + length (b :: body) + length rest)%nat as Hlen.
  { rewrite Hd, !length_app. change (length HEAD_END) with 4%nat. lia. }
  pose proof (ro_size r Hr) as Hsz. rewrite length_app in Hlen.
  rewrite wrap_id by (unfold in_width; lia).
  rewrite length_app.
  destruct (Z.leb_spec (Z.of_nat (length (utf8_encode h) + 4) + Z.of_nat (length (b :: body)))
              (Z.of_nat (length (render r) + length rest))); [|lia].
  destruct (Z.ltb_spec (Z.of_nat (length (utf8_encode h) + 4) + Z.of_nat (length (b :: body)))
              (Z.of_nat (length (utf8_encode h) + 4))); [lia|].
  cbn [result_bind fst snd]. do 3 f_equal.
  rewrite Hd, app_assoc.
  rewrite (slice_skip _ _ (length (utf8_encode h) + 4)) by (rewrite ?length_app; done || lia).
  rewrite Nat.sub_diag. apply slice_here. lia.
Qed.

(** Whatever response a device prints, with any status, reason, header
    fields and body, the parser returns exactly that status, those fields and that
    body, whatever follows it in the buffer and in whatever order the header map
    is searched. *)
Theorem response_roundtrip r rest :
  reply_ok r -> parse_response iter (render r ++ rest) = Ok (meaning r).
Proof. apply parse_rendered. Qed.

(** ** Reading in clear *)

Lemma split_line_here x y : LF ∉ x -> split_line (x ++ LF :: y) = Some (x ++ [LF], y).
Proof.
  induction x as [|b x IH]; intros Hx; cbn.
  - done.
  - apply not_elem_of_cons in Hx as [Hb Hx]. destruct (Z.eqb_spec b LF); [done|]. by rewrite IH.
Qed.

Lemma read_head_lines ls fuel acc rest c :
  Forall (fun l => Forall is_scalar l /\ no_break l /\ l <> []) ls -> (length ls < fuel)%nat ->
  read_head fuel acc {| bytes := utf8_encode (with_crlf ls) ++ CRLF ++ rest; closed := c |}
  = Some (Ok (acc ++ utf8_encode (with_crlf ls) ++ CRLF, rest)).
Proof.
  intros Hls. revert fuel acc. induction Hls as [|l ls (Hs & [Hcr Hlf] & Hne) _ IH]; intros fuel acc Hf;
    (destruct fuel as [|fuel]; [simpl in Hf; lia|]).
  - done.
  - unfold with_crlf in *. cbn [fmap list_fmap concat] in *. rewrite !utf8_encode_app, <- !app_assoc.
    change (utf8_encode CRLF) with ([CR] ++ [LF]). cbn [read_head]. unfold read_line. cbn [bytes].
    assert (utf8_encode l ++ ([CR] ++ [LF]) ++ utf8_encode (concat ((λ l, l ++ CRLF) <$> ls)) ++ CRLF ++ rest
            = (utf8_encode l ++ [CR]) ++ LF :: utf8_encode (concat ((λ l, l ++ CRLF) <$> ls)) ++ CRLF ++ rest)
      as -> by (by rewrite <- !app_assoc).
    rewrite split_line_here by (apply not_elem_of_app; split; [by apply utf8_no_ascii|set_solver]).
    assert ((utf8_encode l ++ [CR]) ++ [LF] = utf8_encode (l ++ CRLF)) as ->.
    { rewrite utf8_encode_app, <- app_assoc. done. }
    rewrite from_utf8_encode.
    2: { apply Forall_app. split; [done|]. unfold CRLF, CR, LF, is_scalar. rewrite !Forall_cons.
         split_and!; try lia. constructor. }
    rewrite bool_decide_false.
    2: { intros Hx. apply (f_equal length) in Hx. rewrite utf8_encode_app, length_app in Hx.
         destruct l as [|b l]; [done|]. apply Forall_cons in Hs as [Hb _].
         rewrite utf8_encode_cons, length_app in Hx. pose proof (utf8_char_length b Hb).
         change (length (utf8_encode CRLF)) with 2%nat in Hx. change (length CRLF) with 2%nat in Hx. lia. }
    cbn [closed]. rewrite IH by (simpl in Hf; lia). do 3 f_equal.
    rewrite utf8_encode_app, <- !app_assoc. done.
Qed.

Lemma line_count r rest : reply_ok r -> (length (head_lines r) < S (length (render r ++ rest)))%nat.
Proof.
  intros Hr. unfold render. rewrite utf8_encode_app, utf8_with_crlf, !length_app.
  assert (forall ls : list text,
            length ls <= length (concat ((fun l => l ++ CRLF) <$> (utf8_encode <$> ls))))%nat as Hle.
  { induction ls as [|l ls IH]; [done|]. cbn [fmap list_fmap concat length]. rewrite !length_app.
    change (length CRLF) with 2%nat. lia. }
  specialize (Hle (head_lines r)). lia.
Qed.

Lemma read_plain r rest c :
  reply_ok r -> read_plaintext_response {| bytes := render r ++ rest; closed := c |} = Ok (render r).
Proof.
  intros Hr. unfold read_plaintext_response. cbn [bytes].
  assert (render r ++ rest = utf8_encode (with_crlf (head_lines r)) ++ CRLF ++ payload r ++ rest) as Hd.
  { unfold render. rewrite utf8_encode_app, <- !app_assoc. done. }
  rewrite Hd at 2. rewrite read_head_lines by (apply head_lines_ok || apply line_count; done).
  cbn [app].
  assert (lines (from_utf8_lossy (utf8_encode (with_crlf (head_lines r)) ++ CRLF)) = head_lines r ++ [[]]) as ->.
  { change CRLF with (utf8_encode CRLF). rewrite <- utf8_encode_app.
    destruct (head_split r Hr) as (h & Hh & Hs & _). rewrite from_utf8_lossy_encode.
    - change (with_crlf (head_lines r) ++ CRLF) with (with_crlf (head_lines r) ++ [] ++ CRLF).
      rewrite app_assoc, <- with_crlf_snoc. apply lines_crlf. apply Forall_app.
      split; [by apply head_no_break|]. constructor; [split; apply not_elem_of_nil|constructor].
    - rewrite Hh. rewrite !Forall_app. unfold CRLF, CR, LF, is_scalar.
      split_and!; [done| |]; rewrite !Forall_cons; split_and!; try lia; constructor. }
  rewrite announced_head; [|done|by constructor].
  pose proof (ro_size r Hr) as Hsz. unfold render in Hsz. rewrite length_app in Hsz.
  destruct (Z.ltb_spec (2 ^ 63 - 1) (Z.of_nat (length (payload r)))); [lia|].
  assert (render r = (utf8_encode (with_crlf (head_lines r)) ++ CRLF) ++ payload r) as Hren.
  { unfold render. by rewrite utf8_encode_app. }
  destruct (Z.ltb_spec 0 (Z.of_nat (length (payload r)))) as [_|Hz].
  - rewrite length_app. destruct (Z.ltb_spec (Z.of_nat (length (payload r) + length rest))
      (Z.of_nat (length (payload r)))); [lia|].
    rewrite Nat2Z.id, take_app_length. by rewrite Hren.
  - assert (payload r = []) as Hp by (destruct (payload r); [done|simpl in Hz; lia]).
    rewrite Hp, app_nil_r in Hren. by rewrite Hren.
Qed.

(** ** Reading through the cipher *)

Lemma complete_prefix r rest p q :
  reply_ok r -> p ++ q = render r ++ rest ->
  complete_response p
  = if (length (render r) <=? length p)%nat then Some (render r) else None.
Proof.
  intros Hr Hpq. destruct (render_split r Hr rest) as (h & Hh & Hs & Hl & Hd & Hf).
  assert (length (render r) = length (utf8_encode h) + 4 + length (payload r))%nat as Hlen.
  { apply (f_equal length) in Hd. rewrite !length_app in Hd. change (length HEAD_END) with 4%nat in Hd. lia. }
  unfold complete_response. destruct (find_sub HEAD_END p) as [e|] eqn:Ef.
  - pose proof (find_sub_length _ _ _ Ef) as He. apply (find_sub_app _ _ q) in Ef as Ef'.
    rewrite Hpq, Hf in Ef'. injection Ef' as <-.
    assert (take (length (utf8_encode h)) p = utf8_encode h) as ->.
    { rewrite <- (take_app_le p q) by lia. by rewrite Hpq, Hd, take_app_length. }
    rewrite from_utf8_lossy_encode, Hl by done. rewrite <- (app_nil_r (head_lines r)).
    rewrite announced_head by done. pose proof (ro_size r Hr).
    rewrite wrap_id by (unfold in_width; lia).
    destruct (Nat.leb_spec (length (render r)) (length p)), (Z.leb_spec
      (Z.of_nat (length (utf8_encode h)) + 4 + Z.of_nat (length (payload r))) (Z.of_nat (length p))); try lia; [|done].
    replace (Z.to_nat _) with (length (render r)) by lia. f_equal.
    rewrite <- (take_app_le p q) by lia. by rewrite Hpq, take_app_length.
  - destruct (Nat.leb_spec (length (render r)) (length p)) as [Hle|]; [|done].
    assert (p = render r ++ drop (length (render r)) p) as Hp.
    { rewrite <- (take_drop (length (render r)) p) at 1. f_equal.
      rewrite <- (take_app_le p q) by lia. by rewrite Hpq, take_app_length. }
    destruct (render_split r Hr (drop (length (render r)) p)) as (h' & _ & _ & _ & _ & Hf').
    rewrite <- Hp in Hf'. congruence.
Qed.

Section Encrypted.
Context `{Aead}.

Lemma read_blocks_reply r k acc ms s n' rest fuel cl :
  reply_ok r -> sealed_stream (read_key k) (decrypt_counter k) ms s n' ->
  Forall (fun m => m <> []) ms -> ms <> [] -> acc ++ concat ms = render r ->
  (length s < fuel)%nat ->
  read_blocks fuel k acc {| bytes := s ++ rest; closed := cl |}
  = (k <| decrypt_counter := n' |>, Ok (render r)).
Proof.
  intros Hr Hs. remember (read_key k) as key eqn:Hk. remember (decrypt_counter k) as n eqn:Hn.
  revert k acc fuel Hk Hn. induction Hs as [|n m b ms s n' Hm Hb Hs IH];
    intros k acc fuel -> -> Hne Hms Hacc Hf; [done|].
  apply Forall_cons in Hne as [Hm0 Hne]. pose proof (seal_length _ _ _ _ _ Hb) as Hl.
  destruct fuel as [|fuel]; [lia|]. pose proof (le_prefix m Hm) as Hp.
  unfold block_aad in *. cbn [to_le_bytes app read_blocks bytes] in *. rewrite Hp.
  assert (Z.to_nat (Z.of_nat (length m) + 16) = length b) as -> by lia.
  rewrite <- app_assoc. destruct (Nat.ltb_spec (length (b ++ s ++ rest)) (length b)) as [Hx|_];
    [rewrite length_app in Hx; lia|].
  rewrite take_app_length, drop_app_length, (decrypt_block_step k m b) by done.
  cbn [concat] in Hacc. rewrite app_assoc in Hacc.
  rewrite (complete_prefix r [] (acc ++ m) (concat ms)) by (done || by rewrite app_nil_r).
  destruct ms as [|m' ms].
  - cbn in Hacc. rewrite app_nil_r in Hacc. rewrite Hacc, Nat.leb_refl. inversion Hs; subst. done.
  - assert (length (acc ++ m) < length (render r))%nat as Hlt.
    { rewrite <- Hacc, (length_app (acc ++ m)). apply Forall_cons in Hne as [Hm' _].
      destruct m'; [done|]. cbn [concat app length]. lia. }
    destruct (Nat.leb_spec (length (render r)) (length (acc ++ m))); [lia|].
    cbn [closed]. rewrite IH; try done. cbn [length] in Hf. rewrite length_app in Hf. lia.
Qed.

Lemma render_nonempty r : render r <> [].
Proof. unfold render, head_lines, status_line. cbn. discriminate. Qed.

(** The two ends of a channel. *)
Definition in_step (a b : ControlCipher) : Prop :=
  write_key a = read_key b /\ read_key a = write_key b
  /\ encrypt_counter a = decrypt_counter b /\ decrypt_counter a = encrypt_counter b.

(** C26: Over an encrypted connection an exchange is exact in both directions:
    the device decrypts precisely the serialised request, numbered one higher than
    the last, and when it prints a well-formed response (distinct, trimmed
    header fields, the length of a body announced), cuts it in any way into
    nonempty blocks of fewer than 2^16 bytes and seals them in the order of its
    counter, [send] returns that response, whatever arrives behind it.
    Afterwards both ciphers are in step for the next exchange. *)
Theorem encrypted_exchange_exact c k device req k1 wire r ms n' s rest cl :
  connected c = true -> cipher c = Some k -> in_step k device -> reply_ok r ->
  let n := wrap 32 (cseq c + 1) in
  let data := serialize (add_session c req) n in
  encrypt k data = (k1, Ok wire) ->
  let device1 := device <| decrypt_counter := encrypt_counter k1 |> in
  concat ms = render r -> Forall (fun m => m <> []) ms ->
  sealed_stream (write_key device1) (encrypt_counter device1) ms s n' ->
  decrypt device wire = (device1, Ok data)
  /\ exists k2,
       send iter c req true {| bytes := s ++ rest; closed := cl |}
       = (c <| cseq := n |> <| cipher := Some k2 |>, wire, Ok (meaning r))
       /\ in_step k2 (device1 <| encrypt_counter := n' |>).
Proof.
  intros Hc Hk (K1 & K2 & K3 & K4) Hr n data He device1 Hms' Hb' Hst'.
  pose proof (encrypt_exact _ _ _ _ He) as (ps & Hps & Hlen & _ & Hst & Hk1).
  split.
  { rewrite <- Hps. apply decrypt_counter_exact; [done|]. by rewrite <- K1, <- K3. }
  assert (ms <> []) as Hne.
  { intros ->. symmetry in Hms'. cbn in Hms'. by apply render_nonempty in Hms'. }
  exists (k1 <| decrypt_counter := n' |>). split.
  - unfold send. rewrite Hc. cbn [negb]. unfold next_cseq. change (cipher (c <| cseq := _ |>)) with (cipher c). rewrite Hk.
    fold n. fold data. rewrite He. unfold read_encrypted_response. cbn [bytes].
    rewrite (read_blocks_reply r k1 [] ms s n'); try done.
    + cbn [result_bind]. rewrite <- (app_nil_r (render r)) at 1. by rewrite parse_rendered.
    + rewrite Hk1. cbn. unfold device1 in Hst'. cbn in Hst'. by rewrite K2, K4.
    + rewrite length_app. lia.
  - rewrite Hk1. unfold in_step. cbn. by rewrite K1, K2.
Qed.
End Encrypted.

(** In clear, [send] writes the serialised request and returns the response
    the device printed, whatever follows it on the stream. *)
Theorem plain_exchange_exact `{Aead} c req r rest cl :
  connected c = true -> cipher c = None -> reply_ok r ->
  let n := wrap 32 (cseq c + 1) in
  send iter c req true {| bytes := render r ++ rest; closed := cl |}
  = (c <| cseq := n |>, serialize (add_session c req) n, Ok (meaning r)).
Proof.
  intros Hc Hk Hr n. unfold send. rewrite Hc. cbn [negb]. unfold next_cseq. change (cipher (c <| cseq := _ |>)) with (cipher c). rewrite Hk.
  cbn [negb]. rewrite read_plain by done. cbn [result_bind].
  rewrite <- (app_nil_r (render r)). by rewrite parse_rendered.
Qed.
End Parser.

(** ** The end of the stream *)

Lemma split_line_shorter bs l r : split_line bs = Some (l, r) -> (length r < length bs)%nat.
Proof.
  revert l r. induction bs as [|b bs IH]; intros l r Hs; [done|]. cbn in Hs.
  destruct (b =? LF); [injection Hs as <- <-; simpl; lia|].
  destruct (split_line bs) as [[l' r']|]; [|done]. injection Hs as <- <-.
  specialize (IH l' r' eq_refl). simpl. lia.
Qed.

Lemma read_head_spins fuel acc : read_head fuel acc {| bytes := []; closed := true |} = None.
Proof. revert acc. induction fuel as [|fuel IH]; intros acc; [done|]. cbn. apply IH. Qed.

(** The header loop has no end-of-stream case: if the peer closes the
    connection before the blank line, the loop does not end in any number of
    rounds; the call ends only when the ten-second timeout strikes, and reports a
    timeout. *)
Theorem head_reader_never_sees_eof i acc :
  closed i = true -> read_head (S (length (bytes i))) acc i = None ->
  (forall fuel, read_head fuel acc i = None)
  /\ (acc = [] -> read_plaintext_response i = Err Timeout).
Proof.
  intros Hc Hn. split; [|intros ->; unfold read_plaintext_response; by rewrite Hn].
  destruct i as [bs cl]. cbn [closed bytes] in *. subst cl.
  remember (S (length bs)) as m eqn:Hm. assert (length bs < m)%nat as Hlt by lia. clear Hm.
  intros fuel. revert bs acc m Hn Hlt. induction fuel as [|fuel IH]; intros bs acc m Hn Hlt; [done|].
  destruct m as [|m]; [lia|]. cbn [read_head] in *. unfold read_line in *. cbn [bytes closed] in *.
  destruct (split_line bs) as [[l rest]|] eqn:Es.
  - destruct (from_utf8 l); [|done]. case_bool_decide; [done|].
    apply (IH rest (acc ++ l) m Hn). pose proof (split_line_shorter _ _ _ Es). lia.
  - destruct (from_utf8 bs); [|done]. case_bool_decide; [done|]. apply read_head_spins.
Qed.

(** ** Witnesses *)

Definition ex_reply : Reply :=
  {| code := 200; reason := lit "OK";
     fields := [(lit "CSeq", lit "1"); (lit "Content-Length", lit "3")]; payload := [7; 8; 9] |}.

Lemma ex_reply_ok : reply_ok ex_reply.
Proof.
  assert (forall kv, kv ∈ fields ex_reply ->
            kv = (lit "CSeq", lit "1") \/ kv = (lit "Content-Length", lit "3")) as Hcases.
  { intros kv Hin. cbn [ex_reply fields] in Hin. rewrite !elem_of_cons, elem_of_nil in Hin. tauto. }
  split.
  - cbn. unfold u16_max. lia.
  - split; [by apply scalar_lit|]. split; by apply not_in_lit.
  - apply Forall_forall. intros kv Hin. destruct (Hcases kv Hin) as [-> | ->]; split;
      try (by apply (scalar_lit "CSeq: 1")); try (by apply (scalar_lit "Content-Length: 3"));
      try (split; by apply (not_in_lit _ "CSeq: 1")); try (split; by apply (not_in_lit _ "Content-Length: 3"));
      try (by apply not_in_lit); by split.
  - cbn. apply (bool_decide_unpack _). vm_compute. exact I.
  - intros kv Hin Hl. destruct (Hcases kv Hin) as [-> | ->]; [by vm_compute in Hl|]. reflexivity.
  - intros _. exists (lit "Content-Length", lit "3"). split; [|reflexivity]. cbn. set_solver.
  - vm_compute. reflexivity.
Qed.

Definition ex_connection : RtspConnection :=
  new_connection <| connected := true |> <| cipher := Some (new_cipher [1] [2]) |>.

Lemma response_roundtrip_witness :
  parse_response map_to_list (render ex_reply ++ [1; 2]) = Ok (meaning ex_reply).
Proof. apply (response_roundtrip map_to_list); [intros m; reflexivity|apply ex_reply_ok]. Defined.

Lemma plain_exchange_exact_witness :
  @send map_to_list toy_aead (ex_connection <| cipher := None |>) options true
    {| bytes := render ex_reply ++ []; closed := true |}
  = (ex_connection <| cipher := None |> <| cseq := 1 |>,
     serialize (add_session (ex_connection <| cipher := None |>) options) 1, Ok (meaning ex_reply)).
Proof.
  apply (@plain_exchange_exact map_to_list); [intros m; reflexivity|reflexivity|reflexivity|apply ex_reply_ok].
Defined.

(** The reply cut after its tenth byte, where [encrypt] would not cut it. *)
Definition ex_cut : list (list Z) := [take 10 (render ex_reply); drop 10 (render ex_reply)].

Lemma encrypted_exchange_exact_witness :
  exists k1 wire s n' k2,
    @encrypt toy_aead (new_cipher [1] [2]) (serialize (add_session ex_connection options) 1) = (k1, Ok wire)
    /\ @sealed_stream toy_aead [2] 0 ex_cut s n'
    /\ @send map_to_list toy_aead ex_connection options true {| bytes := s ++ []; closed := false |}
       = (ex_connection <| cseq := 1 |> <| cipher := Some k2 |>, wire, Ok (meaning ex_reply))
    /\ in_step k2 ((new_cipher [2] [1]) <| decrypt_counter := encrypt_counter k1 |>
                     <| encrypt_counter := n' |>).
Proof.
  destruct (@encrypt toy_aead (new_cipher [1] [2]) (serialize (add_session ex_connection options) 1))
    as [k1 [wire|e]] eqn:E1; [|exfalso; vm_compute in E1; discriminate E1].
  assert (exists s n', @sealed_stream toy_aead [2] 0 ex_cut s n') as (s & n' & Hs).
  { unfold ex_cut. do 2 eexists. apply sealed_block; [reflexivity|vm_compute; reflexivity|].
    apply sealed_block; [reflexivity|vm_compute; reflexivity|]. apply sealed_nil. }
  destruct (@encrypted_exchange_exact map_to_list ltac:(intros m; reflexivity) toy_aead ex_connection
              (new_cipher [1] [2]) (new_cipher [2] [1]) options k1 wire ex_reply ex_cut n' s [] false)
    as [_ (k2 & Hsend & Hin)].
  - reflexivity.
  - reflexivity.
  - repeat split.
  - apply ex_reply_ok.
  - exact E1.
  - unfold ex_cut. cbn [concat]. by rewrite app_nil_r, take_drop.
  - repeat constructor; vm_compute; discriminate.
  - exact Hs.
  - exists k1, wire, s, n', k2. auto.
Defined.

Lemma head_reader_never_sees_eof_witness :
  read_plaintext_response {| bytes := lit "RTSP/1.0 200 OK"; closed := true |} = Err Timeout.
Proof.
  apply (head_reader_never_sees_eof {| bytes := lit "RTSP/1.0 200 OK"; closed := true |} []);
    [reflexivity|vm_compute; reflexivity|reflexivity].
Defined.

(** A length field near the top of the address space makes the parser
    panic: the end of the body wraps around and lies before its start. *)
Example oversized_length_panics :
  parse_response map_to_list
    (utf8_encode (lit "RTSP/1.0 200 OK" ++ CRLF ++ lit "Content-Length: 18446744073709551600" ++ CRLF ++ CRLF))
  = Err Panicked.
Proof. vm_compute. reflexivity. Qed.
End RtspProps.
