(* ===== verification/RtspSession.v ===== *)
(** * RTSP sessions ([airplay-rtsp/src/session.rs], [raop_session.rs], [sdp.rs])

    The AirPlay 2 session (two-phase SETUP with property-list bodies) and the
    RAOP session (ANNOUNCE with an SDP body, SETUP with a Transport header) as
    state machines.  The property-list codec and base64 are third-party: their
    results are parameters. *)

From S2P Require Import Prelude Wire Text Rtsp.

Module RtspSession.

Inductive Failure := WrongState | BadBody | NoMatchingStream | NotConnected | AlreadyTearingDown.

(** [request_uri] of both sessions: an IPv6 literal gets brackets. *)
Definition uri_host (host : option text) : text :=
  let host := default (lit "local") host in
  if bool_decide (58 ∈ host) && negb (starts_with (lit "[") host)
  then lit "[" ++ host ++ lit "]" else host.
Definition session_uri (host : option text) (id : text) : text :=
  lit "rtsp://" ++ uri_host host ++ lit "/" ++ id.

(** ** AirPlay 2 *)

Inductive SessionState :=
| Disconnected | Connected | Paired | SetupPhase1 | Ready | Playing | Paused | TearingDown.
#[export] Instance SessionState_eq_dec : EqDecision SessionState.
Proof. solve_decision. Defined.

Record SessionPorts := {
  data_port : Z;
  control_port : Z;
  timing_port : Z;
  event_port : Z;
}.

(** Bodies of the two SETUP responses, as [plist_codec::decode] returns them. *)
Record Phase1Body := { p1_timing_port : Z; p1_event_port : Z }.
Record StreamEntry := { se_type : Z; se_data_port : Z; se_control_port : Z }.

Record RtspSession := {
  state : SessionState;
  ports : option SessionPorts;
  stream_type : Z;
}.
#[export] Instance eta_RtspSession : Eta RtspSession := fun s =>
  {| state := state s; ports := ports s; stream_type := stream_type s |}.

Definition new_session (stream_type : Z) : RtspSession :=
  {| state := Disconnected; ports := None; stream_type := stream_type |}.

(** Every transition is a guard on the state followed by an assignment; a
    refused call changes nothing. *)
Definition guarded (ok : bool) (s s' : RtspSession) : RtspSession * Result unit Failure :=
  if ok then (s', Ok tt) else (s, Err WrongState).

Definition set_connected (s : RtspSession) : RtspSession * Result unit Failure :=
  guarded (bool_decide (state s = Disconnected)) s (s <| state := Connected |>).
Definition set_paired (s : RtspSession) : RtspSession * Result unit Failure :=
  guarded (bool_decide (state s = Connected)) s (s <| state := Paired |>).

Definition process_setup_phase1_response (s : RtspSession) (body : option Phase1Body)
  : RtspSession * Result unit Failure :=
  if negb (bool_decide (state s = Paired)) then (s, Err WrongState)
  else
    match body with
    | None => (s, Err BadBody)
    | Some b =>
        (s <| ports := Some {| data_port := 0; control_port := 0; timing_port := p1_timing_port b;
                               event_port := p1_event_port b |} |>
           <| state := SetupPhase1 |>, Ok tt)
    end.

(** [build_setup_phase2] refuses outside phase 1; otherwise it only encodes. *)
Definition may_build_phase2 (s : RtspSession) : bool := bool_decide (state s = SetupPhase1).

Definition process_setup_phase2_response (s : RtspSession) (body : option (list StreamEntry))
  : RtspSession * Result unit Failure :=
  if negb (bool_decide (state s = SetupPhase1)) then (s, Err WrongState)
  else
    match body with
    | None => (s, Err BadBody)
    | Some streams =>
        match Rtsp.find_first (fun e => se_type e =? stream_type s) streams with
        | None => (s, Err NoMatchingStream)
        | Some e =>
            (s <| ports := (fun p => {| data_port := se_data_port e; control_port := se_control_port e;
                                        timing_port := timing_port p; event_port := event_port p |})
                             <$> ports s |>
               <| state := Ready |>, Ok tt)
        end
    end.

Definition start_playing (s : RtspSession) : RtspSession * Result unit Failure :=
  guarded (bool_decide (state s = Ready) || bool_decide (state s = Paused)) s
    (s <| state := Playing |>).
Definition pause (s : RtspSession) : RtspSession * Result unit Failure :=
  guarded (bool_decide (state s = Playing)) s (s <| state := Paused |>).
Definition start_teardown (s : RtspSession) : RtspSession * Result unit Failure :=
  match state s with
  | Disconnected => (s, Err NotConnected)
  | TearingDown => (s, Err AlreadyTearingDown)
  | _ => (s <| state := TearingDown |>, Ok tt)
  end.

Inductive Op :=
| OpConnected | OpPaired | OpPhase1 (b : option Phase1Body) | OpPhase2 (b : option (list StreamEntry))
| OpPlay | OpPause | OpTeardown.
Definition apply (s : RtspSession) (o : Op) : RtspSession * Result unit Failure :=
  match o with
  | OpConnected => set_connected s
  | OpPaired => set_paired s
  | OpPhase1 b => process_setup_phase1_response s b
  | OpPhase2 b => process_setup_phase2_response s b
  | OpPlay => start_playing s
  | OpPause => pause s
  | OpTeardown => start_teardown s
  end.
Definition run (s : RtspSession) (os : list Op) : RtspSession := fold_left (fun s o => fst (apply s o)) os s.

(** ** RAOP *)

Inductive RaopSessionState :=
| RDisconnected | RConnected | RAnnounced | RSetupComplete | RPlaying | RPaused | RTearingDown.
#[export] Instance RaopSessionState_eq_dec : EqDecision RaopSessionState.
Proof. solve_decision. Defined.

Record RaopPorts := { server_port : Z; r_control_port : Z; r_timing_port : Z }.
Record RaopSession := {
  r_state : RaopSessionState;
  r_ports : option RaopPorts;
  local_control_port : Z;
  local_timing_port : Z;
  stream_connection_id : Z;
}.
#[export] Instance eta_RaopSession : Eta RaopSession := fun s =>
  {| r_state := r_state s; r_ports := r_ports s; local_control_port := local_control_port s;
     local_timing_port := local_timing_port s; stream_connection_id := stream_connection_id s |}.

Definition build_transport_header (s : RaopSession) : text :=
  lit "RTP/AVP/UDP;unicast;interleaved=0-1;mode=record;control_port="
  ++ decimal (local_control_port s) ++ lit ";timing_port=" ++ decimal (local_timing_port s).

(** One parameter of the header; a later one of the same name replaces the
    earlier, also by nothing. *)
Definition transport_part (acc : option Z * option Z * option Z) (part : text)
  : option Z * option Z * option Z :=
  let '(server, control, timing) := acc in
  let part := trim part in
  match strip_prefix (lit "server_port=") part with
  | Some v => (parse_uint u16_max v, control, timing)
  | None =>
      match strip_prefix (lit "control_port=") part with
      | Some v => (server, parse_uint u16_max v, timing)
      | None =>
          match strip_prefix (lit "timing_port=") part with
          | Some v => (server, control, parse_uint u16_max v)
          | None => acc
          end
      end
  end.
Definition parse_transport_header (header : text) : RaopPorts :=
  let '(server, control, timing) := fold_left transport_part (split 59 header) (None, None, None) in
  {| server_port := default 0 server; r_control_port := default 0 control;
     r_timing_port := default 0 timing |}.

Definition r_guarded (ok : bool) (s s' : RaopSession) : RaopSession * Result unit Failure :=
  if ok then (s', Ok tt) else (s, Err WrongState).
Definition r_set_connected (s : RaopSession) : RaopSession * Result unit Failure :=
  r_guarded (bool_decide (r_state s = RDisconnected)) s (s <| r_state := RConnected |>).
Definition r_set_announced (s : RaopSession) : RaopSession * Result unit Failure :=
  r_guarded (bool_decide (r_state s = RConnected)) s (s <| r_state := RAnnounced |>).
Definition process_setup_response (s : RaopSession) (transport : text)
  : RaopSession * Result unit Failure :=
  r_guarded (bool_decide (r_state s = RAnnounced)) s
    (s <| r_ports := Some (parse_transport_header transport) |> <| r_state := RSetupComplete |>).
Definition r_start_playing (s : RaopSession) : RaopSession * Result unit Failure :=
  r_guarded (bool_decide (r_state s = RSetupComplete) || bool_decide (r_state s = RPaused)) s
    (s <| r_state := RPlaying |>).
Definition r_pause (s : RaopSession) : RaopSession * Result unit Failure :=
  r_guarded (bool_decide (r_state s = RPlaying)) s (s <| r_state := RPaused |>).
Definition r_start_teardown (s : RaopSession) : RaopSession * Result unit Failure :=
  match r_state s with
  | RDisconnected => (s, Err NotConnected)
  | RTearingDown => (s, Err AlreadyTearingDown)
  | _ => (s <| r_state := RTearingDown |>, Ok tt)
  end.

(** ** SDP *)

Section Sdp.
(** [STANDARD_NO_PAD.encode] *)
Context (base64 : list Z -> text).

Record Sdp := {
  sdp_session_id : Z;
  local_ip : text;
  remote_ip : text;
  frames_per_packet : Z;
  bit_depth : Z;
  channels : Z;
  sample_rate_hz : Z;
  latency_min : Z;
  encryption : option (list Z * list Z);
}.
Definition sdp_lines (d : Sdp) : list text :=
  [ lit "v=0";
    lit "o=iTunes " ++ decimal (sdp_session_id d) ++ lit " 0 IN IP4 " ++ local_ip d;
    lit "s=iTunes";
    lit "c=IN IP4 " ++ remote_ip d;
    lit "t=0 0";
    lit "m=audio 0 RTP/AVP 96";
    lit "a=rtpmap:96 AppleLossless";
    lit "a=fmtp:96 " ++ decimal (frames_per_packet d) ++ lit " 0 " ++ decimal (bit_depth d)
    ++ lit " 40 10 14 " ++ decimal (channels d) ++ lit " 255 0 0 " ++ decimal (sample_rate_hz d) ]
  ++ match encryption d with
     | Some (key, iv) => [lit "a=rsaaeskey:" ++ base64 key; lit "a=aesiv:" ++ base64 iv]
     | None => []
     end
  ++ [lit "a=min-latency:" ++ decimal (latency_min d)].
Definition build_sdp (d : Sdp) : list Z :=
  utf8_encode (concat ((fun l => l ++ CRLF) <$> sdp_lines d)).
End Sdp.

(** ** The session carries the ports it negotiated *)

(** What a finished negotiation looks like in the history of calls: a phase 1
    answer, later the first phase 2 answer with a stream of our type, and nothing
    but play and pause since. *)
Definition negotiated (s : RtspSession) (os : list Op) (p : SessionPorts) : Prop :=
  exists pre b mid streams e post,
    os = pre ++ OpPhase1 (Some b) :: mid ++ OpPhase2 (Some streams) :: post
    /\ Rtsp.find_first (fun e => se_type e =? stream_type s) streams = Some e
    /\ p = {| data_port := se_data_port e; control_port := se_control_port e;
              timing_port := p1_timing_port b; event_port := p1_event_port b |}.

Definition phase1_seen (os : list Op) (p : SessionPorts) : Prop :=
  exists pre b post, os = pre ++ OpPhase1 (Some b) :: post
    /\ p = {| data_port := 0; control_port := 0; timing_port := p1_timing_port b;
              event_port := p1_event_port b |}.

Definition history_ok (s : RtspSession) (os : list Op) : Prop :=
  match state s with
  | Disconnected | Connected | Paired => ports s = None
  | SetupPhase1 => exists p, ports s = Some p /\ phase1_seen os p
  | Ready | Playing | Paused => exists p, ports s = Some p /\ negotiated s os p
  | TearingDown => True
  end.

Lemma negotiated_extend s s' os o p :
  stream_type s' = stream_type s -> negotiated s os p -> negotiated s' (os ++ [o]) p.
Proof.
  intros Ht (pre & b & mid & streams & e & post & -> & Hf & ->).
  exists pre, b, mid, streams, e, (post ++ [o]). rewrite Ht. split; [|done].
  by rewrite <- !app_assoc; cbn; rewrite <- !app_assoc.
Qed.

Lemma phase1_extend os o p : phase1_seen os p -> phase1_seen (os ++ [o]) p.
Proof.
  intros (pre & b & post & -> & ->). exists pre, b, (post ++ [o]). by rewrite <- app_assoc.
Qed.

Lemma history_step s os o : history_ok s os -> history_ok (fst (apply s o)) (os ++ [o]).
Proof.
  intros H. pose proof negotiated_extend as Hne. pose proof phase1_extend as Hpe.
  destruct s as [st pp ty]. unfold history_ok in *.
  destruct o as [| |[b|]|[streams|]| | |]; destruct st; cbn -[Rtsp.find_first] in *; try done;
    try (by (destruct H as (p & -> & Hp); exists p; split; [done|]; eapply Hne; [|exact Hp]));
    try (by (destruct H as (p & -> & Hp); exists p; split; [done|]; apply Hpe)).
  - eexists. split; [done|]. by exists os, b, [].
  - destruct H as (p & -> & Hp).
    unfold process_setup_phase2_response. cbn [state stream_type].
    rewrite bool_decide_true by done. cbn [negb].
    destruct (Rtsp.find_first (fun e => se_type e =? ty) streams) as [e|] eqn:Ef; cbn -[Rtsp.find_first].
    + eexists. split; [done|]. destruct Hp as (pre & b & post & -> & ->).
      exists pre, b, post, streams, e, []. split; [by rewrite <- app_assoc|]. split; [done|]. done.
    + exists p. split; [done|]. by apply Hpe.
Qed.

Lemma history_run ty os : history_ok (run (new_session ty) os) os.
Proof.
  unfold run. induction os as [|o os IH] using rev_ind; [done|].
  rewrite fold_left_app. cbn [fold_left]. by apply history_step.
Qed.

(** A session that is ready, playing or paused holds exactly the ports its
    receiver answered with: data and control of the first stream of the
    session's own type in a phase 2 answer, timing and event of the phase 1 answer
    before it; no sequence of calls reaches those states otherwise. *)
Theorem playing_session_negotiated ty os :
  let s := run (new_session ty) os in
  state s = Ready \/ state s = Playing \/ state s = Paused ->
  exists p, ports s = Some p /\ negotiated s os p.
Proof.
  intros s Hs. pose proof (history_run ty os) as H. fold s in H. unfold history_ok in H.
  destruct Hs as [E|[E|E]]; rewrite E in H; exact H.
Qed.

Lemma playing_session_negotiated_witness :
  let os := [OpConnected; OpPaired; OpPhase1 (Some {| p1_timing_port := 0; p1_event_port := 7000 |});
             OpPhase2 (Some [{| se_type := 96; se_data_port := 6000; se_control_port := 6001 |}]); OpPlay] in
  exists p, ports (run (new_session 96) os) = Some p /\ negotiated (run (new_session 96) os) os p.
Proof.
  apply (playing_session_negotiated 96). right. left. vm_compute. reflexivity.
Defined.

(** A teardown is final, and refused calls change nothing. *)
Lemma teardown_final s o : state s = TearingDown -> fst (apply s o) = s.
Proof. intros H. destruct s as [st pp ty]; cbn in H; subst st. by destruct o as [| |[]|[]| | |]. Qed.

Lemma refused_unchanged s o e : snd (apply s o) = Err e -> fst (apply s o) = s.
Proof.
  destruct s as [[] pp ty], o as [| |[]|[streams|]| | |]; cbn -[Rtsp.find_first]; try done.
  unfold process_setup_phase2_response. cbn [state stream_type]. rewrite bool_decide_true by done.
  cbn [negb]. by destruct (Rtsp.find_first _ streams).
Qed.

(** ** The Transport header *)

Lemma digits_trimmed p s :
  forallb (fun c => negb (is_whitespace c)) p = true -> Forall is_digit s -> trim (p ++ s) = p ++ s.
Proof.
  intros Hp Hs.
  assert (Forall (fun c => is_whitespace c = false) (p ++ s)) as Hall.
  { apply Forall_app. split.
    - apply Forall_forall. intros c Hc. rewrite forallb_forall in Hp. apply list_elem_of_In in Hc.
      apply Hp in Hc. by apply negb_true_iff.
    - eapply Forall_impl; [exact Hs|]. unfold is_digit. intros c Hc. unfold is_whitespace, in_range. lia. }
  assert (forall l, Forall (fun c => is_whitespace c = false) l -> trim_start l = l) as Hts.
  { intros l Hl. destruct Hl as [|c l Hc _]; [done|]. cbn. by rewrite Hc. }
  apply trim_trimmed. split; apply Hts; [done|]. apply Forall_forall. intros c Hc.
  rewrite Forall_forall in Hall. apply Hall. apply list_elem_of_In. apply list_elem_of_In in Hc.
  by apply in_rev.
Qed.

(** A header as receivers send it. *)
Definition transport_reply (server control timing : Z) : text :=
  lit "RTP/AVP/UDP;unicast;mode=record;server_port=" ++ decimal server
  ++ lit ";control_port=" ++ decimal control ++ lit ";timing_port=" ++ decimal timing.

(** One numeric parameter. *)
Lemma port_part p v acc :
  forallb (fun c => negb (is_whitespace c)) (lit p) = true -> 0 <= v <= u16_max ->
  transport_part acc (lit p ++ decimal v)
  = let '(server, control, timing) := acc in
    match strip_prefix (lit "server_port=") (lit p ++ decimal v) with
    | Some v => (parse_uint u16_max v, control, timing)
    | None =>
        match strip_prefix (lit "control_port=") (lit p ++ decimal v) with
        | Some v => (server, parse_uint u16_max v, timing)
        | None =>
            match strip_prefix (lit "timing_port=") (lit p ++ decimal v) with
            | Some v => (server, control, parse_uint u16_max v)
            | None => acc
            end
        end
    end.
Proof.
  intros Hp Hv. destruct acc as [[server control] timing]. unfold transport_part.
  rewrite digits_trimmed; [done|done|]. apply decimal_spec. lia.
Qed.

Lemma no_semicolon p v :
  forallb (fun d => negb (59 =? d)) (lit p) = true -> 0 <= v -> 59 ∉ lit p ++ decimal v.
Proof.
  intros Hp Hv. apply not_elem_of_app. split; [by apply not_in_lit|].
  intros Hin. destruct (decimal_spec v Hv) as (_ & Hd & _). rewrite Forall_forall in Hd.
  apply Hd in Hin. unfold is_digit in Hin. lia.
Qed.

(** The port numbers a receiver puts into the Transport header of its SETUP
    answer are the ones the RAOP session stores. *)
Theorem transport_ports_exact s server control timing :
  r_state s = RAnnounced ->
  0 <= server <= u16_max -> 0 <= control <= u16_max -> 0 <= timing <= u16_max ->
  process_setup_response s (transport_reply server control timing)
  = (s <| r_ports := Some {| server_port := server; r_control_port := control;
                             r_timing_port := timing |} |>
       <| r_state := RSetupComplete |>, Ok tt).
Proof.
  intros Hs H1 H2 H3. unfold process_setup_response. rewrite bool_decide_true by done. cbn [r_guarded].
  do 4 f_equal. unfold parse_transport_header, transport_reply.
  change (lit "RTP/AVP/UDP;unicast;mode=record;server_port=" ++ ?t)
    with (lit "RTP/AVP/UDP" ++ 59 :: lit "unicast" ++ 59 :: lit "mode=record" ++ 59 :: lit "server_port=" ++ t).
  change (lit ";control_port=" ++ ?t) with (59 :: lit "control_port=" ++ t).
  change (lit ";timing_port=" ++ ?t) with (59 :: lit "timing_port=" ++ t).
  rewrite (split_here 59 (lit "RTP/AVP/UDP")), (split_here 59 (lit "unicast")),
    (split_here 59 (lit "mode=record")) by (by apply not_in_lit).
  rewrite !(app_assoc (lit _) (decimal _)).
  rewrite (split_here 59 (lit "server_port=" ++ _)), (split_here 59 (lit "control_port=" ++ _))
    by (apply no_semicolon; done || lia).
  rewrite split_none by (apply no_semicolon; done || lia).
  cbn [fold_left].
  change (transport_part (None, None, None) (lit "RTP/AVP/UDP")) with (@None Z, @None Z, @None Z).
  change (transport_part (None, None, None) (lit "unicast")) with (@None Z, @None Z, @None Z).
  change (transport_part (None, None, None) (lit "mode=record")) with (@None Z, @None Z, @None Z).
  rewrite !port_part by done.
  change (strip_prefix (lit "server_port=") (lit "control_port=" ++ ?x)) with (@None text).
  change (strip_prefix (lit "server_port=") (lit "timing_port=" ++ ?x)) with (@None text).
  change (strip_prefix (lit "control_port=") (lit "timing_port=" ++ ?x)) with (@None text).
  rewrite !strip_prefix_app. rewrite !parse_decimal by done. done.
Qed.

Lemma transport_ports_exact_witness :
  let s := {| r_state := RAnnounced; r_ports := None; local_control_port := 1;
              local_timing_port := 2; stream_connection_id := 3 |} in
  process_setup_response s (lit "RTP/AVP/UDP;unicast;mode=record;server_port=6000;control_port=6001;timing_port=6002")
  = (s <| r_ports := Some {| server_port := 6000; r_control_port := 6001; r_timing_port := 6002 |} |>
       <| r_state := RSetupComplete |>, Ok tt).
Proof.
  intros s. apply (transport_ports_exact s 6000 6001 6002); [reflexivity|unfold u16_max; lia..].
Defined.
End RtspSession.
