(* ===== verification/PairVerify.v ===== *)
(** * Pair-verify ([airplay-pairing/src/pair_verify.rs])

    The M1-M4 exchange that turns two ephemeral X25519 keys and two long-term
    Ed25519 keys into the keys of the control channel.  The curves and the key
    derivation are third-party packages: the class [Curves] says what the code
    uses of them.  Freshly generated key pairs are inputs. *)

From S2P Require Import Prelude Wire Text Tlv ControlCipher.
Import ControlCipher.

Module PairVerify.

Class Curves := {
  (* [PublicKey::from(&secret)], [StaticSecret::diffie_hellman] *)
  x25519_public : list Z -> list Z;
  x25519 : list Z -> list Z -> list Z;
  (* [SigningKey], [VerifyingKey::verify] *)
  ed_public : list Z -> list Z;
  ed_sign : list Z -> list Z -> list Z;
  ed_verify : list Z -> list Z -> list Z -> bool;
  (* HKDF-SHA512 to 32 bytes: key material, salt, info *)
  hkdf32 : list Z -> list Z -> list Z -> list Z;
  x25519_public_length s : length (x25519_public s) = 32%nat;
  ed_public_length s : length (ed_public s) = 32%nat;
  ed_sign_length s m : length (ed_sign s m) = 64%nat;
  x25519_agree a b : x25519 a (x25519_public b) = x25519 b (x25519_public a);
  ed_verify_sign s m : ed_verify (ed_public s) m (ed_sign s m) = true;
}.

Inductive SignatureOrder :=
| SignerIdPeer | SignerPeerId | IdSignerPeer | PeerIdSigner | PeerSignerId | IdPeerSigner.
Inductive PairVerifyState := Initial | M1Sent | M2Received | M3Sent | Complete | Failed.
#[export] Instance PairVerifyState_eq_dec : EqDecision PairVerifyState.
Proof. solve_decision. Defined.

Inductive PairingError :=
| StateMismatch | TlvParse | Rejected | MissingTlv (t : Tlv.TlvType) | InvalidKeyLength
| SignatureInvalid | SrpVerificationFailed | WeakKey | CryptoFailed (e : CryptoError).

Record SessionKeys := { write_key : list Z; read_key : list Z }.

Record PairVerify := {
  state : PairVerifyState;
  identity : list Z;            (* Ed25519 seed *)
  custom_identifier : option text;
  ecdh_keypair : option (list Z);   (* X25519 secret *)
  ecdh_public : option (list Z);
  server_public : option (list Z);
  shared_secret : option (list Z);
  session_key : option (list Z);
  server_ltpk : option (list Z);
  signature_order : SignatureOrder;
}.
#[export] Instance eta_PairVerify : Eta PairVerify := fun v =>
  {| state := state v; identity := identity v; custom_identifier := custom_identifier v;
     ecdh_keypair := ecdh_keypair v; ecdh_public := ecdh_public v; server_public := server_public v;
     shared_secret := shared_secret v; session_key := session_key v; server_ltpk := server_ltpk v;
     signature_order := signature_order v |}.

Definition new_verify (identity : list Z) (custom : option text) : PairVerify :=
  {| state := Initial; identity := identity; custom_identifier := custom; ecdh_keypair := None;
     ecdh_public := None; server_public := None; shared_secret := None; session_key := None;
     server_ltpk := None; signature_order := SignerIdPeer |}.
Definition set_server_ltpk (v : PairVerify) (ltpk : list Z) : PairVerify :=
  v <| server_ltpk := Some ltpk |>.
Definition reset (v : PairVerify) : PairVerify :=
  v <| state := Initial |> <| ecdh_keypair := None |> <| ecdh_public := None |>
    <| server_public := None |> <| shared_secret := None |> <| session_key := None |>.

Definition PV_MSG02_NONCE : list Z := nonce_from_string (lit "PV-Msg02").
Definition PV_MSG03_NONCE : list Z := nonce_from_string (lit "PV-Msg03").

Definition build_signed_message (order : SignatureOrder) (signer peer identifier : list Z) : list Z :=
  match order with
  | SignerIdPeer => signer ++ identifier ++ peer
  | SignerPeerId => signer ++ peer ++ identifier
  | IdSignerPeer => identifier ++ signer ++ peer
  | PeerIdSigner => peer ++ identifier ++ signer
  | PeerSignerId => peer ++ signer ++ identifier
  | IdPeerSigner => identifier ++ peer ++ signer
  end.
Definition all_orders : list SignatureOrder :=
  [SignerIdPeer; SignerPeerId; IdSignerPeer; PeerIdSigner; PeerSignerId; IdPeerSigner].

(** [{:02X}] of each byte, grouped as a UUID. *)
Definition hex_upper (d : Z) : Z := if d <? 10 then 48 + d else 55 + d.
Definition hex_bytes (bs : list Z) : text :=
  concat ((fun b => [hex_upper (Z.shiftr b 4); hex_upper (Z.land b 15)]) <$> bs).
Definition uuid_of (pk : list Z) : text :=
  hex_bytes (slice 0 4 pk) ++ lit "-" ++ hex_bytes (slice 4 6 pk) ++ lit "-"
  ++ hex_bytes (slice 6 8 pk) ++ lit "-" ++ hex_bytes (slice 8 10 pk) ++ lit "-"
  ++ hex_bytes (slice 10 16 pk).

Section Protocol.
Context `{Aead} `{Curves}.

Definition derive_pair_verify_key (secret : list Z) : list Z :=
  hkdf32 secret (lit "Pair-Verify-Encrypt-Salt") (lit "Pair-Verify-Encrypt-Info").
Definition derive_control_keys (secret : list Z) : SessionKeys :=
  {| write_key := hkdf32 secret (lit "Control-Salt") (lit "Control-Write-Encryption-Key");
     read_key := hkdf32 secret (lit "Control-Salt") (lit "Control-Read-Encryption-Key") |}.

(** [EcdhKeyPair::diffie_hellman]: an all-zero key and an all-zero result are
    refused. *)
Definition all_zero (bs : list Z) : bool := forallb (Z.eqb 0) bs.
Definition diffie_hellman (secret peer : list Z) : option (list Z) :=
  if all_zero peer then None
  else let shared := x25519 secret peer in if all_zero shared then None else Some shared.

(** Every M1 starts the exchange with a fresh key pair. *)
Definition start_m1 (v : PairVerify) (secret : list Z) (message : list Z)
  : PairVerify * Result (list Z) PairingError :=
  if negb (bool_decide (state v = Initial)) then (v, Err StateMismatch)
  else (v <| ecdh_public := Some (x25519_public secret) |> <| ecdh_keypair := Some secret |>
          <| state := M1Sent |>, Ok message).
Definition FLAGS : list Z := [1; 0; 0; 0].

Definition generate_m1 (v : PairVerify) (secret : list Z) :=
  start_m1 v secret (Tlv.encode (Tlv.pair_verify_m1 (x25519_public secret))).
Definition generate_m1_transient (v : PairVerify) (secret : list Z) :=
  start_m1 v secret (x25519_public secret ++ ed_public (identity v) ++ FLAGS).
Definition generate_m1_transient_prefix (v : PairVerify) (secret : list Z) :=
  start_m1 v secret (FLAGS ++ x25519_public secret ++ ed_public (identity v)).
Definition generate_m1_transient_no_flags (v : PairVerify) (secret : list Z) :=
  start_m1 v secret (x25519_public secret ++ ed_public (identity v)).
Definition generate_m1_transient_signed (v : PairVerify) (secret : list Z) :=
  start_m1 v secret
    (FLAGS ++ x25519_public secret ++ take 32 (ed_sign (identity v) (x25519_public secret))).
Definition generate_m1_transient_full_sig (v : PairVerify) (secret : list Z) :=
  start_m1 v secret (FLAGS ++ x25519_public secret ++ ed_sign (identity v) (x25519_public secret)).
Definition generate_m1_transient_tlv (v : PairVerify) (secret : list Z) :=
  start_m1 v secret
    (Tlv.encode (Tlv.set (Tlv.set (Tlv.set (Tlv.set Tlv.new Tlv.State [1]) Tlv.PublicKey
       (x25519_public secret)) Tlv.Identifier (ed_public (identity v))) Tlv.Flags [1])).

Definition fail (v : PairVerify) (e : PairingError) : PairVerify * Result unit PairingError :=
  (v <| state := Failed |>, Err e).

(** The common middle of both M2 handlers: agree on a secret, derive the session
    key, decrypt.  The key pair is consumed. *)
Definition open_m2 (v : PairVerify) (encrypted server : list Z)
  : PairVerify * Result (list Z) PairingError :=
  match ecdh_keypair v with
  | None => (v <| state := Failed |>, Err SrpVerificationFailed)
  | Some secret =>
      let v := v <| ecdh_keypair := None |> in
      match diffie_hellman secret server with
      | None => (v <| state := Failed |>, Err WeakKey)
      | Some shared =>
          let key := derive_pair_verify_key shared in
          let v := v <| shared_secret := Some shared |> <| session_key := Some key |> in
          match decrypt_with_nonce key PV_MSG02_NONCE encrypted with
          | Err e => (v <| state := Failed |>, Err (CryptoFailed e))
          | Ok plain => (v, Ok plain)
          end
      end
  end.

(** The end of a transient M2: the signature over both keys and [id]. *)
Definition check_transient (v : PairVerify) (ltpk server client sig : list Z)
  : PairVerify * Result unit PairingError :=
  if ed_verify ltpk (server ++ ltpk ++ client) sig
  then (v <| state := M2Received |>, Ok tt)
  else fail v SignatureInvalid.

Definition process_m2_transient (v : PairVerify) (response : list Z)
  : PairVerify * Result unit PairingError :=
  if negb (bool_decide (state v = M1Sent)) then (v, Err StateMismatch)
  else if (length response <? 96)%nat then fail v TlvParse
  else
    let server := slice 0 32 response in
    let v := v <| server_public := Some server |> in
    match ecdh_public v with
    | None => fail v SrpVerificationFailed
    | Some client =>
        match open_m2 v (drop 32 response) server with
        | (v, Err e) => (v, Err e)
        | (v, Ok plain) =>
            let as_tlv :=
              match Tlv.parse plain with
              | Ok t =>
                  match Tlv.get t Tlv.Identifier, Tlv.get t Tlv.Signature with
                  | Some id, Some sig =>
                      if (length id =? 32)%nat && (length sig =? 64)%nat then Some (id, sig) else None
                  | _, _ => None
                  end
              | Err _ => None
              end in
            match as_tlv with
            | Some (id, sig) => check_transient v id server client sig
            | None =>
                if (length plain =? 64)%nat then
                  match server_ltpk v with
                  | Some ltpk => check_transient v ltpk server client plain
                  | None => fail v TlvParse
                  end
                else if (length plain =? 96)%nat then
                  check_transient v (slice 0 32 plain) server client (slice 32 96 plain)
                else fail v TlvParse
            end
        end
    end.

(** Which long-term key a standard M2 is checked against: one inside the
    message first, the known one only if there is none. *)
Definition embedded_ltpk (t : gmap Z (list Z)) (id : list Z) : option (list Z) :=
  if (length id =? 32)%nat && is_none (from_utf8 id) then Some id
  else match Tlv.get t Tlv.PublicKey with
       | Some pk => if (length pk =? 32)%nat then Some pk else None
       | None => None
       end.

(** The first of the six layouts under which the signature verifies. *)
Fixpoint first_order (ltpk server client id sig : list Z) (os : list SignatureOrder)
  : option SignatureOrder :=
  match os with
  | [] => None
  | o :: os => if ed_verify ltpk (build_signed_message o server client id) sig then Some o
               else first_order ltpk server client id sig os
  end.

Definition check_m2 (v : PairVerify) (server plain : list Z) : PairVerify * Result unit PairingError :=
  match Tlv.parse plain with
  | Err _ => fail v TlvParse
  | Ok t =>
      match Tlv.get t Tlv.Identifier with
      | None => fail v (MissingTlv Tlv.Identifier)
      | Some id =>
          match Tlv.get t Tlv.Signature with
          | None => fail v (MissingTlv Tlv.Signature)
          | Some sig =>
              if negb (length sig =? 64)%nat then fail v SignatureInvalid
              else
                match ecdh_public v with
                | None => fail v SrpVerificationFailed
                | Some client =>
                    match (match embedded_ltpk t id with Some k => Some k | None => server_ltpk v end) with
                    | None => (v <| state := M2Received |>, Ok tt)
                    | Some ltpk =>
                        match first_order ltpk server client id sig all_orders with
                        | Some o => (v <| signature_order := o |> <| state := M2Received |>, Ok tt)
                        | None => fail v SignatureInvalid
                        end
                    end
                end
          end
      end
  end.

Definition process_m2 (v : PairVerify) (response : list Z) : PairVerify * Result unit PairingError :=
  if negb (bool_decide (state v = M1Sent)) then (v, Err StateMismatch)
  else
    match Tlv.parse response with
    | Err _ => fail v TlvParse
    | Ok t =>
        match Tlv.error t with
        | Some _ => fail v Rejected
        | None =>
            if negb (bool_decide (Tlv.state t = Some 2)) then fail v StateMismatch
            else
              match Tlv.get t Tlv.PublicKey with
              | None => fail v (MissingTlv Tlv.PublicKey)
              | Some server =>
                  if negb (length server =? 32)%nat then fail v InvalidKeyLength
                  else
                    let v := v <| server_public := Some server |> in
                    match Tlv.get t Tlv.EncryptedData with
                    | None => fail v (MissingTlv Tlv.EncryptedData)
                    | Some encrypted =>
                        match open_m2 v encrypted server with
                        | (v, Err e) => (v, Err e)
                        | (v, Ok plain) => check_m2 v server plain
                        end
                    end
              end
        end
    end.

(** M3: the three values the earlier messages left behind, or nothing. *)
Definition m3_values (v : PairVerify) : Result (list Z * list Z * list Z) PairingError :=
  if negb (bool_decide (state v = M2Received)) then Err StateMismatch
  else match ecdh_public v, server_public v, session_key v with
       | Some c, Some s, Some k => Ok (c, s, k)
       | _, _, _ => Err SrpVerificationFailed
       end.

Definition m3_inner (v : PairVerify) (id client server : list Z) : gmap Z (list Z) :=
  Tlv.set (Tlv.set (Tlv.set Tlv.new Tlv.Identifier id) Tlv.PublicKey (ed_public (identity v)))
    Tlv.Signature
    (ed_sign (identity v) (build_signed_message (signature_order v) client server id)).

Definition generate_m3_with_identifier (v : PairVerify) (identifier : option text)
  : PairVerify * Result (list Z) PairingError :=
  match m3_values v with
  | Err e => (v, Err e)
  | Ok (client, server, key) =>
      let id := utf8_encode (default (uuid_of (ed_public (identity v))) identifier) in
      match encrypt_with_nonce key PV_MSG03_NONCE (Tlv.encode (m3_inner v id client server)) with
      | Err e => (v, Err (CryptoFailed e))
      | Ok encrypted =>
          (v <| state := M3Sent |>,
           Ok (Tlv.encode (Tlv.set (Tlv.set Tlv.new Tlv.State [3]) Tlv.EncryptedData encrypted)))
      end
  end.
Definition generate_m3 (v : PairVerify) : PairVerify * Result (list Z) PairingError :=
  generate_m3_with_identifier v (custom_identifier v).

Definition generate_m3_transient (v : PairVerify) : PairVerify * Result (list Z) PairingError :=
  match m3_values v with
  | Err e => (v, Err e)
  | Ok (client, server, key) =>
      match encrypt_with_nonce key PV_MSG03_NONCE (ed_sign (identity v) (client ++ server)) with
      | Err e => (v, Err (CryptoFailed e))
      | Ok encrypted => (v <| state := M3Sent |>, Ok (encrypted ++ [0; 0; 0; 0]))
      end
  end.

Definition derive_session_keys (v : PairVerify) : PairVerify * Result SessionKeys PairingError :=
  match shared_secret v with
  | None => (v <| state := Failed |>, Err SrpVerificationFailed)
  | Some s => (v <| state := Complete |>, Ok (derive_control_keys s))
  end.

Definition process_m4 (v : PairVerify) (response : list Z)
  : PairVerify * Result SessionKeys PairingError :=
  if negb (bool_decide (state v = M3Sent)) then (v, Err StateMismatch)
  else
    match Tlv.parse response with
    | Err _ => (v <| state := Failed |>, Err TlvParse)
    | Ok t =>
        match Tlv.error t with
        | Some _ => (v <| state := Failed |>, Err Rejected)
        | None =>
            if negb (bool_decide (Tlv.state t = Some 4))
            then (v <| state := Failed |>, Err StateMismatch)
            else derive_session_keys v
        end
    end.

Definition process_m4_transient (v : PairVerify) (response : list Z)
  : PairVerify * Result SessionKeys PairingError :=
  if negb (bool_decide (state v = M3Sent)) then (v, Err StateMismatch)
  else
    let short :=
      if bool_decide (response = [0; 0; 0; 0]) then derive_session_keys v
      else if (length response <=? 8)%nat
              && match response with [] => true | b :: _ => b =? 0 end
      then derive_session_keys v
      else (v <| state := Failed |>, Err Rejected) in
    match Tlv.parse response with
    | Ok t =>
        match Tlv.error t with
        | Some _ => (v <| state := Failed |>, Err Rejected)
        | None => if bool_decide (Tlv.state t = Some 4) then derive_session_keys v else short
        end
    | Err _ => short
    end.
End Protocol.
End PairVerify.
