(* ===== verification/PairVerifyProps.v ===== *)
(** * What pair-verify establishes

    An honest accessory and the client end with the same channel keys; an
    accepted M2 was sealed by whoever holds the agreed secret and signed under the
    key the handler chose; and that choice prefers a key inside the message over
    the one the client already knew. *)

From S2P Require Import Prelude Wire Text Tlv ControlCipher CipherProps PairVerify.
Import ControlCipher CipherProps PairVerify.

Module PairVerifyProps.
Section Protocol.
Context `{Aead} `{Curves}.

(** ** The accessory's side, as a specification *)

(** What an accessory with long-term seed [seed] and ephemeral secret [eph]
    answers to a client key: identifier and signature, sealed, with its long-term
    key enclosed or not. *)
Definition m2_inner (seed eph id client : list Z) (enclose : bool) : gmap Z (list Z) :=
  let t := Tlv.set (Tlv.set Tlv.new Tlv.Identifier id) Tlv.Signature
             (ed_sign seed (x25519_public eph ++ id ++ client)) in
  if enclose then Tlv.set t Tlv.PublicKey (ed_public seed) else t.
Definition m2_message (eph encrypted : list Z) : list Z :=
  Tlv.encode (Tlv.set (Tlv.set (Tlv.set Tlv.new Tlv.State [2]) Tlv.PublicKey (x25519_public eph))
    Tlv.EncryptedData encrypted).
Definition agreed (eph client : list Z) : list Z := x25519 eph client.

(** The fields of these messages. *)
Lemma inner_identifier seed eph id client b :
  Tlv.get (m2_inner seed eph id client b) Tlv.Identifier = Some id.
Proof. destruct b; reflexivity. Qed.
Lemma inner_signature seed eph id client b :
  Tlv.get (m2_inner seed eph id client b) Tlv.Signature
  = Some (ed_sign seed (x25519_public eph ++ id ++ client)).
Proof. destruct b; reflexivity. Qed.
Lemma inner_key seed eph id client b :
  Tlv.get (m2_inner seed eph id client b) Tlv.PublicKey
  = if b then Some (ed_public seed) else None.
Proof. destruct b; reflexivity. Qed.

(** An identifier that is not itself a binary key. *)
Definition plain_identifier (id : list Z) : Prop :=
  (length id =? 32)%nat && is_none (from_utf8 id) = false.

Section Exchange.
Context (v : PairVerify) (secret : list Z) (seed eph id encrypted : list Z) (enclose : bool).
Hypothesis v_state : state v = M1Sent.
Hypothesis v_secret : ecdh_keypair v = Some secret.
Hypothesis v_public : ecdh_public v = Some (x25519_public secret).
Hypothesis key_nonzero : all_zero (x25519_public eph) = false.
Hypothesis secret_nonzero : all_zero (x25519 secret (x25519_public eph)) = false.
Hypothesis id_plain : plain_identifier id.
Notation client := (x25519_public secret).
Notation key := (derive_pair_verify_key (agreed eph client)).
Hypothesis sealed :
  seal key PV_MSG02_NONCE [] (Tlv.encode (m2_inner seed eph id client enclose)) = Some encrypted.

Definition after_m2 : PairVerify :=
  v <| server_public := Some (x25519_public eph) |> <| ecdh_keypair := None |>
    <| shared_secret := Some (agreed eph client) |> <| session_key := Some key |>
    <| signature_order := SignerIdPeer |> <| state := M2Received |>.

Lemma opens_m2 :
  open_m2 (v <| server_public := Some (x25519_public eph) |>) encrypted (x25519_public eph)
  = (v <| server_public := Some (x25519_public eph) |> <| ecdh_keypair := None |>
       <| shared_secret := Some (agreed eph client) |> <| session_key := Some key |>,
     Ok (Tlv.encode (m2_inner seed eph id client enclose))).
Proof.
  unfold open_m2. change (ecdh_keypair (v <| server_public := _ |>)) with (ecdh_keypair v).
  rewrite v_secret. unfold diffie_hellman. rewrite key_nonzero, secret_nonzero.
  unfold agreed in *. rewrite <- (x25519_agree secret eph) in *.
  unfold decrypt_with_nonce. pose proof (seal_length _ _ _ _ _ sealed) as Hl.
  destruct (Nat.ltb_spec (length encrypted) 16); [lia|]. by rewrite (open_seal _ _ _ _ _ sealed).
Qed.

(** The signature is checked against the enclosed key, or else the known one;
    the layout the accessory used is the first one tried. *)
Lemma accepts_m2 :
  (if enclose then True else server_ltpk v = Some (ed_public seed)) ->
  process_m2 v (m2_message eph encrypted) = (after_m2, Ok tt).
Proof.
  intros Hk. unfold process_m2. rewrite bool_decide_true by done. cbn [negb].
  unfold m2_message. rewrite Tlv.parse_encode.
  set (t := Tlv.set (Tlv.set (Tlv.set Tlv.new Tlv.State [2]) Tlv.PublicKey (x25519_public eph))
              Tlv.EncryptedData encrypted).
  assert (Tlv.error t = None) as -> by reflexivity.
  assert (Tlv.state t = Some 2) as -> by reflexivity. rewrite bool_decide_true by done. cbn [negb].
  assert (Tlv.get t Tlv.PublicKey = Some (x25519_public eph)) as -> by reflexivity.
  rewrite x25519_public_length. cbn [negb Nat.eqb].
  assert (Tlv.get t Tlv.EncryptedData = Some encrypted) as -> by reflexivity.
  rewrite opens_m2. unfold check_m2. rewrite Tlv.parse_encode, inner_identifier, inner_signature.
  rewrite ed_sign_length. cbn [negb Nat.eqb].
  change (ecdh_public (_ <| session_key := _ |>)) with (ecdh_public v).
  change (server_ltpk (_ <| session_key := _ |>)) with (server_ltpk v). rewrite v_public.
  assert (match embedded_ltpk (m2_inner seed eph id client enclose) id with
          | Some k => Some k | None => server_ltpk v end = Some (ed_public seed)) as ->.
  { unfold embedded_ltpk. rewrite id_plain, inner_key. destruct enclose; [|done].
    by rewrite ed_public_length. }
  cbn [first_order all_orders build_signed_message]. rewrite ed_verify_sign. done.
Qed.
End Exchange.

(** With an honest accessory whose long-term key the client knows, the
    exchange completes: M2 is accepted, M3 opens on the accessory's side to a
    message whose signature verifies under the client's enclosed key over both
    ephemeral keys and the client's identifier, and after M4 the client's
    channel keys are the ones the accessory derives from its own half. *)
Theorem honest_pair_verify_completes v0 secret seed eph id encrypted :
  state v0 = Initial -> server_ltpk v0 = Some (ed_public seed) ->
  all_zero (x25519_public eph) = false ->
  all_zero (x25519 secret (x25519_public eph)) = false -> plain_identifier id ->
  let client := x25519_public secret in
  let key := derive_pair_verify_key (agreed eph client) in
  seal key PV_MSG02_NONCE [] (Tlv.encode (m2_inner seed eph id client false)) = Some encrypted ->
  (forall m, is_Some (seal key PV_MSG03_NONCE [] m)) ->
  exists v1 v2 v3 v4 m1 m3 inner,
    generate_m1 v0 secret = (v1, Ok m1)
    /\ Tlv.parse m1 = Ok (Tlv.pair_verify_m1 client)
    /\ process_m2 v1 (m2_message eph encrypted) = (v2, Ok tt)
    /\ generate_m3 v2 = (v3, Ok m3)
    /\ (exists t c, Tlv.parse m3 = Ok t /\ Tlv.get t Tlv.EncryptedData = Some c
        /\ decrypt_with_nonce key PV_MSG03_NONCE c = Ok (Tlv.encode inner))
    /\ (exists cid sig, Tlv.get inner Tlv.Identifier = Some cid
        /\ Tlv.get inner Tlv.PublicKey = Some (ed_public (identity v0))
        /\ Tlv.get inner Tlv.Signature = Some sig
        /\ ed_verify (ed_public (identity v0)) (client ++ cid ++ x25519_public eph) sig = true)
    /\ process_m4 v3 (Tlv.encode (Tlv.set Tlv.new Tlv.State [4]))
       = (v4, Ok (derive_control_keys (agreed eph client)))
    /\ state v4 = Complete.
Proof.
  intros Hs Hk Hz Hz' Hid client key He Hseal.
  set (v1 := v0 <| ecdh_public := Some client |> <| ecdh_keypair := Some secret |> <| state := M1Sent |>).
  pose proof (accepts_m2 v1 secret seed eph id encrypted false eq_refl eq_refl eq_refl Hz Hz' Hid He Hk)
    as H2.
  set (v2 := after_m2 v1 secret eph) in *.
  set (cid := utf8_encode (default (uuid_of (ed_public (identity v0))) (custom_identifier v0))).
  set (inner := m3_inner v2 cid client (x25519_public eph)).
  destruct (Hseal (Tlv.encode inner)) as [c Hc].
  exists v1, v2, (v2 <| state := M3Sent |>), (v2 <| state := Complete |>),
    (Tlv.encode (Tlv.pair_verify_m1 client)),
    (Tlv.encode (Tlv.set (Tlv.set Tlv.new Tlv.State [3]) Tlv.EncryptedData c)), inner.
  split_and!.
  - unfold generate_m1, start_m1. rewrite bool_decide_true by done. done.
  - apply Tlv.parse_encode.
  - exact H2.
  - assert (generate_m3 v2
            = match encrypt_with_nonce key PV_MSG03_NONCE (Tlv.encode inner) with
              | Err e => (v2, Err (CryptoFailed e))
              | Ok e => (v2 <| state := M3Sent |>,
                         Ok (Tlv.encode (Tlv.set (Tlv.set Tlv.new Tlv.State [3]) Tlv.EncryptedData e)))
              end) as -> by reflexivity.
    unfold encrypt_with_nonce. by rewrite Hc.
  - eexists _, c. split; [apply Tlv.parse_encode|]. split; [reflexivity|].
    unfold decrypt_with_nonce. pose proof (seal_length _ _ _ _ _ Hc) as Hl.
    destruct (Nat.ltb_spec (length c) 16); [lia|]. by rewrite (open_seal _ _ _ _ _ Hc).
  - exists cid, (ed_sign (identity v0) (client ++ cid ++ x25519_public eph)).
    split; [reflexivity|]. split; [reflexivity|]. split; [reflexivity|]. apply ed_verify_sign.
  - unfold process_m4. rewrite bool_decide_true by done. cbn [negb]. rewrite Tlv.parse_encode. done.
  - done.
Qed.

(** C36: Only the holder of a matching secret gets an M2 accepted: if it is, its
    payload was sealed under the key derived from the ephemeral secrets, and its
    signature verifies under the enclosed or known long-term key in one of the six
    layouts, the one the client's own M3 will use; the single exception is a
    message without any long-term key to check against. *)
Theorem accepted_m2_is_authentic v response v' :
  process_m2 v response = (v', Ok tt) ->
  exists secret client server shared t inner encrypted id sig,
    ecdh_keypair v = Some secret /\ ecdh_public v = Some client
    /\ Tlv.parse response = Ok t /\ Tlv.get t Tlv.PublicKey = Some server
    /\ Tlv.get t Tlv.EncryptedData = Some encrypted
    /\ diffie_hellman secret server = Some shared
    /\ (exists plain, seal (derive_pair_verify_key shared) PV_MSG02_NONCE [] plain = Some encrypted
        /\ Tlv.parse plain = Ok inner)
    /\ Tlv.get inner Tlv.Identifier = Some id /\ Tlv.get inner Tlv.Signature = Some sig
    /\ shared_secret v' = Some shared /\ server_public v' = Some server /\ state v' = M2Received
    /\ match (match embedded_ltpk inner id with Some k => Some k | None => server_ltpk v end) with
       | None => True
       | Some ltpk =>
           ed_verify ltpk (build_signed_message (signature_order v') server client id) sig = true
       end.
Proof.
  unfold process_m2. destruct (negb (bool_decide (state v = M1Sent))); [done|].
  destruct (Tlv.parse response) as [t|] eqn:Et; [|done].
  destruct (Tlv.error t); [done|]. destruct (negb (bool_decide (Tlv.state t = Some 2))); [done|].
  destruct (Tlv.get t Tlv.PublicKey) as [server|] eqn:Es; [|done].
  destruct (negb (length server =? 32)%nat); [done|].
  destruct (Tlv.get t Tlv.EncryptedData) as [encrypted|] eqn:Ee; [|done].
  unfold open_m2. change (ecdh_keypair (v <| server_public := _ |>)) with (ecdh_keypair v).
  destruct (ecdh_keypair v) as [secret|] eqn:Ek; [|done].
  destruct (diffie_hellman secret server) as [shared|] eqn:Ed; [|done].
  unfold decrypt_with_nonce. destruct (length encrypted <? 16)%nat; [done|].
  destruct (open _ _ _ encrypted) as [plain|] eqn:Eo; [|done]. apply open_authentic in Eo.
  set (w := _ <| session_key := _ |>).
  unfold check_m2. destruct (Tlv.parse plain) as [inner|] eqn:Ep; [|done].
  destruct (Tlv.get inner Tlv.Identifier) as [id|] eqn:Eid; [|done].
  destruct (Tlv.get inner Tlv.Signature) as [sig|] eqn:Esig; [|done].
  destruct (negb (length sig =? 64)%nat); [done|].
  change (ecdh_public w) with (ecdh_public v). change (server_ltpk w) with (server_ltpk v).
  destruct (ecdh_public v) as [client|] eqn:Ec; [|done]. intros Hr.
  exists secret, client, server, shared, t, inner, encrypted, id, sig.
  destruct (match embedded_ltpk inner id with Some k => Some k | None => server_ltpk v end) as [ltpk|].
  - destruct (first_order ltpk server client id sig all_orders) as [o|] eqn:Eord; [|done].
    injection Hr as <-. split_and!; eauto; try done.
    clear -Eord. revert Eord. generalize all_orders. intros os. induction os as [|o' os IH]; cbn; [done|].
    destruct (ed_verify ltpk (build_signed_message o' server client id) sig) eqn:Ev; [|done].
    intros [= <-]. exact Ev.
  - injection Hr as <-. split_and!; eauto; done.
Qed.

(** A long-term key the client already knows does not protect it: anyone who
    answers with an ephemeral key of their own, signs with a long-term key of
    their own, and encloses that key in M2, is accepted, whatever key was set with
    [set_server_ltpk]. *)
Theorem enclosed_key_overrides_known_key v known secret seed eph id encrypted :
  state v = M1Sent -> ecdh_keypair v = Some secret -> ecdh_public v = Some (x25519_public secret) ->
  all_zero (x25519_public eph) = false ->
  all_zero (x25519 secret (x25519_public eph)) = false -> plain_identifier id ->
  let client := x25519_public secret in
  seal (derive_pair_verify_key (agreed eph client)) PV_MSG02_NONCE []
    (Tlv.encode (m2_inner seed eph id client true)) = Some encrypted ->
  exists v', process_m2 (set_server_ltpk v known) (m2_message eph encrypted) = (v', Ok tt)
    /\ session_key v' = Some (derive_pair_verify_key (agreed eph client)).
Proof.
  intros Hs Hk Hp Hz Hz' Hid client He.
  eexists. split; [by apply (accepts_m2 (set_server_ltpk v known) secret seed eph id encrypted true)|done].
Qed.
End Protocol.

(** ** Witnesses: curves made of padding and addition *)

Definition pad (l : list Z) : list Z := take 32 (l ++ replicate 32 1).
Lemma pad_length l : length (pad l) = 32%nat.
Proof. unfold pad. rewrite length_take, length_app, length_replicate. lia. Qed.
Lemma pad_pad l : pad (pad l) = pad l.
Proof.
  unfold pad at 1. rewrite take_app_le by (rewrite pad_length; lia).
  apply take_ge. by rewrite pad_length.
Qed.
Definition toy_verify (pk m sig : list Z) : bool := bool_decide (sig = pad pk ++ pad m).
Lemma toy_verify_sign s m : toy_verify (pad s) m (pad s ++ pad m) = true.
Proof. unfold toy_verify. rewrite pad_pad. by apply bool_decide_true. Qed.
Lemma toy_sign_length s m : length (pad s ++ pad m) = 64%nat.
Proof. by rewrite length_app, !pad_length. Qed.
Lemma toy_agree a b : zip_with Z.add (pad a) (pad b) = zip_with Z.add (pad b) (pad a).
Proof. rewrite <- zip_with_flip. apply zip_with_ext; [|done|done]. intros x y. cbn. lia. Qed.
Definition toy_curves : Curves := {|
  x25519_public := pad; x25519 a b := zip_with Z.add (pad a) b; ed_public := pad;
  ed_sign s m := pad s ++ pad m; ed_verify := toy_verify; hkdf32 k _ _ := k;
  x25519_public_length := pad_length; ed_public_length := pad_length;
  ed_sign_length := toy_sign_length; x25519_agree := toy_agree; ed_verify_sign := toy_verify_sign |}.

Definition ex_client : PairVerify := set_server_ltpk (new_verify [5] None) (pad [6]).
Definition ex_key : list Z := zip_with Z.add (pad [8]) (pad [7]).

Lemma honest_pair_verify_completes_witness :
  exists v1 m1 v2,
    @generate_m1 toy_curves ex_client [7] = (v1, Ok m1)
    /\ @process_m2 toy_aead toy_curves v1
         (@m2_message toy_curves [8]
            (Tlv.encode (@m2_inner toy_curves [6] [8] [65] (pad [7]) false) ++ toy_tag PV_MSG02_NONCE))
       = (v2, Ok tt).
Proof.
  destruct (@honest_pair_verify_completes toy_aead toy_curves ex_client [7] [6] [8] [65]
              (Tlv.encode (@m2_inner toy_curves [6] [8] [65] (pad [7]) false) ++ toy_tag PV_MSG02_NONCE))
    as (v1 & v2 & v3 & v4 & m1 & m3 & inner & H1 & _ & H2 & _);
    try reflexivity.
  - intros m. exists (m ++ toy_tag PV_MSG03_NONCE). reflexivity.
  - exists v1, m1, v2. split; [exact H1|exact H2].
Defined.

Definition ex_started : PairVerify := fst (@generate_m1 toy_curves (new_verify [5] None) [7]).

Lemma enclosed_key_overrides_known_key_witness :
  exists v',
    @process_m2 toy_aead toy_curves (set_server_ltpk ex_started (pad [6]))
      (@m2_message toy_curves [8]
         (Tlv.encode (@m2_inner toy_curves [66] [8] [65] (pad [7]) true) ++ toy_tag PV_MSG02_NONCE))
    = (v', Ok tt).
Proof.
  destruct (@enclosed_key_overrides_known_key toy_aead toy_curves ex_started (pad [6]) [7] [66] [8] [65]
              (Tlv.encode (@m2_inner toy_curves [66] [8] [65] (pad [7]) true) ++ toy_tag PV_MSG02_NONCE))
    as (v' & Hv & _); try reflexivity.
  exists v'. exact Hv.
Defined.

Lemma accepted_m2_is_authentic_witness :
  exists secret client,
    ecdh_keypair ex_started = Some secret /\ ecdh_public ex_started = Some client.
Proof.
  assert (exists v', @process_m2 toy_aead toy_curves ex_started
      (@m2_message toy_curves [8]
         (Tlv.encode (@m2_inner toy_curves [66] [8] [65] (pad [7]) true) ++ toy_tag PV_MSG02_NONCE))
    = (v', Ok tt)) as [v' Hv].
  { eexists. vm_compute. reflexivity. }
  destruct (@accepted_m2_is_authentic toy_aead toy_curves _ _ _ Hv)
    as (secret & client & _ & _ & _ & _ & _ & _ & _ & Hs & Hc & _).
  exists secret, client. split; [exact Hs|exact Hc].
Defined.
End PairVerifyProps.
