(* ===== verification/Pairing.v ===== *)
(** * Channel and identity ([airplay-pairing/src/channel.rs], [controller.rs])

    [EncryptedChannel]: one cipher per direction behind the framing of the
    control channel.  [ControllerIdentity]: the identity file with its
    hexadecimal seed. *)

From S2P Require Import Prelude Wire Text ControlCipher CipherProps PairVerify.
Import ControlCipher CipherProps.

Module Pairing.

(** ** The channel *)

Record EncryptedChannel := { write_cipher : ControlCipher; read_cipher : ControlCipher }.
#[export] Instance eta_EncryptedChannel : Eta EncryptedChannel := fun c =>
  {| write_cipher := write_cipher c; read_cipher := read_cipher c |}.

Definition with_keys (wk rk : list Z) : EncryptedChannel :=
  {| write_cipher := new_unidirectional wk; read_cipher := new_unidirectional rk |}.
Definition new_channel (k : PairVerify.SessionKeys) : EncryptedChannel :=
  with_keys (PairVerify.write_key k) (PairVerify.read_key k).

Inductive ChannelError := RawTooLong | ChannelCrypto (e : CryptoError).

Section Channel.
Context `{Aead}.

Definition lift (r : Result (list Z) CryptoError) : Result (list Z) ChannelError :=
  match r with Ok x => Ok x | Err e => Err (ChannelCrypto e) end.

Definition channel_encrypt (c : EncryptedChannel) (plaintext : list Z)
  : EncryptedChannel * Result (list Z) ChannelError :=
  let '(k, r) := encrypt (write_cipher c) plaintext in (c <| write_cipher := k |>, lift r).
Definition channel_decrypt (c : EncryptedChannel) (framed : list Z)
  : EncryptedChannel * Result (list Z) ChannelError :=
  let '(k, r) := decrypt (read_cipher c) framed in (c <| read_cipher := k |>, lift r).
Definition channel_encrypt_raw (c : EncryptedChannel) (plaintext : list Z)
  : EncryptedChannel * Result (list Z) ChannelError :=
  if (0x400 <? length plaintext)%nat then (c, Err RawTooLong)
  else let '(k, r) := encrypt (write_cipher c) plaintext in
       (c <| write_cipher := k |>,
        match r with Ok x => Ok (drop 2 x) | Err e => Err (ChannelCrypto e) end).
Definition channel_decrypt_raw (c : EncryptedChannel) (data : list Z)
  : EncryptedChannel * Result (list Z) ChannelError :=
  let '(k, r) := decrypt_raw (read_cipher c) data in (c <| read_cipher := k |>, lift r).
Definition channel_reset (c : EncryptedChannel) : EncryptedChannel :=
  {| write_cipher := reset_counters (write_cipher c); read_cipher := reset_counters (read_cipher c) |}.

(** The size of the frame at the front of a buffer. *)
Definition parse_frame_length (data : list Z) : option Z :=
  match data with b0 :: b1 :: _ => Some (2 + from_le_bytes [b0; b1] + 16) | _ => None end.

(** Two ends of one channel. *)
Definition facing (a b : EncryptedChannel) : Prop :=
  write_key (write_cipher a) = read_key (read_cipher b)
  /\ encrypt_counter (write_cipher a) = decrypt_counter (read_cipher b).

(** A message of at most one block is one sealed block. *)
Lemma encrypt_single k p k' s :
  (length p <= MAX_BLOCK)%nat -> encrypt k p = (k', Ok s) ->
  exists c, s = block_aad p ++ c
    /\ seal (write_key k) (build_nonce_from_counter (encrypt_counter k)) (block_aad p) p = Some c
    /\ k' = k <| encrypt_counter := u64_succ (encrypt_counter k) |>.
Proof.
  intros Hp He. unfold encrypt in He. destruct p as [|b p]; [done|].
  cbn [encrypt_loop length] in He.
  rewrite Nat.min_l in He by (simpl in Hp; lia).
  change (S (length p)) with (length (b :: p)) in He.
  rewrite firstn_all, drop_all in He.
  rewrite wrap_id in He by (unfold in_width, MAX_BLOCK in *; lia).
  change (to_le_bytes 2 (Z.of_nat (length (b :: p)))) with (block_aad (b :: p)) in He.
  destruct (seal _ _ _ _) as [c|] eqn:Es; [|done]. exists c.
  destruct (length p); cbn in He; injection He as <- <-; done.
Qed.

(** A raw message, without its length prefix, opens on the other side: the
    receiver recovers the length from the size of the block, and the channel
    stays in step. *)
Theorem raw_message_roundtrip a b p a' s :
  facing a b -> channel_encrypt_raw a p = (a', Ok s) ->
  channel_decrypt_raw b s
  = (b <| read_cipher := (read_cipher b)
            <| decrypt_counter := encrypt_counter (write_cipher a') |> |>, Ok p)
  /\ length s = (length p + 16)%nat.
Proof.
  intros [Hk Hn] He. unfold channel_encrypt_raw in He.
  destruct (Nat.ltb_spec 0x400 (length p)) as [|Hp]; [done|].
  destruct (encrypt (write_cipher a) p) as [k [x|e]] eqn:Ee; [|done]. injection He as <- <-.
  apply encrypt_single in Ee as (c & -> & Hc & ->); [|exact Hp].
  change (drop 2 (block_aad p ++ c)) with c.
  pose proof (seal_length _ _ _ _ _ Hc) as Hl. split; [|done].
  unfold channel_decrypt_raw, decrypt_raw. destruct (Nat.ltb_spec (length c) 16); [lia|].
  replace (length c - 16)%nat with (length p) by lia.
  assert (Z.of_nat (length p) < 2 ^ 16) as Hw by lia.
  rewrite wrap_id by (unfold in_width; lia).
  rewrite (decrypt_block_step (read_cipher b) p c) by (done || by rewrite <- Hk, <- Hn).
  cbn. by rewrite Hn.
Qed.
End Channel.

(** ** The identity file *)

Inductive LoadError := MissingUuid | MissingSeed | InvalidHex | WrongSeedLength (n : nat) | Panicked.

Definition hex_lower (d : Z) : Z := if d <? 10 then 48 + d else 87 + d.
Definition hex_encode (bs : list Z) : text :=
  concat ((fun b => [hex_lower (b / 16); hex_lower (b mod 16)]) <$> bs).

Definition hex_value (c : Z) : option Z :=
  if in_range 48 57 c then Some (c - 48)
  else if in_range 97 102 c then Some (c - 87)
  else if in_range 65 70 c then Some (c - 55)
  else None.
(** [u8::from_str_radix] of two bytes; a leading plus sign is allowed. *)
Definition hex_pair (b0 b1 : Z) : option Z :=
  if b0 =? 43 then hex_value b1
  else match hex_value b0, hex_value b1 with
       | Some h, Some l => Some (16 * h + l)
       | _, _ => None
       end.

(** The pairs of [hex_decode]: slicing inside a character panics. *)
Fixpoint hex_pairs (bs : list Z) : Result (list Z) LoadError :=
  match bs with
  | [] => Ok []
  | [_] => Err InvalidHex
  | b0 :: b1 :: rest =>
      if match rest with b :: _ => is_cont b | [] => false end then Err Panicked
      else match hex_pair b0 b1 with
           | None => Err InvalidHex
           | Some v => let? vs := hex_pairs rest in Ok (v :: vs)
           end
  end.
Definition hex_decode (s : text) : Result (list Z) LoadError :=
  let bs := utf8_encode s in
  if Nat.odd (length bs) then Err InvalidHex else hex_pairs bs.

(** [load] and [save]: identifier and seed of the file's contents. *)
Definition load (contents : text) : Result (text * list Z) LoadError :=
  match lines contents with
  | [] => Err MissingUuid
  | [_] => Err MissingSeed
  | id :: seed_hex :: _ =>
      let? seed := hex_decode seed_hex in
      if negb (length seed =? 32)%nat then Err (WrongSeedLength (length seed)) else Ok (id, seed)
  end.
Definition save (id : text) (seed : list Z) : text := id ++ [LF] ++ hex_encode seed ++ [LF].

(** [from_keypair]: the identifier of a public key. *)
Definition identity_of (pk : list Z) : text := PairVerify.uuid_of pk.

Lemma hex_digit_ok d : 0 <= d < 16 ->
  hex_value (hex_lower d) = Some d /\ 48 <= hex_lower d < 0x80 /\ hex_lower d <> 43.
Proof.
  intros Hd. unfold hex_lower, hex_value, in_range. destruct (Z.ltb_spec d 10);
    repeat match goal with |- context [?a <=? ?b] => destruct (Z.leb_spec a b); try lia end;
    cbn [andb]; (split; [f_equal; lia|lia]).
Qed.

Lemma hex_encode_ascii bs : bytes_ok bs -> Forall (fun c => 48 <= c < 0x80) (hex_encode bs).
Proof.
  induction 1 as [|b bs Hb _ IH]; [constructor|]. unfold is_byte, in_width in Hb. unfold hex_encode in *.
  cbn [fmap list_fmap concat app].
  assert (0 <= b / 16 < 16) as H1 by (split; [apply Z.div_pos|apply Z.div_lt_upper_bound]; lia).
  pose proof (Z.mod_pos_bound b 16 ltac:(lia)) as H2.
  destruct (hex_digit_ok _ H1) as (_ & ? & _), (hex_digit_ok _ H2) as (_ & ? & _). auto.
Qed.

Lemma ascii_utf8 s : Forall (fun c => 48 <= c < 0x80) s -> utf8_encode s = s.
Proof.
  induction 1 as [|c s Hc _ IH]; [done|]. rewrite utf8_encode_cons, IH, utf8_char_ascii by lia. done.
Qed.

Lemma hex_pairs_encode bs : bytes_ok bs -> hex_pairs (hex_encode bs) = Ok bs.
Proof.
  induction 1 as [|b bs Hb Hbs IH]; [done|]. unfold is_byte, in_width in Hb.
  assert (0 <= b / 16 < 16) as H1 by (split; [apply Z.div_pos|apply Z.div_lt_upper_bound]; lia).
  pose proof (Z.mod_pos_bound b 16 ltac:(lia)) as H2.
  destruct (hex_digit_ok _ H1) as (E1 & _ & Hn), (hex_digit_ok _ H2) as (E2 & _ & _).
  pose proof (hex_encode_ascii bs Hbs) as Hascii. unfold hex_encode in *. cbn [fmap list_fmap concat app hex_pairs].
  assert (match concat ((fun b => [hex_lower (b / 16); hex_lower (b mod 16)]) <$> bs) with
          | b :: _ => is_cont b | [] => false end = false) as ->.
  { destruct Hascii as [|c l Hc _]; [done|]. unfold is_cont, in_range. lia. }
  unfold hex_pair. destruct (Z.eqb_spec (hex_lower (b / 16)) 43); [done|]. rewrite E1, E2, IH.
  cbn [result_bind]. do 2 f_equal. pose proof (Z.div_mod b 16). lia.
Qed.

Lemma hex_encode_length bs : length (hex_encode bs) = (2 * length bs)%nat.
Proof. unfold hex_encode. induction bs as [|b bs IH]; [done|]. cbn [fmap list_fmap concat length app]. lia. Qed.

(** A saved identity is loaded back exactly: the identifier, whatever its
    characters short of line ends, and all 32 bytes of the seed. *)
Theorem identity_file_roundtrip id seed :
  no_break id -> bytes_ok seed -> length seed = 32%nat -> load (save id seed) = Ok (id, seed).
Proof.
  intros [Hcr Hlf] Hs Hl. unfold load, save, lines. cbn [app].
  assert (forall c l, c ∈ l -> Forall (fun c => 48 <= c < 0x80) l -> 48 <= c) as Hin.
  { intros c l Hc Hf. rewrite Forall_forall in Hf. apply Hf in Hc. lia. }
  pose proof (hex_encode_ascii seed Hs) as Ha.
  assert (forall l, CR ∉ l -> rev (strip_cr (rev l ++ [])) = l) as Hstrip.
  { intros l Hc. rewrite app_nil_r. destruct (rev l) as [|c r] eqn:E.
    - destruct l; [done|]. apply (f_equal length) in E. rewrite length_rev in E. done.
    - cbn. destruct (Z.eqb_spec c CR) as [->|].
      + exfalso. apply Hc. apply list_elem_of_In, in_rev. rewrite E. by left.
      + rewrite <- E. apply rev_involutive. }
  rewrite lines_from_line, Hstrip by done.
  rewrite lines_from_line, Hstrip
    by (intros Hx; eapply Hin in Hx; [|exact Ha]; unfold CR, LF in *; lia).
  unfold hex_decode. rewrite ascii_utf8 by done. rewrite hex_encode_length, Nat.odd_mul, hex_pairs_encode by done.
  change (Nat.odd 2) with false. cbn [andb result_bind]. by rewrite Hl.
Qed.

Lemma identity_file_roundtrip_witness :
  load (save (lit "ABC") (replicate 32 171)) = Ok (lit "ABC", replicate 32 171).
Proof.
  apply identity_file_roundtrip; [split; by apply not_in_lit| |reflexivity].
  unfold bytes_ok. apply (bool_decide_unpack _). vm_compute. exact I.
Defined.

Lemma raw_message_roundtrip_witness :
  exists a' s,
    @channel_encrypt_raw toy_aead (with_keys [1] [2]) [7; 8] = (a', Ok s)
    /\ snd (@channel_decrypt_raw toy_aead (with_keys [2] [1]) s) = Ok [7; 8].
Proof.
  destruct (@channel_encrypt_raw toy_aead (with_keys [1] [2]) [7; 8]) as [a' [s|e]] eqn:E;
    [|exfalso; vm_compute in E; discriminate E].
  exists a', s. split; [reflexivity|].
  destruct (@raw_message_roundtrip toy_aead (with_keys [1] [2]) (with_keys [2] [1]) [7; 8] a' s) as [-> _];
    [split; reflexivity|exact E|reflexivity].
Defined.

(** A damaged identity file can bring the program down: an even number of
    bytes with a character across a pair boundary panics instead of being
    reported as invalid, and a sign is taken for a digit. *)
Example damaged_seed_panics :
  load (lit "id" ++ [LF] ++ lit "a" ++ [0xE9] ++ lit "b" ++ [LF]) = Err Panicked
  /\ hex_decode (lit "+f") = Ok [15].
Proof. split; vm_compute; reflexivity. Qed.
End Pairing.
