(* ===== verification/Supervisor.v ===== *)
(** * Session supervisor

    [apps/openaircast/src/backend/session.rs]: the restart matrix, the shared
    effective volumes, the generation gate, the health bookkeeping and the
    loop that owns the one live transport.

    The seams of the source stay seams here.  [SessionTransport] is the trait
    as a class: each method is a function of the transport's own state, which
    it may change.  A [Device], a [CalibrationProfile] and a diagnostics
    source are opaque types.  A boxed transport carries the generation whose
    start produced it ([born]), which names the box in the trace.

    What the runtime decides is an argument: a [Poll] holds what one round of
    the loop finds ready (cancellation, the outcome of the start in flight,
    the clock) and an [ActivationPoll] what one round of the activation wait
    finds.  The producers of the bounded queue act between rounds; the awaits
    inside a round (stopping, probing, setting a level) are run to their
    result.  [trace] records, newest first, the calls the supervisor makes on
    starts and transports and every edge it publishes. *)

From S2P Require Import Prelude Float32 AppState Model.
Import Model.

Module Supervisor.

(** ** The restart matrix *)

Inductive ReconfigureCause :=
| Membership | PrimaryFailure | LatencyChanged | ProtocolDesync | NetworkRebind
| ReceiverAddressChanged | TimingModeChanged | StreamFormatChanged | Resume'
| SecondaryRejoin | RemoveFailedTarget | MasterVolume | ReceiverVolume | Mute
| CaptureEndpoint | SecondaryFailure | DiscoveryMetadata | SavedGroupEdited
| CalibrationChanged.

#[export] Instance ReconfigureCause_eq_dec : EqDecision ReconfigureCause.
Proof. solve_decision. Defined.

(** [model::RestartReason] *)
Inductive RestartReason :=
| ByMembershipChange | BySavedGroupActivated | BySecondaryRejoin | ByFailedTargetRemoved
| ByPrimaryReplaced | ByReceiverAddressChanged | ByLocalInterfaceChanged
| ByTimingModeTransition | ByStreamFormatChanged | ByLatencyPresetChanged
| BySystemResume | ByDeadRtspRecovered | ByCalibrationChanged.

#[export] Instance RestartReason_eq_dec : EqDecision RestartReason.
Proof. solve_decision. Defined.

Definition requires_full_restart (self : ReconfigureCause) : bool :=
  match self with
  | Membership | PrimaryFailure | LatencyChanged | ProtocolDesync | NetworkRebind
  | ReceiverAddressChanged | TimingModeChanged | StreamFormatChanged | Resume'
  | SecondaryRejoin | RemoveFailedTarget | CalibrationChanged => true
  | _ => false
  end.

(** [unreachable!]: the row the guard has already turned away. *)
Inductive Panic := Unreachable.

Definition restart_reason (self : ReconfigureCause) : Result (option RestartReason) Panic :=
  if negb (requires_full_restart self) then Ok None
  else match self with
       | Membership => Ok (Some ByMembershipChange)
       | PrimaryFailure => Ok (Some ByPrimaryReplaced)
       | LatencyChanged => Ok (Some ByLatencyPresetChanged)
       | ProtocolDesync => Ok (Some ByDeadRtspRecovered)
       | NetworkRebind => Ok (Some ByLocalInterfaceChanged)
       | ReceiverAddressChanged => Ok (Some ByReceiverAddressChanged)
       | TimingModeChanged => Ok (Some ByTimingModeTransition)
       | StreamFormatChanged => Ok (Some ByStreamFormatChanged)
       | Resume' => Ok (Some BySystemResume)
       | SecondaryRejoin => Ok (Some BySecondaryRejoin)
       | RemoveFailedTarget => Ok (Some ByFailedTargetRemoved)
       | CalibrationChanged => Ok (Some ByCalibrationChanged)
       | _ => Err Unreachable
       end.

(** ** Effective volumes *)

(** [VersionedEffectiveVolumes]: what [EffectiveVolumeState] shares behind its
    lock; [EffectiveVolumeSnapshot] is a copy of it. *)
Record EffectiveVolumes := MkVolumes { version : Z; values : gmap DeviceId f32 }.

#[export] Instance EffectiveVolumes_eta : Eta EffectiveVolumes :=
  fun v => MkVolumes (version v) (values v).

Definition no_volumes : EffectiveVolumes := MkVolumes 0 ∅.

(** [state.values.insert(receiver, volume) != Some(volume)]: the comparison is
    the IEEE one, so a NaN level always counts as a change. *)
Definition volume_changed (old : option f32) (volume : f32) : bool :=
  match old with None => true | Some o => negb (f32_eqb o volume) end.

Definition set_effective (s : EffectiveVolumes) (receiver : DeviceId) (volume : f32)
  : EffectiveVolumes :=
  let volume := f32_clamp volume f32_zero f32_one in
  let changed := volume_changed (values s !! receiver) volume in
  let s := s <| values := <[receiver := volume]> (values s) |> in
  if changed then s <| version := u64_succ (version s) |> else s.

(** [EffectiveVolumeState::get] and [EffectiveVolumeSnapshot::get]. *)
Definition get_effective (s : EffectiveVolumes) (receiver : DeviceId) : f32 :=
  default f32_one (values s !! receiver).

Definition snapshot (s : EffectiveVolumes) : EffectiveVolumes :=
  MkVolumes (version s) (values s).

Definition is_current (s snap : EffectiveVolumes) : bool := version s =? version snap.

(** [release_if_current]: the release sender, whether its receiver is still
    there, and the result; a current snapshot takes the sender. *)
Definition release_if_current (s snap : EffectiveVolumes) (release : option bool)
  : option bool * bool :=
  if negb (version s =? version snap) then (release, false)
  else match release with
       | Some receiver_alive => (None, receiver_alive)
       | None => (None, false)
       end.

(** ** Gate and health *)

(** [GenerationGate::admit] *)
Definition gate_admits (accepted generation : Z) : Z * bool :=
  if accepted <? generation then (generation, true) else (accepted, false).

Inductive Health := Healthy | TimedOut.

(** [airplay_client::MemberFailure], with the phase the supervisor renders; the
    source error only reaches logs. *)
Record MemberFailure := MkFailure {
  failed_receiver : DeviceId; phase : SetupPhase; failure_retryable : bool }.

Definition TIMEOUT_STREAK_TO_FAIL : Z := 2.
Definition SESSION_REQUEST_CAPACITY : nat := 256.
Definition SUPERVISOR_CAPACITY : nat := 256.
Definition PROBE_INTERVAL : Z := 2 * 10 ^ 9.

Record HealthState := MkHealth {
  streak : gmap DeviceId Z;
  failed : gset DeviceId;
  urgent : gset DeviceId }.

#[export] Instance HealthState_eta : Eta HealthState :=
  fun h => MkHealth (streak h) (failed h) (urgent h).

Definition no_health : HealthState := MkHealth ∅ ∅ ∅.

(** [HealthState::reset] *)
Definition reset (h : HealthState) : HealthState :=
  h <| streak := ∅ |> <| failed := ∅ |> <| urgent := ∅ |>.

(** [{:?}] of the snapshot phase. *)
Definition phase_debug (p : SetupPhase) : string :=
  match p with
  | PhaseConnect => "Connect" | PhasePair => "Pair" | PhasePrimaryTiming => "PrimaryTiming"
  | PhaseRtspSetup => "RtspSetup" | PhaseSetPeers => "SetPeers"
  | PhaseBuildSender => "BuildSender" | PhaseStartAudio => "StartAudio"
  end.

Definition member_failed_error (f : MemberFailure) : string :=
  ("receiver rejected " +:+ phase_debug (phase f) +:+ " request")%string.

Definition control_failed_error (f : MemberFailure) : string :=
  ("receiver refused a " +:+ phase_debug (phase f)
     +:+ " control request; it keeps streaming")%string.

Definition probe_timeout_error : string := "the receiver stopped answering health probes".

(** One answer of a probe cycle: the body of the loop over [results].  The
    error, when there is one, is what the cycle reports for the receiver. *)
Definition probe_answer (armed : gset DeviceId) (h : HealthState)
    (result : DeviceId * Result Health MemberFailure) : HealthState * option (DeviceId * string) :=
  let '(receiver, answer) := result in
  if bool_decide (receiver ∈ failed h) then (h, None)
  else
    let '(h, failure) :=
      match answer with
      | Ok Healthy => (h <| streak := delete receiver (streak h) |>, None)
      | Ok TimedOut =>
          let s := sat_add 32 (default 0 (streak h !! receiver)) 1 in
          (h <| streak := <[receiver := s]> (streak h) |>,
           if (TIMEOUT_STREAK_TO_FAIL <=? s) || bool_decide (receiver ∈ armed)
           then Some probe_timeout_error else None)
      | Err f => (h, Some (member_failed_error f))
      end in
    match failure with
    | Some error =>
        (h <| streak := delete receiver (streak h) |>
           <| failed := {[receiver]} ∪ failed h |>, Some (receiver, error))
    | None => (h, None)
    end.

Fixpoint probe_answers (armed : gset DeviceId) (h : HealthState)
    (results : list (DeviceId * Result Health MemberFailure))
  : HealthState * list (DeviceId * string) :=
  match results with
  | [] => (h, [])
  | result :: rest =>
      let '(h, report) := probe_answer armed h result in
      let '(h, reports) := probe_answers armed h rest in
      (h, match report with Some r => r :: reports | None => reports end)
  end.

(** ** Transports, requests, edges *)

(** The trait [SessionTransport]; [activate] and [stop] are awaited against
    other events and appear in [ActivationPoll] and in the trace. *)
Class SessionTransport (T Source : Type) := {
  diagnostics_source : T -> option Source;
  primary : T -> option DeviceId;
  active_members : T -> gset DeviceId;
  setup_failures : T -> T * list MemberFailure;
  try_runtime_event : T -> T * Result (option DeviceId) Z;
  probe_members : T -> T * list (DeviceId * Result Health MemberFailure);
  set_member_volume : T -> DeviceId -> f32 -> T * Result unit MemberFailure }.

Record LatencyConfig := MkLatency { sender_buffer_ms : Z; render_delay_ms : Z }.

Inductive SessionStopReason := ReasonStopped | ReasonRestarted | ReasonFailed.

Inductive SessionSendError := Busy | Closed.

(** Edges published to the device actor. *)
Inductive SessionUpdate :=
| Starting (generation : Z)
| Active (generation : Z) (primary : DeviceId) (members : gset DeviceId)
    (partial_failures : list MemberFailure)
| MemberControlFailed (generation : Z) (receiver : DeviceId) (error : string)
| MemberFailed (generation : Z) (receiver : DeviceId) (primary : bool) (error : string)
| Recovering (generation : Z) (reason : RestartReason) (attempt : Z)
| Stopped (generation : Z).

Section Supervise.
Context {T Source Device CalibrationProfile : Type} `{SessionTransport T Source}.

(** [SessionRequest::Reconcile] carries the same fields. *)
Record ReconcileParams := MkParams {
  generation : Z;
  desired : list Device;
  preferred_primary : option DeviceId;
  latency : LatencyConfig;
  calibration : CalibrationProfile;
  teardown_only : bool }.

#[export] Instance ReconcileParams_eta : Eta ReconcileParams :=
  fun p => MkParams (generation p) (desired p) (preferred_primary p) (latency p)
             (calibration p) (teardown_only p).

Inductive SessionRequest :=
| Reconcile (params : ReconcileParams)
| SetVolume (receiver : DeviceId) (volume : f32)
| Probe
| NetworkChanged
| Suspend
| Resume.

Definition affects_session_generation (self : SessionRequest) : bool :=
  match self with
  | Reconcile _ | NetworkChanged | Suspend | Resume => true
  | SetVolume _ _ | Probe => false
  end.

(** A [Box<dyn SessionTransport>]. *)
Record Boxed := MkBoxed { born : Z; transport : T }.

#[export] Instance Boxed_eta : Eta Boxed := fun b => MkBoxed (born b) (transport b).

(** What the source does to starts and transports, and what it publishes. *)
Inductive Action :=
| SpawnStart (params : ReconcileParams)
| AbortStart (generation : Z)
| StartFailed (generation : Z)
| Delivered (generation : Z)
| Adopted (generation : Z)
| StopTransport (generation : Z)
| SendVolume (generation : Z) (receiver : DeviceId) (volume : f32)
| Edge (update : SessionUpdate).

Inductive SessionDiagnosticsState :=
| DiagInactive (generation : Z) (reason : SessionStopReason)
| DiagActive (generation : Z) (started_elapsed_ns : Z) (primary : option DeviceId)
    (members : gset DeviceId) (source : Source).

(** [oneshot::error::RecvError]: the start task ended without an answer. *)
Inductive RecvError := SenderDropped.

Definition StartOutcome : Type := Result T (string * list MemberFailure).

Inductive SupervisorStep :=
| StepAdopt (generation : Z) (outcome : Result StartOutcome RecvError)
| StepRequest (request : option SessionRequest)
| StepProbe.

(** The locals of [run_supervisor] and the channels it owns; [in_flight] keeps
    the generation of the attempt. *)
Record Supervisor := MkSupervisor {
  gate : Z;
  in_flight : option Z;
  active : option Boxed;
  retained : option ReconcileParams;
  health : HealthState;
  next_probe : Z;
  pending_step : option SupervisorStep;
  requests : list SessionRequest;
  volumes : EffectiveVolumes;
  updates : list SessionUpdate;
  diagnostics : SessionDiagnosticsState;
  running : bool;
  trace : list Action }.

#[export] Instance Supervisor_eta : Eta Supervisor :=
  fun s => MkSupervisor (gate s) (in_flight s) (active s) (retained s) (health s)
             (next_probe s) (pending_step s) (requests s) (volumes s) (updates s)
             (diagnostics s) (running s) (trace s).

Definition log (a : Action) (s : Supervisor) : Supervisor := s <| trace := a :: trace s |>.

(** A full update queue drops the edge. *)
Definition push_update (u : SessionUpdate) (s : Supervisor) : Supervisor :=
  let s := log (Edge u) s in
  if (length (updates s) <? SUPERVISOR_CAPACITY)%nat
  then s <| updates := updates s ++ [u] |> else s.

(** [SessionSupervisorHandle::remember_volume] and [try_send]. *)
Definition remember_volume (s : Supervisor) (receiver : DeviceId) (volume : f32) : Supervisor :=
  s <| volumes := set_effective (volumes s) receiver volume |>.

Definition try_send (s : Supervisor) (request : SessionRequest)
  : Supervisor * Result unit SessionSendError :=
  let s := match request with
           | SetVolume receiver volume => remember_volume s receiver volume
           | _ => s
           end in
  if negb (running s) then (s, Err Closed)
  else if (length (requests s) <? SESSION_REQUEST_CAPACITY)%nat
       then (s <| requests := requests s ++ [request] |>, Ok tt)
       else (s, Err Busy).

(** ** Diagnostics *)

Definition publish_active_diagnostics (generation elapsed : Z) (primary : DeviceId)
    (members : gset DeviceId) (source : Source) (s : Supervisor) : Supervisor :=
  let primary := if bool_decide (1 < size members)%nat then Some primary else None in
  s <| diagnostics := DiagActive generation elapsed primary members source |>.

Definition diagnostics_generation (d : SessionDiagnosticsState) : Z :=
  match d with DiagInactive g _ | DiagActive g _ _ _ _ => g end.

Definition publish_inactive_diagnostics (reason : SessionStopReason) (s : Supervisor)
  : Supervisor :=
  s <| diagnostics := DiagInactive (diagnostics_generation (diagnostics s)) reason |>.

(** [stop_bounded]: the outcome is ignored by every caller. *)
Definition stop_bounded (b : Boxed) (s : Supervisor) : Supervisor :=
  log (StopTransport (born b)) s.

(** Both halves occur in several handlers: dropping the start in flight, and
    stopping the active transport after tombstoning its diagnostics. *)
Definition abort_in_flight (s : Supervisor) : Supervisor :=
  match in_flight s with
  | Some g => log (AbortStart g) (s <| in_flight := None |>)
  | None => s
  end.

Definition stop_active (reason : SessionStopReason) (s : Supervisor) : Supervisor :=
  match active s with
  | Some b =>
      stop_bounded b (publish_inactive_diagnostics reason (s <| active := None |>))
  | None => s
  end.

Definition supersede (reason : SessionStopReason) (s : Supervisor) : Supervisor :=
  stop_active reason (abort_in_flight s).

Definition spawn_start (params : ReconcileParams) (s : Supervisor) : Supervisor :=
  log (SpawnStart params) (s <| in_flight := Some (generation params) |>).

Definition start_generation (params : ReconcileParams) (s : Supervisor) : Supervisor :=
  let '(accepted, admitted) := gate_admits (gate s) (generation params) in
  let s := s <| gate := accepted |> in
  if negb admitted then s
  else
    let stop_reason := if teardown_only params then ReasonStopped else ReasonRestarted in
    let s := supersede stop_reason s in
    let s := s <| health := reset (health s) |> in
    let s := s <| retained := Some params |> in
    if bool_decide (desired params = [])
    then push_update
           (if teardown_only params then Stopped (generation params)
            else Recovering (generation params) ByDeadRtspRecovered 0) s
    else spawn_start params (push_update (Starting (generation params)) s).

Definition rebuild_for_cause (reason : RestartReason) (s : Supervisor) : Supervisor :=
  match retained s with
  | None => s
  | Some params =>
      let previous := params <| generation := u64_succ (generation params) |> in
      start_generation previous (push_update (Recovering (gate s) reason 0) s)
  end.

(** ** Health probes *)

Fixpoint drain_events (n : nat) (t : T) (urgent : gset DeviceId) : T * gset DeviceId :=
  match n with
  | O => (t, urgent)
  | S n =>
      match try_runtime_event t with
      | (t, Ok (Some receiver)) => drain_events n t ({[receiver]} ∪ urgent)
      | (t, Ok None) | (t, Err _) => (t, urgent)
      end
  end.

Definition drain_runtime_events (t : T) (urgent : gset DeviceId) : T * gset DeviceId * bool :=
  let '(t, urgent') := drain_events SESSION_REQUEST_CAPACITY t urgent in
  (t, urgent', (size urgent <? size urgent')%nat).

Definition push_failures (generation : Z) (primary : option DeviceId)
    (reports : list (DeviceId * string)) (s : Supervisor) : Supervisor :=
  foldl (fun s '(receiver, error) =>
           push_update (MemberFailed generation receiver
                          (bool_decide (primary = Some receiver)) error) s) s reports.

Definition run_probe_cycle (s : Supervisor) : Supervisor :=
  match active s with
  | None => s
  | Some b =>
      let '(t, armed, _) := drain_runtime_events (transport b) (urgent (health s)) in
      let leader := primary t in
      let '(t, results) := probe_members t in
      let '(h, reports) := probe_answers armed ((health s) <| urgent := ∅ |>) results in
      push_failures (gate s) leader reports
        (s <| active := Some (b <| transport := t |>) |> <| health := h |>)
  end.

(** ** Requests *)

Definition apply_inline_request (request : SessionRequest) (s : Supervisor) : Supervisor :=
  match request with
  | Reconcile _ => s
  | SetVolume receiver _ =>
      let volume := get_effective (volumes s) receiver in
      match active s with
      | None => s
      | Some b =>
          if negb (bool_decide (receiver ∈ active_members (transport b))) then s
          else
            let '(t, result) := set_member_volume (transport b) receiver volume in
            let s := log (SendVolume (born b) receiver volume)
                       (s <| active := Some (b <| transport := t |>) |>) in
            match result with
            | Err failure =>
                push_update (MemberControlFailed (gate s) receiver
                               (control_failed_error failure)) s
            | Ok _ => s
            end
      end
  | Probe => run_probe_cycle s
  | NetworkChanged => rebuild_for_cause ByLocalInterfaceChanged s
  | Suspend =>
      let had_session := bool_decide (is_Some (in_flight s)) || bool_decide (is_Some (active s)) in
      let s := abort_in_flight s in
      let s := stop_active ReasonRestarted s in
      let s := s <| health := reset (health s) |> in
      if had_session then push_update (Stopped (gate s)) s else s
  | Resume => rebuild_for_cause BySystemResume s
  end.

(** The fold of [coalesce] over the popped and the still queued requests. *)
Fixpoint coalesce_from (pending : list SessionRequest) (newest : option ReconcileParams)
  : list SessionRequest * option ReconcileParams :=
  match pending with
  | [] => ([], newest)
  | Reconcile params :: rest =>
      let supersedes := match newest with
                        | None => true
                        | Some current => generation current <? generation params
                        end in
      coalesce_from rest (if supersedes then Some params else newest)
  | other :: rest =>
      let '(inline, newest) := coalesce_from rest newest in (other :: inline, newest)
  end.

Definition coalesce (first : SessionRequest) (s : Supervisor)
  : Supervisor * (list SessionRequest * option ReconcileParams) :=
  (s <| requests := [] |>, coalesce_from (first :: requests s) None).

Definition on_requests (first : SessionRequest) (s : Supervisor) : Supervisor :=
  let '(s, (inline, newest_reconcile)) := coalesce first s in
  let s := foldl (fun s request => apply_inline_request request s) s inline in
  match newest_reconcile with
  | Some params => start_generation params s
  | None => s
  end.

(** ** Activation and adoption *)

(** One round of the [select!] of [activate_prepared]: what the producers have
    sent before it, and which arms are ready.  [activated] is the outcome of
    [activate] with the transport it leaves. *)
Record ActivationPoll := MkActivationPoll {
  sent : list SessionRequest;
  act_cancelled : bool;
  deadline : bool;
  act_producers_gone : bool;
  activated : option (T * Result unit string) }.

Inductive ActivationStep :=
| ActReady (t : T) (result : Result unit string)
| ActSuperseded (request : option SessionRequest)
| ActShutdown.

Definition send_all (s : Supervisor) (rs : list SessionRequest) : Supervisor :=
  foldl (fun s r => fst (try_send s r)) s rs.

(** A request the activation wait consumes without giving up. *)
Definition ignored_while_activating (generation' : Z) (request : SessionRequest) : bool :=
  match request with
  | SetVolume _ _ | Probe => true
  | Reconcile params => generation params <=? generation'
  | _ => false
  end.

Definition activation_timeout : string := "safe audio activation timed out".

(** [None]: no arm has decided yet. *)
Fixpoint activate_prepared (polls : list ActivationPoll) (t : T) (generation : Z)
    (s : Supervisor) : Supervisor * option ActivationStep :=
  match polls with
  | [] => (s, None)
  | p :: polls =>
      let s := send_all s (sent p) in
      if act_cancelled p then (s, Some ActShutdown)
      else if deadline p then (s, Some (ActReady t (Err activation_timeout)))
      else match requests s with
           | request :: rest =>
               let s := s <| requests := rest |> in
               if ignored_while_activating generation request
               then activate_prepared polls t generation s
               else (s, Some (ActSuperseded (Some request)))
           | [] =>
               if act_producers_gone p then (s, Some (ActSuperseded None))
               else match activated p with
                    | Some (t, result) => (s, Some (ActReady t result))
                    | None => activate_prepared polls t generation s
                    end
           end
  end.

(** One round of the supervisor loop: the ready arms, the clock when the
    round starts and when it ends, and what the activation wait will see. *)
Record Poll := MkPoll {
  cancelled : bool;
  outcome : option (Result StartOutcome RecvError);
  producers_gone : bool;
  now : Z;
  after : Z;
  elapsed : Z;
  activation : list ActivationPoll }.

(** The rest of the [Adopt] arm once [activate] has succeeded. *)
Definition adopt_activated (p : Poll) (b : Boxed) (s : Supervisor) : Supervisor :=
  let leader := primary (transport b) in
  let members := active_members (transport b) in
  let '(t, failures) := setup_failures (transport b) in
  let b := b <| transport := t |> in
  match leader with
  | Some leader =>
      let s := match diagnostics_source t with
               | Some source =>
                   publish_active_diagnostics (born b) (elapsed p) leader members source s
               | None => s
               end in
      let s := push_update (Active (born b) leader members failures) s in
      let '(t, armed, any) := drain_runtime_events t (urgent (health s)) in
      let s := s <| health := (health s) <| urgent := armed |> |> in
      let s := if any then s <| next_probe := after p |> else s in
      log (Adopted (born b)) (s <| active := Some (b <| transport := t |>) |>)
  | None => push_update (Recovering (born b) ByDeadRtspRecovered 0) (stop_bounded b s)
  end.

Inductive Continue := Break | Loop.

(** [SupervisorStep::Adopt]; [None] while the activation is still awaited. *)
Definition on_adopt (p : Poll) (g : Z) (result : Result StartOutcome RecvError) (s : Supervisor)
  : option (Supervisor * Continue) :=
  match result with
  | Ok (Ok t) =>
      let s := log (Delivered g) s in
      if g =? gate s then
        match activate_prepared (activation p) t g s with
        | (_, None) => None
        | (s, Some ActShutdown) => Some (stop_bounded (MkBoxed g t) s, Break)
        | (s, Some (ActSuperseded request)) =>
            Some ((stop_bounded (MkBoxed g t) s) <| pending_step := Some (StepRequest request) |>,
                  Loop)
        | (s, Some (ActReady t (Err _))) =>
            Some (push_update (Recovering g ByDeadRtspRecovered 0)
                    (stop_bounded (MkBoxed g t) s), Loop)
        | (s, Some (ActReady t (Ok _))) => Some (adopt_activated p (MkBoxed g t) s, Loop)
        end
      else Some (stop_bounded (MkBoxed g t) s, Loop)
  | Ok (Err _) =>
      let s := log (StartFailed g) s in
      if g =? gate s
      then Some (push_update (Recovering g ByDeadRtspRecovered 0) s, Loop) else Some (s, Loop)
  | Err _ => Some (log (StartFailed g) s, Loop)
  end.

(** ** The loop *)

Inductive Waited :=
| WaitCancelled
| WaitStep (step : SupervisorStep)
| WaitBlocked.

Definition wait_request (p : Poll) (s : Supervisor) : Supervisor * Waited :=
  match requests s with
  | request :: rest => (s <| requests := rest |>, WaitStep (StepRequest (Some request)))
  | [] =>
      if producers_gone p then (s, WaitStep (StepRequest None))
      else if next_probe s <=? now p then (s, WaitStep StepProbe)
      else (s, WaitBlocked)
  end.

Definition wait_step (p : Poll) (s : Supervisor) : Supervisor * Waited :=
  if cancelled p then (s, WaitCancelled)
  else match pending_step s with
       | Some step => (s <| pending_step := None |>, WaitStep step)
       | None =>
           match in_flight s, outcome p with
           | Some g, Some result => (s <| in_flight := None |>, WaitStep (StepAdopt g result))
           | _, _ => wait_request p s
           end
       end.

Definition handle_step (p : Poll) (interval : Z) (step : SupervisorStep) (s : Supervisor)
  : option (Supervisor * Continue) :=
  match step with
  | StepProbe => Some ((run_probe_cycle s) <| next_probe := after p + interval |>, Loop)
  | StepAdopt g result => on_adopt p g result s
  | StepRequest None => Some (s, Break)
  | StepRequest (Some request) => Some (on_requests request s, Loop)
  end.

(** The code after the loop; the receiver of the request queue is dropped
    with the task. *)
Definition final_teardown (s : Supervisor) : Supervisor :=
  (stop_active ReasonStopped (abort_in_flight s)) <| running := false |>.

(** What follows the [match step]; a round that is still waiting changes
    nothing. *)
Definition finish_round (s : Supervisor) (round : option (Supervisor * Continue)) : Supervisor :=
  match round with
  | Some (s', Loop) => s'
  | Some (s', Break) => final_teardown s'
  | None => s
  end.

Definition iterate (interval : Z) (p : Poll) (s : Supervisor) : Supervisor :=
  if negb (running s) then s
  else match wait_step p s with
       | (s', WaitCancelled) => final_teardown s'
       | (_, WaitBlocked) => s
       | (s', WaitStep step) => finish_round s (handle_step p interval step s')
       end.

(** [SessionSupervisor::start_with_diagnostics_config]: the state the spawned
    task begins with. *)
Definition initial (interval now : Z) (volumes : EffectiveVolumes) : Supervisor :=
  MkSupervisor 0 None None None no_health (now + interval) None [] volumes []
    (DiagInactive 0 ReasonStopped) true [].

(** Everything that happens to a supervisor: its producers, the consumer of
    its edges, and its own rounds. *)
Inductive Event :=
| Send (request : SessionRequest)
| Remember (receiver : DeviceId) (volume : f32)
| TakeUpdate
| Round (p : Poll).

Definition handle_event (interval : Z) (e : Event) (s : Supervisor) : Supervisor :=
  match e with
  | Send request => fst (try_send s request)
  | Remember receiver volume => remember_volume s receiver volume
  | TakeUpdate => s <| updates := tail (updates s) |>
  | Round p => iterate interval p s
  end.

Definition run_supervisor (interval : Z) (es : list Event) (s : Supervisor) : Supervisor :=
  foldl (fun s e => handle_event interval e s) s es.

(** ** The session protocol

    What a supervisor promises about starts and transports, as an automaton
    over the actions: at most one start or transport exists at a time. *)

Inductive Phase :=
| Idle
| Connecting (generation : Z)
| Prepared (generation : Z)
| Live (generation : Z).

Definition edge_allowed (ph : Phase) (u : SessionUpdate) : Prop :=
  match u with
  | Starting _ | Stopped _ => ph = Idle
  | Active g _ _ _ => ph = Prepared g
  | MemberFailed g _ _ _ | MemberControlFailed g _ _ => ph = Live g
  | Recovering _ _ _ => True
  end.

(** [observe (last, ph) a (last', ph')]; [last] is the newest generation a
    start was spawned for. *)
Inductive observe : Z * Phase -> Action -> Z * Phase -> Prop :=
| obs_spawn last params :
    last < generation params ->
    observe (last, Idle) (SpawnStart params) (generation params, Connecting (generation params))
| obs_abort last g : observe (last, Connecting g) (AbortStart g) (last, Idle)
| obs_fail last g : observe (last, Connecting g) (StartFailed g) (last, Idle)
| obs_deliver last g : observe (last, Connecting g) (Delivered g) (last, Prepared g)
| obs_adopt last g : observe (last, Prepared g) (Adopted g) (last, Live g)
| obs_discard last g : observe (last, Prepared g) (StopTransport g) (last, Idle)
| obs_stop last g : observe (last, Live g) (StopTransport g) (last, Idle)
| obs_volume last g r v : observe (last, Live g) (SendVolume g r v) (last, Live g)
| obs_edge last ph u : edge_allowed ph u -> observe (last, ph) (Edge u) (last, ph).

(** A trace, newest first, that the protocol accepts. *)
Inductive follows : list Action -> Z * Phase -> Prop :=
| follows_start : follows [] (0, Idle)
| follows_next t a p p' : follows t p -> observe p a p' -> follows (a :: t) p'.

Definition phase_of (s : Supervisor) : Phase :=
  match in_flight s, active s with
  | Some g, _ => Connecting g
  | None, Some b => Live (born b)
  | None, None => Idle
  end.
End Supervise.
End Supervisor.
