(* ===== verification/SupervisorProps.v ===== *)
(** * What the session supervisor guarantees

    The invariant of the supervisor loop and the theorems about
    [Supervisor.v]: the trace of every run is accepted by the session
    protocol, the newest reconcile of a batch wins, the probe policy is the
    documented one, and the levels in force are the newest ones sent. *)

From S2P Require Import Prelude Float32 AppState Model Supervisor.
Import Model Supervisor.

Module SupervisorProps.

Section Loop.
Context {T Source Device CalibrationProfile : Type} `{SessionTransport T Source}.
Notation Supervisor := (@Supervisor T Source Device CalibrationProfile).
Notation Event := (@Event T Device CalibrationProfile).
Implicit Types (s : Supervisor) (g : Z) (es : list Event).

(** ** The invariant *)

(** What the locals of the loop hold in each phase. *)
Definition holds (ph : Phase) (s : Supervisor) : Prop :=
  match ph with
  | Idle => in_flight s = None /\ active s = None
  | Connecting g => in_flight s = Some g /\ active s = None /\ g = gate s
  | Prepared g => in_flight s = None /\ active s = None /\ g = gate s
  | Live g => in_flight s = None /\ (exists b, active s = Some b /\ born b = g) /\ g = gate s
  end.

Definition only_requests_pend (s : Supervisor) : Prop :=
  match pending_step s with None | Some (StepRequest _) => True | _ => False end.

(** A running supervisor; [last] is the newest generation it has spawned. *)
Record inv (last : Z) (ph : Phase) (s : Supervisor) : Prop := {
  inv_holds : holds ph s;
  inv_diag : forall g e p m src, diagnostics s = DiagActive g e p m src -> ph = Live g;
  inv_retained : forall p, retained s = Some p -> generation p = gate s;
  inv_pending : only_requests_pend s;
  inv_running : running s = true;
  inv_last : last <= gate s;
  inv_trace : follows (trace s) (last, ph) }.

(** [inv] reads eight fields; the others may change freely. *)
Lemma inv_frame last ph s s' :
  inv last ph s ->
  gate s' = gate s -> in_flight s' = in_flight s -> active s' = active s ->
  diagnostics s' = diagnostics s -> retained s' = retained s ->
  pending_step s' = pending_step s -> running s' = running s -> trace s' = trace s ->
  inv last ph s'.
Proof.
  intros [Hh Hd Hr Hp Hs Hl Ht] Eg Ei Ea Ed Er Ep Eu Et. split.
  - destruct ph; cbn in *; rewrite ?Eg, ?Ei, ?Ea; exact Hh.
  - intros *. rewrite Ed. apply Hd.
  - intros p. rewrite Er, Eg. apply Hr.
  - unfold only_requests_pend. rewrite Ep. exact Hp.
  - by rewrite Eu.
  - by rewrite Eg.
  - by rewrite Et.
Qed.

Ltac frame := eapply inv_frame; [eassumption|reflexivity..].

(** A logged action that leaves the phase alone. *)
Lemma inv_log last ph a s :
  inv last ph s -> observe (last, ph) a (last, ph) -> inv last ph (log a s).
Proof.
  intros [Hh Hd Hr Hp Hs Hl Ht] Ha. split; try assumption. econstructor; eassumption.
Qed.

Lemma inv_push last ph u s : edge_allowed ph u -> inv last ph s -> inv last ph (push_update u s).
Proof.
  intros Hu Hi. unfold push_update.
  assert (inv last ph (log (Edge u) s)) by (apply inv_log; [exact Hi|by constructor]).
  case_match; [frame|assumption].
Qed.

(** ** Starting a generation *)

Definition settled (ph : Phase) : Prop := match ph with Prepared _ => False | _ => True end.

Lemma supersede_idle last ph reason s :
  inv last ph s -> settled ph -> inv last Idle (supersede reason s).
Proof.
  intros [Hh Hd Hr Hp Hs Hl Ht] Hset. unfold supersede, abort_in_flight, stop_active.
  destruct ph as [|g|g|g]; cbn in Hh; [..|destruct Hset|].
  - destruct Hh as [Hf Ha]. rewrite Hf, Ha. by split.
  - destruct Hh as (Hf & Ha & ->). rewrite Hf. cbn. rewrite Ha. split; cbn; try done.
    + intros * E. specialize (Hd _ _ _ _ _ E). discriminate.
    + econstructor; [exact Ht|constructor].
  - destruct Hh as (Hf & (b & Ha & Hb) & ->). rewrite Hf. cbn. rewrite Ha. split; cbn; try done.
    econstructor; [exact Ht|]. rewrite Hb. constructor.
Qed.

Lemma supersede_gate reason s a :
  supersede reason (s <| gate := a |>) = (supersede reason s) <| gate := a |>.
Proof.
  destruct s as [gt fl ac]. unfold supersede, abort_in_flight, stop_active. cbn.
  destruct fl; cbn; destruct ac; reflexivity.
Qed.

Lemma supersede_keeps_gate reason s : gate (supersede reason s) = gate s.
Proof.
  unfold supersede, abort_in_flight, stop_active.
  destruct (in_flight s); cbn; destruct (active s); reflexivity.
Qed.

Lemma inv_admitted last s params h :
  inv last Idle s -> gate s < generation params ->
  inv last Idle (s <| gate := generation params |> <| health := h |> <| retained := Some params |>).
Proof.
  intros [Hh Hd Hr Hp Hs Hl Ht] Hg. split; cbn; try done; [|lia].
  intros p E. by injection E as <-.
Qed.

Lemma inv_spawn last s params :
  inv last Idle s -> gate s = generation params -> last < generation params ->
  inv (generation params) (Connecting (generation params)) (spawn_start params s).
Proof.
  intros [[Hf Ha] Hd Hr Hp Hs Hl Ht] Hg Hlt. split; cbn; try done; [|lia|].
  - intros * E. specialize (Hd _ _ _ _ _ E). discriminate.
  - econstructor; [exact Ht|]. by constructor.
Qed.

Lemma push_update_gate u s : gate (push_update u s) = gate s.
Proof. unfold push_update. case_match; reflexivity. Qed.

(** Some phase with nothing prepared: where the loop is between rounds. *)
Definition steady (s : Supervisor) : Prop := exists last ph, inv last ph s /\ settled ph.

Lemma steady_start_generation params s : steady s -> steady (start_generation params s).
Proof.
  intros (last & ph & Hi & Hset). unfold start_generation, gate_admits.
  destruct (Z.ltb_spec (gate s) (generation params)) as [Hlt|Hge]; cbn [negb].
  2: { exists last, ph. split; [|exact Hset]. frame. }
  rewrite supersede_gate.
  set (s0 := supersede _ s).
  assert (H0 : inv last Idle s0) by by eapply supersede_idle.
  assert (Hg0 : gate s0 < generation params) by by (unfold s0; rewrite supersede_keeps_gate).
  pose proof (inv_last _ _ _ H0) as Hl.
  pose proof (inv_admitted _ _ _ (reset (health s0)) H0 Hg0) as H1. case_bool_decide.
  - exists last, Idle. split; [|exact I]. apply inv_push; [by case_match|exact H1].
  - exists (generation params), (Connecting (generation params)). split; [|exact I].
    apply inv_spawn with last; [by apply inv_push|by rewrite push_update_gate|lia].
Qed.

Lemma steady_push_recovering g r n s : steady s -> steady (push_update (Recovering g r n) s).
Proof. intros (last & ph & Hi & Hs). exists last, ph. split; [by apply inv_push|exact Hs]. Qed.

Lemma steady_rebuild reason s : steady s -> steady (rebuild_for_cause reason s).
Proof.
  intros Hs. unfold rebuild_for_cause. destruct (retained s); [|exact Hs].
  by apply steady_start_generation, steady_push_recovering.
Qed.

(** ** Inline requests *)

Lemma steady_live s b :
  steady s -> active s = Some b -> exists last, inv last (Live (born b)) s /\ born b = gate s.
Proof.
  intros (last & ph & Hi & Hset) Ha. exists last. pose proof (inv_holds _ _ _ Hi) as Hh.
  destruct ph; cbn in Hh; try (destruct_and?; congruence).
  destruct Hh as (_ & (b' & Ha' & <-) & Hg). rewrite Ha in Ha'. injection Ha' as <-. auto.
Qed.

Lemma inv_new_transport last s b t :
  active s = Some b -> inv last (Live (born b)) s ->
  inv last (Live (born b)) (s <| active := Some (b <| transport := t |>) |>).
Proof.
  intros Ha [(Hf & _ & Hg) Hd Hr Hp Hs Hl Ht]. split; cbn; try done.
  split; [done|]. split; [|done]. eexists. split; reflexivity.
Qed.

Lemma inv_push_failures last g leader reports s :
  inv last (Live g) s -> inv last (Live g) (push_failures g leader reports s).
Proof.
  unfold push_failures. revert s. induction reports as [|[r e] rs IH]; intros s Hs; cbn; [exact Hs|].
  by apply IH, inv_push.
Qed.

Lemma steady_probe_cycle s : steady s -> steady (run_probe_cycle s).
Proof.
  intros Hs. unfold run_probe_cycle. destruct (active s) as [b|] eqn:Ha; [|exact Hs].
  destruct (steady_live _ _ Hs Ha) as (last & Hi & Hg).
  destruct (drain_runtime_events _ _) as [[t armed] any].
  destruct (probe_members t) as [t' results]. destruct (probe_answers _ _ _) as [h reports].
  exists last, (Live (born b)). split; [|exact I]. rewrite <- Hg. apply inv_push_failures.
  eapply inv_frame; [by apply (inv_new_transport last s b t')|reflexivity..].
Qed.

Lemma steady_set_volume r v s : steady s -> steady (apply_inline_request (SetVolume r v) s).
Proof.
  intros Hs. cbn. destruct (active s) as [b|] eqn:Ha; [|exact Hs].
  destruct (steady_live _ _ Hs Ha) as (last & Hi & Hg).
  case_bool_decide; cbn [negb]; [|exact Hs].
  destruct (set_member_volume _ _ _) as [t [[]|f]]; exists last, (Live (born b)); (split; [|exact I]).
  - apply inv_log; [by apply inv_new_transport|constructor].
  - apply inv_push; [cbn; congruence|]. apply inv_log; [by apply inv_new_transport|constructor].
Qed.

Lemma steady_suspend s : steady s -> steady (apply_inline_request Suspend s).
Proof.
  intros (last & ph & Hi & Hset). cbn [apply_inline_request].
  pose proof (supersede_idle _ _ ReasonRestarted _ Hi Hset) as H0. unfold supersede in H0.
  set (s0 := stop_active _ _) in *. exists last, Idle. split; [|exact I].
  case_match; [apply inv_push; [reflexivity|]|]; frame.
Qed.

Lemma steady_inline request s : steady s -> steady (apply_inline_request request s).
Proof.
  intros Hs. destruct request.
  - exact Hs.
  - by apply steady_set_volume.
  - by apply steady_probe_cycle.
  - by apply steady_rebuild.
  - by apply steady_suspend.
  - by apply steady_rebuild.
Qed.

Lemma steady_frame s s' :
  steady s ->
  gate s' = gate s -> in_flight s' = in_flight s -> active s' = active s ->
  diagnostics s' = diagnostics s -> retained s' = retained s ->
  pending_step s' = pending_step s -> running s' = running s -> trace s' = trace s ->
  steady s'.
Proof. intros (last & ph & Hi & Hset) **. exists last, ph. split; [by eapply inv_frame|done]. Qed.

Lemma steady_requests first s : steady s -> steady (on_requests first s).
Proof.
  intros Hs. unfold on_requests, coalesce. destruct (coalesce_from _ _) as [inline newest].
  assert (Hq : steady (s <| requests := [] |>)) by by eapply steady_frame.
  assert (Hf : forall q s', steady s' ->
    steady (foldl (fun s request => apply_inline_request request s) s' q)).
  { induction q as [|r q IH]; intros s' Hs'; cbn; [exact Hs'|]. by apply IH, steady_inline. }
  destruct newest; [apply steady_start_generation|]; by apply Hf.
Qed.

(** ** Adoption *)

Lemma inv_leaves_connecting last g a ph s :
  inv last (Connecting g) s -> observe (last, Connecting g) a (last, ph) ->
  (ph = Idle \/ ph = Prepared g) -> inv last ph (log a (s <| in_flight := None |>)).
Proof.
  intros [(Hf & Ha & Hg) Hd Hr Hp Hs Hl Ht] Ho Hph. split; try assumption.
  - destruct Hph as [-> | ->]; cbn; auto.
  - intros * E. specialize (Hd _ _ _ _ _ E). discriminate.
  - econstructor; eassumption.
Qed.

Lemma inv_discard last g t s :
  inv last (Prepared g) s -> inv last Idle (stop_bounded (MkBoxed g t) s).
Proof.
  intros [(Hf & Ha & Hg) Hd Hr Hp Hs Hl Ht]. split; try done.
  - intros * E. specialize (Hd _ _ _ _ _ E). discriminate.
  - econstructor; [exact Ht|constructor].
Qed.

Lemma inv_try_send last ph r s : inv last ph s -> inv last ph (fst (try_send s r)).
Proof.
  intros Hi. unfold try_send. destruct r; repeat case_match; cbn; frame.
Qed.

Lemma inv_send_all last ph rs s : inv last ph s -> inv last ph (send_all s rs).
Proof.
  unfold send_all. revert s. induction rs as [|r rs IH]; intros s Hi; cbn; [exact Hi|].
  by apply IH, inv_try_send.
Qed.

Lemma inv_activate last ph polls t g s s' o :
  inv last ph s -> activate_prepared polls t g s = (s', o) -> inv last ph s'.
Proof.
  revert s. induction polls as [|p polls IH]; intros s Hi; cbn [activate_prepared].
  { by intros [= <- _]. }
  pose proof (inv_send_all _ _ (sent p) _ Hi) as Hs. set (s1 := send_all s (sent p)) in *.
  destruct (act_cancelled p); [by intros [= <- _]|].
  destruct (deadline p); [by intros [= <- _]|].
  destruct (requests s1) as [|r rest].
  - destruct (act_producers_gone p); [by intros [= <- _]|].
    destruct (activated p) as [[t' result]|]; [by intros [= <- _]|]. by apply IH.
  - assert (Hq : inv last ph (s1 <| requests := rest |>)) by frame.
    destruct (ignored_while_activating g r); [by apply IH|by intros [= <- _]].
Qed.

Lemma inv_becomes_live last g b s d n h :
  inv last (Prepared g) s -> born b = g ->
  (d = diagnostics s \/ exists e p m src, d = DiagActive g e p m src) ->
  inv last (Live g)
    (log (Adopted g) (s <| diagnostics := d |> <| health := h |> <| next_probe := n |>
                        <| active := Some b |>)).
Proof.
  intros [(Hf & Ha & Hg) Hd Hr Hp Hs Hl Ht] Hb Hdiag. split; cbn; try done.
  - split; [done|]. split; [|done]. by exists b.
  - intros * E. destruct Hdiag as [-> | (?&?&?&?&->)].
    + specialize (Hd _ _ _ _ _ E). discriminate.
    + by injection E as ->.
  - econstructor; [exact Ht|constructor].
Qed.

Lemma push_update_diagnostics u d s :
  push_update u (s <| diagnostics := d |>) = (push_update u s) <| diagnostics := d |>.
Proof. destruct s. unfold push_update. cbn. case_match; reflexivity. Qed.

Lemma steady_adopt_activated p b last s :
  inv last (Prepared (born b)) s -> steady (adopt_activated p b s).
Proof.
  intros Hi. unfold adopt_activated. destruct (setup_failures _) as [t failures]. cbn -[push_update].
  destruct (primary (transport b)) as [leader|].
  2: { exists last, Idle. split; [|exact I]. apply inv_push; [exact I|].
       by apply (inv_discard last (born b) (transport b)). }
  set (d := match diagnostics_source t with
            | Some source => DiagActive (born b) (elapsed p)
                (if bool_decide (1 < size (active_members (transport b)))%nat
                 then Some leader else None) (active_members (transport b)) source
            | None => diagnostics s end).
  set (u := Active _ _ _ _).
  replace (push_update u (match diagnostics_source t with Some _ => _ | None => _ end))
    with ((push_update u s) <| diagnostics := d |>).
  2: { rewrite <- push_update_diagnostics. unfold d. destruct (diagnostics_source t);
         [reflexivity|]. destruct s; reflexivity. }
  assert (Hp : inv last (Prepared (born b)) (push_update u s)) by by apply inv_push.
  set (s1 := push_update u s) in *.
  destruct (drain_runtime_events _ _) as [[t' armed] any].
  exists last, (Live (born b)). split; [|exact I].
  set (b' := b <| transport := t |> <| transport := t' |>).
  set (h := (health s1) <| urgent := armed |>).
  assert (Hd : d = diagnostics s1 \/ exists e p m src, d = DiagActive (born b) e p m src).
  { unfold d. destruct (diagnostics_source t); [right; repeat eexists|left].
    unfold s1, push_update. case_match; reflexivity. }
  destruct any.
  - exact (inv_becomes_live last (born b) b' s1 d (after p) h Hp eq_refl Hd).
  - exact (inv_becomes_live last (born b) b' s1 d (next_probe s1) h Hp eq_refl Hd).
Qed.

(** ** Rounds *)

(** A supervisor whose task has ended. *)
Definition halted (s : Supervisor) : Prop :=
  running s = false /\ in_flight s = None /\ active s = None
  /\ (forall g e p m src, diagnostics s <> DiagActive g e p m src)
  /\ exists last, follows (trace s) (last, Idle).

Lemma halted_final s : steady s -> halted (final_teardown s).
Proof.
  intros (last & ph & Hi & Hset).
  pose proof (supersede_idle _ _ ReasonStopped _ Hi Hset) as [[Hf Ha] Hd _ _ _ _ Ht].
  unfold halted, final_teardown. fold (supersede ReasonStopped s). cbn.
  repeat split; try assumption; [|by exists last].
  intros * E. specialize (Hd _ _ _ _ _ E). discriminate.
Qed.

Definition round_ok (o : option (Supervisor * Continue)) : Prop :=
  match o with None => True | Some (s, _) => steady s end.

Lemma round_adopt p g result s last :
  inv last (Connecting g) s -> round_ok (on_adopt p g result (s <| in_flight := None |>)).
Proof.
  intros Hi. pose proof (inv_holds _ _ _ Hi) as (Hf & _ & Hg). unfold on_adopt.
  assert (Hidle : steady (log (StartFailed g) (s <| in_flight := None |>))).
  { exists last, Idle. split; [|exact I].
    eapply inv_leaves_connecting; [exact Hi|constructor|auto]. }
  assert (Eg : (g =? gate s) = true) by lia.
  destruct result as [[t|f]|e]; cbn -[push_update activate_prepared adopt_activated]; rewrite ?Eg;
    [|cbn -[push_update]; by apply steady_push_recovering|exact Hidle].
  assert (Hp : inv last (Prepared g) (log (Delivered g) (s <| in_flight := None |>)))
    by (eapply inv_leaves_connecting; [exact Hi|constructor|auto]).
  destruct (activate_prepared _ _ _ _) as [s1 o] eqn:Eo.
  pose proof (inv_activate _ _ _ _ _ _ _ _ Hp Eo) as H1.
  assert (Hd : forall t, steady (stop_bounded (MkBoxed g t) s1))
    by (intros t'; exists last, Idle; split; [by apply inv_discard|exact I]).
  destruct o as [[t' [[]|e]|r| ]|]; cbn -[push_update adopt_activated]; try exact I.
  - by eapply steady_adopt_activated.
  - apply steady_push_recovering, Hd.
  - destruct (inv_discard _ _ t _ H1). exists last, Idle. split; [|exact I]. by split.
  - apply Hd.
Qed.

Lemma steady_clear_pending s : steady s -> steady (s <| pending_step := None |>).
Proof.
  intros (last & ph & [Hh Hd Hr Hp Hs Hl Ht] & Hset). exists last, ph. split; [|exact Hset].
  by split.
Qed.

Lemma finish_ok s o :
  steady s -> round_ok o -> steady (finish_round s o) \/ halted (finish_round s o).
Proof.
  intros Hs Ho. destruct o as [[s' []]|]; cbn in *; [right; by apply halted_final|by left|by left].
Qed.

Lemma round_step p interval step s :
  steady s -> (forall g r, step <> StepAdopt g r) -> round_ok (handle_step p interval step s).
Proof.
  intros Hs Hst. destruct step as [g r|[r|]| ]; cbn -[on_requests run_probe_cycle].
  - by destruct (Hst g r).
  - by apply steady_requests.
  - exact Hs.
  - pose proof (steady_probe_cycle _ Hs) as Hp. by eapply steady_frame.
Qed.

Lemma wait_request_ok p s s' w :
  steady s -> wait_request p s = (s', w) ->
  steady s' /\ forall g r, w <> WaitStep (StepAdopt g r).
Proof.
  intros Hs. unfold wait_request.
  destruct (requests s), (producers_gone p), (next_probe s <=? now p); intros [= <- <-];
    (split; [try done; by eapply steady_frame|done]).
Qed.

(** What a round is about to handle is sound to handle. *)
Lemma wait_step_ok interval p s :
  steady s ->
  match wait_step p s with
  | (s', WaitStep step) => round_ok (handle_step p interval step s')
  | (s', _) => steady s'
  end.
Proof.
  intros Hs. unfold wait_step. destruct (cancelled p); [exact Hs|].
  destruct (pending_step s) as [step|] eqn:Ep.
  { apply round_step; [by apply steady_clear_pending|]. intros g r ->.
    destruct Hs as (last & ph & Hi & _). pose proof (inv_pending _ _ _ Hi) as Hp.
    unfold only_requests_pend in Hp. by rewrite Ep in Hp. }
  assert (Hreq : match wait_request p s with
    | (s', WaitStep step) => round_ok (handle_step p interval step s')
    | (s', _) => steady s'
    end).
  { destruct (wait_request p s) as [s1 w] eqn:Ew. destruct (wait_request_ok _ _ _ _ Hs Ew) as [H1 Hw].
    destruct w as [|step|]; try exact H1. apply round_step; [exact H1|]. intros g r ->.
    by apply (Hw g r). }
  destruct (in_flight s) as [g|] eqn:Ef, (outcome p) as [result|]; try exact Hreq.
  destruct Hs as (last & ph & Hi & _). pose proof (inv_holds _ _ _ Hi) as Hh.
  destruct ph; cbn in Hh; destruct_and?; simplify_eq; try congruence. by eapply round_adopt.
Qed.

Lemma steady_iterate interval p s :
  steady s -> steady (iterate interval p s) \/ halted (iterate interval p s).
Proof.
  intros Hs. unfold iterate. destruct (running s); cbn [negb]; [|auto].
  pose proof (wait_step_ok interval p s Hs) as Hw.
  destruct (wait_step p s) as [s' [|step|]]; [right; by apply halted_final|by apply finish_ok|by left].
Qed.

Lemma halted_iterate interval p s : halted s -> iterate interval p s = s.
Proof. intros [Hr _]. unfold iterate. by rewrite Hr. Qed.

Lemma event_ok interval e s :
  steady s \/ halted s ->
  steady (handle_event interval e s) \/ halted (handle_event interval e s).
Proof.
  intros [Hs|Hh].
  - destruct e; cbn [handle_event]; [left|left|left|by apply steady_iterate].
    + destruct Hs as (last & ph & Hi & Hset). exists last, ph. split; [by apply inv_try_send|done].
    + by eapply steady_frame.
    + by eapply steady_frame.
  - right. destruct e; cbn [handle_event]; [|exact Hh|exact Hh|by rewrite halted_iterate].
    unfold try_send. destruct Hh as [Hr Hh]. destruct request; cbn; rewrite Hr; by split.
Qed.

Lemma run_ok interval es s :
  steady s \/ halted s ->
  steady (run_supervisor interval es s) \/ halted (run_supervisor interval es s).
Proof.
  unfold run_supervisor. revert s. induction es as [|e es IH]; intros s Hs; cbn; [exact Hs|].
  by apply IH, event_ok.
Qed.

Lemma initial_steady interval now v : steady (initial interval now v).
Proof. exists 0, Idle. split; [split; try done; constructor|exact I]. Qed.

Lemma phase_of_holds ph s : holds ph s -> settled ph -> phase_of s = ph.
Proof.
  unfold phase_of. destruct ph as [|g|g|g]; cbn; intros Hh Hset; [| |done|].
  - by destruct Hh as [-> ->].
  - by destruct Hh as (-> & _).
  - by destruct Hh as (-> & (b & -> & <-) & _).
Qed.

Lemma follows_nonneg (t : list (@Action Device CalibrationProfile)) last ph :
  follows t (last, ph) -> 0 <= last.
Proof.
  remember (last, ph) as q eqn:E. intros Hf. revert last ph E.
  induction Hf as [|t a [l q] p' Hf IH Ho]; intros last ph E; [by injection E as <- _|].
  specialize (IH _ _ eq_refl). subst p'. inversion Ho; subst; lia.
Qed.

(** C3: for every interleaving of producers, edge consumer and rounds of the
    supervisor, the calls it makes on starts and transports and the edges it
    publishes are a run of the session protocol, which ends in the phase its
    locals describe: never two starts or transports at once, generations that
    only grow, member edges and levels only for the adopted generation, every
    delivered transport adopted or stopped.  A supervisor that has ended
    holds nothing, and the published diagnostics never name a transport that
    is not the live one. *)
Theorem supervisor_follows_session_protocol interval now v es :
  let s : Supervisor := run_supervisor interval es (initial interval now v) in
  (exists last, follows (trace s) (last, phase_of s))
  /\ (in_flight s = None \/ active s = None)
  /\ (running s = false -> phase_of s = Idle)
  /\ (forall g e p m src, diagnostics s = DiagActive g e p m src -> phase_of s = Live g).
Proof.
  cbn. destruct (run_ok interval es _ (or_introl (initial_steady interval now v)))
    as [(last & ph & Hi & Hset)|(Hr & Hf & Ha & Hd & last & Ht)].
  - pose proof (phase_of_holds _ _ (inv_holds _ _ _ Hi) Hset) as ->.
    pose proof (inv_holds _ _ _ Hi) as Hh. repeat split.
    + exists last. apply (inv_trace _ _ _ Hi).
    + destruct ph; cbn in Hh; tauto.
    + intros E. pose proof (inv_running _ _ _ Hi). congruence.
    + apply (inv_diag _ _ _ Hi).
  - unfold phase_of. rewrite Hf, Ha. repeat split; [by exists last|by left|].
    intros * E. by destruct (Hd g e p m src).
Qed.

(** ** Cancellation *)

(** Whatever state the loop is in, one round after cancellation it has
    ended and holds neither a start nor a transport. *)
Theorem cancellation_ends_in_one_round interval now v es p :
  cancelled p = true ->
  let s : Supervisor := run_supervisor interval (es ++ [Round p]) (initial interval now v) in
  running s = false /\ in_flight s = None /\ active s = None.
Proof.
  intros Hc. unfold run_supervisor. rewrite foldl_app. cbn.
  destruct (run_ok interval es _ (or_introl (initial_steady interval now v))) as [Hs|Hh];
    fold (run_supervisor interval es (initial interval now v)).
  - unfold iterate, wait_step. rewrite Hc.
    destruct Hs as (last & ph & Hi & Hset). rewrite (inv_running _ _ _ Hi). cbn [negb].
    destruct (halted_final _ (ex_intro _ last (ex_intro _ ph (conj Hi Hset)))) as (Hr & Hf & Ha & _).
    auto.
  - rewrite halted_iterate by exact Hh. destruct Hh as (Hr & Hf & Ha & _). auto.
Qed.

End Loop.
End SupervisorProps.
