(* ===== verification/SupervisorPolicy.v ===== *)
(** * Supervisor policies

    Three policies of [Supervisor.v] against reference definitions: which
    reconcile of a batch wins, which probe histories fail a receiver, and
    when a captured set of levels still is the newest one. *)

From S2P Require Import Prelude Float32 AppState Model Supervisor SupervisorProps.
Import Model Supervisor SupervisorProps.

Module SupervisorPolicy.

(** ** Coalescing *)

Section Coalesce.
Context {T Source Device CalibrationProfile : Type} `{SessionTransport T Source}.
Notation Supervisor := (@Supervisor T Source Device CalibrationProfile).
Notation SessionRequest := (@SessionRequest Device CalibrationProfile).
Notation ReconcileParams := (@ReconcileParams Device CalibrationProfile).
Notation Event := (@Event T Device CalibrationProfile).
Implicit Types (s : Supervisor) (q : list SessionRequest) (params : ReconcileParams).

Definition is_inline (r : SessionRequest) : bool :=
  match r with Reconcile _ => false | _ => true end.

(** The requests that take a generation of their own. *)
Definition rebuilds (r : SessionRequest) : bool :=
  match r with NetworkChanged | Resume => true | _ => false end.

Definition rebuild_count (q : list SessionRequest) : Z :=
  Z.of_nat (length (filter (fun r => rebuilds r = true) q)).

Lemma coalesce_inline q newest :
  fst (coalesce_from q newest) = filter (fun r => is_inline r = true) q.
Proof.
  revert newest. induction q as [|r q IH]; intros newest; [reflexivity|].
  destruct r; cbn [coalesce_from].
  1: { rewrite filter_cons_False by done. apply IH. }
  all: rewrite filter_cons_True by done; rewrite <- (IH newest);
    destruct (coalesce_from q newest); reflexivity.
Qed.

(** [params] beats every reconcile of [q]. *)
Definition newest_of (params : ReconcileParams) (q : list SessionRequest) : Prop :=
  forall p, Reconcile p ∈ q -> p = params \/ generation p < generation params.

Lemma newest_of_tail params r q : newest_of params (r :: q) -> newest_of params q.
Proof. intros Hn p Hp. apply Hn. by right. Qed.

Lemma coalesce_keeps params q : newest_of params q -> snd (coalesce_from q (Some params)) = Some params.
Proof.
  induction q as [|r q IH]; intros Hn; [reflexivity|].
  specialize (IH (newest_of_tail _ _ _ Hn)).
  destruct r as [p| | | | |]; cbn [coalesce_from]; [|destruct (coalesce_from q _); exact IH..].
  destruct (Hn p) as [-> |Hlt]; [by left|by rewrite Z.ltb_irrefl|].
  destruct (Z.ltb_spec (generation params) (generation p)); [lia|exact IH].
Qed.

Lemma coalesce_newest params q newest :
  newest_of params q -> Reconcile params ∈ q ->
  (forall c, newest = Some c -> generation c < generation params) ->
  snd (coalesce_from q newest) = Some params.
Proof.
  revert newest. induction q as [|r q IH]; intros newest Hn Hin Hc; [by apply elem_of_nil in Hin|].
  pose proof (newest_of_tail _ _ _ Hn) as Hn'.
  apply elem_of_cons in Hin as [<- |Hin]; cbn [coalesce_from].
  - destruct newest as [c|]; [|by apply coalesce_keeps].
    specialize (Hc c eq_refl). destruct (Z.ltb_spec (generation c) (generation params)); [|lia].
    by apply coalesce_keeps.
  - destruct r as [p| | | | |]; [|specialize (IH newest Hn' Hin Hc);
      destruct (coalesce_from q newest); exact IH..].
    destruct (Hn p) as [-> |Hlt]; [by left| |].
    + destruct newest as [c|]; [|by apply coalesce_keeps].
      specialize (Hc c eq_refl). destruct (Z.ltb_spec (generation c) (generation params)); [|lia].
      by apply coalesce_keeps.
    + apply IH; [exact Hn'|exact Hin|]. intros c Ec. repeat case_match; simplify_eq; auto.
Qed.

(** ** Generations taken by a batch *)

Lemma gate_start_generation params s :
  gate (start_generation params s) = Z.max (gate s) (generation params).
Proof.
  unfold start_generation, gate_admits. destruct (Z.ltb_spec (gate s) (generation params)); cbn [negb].
  - rewrite supersede_gate.
    case_bool_decide; cbn -[push_update]; rewrite push_update_gate; cbn; lia.
  - cbn. lia.
Qed.

Lemma gate_push_failures g leader reports s :
  gate (push_failures g leader reports s) = gate s.
Proof.
  unfold push_failures. revert s. induction reports as [|[r e] rs IH]; intros s; cbn; [done|].
  rewrite IH. apply push_update_gate.
Qed.

Lemma gate_rebuild reason s :
  steady s -> gate (rebuild_for_cause reason s) <= gate s + 1.
Proof.
  intros (last & ph & Hi & _). unfold rebuild_for_cause.
  destruct (retained s) as [p|] eqn:Er; [|lia].
  rewrite gate_start_generation, push_update_gate. cbn.
  rewrite (inv_retained _ _ _ Hi p Er).
  pose proof (follows_nonneg _ _ _ (inv_trace _ _ _ Hi)). pose proof (inv_last _ _ _ Hi).
  pose proof (Z.mod_le (gate s + 1) (2 ^ 64)). unfold u64_succ, wrap. lia.
Qed.

Lemma gate_inline r s :
  steady s -> gate (apply_inline_request r s) <= gate s + (if rebuilds r then 1 else 0).
Proof.
  intros Hs. destruct r; cbn [rebuilds]; try (by apply gate_rebuild).
  - cbn. lia.
  - cbn. repeat case_match; cbn -[push_update]; rewrite ?push_update_gate; cbn; lia.
  - cbn. unfold run_probe_cycle. repeat case_match; cbn; rewrite ?gate_push_failures; cbn; lia.
  - cbn [apply_inline_request]. fold (supersede ReasonRestarted s).
    case_match; cbn -[push_update]; rewrite ?push_update_gate; cbn;
      rewrite supersede_keeps_gate; lia.
Qed.

Lemma gate_batch q s :
  steady s ->
  let s' := foldl (fun s r => apply_inline_request r s) s q in
  steady s' /\ gate s' <= gate s + rebuild_count q.
Proof.
  unfold rebuild_count. revert s. induction q as [|r q IH]; intros s Hs; cbn [foldl].
  { split; [exact Hs|]. cbn. lia. }
  destruct (IH _ (steady_inline r s Hs)) as [Hs' Hg]. split; [exact Hs'|].
  pose proof (gate_inline r s Hs) as Hr. rewrite filter_cons.
  destruct (rebuilds r) eqn:E; [rewrite decide_True by done|rewrite decide_False by done];
    cbn [length]; lia.
Qed.

Lemma rebuild_count_inline q :
  rebuild_count (filter (fun r => is_inline r = true) q) = rebuild_count q.
Proof.
  unfold rebuild_count. do 2 f_equal. induction q as [|r q IH]; [reflexivity|].
  rewrite (filter_cons _ r q). destruct r; cbn [is_inline]; 
    [rewrite decide_False by done|rewrite decide_True by done..];
    rewrite ?filter_cons; cbn [rebuilds];
    [rewrite decide_False by done; exact IH|..];
    repeat (rewrite decide_False by done); repeat (rewrite decide_True by done); congruence.
Qed.

Lemma supersede_clears reason s :
  in_flight (supersede reason s) = None /\ active (supersede reason s) = None.
Proof.
  unfold supersede, abort_in_flight, stop_active.
  destruct (in_flight s) eqn:E1; cbn; destruct (active s) eqn:E2; cbn; auto.
Qed.

(** Of the reconciles queued with a request, the one with the highest
    generation is the one the batch ends with, as long as its generation is
    beyond those the rebuilds of the same batch take for themselves: its
    parameters are retained, the gate stands at it, whatever ran before is
    gone, and its own start is in flight exactly when it desires a receiver. *)
Theorem newest_reconcile_wins interval now v (es : list Event) first params :
  let s : Supervisor := run_supervisor interval es (initial interval now v) in
  running s = true ->
  Reconcile params ∈ first :: requests s ->
  newest_of params (first :: requests s) ->
  gate s + rebuild_count (first :: requests s) < generation params ->
  let s' := on_requests first s in
  gate s' = generation params /\ retained s' = Some params /\ active s' = None
  /\ in_flight s' = (if bool_decide (desired params = []) then None else Some (generation params)).
Proof.
  intros s Hrun Hin Hn Hlt.
  assert (Hs : steady s).
  { destruct (run_ok interval es _ (or_introl (initial_steady interval now v))) as [Hs|[Hr _]];
      [exact Hs|]. fold s in Hr. congruence. }
  assert (Hq : steady (s <| requests := [] |>)) by by eapply steady_frame.
  cbn zeta. unfold on_requests, coalesce.
  pose proof (coalesce_inline (first :: requests s) None) as Ei.
  pose proof (coalesce_newest params (first :: requests s) None Hn Hin ltac:(done)) as En.
  destruct (coalesce_from (first :: requests s) None) as [inline newest]. cbn in Ei, En. subst.
  destruct (gate_batch (filter (fun r => is_inline r = true) (first :: requests s)) _ Hq) as [_ Hg].
  rewrite rebuild_count_inline in Hg. set (s1 := foldl _ _ _) in *.
  change (gate (s <| requests := [] |>)) with (gate s) in Hg.
  unfold start_generation, gate_admits.
  destruct (Z.ltb_spec (gate s1) (generation params)); [cbn [negb]|lia].
  rewrite supersede_gate.
  destruct (supersede_clears (if teardown_only params then ReasonStopped else ReasonRestarted) s1)
    as [Hf Ha].
  set (s2 := supersede _ _) in *.
  case_bool_decide; unfold push_update; repeat case_match; cbn; auto.
Qed.

End Coalesce.

(** ** The probe policy *)

(** One answer of one receiver: whether a send error had armed the cycle. *)
Definition Observation : Type := bool * Result Health MemberFailure.

Definition timed_out (o : Observation) : Prop := snd o = Ok TimedOut.

(** Fails the receiver on its own. *)
Definition fatal (o : Observation) : Prop :=
  (exists f, snd o = Err f) \/ (timed_out o /\ fst o = true).

(** The documented policy, over the answers a receiver gave in order. *)
Definition must_fail (h : list Observation) : Prop :=
  (exists o, o ∈ h /\ fatal o)
  \/ (exists pre a b post, h = pre ++ a :: b :: post /\ timed_out a /\ timed_out b).

Lemma must_fail_snoc h o :
  must_fail (h ++ [o])
  <-> must_fail h \/ fatal o \/ (timed_out o /\ exists pre a, h = pre ++ [a] /\ timed_out a).
Proof.
  split.
  - intros [(x & Hx & Hf)|(pre & a & b & post & E & Ha & Hb)].
    + apply elem_of_app in Hx as [Hx|Hx]; [left; left; eauto|].
      apply list_elem_of_singleton in Hx as ->. auto.
    + destruct post as [|c post _] using rev_ind.
      * change (pre ++ [a; b]) with (pre ++ [a] ++ [b]) in E. rewrite app_assoc in E.
        apply app_inj_tail in E as [-> ->]. right. right. eauto.
      * rewrite app_comm_cons, app_comm_cons, app_assoc in E. apply app_inj_tail in E as [-> _].
        left. right. by exists pre, a, b, post.
  - intros [[(x & Hx & Hf)|(pre & a & b & post & -> & Ha & Hb)]|[Hf|(Ho & pre & a & -> & Ha)]].
    + left. exists x. split; [apply elem_of_app; auto|exact Hf].
    + right. exists pre, a, b, (post ++ [o]). by rewrite <- app_assoc.
    + left. exists o. split; [apply elem_of_app; right; by left|exact Hf].
    + right. exists pre, a, o, []. by rewrite <- app_assoc.
Qed.

(** The state of one receiver after its history [h], with the number of
    times it has been reported. *)
Definition tracks (r : DeviceId) (hs : HealthState) (reports : nat) (h : list Observation) : Prop :=
  (r ∈ failed hs <-> must_fail h)
  /\ (r ∉ failed hs ->
        streak hs !! r = Some 1 /\ (exists pre a, h = pre ++ [a] /\ timed_out a)
        \/ streak hs !! r = None /\ ~ (exists pre a, h = pre ++ [a] /\ timed_out a))
  /\ reports = (if bool_decide (r ∈ failed hs) then 1 else 0)%nat.

Definition reported (r : DeviceId) (report : option (DeviceId * string)) : nat :=
  match report with Some (r', _) => if bool_decide (r' = r) then 1%nat else 0%nat | None => 0%nat end.

Lemma last_timed_out h (o : Observation) :
  (exists pre a, h ++ [o] = pre ++ [a] /\ timed_out a) <-> timed_out o.
Proof.
  split; [|by exists h, o]. intros (pre & a & E & Ha). by apply app_inj_tail in E as [_ ->].
Qed.

(** An answer of another receiver changes nothing for [r]. *)
Lemma tracks_other r armed hs n h r' a hs' rep :
  tracks r hs n h -> r' <> r -> probe_answer armed hs (r', a) = (hs', rep) ->
  tracks r hs' (n + reported r rep) h.
Proof.
  intros Ht Hne. unfold probe_answer.
  assert (Hm : forall hs', streak hs' !! r = streak hs !! r -> (r ∈ failed hs' <-> r ∈ failed hs) ->
    tracks r hs' (n + 0) h).
  { intros hs1 Es Ef. destruct Ht as (H1 & H2 & H3). unfold tracks.
    rewrite Es, (bool_decide_ext _ _ Ef), Nat.add_0_r.
    split; [by rewrite Ef|]. split; [by rewrite Ef|exact H3]. }
  case_bool_decide; [intros [= <- <-]; by apply Hm|].
  destruct a as [[|]|f]; cbn; try (case_match; cbn); intros [= <- <-]; cbn;
    rewrite ?(bool_decide_eq_false_2 (r' = r)) by done; apply Hm; cbn;
    rewrite ?lookup_delete_ne, ?lookup_insert_ne, ?lookup_delete_ne by done; set_solver.
Qed.

(** A receiver fails now, or lives on with a streak that mirrors its last
    answer. *)
Lemma tracks_fails r hs hs' n h h' :
  tracks r hs n h -> r ∉ failed hs -> failed hs' = {[r]} ∪ failed hs -> must_fail h' ->
  tracks r hs' (n + 1) h'.
Proof.
  intros (_ & _ & H3) Hf E Hm. unfold tracks. rewrite E, H3.
  rewrite bool_decide_eq_false_2, bool_decide_eq_true_2 by set_solver. set_solver.
Qed.

Lemma tracks_lives r hs hs' n h o :
  tracks r hs n h -> r ∉ failed hs -> failed hs' = failed hs -> ~ must_fail (h ++ [o]) ->
  (streak hs' !! r = Some 1 /\ timed_out o \/ streak hs' !! r = None /\ ~ timed_out o) ->
  tracks r hs' (n + 0) (h ++ [o]).
Proof.
  intros (_ & _ & H3) Hf E Hm Hs. unfold tracks.
  rewrite E, Nat.add_0_r, H3, last_timed_out. tauto.
Qed.

(** An answer of [r] itself extends its history. *)
Lemma tracks_own r armed hs n h a hs' rep :
  tracks r hs n h -> probe_answer armed hs (r, a) = (hs', rep) ->
  tracks r hs' (n + reported r rep) (h ++ [(bool_decide (r ∈ armed), a)]).
Proof.
  intros Ht. pose proof Ht as (H1 & H2 & H3). unfold probe_answer. case_bool_decide as Hf.
  { intros [= <- <-]. cbn [reported]. unfold tracks.
    rewrite must_fail_snoc, Nat.add_0_r, H3. split; [tauto|]. split; [done|].
    by rewrite bool_decide_eq_true_2. }
  specialize (H2 Hf). pose proof (must_fail_snoc h (bool_decide (r ∈ armed), a)) as Hm.
  unfold fatal, timed_out in Hm. cbn [fst snd] in Hm.
  destruct a as [[|]|f]; cbn.
  - intros [= <- <-]. eapply tracks_lives; [exact Ht|exact Hf|done| |].
    + rewrite Hm, <- H1. naive_solver.
    + right. split; [cbn; by rewrite lookup_delete_eq|done].
  - destruct H2 as [[Es Hl]|[Es Hl]]; rewrite Es; cbn; [|case_bool_decide as Ha];
      intros [= <- <-]; cbn; rewrite ?bool_decide_eq_true_2 by done.
    + eapply tracks_fails; [exact Ht|exact Hf|done|]. rewrite Hm. auto.
    + eapply tracks_fails; [exact Ht|exact Hf|done|]. rewrite Hm. auto.
    + eapply tracks_lives; [exact Ht|exact Hf|done| |].
      * rewrite Hm, <- H1. naive_solver.
      * left. split; [cbn; by rewrite lookup_insert_eq|done].
  - intros [= <- <-]. cbn. rewrite bool_decide_eq_true_2 by done.
    eapply tracks_fails; [exact Ht|exact Hf|done|]. rewrite Hm. eauto.
Qed.

Definition observations (r : DeviceId) (armed : gset DeviceId)
    (results : list (DeviceId * Result Health MemberFailure)) : list Observation :=
  (fun x => (bool_decide (r ∈ armed), snd x)) <$> filter (fun x => fst x = r) results.

Definition reports_of (r : DeviceId) (reports : list (DeviceId * string)) : nat :=
  length (filter (fun x => fst x = r) reports).

Lemma tracks_answers r armed results hs hs' reports n h :
  tracks r hs n h -> probe_answers armed hs results = (hs', reports) ->
  tracks r hs' (n + reports_of r reports) (h ++ observations r armed results).
Proof.
  revert hs n h reports. induction results as [|[r' a] rest IH]; intros hs n h reports Ht.
  { intros [= <- <-]. cbn. rewrite Nat.add_0_r. unfold observations. cbn. by rewrite app_nil_r. }
  cbn [probe_answers]. destruct (probe_answer armed hs (r', a)) as [hs1 rep] eqn:E1.
  destruct (probe_answers armed hs1 rest) as [hs2 reps] eqn:E2. intros [= <- <-].
  assert (Hn : forall m : nat, (m + reports_of r (match rep with Some x => x :: reps | None => reps end)
    = (m + reported r rep) + reports_of r reps)%nat).
  { intros m. unfold reports_of. destruct rep as [[r1 e]|]; cbn [reported]; [|lia].
    rewrite filter_cons. cbn [fst]. case_decide; case_bool_decide; try done; cbn [length]; lia. }
  rewrite Hn. unfold observations. rewrite filter_cons. cbn [fst]. case_decide as Hr.
  - subst r'. cbn [fmap list_fmap]. rewrite cons_middle, app_assoc. eapply IH; [|exact E2].
    by eapply tracks_own.
  - eapply IH; [|exact E2]. by eapply tracks_other.
Qed.

Lemma probe_answers_urgent armed results hs hs' reports :
  probe_answers armed hs results = (hs', reports) -> urgent hs' = urgent hs.
Proof.
  revert hs reports. induction results as [|[r a] rest IH]; intros hs reports; [by intros [= <- _]|].
  cbn [probe_answers]. destruct (probe_answer armed hs (r, a)) as [hs1 rep] eqn:E1.
  destruct (probe_answers armed hs1 rest) as [hs2 reps] eqn:E2. intros [= <- _].
  rewrite (IH _ _ E2). revert E1. unfold probe_answer.
  destruct a as [[|]|f]; cbn; repeat case_match; by intros [= <- _].
Qed.

(** The failure edges for a receiver among the actions of a trace. *)
Definition is_failure_of {D C} (r : DeviceId) (a : @Action D C) : bool :=
  match a with Edge (MemberFailed _ r' _ _) => bool_decide (r' = r) | _ => false end.

Definition failure_edges {D C} (r : DeviceId) (t : list (@Action D C)) : nat :=
  length (filter (fun a => is_failure_of r a = true) t).

Section Probe.
Context {T Source Device CalibrationProfile : Type} `{SessionTransport T Source}.
Notation Supervisor := (@Supervisor T Source Device CalibrationProfile).
Implicit Types (s : Supervisor).

Fixpoint probe_cycles (n : nat) (s : Supervisor) : Supervisor :=
  match n with O => s | S n => probe_cycles n (run_probe_cycle s) end.

(** What [n] probe cycles of a transport show: per cycle the armed receivers
    and the answers. *)
Fixpoint observed (n : nat) (t : T) (urgent : gset DeviceId)
  : list (gset DeviceId * list (DeviceId * Result Health MemberFailure)) :=
  match n with
  | O => []
  | S n =>
      let '(t, armed, _) := drain_runtime_events t urgent in
      let '(t, results) := probe_members t in
      (armed, results) :: observed n t ∅
  end.

Definition history (r : DeviceId)
    (cycles : list (gset DeviceId * list (DeviceId * Result Health MemberFailure)))
  : list Observation :=
  concat ((fun '(armed, results) => observations r armed results) <$> cycles).

Lemma failure_edges_push r u s :
  failure_edges r (trace (push_update u s))
  = (failure_edges r [@Edge Device CalibrationProfile u] + failure_edges r (trace s))%nat.
Proof.
  unfold failure_edges, push_update. case_match; cbn [trace log upd];
    rewrite <- length_app, <- filter_app; reflexivity.
Qed.

Lemma push_failures_same g leader reports s :
  active (push_failures g leader reports s) = active s
  /\ health (push_failures g leader reports s) = health s.
Proof.
  unfold push_failures. revert s. induction reports as [|[r e] rs IH]; intros s; cbn; [done|].
  destruct (IH (push_update (MemberFailed g r (bool_decide (leader = Some r)) e) s)) as [-> ->].
  unfold push_update. case_match; done.
Qed.

Lemma failure_edges_reports r g leader reports s :
  failure_edges r (trace (push_failures g leader reports s))
  = (reports_of r reports + failure_edges r (trace s))%nat.
Proof.
  unfold push_failures. revert s. induction reports as [|[r' e] rs IH]; intros s; cbn; [done|].
  rewrite IH, failure_edges_push. unfold failure_edges at 1, reports_of.
  rewrite !filter_cons. cbn [fst is_failure_of].
  destruct (decide (r' = r)); [rewrite decide_True by by apply bool_decide_eq_true_2|
    rewrite decide_False by by rewrite bool_decide_eq_false_2]; cbn [length];
    unfold failure_edges; cbn; rewrite ?Nat.add_succ_r; reflexivity.
Qed.

Lemma tracks_cycles n r s b h k :
  active s = Some b -> tracks r (health s) k h ->
  exists m, failure_edges r (trace (probe_cycles n s)) = (m + failure_edges r (trace s))%nat
    /\ tracks r (health (probe_cycles n s)) (k + m)
         (h ++ history r (observed n (transport b) (urgent (health s)))).
Proof.
  revert s b h k. induction n as [|n IH]; intros s b h k Ha Ht; cbn [probe_cycles observed].
  { exists O. split; [reflexivity|]. unfold history. cbn. by rewrite app_nil_r, Nat.add_0_r. }
  destruct (run_probe_cycle s) as [gt fl ac rt hl np pd rq vl up dg rn tr] eqn:Es.
  unfold run_probe_cycle in Es. rewrite Ha in Es.
  destruct (drain_runtime_events _ _) as [[t armed] any].
  destruct (probe_members t) as [t' results].
  destruct (probe_answers _ _ _) as [hs reports] eqn:Ea. rewrite <- Es.
  set (s1 := push_failures _ _ _ _).
  destruct (push_failures_same (gate s) (primary t) reports
    (s <| active := Some (b <| transport := t' |>) |> <| health := hs |>)) as [Ea1 Eh1].
  fold s1 in Ea1, Eh1. cbn in Ea1, Eh1.
  assert (Ht1 : tracks r hs (k + reports_of r reports) (h ++ observations r armed results))
    by (eapply tracks_answers; [|exact Ea]; exact Ht).
  rewrite <- Eh1 in Ht1. destruct (IH s1 _ _ _ Ea1 Ht1) as (m & Hm & Hfin).
  exists (m + reports_of r reports)%nat. split.
  - rewrite Hm. unfold s1. rewrite failure_edges_reports. apply Nat.add_assoc.
  - replace (k + (m + reports_of r reports))%nat with (k + reports_of r reports + m)%nat by lia.
    unfold history in *. cbn [fmap list_fmap concat]. rewrite app_assoc.
    replace (urgent (health s1)) with (∅ : gset DeviceId) in Hfin; [exact Hfin|].
    rewrite Eh1. symmetry. exact (probe_answers_urgent _ _ _ _ _ Ea).
Qed.

(** C32: over any number of probe cycles of one generation, a receiver is
    failed exactly when its answers contain a hard error, a timeout in a cycle
    armed by a send error, or two timeouts in a row, and then it is reported
    exactly once; otherwise never. *)
Theorem probe_policy_exact n s b r :
  active s = Some b -> streak (health s) = ∅ -> failed (health s) = ∅ ->
  let s' := probe_cycles n s in
  (r ∈ failed (health s')
     <-> must_fail (history r (observed n (transport b) (urgent (health s)))))
  /\ failure_edges r (trace s')
     = ((if bool_decide (r ∈ failed (health s')) then 1 else 0) + failure_edges r (trace s))%nat.
Proof.
  intros Ha Hst Hf.
  assert (Ht : tracks r (health s) 0 []).
  { unfold tracks. rewrite Hst, Hf. split; [|split].
    - split; [set_solver|]. intros [(o & Ho & _)|(pre & ? & ? & ? & E & _)];
        [by apply elem_of_nil in Ho|by destruct pre].
    - intros _. right. split; [apply lookup_empty|]. intros (pre & a & E & _). by destruct pre.
    - by rewrite bool_decide_eq_false_2. }
  destruct (tracks_cycles n r s b [] 0 Ha Ht) as (m & Hm & H1 & _ & H3).
  cbn zeta. split; [exact H1|]. rewrite Hm. cbn in H3. by rewrite H3.
Qed.
End Probe.

(** ** Effective levels *)

(** Levels [==] cannot tell apart: equal, or the two zeros. *)
Definition same_level (x y : f32) : Prop :=
  x = y \/ exists b c, x = S754_zero b /\ y = S754_zero c.

#[export] Instance same_level_equiv : Equivalence same_level.
Proof.
  split.
  - by left.
  - intros x y [-> |(b & c & -> & ->)]; [by left|right; by exists c, b].
  - intros x y z [-> |(b & c & -> & ->)] Hyz; [done|].
    destruct Hyz as [<- |(d & e & [= ->] & ->)]; right; eauto.
Qed.

(** One store of a level: either the version moves on, or nothing visible
    changes. *)
Lemma set_effective_step v r x :
  version (set_effective v r x) = u64_succ (version v)
  \/ version (set_effective v r x) = version v
     /\ forall r', same_level (get_effective (set_effective v r x) r') (get_effective v r').
Proof.
  unfold set_effective. destruct (volume_changed _ _) eqn:E; [by left|]. right. split; [done|].
  intros r'. unfold get_effective. cbn. destruct (decide (r' = r)) as [-> |Hne].
  - rewrite lookup_insert_eq. unfold volume_changed in E.
    destruct (values v !! r) as [o|]; [|discriminate]. cbn.
    apply negb_false_iff, f32_eqb_spec in E as [-> |(b & c & -> & ->)]; [reflexivity|].
    right. eauto.
  - by rewrite lookup_insert_ne.
Qed.

Definition store_all (v : EffectiveVolumes) (ops : list (DeviceId * f32)) : EffectiveVolumes :=
  foldl (fun v '(r, x) => set_effective v r x) v ops.

Lemma store_all_version v ops :
  exists k, 0 <= k <= Z.of_nat (length ops) /\ wrap 64 (version (store_all v ops)) = wrap 64 (version v + k)
    /\ (k = 0 -> forall r, same_level (get_effective (store_all v ops) r) (get_effective v r)).
Proof.
  revert v. induction ops as [|[r x] ops IH]; intros v.
  { exists 0. cbn. rewrite Z.add_0_r. split; [lia|]. split; [done|]. reflexivity. }
  change (store_all v ((r, x) :: ops)) with (store_all (set_effective v r x) ops). cbn [length].
  destruct (IH (set_effective v r x)) as (k & Hk & Ek & Hs).
  destruct (set_effective_step v r x) as [Ev|[Ev Hl]].
  - exists (k + 1). split; [lia|]. split; [|lia]. rewrite Ek, Ev. unfold u64_succ, wrap.
    rewrite Zplus_mod_idemp_l. f_equal. lia.
  - exists k. split; [lia|]. split; [by rewrite Ek, Ev|]. intros E r'.
    etransitivity; [by apply Hs|]. apply Hl.
Qed.

(** Audio is released only under levels that are still the newest: when
    [release_if_current] lets a captured snapshot through, no level stored
    since the capture (fewer than 2^64 of them) differs from the captured
    one for any receiver, and the release is consumed. *)
Theorem released_levels_are_current v ops release release' :
  in_width 64 (version v) ->
  Z.of_nat (length ops) < 2 ^ 64 ->
  release_if_current (store_all v ops) (snapshot v) release = (release', true) ->
  release' = None
  /\ forall r, same_level (get_effective (store_all v ops) r) (get_effective (snapshot v) r).
Proof.
  intros Hw Hlen. unfold release_if_current. cbn [version snapshot].
  destruct (Z.eqb_spec (version (store_all v ops)) (version v)) as [E|]; [|done]. cbn [negb].
  intros Hr. split; [destruct release; congruence|].
  destruct (store_all_version v ops) as (k & Hk & Ek & Hs). apply Hs.
  rewrite E in Ek. unfold wrap in Ek.
  assert (Hdiv : (2 ^ 64 | version v + k - version v)) by (apply Z.cong_iff_ex; by symmetry).
  replace (version v + k - version v) with k in Hdiv by lia.
  destruct (Z.eq_dec k 0) as [|Hk0]; [done|]. apply Z.divide_pos_le in Hdiv; lia.
Qed.

(** ** Concrete runs *)

Definition kitchen : DeviceId := MkDeviceId 1 0 0 0 0 0.
Definition lounge : DeviceId := MkDeviceId 2 0 0 0 0 0.

(** A transport that counts its probe cycles; the lounge never answers. *)
#[local] Instance silent_lounge : SessionTransport nat unit := {
  diagnostics_source _ := Some tt;
  primary _ := Some kitchen;
  active_members _ := {[kitchen; lounge]};
  setup_failures t := (t, []);
  try_runtime_event t := (t, Ok None);
  probe_members t := (S t, [(kitchen, Ok Healthy); (lounge, Ok TimedOut)]);
  set_member_volume t _ _ := (t, Ok tt) }.

Definition params_for (g : Z) (ds : list DeviceId) : @ReconcileParams DeviceId unit :=
  MkParams g ds None (MkLatency 0 0) tt false.

Definition demo_supervisor : @Supervisor nat unit DeviceId unit :=
  initial PROBE_INTERVAL 0 no_volumes.

Definition probing_supervisor : @Supervisor nat unit DeviceId unit :=
  demo_supervisor <| active := Some (MkBoxed 1 0%nat) |>.

Definition quiet_poll : @Poll nat DeviceId unit := MkPoll false None false 0 0 0 [].

Example probe_policy_exact_witness :
  must_fail (history lounge (observed 2 0%nat ∅))
  /\ failure_edges lounge
       (trace (probe_cycles 2 probing_supervisor)) = 1%nat.
Proof.
  destruct (probe_policy_exact 2 probing_supervisor
    (MkBoxed 1 0%nat) lounge eq_refl eq_refl eq_refl) as [H1 H2].
  split; [apply H1; vm_compute; reflexivity|]. rewrite H2. vm_compute. reflexivity.
Defined.

Example newest_reconcile_wins_witness :
  let s := on_requests (Reconcile (params_for 1 [kitchen]))
             (run_supervisor PROBE_INTERVAL [Send (Reconcile (params_for 2 [lounge]))]
                demo_supervisor) in
  retained s = Some (params_for 2 [lounge]) /\ in_flight s = Some 2.
Proof.
  destruct (newest_reconcile_wins PROBE_INTERVAL 0 no_volumes
    [Send (Reconcile (params_for 2 [lounge]))] (Reconcile (params_for 1 [kitchen]))
    (params_for 2 [lounge])) as (_ & Hr & _ & Hf).
  - reflexivity.
  - right. left.
  - intros p Hp. apply elem_of_cons in Hp as [[= ->]|Hp]; [right; reflexivity|].
    apply elem_of_cons in Hp as [[= ->]|Hp]; [by left|by apply elem_of_nil in Hp].
  - vm_compute. reflexivity.
  - split; [exact Hr|exact Hf].
Defined.

Example released_levels_are_current_witness :
  release_if_current (store_all no_volumes []) (snapshot no_volumes) (Some true) = (None, true)
  /\ same_level (get_effective (store_all no_volumes []) lounge)
       (get_effective (snapshot no_volumes) lounge).
Proof.
  split; [reflexivity|].
  refine (proj2 (released_levels_are_current no_volumes [] (Some true) None _ _ eq_refl) lounge).
  - split; reflexivity || discriminate.
  - reflexivity.
Defined.

Example cancellation_ends_in_one_round_witness :
  let s := run_supervisor PROBE_INTERVAL
             ([Send (Reconcile (params_for 1 [kitchen])); Round quiet_poll]
              ++ [Round (MkPoll true None false 0 0 0 [])]) demo_supervisor in
  running s = false /\ in_flight s = None /\ active s = None.
Proof.
  exact (cancellation_ends_in_one_round PROBE_INTERVAL 0 no_volumes
    [Send (Reconcile (params_for 1 [kitchen])); Round quiet_poll]
    (MkPoll true None false 0 0 0 []) eq_refl).
Defined.

(** The bound of [newest_reconcile_wins] is needed: a rebuild handled inline
    takes the generation a queued reconcile carries, with the old desired set,
    and the reconcile is turned away as stale. *)
Example queued_rebuild_shadows_reconcile :
  let s := run_supervisor PROBE_INTERVAL
             [Send (Reconcile (params_for 1 [kitchen])); Round quiet_poll;
              Send (Reconcile (params_for 2 [lounge])); Send NetworkChanged; Round quiet_poll]
             demo_supervisor in
  requests s = [] /\ in_flight s = Some 2 /\ retained s = Some (params_for 2 [kitchen]).
Proof. vm_compute. auto. Qed.

End SupervisorPolicy.
