(* ===== verification/DiagRing.v ===== *)
(** * The diagnostics ring

    [apps/openaircast/src/diagnostics/ring.rs] and the event values of
    [diagnostics/snapshot.rs].  Every operation holds the ring's mutex from its
    first read to its last write, so an operation is one step on the guarded
    state.  The backend and client feeds that a payload wraps are types the
    ring only carries.  A [SystemTime] is a number, a [SessionId] the number of
    its UUID. *)

From S2P Require Import Prelude AppState Model.

Module DiagRing.

Definition EVENT_RING_CAPACITY : nat := Z.to_nat 4096.
Definition MAX_EVENT_READ_LIMIT : nat := Z.to_nat 512.

Notation SessionId := Z (only parsing).
Notation EventCursor := Z (only parsing).

Record ReceiverSessionKey := { session_id : SessionId; receiver_id : DeviceId }.

Inductive DiagnosticSeverity := SevInfo | SevWarning | SevError.

Inductive DiagnosticComponent :=
| CompDiscovery | CompPairing | CompRtsp | CompTiming | CompCapture | CompBuffer | CompEncoder
| CompScheduler | CompUdpTransport | CompRetransmit | CompFeedback | CompCalibration | CompExport
| CompBackend.

Inductive Recoverability :=
| Transient | AutomaticRetry | RequiresSessionRestart | UserAction | Fatal.

Inductive DiagnosticErrorCode :=
| DiscoveryFailure | PairingFailure | SetupRejected | SetupTimeout | EventChannelFailure
| PtpBindFallback | PtpSampleStale | CaptureFailure | CaptureQueueFull | BufferUnderrun
| EncodeFailure | SenderQueueDisconnected | UdpSendFailure | RetransmitHistoryMiss
| FeedbackFailure | FeedbackTimeout | TeardownTimeout | CalibrationApplyFailure | ExportFailure
| Notice.

Record DiagnosticError := {
  err_code : DiagnosticErrorCode;
  err_component : DiagnosticComponent;
  err_severity : DiagnosticSeverity;
  err_recoverability : Recoverability;
  err_operation : string;
  err_receiver_session : option ReceiverSessionKey;
  err_public_message : string;
  err_technical_detail : option string;
}.

Inductive DefiniteCounterKind :=
| CaptureDrops | BufferUnderruns | UdpSendFailures | RetransmitHistoryMisses.
Inductive CalibrationApplyState := PendingRestart | Applied | CalibrationFailed.
Inductive ExportEventState := ExportStarted | ExportCompleted | ExportFailed.

Section Ring.
Context {BackendDiagnosticPayload ClientDiagnosticEvent : Type}.

Inductive StructuredDiagnosticPayload :=
| Backend (p : BackendDiagnosticPayload)
| Client (e : ClientDiagnosticEvent)
| Error (e : DiagnosticError)
| DefiniteCounterTransition (counter : DefiniteCounterKind) (previous_total current_total : Z)
| CalibrationState (s : CalibrationApplyState)
| ExportState (s : ExportEventState).

Record DiagnosticEventDraft := {
  occurred_at_utc : Z;
  process_elapsed_ns : Z;
  receiver_session : option ReceiverSessionKey;
  severity : DiagnosticSeverity;
  component : DiagnosticComponent;
  code : DiagnosticErrorCode;
  public_message : string;
  payload : StructuredDiagnosticPayload;
}.

(** [DiagnosticEvent] has the fields of the draft it was made from and the
    cursor the ring assigned. *)
Record DiagnosticEvent := { cursor : EventCursor; content : DiagnosticEventDraft }.

Record EventGap := {
  requested_cursor : EventCursor;
  resumed_at_cursor : EventCursor;
  overwritten_events : Z;
}.

Record EventBatch := {
  events : list DiagnosticEvent;
  next_cursor : EventCursor;
  oldest_available_cursor : EventCursor;
  gap : option EventGap;
}.

Record RingInner := {
  entries : list DiagnosticEvent;
  ring_next_cursor : Z;
  overwritten_total : Z;
}.

Definition new : RingInner :=
  {| entries := []; ring_next_cursor := 1; overwritten_total := 0 |}.

(** [while entries.len() > EVENT_RING_CAPACITY { entries.pop_front() .. }] *)
Fixpoint evict (entries : list DiagnosticEvent) (overwritten : Z)
  : list DiagnosticEvent * Z :=
  match entries with
  | [] => ([], overwritten)
  | _ :: rest =>
      if (EVENT_RING_CAPACITY <? length entries)%nat then evict rest (u64_succ overwritten)
      else (entries, overwritten)
  end.

Definition push (inner : RingInner) (draft : DiagnosticEventDraft) : RingInner * EventCursor :=
  let c := ring_next_cursor inner in
  let '(entries', overwritten') :=
    evict (entries inner ++ [{| cursor := c; content := draft |}]) (overwritten_total inner) in
  ({| entries := entries'; ring_next_cursor := u64_succ c; overwritten_total := overwritten' |}, c).

Definition oldest (inner : RingInner) : EventCursor :=
  match entries inner with e :: _ => cursor e | [] => ring_next_cursor inner end.

(** The [for event in &inner.entries] loop of [events_since]. *)
Fixpoint collect (c : EventCursor) (limit : nat) (es : list DiagnosticEvent)
    (acc : list DiagnosticEvent) (next : EventCursor) : list DiagnosticEvent * EventCursor :=
  match es with
  | [] => (acc, next)
  | e :: es' =>
      if cursor e <=? c then collect c limit es' acc next
      else if (length acc =? limit)%nat then (acc, next)
      else collect c limit es' (acc ++ [e]) (cursor e)
  end.

Definition clamp_limit (limit : nat) : nat := Nat.max 1 (Nat.min limit MAX_EVENT_READ_LIMIT).

Definition events_since (inner : RingInner) (c : EventCursor) (limit : nat) : EventBatch :=
  let limit := clamp_limit limit in
  let oldest := oldest inner in
  let newest_assigned := wrap 64 (ring_next_cursor inner - 1) in
  let gap :=
    if (c <? oldest) && (0 <? overwritten_total inner)
    then Some {| requested_cursor := c; resumed_at_cursor := oldest;
                 overwritten_events := sat_sub oldest c |}
    else None in
  let '(events, next) := collect c limit (entries inner) [] (Z.min newest_assigned c) in
  {| events := events; next_cursor := next; oldest_available_cursor := oldest; gap := gap |}.

Definition export_batch (inner : RingInner) : list DiagnosticEvent * option EventGap :=
  (entries inner,
   if 0 <? overwritten_total inner
   then Some {| requested_cursor := 0; resumed_at_cursor := oldest inner;
                overwritten_events := overwritten_total inner |}
   else None).

(** ** The log the ring abstracts

    Everything ever pushed, stamped with consecutive cursors from one. *)

Definition stamped (ds : list DiagnosticEventDraft) : list DiagnosticEvent :=
  imap (fun i d => {| cursor := Z.of_nat (S i); content := d |}) ds.

Definition after (ds : list DiagnosticEventDraft) : RingInner :=
  fold_left (fun r d => fst (push r d)) ds new.

(** Cursors below this one have been overwritten. *)
Definition lost (ds : list DiagnosticEventDraft) : nat := length ds - EVENT_RING_CAPACITY.

Definition ring_models (ds : list DiagnosticEventDraft) (r : RingInner) : Prop :=
  entries r = drop (lost ds) (stamped ds) /\
  ring_next_cursor r = Z.of_nat (S (length ds)) /\
  overwritten_total r = Z.of_nat (lost ds).

(** The process-lifetime bound the 64-bit cursor relies on. *)
Definition within_cursors (ds : list DiagnosticEventDraft) : Prop :=
  Z.of_nat (length ds) < 2 ^ 64 - 1.

Lemma length_stamped ds : length (stamped ds) = length ds.
Proof. apply length_imap. Qed.

Lemma stamped_push ds d :
  stamped (ds ++ [d]) = stamped ds ++ [{| cursor := Z.of_nat (S (length ds)); content := d |}].
Proof. unfold stamped. rewrite imap_app. cbn. by rewrite Nat.add_0_r. Qed.

Lemma lookup_stamped_cursor ds i e : stamped ds !! i = Some e -> cursor e = Z.of_nat (S i).
Proof. unfold stamped. rewrite list_lookup_imap. intros (d & _ & ->)%fmap_Some. done. Qed.

Lemma evict_fits es ow : (length es <= EVENT_RING_CAPACITY)%nat -> evict es ow = (es, ow).
Proof.
  destruct es as [|e es]; [done|]. intros H. cbn [evict].
  destruct (Nat.ltb_spec EVENT_RING_CAPACITY (length (e :: es))); [lia|done].
Qed.

Lemma evict_one e es ow :
  length es = EVENT_RING_CAPACITY -> evict (e :: es) ow = (es, u64_succ ow).
Proof.
  intros H. cbn [evict].
  destruct (Nat.ltb_spec EVENT_RING_CAPACITY (length (e :: es))); cbn [length] in *; [|lia].
  apply evict_fits. lia.
Qed.

Lemma capacity_positive : (0 < EVENT_RING_CAPACITY)%nat.
Proof. unfold EVENT_RING_CAPACITY. lia. Qed.

Lemma evict_window (log : list DiagnosticEvent) e ow :
  Z.of_nat ow < 2 ^ 64 - 1 -> ow = (length log - EVENT_RING_CAPACITY)%nat ->
  evict (drop ow log ++ [e]) (Z.of_nat ow)
  = let k := (length (log ++ [e]) - EVENT_RING_CAPACITY)%nat in
    (drop k (log ++ [e]), Z.of_nat k).
Proof.
  intros Hw ->. pose proof capacity_positive. cbn zeta. rewrite length_app. cbn [length].
  destruct (Nat.ltb_spec (length log) EVENT_RING_CAPACITY).
  - replace (length log + 1 - EVENT_RING_CAPACITY)%nat with 0%nat by lia.
    replace (length log - EVENT_RING_CAPACITY)%nat with 0%nat by lia.
    rewrite !drop_0. apply evict_fits. rewrite length_app. cbn [length]. lia.
  - set (k := (length log - EVENT_RING_CAPACITY)%nat) in *.
    replace (length log + 1 - EVENT_RING_CAPACITY)%nat with (S k) by lia.
    destruct (lookup_lt_is_Some_2 log k) as [x Hx]; [lia|].
    rewrite (drop_S log x k Hx). cbn [app].
    rewrite evict_one by (rewrite length_app, length_drop; cbn [length]; lia).
    rewrite u64_succ_no_overflow by lia.
    rewrite drop_app_le by lia. f_equal. lia.
Qed.

Lemma push_models ds r d :
  ring_models ds r -> within_cursors (ds ++ [d]) ->
  ring_models (ds ++ [d]) (fst (push r d)) /\ snd (push r d) = Z.of_nat (S (length ds)).
Proof.
  intros (He & Hn & Ho) Hw. unfold within_cursors in Hw. rewrite length_app in Hw; cbn in Hw.
  unfold push. rewrite He, Hn, Ho.
  rewrite (evict_window (stamped ds)); [|unfold lost; lia|by rewrite length_stamped].
  cbn zeta. unfold ring_models, lost.
  rewrite <- stamped_push, length_stamped, length_app. cbn [fst snd entries ring_next_cursor
    overwritten_total length].
  rewrite u64_succ_no_overflow by lia. repeat split; lia.
Qed.

Lemma after_snoc ds d : after (ds ++ [d]) = fst (push (after ds) d).
Proof. unfold after. by rewrite fold_left_app. Qed.

Lemma after_models ds : within_cursors ds -> ring_models ds (after ds).
Proof.
  induction ds as [|d ds IH] using rev_ind; intros Hw; [done|].
  rewrite after_snoc. apply push_models; [apply IH|done].
  unfold within_cursors in *. rewrite length_app in Hw. lia.
Qed.

(** ** Reading *)

Lemma collect_spec c limit es acc next :
  (length acc <= limit)%nat ->
  let hit := take (limit - length acc) (filter (fun e => c < cursor e) es) in
  collect c limit es acc next = (acc ++ hit, default next (cursor <$> last hit)).
Proof.
  revert acc next. induction es as [|e es IH]; intros acc next Hl; cbn zeta.
  - cbn [filter]. rewrite filter_nil, take_nil, app_nil_r. done.
  - cbn [collect]. rewrite filter_cons.
    destruct (Z.leb_spec (cursor e) c); [rewrite decide_False by lia; by apply IH|].
    rewrite decide_True by lia.
    destruct (Nat.eqb_spec (length acc) limit) as [Heq|Hne].
    + replace (limit - length acc)%nat with 0%nat by lia. cbn. by rewrite app_nil_r.
    + rewrite IH by (rewrite length_app; cbn; lia). cbn zeta.
      rewrite length_app. cbn [length].
      replace (limit - length acc)%nat with (S (limit - (length acc + 1))) by lia.
      cbn [take]. rewrite <- app_assoc. cbn [app]. f_equal.
      rewrite last_cons. by destruct (last _).
Qed.

(** Among the stamped events from position [k] on, those after cursor [c]. *)
Lemma filter_stamped ds k (c : nat) :
  filter (fun e => Z.of_nat c < cursor e) (drop k (stamped ds)) = drop (Nat.max k c) (stamped ds).
Proof.
  rewrite <- (take_drop (c - k) (drop k (stamped ds))), filter_app, !drop_drop.
  replace (k + (c - k))%nat with (Nat.max k c) by lia.
  rewrite (filter_drops _ (take _ _)), (filter_keeps _ (drop _ _)); [done| |].
  - apply Forall_lookup. intros i e Hi. rewrite lookup_drop in Hi.
    rewrite (lookup_stamped_cursor _ _ _ Hi). lia.
  - apply Forall_lookup. intros i e (Hi & Hlt)%lookup_take_Some. rewrite lookup_drop in Hi.
    rewrite (lookup_stamped_cursor _ _ _ Hi). lia.
Qed.

Lemma lost_lt ds : (0 < length ds -> lost ds < length ds)%nat.
Proof. pose proof capacity_positive. unfold lost. lia. Qed.

Lemma oldest_after ds r : ring_models ds r -> oldest r = Z.of_nat (S (lost ds)).
Proof.
  intros (He & Hn & _). unfold oldest. rewrite He.
  destruct (drop (lost ds) (stamped ds)) as [|e es] eqn:E.
  - apply (f_equal length) in E. rewrite length_drop, length_stamped in E. cbn in E.
    rewrite Hn. pose proof (lost_lt ds). unfold lost in *. lia.
  - eapply lookup_stamped_cursor. rewrite <- (Nat.add_0_r (lost ds)), <- lookup_drop, E. done.
Qed.

Lemma clamp_positive limit : (0 < clamp_limit limit)%nat.
Proof. unfold clamp_limit. lia. Qed.

(** The position a reader at [c] resumes from. *)
Definition resume (ds : list DiagnosticEventDraft) (c : nat) : nat := Nat.max (lost ds) c.

Lemma last_hit_cursor ds s lim next :
  (s <= length ds)%nat -> (0 < lim)%nat -> (s = length ds -> next = Z.of_nat s) ->
  default next (cursor <$> last (take lim (drop s (stamped ds))))
  = Z.of_nat (Nat.min (length ds) (s + lim)).
Proof.
  intros Hs Hlim Hend. set (n := Nat.min lim (length ds - s)).
  assert (Hlen : length (take lim (drop s (stamped ds))) = n).
  { rewrite length_take, length_drop, length_stamped. done. }
  rewrite last_lookup, Hlen.
  destruct (decide (s = length ds)) as [->|Hne].
  - rewrite lookup_ge_None_2 by (rewrite Hlen; lia). cbn. rewrite Hend by done. lia.
  - destruct (lookup_lt_is_Some_2 (take lim (drop s (stamped ds))) (pred n)) as [e He];
      [rewrite Hlen; lia|].
    rewrite He. cbn. apply lookup_take_Some in He as [He _]. rewrite lookup_drop in He.
    rewrite (lookup_stamped_cursor _ _ _ He). lia.
Qed.

(** What a read at a position the ring has assigned returns, in terms of the
    log. *)
Lemma read_exact ds r c limit :
  ring_models ds r -> within_cursors ds -> (c <= length ds)%nat ->
  events_since r (Z.of_nat c) limit =
  {| events := take (clamp_limit limit) (drop (resume ds c) (stamped ds));
     next_cursor := Z.of_nat (Nat.min (length ds) (resume ds c + clamp_limit limit));
     oldest_available_cursor := Z.of_nat (S (lost ds));
     gap := if (c <=? lost ds)%nat && (0 <? lost ds)%nat
            then Some {| requested_cursor := Z.of_nat c;
                         resumed_at_cursor := Z.of_nat (S (lost ds));
                         overwritten_events := Z.of_nat (S (lost ds) - c) |}
            else None |}.
Proof.
  intros Hm Hw Hc. pose proof (lost_lt ds) as Hlost. pose proof (clamp_positive limit).
  unfold events_since. rewrite (oldest_after ds r Hm). destruct Hm as (He & Hn & Ho).
  rewrite collect_spec by (cbn; lia). cbn zeta.
  rewrite He, filter_stamped, Nat.sub_0_r, Hn, Ho. cbn [app length].
  fold (resume ds c). unfold resume, within_cursors in *.
  rewrite wrap_id by (unfold in_width; lia).
  rewrite last_hit_cursor; [|unfold lost in *; lia|done|unfold lost in *; lia].
  f_equal. replace (Z.of_nat c <? Z.of_nat (S (lost ds))) with (c <=? lost ds)%nat by
    (destruct (Nat.leb_spec c (lost ds)), (Z.ltb_spec (Z.of_nat c) (Z.of_nat (S (lost ds)))); lia).
  replace (0 <? Z.of_nat (lost ds)) with (0 <? lost ds)%nat by
    (destruct (Nat.ltb_spec 0 (lost ds)), (Z.ltb_spec 0 (Z.of_nat (lost ds))); lia).
  destruct (Nat.leb_spec c (lost ds)); [|done]. cbn [andb].
  destruct (0 <? lost ds)%nat; [|done]. unfold sat_sub. repeat f_equal. lia.
Qed.

(** ** A polling reader

    Producers push while one reader polls, resuming at the cursor it was given
    last. *)

Inductive ReaderOp := Pushed (d : DiagnosticEventDraft) | Polled (limit : nat).

Record Reader := {
  rd_ring : RingInner;
  rd_cursor : EventCursor;
  rd_delivered : list DiagnosticEvent;
  rd_gaps : list EventGap;
}.

Definition reader_step (st : Reader) (op : ReaderOp) : Reader :=
  match op with
  | Pushed d =>
      {| rd_ring := fst (push (rd_ring st) d); rd_cursor := rd_cursor st;
         rd_delivered := rd_delivered st; rd_gaps := rd_gaps st |}
  | Polled limit =>
      let batch := events_since (rd_ring st) (rd_cursor st) limit in
      {| rd_ring := rd_ring st; rd_cursor := next_cursor batch;
         rd_delivered := rd_delivered st ++ events batch;
         rd_gaps := rd_gaps st ++ option_list (gap batch) |}
  end.

Definition reader_run (ops : list ReaderOp) : Reader :=
  fold_left reader_step ops
    {| rd_ring := new; rd_cursor := 0; rd_delivered := []; rd_gaps := [] |}.

Definition pushed (ops : list ReaderOp) : list DiagnosticEventDraft :=
  omap (fun op => match op with Pushed d => Some d | Polled _ => None end) ops.

(** The cursors strictly between a gap's ends. *)
Definition in_gap (e : DiagnosticEvent) (g : EventGap) : bool :=
  (requested_cursor g <? cursor e) && (cursor e <? resumed_at_cursor g).
Definition reported (gaps : list EventGap) (e : DiagnosticEvent) : Prop :=
  existsb (in_gap e) gaps = true.
#[export] Instance reported_dec gaps e : Decision (reported gaps e).
Proof. unfold reported. apply _. Defined.

Definition reader_ok (ds : list DiagnosticEventDraft) (st : Reader) : Prop :=
  exists c : nat,
    rd_cursor st = Z.of_nat c /\ (c <= length ds)%nat /\ ring_models ds (rd_ring st) /\
    Forall (fun g => resumed_at_cursor g <= Z.of_nat (S c)) (rd_gaps st) /\
    rd_delivered st
    = filter (fun e => ~ reported (rd_gaps st) e) (take c (stamped ds)).

Lemma reported_app gaps gaps' e :
  reported (gaps ++ gaps') e <-> reported gaps e \/ reported gaps' e.
Proof. unfold reported. rewrite existsb_app. apply orb_true_iff. Qed.

Lemma reported_gap (b : bool) g e :
  reported (option_list (if b then Some g else None)) e <->
  b = true /\ requested_cursor g < cursor e < resumed_at_cursor g.
Proof.
  unfold reported, in_gap. destruct b; cbn; [|split; [discriminate|by intros [? _]]].
  rewrite orb_false_r, andb_true_iff, !Z.ltb_lt. tauto.
Qed.

Lemma reader_push_ok ds st d :
  reader_ok ds st -> within_cursors (ds ++ [d]) ->
  reader_ok (ds ++ [d]) (reader_step st (Pushed d)).
Proof.
  intros (c & Hc & Hle & Hm & Hg & Hd) Hw. exists c. cbn.
  split; [done|]. split; [rewrite length_app; lia|].
  split; [by apply push_models|]. split; [done|].
  rewrite Hd, stamped_push, take_app_le; [done|by rewrite length_stamped].
Qed.

(** The gaps reported before a poll end before what the poll delivers. *)
Lemma not_reported_later ds gaps c i e :
  Forall (fun g => resumed_at_cursor g <= Z.of_nat (S c)) gaps ->
  stamped ds !! i = Some e -> (c <= i)%nat -> ~ reported gaps e.
Proof.
  unfold reported. intros Hg Hi%lookup_stamped_cursor Hci (g & Hin & Hgap)%existsb_exists.
  rewrite Forall_forall in Hg. specialize (Hg g (proj2 (list_elem_of_In _ _) Hin)).
  unfold in_gap in Hgap. lia.
Qed.

Lemma reader_poll_ok ds st limit :
  reader_ok ds st -> within_cursors ds -> reader_ok ds (reader_step st (Polled limit)).
Proof.
  intros (c & Hc & Hle & Hm & Hg & Hd) Hw.
  pose proof (lost_lt ds). pose proof (clamp_positive limit).
  cbn [reader_step]. rewrite Hc, (read_exact ds _ c limit Hm Hw Hle).
  cbn [events next_cursor gap].
  set (s := resume ds c) in *. set (g := if _ && _ then _ else _).
  assert (Hs : (c <= s <= length ds /\ lost ds <= s)%nat) by
    (subst s; unfold resume, lost in *; lia).
  exists (Nat.min (length ds) (s + clamp_limit limit)). cbn [rd_cursor rd_ring rd_gaps rd_delivered].
  split; [done|]. split; [lia|]. split; [done|]. split.
  { apply Forall_app; split.
    - eapply Forall_impl; [exact Hg|]. cbn. lia.
    - subst g. destruct (_ && _) eqn:E; repeat constructor. cbn. lia. }
  rewrite <- (length_stamped ds), (take_three _ c s) by (rewrite length_stamped; lia).
  rewrite Hd, !filter_app. f_equal; [|rewrite filter_drops, filter_keeps; [done| |]].
  - apply filter_agree, Forall_lookup. intros i e (Hi & Hlt)%lookup_take_Some.
    apply lookup_stamped_cursor in Hi. rewrite reported_app.
    enough (~ reported (option_list g) e) by tauto.
    subst g. rewrite reported_gap. cbn. lia.
  - apply Forall_lookup. intros i e (Hi & _)%lookup_take_Some. rewrite lookup_drop in Hi.
    rewrite reported_app. intros [Hr|Hr]; [eapply not_reported_later; eauto; lia|].
    apply lookup_stamped_cursor in Hi. subst g. rewrite reported_gap in Hr. cbn in Hr. lia.
  - apply Forall_lookup. intros i e (Hi & Hlt)%lookup_take_Some. rewrite lookup_drop in Hi.
    apply lookup_stamped_cursor in Hi. intros Hn. apply Hn, reported_app. right.
    subst g s. unfold resume in *. rewrite reported_gap. cbn [requested_cursor resumed_at_cursor]. rewrite andb_true_iff, Nat.leb_le, Nat.ltb_lt. lia.
Qed.

Lemma reader_run_ok ops : within_cursors (pushed ops) -> reader_ok (pushed ops) (reader_run ops).
Proof.
  induction ops as [|op ops IH] using rev_ind; intros Hw.
  - exists 0%nat. repeat split; constructor.
  - unfold reader_run. rewrite fold_left_app. cbn [fold_left]. fold (reader_run ops).
    unfold pushed in *. rewrite omap_app in *.
    destruct op as [d|limit]; cbn in *; rewrite ?app_nil_r in *.
    + apply reader_push_ok; [|done]. apply IH. unfold within_cursors in *.
      rewrite length_app in Hw. lia.
    + by apply reader_poll_ok; [apply IH|].
Qed.

(** Producers push any number of events below 2^64 - 1 while a reader polls
    with any limits, each time from the cursor the last batch gave it.  Then
    what the reader holds is, in order and without repetition, exactly the log
    of everything pushed up to its cursor, less the events strictly inside the
    gaps it was told about: nothing is lost silently, and nothing a gap reports
    was delivered. *)
Theorem reader_holds_log_minus_gaps (ops : list ReaderOp) :
  within_cursors (pushed ops) ->
  let st := reader_run ops in
  0 <= rd_cursor st <= Z.of_nat (length (pushed ops)) /\
  rd_delivered st
  = filter (fun e => ~ reported (rd_gaps st) e)
      (take (Z.to_nat (rd_cursor st)) (stamped (pushed ops))).
Proof.
  intros Hw st. destruct (reader_run_ok ops Hw) as (c & Hc & Hle & _ & _ & Hd).
  subst st. rewrite Hc, Nat2Z.id. split; [lia|exact Hd].
Qed.

(** A poll of a reader that is behind always advances it, by a full clamped
    page or to the newest event. *)
Lemma poll_advances ds st limit c :
  reader_ok ds st -> within_cursors ds -> rd_cursor st = Z.of_nat c -> (c < length ds)%nat ->
  let c' := rd_cursor (reader_step st (Polled limit)) in
  Z.of_nat (Nat.min (length ds) (c + clamp_limit limit)) <= c' <= Z.of_nat (length ds).
Proof.
  intros (c0 & Hc0 & Hle & Hm & _) Hw Hc Hlt. assert (c0 = c) as -> by lia.
  cbn [reader_step rd_cursor]. rewrite Hc, (read_exact ds _ c limit Hm Hw Hle).
  cbn [next_cursor]. unfold resume. lia.
Qed.

(** The gap count is one more than the events it covers: a reader that has
    seen everything before the oldest retained event is told one was lost. *)
Theorem gap_overcounts_by_one (ds : list DiagnosticEventDraft) (c limit : nat) (g : EventGap) :
  within_cursors ds -> (c <= length ds)%nat ->
  gap (events_since (after ds) (Z.of_nat c) limit) = Some g ->
  overwritten_events g
  = Z.of_nat (length (filter (fun e => in_gap e g = true) (stamped ds))) + 1.
Proof.
  intros Hw Hc Hg. rewrite (read_exact ds _ c limit (after_models ds Hw) Hw Hc) in Hg.
  cbn [gap] in Hg. destruct (_ && _) eqn:E; [|discriminate]. injection Hg as <-.
  cbn [overwritten_events]. assert (lost ds <= length ds)%nat by (unfold lost; lia).
  apply andb_true_iff in E as [E1%Nat.leb_le E2%Nat.ltb_lt].
  rewrite <- (take_drop (lost ds) (stamped ds)), filter_app, <- (take_drop c (take _ _)), filter_app.
  rewrite (filter_drops _ (take c _)), (filter_keeps _ (drop c _)), (filter_drops _ (drop (lost ds) _)).
  - rewrite !length_app, length_drop, length_take, length_stamped. cbn [length]. lia.
  - apply Forall_lookup. intros i e Hi. rewrite lookup_drop in Hi.
    apply lookup_stamped_cursor in Hi. unfold in_gap. cbn.
    rewrite ?andb_true_iff, ?Z.ltb_lt. lia.
  - apply Forall_lookup. intros i e Hi. rewrite lookup_drop in Hi.
    apply lookup_take_Some in Hi as [Hi ?]. apply lookup_stamped_cursor in Hi. unfold in_gap. cbn.
    rewrite ?andb_true_iff, ?Z.ltb_lt. lia.
  - apply Forall_lookup. intros i e [[Hi ?]%lookup_take_Some ?]%lookup_take_Some.
    apply lookup_stamped_cursor in Hi. unfold in_gap. cbn.
    rewrite ?andb_true_iff, ?Z.ltb_lt. lia.
Qed.

(** The support export holds the whole retained window, and its gap counts the
    overwritten events exactly. *)
Lemma export_exact ds :
  within_cursors ds ->
  export_batch (after ds)
  = (drop (lost ds) (stamped ds),
     if (0 <? lost ds)%nat
     then Some {| requested_cursor := 0; resumed_at_cursor := Z.of_nat (S (lost ds));
                  overwritten_events := Z.of_nat (lost ds) |}
     else None).
Proof.
  intros Hw. pose proof (after_models ds Hw) as Hm. unfold export_batch.
  rewrite (oldest_after ds _ Hm). destruct Hm as (-> & _ & ->). f_equal.
  destruct (Nat.ltb_spec 0 (lost ds)), (Z.ltb_spec 0 (Z.of_nat (lost ds))); done || lia.
Qed.

End Ring.

Lemma reader_holds_log_minus_gaps_witness :
  let d := {| occurred_at_utc := 0; process_elapsed_ns := 0; receiver_session := None;
              severity := SevInfo; component := CompBackend; code := Notice;
              public_message := "capture ready"; payload := ExportState ExportStarted |}
           : @DiagnosticEventDraft unit unit in
  let st := reader_run (repeat (Pushed d) 5000 ++ [Polled 9]) in
  rd_delivered st = filter (fun e => ~ reported (rd_gaps st) e)
                      (take (Z.to_nat (rd_cursor st))
                         (stamped (pushed (repeat (Pushed d) 5000 ++ [Polled 9])))) /\
  length (rd_delivered st) = 9%nat /\ rd_cursor st = 913.
Proof.
  intros d st. split.
  - apply (reader_holds_log_minus_gaps (repeat (Pushed d) 5000 ++ [Polled 9])).
    vm_compute. reflexivity.
  - split; vm_compute; reflexivity.
Defined.

Lemma gap_overcounts_by_one_witness :
  let d := {| occurred_at_utc := 0; process_elapsed_ns := 0; receiver_session := None;
              severity := SevInfo; component := CompBackend; code := Notice;
              public_message := "capture ready"; payload := ExportState ExportStarted |}
           : @DiagnosticEventDraft unit unit in
  let ds := repeat d 4097 in
  let g := {| requested_cursor := 1; resumed_at_cursor := 2; overwritten_events := 1 |} in
  overwritten_events g
  = Z.of_nat (length (filter (fun e => in_gap e g = true) (stamped ds))) + 1.
Proof.
  intros d ds g. apply (gap_overcounts_by_one ds 1 1 g).
  - vm_compute. reflexivity.
  - vm_compute. lia.
  - vm_compute. reflexivity.
Defined.
End DiagRing.
