(* ===== verification/Calibration.v ===== *)
(** * Presentation-time calibration

    [apps/openaircast/src/calibration.rs].  The [BTreeMap]s and [BTreeSet]s are
    [gmap]s and [gset]s: their iteration order is never observable here, since
    a minimum and a map are built from it.  Both identity types wrap the same
    six bytes and are [DeviceId].  [i64] and [u64] delays are [Z]; the [i128]
    subtraction cannot leave its range.  An index outside a slice panics, which
    is [None]. *)

From S2P Require Import Prelude AppState Model.
Import Model.

Module Calibration.

Definition CALIBRATION_DISPLAY_STEP_NS : Z := 100000.
Definition CALIBRATION_CLICK_AMPLITUDE : Z := 4096.
Definition CALIBRATION_CLICK_COUNT : Z := 4.
Definition CALIBRATION_CLICK_WIDTH_MS : Z := 2.
Definition CALIBRATION_CLICK_SPACING_MS : Z := 500.

Record CalibrationProfile := {
  reference_receiver : option ReceiverId;
  requested_relative_delay_ns : gmap ReceiverId Z;
}.

Record EffectiveCalibration := {
  minimum_requested_ns : Z;
  effective_delay_ns : gmap ReceiverId Z;
}.

Inductive CalibrationError := EmptySelection | ReferenceNotInSelection | ArithmeticOverflow.

Inductive CalibrationCommand :=
| ApplyCalibrationProfile (expected_desired_revision : Z) (profile : CalibrationProfile)
| ResetCalibration (expected_desired_revision : Z)
| RunCalibrationClickTest.

(** The persisted section, and its conversions. *)
Record CalibrationStateV2 := { reference : option ReceiverId; delays_ns : gmap ReceiverId Z }.

Definition state_of_profile (profile : CalibrationProfile) : CalibrationStateV2 :=
  {| reference := reference_receiver profile;
     delays_ns := requested_relative_delay_ns profile |}.
Definition profile_of_state (section : CalibrationStateV2) : CalibrationProfile :=
  {| reference_receiver := reference section; requested_relative_delay_ns := delays_ns section |}.

(** [DeviceId::from(ReceiverId)] moves the six bytes. *)
Definition effective_delays_by_device (effective : EffectiveCalibration) : gmap DeviceId Z :=
  list_to_map ((fun '(receiver, delay) => (receiver, delay))
                 <$> map_to_list (effective_delay_ns effective)).

Definition requested_delay_ns (profile : CalibrationProfile) (receiver : ReceiverId) : Z :=
  default 0 (requested_relative_delay_ns profile !! receiver).

(** [Iterator::min] *)
Definition minimum (l : list Z) : option Z :=
  match l with [] => None | x :: l' => Some (fold_left Z.min l' x) end.

Definition u64_try_from (x : Z) : option Z := if (0 <=? x) && (x <? 2 ^ 64) then Some x else None.

(** The [for receiver in active] loop; [?] leaves it at the first overflow. *)
Fixpoint shift_delays (profile : CalibrationProfile) (minimum_requested_ns : Z)
    (active : list ReceiverId) (acc : gmap ReceiverId Z)
  : Result (gmap ReceiverId Z) CalibrationError :=
  match active with
  | [] => Ok acc
  | receiver :: active' =>
      match u64_try_from (requested_delay_ns profile receiver - minimum_requested_ns) with
      | None => Err ArithmeticOverflow
      | Some shifted =>
          shift_delays profile minimum_requested_ns active' (<[receiver := shifted]> acc)
      end
  end.

Definition normalize_calibration (active : gset ReceiverId) (profile : CalibrationProfile)
  : Result EffectiveCalibration CalibrationError :=
  if bool_decide (active = ∅) then Err EmptySelection
  else if match reference_receiver profile with
          | Some reference => negb (bool_decide (reference ∈ active))
          | None => false
          end
  then Err ReferenceNotInSelection
  else
    let minimum_requested_ns :=
      default 0 (minimum (requested_delay_ns profile <$> elements active)) in
    let? effective_delay_ns := shift_delays profile minimum_requested_ns (elements active) ∅ in
    Ok {| minimum_requested_ns := minimum_requested_ns;
          effective_delay_ns := effective_delay_ns |}.

(** ** The click pattern *)

Definition frames_for_ms (sample_rate milliseconds : Z) : nat :=
  Z.to_nat (sample_rate * milliseconds / 1000).

(** [for slot in &mut samples[base..base + channels] { *slot = amplitude }] *)
Definition fill_frame (channels : nat) (samples : list Z) (frame : nat) : option (list Z) :=
  let base := (frame * channels)%nat in
  if (base + channels <=? length samples)%nat
  then Some (take base samples ++ replicate channels CALIBRATION_CLICK_AMPLITUDE
               ++ drop (base + channels) samples)
  else None.

(** [for x in xs { body }] over a body that can panic. *)
Fixpoint for_each {A S} (body : S -> A -> option S) (xs : list A) (s : S) : option S :=
  match xs with
  | [] => Some s
  | x :: xs' => s' ← body s x; for_each body xs' s'
  end.

Definition calibration_click_pattern (sample_rate channels : Z) : option (list Z) :=
  let channels := Z.to_nat (Z.max channels 1) in
  let click_frames := frames_for_ms sample_rate CALIBRATION_CLICK_WIDTH_MS in
  let spacing_frames := frames_for_ms sample_rate CALIBRATION_CLICK_SPACING_MS in
  let clicks := Z.to_nat CALIBRATION_CLICK_COUNT in
  let total_frames := (spacing_frames * (clicks - 1) + click_frames)%nat in
  for_each (fun samples click =>
              for_each (fill_frame channels) (seq (click * spacing_frames) click_frames) samples)
    (seq 0 clicks) (replicate (total_frames * channels) 0).

(** ** Normalization *)

Definition i64_ok (x : Z) : Prop := - 2 ^ 63 <= x < 2 ^ 63.
Definition profile_ok (profile : CalibrationProfile) : Prop :=
  map_Forall (fun _ => i64_ok) (requested_relative_delay_ns profile).

Lemma requested_ok profile r : profile_ok profile -> i64_ok (requested_delay_ns profile r).
Proof.
  intros H. unfold requested_delay_ns. destruct (_ !! r) as [x|] eqn:E; cbn.
  - exact (H r x E).
  - unfold i64_ok. lia.
Qed.

Lemma fold_min_spec l x :
  fold_left Z.min l x ∈ x :: l /\ Forall (fun y => fold_left Z.min l x <= y) (x :: l).
Proof.
  revert x. induction l as [|y l IH]; intros x; cbn.
  - split; [set_solver|]. repeat constructor. lia.
  - destruct (IH (Z.min x y)) as [Hin Hle]. inversion_clear Hle as [|? ? Hm Hrest]. split.
    + apply elem_of_cons in Hin as [->|Hin]; [|set_solver].
      destruct (Z.min_spec x y) as [[_ ->]|[_ ->]]; set_solver.
    + repeat constructor; [lia|lia|done].
Qed.

Lemma minimum_spec l m : minimum l = Some m -> m ∈ l /\ Forall (fun y => m <= y) l.
Proof. destruct l as [|x l]; [done|]. intros [= <-]. apply fold_min_spec. Qed.

Lemma shift_delays_spec profile m rs acc :
  Forall (fun r => in_width 64 (requested_delay_ns profile r - m)) rs ->
  exists delays,
    shift_delays profile m rs acc = Ok delays /\
    forall r, delays !! r = if decide (r ∈ rs) then Some (requested_delay_ns profile r - m)
                            else acc !! r.
Proof.
  intros H. revert acc. induction H as [|r rs Hr _ IH]; intros acc.
  - exists acc. split; [done|]. intros r. rewrite decide_False by set_solver. done.
  - cbn. unfold u64_try_from, in_width in *.
    replace (_ && _) with true by (symmetry; apply andb_true_iff; split; lia).
    destruct (IH (<[r := requested_delay_ns profile r - m]> acc)) as (delays & -> & Hd).
    exists delays. split; [done|]. intros r'. rewrite Hd.
    destruct (decide (r' ∈ rs)); [rewrite decide_True by set_solver; done|].
    destruct (decide (r' = r)) as [->|Hne].
    + rewrite decide_True by set_solver. apply lookup_insert_eq.
    + rewrite decide_False by set_solver. by apply lookup_insert_ne.
Qed.

(** What normalization returns when the selection is not empty and holds the
    reference: never an overflow for stored [i64] delays. *)
Lemma normalize_ok active profile :
  profile_ok profile -> active <> ∅ ->
  (forall r, reference_receiver profile = Some r -> r ∈ active) ->
  exists eff, normalize_calibration active profile = Ok eff /\
    (exists r, r ∈ active /\ minimum_requested_ns eff = requested_delay_ns profile r) /\
    (forall r, r ∈ active -> minimum_requested_ns eff <= requested_delay_ns profile r) /\
    (forall r, effective_delay_ns eff !! r
               = if decide (r ∈ active)
                 then Some (requested_delay_ns profile r - minimum_requested_ns eff) else None).
Proof.
  intros Hp Hne Href. unfold normalize_calibration.
  rewrite bool_decide_false by done.
  replace (match reference_receiver profile with Some _ => _ | None => _ end) with false.
  2:{ destruct (reference_receiver profile) as [r|]; [|done].
      by rewrite bool_decide_true by (apply Href; done). }
  destruct (minimum (requested_delay_ns profile <$> elements active)) as [m|] eqn:Em.
  2:{ destruct (elements active) eqn:E; [|done].
      apply elements_empty_inv in E. by apply leibniz_equiv in E. }
  cbn [from_option id]. destruct (minimum_spec _ _ Em) as [Hin Hle].
  apply list_elem_of_fmap in Hin as (r0 & -> & Hr0).
  rewrite Forall_fmap, Forall_forall in Hle. cbn in Hle.
  destruct (shift_delays_spec profile (requested_delay_ns profile r0) (elements active) ∅)
    as (delays & -> & Hd).
  { apply Forall_forall. intros r Hr. specialize (Hle r Hr). cbn in Hle.
    pose proof (requested_ok profile r Hp). pose proof (requested_ok profile r0 Hp).
    unfold i64_ok, in_width in *. lia. }
  cbn. eexists. split; [done|]. cbn. split; [exists r0; set_solver|]. split.
  - intros r Hr. apply Hle. set_solver.
  - intros r. rewrite Hd. apply decide_ext, elem_of_elements.
Qed.

Lemma normalize_err active profile e :
  profile_ok profile -> normalize_calibration active profile = Err e ->
  (e = EmptySelection /\ active = ∅) \/
  (e = ReferenceNotInSelection /\ active <> ∅ /\
   exists r, reference_receiver profile = Some r /\ r ∉ active).
Proof.
  intros Hp He. destruct (decide (active = ∅)) as [->|Hne].
  { left. unfold normalize_calibration in He. rewrite bool_decide_true in He by done.
    by injection He as <-. }
  right. destruct (reference_receiver profile) as [r|] eqn:Er.
  - destruct (decide (r ∈ active)) as [Hr|Hr].
    + destruct (normalize_ok active profile Hp Hne) as (eff & Hok & _); [congruence|].
      congruence.
    + unfold normalize_calibration in He. rewrite Er, !bool_decide_false in He by done.
      injection He as <-. eauto.
  - destruct (normalize_ok active profile Hp Hne) as (eff & Hok & _); [congruence|]. congruence.
Qed.

(** With stored delays in the [i64] range, normalization fails only for an
    empty selection or a reference outside it, so the overflow error is
    unreachable; otherwise exactly the selected receivers get a delay, every
    delay is a [u64], the earliest receiver gets zero, any two receivers keep
    the difference the user asked for, and entries of receivers outside the
    selection have no influence. *)
Theorem calibration_preserves_differences (active : gset ReceiverId)
    (profile : CalibrationProfile) :
  profile_ok profile ->
  match normalize_calibration active profile with
  | Err e =>
      (e = EmptySelection /\ active = ∅) \/
      (e = ReferenceNotInSelection /\ active <> ∅ /\
       exists r, reference_receiver profile = Some r /\ r ∉ active)
  | Ok eff =>
      dom (effective_delay_ns eff) = active /\
      map_Forall (fun _ d => in_width 64 d) (effective_delay_ns eff) /\
      (exists r, effective_delay_ns eff !! r = Some 0) /\
      (forall r s dr ds, effective_delay_ns eff !! r = Some dr ->
                         effective_delay_ns eff !! s = Some ds ->
                         dr - ds = requested_delay_ns profile r - requested_delay_ns profile s) /\
      (forall profile', reference_receiver profile' = reference_receiver profile ->
         (forall r, r ∈ active -> requested_relative_delay_ns profile' !! r
                                  = requested_relative_delay_ns profile !! r) ->
         profile_ok profile' ->
         normalize_calibration active profile' = Ok eff)
  end.
Proof.
  intros Hp. destruct (normalize_calibration active profile) as [eff|e] eqn:E;
    [|by apply (normalize_err active profile)].
  destruct (decide (active = ∅)) as [->|Hne].
  { unfold normalize_calibration in E. by rewrite bool_decide_true in E. }
  assert (Href : forall r, reference_receiver profile = Some r -> r ∈ active).
  { intros r Er. destruct (decide (r ∈ active)) as [|Hr]; [done|].
    unfold normalize_calibration in E. by rewrite Er, !bool_decide_false in E. }
  destruct (normalize_ok active profile Hp Hne Href) as (eff' & E' & Hat & Hmin & Hlk).
  assert (eff' = eff) as -> by congruence. clear E'. split; [|split; [|split; [|split]]].
  - apply set_eq. intros r. rewrite elem_of_dom, Hlk.
    destruct (decide (r ∈ active)); split; done || by intros [].
  - intros r d Hd. rewrite Hlk in Hd. destruct (decide (r ∈ active)) as [Hr|]; [|done].
    injection Hd as <-. specialize (Hmin r Hr). destruct Hat as (r0 & _ & Hr0).
    pose proof (requested_ok profile r Hp). pose proof (requested_ok profile r0 Hp).
    unfold i64_ok, in_width in *. lia.
  - destruct Hat as (r0 & Hin & Hr0). exists r0. rewrite Hlk, decide_True by done. f_equal. lia.
  - intros r s dr ds Hr Hs. rewrite Hlk in Hr, Hs.
    destruct (decide (r ∈ active)), (decide (s ∈ active)); try done. simplify_eq. lia.
  - intros profile' Hsame Hreq Hp'.
    destruct (normalize_ok active profile' Hp' Hne) as (eff' & -> & Hat' & Hmin' & Hlk').
    { intros r. rewrite Hsame. apply Href. }
    assert (Hsub : forall r, r ∈ active ->
              requested_delay_ns profile' r = requested_delay_ns profile r).
    { intros r Hr. unfold requested_delay_ns. by rewrite Hreq. }
    assert (Hmm : minimum_requested_ns eff' = minimum_requested_ns eff).
    { destruct Hat as (r0 & Hin & Hr0), Hat' as (r1 & Hin' & Hr1).
      specialize (Hmin r1 Hin'). specialize (Hmin' r0 Hin). rewrite Hsub in * by done. lia. }
    f_equal. destruct eff as [m ds], eff' as [m' ds']. cbn in *. subst m'. f_equal.
    apply map_eq. intros r. rewrite Hlk, Hlk'.
    destruct (decide (r ∈ active)); [|done]. by rewrite Hsub.
Qed.

Lemma calibration_preserves_differences_witness :
  let r n := MkDeviceId 0 0 0 0 0 n in
  let profile := {| reference_receiver := Some (r 1);
                    requested_relative_delay_ns :=
                      {[ r 1 := 300; r 2 := -700; r 3 := - 2 ^ 63 ]} |} in
  profile_ok profile /\
  exists eff, normalize_calibration {[ r 1; r 2 ]} profile = Ok eff /\
    (forall a b da db, effective_delay_ns eff !! a = Some da ->
                       effective_delay_ns eff !! b = Some db ->
                       da - db = requested_delay_ns profile a - requested_delay_ns profile b).
Proof.
  intros r profile.
  assert (Hp : profile_ok profile).
  { apply map_Forall_to_list. repeat constructor; cbn; lia. }
  split; [exact Hp|].
  pose proof (calibration_preserves_differences {[ r 1; r 2 ]} profile Hp) as H.
  destruct (normalize_calibration {[ r 1; r 2 ]} profile) as [eff|e] eqn:E.
  - exists eff. split; [reflexivity|]. apply H.
  - vm_compute in E. discriminate.
Defined.

(** The crossing into the client's identity space loses and invents nothing. *)
Lemma effective_delays_by_device_exact eff :
  effective_delays_by_device eff = effective_delay_ns eff.
Proof.
  unfold effective_delays_by_device.
  rewrite (list_fmap_ext _ id); [|by intros ? [? ?] _].
  rewrite list_fmap_id. apply list_to_map_to_list.
Qed.

Lemma profile_state_roundtrip profile : profile_of_state (state_of_profile profile) = profile.
Proof. by destruct profile. Qed.

(** ** The click pattern *)

Lemma for_each_app {A S} (body : S -> A -> option S) xs ys s :
  for_each body (xs ++ ys) s = (s' ← for_each body xs s; for_each body ys s').
Proof.
  revert s. induction xs as [|x xs IH]; intros s; cbn; [done|].
  destruct (body s x); cbn; [apply IH|done].
Qed.

Lemma for_each_nested {A B S} (body : S -> B -> option S) (f : A -> list B) xs s :
  for_each (fun s x => for_each body (f x) s) xs s = for_each body (concat (f <$> xs)) s.
Proof.
  revert s. induction xs as [|x xs IH]; intros s; cbn; [done|].
  rewrite for_each_app. destruct (for_each body (f x) s); cbn; [apply IH|done].
Qed.

Lemma frame_of_slot ch frame i :
  (0 < ch)%nat -> (frame * ch <= i < frame * ch + ch <-> i / ch = frame)%nat.
Proof.
  intros Hch. pose proof (Nat.div_mod_eq i ch). pose proof (Nat.mod_upper_bound i ch).
  split; [|nia]. intros H1. symmetry. apply (Nat.div_unique i ch frame (i - frame * ch)); nia.
Qed.

Lemma fill_frame_spec ch total frame samples :
  (0 < ch)%nat -> (frame < total)%nat -> length samples = (total * ch)%nat ->
  exists samples', fill_frame ch samples frame = Some samples' /\
    length samples' = (total * ch)%nat /\
    forall i, (i < total * ch)%nat ->
      samples' !! i = if (i / ch =? frame)%nat then Some CALIBRATION_CLICK_AMPLITUDE
                      else samples !! i.
Proof.
  intros Hch Hf Hl. unfold fill_frame. set (base := (frame * ch)%nat).
  assert (Hb : (base + ch <= total * ch)%nat) by (subst base; nia).
  rewrite (proj2 (Nat.leb_le _ _)) by lia. eexists. split; [done|]. split.
  { rewrite !length_app, length_take, length_drop, length_replicate. lia. }
  intros i Hi. pose proof (frame_of_slot ch frame i Hch) as Hiff. fold base in Hiff.
  destruct (Nat.eqb_spec (i / ch)%nat frame) as [He|He].
  - apply Hiff in He. rewrite lookup_app_r, length_take by (rewrite length_take; lia).
    rewrite lookup_app_l by (rewrite length_replicate; lia).
    apply lookup_replicate_2. lia.
  - destruct (decide (i < base)%nat).
    + rewrite lookup_app_l by (rewrite length_take; lia). apply lookup_take_lt. lia.
    + rewrite lookup_app_r, length_take by (rewrite length_take; lia).
      rewrite lookup_app_r, length_replicate by (rewrite length_replicate; lia).
      rewrite lookup_drop. f_equal. lia.
Qed.

Lemma fill_frames_spec ch total frames samples :
  (0 < ch)%nat -> Forall (fun f => f < total)%nat frames -> length samples = (total * ch)%nat ->
  exists samples', for_each (fill_frame ch) frames samples = Some samples' /\
    length samples' = (total * ch)%nat /\
    forall i, (i < total * ch)%nat ->
      samples' !! i = if decide ((i / ch)%nat ∈ frames) then Some CALIBRATION_CLICK_AMPLITUDE
                      else samples !! i.
Proof.
  intros Hch Hf. revert samples. induction Hf as [|f fs Hlt _ IH]; intros samples Hl.
  - exists samples. split; [done|]. split; [done|]. intros i _. by rewrite decide_False by set_solver.
  - destruct (fill_frame_spec ch total f samples Hch Hlt Hl) as (s1 & E1 & Hl1 & H1).
    destruct (IH s1 Hl1) as (s2 & E2 & Hl2 & H2).
    exists s2. cbn. rewrite E1. cbn. split; [done|]. split; [done|]. intros i Hi.
    rewrite H2, H1 by done.
    destruct (decide ((i / ch)%nat ∈ fs)); [by rewrite decide_True by set_solver|].
    destruct (Nat.eqb_spec (i / ch)%nat f); [by rewrite decide_True by set_solver|].
    by rewrite decide_False by set_solver.
Qed.

Lemma click_frames_member sp w clicks f :
  f ∈ concat ((fun click => seq (click * sp) w) <$> seq 0 clicks) <->
  exists k, (k < clicks /\ k * sp <= f < k * sp + w)%nat.
Proof.
  rewrite list_elem_of_In, in_concat. split.
  - intros (l & Hl & Hf). apply list_elem_of_In, list_elem_of_fmap in Hl as (k & -> & Hk).
    apply elem_of_seq in Hk. apply in_seq in Hf. exists k. lia.
  - intros (k & Hk & Hf). exists (seq (k * sp) w). split; [|apply in_seq; lia].
    apply list_elem_of_In, list_elem_of_fmap. exists k. split; [done|]. apply elem_of_seq. lia.
Qed.

Lemma click_frame_periodic sp w f :
  (w <= sp)%nat -> (f < sp * 3 + w)%nat ->
  (exists k, (k < 4 /\ k * sp <= f < k * sp + w)%nat) <-> (f mod sp < w)%nat.
Proof.
  intros Hw Hf. destruct (decide (sp = 0)%nat) as [->|Hsp].
  { split; [intros (k & ? & ?)|]; lia. }
  pose proof (Nat.div_mod_eq f sp). pose proof (Nat.mod_upper_bound f sp Hsp). split.
  - intros (k & Hk & Hr). rewrite <- (Nat.mod_unique f sp k (f - k * sp)); lia.
  - intros Hm. exists (f / sp)%nat. split; [|lia].
    destruct (decide (f / sp < 4)%nat); [done|]. nia.
Qed.

(** The click pattern is built without an out-of-range index at every sample
    rate and channel count, has three spacings and one click of interleaved
    frames, and a sample is the click amplitude exactly when its frame lies in
    the first two milliseconds of a half-second period: every channel of a
    frame carries the same value. *)
Theorem click_pattern_exact (sample_rate channels : Z) :
  0 <= sample_rate ->
  let ch := Z.to_nat (Z.max channels 1) in
  let w := frames_for_ms sample_rate 2 in
  let sp := frames_for_ms sample_rate 500 in
  exists samples,
    calibration_click_pattern sample_rate channels = Some samples /\
    length samples = ((3 * sp + w) * ch)%nat /\
    forall i, (i < length samples)%nat ->
      samples !! i = Some (if (((i / ch) mod sp) <? w)%nat then 4096 else 0).
Proof.
  intros Hr ch w sp. unfold calibration_click_pattern.
  change (frames_for_ms sample_rate CALIBRATION_CLICK_WIDTH_MS) with w.
  change (frames_for_ms sample_rate CALIBRATION_CLICK_SPACING_MS) with sp.
  change (Z.to_nat CALIBRATION_CLICK_COUNT) with 4%nat. fold ch.
  assert (Hch : (0 < ch)%nat) by lia.
  assert (Hw : (w <= sp)%nat).
  { unfold w, sp, frames_for_ms. apply Z2Nat.inj_le; try apply Z.div_pos; try lia.
    apply Z.div_le_mono; lia. }
  rewrite for_each_nested. change (4 - 1)%nat with 3%nat.
  destruct (fill_frames_spec ch (sp * 3 + w)
              (concat ((fun click => seq (click * sp) w) <$> seq 0 4))
              (replicate ((sp * 3 + w) * ch) 0)) as (samples & -> & Hl & Hs);
    [done| |apply length_replicate|].
  { apply Forall_forall. intros f (k & Hk & Hf)%click_frames_member. nia. }
  exists samples. split; [done|]. split; [rewrite Hl; lia|]. intros i Hi. rewrite Hl in Hi.
  rewrite Hs by done. rewrite lookup_replicate_2 by done.
  assert (Hfr : (i / ch < sp * 3 + w)%nat) by (apply Nat.Div0.div_lt_upper_bound; lia).
  pose proof (click_frame_periodic sp w (i / ch) Hw Hfr) as Hp.
  rewrite <- click_frames_member in Hp.
  destruct (decide _) as [Hin|Hin]; destruct (Nat.ltb_spec ((i / ch) mod sp) w); try done;
    exfalso; rewrite Hp in Hin; lia.
Qed.

Lemma click_pattern_exact_witness :
  exists samples, calibration_click_pattern 2000 2 = Some samples /\
    length samples = ((3 * 1000 + 4) * 2)%nat.
Proof.
  destruct (click_pattern_exact 2000 2) as (samples & H & Hl & _); [lia|].
  exists samples. split; [exact H|]. rewrite Hl. reflexivity.
Defined.

End Calibration.
