(* ===== verification/Device.v ===== *)
(** * Receivers on the network

    [crates/airplay-core/src/device.rs]: the record discovery builds for a
    receiver, MAC addresses, source versions and the capability queries.  A
    [str] is the list of its Unicode scalar values; where the code slices by
    byte, its UTF-8 bytes are sliced, and cutting inside a character panics,
    which is [None] of an [option (Result _ _)]. *)

From Stdlib Require Import String.
From S2P Require Import Prelude AppState Model Features Wire Text.
Import Features.

Module Device.

Inductive ParseError :=
| InvalidFormat (message : text)
| MissingField (field : text)
| InvalidHex (part : text)
| InvalidValue (message : text).

Inductive IpAddr := V4 (octets : list Z) | V6 (segments : list Z).
#[export] Instance IpAddr_eq_dec : EqDecision IpAddr.
Proof. solve_decision. Defined.

Definition is_ipv4 (addr : IpAddr) : bool := match addr with V4 _ => true | V6 _ => false end.

(** [uuid::Uuid] is its number. *)
Notation Uuid := Z (only parsing).

Record Version := { major : Z; minor : Z; patch : Z }.
#[export] Instance Version_eq_dec : EqDecision Version.
Proof. solve_decision. Defined.

Definition default_version : Version := {| major := 0; minor := 0; patch := 0 |}.

(** The derived [Ord]: lexicographic in field order. *)
Definition version_leb (a b : Version) : bool :=
  if major a =? major b then
    if minor a =? minor b then patch a <=? patch b else minor a <? minor b
  else major a <? major b.

Record Device := {
  dev_id : DeviceId;
  dev_name : text;
  dev_model : text;
  dev_manufacturer : option text;
  dev_serial_number : option text;
  dev_addresses : list IpAddr;
  dev_port : Z;
  dev_features : Features;
  dev_required_sender_features : option Features;
  dev_public_key : option (list Z);
  dev_source_version : Version;
  dev_firmware_version : option text;
  dev_os_version : option text;
  dev_protocol_version : option text;
  dev_requires_password : bool;
  dev_status_flags : Z;
  dev_access_control : option Z;
  dev_pairing_identity : option text;
  dev_system_pairing_identity : option text;
  dev_bluetooth_address : option text;
  dev_homekit_home_id : option text;
  dev_group_id : option Uuid;
  dev_is_group_leader : bool;
  dev_group_public_name : option text;
  dev_group_contains_discoverable_leader : bool;
  dev_home_group_id : option text;
  dev_household_id : option text;
  dev_parent_group_id : option Uuid;
  dev_parent_group_contains_discoverable_leader : bool;
  dev_tight_sync_id : option Uuid;
  dev_raop_port : option Z;
  dev_raop_encryption_types : option (list Z);
  dev_raop_codecs : option (list Z);
  dev_raop_transport : option text;
  dev_raop_metadata_types : option (list Z);
  dev_raop_digest_auth : bool;
  dev_vodka_version : option text;
}.
#[export] Instance eta_Device : Eta Device := fun d =>
    {| dev_id := dev_id d; dev_name := dev_name d; dev_model := dev_model d; dev_manufacturer :=
     dev_manufacturer d; dev_serial_number := dev_serial_number d; dev_addresses :=
     dev_addresses d; dev_port := dev_port d; dev_features := dev_features d;
     dev_required_sender_features := dev_required_sender_features d; dev_public_key :=
     dev_public_key d; dev_source_version := dev_source_version d; dev_firmware_version :=
     dev_firmware_version d; dev_os_version := dev_os_version d; dev_protocol_version :=
     dev_protocol_version d; dev_requires_password := dev_requires_password d; dev_status_flags
     := dev_status_flags d; dev_access_control := dev_access_control d; dev_pairing_identity :=
     dev_pairing_identity d; dev_system_pairing_identity := dev_system_pairing_identity d;
     dev_bluetooth_address := dev_bluetooth_address d; dev_homekit_home_id :=
     dev_homekit_home_id d; dev_group_id := dev_group_id d; dev_is_group_leader :=
     dev_is_group_leader d; dev_group_public_name := dev_group_public_name d;
     dev_group_contains_discoverable_leader := dev_group_contains_discoverable_leader d;
     dev_home_group_id := dev_home_group_id d; dev_household_id := dev_household_id d;
     dev_parent_group_id := dev_parent_group_id d; dev_parent_group_contains_discoverable_leader
     := dev_parent_group_contains_discoverable_leader d; dev_tight_sync_id := dev_tight_sync_id
     d; dev_raop_port := dev_raop_port d; dev_raop_encryption_types := dev_raop_encryption_types
     d; dev_raop_codecs := dev_raop_codecs d; dev_raop_transport := dev_raop_transport d;
     dev_raop_metadata_types := dev_raop_metadata_types d; dev_raop_digest_auth :=
     dev_raop_digest_auth d; dev_vodka_version := dev_vodka_version d |}.

(** ** MAC addresses *)

(** [u8::from_str_radix(part, 16)]: an overflow anywhere makes the value too
    large, and both errors are mapped to one. *)
Definition u8_from_str_radix16 (part : text) : option Z :=
  v ← from_str_radix16 part; if v <? 256 then Some v else None.

(** [parts.map(|part| u8::from_str_radix(part, 16)).collect::<Result<_, _>>()] *)
Fixpoint hex_parts (parts : list text) : Result (list Z) ParseError :=
  match parts with
  | [] => Ok []
  | part :: parts' =>
      match u8_from_str_radix16 part with
      | None => Err (InvalidHex part)
      | Some b => let? bs := hex_parts parts' in Ok (b :: bs)
      end
  end.

(** The pairs [&s[2 * i..2 * i + 2]] of a byte string, read in order up to the
    first error; a pair that ends inside a character panics. *)
Fixpoint hex_pairs (bs : list Z) : option (Result (list Z) ParseError) :=
  match bs with
  | b0 :: b1 :: rest =>
      if match rest with b :: _ => is_cont b | [] => false end then None
      else
        let part := from_utf8_lossy [b0; b1] in
        match u8_from_str_radix16 part with
        | None => Some (Err (InvalidHex part))
        | Some b =>
            r ← hex_pairs rest;
            Some (let? bs := r in Ok (b :: bs))
        end
  | _ => Some (Ok [])
  end.

Definition contains (c : Z) (s : text) : bool := existsb (Z.eqb c) s.

(** [format!(.., n)] of a length. *)
Definition msg_len (before : string) (n : nat) : text := lit before ++ decimal (Z.of_nat n).

Definition six_bytes (bytes : list Z) : Result DeviceId ParseError :=
  match bytes with
  | [b0; b1; b2; b3; b4; b5] => Ok (MkDeviceId b0 b1 b2 b3 b4 b5)
  | _ => Err (InvalidFormat (msg_len "MAC address must have 6 bytes, got " (length bytes)))
  end.

Definition from_mac_string (s : text) : option (Result DeviceId ParseError) :=
  let s := Text.trim s in
  bytes ←
    (if contains 58 s then Some (hex_parts (split 58 s))
     else if contains 45 s then Some (hex_parts (split 45 s))
     else
       let bs := utf8_encode s in
       if (length bs =? 12)%nat then hex_pairs bs
       else Some (Err (InvalidFormat
              (msg_len "MAC address must be 12 hex characters, got " (length bs)))));
  Some (let? bytes := bytes in six_bytes bytes).

(** [{:02X}] joined by [:] *)
Definition to_mac_string (d : DeviceId) : text :=
  match d with
  | MkDeviceId b0 b1 b2 b3 b4 b5 =>
      Model.upper_hex b0 ++ 58 :: Model.upper_hex b1 ++ 58 :: Model.upper_hex b2 ++
      58 :: Model.upper_hex b3 ++ 58 :: Model.upper_hex b4 ++ 58 :: Model.upper_hex b5
  end.

(** ** Versions *)

Definition parse_part (which : string) (part : text) : Result Z ParseError :=
  match parse_uint u32_max part with
  | Some v => Ok v
  | None => Err (InvalidValue (lit which ++ part))
  end.

(** [parts.get(i).map(parse).transpose()?.unwrap_or(0)] *)
Definition optional_part (which : string) (part : option text) : Result Z ParseError :=
  match part with Some p => parse_part which p | None => Ok 0 end.

Definition parse_version (s : text) : Result Version ParseError :=
  let s := Text.trim s in
  match s with
  | [] => Err (InvalidFormat (lit "empty version string"))
  | _ =>
      let parts := split 46 s in
      match head parts with
      | None => Err (InvalidFormat (lit "missing major version"))
      | Some first =>
          let? major := parse_part "invalid major version: " first in
          let? minor := optional_part "invalid minor version: " (parts !! 1%nat) in
          let? patch := optional_part "invalid patch version: " (parts !! 2%nat) in
          Ok {| major := major; minor := minor; patch := patch |}
      end
  end.

(** ** Capabilities *)

Definition MIN_AIRPLAY2_VERSION : Version := {| major := 354; minor := 54; patch := 6 |}.
Definition MIN_PTP_VERSION : Version := {| major := 366; minor := 0; patch := 0 |}.

Definition supports_airplay2 (self : Device) : bool :=
  supports_buffered_audio (dev_features self)
  && version_leb MIN_AIRPLAY2_VERSION (dev_source_version self).

Definition supports_ptp (self : Device) : bool :=
  Features.supports_ptp (dev_features self)
  && version_leb MIN_PTP_VERSION (dev_source_version self).

Definition socket_addr (self : Device) : option (IpAddr * Z) :=
  match List.find is_ipv4 (dev_addresses self) with
  | Some addr => Some (addr, dev_port self)
  | None => (fun addr => (addr, dev_port self)) <$> head (dev_addresses self)
  end.

Definition auth_method (self : Device) : AuthMethod := Features.auth_method (dev_features self).

Definition supports_raop (self : Device) : bool :=
  negb (is_none (dev_raop_port self)) || negb (supports_airplay2 self).

Definition raop_connection_port (self : Device) : Z :=
  default (dev_port self) (dev_raop_port self).

Definition supports_rsa_encryption (self : Device) : bool :=
  match dev_raop_encryption_types self with
  | Some et => existsb (Z.eqb 1) et
  | None => false
  end.

(** ** MAC addresses read back *)

(** Checked on all 256 bytes: the printed pair is two ASCII characters that
    are no separator and no space, and reads back as the byte. *)
Lemma printed_pair_exhaustive :
  forallb (fun b => bool_decide (u8_from_str_radix16 (Model.upper_hex b) = Some b)
                    && forallb (fun c => in_range 48 90 c && negb (c =? 58)) (Model.upper_hex b))
    (seqZ 0 256) = true.
Proof. vm_compute. reflexivity. Qed.

Definition pair_char (c : Z) : Prop := 48 <= c <= 90 /\ c <> 58.

Lemma printed_pair b :
  is_byte b -> u8_from_str_radix16 (Model.upper_hex b) = Some b /\
               Forall pair_char (Model.upper_hex b).
Proof.
  intros Hb. pose proof (proj1 (forallb_elem _ _) printed_pair_exhaustive b) as H.
  unfold is_byte, in_width in Hb. specialize (H ltac:(apply elem_of_seqZ; lia)).
  cbn beta in H. apply andb_true_iff in H as [H1%bool_decide_eq_true H2]. split; [done|].
  apply Forall_forall. intros c Hc.
  pose proof (proj1 (forallb_elem _ _) H2 c Hc) as H. cbn beta in H.
  unfold in_range, pair_char in *. lia.
Qed.

Definition no_space (s : text) : Prop := Forall (fun c => Text.is_whitespace c = false) s.

Lemma trim_start_no_space s : no_space s -> Text.trim_start s = s.
Proof. destruct 1 as [|c s Hc _]; cbn; [done|]. by rewrite Hc. Qed.

Lemma trim_no_space s : no_space s -> Text.trim s = s.
Proof.
  intros H. unfold Text.trim. rewrite (trim_start_no_space s H), trim_start_no_space.
  - apply rev_involutive.
  - by apply Forall_rev.
Qed.

Lemma contains_spec c s : contains c s = true <-> c ∈ s.
Proof.
  unfold contains. rewrite existsb_exists. setoid_rewrite <- list_elem_of_In. split.
  - intros (x & Hx & ->%Z.eqb_eq). done.
  - intros H. exists c. by rewrite Z.eqb_refl.
Qed.

(** Pieces with a separator between them, and [split] as the inverse. *)
Fixpoint join (sep : text) (parts : list text) : text :=
  match parts with
  | [] => []
  | [p] => p
  | p :: parts' => p ++ sep ++ join sep parts'
  end.

Lemma join_Forall (P : Z -> Prop) sep parts :
  Forall P sep -> Forall (Forall P) parts -> Forall P (join sep parts).
Proof.
  intros Hs. induction 1 as [|p [|q qs] Hp _ IH]; [constructor|done|].
  cbn [join] in *. by repeat apply Forall_app_2.
Qed.

Lemma split_join c parts :
  parts <> [] -> Forall (fun p => c ∉ p) parts -> split c (join [c] parts) = parts.
Proof.
  intros Hne. induction 1 as [|p [|q qs] Hp _ IH]; [done|by apply split_none|].
  cbn [join app] in *. rewrite split_here, IH; done.
Qed.

Lemma contains_join c p q qs : contains c (join [c] (p :: q :: qs)) = true.
Proof. apply contains_spec. cbn [join app]. set_solver. Qed.

Lemma not_contains c s : Forall (fun x => x <> c) s -> contains c s = false.
Proof.
  intros H. apply not_true_iff_false. rewrite contains_spec. rewrite Forall_forall in H.
  intros Hin. by apply (H c Hin).
Qed.

Lemma pair_not c l : Forall pair_char l -> c = 58 \/ c = 45 -> c ∉ l.
Proof. intros H Hc Hin. rewrite Forall_forall in H. destruct (H c Hin) as [? ?]. lia. Qed.

(** The printed pairs of an identity. *)
Definition mac_pairs (d : DeviceId) : list text := Model.upper_hex <$> device_bytes d.

Lemma mac_pairs_chars d : Model.device_ok d -> Forall (Forall pair_char) (mac_pairs d).
Proof.
  intros H. unfold mac_pairs. apply Forall_fmap. eapply Forall_impl; [exact H|].
  intros b Hb. by apply printed_pair.
Qed.

Lemma hex_parts_pairs bs : bytes_ok bs -> hex_parts (Model.upper_hex <$> bs) = Ok bs.
Proof.
  induction 1 as [|b bs Hb _ IH]; [done|]. cbn [fmap list_fmap hex_parts].
  rewrite (proj1 (printed_pair b Hb)). cbn [fmap] in IH. by rewrite IH.
Qed.

Lemma mac_separated c d :
  Model.device_ok d -> c = 58 \/ c = 45 ->
  from_mac_string (join [c] (mac_pairs d)) = Some (Ok d).
Proof.
  intros Hd Hsep. pose proof (mac_pairs_chars d Hd) as Hc. unfold from_mac_string.
  rewrite trim_no_space.
  2:{ apply join_Forall; [by repeat constructor; destruct Hsep as [-> | ->]|].
      eapply Forall_impl; [exact Hc|]. intros p Hp. eapply Forall_impl; [exact Hp|].
      intros x [Hx _]. unfold Text.is_whitespace, in_range. lia. }
  assert (Hsplit : split c (join [c] (mac_pairs d)) = mac_pairs d).
  { apply split_join; [by destruct d|]. eapply Forall_impl; [exact Hc|].
    intros p Hp. by apply pair_not. }
  assert (Hin : contains c (join [c] (mac_pairs d)) = true) by (destruct d; apply contains_join).
  assert (Hparts : hex_parts (mac_pairs d) = Ok (device_bytes d)) by (by apply hex_parts_pairs).
  destruct Hsep as [-> | ->].
  - rewrite Hin, Hsplit, Hparts. by destruct d.
  - rewrite (not_contains 58), Hin, Hsplit, Hparts; [by destruct d|].
    apply join_Forall; [by repeat constructor|]. eapply Forall_impl; [exact Hc|].
    intros p Hp. eapply Forall_impl; [exact Hp|]. by intros x [_ ?].
Qed.

Lemma hex_pairs_cons b bs :
  is_byte b -> match bs with x :: _ => is_cont x = false | [] => True end ->
  hex_pairs (Model.upper_hex b ++ bs) = (r ← hex_pairs bs; Some (let? l := r in Ok (b :: l))).
Proof.
  intros Hb Hrest. destruct (printed_pair b Hb) as [Hv Hc].
  unfold Model.upper_hex in *. set (h := Model.upper_digit (b / 16)) in *.
  set (l := Model.upper_digit (b mod 16)) in *. cbn [app hex_pairs].
  replace (match bs with x :: _ => is_cont x | [] => false end) with false by (by destruct bs).
  apply Forall_cons in Hc as [[Hh _] [[Hl _] _]%Forall_cons].
  replace (from_utf8_lossy [h; l]) with [h; l].
  - by rewrite Hv.
  - assert (Hs : Forall is_scalar [h; l]) by (repeat constructor; unfold is_scalar; lia).
    pose proof (from_utf8_lossy_encode [h; l] Hs) as H. cbn in H.
    unfold utf8_char in H. rewrite !(proj2 (Z.ltb_lt _ _)) in H by lia. done.
Qed.

Lemma hex_pairs_printed bs :
  bytes_ok bs -> hex_pairs (concat (Model.upper_hex <$> bs)) = Some (Ok bs).
Proof.
  induction 1 as [|b bs Hb Hbs IH]; [done|]. cbn [fmap list_fmap concat].
  rewrite hex_pairs_cons; [by rewrite IH|done|].
  destruct Hbs as [|b' bs Hb' _]; [done|]. cbn. destruct (printed_pair b' Hb') as [_ Hc].
  unfold Model.upper_hex in Hc. apply Forall_cons in Hc as [[Hh _] _].
  unfold is_cont, in_range. lia.
Qed.

Lemma utf8_ascii s : Forall (fun c => 0 <= c < 128) s -> utf8_encode s = s.
Proof.
  induction 1 as [|c s Hc _ IH]; [done|]. by rewrite utf8_encode_cons, utf8_char_ascii, IH by lia.
Qed.

Lemma mac_address_printed d :
  Model.device_ok d -> from_mac_string (to_mac_string d) = Some (Ok d).
Proof.
  intros Hd. replace (to_mac_string d) with (join [58] (mac_pairs d)) by (by destruct d).
  apply mac_separated; auto.
Qed.

(** An identity is read back from each of the three spellings the parser
    accepts: bytes in hexadecimal separated by colons (the form the program
    prints), by hyphens, or with nothing between them. *)
Theorem mac_address_roundtrip (d : DeviceId) :
  Model.device_ok d ->
  from_mac_string (to_mac_string d) = Some (Ok d) /\
  from_mac_string (join [45] (mac_pairs d)) = Some (Ok d) /\
  from_mac_string (concat (mac_pairs d)) = Some (Ok d).
Proof.
  intros Hd. split; [|split].
  - by apply mac_address_printed.
  - apply mac_separated; auto.
  - assert (Hc : Forall pair_char (concat (mac_pairs d))).
    { pose proof (mac_pairs_chars d Hd) as H. induction H; cbn; [constructor|].
      by apply Forall_app_2. }
    assert (Hp : forall P : Z -> Prop, (forall c, pair_char c -> P c) ->
                 Forall P (concat (mac_pairs d))) by (intros; by eapply Forall_impl).
    unfold from_mac_string. rewrite trim_no_space, !not_contains, utf8_ascii.
    + replace (length (concat (mac_pairs d)) =? 12)%nat with true by (by destruct d).
      unfold mac_pairs. rewrite hex_pairs_printed by done. by destruct d.
    + apply Hp. intros c [? _]. lia.
    + apply Hp. intros c [? _]. lia.
    + apply Hp. by intros c [_ ?].
    + apply Hp. intros c [? _]. unfold Text.is_whitespace, in_range. lia.
Qed.

Lemma mac_address_roundtrip_witness :
  let d := MkDeviceId 0x58 0x55 0xCA 0x1A 0xE2 0x88 in
  from_mac_string (to_mac_string d) = Some (Ok d) /\
  to_mac_string d = lit "58:55:CA:1A:E2:88".
Proof.
  intros d. split; [|reflexivity]. apply (mac_address_roundtrip d).
  apply (bool_decide_unpack _). vm_compute. exact I.
Defined.

(** A twelve-byte identity with a character across a pair boundary makes the
    slice panic: no error reaches the caller. *)
Lemma mac_string_can_panic :
  from_mac_string [97; 0xE9; 97; 0xE9; 97; 0xE9; 97; 0xE9] = None.
Proof. vm_compute. reflexivity. Qed.

(** ASCII input, which every well-formed record is, always gets an answer. *)
Lemma hex_pairs_ascii bs : Forall (fun c => 0 <= c < 128) bs -> hex_pairs bs <> None.
Proof.
  remember (length bs) as n eqn:Hn. assert (H : (length bs <= n)%nat) by lia. clear Hn.
  revert bs H. induction n as [n IH] using lt_wf_ind.
  intros [|b0 [|b1 rest]] Hn Ha; [done|done|]. cbn [hex_pairs].
  apply Forall_cons in Ha as [_ [_ Ha]%Forall_cons].
  replace (match rest with b :: _ => is_cont b | [] => false end) with false.
  2:{ destruct Ha as [|b rest Hb _]; [done|]. unfold is_cont, in_range. lia. }
  destruct (u8_from_str_radix16 _); [|done].
  destruct (hex_pairs rest) eqn:E; [done|]. exfalso.
  apply (IH (length rest)) with rest; [cbn in Hn; lia|lia|done|done].
Qed.

Lemma trim_start_Forall (P : Z -> Prop) s : Forall P s -> Forall P (Text.trim_start s).
Proof.
  induction 1 as [|c s Hc Hs IH]; cbn; [constructor|].
  destruct (Text.is_whitespace c); [done|by constructor].
Qed.

Lemma trim_Forall (P : Z -> Prop) s : Forall P s -> Forall P (Text.trim s).
Proof. intros H. unfold Text.trim. by apply Forall_rev, trim_start_Forall, Forall_rev, trim_start_Forall. Qed.

Lemma from_mac_string_ascii s :
  Forall (fun c => 0 <= c < 128) s -> from_mac_string s <> None.
Proof.
  intros H%trim_Forall. unfold from_mac_string. rewrite utf8_ascii by done.
  cbn zeta. destruct (contains 58 (Text.trim s)), (contains 45 (Text.trim s)); try done.
  destruct (length (Text.trim s) =? 12)%nat; [|done].
  pose proof (hex_pairs_ascii _ H). by destruct (hex_pairs (Text.trim s)).
Qed.

(** ** Versions and addresses *)

Lemma parse_version_printed v :
  0 <= major v <= u32_max -> 0 <= minor v <= u32_max -> 0 <= patch v <= u32_max ->
  parse_version (join [46] [decimal (major v); decimal (minor v); decimal (patch v)]) = Ok v.
Proof.
  intros H1 H2 H3. assert (Hd : forall n, 0 <= n <= u32_max -> Forall is_digit (decimal n) /\
    decimal n <> []).
  { intros n Hn. pose proof (decimal_spec n). naive_solver. }
  destruct (Hd _ H1) as [D1 N1], (Hd _ H2) as [D2 _], (Hd _ H3) as [D3 _].
  unfold parse_version. rewrite trim_no_space.
  - rewrite split_join; [|done|repeat constructor; by apply is_digit_not].
    destruct (join _ _) as [|x xs] eqn:E.
    { cbn [join] in E. by apply app_nil in E as [? _]. }
    assert (Hp : forall which n, 0 <= n <= u32_max -> parse_part which (decimal n) = Ok n).
    { intros which n Hn. unfold parse_part. by rewrite parse_decimal. }
    change (head _) with (Some (decimal (major v))).
    change (_ !! 1%nat) with (Some (decimal (minor v))).
    change (_ !! 2%nat) with (Some (decimal (patch v))).
    unfold optional_part. cbn iota. rewrite !Hp by done. by destruct v.
  - apply join_Forall; [by repeat constructor|].
    repeat constructor; (eapply Forall_impl; [eassumption|]);
      intros c Hc; unfold is_digit in Hc; unfold Text.is_whitespace, in_range; lia.
Qed.

(** The preferred address is an IPv4 one whenever there is one. *)
Lemma socket_addr_prefers_ipv4 d :
  match socket_addr d with
  | Some (addr, port) => addr ∈ dev_addresses d /\ port = dev_port d /\
      (is_ipv4 addr = true <-> exists a, a ∈ dev_addresses d /\ is_ipv4 a = true)
  | None => dev_addresses d = []
  end.
Proof.
  unfold socket_addr. destruct (List.find is_ipv4 (dev_addresses d)) as [a|] eqn:E.
  - apply find_some in E as [Hin%list_elem_of_In H4]. naive_solver.
  - pose proof (find_none _ _ E) as Hno. destruct (dev_addresses d) as [|a l]; [done|]. cbn.
    split; [set_solver|]. split; [done|]. split; [intros H; exists a; set_solver|].
    intros (b & Hb%list_elem_of_In & H4). by rewrite (Hno b Hb) in H4.
Qed.

(** A receiver with nothing but an identity, a name and an address, for
    evaluating the definitions. *)
Definition example_device (d : DeviceId) (name : text) : Device :=
  {| dev_id := d; dev_name := name; dev_model := []; dev_manufacturer := None;
     dev_serial_number := None; dev_addresses := [V4 [10; 0; 0; 7]]; dev_port := 7000;
     dev_features := 0; dev_required_sender_features := None; dev_public_key := None;
     dev_source_version := default_version; dev_firmware_version := None;
     dev_os_version := None; dev_protocol_version := None; dev_requires_password := false;
     dev_status_flags := 0; dev_access_control := None; dev_pairing_identity := None;
     dev_system_pairing_identity := None; dev_bluetooth_address := None;
     dev_homekit_home_id := None; dev_group_id := None; dev_is_group_leader := false;
     dev_group_public_name := None; dev_group_contains_discoverable_leader := false;
     dev_home_group_id := None; dev_household_id := None; dev_parent_group_id := None;
     dev_parent_group_contains_discoverable_leader := false; dev_tight_sync_id := None;
     dev_raop_port := None; dev_raop_encryption_types := None; dev_raop_codecs := None;
     dev_raop_transport := None; dev_raop_metadata_types := None;
     dev_raop_digest_auth := false; dev_vodka_version := None |}.

End Device.
