(* ===== verification/TxtParser.v ===== *)
(** * TXT records

    [crates/airplay-discovery/src/parser.rs]: the records of the two services a
    receiver announces, read into a [Device], and the merge of both.  The map
    of a record is a [gmap] from keys to values.  [Uuid::parse_str] belongs to
    the uuid crate and is a parameter.  [None] of an [option (Result _ _)] is a
    panic; what is only logged is left out. *)

From Stdlib Require Import String.
From S2P Require Import Prelude AppState Model Features Wire Text Device.
Import Device.

Module TxtParser.

Notation Txt := (gmap text text).
Definition get (txt : Txt) (key : string) : option text := txt !! lit key.

(** A parse that cannot panic. *)
Definition total {T E} (parse : text -> Result T E) : text -> option (Result T E) :=
  fun s => Some (parse s).

Definition optional_field {T E} (raw : option text) (parse : text -> option (Result T E))
  : option (option T) :=
  match raw with
  | None => Some None
  | Some raw =>
      r ← parse raw;
      Some (match r with Ok value => Some value | Err _ => None end)
  end.

Definition parse_public_key (hex : text) : option (Result (list Z) ParseError) :=
  let hex := Text.trim hex in
  let bs := utf8_encode hex in
  if (length bs =? 64)%nat then hex_pairs bs
  else Some (Err (InvalidFormat
         (msg_len "public key must be 64 hex characters, got " (length bs)))).

Definition u64_max : Z := 2 ^ 64 - 1.
Definition has_0x (s : text) : bool := starts_with (lit "0x") s || starts_with (lit "0X") s.

Definition parse_hex_or_decimal (s : text) : Z :=
  let s := Text.trim s in
  if has_0x s then default 0 (Features.from_str_radix16 (drop 2 s))
  else default 0 (parse_uint u64_max s).

Definition is_ascii_digit (c : Z) : bool := in_range 48 57 c.

Definition parse_legacy_features (sf : text) : Result Features.Features ParseError :=
  let sf := Text.trim sf in
  let hex s := match Features.from_str_radix16 s with
               | Some v => Ok v
               | None => Err (InvalidHex sf)
               end in
  if has_0x sf then hex (drop 2 sf)
  else if forallb is_ascii_digit sf then
    match parse_uint u64_max sf with
    | Some v => Ok v
    | None => Err (InvalidValue (lit "invalid decimal: " ++ sf))
    end
  else hex sf.

(** [value == "true" || value == "1"] of an optional field. *)
Definition flag (raw : option text) : bool :=
  match raw with
  | Some v => bool_decide (v = lit "true") || bool_decide (v = lit "1")
  | None => false
  end.

(** [split(',').filter_map(|s| s.trim().parse::<u8>().ok()).collect()] *)
Definition u8_list (s : text) : list Z :=
  omap (fun p => parse_uint 255 (Text.trim p)) (split 44 s).

Section Parser.
Context (uuid_parse : text -> option Uuid).

Definition parse_group_uuid (value : text) : Result Uuid ParseError :=
  match uuid_parse value with
  | Some u => Ok u
  | None => Err (InvalidValue (lit "invalid UUID: " ++ value))
  end.

Definition parse_airplay_txt (name : text) (txt : Txt) (addresses : list IpAddr) (port : Z)
  : option (Result Device ParseError) :=
  match get txt "deviceid" with
  | None => Some (Err (MissingField (lit "deviceid")))
  | Some device_id_str =>
      id ← from_mac_string device_id_str;
      match id with
      | Err e => Some (Err e)
      | Ok id =>
          features ← optional_field (get txt "features") (total Features.from_txt_value);
          source_version ← optional_field (get txt "srcvers") (total parse_version);
          public_key ← optional_field (get txt "pk") parse_public_key;
          required_sender_features ←
            optional_field (get txt "rsf") (total Features.from_txt_value);
          group_id ← optional_field (get txt "gid") (total parse_group_uuid);
          parent_group_id ← optional_field (get txt "pgid") (total parse_group_uuid);
          tight_sync_id ← optional_field (get txt "tsid") (total parse_group_uuid);
          Some (Ok {|
            dev_id := id;
            dev_name := name;
            dev_model := default [] (get txt "model");
            dev_manufacturer := get txt "manufacturer";
            dev_serial_number := get txt "serialNumber";
            dev_addresses := addresses;
            dev_port := port;
            dev_features := default 0 features;
            dev_required_sender_features := required_sender_features;
            dev_public_key := public_key;
            dev_source_version := default default_version source_version;
            dev_firmware_version := get txt "fv";
            dev_os_version := get txt "osvers";
            dev_protocol_version := get txt "protovers";
            dev_requires_password := flag (get txt "pw");
            dev_status_flags :=
              match get txt "flags" with
              | Some f => parse_hex_or_decimal f
              | None => match get txt "sf" with Some f => parse_hex_or_decimal f | None => 0 end
              end;
            dev_access_control := v ← get txt "acl"; parse_uint 255 v;
            dev_pairing_identity := get txt "pi";
            dev_system_pairing_identity := get txt "psi";
            dev_bluetooth_address := get txt "btaddr";
            dev_homekit_home_id := get txt "hkid";
            dev_group_id := group_id;
            dev_is_group_leader := flag (get txt "igl");
            dev_group_public_name := get txt "gpn";
            dev_group_contains_discoverable_leader := flag (get txt "gcgl");
            dev_home_group_id := get txt "hgid";
            dev_household_id := get txt "hmid";
            dev_parent_group_id := parent_group_id;
            dev_parent_group_contains_discoverable_leader := flag (get txt "pgcgl");
            dev_tight_sync_id := tight_sync_id;
            dev_raop_port := None;
            dev_raop_encryption_types := None;
            dev_raop_codecs := None;
            dev_raop_transport := None;
            dev_raop_metadata_types := None;
            dev_raop_digest_auth := false;
            dev_vodka_version := None |})
      end
  end.

Definition parse_raop_txt (name : text) (txt : Txt) (addresses : list IpAddr) (port : Z)
  : option (Result Device ParseError) :=
  match split_once 64 name with
  | None => Some (Err (InvalidFormat (lit "RAOP name must contain '@'")))
  | Some (mac_hex, device_name) =>
      id ← from_mac_string mac_hex;
      match id with
      | Err e => Some (Err e)
      | Ok id =>
          features ←
            (if is_none (get txt "ft")
             then optional_field (get txt "sf") (total parse_legacy_features)
             else optional_field (get txt "ft") (total Features.from_txt_value));
          source_version ←
            (if is_none (get txt "vs") then optional_field (get txt "vn") (total parse_version)
             else optional_field (get txt "vs") (total parse_version));
          public_key ← optional_field (get txt "pk") parse_public_key;
          Some (Ok {|
            dev_id := id;
            dev_name := device_name;
            dev_model := default [] (match get txt "am" with
                                     | Some m => Some m | None => get txt "model" end);
            dev_manufacturer := None;
            dev_serial_number := None;
            dev_addresses := addresses;
            dev_port := port;
            dev_features := default 0 features;
            dev_required_sender_features := None;
            dev_public_key := public_key;
            dev_source_version := default default_version source_version;
            dev_firmware_version := get txt "fv";
            dev_os_version := get txt "ov";
            dev_protocol_version := None;
            dev_requires_password := flag (get txt "pw");
            dev_status_flags :=
              match get txt "sf" with Some f => parse_hex_or_decimal f | None => 0 end;
            dev_access_control := None;
            dev_pairing_identity := None;
            dev_system_pairing_identity := None;
            dev_bluetooth_address := None;
            dev_homekit_home_id := None;
            dev_group_id := None;
            dev_is_group_leader := false;
            dev_group_public_name := None;
            dev_group_contains_discoverable_leader := false;
            dev_home_group_id := None;
            dev_household_id := None;
            dev_parent_group_id := None;
            dev_parent_group_contains_discoverable_leader := false;
            dev_tight_sync_id := None;
            dev_raop_port := Some port;
            dev_raop_encryption_types := u8_list <$> get txt "et";
            dev_raop_codecs := u8_list <$> get txt "cn";
            dev_raop_transport := get txt "tp";
            dev_raop_metadata_types := u8_list <$> get txt "md";
            dev_raop_digest_auth := flag (get txt "da");
            dev_vodka_version := get txt "vv" |})
      end
  end.
End Parser.

(** [option.or(other)] *)
Definition or_else {A} (a b : option A) : option A := match a with Some _ => a | None => b end.

(** The loop over the second record's addresses: push what is not contained. *)
Definition merge_addresses (airplay raop : list IpAddr) : list IpAddr :=
  fold_left (fun acc addr => if bool_decide (addr ∈ acc) then acc else acc ++ [addr]) raop airplay.

Definition merge_device_info (airplay raop : Device) : Device :=
  {| dev_id := dev_id airplay;
     dev_name := dev_name airplay;
     dev_model := match dev_model airplay with [] => dev_model raop | m => m end;
     dev_manufacturer := dev_manufacturer airplay;
     dev_serial_number := dev_serial_number airplay;
     dev_addresses := merge_addresses (dev_addresses airplay) (dev_addresses raop);
     dev_port := dev_port airplay;
     dev_features := if dev_features airplay =? 0 then dev_features raop else dev_features airplay;
     dev_required_sender_features := dev_required_sender_features airplay;
     dev_public_key := or_else (dev_public_key airplay) (dev_public_key raop);
     dev_source_version :=
       if bool_decide (dev_source_version airplay = default_version)
       then dev_source_version raop else dev_source_version airplay;
     dev_firmware_version := or_else (dev_firmware_version airplay) (dev_firmware_version raop);
     dev_os_version := or_else (dev_os_version airplay) (dev_os_version raop);
     dev_protocol_version := dev_protocol_version airplay;
     dev_requires_password := dev_requires_password airplay || dev_requires_password raop;
     dev_status_flags :=
       if dev_status_flags airplay =? 0 then dev_status_flags raop else dev_status_flags airplay;
     dev_access_control := dev_access_control airplay;
     dev_pairing_identity := dev_pairing_identity airplay;
     dev_system_pairing_identity := dev_system_pairing_identity airplay;
     dev_bluetooth_address := dev_bluetooth_address airplay;
     dev_homekit_home_id := dev_homekit_home_id airplay;
     dev_group_id := dev_group_id airplay;
     dev_is_group_leader := dev_is_group_leader airplay;
     dev_group_public_name := dev_group_public_name airplay;
     dev_group_contains_discoverable_leader := dev_group_contains_discoverable_leader airplay;
     dev_home_group_id := dev_home_group_id airplay;
     dev_household_id := dev_household_id airplay;
     dev_parent_group_id := dev_parent_group_id airplay;
     dev_parent_group_contains_discoverable_leader :=
       dev_parent_group_contains_discoverable_leader airplay;
     dev_tight_sync_id := dev_tight_sync_id airplay;
     dev_raop_port := dev_raop_port raop;
     dev_raop_encryption_types := dev_raop_encryption_types raop;
     dev_raop_codecs := dev_raop_codecs raop;
     dev_raop_transport := dev_raop_transport raop;
     dev_raop_metadata_types := dev_raop_metadata_types raop;
     dev_raop_digest_auth := dev_raop_digest_auth raop;
     dev_vodka_version := dev_vodka_version raop |}.

(** ** Only identity rejects a record *)

Definition ascii (s : text) : Prop := Forall (fun c => 0 <= c < 128) s.
Definition txt_ascii (txt : Txt) : Prop := map_Forall (fun _ => ascii) txt.

Lemma optional_total {T E} raw (parse : text -> Result T E) :
  optional_field raw (total parse)
  = Some (match raw with
          | Some s => match parse s with Ok v => Some v | Err _ => None end
          | None => None
          end).
Proof. by destruct raw. Qed.

Lemma split_once_Forall (P : Z -> Prop) sep s a b :
  split_once sep s = Some (a, b) -> Forall P s -> Forall P a.
Proof.
  revert a b. induction s as [|c s IH]; intros a b; cbn; [done|].
  destruct (c =? sep); [by intros [= <- <-]|].
  destruct (split_once sep s) as [[a' b']|]; [|done]. intros [= <- <-] [Hc Hs]%Forall_cons.
  constructor; [done|]. by apply (IH a' b').
Qed.

Lemma parse_public_key_ascii s : ascii s -> parse_public_key s <> None.
Proof.
  intros H%trim_Forall. unfold parse_public_key. rewrite utf8_ascii by done. cbn zeta.
  destruct (_ =? 64)%nat; [|done]. by apply hex_pairs_ascii.
Qed.

Lemma optional_pk txt :
  txt_ascii txt -> exists v, optional_field (get txt "pk") parse_public_key = Some v.
Proof.
  intros H. unfold optional_field. destruct (get txt "pk") as [s|] eqn:E; [|eauto].
  pose proof (parse_public_key_ascii s (H _ _ E)). destruct (parse_public_key s); [|done]. cbn. eauto.
Qed.

(** C38: A record is rejected only for its identity.  When every value of the
    record is ASCII, whatever the service is called, reading an AirPlay record
    never panics and succeeds exactly when its [deviceid] is a MAC address;
    reading a RAOP record succeeds exactly when its name starts with a MAC
    address before an [@], and panics only when reading the part before the [@]
    as a MAC address does, which then is not ASCII.  The error is the one of
    the identity, the receiver carries the identity, name, addresses and port
    it was announced with, and no other field, readable or not, can lose a
    receiver. *)
Theorem only_identity_rejects_a_record (uuid_parse : text -> option Uuid)
    (name : text) (txt : Txt) (addresses : list IpAddr) (port : Z) :
  txt_ascii txt ->
  match parse_airplay_txt uuid_parse name txt addresses port with
  | Some (Ok d) =>
      exists s, get txt "deviceid" = Some s /\ from_mac_string s = Some (Ok (dev_id d)) /\
        dev_name d = name /\ dev_addresses d = addresses /\ dev_port d = port
  | Some (Err e) =>
      (get txt "deviceid" = None /\ e = MissingField (lit "deviceid")) \/
      (exists s, get txt "deviceid" = Some s /\ from_mac_string s = Some (Err e))
  | None => False
  end /\
  match parse_raop_txt name txt addresses port with
  | Some (Ok d) =>
      exists mac rest, split_once 64 name = Some (mac, rest) /\
        from_mac_string mac = Some (Ok (dev_id d)) /\
        dev_name d = rest /\ dev_addresses d = addresses /\ dev_raop_port d = Some port
  | Some (Err e) =>
      (split_once 64 name = None /\ e = InvalidFormat (lit "RAOP name must contain '@'")) \/
      (exists mac rest, split_once 64 name = Some (mac, rest) /\
         from_mac_string mac = Some (Err e))
  | None =>
      exists mac rest, split_once 64 name = Some (mac, rest) /\
        from_mac_string mac = None /\ ~ ascii mac
  end.
Proof.
  intros Htxt. destruct (optional_pk txt Htxt) as [pk Hpk]. split.
  - unfold parse_airplay_txt. destruct (get txt "deviceid") as [s|] eqn:Es; [|auto].
    pose proof (from_mac_string_ascii s (Htxt _ _ Es)) as Hmac.
    destruct (from_mac_string s) as [[id|e]|] eqn:Em; [|cbn; eauto|done].
    rewrite Hpk, !optional_total. cbn [mbind option_bind]. eauto 10.
  - unfold parse_raop_txt. destruct (split_once 64 name) as [[mac rest]|] eqn:Es; [|auto].
    pose proof (from_mac_string_ascii mac) as Hmac.
    destruct (from_mac_string mac) as [[id|e]|] eqn:Em; [|cbn; eauto|].
    2:{ cbn. exists mac, rest. split; [done|]. split; [done|]. intros Ha. by apply Hmac. }
    rewrite Hpk, !optional_total. cbn [mbind option_bind].
    destruct (is_none (get txt "ft")), (is_none (get txt "vs")); cbn [mbind option_bind]; eauto 10.
Qed.

Definition kueche : text := lit "K" ++ [0xFC] ++ lit "che".

Lemma only_identity_rejects_a_record_witness :
  let txt : Txt := {[ lit "deviceid" := lit "58:55:CA:1A:E2:88"; lit "pk" := lit "no key";
                      lit "gid" := lit "a+b"; lit "features" := lit "??" ]} in
  exists d, parse_airplay_txt (fun _ => None) kueche txt [V4 [10; 0; 0; 7]] 7000
            = Some (Ok d) /\ dev_addresses d = [V4 [10; 0; 0; 7]].
Proof.
  intros txt.
  destruct (only_identity_rejects_a_record (fun _ => None) kueche txt
              [V4 [10; 0; 0; 7]] 7000) as [H _].
  - apply map_Forall_to_list. apply (bool_decide_unpack _). vm_compute. exact I.
  - destruct (parse_airplay_txt _ _ txt _ _) as [[d|e]|] eqn:E.
    + exists d. split; [reflexivity|]. destruct H as (s & _ & _ & _ & Ha & _). exact Ha.
    + vm_compute in E. discriminate.
    + contradiction.
Defined.

(** A RAOP name of twelve bytes before the [@], none of them a separator, with
    a character across a pair boundary: reading it panics. *)
Lemma raop_name_can_panic :
  parse_raop_txt (lit "0" ++ [0xE9] ++ lit "23456789A@Kitchen") ∅ [] 5000 = None.
Proof. vm_compute. reflexivity. Qed.

(** A public key of sixty-four bytes with a character across a pair boundary
    panics instead of degrading to an unknown key. *)
Lemma public_key_can_panic :
  parse_public_key (97 :: replicate 31 0xE9 ++ [97]) = None.
Proof. vm_compute. reflexivity. Qed.

(** What a receiver advertises about itself is what the sender believes. *)
Theorem advertised_capabilities_are_read (uuid_parse : text -> option Uuid)
    (id : DeviceId) (f : Z) (v : Version) (name : text) (txt : Txt)
    (addresses : list IpAddr) (port : Z) :
  Model.device_ok id -> in_width 64 f -> txt_ascii txt ->
  0 <= major v <= u32_max -> 0 <= minor v <= u32_max -> 0 <= patch v <= u32_max ->
  get txt "deviceid" = Some (to_mac_string id) ->
  get txt "features" = Some (Features.to_txt_value f) ->
  get txt "srcvers" = Some (join [46] [decimal (major v); decimal (minor v); decimal (patch v)]) ->
  exists d, parse_airplay_txt uuid_parse name txt addresses port = Some (Ok d) /\
    dev_id d = id /\ dev_features d = f /\ dev_source_version d = v /\
    supports_airplay2 d = Features.supports_buffered_audio f
                          && version_leb MIN_AIRPLAY2_VERSION v /\
    supports_ptp d = Features.supports_ptp f && version_leb MIN_PTP_VERSION v.
Proof.
  intros Hid Hf Htxt H1 H2 H3 Ei Ef Ev. destruct (optional_pk txt Htxt) as [pk Hpk].
  unfold parse_airplay_txt. rewrite Ei, Hpk, !optional_total, Ef, Ev.
  rewrite (mac_address_printed id Hid), (Features.features_txt_roundtrip f Hf),
    (parse_version_printed v H1 H2 H3).
  cbn [mbind option_bind]. eexists. split; [reflexivity|]. auto.
Qed.

(** ** Merging *)

Lemma merge_addresses_spec a b :
  (NoDup a -> NoDup (merge_addresses a b)) /\
  (forall x, x ∈ merge_addresses a b <-> x ∈ a \/ x ∈ b) /\
  (exists rest, merge_addresses a b = a ++ rest).
Proof.
  unfold merge_addresses. revert a. induction b as [|y b IH]; intros a; cbn.
  { split; [done|]. split; [set_solver|]. exists []. by rewrite app_nil_r. }
  case_bool_decide as Hy.
  - destruct (IH a) as (Hn & Hx & Hr). split; [done|]. split; [set_solver|done].
  - destruct (IH (a ++ [y])) as (Hn & Hx & (rest & Hr)). split; [|split].
    + intros Ha. apply Hn, NoDup_app. split; [done|]. split; [set_solver|apply NoDup_singleton].
    + intros x. rewrite Hx. set_solver.
    + exists (y :: rest). by rewrite Hr, <- app_assoc.
Qed.

Lemma find_app_l {A} (f : A -> bool) l l' :
  List.find f (l ++ l') = match List.find f l with Some x => Some x | None => List.find f l' end.
Proof. induction l as [|x l IH]; cbn; [done|]. by destruct (f x). Qed.

(** Merging the two records of a receiver keeps the AirPlay identity, name
    and port, unites the addresses without duplicates, and never takes a
    capability away: what the AirPlay record supports the merged record
    supports, and a receiver reachable over IPv4 by either record is reachable
    over IPv4 by the merged one, at the AirPlay record's own address when it has
    one. *)
Theorem merge_keeps_capabilities (airplay raop : Device) :
  let m := merge_device_info airplay raop in
  dev_id m = dev_id airplay /\ dev_name m = dev_name airplay /\ dev_port m = dev_port airplay /\
  (forall a, a ∈ dev_addresses m <-> a ∈ dev_addresses airplay \/ a ∈ dev_addresses raop) /\
  (NoDup (dev_addresses airplay) -> NoDup (dev_addresses m)) /\
  (supports_airplay2 airplay = true -> supports_airplay2 m = true) /\
  (supports_ptp airplay = true -> supports_ptp m = true) /\
  (forall a, is_ipv4 a = true -> a ∈ dev_addresses airplay \/ a ∈ dev_addresses raop ->
     exists b, socket_addr m = Some (b, dev_port airplay) /\ is_ipv4 b = true) /\
  (forall b p, socket_addr airplay = Some (b, p) -> is_ipv4 b = true ->
     socket_addr m = Some (b, p)).
Proof.
  intros m. destruct (merge_addresses_spec (dev_addresses airplay) (dev_addresses raop))
    as (Hn & Hx & rest & Hr).
  assert (Hcap : forall flag lo, Z.land 0 flag = 0 -> version_leb lo default_version = false ->
    Features.has (dev_features airplay) flag && version_leb lo (dev_source_version airplay) = true ->
    Features.has (dev_features m) flag && version_leb lo (dev_source_version m) = true).
  { intros fl lo H0 Hlo [Hf Hv]%andb_true_iff. cbn.
    destruct (Z.eqb_spec (dev_features airplay) 0) as [E|_].
    { rewrite E in Hf. unfold Features.has in Hf. by rewrite H0 in Hf. }
    rewrite Hf. case_bool_decide as Ev; [by rewrite Ev, Hlo in Hv|done]. }
  do 3 (split; [reflexivity|]). split; [exact Hx|]. split; [exact Hn|].
  split; [by apply Hcap|]. split; [by apply Hcap|]. split.
  - intros a H4 Hin. pose proof (socket_addr_prefers_ipv4 m) as Hs.
    destruct (socket_addr m) as [[b p]|].
    + destruct Hs as (_ & -> & Hiff). exists b. split; [done|]. apply Hiff. exists a.
      split; [by apply Hx|done].
    + apply Hx in Hin. cbn in Hs. rewrite Hs in Hin. by apply elem_of_nil in Hin.
  - intros b p. unfold socket_addr. cbn. rewrite Hr, find_app_l.
    destruct (List.find is_ipv4 (dev_addresses airplay)) as [x|] eqn:E; [done|].
    pose proof (find_none _ _ E) as Hno.
    destruct (dev_addresses airplay) as [|x l]; [done|]. cbn. intros [= <- <-] H4.
    by rewrite (Hno x (or_introl eq_refl)) in H4.
Qed.

End TxtParser.
