(* ===== verification/Browser.v ===== *)
(** * The service browser

    [crates/airplay-discovery/src/browser.rs] and [traits.rs]: the index that
    joins the two services a receiver announces, and the handling of one mDNS
    event.  What the mDNS daemon reports is the input; the [HashSet] of
    addresses it hands over is a list in the order it was iterated.  Each
    operation holds the index lock, so it is one step.  [None] of an outer
    [option] is a panic of the record parser. *)

From Stdlib Require Import String.
From S2P Require Import Prelude AppState Model Wire Text Device TxtParser.
Import Device TxtParser.

Module Browser.

Inductive BrowseEvent := Added (d : Device) | Updated (d : Device) | Removed (id : DeviceId).

Definition event_device (e : BrowseEvent) : option Device :=
  match e with Added d | Updated d => Some d | Removed _ => None end.
Definition event_device_id (e : BrowseEvent) : DeviceId :=
  match e with Added d | Updated d => dev_id d | Removed id => id end.

Inductive ServiceKind := AirPlay | Raop.
#[export] Instance ServiceKind_eq_dec : EqDecision ServiceKind.
Proof. solve_decision. Defined.
#[export] Instance ServiceKind_countable : Countable ServiceKind.
Proof.
  refine (inj_countable' (fun k => match k with AirPlay => true | Raop => false end)
            (fun b => if b : bool then AirPlay else Raop) _). by intros [].
Defined.

(** [ServiceKey { kind, fullname }] *)
Notation ServiceKey := (ServiceKind * text)%type.

Record ReceiverServices := { airplay : option Device; raop : option Device }.
Definition empty_services : ReceiverServices := {| airplay := None; raop := None |}.

Definition slot (s : ReceiverServices) (kind : ServiceKind) : option Device :=
  match kind with AirPlay => airplay s | Raop => raop s end.
(** Assignment through [slot_mut(kind)]. *)
Definition set_slot (s : ReceiverServices) (kind : ServiceKind) (d : option Device)
  : ReceiverServices :=
  match kind with
  | AirPlay => {| airplay := d; raop := raop s |}
  | Raop => {| airplay := airplay s; raop := d |}
  end.

Definition merged (s : ReceiverServices) : option Device :=
  match airplay s, raop s with
  | Some a, Some r => Some (merge_device_info a r)
  | Some a, None => Some a
  | None, Some r => Some r
  | None, None => None
  end.

Record ServiceIndex := {
  service_to_receiver : gmap ServiceKey DeviceId;
  resolvers : gmap DeviceId ReceiverServices;
}.
Definition empty_index : ServiceIndex := {| service_to_receiver := ∅; resolvers := ∅ |}.

Definition resolve (ix : ServiceIndex) (key : ServiceKey) : option DeviceId :=
  service_to_receiver ix !! key.
Definition contains (ix : ServiceIndex) (id : DeviceId) : bool :=
  negb (is_none (resolvers ix !! id)).
Definition is_castable (ix : ServiceIndex) (id : DeviceId) : bool :=
  match resolvers ix !! id with Some s => negb (is_none (airplay s)) | None => false end.
Definition receiver_count (ix : ServiceIndex) : nat := size (resolvers ix).
Definition device (ix : ServiceIndex) (id : DeviceId) : option Device :=
  s ← resolvers ix !! id; merged s.
Definition all_devices (ix : ServiceIndex) : list Device :=
  omap (fun '(_, s) => merged s) (map_to_list (resolvers ix)).

Definition clear_service_slot (rs : gmap DeviceId ReceiverServices) (receiver : DeviceId)
    (key : ServiceKey) : gmap DeviceId ReceiverServices :=
  match rs !! receiver with
  | None => rs
  | Some s =>
      let s' := set_slot s (fst key) None in
      if is_none (airplay s') && is_none (raop s') then delete receiver rs
      else <[receiver := s']> rs
  end.

(** [unreachable!] is [None]. *)
Definition upsert (ix : ServiceIndex) (key : ServiceKey) (d : Device)
  : ServiceIndex * option BrowseEvent :=
  let receiver := dev_id d in
  let rs :=
    match service_to_receiver ix !! key with
    | Some previous =>
        if bool_decide (previous = receiver) then resolvers ix
        else clear_service_slot (resolvers ix) previous key
    | None => resolvers ix
    end in
  let known := negb (is_none (rs !! receiver)) in
  let services := set_slot (default empty_services (rs !! receiver)) (fst key) (Some d) in
  ({| service_to_receiver := <[key := receiver]> (service_to_receiver ix);
      resolvers := <[receiver := services]> rs |},
   m ← merged services; Some (if known then Updated m else Added m)).

Definition remove (ix : ServiceIndex) (key : ServiceKey) : ServiceIndex * option DeviceId :=
  match service_to_receiver ix !! key with
  | None => (ix, None)
  | Some receiver =>
      ({| service_to_receiver := delete key (service_to_receiver ix);
          resolvers := clear_service_slot (resolvers ix) receiver key |}, Some receiver)
  end.

Definition removal_event (ix : ServiceIndex) (key : ServiceKey)
  : ServiceIndex * option BrowseEvent :=
  match resolve ix key with
  | None => (ix, None)
  | Some receiver =>
      let ix' := fst (remove ix key) in
      (ix', match fst key with
            | AirPlay => Some (Removed receiver)
            | Raop => m ← device ix' receiver; Some (Updated m)
            end)
  end.

(** ** mDNS events *)

Record ServiceInfo := {
  info_fullname : text;
  info_port : Z;
  info_addresses : list IpAddr;
  info_properties : list (text * text);
}.

Inductive ServiceEvent :=
| ServiceResolved (info : ServiceInfo)
| ServiceRemoved (fullname : text)
| SearchStarted
| SearchStopped
| OtherEvent.

(** [iter().map(..).collect::<HashMap<_, _>>()]: the last of equal keys stays. *)
Definition txt_of (props : list (text * text)) : Txt :=
  fold_left (fun m '(k, v) => <[k := v]> m) props ∅.

Definition parse_service_event (uuid_parse : text -> option Uuid) (info : ServiceInfo)
    (kind : ServiceKind) : option (option Device) :=
  match info_addresses info with
  | [] => Some None
  | addresses =>
      let txt := txt_of (info_properties info) in
      let service_name := default (info_fullname info) (head (split 46 (info_fullname info))) in
      r ← match kind with
          | Raop => parse_raop_txt service_name txt addresses (info_port info)
          | AirPlay => parse_airplay_txt uuid_parse service_name txt addresses (info_port info)
          end;
      Some (match r with Ok d => Some d | Err _ => None end)
  end.

Definition handle_service_event (uuid_parse : text -> option Uuid) (event : ServiceEvent)
    (kind : ServiceKind) (ix : ServiceIndex) : option (ServiceIndex * option BrowseEvent) :=
  match event with
  | ServiceResolved info =>
      d ← parse_service_event uuid_parse info kind;
      Some (match d with
            | Some d => upsert ix (kind, info_fullname info) d
            | None => (ix, None)
            end)
  | ServiceRemoved fullname => Some (removal_event ix (kind, fullname))
  | SearchStarted | SearchStopped | OtherEvent => Some (ix, None)
  end.

(** ** What the index stands for

    The services that have been resolved and not yet removed. *)

Inductive IndexOp := Upsert (key : ServiceKey) (d : Device) | Remove (key : ServiceKey).

Definition step_index (ix : ServiceIndex) (op : IndexOp) : ServiceIndex * option BrowseEvent :=
  match op with Upsert key d => upsert ix key d | Remove key => removal_event ix key end.

Definition step_live (live : gmap ServiceKey Device) (op : IndexOp) : gmap ServiceKey Device :=
  match op with Upsert key d => <[key := d]> live | Remove key => delete key live end.

(** No receiver announces one kind of service under two names at once. *)
Definition one_name_each (live : gmap ServiceKey Device) : Prop :=
  forall k1 k2 d1 d2, live !! k1 = Some d1 -> live !! k2 = Some d2 ->
    fst k1 = fst k2 -> dev_id d1 = dev_id d2 -> k1 = k2.

Definition slot_of (ix : ServiceIndex) (r : DeviceId) (kind : ServiceKind) : option Device :=
  s ← resolvers ix !! r; slot s kind.

Record indexes (live : gmap ServiceKey Device) (ix : ServiceIndex) : Prop := {
  names_ok : service_to_receiver ix = dev_id <$> live;
  slots_ok : forall r kind d,
    slot_of ix r kind = Some d <->
    exists name, live !! (kind, name) = Some d /\ dev_id d = r;
  rows_ok : forall r s, resolvers ix !! r = Some s -> merged s <> None;
}.

Lemma merged_None s : merged s = None <-> airplay s = None /\ raop s = None.
Proof. unfold merged. destruct (airplay s), (raop s); naive_solver. Qed.

Lemma slot_set_slot s k k' d :
  slot (set_slot s k d) k' = if decide (k = k') then d else slot s k'.
Proof. by destruct k, k'. Qed.

Lemma slot_clear rs receiver key r kind :
  (s ← clear_service_slot rs receiver key !! r; slot s kind)
  = if decide (r = receiver /\ kind = fst key) then None else (s ← rs !! r; slot s kind).
Proof.
  unfold clear_service_slot. destruct (rs !! receiver) as [s|] eqn:E.
  - cbn zeta. set (s' := set_slot s (fst key) None).
    assert (Hs' : forall k, slot s' k = if decide (fst key = k) then None else slot s k)
      by (intros k; apply slot_set_slot).
    destruct (decide (r = receiver)) as [->|Hr].
    + destruct (is_none (airplay s') && is_none (raop s')) eqn:En.
      * rewrite lookup_delete_eq. cbn. destruct (decide _) as [|Hk]; [done|].
        rewrite E. cbn. pose proof (Hs' kind) as H.
        rewrite decide_False in H by naive_solver. rewrite <- H.
        destruct (airplay s') eqn:Ea, (raop s') eqn:Er; try done. by destruct kind.
      * rewrite lookup_insert_eq, E. cbn. rewrite Hs'.
        destruct (decide (fst key = kind)) as [->|]; [by rewrite decide_True|].
        by rewrite decide_False by naive_solver.
    + rewrite (decide_False (P := _ /\ _)) by naive_solver.
      destruct (_ && _); [by rewrite lookup_delete_ne|by rewrite lookup_insert_ne].
  - destruct (decide _) as [[-> ->]|]; [by rewrite E|done].
Qed.

Lemma rows_clear rs receiver key :
  (forall r s, rs !! r = Some s -> merged s <> None) ->
  forall r s, clear_service_slot rs receiver key !! r = Some s -> merged s <> None.
Proof.
  intros H r s. unfold clear_service_slot. destruct (rs !! receiver) as [s0|] eqn:E; [|apply H].
  cbn zeta. destruct (is_none _ && is_none _) eqn:En.
  - intros [_ Hs]%lookup_delete_Some. by apply (H r).
  - intros [[<- <-]|[_ Hs]]%lookup_insert_Some; [|by apply (H r)].
    rewrite merged_None. intros [Ha Hr]. by rewrite Ha, Hr in En.
Qed.

Lemma slot_insert (rs : gmap DeviceId ReceiverServices) receiver kind0 d r kind :
  (s ← <[receiver := set_slot (default empty_services (rs !! receiver)) kind0 (Some d)]> rs !! r;
   slot s kind)
  = if decide (r = receiver /\ kind = kind0) then Some d else (s ← rs !! r; slot s kind).
Proof.
  destruct (decide (r = receiver)) as [->|Hr].
  - rewrite lookup_insert_eq. cbn. rewrite slot_set_slot.
    destruct (decide (kind0 = kind)) as [->|]; [by rewrite decide_True|].
    rewrite decide_False by naive_solver. destruct (rs !! receiver); [done|]. by destruct kind.
  - rewrite lookup_insert_ne, decide_False by naive_solver. done.
Qed.

(** The rows after the key has left the receiver it named before. *)
Definition detached (ix : ServiceIndex) (key : ServiceKey) (receiver : DeviceId)
  : gmap DeviceId ReceiverServices :=
  match service_to_receiver ix !! key with
  | Some previous =>
      if bool_decide (previous = receiver) then resolvers ix
      else clear_service_slot (resolvers ix) previous key
  | None => resolvers ix
  end.

Lemma slot_detached ix key receiver r kind :
  (s ← detached ix key receiver !! r; slot s kind)
  = if decide (service_to_receiver ix !! key = Some r /\ r <> receiver /\ kind = fst key)
    then None else slot_of ix r kind.
Proof.
  unfold detached, slot_of. destruct (service_to_receiver ix !! key) as [p|] eqn:E.
  - case_bool_decide as Hp.
    + rewrite decide_False by naive_solver. done.
    + rewrite slot_clear. destruct (decide _) as [[-> ->]|Hn].
      * by rewrite decide_True.
      * rewrite decide_False by naive_solver. done.
  - rewrite decide_False by naive_solver. done.
Qed.

Lemma upsert_indexes live ix key d :
  indexes live ix -> one_name_each live -> one_name_each (<[key := d]> live) ->
  indexes (<[key := d]> live) (fst (upsert ix key d)).
Proof.
  intros [Hn Hs Hr] Hu Hu'. unfold upsert. fold (detached ix key (dev_id d)).
  set (rs := detached ix key (dev_id d)). split; cbn [fst service_to_receiver resolvers].
  - by rewrite Hn, fmap_insert.
  - intros r kind d'. unfold slot_of. cbn [resolvers]. rewrite slot_insert.
    subst rs. rewrite slot_detached, Hn, lookup_fmap.
    destruct (decide (r = dev_id d /\ kind = fst key)) as [[-> ->]|Hne].
    { split.
      - intros [= <-]. exists (snd key). rewrite <- surjective_pairing, lookup_insert_eq. done.
      - intros (name & Hl & Hid).
        assert (key = (fst key, name)) as Hk.
        { apply (Hu' key (fst key, name) d d'); [apply lookup_insert_eq|done|done|done]. }
        rewrite <- Hk, lookup_insert_eq in Hl. congruence. }
    destruct (decide _) as [(Hp & Hpr & ->)|Hkeep].
    + split; [done|]. intros (name & Hl & Hid). exfalso.
      apply fmap_Some in Hp as (d0 & Hl0 & ->).
      apply lookup_insert_Some in Hl as [[_ <-]|[Hk Hl]]; [congruence|].
      apply Hk. by apply (Hu key (fst key, name) d0 d').
    + rewrite Hs. apply exist_proper. intros name.
      destruct (decide (key = (kind, name))) as [->|Hk].
      * rewrite lookup_insert_eq. split; [|naive_solver].
        intros [Hl Hid]. exfalso. apply Hkeep. rewrite Hl. cbn. naive_solver.
      * by rewrite lookup_insert_ne.
  - intros r s [[<- <-]|[_ Hs']]%lookup_insert_Some.
    + rewrite merged_None. intros [Ha Hb].
      pose proof (slot_set_slot (default empty_services (rs !! dev_id d)) (fst key) (fst key)
                    (Some d)) as H.
      rewrite decide_True in H by done. destruct (fst key); cbn [slot] in H; congruence.
    + subst rs. unfold detached in Hs'. destruct (service_to_receiver ix !! key) as [p|];
        [|by apply (Hr r)].
      destruct (bool_decide _); [by apply (Hr r)|]. by apply (rows_clear _ _ _ Hr) in Hs'.
Qed.

Lemma remove_indexes live ix key :
  indexes live ix -> one_name_each live ->
  indexes (delete key live) (fst (removal_event ix key)).
Proof.
  intros [Hn Hs Hr] Hu. unfold removal_event, resolve, remove. rewrite Hn, lookup_fmap.
  destruct (live !! key) as [d0|] eqn:E; cbn.
  - split; cbn.
    + by rewrite fmap_delete.
    + intros r kind d. unfold slot_of. cbn. rewrite slot_clear. fold (slot_of ix r kind).
      destruct (decide _) as [[-> ->]|Hne].
      * split; [done|]. intros (name & [Hk Hl]%lookup_delete_Some & Hid). exfalso.
        apply Hk. by apply (Hu key (fst key, name) d0 d).
      * rewrite Hs. apply exist_proper. intros name. rewrite lookup_delete_Some.
        split; [|naive_solver]. intros [Hl Hid]. split; [|done]. split; [|done].
        intros ->. naive_solver.
    + by apply rows_clear.
  - rewrite delete_id by done. by split.
Qed.

(** Every prefix of the history keeps [one_name_each]. *)
Fixpoint one_name_always (live : gmap ServiceKey Device) (ops : list IndexOp) : Prop :=
  one_name_each live /\
  match ops with [] => True | op :: ops' => one_name_always (step_live live op) ops' end.

Definition run_index (ix : ServiceIndex) (ops : list IndexOp) : ServiceIndex :=
  fold_left (fun ix op => fst (step_index ix op)) ops ix.
Definition run_live (live : gmap ServiceKey Device) (ops : list IndexOp)
  : gmap ServiceKey Device := fold_left step_live ops live.

Lemma one_name_now live ops : one_name_always live ops -> one_name_each live.
Proof. destruct ops; naive_solver. Qed.

Lemma step_indexes live ix op :
  indexes live ix -> one_name_each live -> one_name_each (step_live live op) ->
  indexes (step_live live op) (fst (step_index ix op)).
Proof. destruct op; cbn; [apply upsert_indexes|intros ? ? _; by apply remove_indexes]. Qed.

Lemma run_indexes ops live ix :
  indexes live ix -> one_name_always live ops ->
  indexes (run_live live ops) (run_index ix ops).
Proof.
  revert live ix. induction ops as [|op ops IH]; intros live ix Hi [Hu Hrest]; [done|].
  apply IH; [|done]. apply step_indexes; [done|done|by eapply one_name_now].
Qed.

Lemma empty_indexes : indexes ∅ empty_index.
Proof.
  split; [done| |done]. intros r kind d. unfold slot_of. cbn. rewrite lookup_empty. cbn.
  split; [done|]. intros (name & H & _). by rewrite lookup_empty in H.
Qed.

(** C20: As long as no receiver announces one kind of service under two names at
    once, the index is exactly the set of live services, whatever the order of
    resolutions, moves of a name between receivers, and removals: each live
    service names its receiver, a receiver's AirPlay and RAOP records are its
    live services, and a receiver is known exactly while one of them lives. *)
Theorem index_is_the_live_services (ops : list IndexOp) :
  one_name_always ∅ ops ->
  let live := run_live ∅ ops in
  let ix := run_index empty_index ops in
  (forall key, resolve ix key = dev_id <$> live !! key) /\
  (forall r kind d, slot_of ix r kind = Some d <->
     exists name, live !! (kind, name) = Some d /\ dev_id d = r) /\
  (forall r, contains ix r = true <-> exists key d, live !! key = Some d /\ dev_id d = r).
Proof.
  intros Hu live ix. destruct (run_indexes ops ∅ empty_index empty_indexes Hu) as [Hn Hs Hr].
  fold live ix in Hn, Hs, Hr. split; [|split; [exact Hs|]].
  - intros key. unfold resolve. by rewrite Hn, lookup_fmap.
  - intros r. unfold contains. destruct (resolvers ix !! r) as [s|] eqn:E; cbn.
    + split; [intros _|done]. specialize (Hr r s E). rewrite merged_None in Hr.
      assert (exists kind d, slot s kind = Some d) as (kind & d & Hd).
      { destruct (airplay s) eqn:Ea; [by exists AirPlay; eauto|].
        destruct (raop s) eqn:Eb; [by exists Raop; eauto|]. naive_solver. }
      destruct (proj1 (Hs r kind d)) as (name & Hl & Hid); [unfold slot_of; by rewrite E|eauto].
    + split; [done|]. intros ([kind name] & d & Hl & Hid).
      assert (slot_of ix r kind = Some d) as H by (apply Hs; eauto).
      unfold slot_of in H. by rewrite E in H.
Qed.

Lemma one_name_singleton key d : one_name_each {[ key := d ]}.
Proof.
  intros k1 k2 d1 d2 H1 H2 _ _.
  apply lookup_singleton_Some in H1 as [<- _], H2 as [<- _]. done.
Qed.

Lemma one_name_empty : one_name_each ∅.
Proof. intros k1 k2 d1 d2 H1. by rewrite lookup_empty in H1. Qed.

Lemma index_is_the_live_services_witness :
  let d := example_device (MkDeviceId 1 2 3 4 5 6) (lit "Kitchen") in
  let ix := run_index empty_index [Upsert (AirPlay, lit "Kitchen._airplay._tcp.local.") d] in
  resolve ix (AirPlay, lit "Kitchen._airplay._tcp.local.") = Some (MkDeviceId 1 2 3 4 5 6).
Proof.
  intros d ix.
  destruct (index_is_the_live_services [Upsert (AirPlay, lit "Kitchen._airplay._tcp.local.") d])
    as (H & _).
  - split; [apply one_name_empty|]. split; [apply one_name_singleton|exact I].
  - exact (H (AirPlay, lit "Kitchen._airplay._tcp.local.")).
Defined.

(** A receiver that is announced under a new name before the old one expires
    is lost when the old name goes: the removal clears the slot the new record
    lives in, although that service is still announced. *)
Theorem renamed_receiver_is_lost (d1 d2 : Device) (old new : text) :
  old <> new -> dev_id d1 = dev_id d2 ->
  let ops := [Upsert (AirPlay, old) d1; Upsert (AirPlay, new) d2] in
  let '(ix, yielded) := removal_event (run_index empty_index ops) (AirPlay, old) in
  yielded = Some (Removed (dev_id d2)) /\
  device ix (dev_id d2) = None /\
  run_live ∅ (ops ++ [Remove (AirPlay, old)]) !! (AirPlay, new) = Some d2.
Proof.
  intros Hne Hid ops. unfold removal_event, resolve, remove.
  assert (Hold : service_to_receiver (run_index empty_index ops) !! (AirPlay, old)
                 = Some (dev_id d2)).
  { cbn. rewrite lookup_insert_ne by congruence. rewrite lookup_insert_eq. congruence. }
  assert (Hrow : resolvers (run_index empty_index ops) !! dev_id d2
                 = Some {| airplay := Some d2; raop := None |}).
  { assert (Hnew : forall (m : gmap ServiceKey DeviceId) x,
      <[(AirPlay, old) := x]> m !! (AirPlay, new) = m !! (AirPlay, new))
      by (intros; apply lookup_insert_ne; congruence).
    cbn. rewrite Hnew, !lookup_empty. cbn. by rewrite <- Hid, !lookup_insert_eq. }
  rewrite Hold. cbn [fst]. split; [done|]. split.
  - unfold device. cbn [resolvers]. unfold clear_service_slot. rewrite Hrow. cbn.
    by rewrite lookup_delete_eq.
  - cbn. rewrite lookup_delete_ne by congruence. apply lookup_insert_eq.
Qed.

(** A name that moves to another receiver takes the first receiver out of the
    index, and no event says so. *)
Theorem replaced_receiver_is_not_reported (d1 d2 : Device) (name : text) :
  dev_id d1 <> dev_id d2 ->
  let '(ix1, e1) := upsert empty_index (AirPlay, name) d1 in
  let '(ix2, e2) := upsert ix1 (AirPlay, name) d2 in
  e1 = Some (Added d1) /\ e2 = Some (Added d2) /\ contains ix2 (dev_id d1) = false.
Proof.
  intros Hne. cbn. rewrite !lookup_empty, lookup_insert_eq, bool_decide_false by done.
  unfold clear_service_slot. cbn. rewrite lookup_insert_eq. cbn.
  rewrite delete_insert_eq, lookup_delete_ne, lookup_empty by done. cbn.
  split; [done|]. split; [done|]. unfold contains. cbn.
  rewrite lookup_insert_ne by done. by rewrite lookup_delete_eq.
Qed.

End Browser.
