(* ===== verification/Discovery.v ===== *)
(** * The discovery supervisor

    [apps/openaircast/src/backend/discovery.rs]: the inventory reducer, the
    control channel, the bounded update queue and the task [run_supervisor]
    with [drive_generation], [schedule_failure] and [settle], as a step machine
    whose program counter is the [await] the task is parked at.  Also the
    inventory the controller mirrors from the updates
    ([backend/controller.rs], [apply_discovery_update]).

    Inputs are what the environment decides: requests on the control channel,
    the consumer taking an update, what the browse answers, timers.  An
    [Instant], a [SystemTime] and a [Duration] are nanosecond counts; a
    cancellation token is named by the generation it was made for; the
    diagnostics feed is the list of what was emitted. *)

From Stdlib Require Import String.
From S2P Require Import Prelude AppState Model Wire Text Device TxtParser Browser Recovery.
Import Model Device Browser Recovery.

Module Discovery.

Definition NETWORK_SETTLE : Duration := from_secs 2.
Definition SUPERVISOR_CAPACITY : nat := Z.to_nat 256.

(** ** The inventory *)

Record KnownReceiver := {
  kr_name : text;
  kr_model : text;
  kr_castable : bool;
  kr_available : bool;
}.
#[export] Instance eta_KnownReceiver : Eta KnownReceiver := fun k =>
  {| kr_name := kr_name k; kr_model := kr_model k; kr_castable := kr_castable k;
     kr_available := kr_available k |}.

Inductive DiscoveryPhase := Stopped | Running | Retrying (attempt : Z) (retry_at : Z).

Record DiscoverySnapshot := { snap_generation : Z; snap_phase : DiscoveryPhase }.

Record DiscoveryState := {
  ds_generation : Z;
  ds_phase : DiscoveryPhase;
  ds_receivers : gmap ReceiverId KnownReceiver;
  ds_child : option Z;
}.
#[export] Instance eta_DiscoveryState : Eta DiscoveryState := fun s =>
  {| ds_generation := ds_generation s; ds_phase := ds_phase s;
     ds_receivers := ds_receivers s; ds_child := ds_child s |}.

Definition default_state : DiscoveryState :=
  {| ds_generation := 0; ds_phase := Stopped; ds_receivers := ∅; ds_child := None |}.
Definition at_generation (generation : Z) : DiscoveryState :=
  default_state <| ds_generation := generation |>.

Inductive DiscoveryUpdate :=
| Started (generation : Z)
| Receiver (generation : Z) (event : BrowseEvent)
| Failed (generation : Z) (error : text) (retry_at : Instant).

Definition update_generation (u : DiscoveryUpdate) : Z :=
  match u with Started g | Receiver g _ | Failed g _ _ => g end.

Definition device_is_castable (d : Device) : bool :=
  supports_airplay2 d
  && match socket_addr d with Some (addr, _) => is_ipv4 addr | None => false end.

Definition known_of (d : Device) : KnownReceiver :=
  {| kr_name := dev_name d; kr_model := dev_model d; kr_castable := device_is_castable d;
     kr_available := true |}.

(** Every field of the entry is assigned, so what was there does not matter. *)
Definition fold_event (rows : gmap ReceiverId KnownReceiver) (event : BrowseEvent)
  : gmap ReceiverId KnownReceiver :=
  match event with
  | Added d | Updated d => <[dev_id d := known_of d]> rows
  | Removed id => alter (fun k => k <| kr_available := false |>) id rows
  end.

Definition apply_event (s : DiscoveryState) (generation : Z) (event : BrowseEvent)
  : DiscoveryState * bool :=
  if generation <? ds_generation s then (s, false)
  else (s <| ds_receivers := fold_event (ds_receivers s) event |>, true).

Definition apply_update (s : DiscoveryState) (update : DiscoveryUpdate) : DiscoveryState * bool :=
  match update with
  | Started generation =>
      if generation <? ds_generation s then (s, false)
      else (s <| ds_generation := generation |> <| ds_phase := Running |>, true)
  | Receiver generation event =>
      if generation <? ds_generation s then (s, false) else apply_event s generation event
  | Failed generation _ _ => (s, ds_generation s <=? generation)
  end.

Definition mark_all_unknown (s : DiscoveryState) : DiscoveryState :=
  s <| ds_receivers := (fun k => k <| kr_available := false |>) <$> ds_receivers s |>.
Definition clear_inventory (s : DiscoveryState) : DiscoveryState := s <| ds_receivers := ∅ |>.
Definition note_retrying (s : DiscoveryState) (attempt retry_at : Z) : DiscoveryState :=
  s <| ds_phase := Retrying attempt retry_at |>.
(** The token it cancels is returned. *)
Definition note_stopped (s : DiscoveryState) : DiscoveryState * option Z :=
  (s <| ds_phase := Stopped |> <| ds_child := None |>, ds_child s).

Inductive RowLifecycle := RowDiscovered | RowUnavailable.
Record ReceiverSnapshot := {
  rs_id : ReceiverId; rs_name : text; rs_model : text; rs_lifecycle : RowLifecycle }.

(** [BTreeMap] iteration is in key order. *)
Definition receivers (s : DiscoveryState) : list ReceiverSnapshot :=
  (fun '(id, known) =>
     {| rs_id := id; rs_name := kr_name known; rs_model := kr_model known;
        rs_lifecycle := if kr_available known && kr_castable known
                        then RowDiscovered else RowUnavailable |})
  <$> isort (fun x y => device_leb (fst x) (fst y)) (map_to_list (ds_receivers s)).

Definition snapshot (s : DiscoveryState) : DiscoverySnapshot :=
  {| snap_generation := ds_generation s; snap_phase := ds_phase s |}.

(** ** The control channel

    [tokio::sync::watch]: one slot; [changed] waits for an unseen value and
    fails at once when the sender is gone. *)

Inductive DiscoveryControl := RestartAfterNetworkChange | Shutdown.

Record Watch := { w_value : option DiscoveryControl; w_changed : bool; w_closed : bool }.
Definition new_watch : Watch := {| w_value := None; w_changed := false; w_closed := false |}.

Definition request_control (w : Watch) (c : DiscoveryControl) : Watch :=
  {| w_value := Some c; w_changed := true; w_closed := w_closed w |}.
Definition drop_sender (w : Watch) : Watch :=
  {| w_value := w_value w; w_changed := w_changed w; w_closed := true |}.

Definition borrow_and_update (w : Watch) : Watch :=
  {| w_value := w_value w; w_changed := false; w_closed := w_closed w |}.

(** [None] while it waits.  The result of [changed] is ignored. *)
Definition next_control (w : Watch) : option (option DiscoveryControl * Watch) :=
  if w_changed w || w_closed w
  then Some (w_value w, borrow_and_update w) else None.

Inductive GenerationExit := ExitShutdown | NetworkChanged | ExitOverloaded | BackoffElapsed.
Definition on_control (control : option DiscoveryControl) : GenerationExit :=
  match control with
  | Some RestartAfterNetworkChange => NetworkChanged
  | Some Shutdown | None => ExitShutdown
  end.

Inductive Settle := Elapsed | SettleShutdown | RestartAgain.
Definition settle_control (control : option DiscoveryControl) : Settle :=
  match control with
  | Some RestartAfterNetworkChange => RestartAgain
  | _ => SettleShutdown
  end.

(** ** The task *)

Inductive Severity := Info | Warning.
Inductive DiagnosticPayload :=
| DiscoveryGeneration (generation : Z) (phase : DiscoveryPhase)
| DiscoveryReceiver (receiver : ReceiverId) (present : bool)
| Retry (receiver : option ReceiverId) (attempt next_at : Z)
| QueueWatermark (depth capacity : Z).
Inductive DiagnosticCategory := CatDiscovery | CatRetry | CatQueue.
Definition diagnostic_category (p : DiagnosticPayload) : DiagnosticCategory :=
  match p with
  | DiscoveryGeneration _ _ | DiscoveryReceiver _ _ => CatDiscovery
  | Retry _ _ _ => CatRetry
  | QueueWatermark _ _ => CatQueue
  end.
Record DiagnosticEvent := {
  de_discovery_generation : Z;
  de_receiver : option ReceiverId;
  de_severity : Severity;
  de_category : DiagnosticCategory;
  de_payload : DiagnosticPayload;
}.

(** Where the task is parked: before its first poll, the top of ['outer] (which
    it reaches without waiting), [source.browse()], the [select!] of a running generation, the
    backoff sleep, the settle sleep, finished. *)
Inductive Pc :=
  PInit | PStart | PBrowse | PSelect | PBackoff (delay : Duration) | PSettle | PStopped.

Record Supervisor := {
  pc : Pc;
  generation : Z;
  failures : Z;
  preserve_unknown : bool;
  shared : DiscoveryState;
  cancelled : gset Z;
  watch : Watch;
  queue : list DiscoveryUpdate;
  queue_closed : bool;
  received : list DiscoveryUpdate;
  cell : Z;
  emitted : list DiagnosticEvent;
}.
#[export] Instance eta_Supervisor : Eta Supervisor := fun s =>
  {| pc := pc s; generation := generation s; failures := failures s;
     preserve_unknown := preserve_unknown s; shared := shared s; cancelled := cancelled s;
     watch := watch s; queue := queue s; queue_closed := queue_closed s;
     received := received s; cell := cell s; emitted := emitted s |}.

Definition start : Supervisor :=
  {| pc := PInit; generation := 0; failures := 0; preserve_unknown := false;
     shared := default_state; cancelled := ∅; watch := new_watch; queue := [];
     queue_closed := false; received := []; cell := 0; emitted := [] |}.

Definition emit (s : Supervisor) (receiver : option ReceiverId) (severity : Severity)
    (payload : DiagnosticPayload) : Supervisor :=
  s <| emitted := emitted s ++
         [{| de_discovery_generation := generation s; de_receiver := receiver;
             de_severity := severity; de_category := diagnostic_category payload;
             de_payload := payload |}] |>.

Definition cancel (s : Supervisor) (token : Z) : Supervisor :=
  s <| cancelled := {[token]} ∪ cancelled s |>.

Inductive Flow := Sent | Overloaded | Closed.

(** [updates_tx.try_send(update)] and what follows a full queue. *)
Definition push_update (s : Supervisor) (update : DiscoveryUpdate) : Supervisor * Flow :=
  if queue_closed s then (s, Closed)
  else if (length (queue s) <? SUPERVISOR_CAPACITY)%nat
  then (s <| queue := queue s ++ [update] |>, Sent)
  else (cancel (emit s None Warning (QueueWatermark 256 256)) (generation s), Overloaded).

(** After ['outer]. *)
Definition finish (s : Supervisor) : Supervisor :=
  let s := emit s None Info (DiscoveryGeneration (generation s) Stopped) in
  let '(state, child) := note_stopped (shared s) in
  let s := s <| shared := state |> <| pc := PStopped |> in
  match child with Some token => cancel s token | None => s end.

(** The top of ['outer] up to [source.browse()]. *)
Definition begin_generation (s : Supervisor) : Supervisor :=
  let gen := sat_add 64 (generation s) 1 in
  let state := fst (apply_update (shared s) (Started gen)) in
  let state := if preserve_unknown s then mark_all_unknown state else clear_inventory state in
  let s := s <| generation := gen |> <| cell := gen |>
             <| shared := state <| ds_child := Some gen |> |>
             <| preserve_unknown := false |> in
  match push_update s (Started gen) with
  | (s, Sent) => (emit s None Info (DiscoveryGeneration gen Running)) <| pc := PBrowse |>
  | (s, Overloaded) => s <| pc := PStart |>
  | (s, Closed) => finish s
  end.

(** The arms after [drive_generation]. *)
Definition leave_generation (s : Supervisor) (exit : GenerationExit) : Supervisor :=
  match exit with
  | ExitShutdown => finish s
  | NetworkChanged =>
      (cancel s (generation s)) <| shared := mark_all_unknown (shared s) |>
        <| failures := 0 |> <| preserve_unknown := true |> <| pc := PSettle |>
  | ExitOverloaded | BackoffElapsed => s <| pc := PStart |>
  end.

(** [schedule_failure] up to its [select!]; [now] and [wall] are what the two
    clocks answer.  [None] is the panic of an empty ladder. *)
Definition schedule_failure (policy : RetryPolicy) (s : Supervisor) (error : text)
    (now : Instant) (wall : Z) : option Supervisor :=
  delay ← discovery_delay policy (generation s) (failures s);
  let s := s <| shared := note_retrying (shared s) (failures s) (wall + delay) |> in
  Some (match push_update s (Failed (generation s) error (now + delay)) with
        | (s, Sent) =>
            (emit s None Warning (Retry None (failures s) (wall + delay)))
              <| failures := wrap 32 (failures s + 1) |> <| pc := PBackoff delay |>
        | (s, Overloaded) => leave_generation s ExitOverloaded
        | (s, Closed) => leave_generation s ExitShutdown
        end).

(** Every browse event carries an identity, so the [expect] behind it never
    fires. *)
Definition event_receiver (event : BrowseEvent) : option ReceiverId :=
  match event with Added d | Updated d => Some (dev_id d) | Removed id => Some id end.

Definition take_event (s : Supervisor) (event : BrowseEvent) : Supervisor :=
  let '(state, accepted) := apply_update (shared s) (Receiver (generation s) event) in
  let s := s <| shared := state |> in
  if negb accepted then s
  else
    let present := match event with Removed _ => false | _ => true end in
    let s := emit s (event_receiver event) Info
               (DiscoveryReceiver (event_device_id event) present) in
    match push_update s (Receiver (generation s) event) with
    | (s, Sent) => s
    | (s, Overloaded) => leave_generation s ExitOverloaded
    | (s, Closed) => leave_generation s ExitShutdown
    end.

(** [redact_discovery_error] prefixes the printed error. *)
Definition redact_discovery_error (error : text) : text := lit "mDNS discovery failed: " ++ error.

Inductive Input :=
| Requested (c : DiscoveryControl)       (* a control edge is published *)
| SenderDropped
| Taken                                  (* the consumer takes one update *)
| QueueClosed                            (* the consumer goes away *)
| Proceed                                (* the task runs the top of its loop *)
| Browsed (r : Result unit text) (now wall : Z)
| Item (i : option (Result BrowseEvent text)) (now wall : Z)
| Control                                (* [next_control] wins the select *)
| TimerFired.

Definition step (policy : RetryPolicy) (s : Supervisor) (i : Input) : option Supervisor :=
  match i with
  | Requested c => Some (s <| watch := request_control (watch s) c |>)
  | SenderDropped => Some (s <| watch := drop_sender (watch s) |>)
  | Taken =>
      match queue s with
      | u :: rest => Some (s <| queue := rest |> <| received := received s ++ [u] |>)
      | [] => None
      end
  | QueueClosed => Some (s <| queue_closed := true |>)
  | Proceed =>
      match pc s with
      | PInit => Some (s <| watch := borrow_and_update (watch s) |> <| pc := PStart |>)
      | PStart => Some (begin_generation s)
      | _ => None
      end
  | Browsed r now wall =>
      match pc s, r with
      | PBrowse, Ok _ => Some (s <| pc := PSelect |>)
      | PBrowse, Err error => schedule_failure policy s error now wall
      | _, _ => None
      end
  | Item item now wall =>
      match pc s, item with
      | PSelect, Some (Ok event) => Some (take_event s event)
      | PSelect, Some (Err error) =>
          schedule_failure policy s (redact_discovery_error error) now wall
      | PSelect, None =>
          schedule_failure policy s (lit "discovery stream ended unexpectedly") now wall
      | _, _ => None
      end
  | Control =>
      '(control, w) ← next_control (watch s);
      let s := s <| watch := w |> in
      match pc s with
      | PSelect | PBackoff _ => Some (leave_generation s (on_control control))
      | PSettle =>
          Some (match settle_control control with
                | Elapsed | RestartAgain => s <| pc := PStart |>
                | SettleShutdown => finish s
                end)
      | PInit | PStart | PBrowse | PStopped => None
      end
  | TimerFired =>
      match pc s with
      | PBackoff _ => Some (leave_generation s BackoffElapsed)
      | PSettle => Some (s <| pc := PStart |>)
      | _ => None
      end
  end.

Fixpoint run (policy : RetryPolicy) (s : Supervisor) (inputs : list Input) : option Supervisor :=
  match inputs with
  | [] => Some s
  | i :: rest => s' ← step policy s i; run policy s' rest
  end.

(** ** What the consumer can rely on *)

(** Everything handed to the queue, taken or not yet. *)
Definition sent (s : Supervisor) : list DiscoveryUpdate := received s ++ queue s.
(** What was sent for the generation now running. *)
Definition of_generation (g : Z) (us : list DiscoveryUpdate) : list DiscoveryUpdate :=
  filter (fun u => update_generation u = g) us.

Definition all_unknown (rows : gmap ReceiverId KnownReceiver) : Prop :=
  map_Forall (fun _ k => kr_available k = false) rows.

Definition tag_le (a b : DiscoveryUpdate) : Prop := update_generation a <= update_generation b.

(** The running generation told its consumer exactly the events that made the
    inventory, starting from rows that claim nothing. *)
Definition told (g : Z) (rows : gmap ReceiverId KnownReceiver) (us : list DiscoveryUpdate) : Prop :=
  exists base es, all_unknown base /\ rows = fold_left fold_event es base /\
    of_generation g us = Started g :: (Receiver g <$> es).

Record core (n g dsg : Z) (q rc : list DiscoveryUpdate) : Prop := {
  core_gen : 0 <= g <= n;
  core_shared : dsg = g;
  core_queue : (length q <= SUPERVISOR_CAPACITY)%nat;
  core_tags : Forall (fun u => update_generation u <= g) (rc ++ q);
  core_sorted : StronglySorted tag_le (rc ++ q);
}.

Definition pc_ok (s : Supervisor) : Prop :=
  match pc s with
  | PInit => preserve_unknown s = false
  | PStart => preserve_unknown s = true -> all_unknown (ds_receivers (shared s))
  | PBrowse | PSelect =>
      ds_phase (shared s) = Running /\
      told (generation s) (ds_receivers (shared s)) (sent s)
  | PBackoff _ => exists attempt at_, ds_phase (shared s) = Retrying attempt at_
  | PSettle => preserve_unknown s = true /\ all_unknown (ds_receivers (shared s))
  | PStopped => ds_phase (shared s) = Stopped /\ ds_child (shared s) = None
  end /\ (match pc s with PStart | PSettle | PStopped => True | _ => preserve_unknown s = false end).

Definition inv (n : Z) (s : Supervisor) : Prop :=
  core n (generation s) (ds_generation (shared s)) (queue s) (received s) /\ pc_ok s.

Lemma all_unknown_mark rows :
  all_unknown ((fun k => k <| kr_available := false |>) <$> rows).
Proof. intros r k. rewrite lookup_fmap. by intros (k' & _ & ->)%fmap_Some. Qed.

Lemma core_mono n m g dsg q rc : core n g dsg q rc -> n <= m -> core m g dsg q rc.
Proof. intros [? ? ? ? ?] ?. split; [lia|done..]. Qed.

Lemma sorted_snoc us u :
  StronglySorted tag_le us -> Forall (fun v => tag_le v u) us -> StronglySorted tag_le (us ++ [u]).
Proof.
  induction 1 as [|v us Hs IH Hv]; intros Hu; cbn; [by repeat constructor|].
  apply Forall_cons in Hu as [Hvu Hu]. constructor; [by apply IH|].
  apply Forall_app_2; [done|]. by repeat constructor.
Qed.

(** The queue accepts an update of the current generation. *)
Lemma core_push n g dsg q rc u :
  core n g dsg q rc -> (length q < SUPERVISOR_CAPACITY)%nat -> update_generation u = g ->
  core n g dsg (q ++ [u]) rc.
Proof.
  intros [Hg Hs Hq Ht Hso] Hl Hu. split; [done|done| | |].
  - rewrite length_app. cbn. lia.
  - rewrite app_assoc. apply Forall_app_2; [done|]. repeat constructor. lia.
  - rewrite app_assoc. apply sorted_snoc; [done|]. eapply Forall_impl; [exact Ht|].
    unfold tag_le. cbn. lia.
Qed.

(** A new generation is above everything sent. *)
Lemma core_next n g dsg q rc :
  core n g dsg q rc -> core (n + 1) (g + 1) (g + 1) q rc /\ of_generation (g + 1) (rc ++ q) = [].
Proof.
  intros [Hg Hs Hq Ht Hso]. split.
  - split; [lia|done|done| |done]. eapply Forall_impl; [exact Ht|]. cbn. lia.
  - apply filter_drops. eapply Forall_impl; [exact Ht|]. cbn. lia.
Qed.

Lemma of_generation_snoc g us u :
  update_generation u = g -> of_generation g (us ++ [u]) = of_generation g us ++ [u].
Proof. intros H. unfold of_generation. rewrite filter_app, filter_cons_True by done. done. Qed.

Lemma push_cases s u :
  (queue_closed s = true /\ push_update s u = (s, Closed)) \/
  ((length (queue s) < SUPERVISOR_CAPACITY)%nat /\
   push_update s u = (s <| queue := queue s ++ [u] |>, Sent)) \/
  ((SUPERVISOR_CAPACITY <= length (queue s))%nat /\
   push_update s u
   = (cancel (emit s None Warning (QueueWatermark 256 256)) (generation s), Overloaded)).
Proof.
  unfold push_update. destruct (queue_closed s); [by left|]. right.
  destruct (Nat.ltb_spec (length (queue s)) SUPERVISOR_CAPACITY); auto.
Qed.

(** The three answers of the queue, in this order: closed, sent, full. *)
Ltac push_cases :=
  match goal with
  | |- context [push_update ?s ?u] =>
      destruct (push_cases s u) as [[_ ->]|[[Hroom ->]|[Hfull ->]]]
  end.

#[local] Arguments finish _ : simpl never.
#[local] Arguments leave_generation _ _ : simpl never.

Lemma finish_keeps_inv n s :
  core n (generation s) (ds_generation (shared s)) (queue s) (received s) -> inv n (finish s).
Proof.
  intros H. unfold inv, finish, pc_ok. cbn. destruct (ds_child (shared s)); cbn; auto.
Qed.

Lemma leave_inv n s exit :
  core n (generation s) (ds_generation (shared s)) (queue s) (received s) ->
  preserve_unknown s = false -> inv n (leave_generation s exit).
Proof.
  intros H Hp. unfold leave_generation.
  destruct exit; [by apply finish_keeps_inv|..]; unfold inv, pc_ok; cbn.
  - split; [done|]. split; [|done]. split; [done|]. apply all_unknown_mark.
  - rewrite Hp. done.
  - rewrite Hp. done.
Qed.

Lemma begin_inv n s :
  inv n s -> pc s = PStart -> n < 2 ^ 64 - 1 -> inv (n + 1) (begin_generation s).
Proof.
  intros [Hc [Hp _]] Hpc Hn. rewrite Hpc in Hp. pose proof (core_gen _ _ _ _ _ Hc).
  pose proof (core_shared _ _ _ _ _ Hc) as Hsh. pose proof (core_next _ _ _ _ _ Hc) as [Hc' Hnone].
  unfold begin_generation.
  replace (sat_add 64 (generation s) 1) with (generation s + 1) by (unfold sat_add; lia).
  cbn [apply_update]. rewrite Hsh.
  replace (generation s + 1 <? generation s) with false by lia. cbn [fst].
  set (state := if preserve_unknown s then _ else _).
  assert (Hst : ds_generation state = generation s + 1 /\ ds_phase state = Running /\
                all_unknown (ds_receivers state)).
  { subst state. destruct (preserve_unknown s); cbn; (split; [done|]); (split; [done|]).
    - apply all_unknown_mark.
    - apply map_Forall_empty. }
  destruct Hst as (Hg & Hph & Hrows). push_cases.
  - apply finish_keeps_inv. cbn. by rewrite Hg.
  - unfold inv, pc_ok, sent. cbn. rewrite Hg. split; [by apply core_push|].
    split; [|done]. split; [done|].
    exists (ds_receivers state), []. split; [done|]. split; [done|].
    rewrite app_assoc, of_generation_snoc, Hnone by done. done.
  - unfold inv, pc_ok, sent. cbn. rewrite Hg. done.
Qed.

Lemma failure_inv policy n s error now wall s' :
  core n (generation s) (ds_generation (shared s)) (queue s) (received s) ->
  preserve_unknown s = false ->
  schedule_failure policy s error now wall = Some s' -> inv n s'.
Proof.
  intros Hc Hp. unfold schedule_failure. destruct (discovery_delay _ _ _) as [delay|]; [|done].
  cbn [mbind option_bind]. push_cases; intros [= <-].
  - by apply leave_inv.
  - unfold inv, pc_ok. cbn. split; [by apply core_push|]. eauto.
  - by apply leave_inv.
Qed.

Lemma take_event_inv n s event :
  inv n s -> pc s = PSelect -> inv n (take_event s event).
Proof.
  intros [Hc [Hp Hpr]] Hpc. rewrite Hpc in Hp, Hpr. destruct Hp as (Hph & base & es & Hb & Hr & Ht).
  pose proof (core_shared _ _ _ _ _ Hc) as Hsh.
  unfold take_event, apply_update, apply_event. rewrite Hsh, Z.ltb_irrefl. cbn [negb].
  push_cases; [by apply leave_inv| |by apply leave_inv].
  unfold inv, pc_ok, sent in *. cbn. rewrite Hpc. split; [by apply core_push|].
  split; [|done]. split; [done|]. exists base, (es ++ [event]). split; [done|].
  rewrite fold_left_app, app_assoc, of_generation_snoc by done. cbn.
  split; [by rewrite Hr|]. by rewrite Ht, fmap_app.
Qed.

Lemma pc_ok_ext s s' :
  pc s' = pc s -> generation s' = generation s -> shared s' = shared s ->
  preserve_unknown s' = preserve_unknown s -> sent s' = sent s -> pc_ok s -> pc_ok s'.
Proof. intros E1 E2 E3 E4 E5. unfold pc_ok. by rewrite E1, E2, E3, E4, E5. Qed.

Lemma core_taken n g dsg u q rc : core n g dsg (u :: q) rc -> core n g dsg q (rc ++ [u]).
Proof.
  intros [? ? Hq Ht Hs]. cbn in Hq. split; [done|done|lia|..]; by rewrite <- app_assoc.
Qed.

Lemma step_inv policy n s i s' :
  inv n s -> n < 2 ^ 64 - 1 -> step policy s i = Some s' -> inv (n + 1) s'.
Proof.
  intros Hi Hn Hstep. assert (Hweak : forall t, inv n t -> inv (n + 1) t).
  { intros t [Hc Hp]. split; [eapply core_mono; [exact Hc|lia]|done]. }
  destruct (Hi) as [Hc Hp]. destruct i; cbn in Hstep.
  - injection Hstep as <-. apply Hweak. split; [done|]. by apply (pc_ok_ext s).
  - injection Hstep as <-. apply Hweak. split; [done|]. by apply (pc_ok_ext s).
  - destruct (queue s) as [|u rest] eqn:Eq; [done|]. injection Hstep as <-. apply Hweak.
    split; [cbn; by apply core_taken|]. apply (pc_ok_ext s); try done.
    unfold sent. cbn. by rewrite Eq, <- app_assoc.
  - injection Hstep as <-. apply Hweak. split; [done|]. by apply (pc_ok_ext s).
  - destruct (pc s) eqn:Epc; try done; injection Hstep as <-.
    + apply Hweak. split; [done|]. unfold pc_ok in Hp |- *. rewrite Epc in Hp. cbn.
      destruct Hp as [-> _]. done.
    + by apply begin_inv.
  - destruct (pc s) eqn:Epc; try done. destruct r as [[]|error].
    + injection Hstep as <-. apply Hweak. split; [done|].
      unfold pc_ok in Hp |- *. rewrite Epc in Hp. exact Hp.
    + apply Hweak. eapply failure_inv; [done| |exact Hstep].
      unfold pc_ok in Hp. rewrite Epc in Hp. apply Hp.
  - destruct (pc s) eqn:Epc; try done.
    assert (Hpr : preserve_unknown s = false)
      by (unfold pc_ok in Hp; rewrite Epc in Hp; apply Hp).
    apply Hweak. destruct i as [[event|error]|].
    + injection Hstep as <-. by apply take_event_inv.
    + by eapply failure_inv.
    + by eapply failure_inv.
  - destruct (next_control (watch s)) as [[control w]|]; [|done]. cbn in Hstep.
    unfold pc_ok in Hp.
    destruct (pc s) eqn:Epc; try done; injection Hstep as <-; apply Hweak;
      try (apply leave_inv; [done|apply Hp]).
    destruct (settle_control control); [|by apply finish_keeps_inv|];
      (split; [done|]); unfold pc_ok; cbn; naive_solver.
  - unfold pc_ok in Hp. destruct (pc s) eqn:Epc; try done; injection Hstep as <-; apply Hweak.
    + apply leave_inv; [done|apply Hp].
    + split; [done|]. unfold pc_ok; cbn; naive_solver.
Qed.

Lemma start_inv : inv 0 start.
Proof. split; [split; [done|done|cbn; lia|constructor|constructor]|done]. Qed.

Lemma run_inv policy inputs n s s' :
  inv n s -> n + Z.of_nat (length inputs) < 2 ^ 64 -> run policy s inputs = Some s' ->
  inv (n + Z.of_nat (length inputs)) s'.
Proof.
  revert n s. induction inputs as [|i inputs IH]; intros n s Hi Hn Hrun; cbn [run] in Hrun.
  - injection Hrun as <-. cbn. by rewrite Z.add_0_r.
  - destruct (step policy s i) as [s1|] eqn:E; [|done]. cbn [length] in *.
    replace (n + Z.of_nat (S (length inputs))) with (n + 1 + Z.of_nat (length inputs)) by lia.
    apply (IH (n + 1) s1); [|lia|done]. eapply step_inv; [done|lia|done].
Qed.

(** C19: Whatever is requested, answered and consumed in any order, while a
    generation is browsing the updates of that generation, taken or still
    queued, are its [Started] followed by exactly the browse events that made
    the supervisor's inventory, in order and none missing; they start from rows
    that are all unknown, so every receiver the inventory calls available was
    announced by this very generation.  Updates reach the consumer in
    generation order, and at most 256 wait at any time. *)
Theorem consumer_can_replay_inventory (policy : RetryPolicy) (inputs : list Input)
    (s : Supervisor) :
  Z.of_nat (length inputs) < 2 ^ 64 -> run policy start inputs = Some s ->
  StronglySorted tag_le (sent s) /\ (length (queue s) <= 256)%nat /\
  (pc s = PSelect ->
   exists base es,
     all_unknown base /\ ds_receivers (shared s) = fold_left fold_event es base /\
     of_generation (generation s) (sent s)
     = Started (generation s) :: (Receiver (generation s) <$> es)).
Proof.
  intros Hn Hrun. destruct (run_inv policy inputs 0 start s start_inv Hn Hrun) as [Hc [Hp _]].
  split; [apply Hc|]. split; [apply (core_queue _ _ _ _ _ Hc)|].
  intros Hpc. rewrite Hpc in Hp. apply Hp.
Qed.

(** Availability in the inventory is evidence from the running generation. *)
Lemma fold_available es base r k :
  all_unknown base -> fold_left fold_event es base !! r = Some k -> kr_available k = true ->
  exists pre d post, (es = pre ++ Added d :: post \/ es = pre ++ Updated d :: post) /\
    dev_id d = r /\ k = known_of d /\ Forall (fun e => event_device_id e <> r) post.
Proof.
  intros Hb. revert k. induction es as [|e es IH] using rev_ind; intros k Hk Ha.
  - specialize (Hb r k Hk). cbn in Hb. congruence.
  - rewrite fold_left_app in Hk. cbn in Hk.
    destruct (decide (event_device_id e = r)) as [He|He].
    + destruct e as [d|d|id]; cbn in Hk, He.
      * rewrite He, lookup_insert_eq in Hk. injection Hk as <-.
        exists es, d, []. split; [by left|]. by split.
      * rewrite He, lookup_insert_eq in Hk. injection Hk as <-.
        exists es, d, []. split; [by right|]. by split.
      * rewrite He, lookup_alter_eq in Hk. apply fmap_Some in Hk as (k' & _ & ->). done.
    + assert (Hk' : fold_left fold_event es base !! r = Some k).
      { destruct e as [d|d|id]; cbn in Hk, He.
        - by rewrite lookup_insert_ne in Hk.
        - by rewrite lookup_insert_ne in Hk.
        - by rewrite lookup_alter_ne in Hk. }
      destruct (IH k Hk' Ha) as (pre & d & post & Hes & Hd & Hkn & Hpost).
      exists pre, d, (post ++ [e]). split.
      * destruct Hes as [-> | ->]; rewrite <- app_assoc; [by left|by right].
      * split; [done|]. split; [done|]. apply Forall_app_2; [done|]. by repeat constructor.
Qed.

(** ** Shutdown and network changes *)

(** A pending shutdown ends the task at its next wait: from a running
    generation, a backoff and a settle the control edge is taken, the phase
    becomes stopped, the token of the generation is cancelled, and from then on
    no input but the channels' own bookkeeping is possible. *)
Theorem shutdown_stops_the_task (policy : RetryPolicy) (s : Supervisor) :
  match pc s with PSelect | PBackoff _ | PSettle => True | _ => False end ->
  w_value (watch s) = Some Shutdown -> w_changed (watch s) = true ->
  exists s', step policy s Control = Some s' /\ pc s' = PStopped /\
    ds_phase (shared s') = Stopped /\ ds_child (shared s') = None /\
    (forall token, ds_child (shared s) = Some token -> token ∈ cancelled s') /\
    queue s' = queue s /\
    (forall i, match i with
               | Proceed | Browsed _ _ _ | Item _ _ _ | Control | TimerFired => True
               | _ => False
               end -> step policy s' i = None).
Proof.
  intros Hpc Hv Hch. set (s0 := s <| watch := borrow_and_update (watch s) |>).
  assert (Hs : step policy s Control = Some (finish s0)).
  { cbn. unfold next_control. rewrite Hch. cbn [orb]. rewrite Hv. cbn.
    by destruct (pc s). }
  assert (Hfin : pc (finish s0) = PStopped /\ ds_phase (shared (finish s0)) = Stopped /\
    ds_child (shared (finish s0)) = None /\ queue (finish s0) = queue s /\
    (forall token, ds_child (shared s) = Some token -> token ∈ cancelled (finish s0))).
  { unfold finish. cbn. destruct (ds_child (shared s)) as [c|] eqn:Ec; cbn.
    - do 4 (split; [done|]). intros token [= <-]. set_solver.
    - by do 4 (split; [done|]). }
  destruct Hfin as (H1 & H2 & H3 & H4 & H5). exists (finish s0).
  do 4 (split; [done|]). split; [exact H5|]. split; [exact H4|].
  intros i Hi. destruct i; cbn; try done; rewrite ?H1; try done.
  by destruct (next_control _) as [[? ?]|].
Qed.

Lemma network_change_rows policy s :
  pc s = PSelect -> queue_closed s = false ->
  (length (queue s) < SUPERVISOR_CAPACITY)%nat ->
  ds_generation (shared s) = generation s -> 0 <= generation s < 2 ^ 64 - 1 ->
  exists s', run policy s [Requested RestartAfterNetworkChange; Control; TimerFired; Proceed]
             = Some s' /\
    pc s' = PBrowse /\ generation s' = generation s + 1 /\ failures s' = 0 /\
    generation s ∈ cancelled s' /\
    ds_receivers (shared s')
    = (fun k => k <| kr_available := false |>) <$> ds_receivers (shared s) /\
    queue s' = queue s ++ [Started (generation s + 1)].
Proof.
  intros Hpc Hq Hl Hg Hb.
  set (s1 := s <| watch := request_control (watch s) RestartAfterNetworkChange |>).
  set (s2 := leave_generation (s1 <| watch := borrow_and_update (watch s1) |>) NetworkChanged).
  set (s3 := s2 <| pc := PStart |>).
  assert (Hrun : run policy s [Requested RestartAfterNetworkChange; Control; TimerFired; Proceed]
                 = Some (begin_generation s3)).
  { cbn [run]. change (step policy s (Requested _)) with (Some s1). cbn [mbind option_bind].
    replace (step policy s1 Control) with (Some s2); [done|].
    cbn. rewrite Hpc. done. }
  rewrite Hrun. unfold begin_generation.
  change (generation s3) with (generation s). change (preserve_unknown s3) with true.
  change (shared s3) with (mark_all_unknown (shared s)).
  replace (sat_add 64 (generation s) 1) with (generation s + 1) by (unfold sat_add; lia).
  cbn [apply_update]. change (ds_generation (mark_all_unknown _)) with (ds_generation (shared s)).
  rewrite Hg. replace (generation s + 1 <? generation s) with false by lia. cbn [fst].
  unfold push_update.
  match goal with |- context [queue_closed ?x] => change (queue_closed x) with (queue_closed s) end.
  match goal with |- context [length (queue ?x)] => change (queue x) with (queue s) end.
  rewrite Hq, (proj2 (Nat.ltb_lt _ _) Hl).
  eexists. split; [reflexivity|]. cbn. split; [done|]. split; [done|]. split; [done|].
  split; [set_solver|]. split; [|done].
  rewrite <- map_fmap_compose. by apply map_fmap_ext.
Qed.

(** A network change during a browse cancels its token, keeps every known
    receiver but marks it unknown, forgets the failures, and after the settle
    the next generation starts with exactly those rows. *)
Theorem network_change_keeps_rows_unknown (policy : RetryPolicy) (s : Supervisor) :
  pc s = PSelect -> queue_closed s = false ->
  (length (queue s) < SUPERVISOR_CAPACITY)%nat ->
  ds_generation (shared s) = generation s -> 0 <= generation s < 2 ^ 64 - 1 ->
  exists s', run policy s [Requested RestartAfterNetworkChange; Control; TimerFired; Proceed]
             = Some s' /\
    pc s' = PBrowse /\ generation s' = generation s + 1 /\ failures s' = 0 /\
    generation s ∈ cancelled s' /\
    ds_receivers (shared s')
    = (fun k => k <| kr_available := false |>) <$> ds_receivers (shared s) /\
    queue s' = queue s ++ [Started (generation s + 1)].
Proof. apply network_change_rows. Qed.

(** ** Where the task departs from its description *)

(** The task marks whatever is in the control slot as seen when it first runs:
    an edge published before that, a shutdown included, is never acted on. *)
Theorem early_edge_is_swallowed (policy : RetryPolicy) (c : DiscoveryControl) :
  match run policy start [Requested c; Proceed; Proceed; Browsed (Ok tt) 0 0] with
  | Some s => pc s = PSelect /\ w_value (watch s) = Some c /\ step policy s Control = None
  | None => False
  end.
Proof. vm_compute. done. Qed.

(** A second network change during the settle starts the next generation at
    once, not two seconds after it. *)
Theorem second_change_skips_the_settle (policy : RetryPolicy) (s : Supervisor) :
  pc s = PSettle ->
  exists s', run policy s [Requested RestartAfterNetworkChange; Control] = Some s' /\
    pc s' = PStart.
Proof.
  intros Hpc. eexists. split; [|shelve]. cbn. rewrite Hpc. reflexivity. Unshelve. done.
Qed.

(** While the consumer leaves the queue full, the task opens one generation
    after the other without looking at its control channel: a pending shutdown
    does not end it. *)
Theorem full_queue_hides_shutdown (policy : RetryPolicy) (s : Supervisor) (n : nat) :
  pc s = PStart -> queue_closed s = false -> (SUPERVISOR_CAPACITY <= length (queue s))%nat ->
  w_value (watch s) = Some Shutdown -> w_changed (watch s) = true ->
  step policy s Control = None /\
  exists s', run policy s (repeat Proceed n) = Some s' /\
    pc s' = PStart /\ queue s' = queue s /\ watch s' = watch s.
Proof.
  intros Hpc Hq Hl Hv Hch. split.
  { cbn. unfold next_control. rewrite Hch. cbn. by rewrite Hpc. }
  revert s Hpc Hq Hl Hv Hch. induction n as [|n IH]; intros s Hpc Hq Hl Hv Hch; [by exists s|].
  cbn [repeat run]. assert (Hs : exists s1, step policy s Proceed = Some s1 /\ pc s1 = PStart /\
    queue_closed s1 = false /\ queue s1 = queue s /\ watch s1 = watch s).
  { cbn [step]. rewrite Hpc. eexists. split; [reflexivity|]. unfold begin_generation.
    match goal with |- context [push_update ?t ?u] =>
      destruct (push_cases t u) as [[Hc _]|[[Hroom _]|[_ ->]]] end.
    - cbn in Hc. congruence.
    - cbn [queue] in Hroom. change (length (queue s) < SUPERVISOR_CAPACITY)%nat in Hroom. lia.
    - done. }
  destruct Hs as (s1 & -> & H1 & H2 & H3 & H4). cbn [mbind option_bind].
  destruct (IH s1) as (s' & Hr & Hp & Hq' & Hw); [done|done|by rewrite H3|congruence|congruence|].
  exists s'. rewrite Hq', Hw. auto.
Qed.

(** With the sender gone, the channel answers its last value for ever: after a
    network change that is a restart, not the end of the task. *)
Theorem closed_control_repeats_last_edge (w : Watch) :
  let w' := drop_sender (borrow_and_update (request_control w RestartAfterNetworkChange)) in
  next_control w' = Some (Some RestartAfterNetworkChange, w') /\
  on_control (Some RestartAfterNetworkChange) = NetworkChanged.
Proof. done. Qed.

(** ** Witnesses *)

Definition kitchen : Device := example_device (MkDeviceId 1 2 3 4 5 6) (lit "Kitchen").

Definition browsing_inputs : list Input :=
  [Proceed; Proceed; Browsed (Ok tt) 0 0; Item (Some (Ok (Added kitchen))) 0 0].
Definition browsing : Supervisor :=
  default start (run default_policy start browsing_inputs).

Lemma browsing_reached : run default_policy start browsing_inputs = Some browsing.
Proof. vm_compute. reflexivity. Qed.
Lemma browsing_pc : pc browsing = PSelect.
Proof. vm_compute. reflexivity. Qed.

#[local] Opaque browsing.

Lemma consumer_can_replay_inventory_witness :
  run default_policy start browsing_inputs = Some browsing /\ pc browsing = PSelect /\
  exists base es, all_unknown base /\ ds_receivers (shared browsing) = fold_left fold_event es base.
Proof.
  split; [exact browsing_reached|]. split; [exact browsing_pc|].
  destruct (consumer_can_replay_inventory default_policy browsing_inputs browsing
              ltac:(vm_compute; reflexivity) browsing_reached) as (_ & _ & H).
  destruct (H browsing_pc) as (base & es & Hb & Hr & _). exists base, es. split; [exact Hb|exact Hr].
Defined.

(** A supervisor parked in a browse of generation one that knows one receiver. *)
Definition parked (c : option DiscoveryControl) : Supervisor :=
  {| pc := PSelect; generation := 1; failures := 2; preserve_unknown := false;
     shared := {| ds_generation := 1; ds_phase := Running;
                  ds_receivers := {[ dev_id kitchen := known_of kitchen ]}; ds_child := Some 1 |};
     cancelled := ∅;
     watch := {| w_value := c; w_changed := negb (is_none c); w_closed := false |};
     queue := [Started 1; Receiver 1 (Added kitchen)]; queue_closed := false;
     received := []; cell := 1; emitted := [] |}.

Lemma shutdown_stops_the_task_witness :
  exists s', step default_policy (parked (Some Shutdown)) Control = Some s' /\
    pc s' = PStopped /\ 1 ∈ cancelled s'.
Proof.
  destruct (shutdown_stops_the_task default_policy (parked (Some Shutdown)))
    as (s' & Hs & Hp & _ & _ & Hc & _); [exact I|reflexivity|reflexivity|].
  exists s'. split; [exact Hs|]. split; [exact Hp|]. apply Hc. reflexivity.
Defined.

Lemma network_change_keeps_rows_unknown_witness :
  exists s', run default_policy (parked None)
               [Requested RestartAfterNetworkChange; Control; TimerFired; Proceed] = Some s' /\
    generation s' = 2.
Proof.
  destruct (network_change_keeps_rows_unknown default_policy (parked None))
    as (s' & Hr & _ & Hgen & _);
    [reflexivity|reflexivity|vm_compute; lia|reflexivity|cbn; lia|].
  exists s'. split; [exact Hr|]. rewrite Hgen. reflexivity.
Defined.

End Discovery.
