(* ===== verification/Inventory.v ===== *)
(** * From announcements to the inventory

    The composition of the browser ([Browser]), the supervisor's inventory
    ([Discovery]) and the copy the controller keeps of it
    ([apps/openaircast/src/backend/controller.rs], the inventory half of
    [apply_discovery_update]): which announced receivers the rest of the program
    sees, and where the copies part. *)

From Stdlib Require Import String.
From S2P Require Import Prelude AppState Model Wire Text Features Device TxtParser Browser Recovery Discovery.
Import Model Device TxtParser Browser Recovery Discovery.

Module Inventory.

(** ** The browse stream

    The [select!] loop of [ServiceBrowser::browse]: each event of either
    service is handled on the shared index, and what it implies is yielded.
    [None] is a panic of the record parser. *)

Fixpoint browse_stream (uuid_parse : text -> option Uuid) (ix : ServiceIndex)
    (items : list (ServiceKind * ServiceEvent)) : option (ServiceIndex * list BrowseEvent) :=
  match items with
  | [] => Some (ix, [])
  | (kind, event) :: rest =>
      '(ix1, yielded) ← handle_service_event uuid_parse event kind ix;
      '(ix2, events) ← browse_stream uuid_parse ix1 rest;
      Some (ix2, option_list yielded ++ events)
  end.

(** ** The controller's copy *)

Record InventoryEntry := {
  ie_name : text;
  ie_castable : bool;
  ie_available : bool;
  ie_device : option Device;
}.
#[export] Instance eta_InventoryEntry : Eta InventoryEntry := fun e =>
  {| ie_name := ie_name e; ie_castable := ie_castable e; ie_available := ie_available e;
     ie_device := ie_device e |}.

Record Mirror := { seen_discovery_generation : Z; inventory : gmap ReceiverId InventoryEntry }.

Definition mirror_event (inv : gmap ReceiverId InventoryEntry) (event : BrowseEvent)
  : gmap ReceiverId InventoryEntry :=
  match event with
  | Added d | Updated d =>
      <[dev_id d := {| ie_name := dev_name d; ie_castable := device_is_castable d;
                       ie_available := true; ie_device := Some d |}]> inv
  | Removed id => alter (fun e => e <| ie_available := false |>) id inv
  end.

Definition apply_discovery_update (m : Mirror) (update : DiscoveryUpdate) : Mirror :=
  match update with
  | Started g =>
      {| seen_discovery_generation := Z.max g (seen_discovery_generation m);
         inventory := inventory m |}
  | Receiver g event =>
      if g <? seen_discovery_generation m then m
      else {| seen_discovery_generation := seen_discovery_generation m;
              inventory := mirror_event (inventory m) event |}
  | Failed _ _ _ => m
  end.

(** [ControllerActor::castable] *)
Definition castable (m : Mirror) (id : ReceiverId) : bool :=
  match inventory m !! id with Some e => ie_available e && ie_castable e | None => false end.

(** ** Announced receivers are shown *)

(** The identity a RAOP service name carries. *)
Definition raop_identity (fullname : text) : option (Result DeviceId ParseError) :=
  match split_once 64 (default fullname (head (split 46 fullname))) with
  | Some (mac, _) => from_mac_string mac
  | None => None
  end.

Lemma raop_device_identity uuid_parse info d :
  parse_service_event uuid_parse info Raop = Some (Some d) ->
  raop_identity (info_fullname info) = Some (Ok (dev_id d)).
Proof.
  unfold parse_service_event, parse_raop_txt, raop_identity.
  destruct (info_addresses info) as [|a l]; [done|].
  destruct (split_once 64 _) as [[mac rest]|]; [|by intros [=]].
  destruct (from_mac_string mac) as [[id|e]|]; cbn [mbind option_bind];
    [|discriminate|discriminate].
  set (txt := txt_of _). rewrite !optional_total.
  destruct (optional_field (get txt "pk") parse_public_key) as [pk|];
    destruct (is_none (get txt "ft")), (is_none (get txt "vs")); cbn [mbind option_bind];
    intros H; try discriminate H; by injection H as <-.
Qed.

Record shows (ix : ServiceIndex) (rows : gmap ReceiverId KnownReceiver) : Prop := {
  shown : forall r s, resolvers ix !! r = Some s -> airplay s <> None ->
    rows !! r = known_of <$> merged s;
  own_names : forall name r, service_to_receiver ix !! (Raop, name) = Some r ->
    raop_identity name = Some (Ok r);
  keyed : forall r s kind d, resolvers ix !! r = Some s -> slot s kind = Some d -> dev_id d = r;
}.

Lemma merged_id r s m :
  (forall kind d, slot s kind = Some d -> dev_id d = r) -> merged s = Some m -> dev_id m = r.
Proof.
  intros H. unfold merged.
  pose proof (fun d => H AirPlay d) as Ha. pose proof (fun d => H Raop d) as Hr. cbn in Ha, Hr.
  destruct (airplay s) as [a|], (raop s) as [b|]; intros [= <-]; cbn; auto.
Qed.

(** What a row of the index becomes when one of its services goes. *)
Lemma clear_lookup rs p key r s :
  clear_service_slot rs p key !! r = Some s ->
  (r <> p /\ rs !! r = Some s) \/
  (r = p /\ exists s0, rs !! r = Some s0 /\ s = set_slot s0 (fst key) None).
Proof.
  unfold clear_service_slot. destruct (rs !! p) as [s0|] eqn:E.
  - cbn zeta. destruct (_ && _).
    + intros [? ?]%lookup_delete_Some. auto.
    + intros [[<- <-]|[? ?]]%lookup_insert_Some; eauto 6.
  - intros H. left. split; [|done]. intros ->. congruence.
Qed.

Lemma set_slot_keyed (r : DeviceId) s k o :
  (forall kind d, slot s kind = Some d -> dev_id d = r) ->
  (forall d, o = Some d -> dev_id d = r) ->
  forall kind d, slot (set_slot s k o) kind = Some d -> dev_id d = r.
Proof.
  intros H Ho kind d. rewrite slot_set_slot. destruct (decide (k = kind)) as [->|]; eauto.
Qed.

Lemma clear_keyed rs p key :
  (forall r s kind d, rs !! r = Some s -> slot s kind = Some d -> dev_id d = r) ->
  forall r s kind d, clear_service_slot rs p key !! r = Some s -> slot s kind = Some d ->
    dev_id d = r.
Proof.
  intros H r s kind d [[_ Hs]|(-> & s0 & Hs & ->)]%clear_lookup.
  - by apply H.
  - by apply set_slot_keyed; [intros; eapply H|].
Qed.

(** Clearing a slot hides nothing when it is an AirPlay slot. *)
Lemma clear_airplay_shown rs (rows : gmap ReceiverId KnownReceiver) p name :
  (forall r s, rs !! r = Some s -> airplay s <> None -> rows !! r = known_of <$> merged s) ->
  forall r s, clear_service_slot rs p (AirPlay, name) !! r = Some s -> airplay s <> None ->
    rows !! r = known_of <$> merged s.
Proof.
  intros H r s [[_ Hs]|(-> & s0 & Hs & ->)]%clear_lookup Ha; [by apply H|]. by cbn in Ha.
Qed.

Lemma upsert_shows ix rows kind name d :
  shows ix rows -> (kind = Raop -> raop_identity name = Some (Ok (dev_id d))) ->
  let '(ix', yielded) := upsert ix (kind, name) d in
  shows ix' (fold_left fold_event (option_list yielded) rows).
Proof.
  intros [Hs Hn Hk] Hraop. unfold upsert. fold (detached ix (kind, name) (dev_id d)).
  set (rs := detached ix (kind, name) (dev_id d)).
  assert (Hrs : (forall r s, rs !! r = Some s -> airplay s <> None ->
                   rows !! r = known_of <$> merged s) /\
                (forall r s kind d, rs !! r = Some s -> slot s kind = Some d -> dev_id d = r)).
  { subst rs. unfold detached. destruct (service_to_receiver ix !! (kind, name)) as [p|] eqn:E;
      [|done]. case_bool_decide as Hp; [done|]. destruct kind.
    - split; [by apply clear_airplay_shown|by apply clear_keyed].
    - pose proof (Hn name p E). rewrite Hraop in H by done. congruence. }
  clearbody rs. destruct Hrs as [Hshow Hkey].
  set (s' := set_slot (default empty_services (rs !! dev_id d)) (fst (kind, name)) (Some d)).
  assert (Hs' : forall k x, slot s' k = Some x -> dev_id x = dev_id d).
  { apply set_slot_keyed; [|by intros x [= ->]].
    intros k x. destruct (rs !! dev_id d) as [s0|] eqn:E0; cbn.
    - by apply Hkey.
    - by destruct k. }
  destruct (merged s') as [m|] eqn:Em.
  2:{ apply merged_None in Em as [Ha Hr]. exfalso. subst s'. by destruct kind. }
  pose proof (merged_id _ _ _ Hs' Em) as Hid.
  assert (Hrow : fold_left fold_event
            (option_list (m0 ← Some m; Some (if negb (is_none (rs !! dev_id d))
                                             then Updated m0 else Added m0))) rows
          = <[dev_id d := known_of m]> rows).
  { cbn. destruct (negb _); cbn; by rewrite Hid. }
  rewrite Hrow. split; cbn [resolvers service_to_receiver].
  - intros r s [[<- <-]|[Hne Hr]]%lookup_insert_Some Ha.
    + rewrite lookup_insert_eq. fold s'. by rewrite Em.
    + rewrite lookup_insert_ne by done. by apply Hshow.
  - intros name' r [[[= -> ->] <-]|[_ Hl]]%lookup_insert_Some; [by apply Hraop|by apply Hn].
  - intros r s k x [[<- <-]|[Hne Hr]]%lookup_insert_Some Hx; [by apply (Hs' k)|by eapply Hkey].
Qed.

Lemma removal_shows ix rows key :
  shows ix rows ->
  let '(ix', yielded) := removal_event ix key in
  shows ix' (fold_left fold_event (option_list yielded) rows).
Proof.
  intros [Hs Hn Hk]. unfold removal_event, resolve, remove.
  destruct (service_to_receiver ix !! key) as [p|] eqn:E; [|by split].
  cbn [fst]. destruct key as [kind name].
  assert (Hn' : forall name' r, delete (kind, name) (service_to_receiver ix) !! (Raop, name')
                = Some r -> raop_identity name' = Some (Ok r)).
  { intros name' r [_ Hl]%lookup_delete_Some. by apply Hn. }
  pose proof (clear_keyed (resolvers ix) p (kind, name) Hk) as Hk'.
  destruct kind; cbn [fst].
  - split; cbn [resolvers service_to_receiver option_list fold_left]; [|done|done].
    intros r s Hr Ha. cbn. destruct (decide (r = p)) as [->|Hne].
    + apply clear_lookup in Hr as [[? _]|(_ & s0 & _ & ->)]; [done|]. by cbn in Ha.
    + rewrite lookup_alter_ne by done.
      by apply (clear_airplay_shown _ rows p name Hs r s).
  - unfold device. cbn [resolvers].
    destruct (clear_service_slot (resolvers ix) p (Raop, name) !! p) as [sp|] eqn:Ep;
      cbn [mbind option_bind].
    2:{ split; cbn [resolvers service_to_receiver option_list fold_left]; [|done|done].
        intros r s Hr Ha. destruct (decide (r = p)) as [->|Hne]; [congruence|].
        apply clear_lookup in Hr as [[_ Hr]|[? _]]; [by apply Hs|done]. }
    destruct (merged sp) as [m|] eqn:Em; cbn [mbind option_bind option_list fold_left].
    + assert (Hid : dev_id m = p) by (eapply merged_id; [intros; by eapply Hk'|done]).
      split; cbn [resolvers service_to_receiver]; [|done|done].
      intros r s Hr Ha. cbn. rewrite Hid. destruct (decide (r = p)) as [->|Hne].
      * rewrite lookup_insert_eq. assert (s = sp) as -> by congruence. by rewrite Em.
      * rewrite lookup_insert_ne by done.
        apply clear_lookup in Hr as [[_ Hr]|[? _]]; [by apply Hs|done].
    + split; cbn [resolvers service_to_receiver]; [|done|done].
      intros r s Hr Ha. destruct (decide (r = p)) as [->|Hne].
      * assert (s = sp) as -> by congruence. apply merged_None in Em as [? _]. done.
      * apply clear_lookup in Hr as [[_ Hr]|[? _]]; [by apply Hs|done].
Qed.

Lemma handle_shows uuid_parse event kind ix rows ix' yielded :
  shows ix rows -> handle_service_event uuid_parse event kind ix = Some (ix', yielded) ->
  shows ix' (fold_left fold_event (option_list yielded) rows).
Proof.
  intros Hs. unfold handle_service_event. destruct event as [info|fullname| | |].
  - destruct (parse_service_event uuid_parse info kind) as [[d|]|] eqn:Ep;
      cbn [mbind option_bind]; [|by intros [= <- <-]|done].
    intros Hu%(inj Some). pose proof (upsert_shows ix rows kind (info_fullname info) d Hs) as H.
    rewrite Hu in H. apply H. intros ->. by eapply raop_device_identity.
  - intros Hu%(inj Some). pose proof (removal_shows ix rows (kind, fullname) Hs) as H.
    by rewrite Hu in H.
  - by intros [= <- <-].
  - by intros [= <- <-].
  - by intros [= <- <-].
Qed.

Lemma stream_shows uuid_parse items ix rows ix' events :
  shows ix rows -> browse_stream uuid_parse ix items = Some (ix', events) ->
  shows ix' (fold_left fold_event events rows).
Proof.
  revert ix rows events. induction items as [|[kind event] items IH]; intros ix rows events Hs; cbn.
  - by intros [= <- <-].
  - destruct (handle_service_event _ _ _ _) as [[ix1 yielded]|] eqn:Eh; cbn; [|done].
    destruct (browse_stream _ ix1 items) as [[ix2 evs]|] eqn:Eb; cbn; [|done].
    intros [= <- <-]. rewrite fold_left_app. apply (IH ix1); [|done].
    by eapply handle_shows.
Qed.

(** Feed the browser any sequence of mDNS events of both services, and an
    inventory with every event the browser yields.  Each receiver whose index
    row holds an AirPlay record is then a row of the inventory, available, and
    with the name, model and castability of the merged record the browser would
    return for it: no announcement is lost between the two. *)
Theorem announced_receivers_are_shown (uuid_parse : text -> option Uuid)
    (items : list (ServiceKind * ServiceEvent)) (ix : ServiceIndex)
    (events : list BrowseEvent) (r : DeviceId) :
  browse_stream uuid_parse empty_index items = Some (ix, events) ->
  Browser.is_castable ix r = true ->
  exists d, Browser.device ix r = Some d /\ dev_id d = r /\
    fold_left fold_event events ∅ !! r = Some (known_of d).
Proof.
  intros Hrun Hc. assert (H0 : shows empty_index ∅).
  { split; cbn; intros *; rewrite lookup_empty; done. }
  pose proof (stream_shows _ _ _ _ _ _ H0 Hrun) as [Hs _ Hk].
  unfold Browser.is_castable in Hc. unfold Browser.device.
  destruct (resolvers ix !! r) as [s|] eqn:E; [|done]. cbn [mbind option_bind].
  assert (Ha : airplay s <> None) by (by destruct (airplay s)).
  destruct (merged s) as [m|] eqn:Em; [|by apply merged_None in Em as [? _]].
  exists m. split; [done|]. split; [eapply merged_id; [intros; by eapply Hk|done]|].
  by rewrite (Hs r s E Ha), Em.
Qed.

(** ** Where the copies part *)

Definition about (r : ReceiverId) (u : DiscoveryUpdate) : bool :=
  match u with Receiver _ e => bool_decide (event_device_id e = r) | _ => false end.

(** The controller's copy changes a receiver only for an event that names it:
    neither a new generation nor a failure invalidates what it believes. *)
Lemma mirror_unmentioned us m r :
  forallb (fun u => negb (about r u)) us = true ->
  inventory (fold_left apply_discovery_update us m) !! r = inventory m !! r.
Proof.
  revert m. induction us as [|u us IH]; intros m; cbn; [done|].
  intros [Hu Hus]%andb_true_iff. rewrite IH by done.
  destruct u as [g|g e|g error at_]; cbn; [done| |done]. destruct (g <? _); [done|]. cbn.
  cbn in Hu. apply negb_true_iff, bool_decide_eq_false in Hu.
  destruct e as [d|d|id]; cbn in *.
  - by rewrite lookup_insert_ne.
  - by rewrite lookup_insert_ne.
  - by rewrite lookup_alter_ne.
Qed.

(** After a network change the supervisor holds every receiver as unknown; the
    controller, which gets the same updates, still offers every receiver it
    offered before, as long as the new generations say nothing about it. *)
Theorem controller_misses_network_change (policy : RetryPolicy) (s s' : Supervisor) (m : Mirror)
    (r : ReceiverId) :
  pc s = PSelect -> queue_closed s = false ->
  (length (queue s) < SUPERVISOR_CAPACITY)%nat ->
  ds_generation (shared s) = generation s -> 0 <= generation s < 2 ^ 64 - 1 ->
  run policy s [Requested RestartAfterNetworkChange; Control; TimerFired; Proceed] = Some s' ->
  castable (fold_left apply_discovery_update (queue s) m) r = true ->
  castable (fold_left apply_discovery_update (queue s') m) r = true /\
  all_unknown (ds_receivers (shared s')).
Proof.
  intros Hpc Hq Hl Hg Hb Hrun Hc.
  destruct (network_change_rows policy s Hpc Hq Hl Hg Hb)
    as (s1 & Hrun' & _ & _ & _ & _ & Hrows & Hqueue).
  assert (s1 = s') as -> by congruence. split.
  - rewrite Hqueue, fold_left_app. exact Hc.
  - rewrite Hrows. apply all_unknown_mark.
Qed.

(** A record of the RAOP service alone can make a receiver castable, and when
    that service goes nothing is reported: the inventory keeps a castable
    receiver the browser no longer knows. *)
Definition raop_info : ServiceInfo :=
  {| info_fullname := lit "5855CA1AE288@Kitchen._raop._tcp.local."; info_port := 7000;
     info_addresses := [V4 [10; 0; 0; 7]];
     info_properties := [(lit "ft", lit "0x0,0x300"); (lit "vs", lit "366.0")] |}.

Theorem vanished_raop_receiver_stays_castable :
  let r := MkDeviceId 0x58 0x55 0xCA 0x1A 0xE2 0x88 in
  match browse_stream (fun _ => None) empty_index
          [(Raop, ServiceResolved raop_info);
           (Raop, ServiceRemoved (info_fullname raop_info))] with
  | Some (ix, events) =>
      receiver_count ix = 0%nat /\ Browser.contains ix r = false /\
      match fold_left fold_event events ∅ !! r with
      | Some k => kr_available k = true /\ kr_castable k = true
      | None => False
      end
  | None => False
  end.
Proof. vm_compute. repeat split; reflexivity. Qed.

(** A display name is cut at its first dot. *)
Definition dotted_info : ServiceInfo :=
  {| info_fullname := lit "Dr. Smith._airplay._tcp.local."; info_port := 7000;
     info_addresses := [V4 [10; 0; 0; 7]];
     info_properties := [(lit "deviceid", lit "58:55:CA:1A:E2:88")] |}.

Lemma dotted_name_is_cut :
  match parse_service_event (fun _ => None) dotted_info AirPlay with
  | Some (Some d) => dev_name d = lit "Dr"
  | _ => False
  end.
Proof. vm_compute. reflexivity. Qed.

Definition dotted_run : ServiceIndex * list BrowseEvent :=
  default (empty_index, [])
    (browse_stream (fun _ => None) empty_index [(AirPlay, ServiceResolved dotted_info)]).
Lemma dotted_run_reached :
  browse_stream (fun _ => None) empty_index [(AirPlay, ServiceResolved dotted_info)]
  = Some (fst dotted_run, snd dotted_run).
Proof. vm_compute. reflexivity. Qed.
Lemma dotted_castable :
  Browser.is_castable (fst dotted_run) (MkDeviceId 0x58 0x55 0xCA 0x1A 0xE2 0x88) = true.
Proof. vm_compute. reflexivity. Qed.
#[local] Opaque dotted_run.

Lemma announced_receivers_are_shown_witness :
  exists d, fold_left fold_event (snd dotted_run) ∅ !! MkDeviceId 0x58 0x55 0xCA 0x1A 0xE2 0x88
            = Some (known_of d).
Proof.
  destruct (announced_receivers_are_shown _ _ _ _ _ dotted_run_reached dotted_castable)
    as (d & _ & _ & Hd).
  exists d. exact Hd.
Defined.

End Inventory.
