(* ===== verification/Group.v ===== *)
(** * Groups of receivers

    [crates/airplay-client/src/group.rs]: group membership, the phases and
    failures of a group connect, the primary rule, failure classification; and
    the parts of [client.rs] that map calibration delays onto targets and build
    peer lists.  A [HashMap] is a [gmap]; lists built by iterating it are in
    the map's order, which the program leaves open. *)

From Stdlib Require Import String.
From S2P Require Import Prelude Float32 AppState Model Wire Text Device Calibration.
Import Model Device.

Module Group.

Inductive Error :=
| EDiscovery (message : text)
| EConnection (message : text)
| EPairing (message : text)
| ERtsp (message : text)
| EStreaming (message : text)
| ECrypto (message : text)
| EParse (message : text)
| EUnsupportedFeature (feature : text)
| EMfiRequired
| ETimeout.

(** ** Printed addresses *)

Fixpoint hex_loop (fuel : nat) (n : Z) (acc : text) : text :=
  match fuel with
  | O => acc
  | S fuel =>
      let d := n mod 16 in
      let acc := (if d <? 10 then 48 + d else 87 + d) :: acc in
      if n <? 16 then acc else hex_loop fuel (n / 16) acc
  end.
(** [{:x}] of a [u16] *)
Definition hex16 (n : Z) : text := hex_loop 4 n [].

(** The first longest run of zeros: its start and length. *)
Fixpoint zero_run (i start len best_start best_len : nat) (segments : list Z) : nat * nat :=
  match segments with
  | [] => (best_start, best_len)
  | s :: rest =>
      if s =? 0 then
        let start := if (len =? 0)%nat then i else start in
        let len := S len in
        if (best_len <? len)%nat then zero_run (S i) start len start len rest
        else zero_run (S i) start len best_start best_len rest
      else zero_run (S i) 0 0 best_start best_len rest
  end.

Definition segments_text (segments : list Z) : text := join [58] (hex16 <$> segments).
Definition octets_text (octets : list Z) : text := join [46] (decimal <$> octets).

(** [IpAddr]'s [Display] *)
Definition addr_to_string (addr : IpAddr) : text :=
  match addr with
  | V4 octets => octets_text octets
  | V6 segments =>
      match segments with
      | [0; 0; 0; 0; 0; 0xffff; ab; cd] =>
          lit "::ffff:" ++ octets_text [ab / 256; ab mod 256; cd / 256; cd mod 256]
      | _ =>
          let '(start, len) := zero_run 0 0 0 0 0 segments in
          if (1 <? len)%nat
          then segments_text (take start segments) ++ lit "::"
               ++ segments_text (drop (start + len) segments)
          else segments_text segments
      end
  end.

(** ** Membership *)

Record GroupMember := { member_device : Device; member_volume : f32; member_is_leader : bool }.

(** The UUID identifies the group to nobody here and is left out. *)
Record DeviceGroup := { group_members : gmap DeviceId GroupMember; group_leader_id : DeviceId }.

Definition new_group (leader : Device) : DeviceGroup :=
  {| group_members :=
       {[ dev_id leader := {| member_device := leader; member_volume := f32_one;
                              member_is_leader := true |} ]};
     group_leader_id := dev_id leader |}.

Definition add_member (g : DeviceGroup) (d : Device) : DeviceGroup :=
  if is_none (group_members g !! dev_id d)
  then {| group_members :=
            <[dev_id d := {| member_device := d; member_volume := f32_one;
                             member_is_leader := false |}]> (group_members g);
          group_leader_id := group_leader_id g |}
  else g.

Definition remove_member (g : DeviceGroup) (id : DeviceId) : Result DeviceGroup Error :=
  if bool_decide (id = group_leader_id g)
  then Err (ERtsp (lit "Setup failed: Cannot remove group leader"))
  else Ok {| group_members := delete id (group_members g);
             group_leader_id := group_leader_id g |}.

Definition member_count (g : DeviceGroup) : nat := size (group_members g).
(** [&self.members[&self.leader_id]]: a missing key panics. *)
Definition leader (g : DeviceGroup) : option GroupMember := group_members g !! group_leader_id g.

Definition set_member_volume (g : DeviceGroup) (id : DeviceId) (volume : f32)
  : Result DeviceGroup Error :=
  match group_members g !! id with
  | Some m =>
      Ok {| group_members :=
              <[id := {| member_device := member_device m;
                         member_volume := f32_clamp volume f32_zero f32_one;
                         member_is_leader := member_is_leader m |}]> (group_members g);
            group_leader_id := group_leader_id g |}
  | None => Err (EDiscovery (lit "Device not found: " ++ to_mac_string id))
  end.

Definition not_link_local (addr : IpAddr) : bool :=
  match addr with
  | V6 segments => negb (default 0 (head segments) =? 0xfe80)
  | V4 _ => true
  end.

Definition peer_addresses (g : DeviceGroup) : list text :=
  '(_, m) ← map_to_list (group_members g);
  addr_to_string <$> List.filter not_link_local (dev_addresses (member_device m)).

(** ** Phases and failures *)

Inductive SetupPhase :=
| Connect | Pair | PrimaryTiming | RtspSetup | SetPeers | BuildSender | StartAudio.

Definition is_retryable (p : SetupPhase) : bool :=
  match p with
  | Connect | PrimaryTiming | SetPeers | StartAudio => true
  | Pair | RtspSetup | BuildSender => false
  end.

Record MemberFailure := {
  failure_receiver : DeviceId;
  failure_phase : SetupPhase;
  failure_retryable : bool;
  failure_source : Error;
}.

Definition member_failure (receiver : DeviceId) (phase : SetupPhase) (source : Error)
  : MemberFailure :=
  {| failure_receiver := receiver; failure_phase := phase;
     failure_retryable := is_retryable phase; failure_source := source |}.

Definition classify_connect_failure (receiver : DeviceId) (source : Error) : MemberFailure :=
  let phase := match source with
               | EPairing _ | ECrypto _ | EMfiRequired => Pair
               | _ => Connect
               end in
  {| failure_receiver := receiver; failure_phase := phase;
     failure_retryable := is_retryable phase; failure_source := source |}.

Definition classify_runtime_failure (receiver : DeviceId) (source : Error) : MemberFailure :=
  {| failure_receiver := receiver; failure_phase := StartAudio;
     failure_retryable := is_retryable StartAudio; failure_source := source |}.

Record GroupConnectReport := {
  report_primary : option DeviceId;
  report_connected : list DeviceId;
  report_failures : list MemberFailure;
}.

(** [devices[..index].iter().any(|other| other.id == device.id)] *)
Fixpoint find_duplicate_from (seen : list DeviceId) (devices : list Device) : option DeviceId :=
  match devices with
  | [] => None
  | d :: rest =>
      if bool_decide (dev_id d ∈ seen) then Some (dev_id d)
      else find_duplicate_from (seen ++ [dev_id d]) rest
  end.
Definition find_duplicate_member (devices : list Device) : option DeviceId :=
  find_duplicate_from [] devices.

(** ** The primary *)

(** [min_by_key(|device| device.id.0)]: the first of the smallest. *)
Fixpoint min_by_id (devices : list Device) : option Device :=
  match devices with
  | [] => None
  | d :: rest =>
      match min_by_id rest with
      | Some m => if device_leb (dev_id d) (dev_id m) then Some d else Some m
      | None => Some d
      end
  end.

Definition choose_primary (healthy_members : list Device) (preferred : option DeviceId)
  : option Device :=
  let ptp_capable := List.filter supports_ptp healthy_members in
  match (id ← preferred; List.find (fun d => bool_decide (dev_id d = id)) ptp_capable) with
  | Some d => Some d
  | None => min_by_id ptp_capable
  end.

Definition build_peer_addresses (members : list Device) (local : option text) : list text :=
  let peers := omap (fun d => addr_to_string <$> List.find is_ipv4 (dev_addresses d)) members in
  match local with
  | Some l => if bool_decide (l ∈ peers) then peers else peers ++ [l]
  | None => peers
  end.

(** ** Delays by target *)

Definition count_text (n : nat) : text := decimal (Z.of_nat n).

(** The loop of [map_presentation_delays_for]: the delays and how many are
    missing. *)
Definition collect_delays (targets : list DeviceId) (effective : gmap DeviceId Z) : list Z * nat :=
  fold_left (fun '(delays, missing) receiver =>
               match effective !! receiver with
               | Some delay => (delays ++ [delay], missing)
               | None => (delays ++ [0], S missing)
               end) targets ([], O).

Definition map_presentation_delays_for (targets : list DeviceId) (effective : gmap DeviceId Z)
  : Result (list Z) Error :=
  let '(delays, missing) := collect_delays targets effective in
  if (0 <? missing)%nat then
    Err (ERtsp (lit "Setup failed: calibration is missing an entry for " ++ count_text missing
                ++ lit " of " ++ count_text (length targets) ++ lit " connected receiver(s)"))
  else if negb (size effective =? length targets)%nat then
    Err (ERtsp (lit "Setup failed: calibration carries " ++ count_text (size effective)
                ++ lit " entries for " ++ count_text (length targets)
                ++ lit " connected receiver(s)"))
  else Ok delays.

(** [transport.rs]: normalize for exactly the receivers that connected, dropping
    a reference that did not. *)
Definition presentation_delays_for (connected : list DeviceId)
    (calibration : Calibration.CalibrationProfile)
  : Result (gmap DeviceId Z) Calibration.CalibrationError :=
  let active : gset DeviceId := list_to_set connected in
  let anchored :=
    {| Calibration.reference_receiver :=
         reference ← Calibration.reference_receiver calibration;
         (if bool_decide (reference ∈ active) then Some reference else None);
       Calibration.requested_relative_delay_ns :=
         Calibration.requested_relative_delay_ns calibration |} in
  let? effective := Calibration.normalize_calibration active anchored in
  Ok (Calibration.effective_delays_by_device effective).

(** ** Membership laws *)

Definition group_ok (g : DeviceGroup) : Prop :=
  (exists m, leader g = Some m /\ member_is_leader m = true) /\
  (forall id m, group_members g !! id = Some m ->
     dev_id (member_device m) = id /\ (member_is_leader m = true <-> id = group_leader_id g)).

Lemma new_group_ok d : group_ok (new_group d).
Proof.
  split; [eexists; split; [apply lookup_singleton_eq|done]|].
  intros id m H. cbn [new_group group_members] in H.
  apply lookup_singleton_Some in H as [<- <-]. done.
Qed.

Lemma add_member_ok g d : group_ok g -> group_ok (add_member g d).
Proof.
  intros [(l & Hl & Hll) Hm]. unfold add_member.
  destruct (group_members g !! dev_id d) as [m|] eqn:E; cbn; [split; eauto|].
  assert (Hne : dev_id d <> group_leader_id g) by (intros He; unfold leader in Hl; congruence).
  split; unfold leader; cbn.
  - exists l. by rewrite lookup_insert_ne.
  - intros id m [[<- <-]|[_ Hid]]%lookup_insert_Some; [cbn; naive_solver|by apply Hm].
Qed.

Lemma remove_member_ok g id g' :
  group_ok g -> remove_member g id = Ok g' -> group_ok g' /\ group_members g' !! id = None.
Proof.
  intros [(l & Hl & Hll) Hm]. unfold remove_member. case_bool_decide; [done|].
  intros [= <-]. cbn. split; [|apply lookup_delete_eq]. split; unfold leader; cbn.
  - exists l. by rewrite lookup_delete_ne.
  - intros id' m [_ Hid]%lookup_delete_Some. by apply Hm.
Qed.

Lemma set_member_volume_ok g id v g' :
  group_ok g -> set_member_volume g id v = Ok g' ->
  group_ok g' /\ exists m, group_members g' !! id = Some m /\
    member_volume m = f32_clamp v f32_zero f32_one.
Proof.
  intros [(l & Hl & Hll) Hm]. unfold set_member_volume.
  destruct (group_members g !! id) as [m|] eqn:E; [|done]. intros [= <-]. cbn.
  split; [|eexists; split; [apply lookup_insert_eq|done]].
  destruct (Hm id m E) as [H1 H2]. split; unfold leader in *; cbn.
  - destruct (decide (id = group_leader_id g)) as [->|Hne].
    + rewrite lookup_insert_eq. eexists. split; [done|]. cbn. by apply H2.
    + rewrite lookup_insert_ne by done. eauto.
  - intros id' m' [[<- <-]|[_ Hid]]%lookup_insert_Some; [done|by apply Hm].
Qed.

(** ** Duplicates *)

Lemma find_duplicate_from_spec seen devices :
  NoDup seen ->
  match find_duplicate_from seen devices with
  | None => NoDup (seen ++ (dev_id <$> devices))
  | Some id => ~ NoDup (seen ++ (dev_id <$> devices)) /\ id ∈ dev_id <$> devices
  end.
Proof.
  revert seen. induction devices as [|d devices IH]; intros seen Hs; cbn.
  - by rewrite app_nil_r.
  - case_bool_decide as Hin.
    + split; [|set_solver]. rewrite NoDup_app. intros (_ & Hdis & _). by apply (Hdis (dev_id d) Hin); set_solver.
    + specialize (IH (seen ++ [dev_id d])). rewrite <- app_assoc in IH. cbn in IH.
      assert (Hnew : NoDup (seen ++ [dev_id d])).
      { apply NoDup_app. split; [done|]. split; [set_solver|apply NoDup_singleton]. }
      specialize (IH Hnew). destruct (find_duplicate_from _ devices); [|done].
      destruct IH as [? ?]. split; [done|set_solver].
Qed.

Lemma find_duplicate_None devices :
  find_duplicate_member devices = None <-> NoDup (dev_id <$> devices).
Proof.
  pose proof (find_duplicate_from_spec [] devices (NoDup_nil_2)) as H.
  unfold find_duplicate_member. cbn in H. destruct (find_duplicate_from [] devices); naive_solver.
Qed.

(** ** The primary rule *)

Lemma device_leb_antisym x y : device_leb x y = true -> device_leb y x = true -> x = y.
Proof.
  destruct x, y. unfold device_leb. cbn.
  repeat match goal with |- context [?a =? ?b] => destruct (Z.eqb_spec a b) end;
    subst; intros; first [reflexivity | lia].
Qed.

Lemma min_by_id_spec devices :
  match min_by_id devices with
  | Some m => m ∈ devices /\ Forall (fun d => device_leb (dev_id m) (dev_id d) = true) devices
  | None => devices = []
  end.
Proof.
  assert (Hrefl : forall x, device_leb x x = true).
  { intros x. by destruct (device_leb_total x x). }
  induction devices as [|d devices IH]; cbn; [done|].
  destruct (min_by_id devices) as [m|].
  - destruct IH as [Hin Hle]. destruct (device_leb (dev_id d) (dev_id m)) eqn:E.
    + split; [set_solver|]. constructor; [apply Hrefl|].
      eapply Forall_impl; [exact Hle|]. intros x Hx. by eapply device_leb_trans.
    + split; [set_solver|]. constructor; [|done].
      destruct (device_leb_total (dev_id d) (dev_id m)); congruence.
  - subst. split; [set_solver|]. constructor; [apply Hrefl|constructor].
Qed.

Lemma same_device (devices : list Device) d e :
  NoDup (dev_id <$> devices) -> d ∈ devices -> e ∈ devices -> dev_id d = dev_id e -> d = e.
Proof.
  induction devices as [|x devices IH]; cbn; [set_solver|].
  intros [Hx Hn]%NoDup_cons. rewrite !elem_of_cons.
  assert (Hno : forall y, y ∈ devices -> dev_id y <> dev_id x).
  { intros y Hy He. apply Hx. rewrite <- He. by apply list_elem_of_fmap_2. }
  intros [->|Hd] [->|He] Hid; [done|by destruct (Hno e)|by destruct (Hno d)|by apply IH].
Qed.

Lemma elem_of_ptp d devices :
  d ∈ List.filter supports_ptp devices <-> d ∈ devices /\ supports_ptp d = true.
Proof. by rewrite !list_elem_of_In, filter_In. Qed.

(** The rule in terms of the candidates as a set. *)
Lemma choose_primary_spec devices preferred :
  match choose_primary devices preferred with
  | Some p =>
      p ∈ devices /\ supports_ptp p = true /\
      (preferred = Some (dev_id p) \/
       ((forall d, d ∈ devices -> supports_ptp d = true -> preferred <> Some (dev_id d)) /\
        (forall d, d ∈ devices -> supports_ptp d = true ->
           device_leb (dev_id p) (dev_id d) = true)))
  | None => forall d, d ∈ devices -> supports_ptp d = false
  end.
Proof.
  unfold choose_primary. pose proof (min_by_id_spec (List.filter supports_ptp devices)) as Hmin.
  assert (Hrule : (forall d, d ∈ devices -> supports_ptp d = true -> preferred <> Some (dev_id d)) ->
    match min_by_id (List.filter supports_ptp devices) with
    | Some p =>
        p ∈ devices /\ supports_ptp p = true /\
        (preferred = Some (dev_id p) \/
         ((forall d, d ∈ devices -> supports_ptp d = true -> preferred <> Some (dev_id d)) /\
          (forall d, d ∈ devices -> supports_ptp d = true ->
             device_leb (dev_id p) (dev_id d) = true)))
    | None => forall d, d ∈ devices -> supports_ptp d = false
    end).
  { intros Hno. destruct (min_by_id _) as [m|].
    - destruct Hmin as [[Hm Hp]%elem_of_ptp Hle]. split; [done|]. split; [done|]. right.
      split; [done|]. intros d Hd Hdp. rewrite Forall_forall in Hle.
      apply Hle. by apply elem_of_ptp.
    - intros d Hd. destruct (supports_ptp d) eqn:E; [|done].
      assert (d ∈ List.filter supports_ptp devices) as H by (by apply elem_of_ptp).
      rewrite Hmin in H. set_solver. }
  destruct preferred as [id|]; cbn [mbind option_bind]; [|by apply Hrule].
  destruct (List.find _ _) as [d|] eqn:E.
  - apply find_some in E as [Hin%list_elem_of_In Hid%bool_decide_eq_true].
    apply elem_of_ptp in Hin as [? ?]. split; [done|]. split; [done|]. left. by rewrite Hid.
  - apply Hrule. intros d Hd Hp [= ->]. pose proof (find_none _ _ E d) as H. cbn in H.
    apply bool_decide_eq_false in H; [done|]. apply list_elem_of_In. by apply elem_of_ptp.
Qed.

(** The primary is one of the candidates and can keep PTP time; it is the
    preferred receiver when that one qualifies and the smallest stable identity
    otherwise, there is none only when nobody qualifies, and the order in which
    the candidates are listed never matters. *)
Theorem primary_choice_is_deterministic (devices devices' : list Device)
    (preferred : option DeviceId) :
  NoDup (dev_id <$> devices) -> devices ≡ₚ devices' ->
  choose_primary devices preferred = choose_primary devices' preferred /\
  match choose_primary devices preferred with
  | Some p =>
      p ∈ devices /\ supports_ptp p = true /\
      (preferred = Some (dev_id p) \/
       ((forall d, d ∈ devices -> supports_ptp d = true -> preferred <> Some (dev_id d)) /\
        (forall d, d ∈ devices -> supports_ptp d = true ->
           device_leb (dev_id p) (dev_id d) = true)))
  | None => forall d, d ∈ devices -> supports_ptp d = false
  end.
Proof.
  intros Hn Hp. split; [|apply choose_primary_spec].
  pose proof (choose_primary_spec devices preferred) as H1.
  pose proof (choose_primary_spec devices' preferred) as H2.
  destruct (choose_primary devices preferred) as [p|], (choose_primary devices' preferred) as [q|].
  - destruct H1 as (Hip & Hpp & Hcp), H2 as (Hiq & Hpq & Hcq). rewrite <- Hp in Hiq.
    f_equal. apply (same_device devices); [done|done|done|].
    destruct Hcp as [Ep|[Np Lp]], Hcq as [Eq|[Nq Lq]].
    + congruence.
    + destruct (Nq p); [by rewrite <- Hp|done|done].
    + destruct (Np q); [done|done|done].
    + apply device_leb_antisym; [by apply Lp|]. apply Lq; [by rewrite <- Hp|done].
  - destruct H1 as (Hip & Hpp & _). rewrite Hp in Hip. by rewrite (H2 p Hip) in Hpp.
  - destruct H2 as (Hiq & Hpq & _). rewrite <- Hp in Hiq. by rewrite (H1 q Hiq) in Hpq.
  - done.
Qed.

(** ** Delays *)

Lemma collect_delays_spec targets (effective : gmap DeviceId Z) acc missing :
  fold_left (fun '(delays, missing) receiver =>
               match effective !! receiver with
               | Some delay => (delays ++ [delay], missing)
               | None => (delays ++ [0], S missing)
               end) targets (acc, missing)
  = (acc ++ ((fun r => default 0 (effective !! r)) <$> targets),
     (missing + length (List.filter (fun r => is_none (effective !! r)) targets))%nat).
Proof.
  revert acc missing. induction targets as [|r targets IH]; intros acc missing; cbn.
  - by rewrite app_nil_r, Nat.add_0_r.
  - destruct (effective !! r) as [delay|] eqn:E; cbn; rewrite IH, <- app_assoc; cbn;
      f_equal. lia.
Qed.

Lemma delays_match_targets (targets : list DeviceId) (effective : gmap DeviceId Z) :
  NoDup targets ->
  match map_presentation_delays_for targets effective with
  | Ok delays =>
      dom effective = list_to_set targets /\ length delays = length targets /\
      forall i r, targets !! i = Some r -> delays !! i = effective !! r
  | Err _ => dom effective <> list_to_set targets
  end.
Proof.
  intros Hn. unfold map_presentation_delays_for, collect_delays. rewrite collect_delays_spec.
  cbn [Nat.add app]. set (gaps := List.filter _ targets).
  assert (Hgaps : length gaps = 0%nat <-> list_to_set targets ⊆ dom effective).
  { rewrite length_zero_iff_nil. split.
    - intros Hg r Hr%elem_of_list_to_set. apply elem_of_dom.
      destruct (effective !! r) eqn:E; [done|]. exfalso.
      assert (r ∈ gaps) as Hin by (apply list_elem_of_In, filter_In; rewrite <- list_elem_of_In, E; done).
      rewrite Hg in Hin. set_solver.
    - intros Hs. destruct gaps as [|r gs] eqn:Eg; [done|]. exfalso.
      assert (r ∈ gaps) as Hin by (rewrite Eg; set_solver).
      apply list_elem_of_In, filter_In in Hin as [Hin%list_elem_of_In Hnone].
      assert (r ∈ dom effective) as [x Hx]%elem_of_dom by (apply Hs; by apply elem_of_list_to_set).
      by rewrite Hx in Hnone. }
  assert (Hsize : size (list_to_set targets : gset DeviceId) = length targets)
    by (by apply size_list_to_set).
  destruct (Nat.ltb_spec 0 (length gaps)).
  { intros Hd. assert (length gaps = 0%nat) by (apply Hgaps; by rewrite Hd). lia. }
  assert (Hsub : list_to_set targets ⊆ dom effective) by (apply Hgaps; lia).
  rewrite <- size_dom.
  destruct (Nat.eqb_spec (size (dom effective)) (length targets)) as [He|He]; cbn [negb].
  - split; [|split].
    + symmetry. apply leibniz_equiv. apply set_subseteq_size_equiv; [done|]. lia.
    + by rewrite length_fmap.
    + intros i r Hi. rewrite list_lookup_fmap, Hi. cbn.
      assert (r ∈ dom effective) as [x ->]%elem_of_dom; [|done].
      apply Hsub, elem_of_list_to_set. by eapply list_elem_of_lookup_2.
  - intros Hd. by rewrite Hd, Hsize in He.
Qed.

(** A delay map is accepted exactly when its keys are the connected targets,
    and then each target gets its own entry in target order; a missing or a
    surplus entry is an error, never a silent zero. *)
Theorem delays_match_targets_exactly (targets : list DeviceId) (effective : gmap DeviceId Z) :
  NoDup targets ->
  match map_presentation_delays_for targets effective with
  | Ok delays =>
      dom effective = list_to_set targets /\ length delays = length targets /\
      forall i r, targets !! i = Some r -> delays !! i = effective !! r
  | Err _ => dom effective <> list_to_set targets
  end.
Proof. apply delays_match_targets. Qed.

Lemma delays_for_domain targets effective :
  NoDup targets -> dom effective = list_to_set targets ->
  map_presentation_delays_for targets effective
  = Ok ((fun r => default 0 (effective !! r)) <$> targets).
Proof.
  intros Hn Hd. pose proof (delays_match_targets targets effective Hn) as H.
  destruct (map_presentation_delays_for targets effective) as [delays|e] eqn:E; [|done].
  destruct H as (_ & Hl & Hi). f_equal. apply list_eq_same_length with (length delays);
    [by rewrite length_fmap|done|].
  intros i x y Hlt Hx Hy. destruct (targets !! i) as [r|] eqn:Er.
  - rewrite (Hi i r Er) in Hx. rewrite list_lookup_fmap, Er in Hy. cbn in Hy.
    rewrite Hx in Hy. cbn in Hy. congruence.
  - apply lookup_ge_None in Er. lia.
Qed.

(** What the user tuned is what is sent: for any group that connected and
    any stored profile, the delays computed for the session are accepted by the
    client for exactly those targets in their order, each is a [u64], the
    smallest is zero, and any two receivers keep the difference requested for
    them, also when the reference receiver did not connect. *)
Theorem session_delays_are_as_tuned (connected : list DeviceId)
    (calibration : Calibration.CalibrationProfile) :
  connected <> [] -> NoDup connected -> Calibration.profile_ok calibration ->
  exists effective delays,
    presentation_delays_for connected calibration = Ok effective /\
    map_presentation_delays_for connected effective = Ok delays /\
    length delays = length connected /\ 0 ∈ delays /\ Forall (in_width 64) delays /\
    forall i j ri rj di dj,
      connected !! i = Some ri -> connected !! j = Some rj ->
      delays !! i = Some di -> delays !! j = Some dj ->
      di - dj = Calibration.requested_delay_ns calibration ri
                - Calibration.requested_delay_ns calibration rj.
Proof.
  intros Hne Hn Hp. unfold presentation_delays_for.
  set (active := list_to_set connected : gset DeviceId). set (anchored := Calibration.Build_CalibrationProfile _ _).
  assert (Hact : active <> ∅).
  { destruct connected as [|r rest]; [done|]. subst active. cbn. set_solver. }
  destruct (Calibration.normalize_ok active anchored) as (eff & -> & (r0 & Hr0 & Hm0) & Hmin & Hlk).
  - exact Hp.
  - exact Hact.
  - intros r. subst anchored. cbn. destruct (Calibration.reference_receiver calibration) as [c|]; cbn; [|done].
    case_bool_decide; [by intros [= <-]|done].
  - cbn [result_bind]. rewrite Calibration.effective_delays_by_device_exact.
    set (req := Calibration.requested_delay_ns calibration).
    change (Calibration.requested_delay_ns anchored) with req in *.
    set (m := Calibration.minimum_requested_ns eff) in *.
    assert (Hd : dom (Calibration.effective_delay_ns eff) = list_to_set connected).
    { apply set_eq. intros r. rewrite elem_of_dom, Hlk.
      destruct (decide (r ∈ active)); split; done || by intros []. }
    assert (Hval : forall r, r ∈ connected ->
              default 0 (Calibration.effective_delay_ns eff !! r) = req r - m).
    { intros r Hr. rewrite Hlk, decide_True; [done|]. by apply elem_of_list_to_set. }
    assert (Hat : forall i r d, connected !! i = Some r ->
              ((fun r => default 0 (Calibration.effective_delay_ns eff !! r)) <$> connected) !! i
              = Some d -> d = req r - m).
    { intros i r d Hi. rewrite list_lookup_fmap, Hi. cbn. intros [= <-].
      apply Hval. by eapply list_elem_of_lookup_2. }
    eexists _, _. split; [done|]. split; [by apply delays_for_domain|].
    split; [by rewrite length_fmap|]. split; [|split].
    + apply elem_of_list_to_set in Hr0. apply list_elem_of_fmap. exists r0.
      split; [rewrite Hval by done; lia|done].
    + apply Forall_fmap, Forall_forall. intros r Hr. cbn. rewrite Hval by done.
      assert (Hra : r ∈ active) by (by apply elem_of_list_to_set). specialize (Hmin r Hra).
      pose proof (Calibration.requested_ok calibration r Hp).
      pose proof (Calibration.requested_ok calibration r0 Hp).
      subst req. unfold Calibration.i64_ok, in_width in *. lia.
    + intros i j ri rj di dj Hi Hj Hdi Hdj.
      rewrite (Hat i ri di Hi Hdi), (Hat j rj dj Hj Hdj). lia.
Qed.

(** ** Witnesses *)

Definition receiver_n (n : Z) : DeviceId := MkDeviceId 0 0 0 0 0 n.

Lemma primary_choice_is_deterministic_witness :
  let ds := [example_device (receiver_n 2) (lit "b"); example_device (receiver_n 1) (lit "a")] in
  choose_primary ds None = choose_primary (rev ds) None.
Proof.
  intros ds. apply (primary_choice_is_deterministic ds (rev ds) None).
  - apply (bool_decide_unpack _). vm_compute. exact I.
  - cbn. constructor.
Defined.

Lemma delays_match_targets_exactly_witness :
  dom ({[ receiver_n 1 := 5; receiver_n 2 := 0 ]} : gmap DeviceId Z)
  = list_to_set [receiver_n 2; receiver_n 1].
Proof.
  pose proof (delays_match_targets_exactly [receiver_n 2; receiver_n 1]
                {[ receiver_n 1 := 5; receiver_n 2 := 0 ]}) as H.
  apply H. apply (bool_decide_unpack _). vm_compute. exact I.
Defined.

Lemma session_delays_are_as_tuned_witness :
  let profile := {| Calibration.reference_receiver := Some (receiver_n 9);
                    Calibration.requested_relative_delay_ns := {[ receiver_n 1 := -700 ]} |} in
  exists effective delays,
    presentation_delays_for [receiver_n 2; receiver_n 1] profile = Ok effective /\
    map_presentation_delays_for [receiver_n 2; receiver_n 1] effective = Ok delays /\ 0 ∈ delays.
Proof.
  intros profile.
  destruct (session_delays_are_as_tuned [receiver_n 2; receiver_n 1] profile)
    as (effective & delays & H1 & H2 & _ & H0 & _).
  - discriminate.
  - apply (bool_decide_unpack _). vm_compute. exact I.
  - apply map_Forall_to_list. repeat constructor; cbn; lia.
  - exists effective, delays. split; [exact H1|]. split; [exact H2|exact H0].
Defined.

End Group.
