(* ===== verification/GroupConnect.v ===== *)
(** * Connecting a group

    [AirPlayClient::connect_group_best_effort], [finish_single_survivor_session],
    [disconnect] and the metadata operations of
    [crates/airplay-client/src/client.rs].

    What the network answers is a record of functions ([Network]): one answer
    per operation of a link.  A link is named by its receiver and the timing
    protocol it was opened with; no receiver is connected twice with one
    protocol in one attempt.  Establishment runs up to four members at a time
    and sorts the results by input position, so the outcome does not depend on
    the interleaving; the call log lists those calls in input order.  [None] is
    a panic of one of the [expect]s. *)

From Stdlib Require Import String.
From S2P Require Import Prelude Float32 AppState Model Wire Text Device Group.
Import Model Device Group.

Module GroupConnect.

Inductive TimingProtocol := Ntp | Ptp.
#[export] Instance TimingProtocol_eq_dec : EqDecision TimingProtocol.
Proof. solve_decision. Defined.

Notation Link := (DeviceId * TimingProtocol)%type.

(** [GroupPrimaryTiming] is the clock feed of the link it was exported by. *)
Notation GroupPrimaryTiming := Link (only parsing).

Record Network := {
  connect_auto : Device -> TimingProtocol -> Result unit Error;
  setup_stream : Link -> Result unit Error;
  ptp_clock_rx : Link -> bool;
  send_setpeers : Link -> list text -> Result unit Error;
  join_group_timing : Link -> GroupPrimaryTiming -> Z -> Result unit Error;
  local_addr : Link -> option text;
  disconnect_link : Link -> Result unit Error;
  (** [AlacEncoder::new] when the configuration still needs a magic cookie. *)
  magic_cookie : Result unit Error;
}.

Inductive Call :=
| CConnect (l : Link) (ok : bool)
| CSetup (l : Link)
| CSetPeers (l : Link) (peers : list text)
| CJoin (l : Link) (timing : GroupPrimaryTiming)
| CRenderDelay (l : Link) (ms : Z)
| CTeardown (l : Link).

(** A stored [Connection]: its link, and whether its one [disconnect] ran. *)
Record Connection := { conn_link : Link; conn_disconnected : bool }.

Record Client := {
  connection : option Connection;
  group_connections : list Connection;
  group : option DeviceGroup;
  render_delay_ms : Z;
  primary_attempt_log : list DeviceId;
  timing_protocol_log : gmap DeviceId (list TimingProtocol);
  calls : list Call;
}.
#[export] Instance eta_Client : Eta Client := fun c =>
  {| connection := connection c; group_connections := group_connections c; group := group c;
     render_delay_ms := render_delay_ms c; primary_attempt_log := primary_attempt_log c;
     timing_protocol_log := timing_protocol_log c; calls := calls c |}.

Record EstablishedMember := { em_device : Device; em_healthy : bool; em_link : option Link }.

Section Connect.
Context (net : Network).

Definition call (c : Client) (x : Call) : Client := c <| calls := calls c ++ [x] |>.

(** [timing_protocol_log.entry(id).or_default().push(p)] *)
Definition log_timing (c : Client) (id : DeviceId) (p : TimingProtocol) : Client :=
  c <| timing_protocol_log :=
         <[id := default [] (timing_protocol_log c !! id) ++ [p]]> (timing_protocol_log c) |>.

(** ** Disconnecting *)

(** [Connection::disconnect]: a second call does nothing. *)
Definition disconnect_conn (c : Client) (k : Connection) : Client * Result unit Error :=
  if conn_disconnected k then (c, Ok tt)
  else (call c (CTeardown (conn_link k)), disconnect_link net (conn_link k)).

Definition disconnect (c : Client) : Client * Result unit Error :=
  let c := fold_left (fun c k => fst (disconnect_conn c k)) (group_connections c) c in
  let c := c <| group_connections := [] |> in
  match connection c with
  | None => (c, Ok tt)
  | Some k =>
      let '(c, r) := disconnect_conn c k in
      match r with
      | Err e =>
          (c <| connection := Some {| conn_link := conn_link k; conn_disconnected := true |} |>,
           Err e)
      | Ok _ => (c <| connection := None |>, Ok tt)
      end
  end.

(** ** Establishment *)

(** [GroupLinkFactory::connect_member] of the production factory. *)
Definition connect_member (d : Device) (t : TimingProtocol) : Result Link MemberFailure :=
  match connect_auto net d t with
  | Ok _ => Ok (dev_id d, t)
  | Err source => Err (classify_connect_failure (dev_id d) source)
  end.

Fixpoint establish (c : Client) (devices : list Device)
  : Client * list (option EstablishedMember) * list MemberFailure :=
  match devices with
  | [] => (c, [], [])
  | d :: rest =>
      match connect_member d Ptp with
      | Ok link =>
          let '(c, members, failures) := establish (call c (CConnect link true)) rest in
          (c, Some {| em_device := d; em_healthy := true; em_link := Some link |} :: members,
           failures)
      | Err failure =>
          let '(c, members, failures) := establish (call c (CConnect (dev_id d, Ptp) false)) rest in
          (c, None :: members, failure :: failures)
      end
  end.

(** ** The primary *)

Definition candidates (members : list (option EstablishedMember)) : list Device :=
  omap (fun slot => m ← slot;
          if em_healthy m && negb (is_none (em_link m)) then Some (em_device m) else None) members.
Definition established (members : list (option EstablishedMember)) : list Device :=
  omap (fun slot => m ← slot; if is_none (em_link m) then None else Some (em_device m)) members.

Definition is_member (id : DeviceId) (slot : option EstablishedMember) : bool :=
  match slot with Some m => bool_decide (dev_id (em_device m) = id) | None => false end.

Definition position (id : DeviceId) (members : list (option EstablishedMember)) : option nat :=
  fst <$> list_find (fun slot => is_member id slot = true) members.

Definition run_primary_critical (c : Client) (link : Link) (peers : list text)
  : Client * Result GroupPrimaryTiming (SetupPhase * Error) :=
  let c := call c (CSetup link) in
  match setup_stream net link with
  | Err source => (c, Err (RtspSetup, source))
  | Ok _ =>
      if ptp_clock_rx net link then
        let c := call c (CSetPeers link peers) in
        match send_setpeers net link peers with
        | Err source => (c, Err (SetPeers, source))
        | Ok _ => (c, Ok link)
        end
      else (c, Err (PrimaryTiming,
                    ERtsp (lit "Setup failed: group primary has no PTP timing identity")))
  end.

(** What the [for _primary_attempt in 0..=1usize] loop leaves behind. *)
Record Chosen := {
  ch_client : Client;
  ch_members : list (option EstablishedMember);
  ch_failures : list MemberFailure;
  ch_peers : list text;
  ch_primary : option (nat * GroupPrimaryTiming);
}.

Fixpoint choose (attempts : nat) (c : Client) (members : list (option EstablishedMember))
    (failures : list MemberFailure) (peers : list text) (preferred : option DeviceId)
  : option Chosen :=
  let stop := Some {| ch_client := c; ch_members := members; ch_failures := failures;
                      ch_peers := peers; ch_primary := None |} in
  match attempts with
  | O => stop
  | S attempts' =>
      match choose_primary (candidates members) preferred with
      | None => stop
      | Some primary_device =>
          index ← position (dev_id primary_device) members;
          slot ← members !! index;
          member ← slot;
          let c := c <| primary_attempt_log := primary_attempt_log c ++ [dev_id primary_device] |> in
          let peers := build_peer_addresses (established members)
                         (link ← em_link member; local_addr net link) in
          link ← em_link member;
          match run_primary_critical c link peers with
          | (c, Ok timing) =>
              Some {| ch_client := log_timing c (dev_id primary_device) Ptp;
                      ch_members := members; ch_failures := failures; ch_peers := peers;
                      ch_primary := Some (index, timing) |}
          | (c, Err (phase, source)) =>
              choose attempts' (call c (CTeardown link))
                (<[index := Some {| em_device := em_device member; em_healthy := false;
                                    em_link := None |}]> members)
                (failures ++ [member_failure (dev_id primary_device) phase source]) peers None
          end
      end
  end.

(** ** The other members *)

Definition teardown_and_fail (c : Client) (link : Link) (phase : SetupPhase) (source : Error)
  : Client * MemberFailure :=
  (call c (CTeardown link), member_failure (fst link) phase source).

(** The loop over [members.iter_mut().enumerate()]: survivors by position. *)
Fixpoint join_members (c : Client) (index primary_index : nat) (timing : GroupPrimaryTiming)
    (peers : list text) (members : list (option EstablishedMember))
  : Client * list nat * list MemberFailure :=
  match members with
  | [] => (c, [], [])
  | slot :: rest =>
      match (if (index =? primary_index)%nat then None else m ← slot; l ← em_link m; Some (m, l)) with
      | None => join_members c (S index) primary_index timing peers rest
      | Some (member, link) =>
          let c := call c (CJoin link timing) in
          match join_group_timing net link timing (render_delay_ms c) with
          | Err source =>
              let '(c, failure) := teardown_and_fail c link RtspSetup source in
              let '(c, survivors, failures) :=
                join_members c (S index) primary_index timing peers rest in
              (c, survivors, failure :: failures)
          | Ok _ =>
              let c := call c (CSetPeers link peers) in
              match send_setpeers net link peers with
              | Err source =>
                  let '(c, failure) := teardown_and_fail c link SetPeers source in
                  let '(c, survivors, failures) :=
                    join_members c (S index) primary_index timing peers rest in
                  (c, survivors, failure :: failures)
              | Ok _ =>
                  let c := log_timing c (dev_id (em_device member)) Ptp in
                  let '(c, survivors, failures) :=
                    join_members c (S index) primary_index timing peers rest in
                  (c, index :: survivors, failures)
              end
          end
      end
  end.

Definition no_session (failures : list MemberFailure) : GroupConnectReport :=
  {| report_primary := None; report_connected := []; report_failures := failures |}.

Definition finish_single_survivor_session (c : Client) (survivor : EstablishedMember)
    (failures : list MemberFailure) : Client * GroupConnectReport :=
  let d := em_device survivor in
  let c := match em_link survivor with Some link => call c (CTeardown link) | None => c end in
  match connect_member d Ntp with
  | Err failure => (call c (CConnect (dev_id d, Ntp) false), no_session (failures ++ [failure]))
  | Ok link =>
      let c := call c (CConnect link true) in
      let c := call c (CRenderDelay link (render_delay_ms c)) in
      let c := call c (CSetup link) in
      match setup_stream net link with
      | Err source =>
          let '(c, failure) := teardown_and_fail c link RtspSetup source in
          (c, no_session (failures ++ [failure]))
      | Ok _ =>
          let c := log_timing c (fst link) Ntp in
          (c <| connection := Some {| conn_link := link; conn_disconnected := false |} |>
             <| group_connections := [] |> <| group := Some (new_group d) |>,
           {| report_primary := Some (dev_id d); report_connected := [dev_id d];
              report_failures := failures |})
      end
  end.

(** [slot.and_then(|mut member| member.link.take())] at a survivor's position;
    a missing one panics. *)
Definition member_at (members : list (option EstablishedMember)) (index : nat)
  : option (Device * Link) :=
  slot ← members !! index; m ← slot; l ← em_link m; Some (em_device m, l).

Definition store_link (l : Link) : Connection := {| conn_link := l; conn_disconnected := false |}.

Definition connect_group_best_effort (c : Client) (devices : list Device)
    (preferred_primary : option DeviceId) : option (Client * Result GroupConnectReport Error) :=
  match devices with
  | [] => Some (c, Err (EDiscovery (lit "No devices found")))
  | _ =>
      match find_duplicate_member devices with
      | Some duplicate =>
          Some (c, Err (EDiscovery (lit "Service resolution failed: duplicate group member "
                                    ++ to_mac_string duplicate)))
      | None =>
          let '(c, r) := disconnect c in
          match r with
          | Err e => Some (c, Err e)
          | Ok _ =>
              let c := c <| primary_attempt_log := [] |> <| timing_protocol_log := ∅ |> in
              match magic_cookie net with
              | Err e => Some (c, Err e)
              | Ok _ =>
                  let '(c, members, failures) := establish c devices in
                  chosen ← choose 2 c members failures [] preferred_primary;
                  let c := ch_client chosen in
                  let members := ch_members chosen in
                  let failures := ch_failures chosen in
                  match ch_primary chosen with
                  | None =>
                      let links := omap (fun slot => m ← slot; em_link m) members in
                      Some (fold_left (fun c l => call c (CTeardown l)) links c,
                            Ok (no_session failures))
                  | Some (primary_index, timing) =>
                      let '(c, survivors, more) :=
                        join_members c 0 primary_index timing (ch_peers chosen) members in
                      let failures := failures ++ more in
                      match survivors with
                      | [] =>
                          slot ← members !! primary_index;
                          survivor ← slot;
                          let '(c, report) := finish_single_survivor_session c survivor failures in
                          Some (c, Ok report)
                      | _ =>
                          '(primary_device, primary_link) ← member_at members primary_index;
                          others ← mapM (member_at members) survivors;
                          Some (c <| connection := Some (store_link primary_link) |>
                                  <| group_connections := store_link <$> others.*2 |>
                                  <| group := Some (fold_left add_member others.*1
                                                      (new_group primary_device)) |>,
                                Ok {| report_primary := Some (dev_id primary_device);
                                      report_connected :=
                                        dev_id primary_device :: (dev_id <$> others.*1);
                                      report_failures := failures |})
                      end
                  end
              end
          end
      end
  end.

(** The legacy adapter: everything or an error. *)
Definition connect_group (c : Client) (devices : list Device)
  : option (Client * Result unit Error) :=
  if (length devices <? 2)%nat then Some (c, Err (EDiscovery (lit "No devices found")))
  else
    '(c, r) ← connect_group_best_effort c devices None;
    Some (c, let? report := r in
             if (length (report_connected report) =? length devices)%nat then Ok tt
             else Err (ERtsp (lit "Setup failed: " ++ count_text (length (report_failures report))
                              ++ lit " group member(s) failed"))).

End Connect.
End GroupConnect.
