(* ===== verification/GroupConnectProps.v ===== *)
(** * Connecting a group: who is in, who failed, what stays open

    Theorems about [GroupConnect]: every requested receiver is accounted for,
    every link that was opened is stored or torn down, nothing panics. *)

From Stdlib Require Import String.
From S2P Require Import Prelude Float32 AppState Model Wire Text Device Group GroupConnect.
Import Model Device Group GroupConnect.

Module GroupConnectProps.

(** ** Ledgers *)

Definition opened (cs : list Call) : list Link :=
  omap (fun x => match x with CConnect l true => Some l | _ => None end) cs.
Definition closed (cs : list Call) : list Link :=
  omap (fun x => match x with CTeardown l => Some l | _ => None end) cs.
Definition receivers (fs : list MemberFailure) : list DeviceId := failure_receiver <$> fs.
Definition stored (c : Client) : list Link :=
  option_list (conn_link <$> connection c) ++ (conn_link <$> group_connections c).

Definition link_of (slot : option EstablishedMember) : option Link := m ← slot; em_link m.
Definition open_links (members : list (option EstablishedMember)) : list Link :=
  omap link_of members.
Definition slot_id (slot : option EstablishedMember) : option DeviceId :=
  (fun m => dev_id (em_device m)) <$> slot.

Definition slot_ok (slot : option EstablishedMember) : Prop :=
  match slot with
  | Some m => em_link m = None \/ em_link m = Some (dev_id (em_device m), Ptp)
  | None => True
  end.

(** The calls made since [c0]: what was opened is open or was closed. *)
Definition ledger (c0 c : Client) (open : list Link) : Prop :=
  exists cs, calls c = calls c0 ++ cs /\ opened cs ≡ₚ open ++ closed cs.

Definition same_session (c0 c : Client) : Prop :=
  connection c = connection c0 /\ group_connections c = group_connections c0 /\
  render_delay_ms c = render_delay_ms c0.

Lemma ledger_refl c : ledger c c [].
Proof. exists []. by rewrite app_nil_r. Qed.

Lemma ledger_call c0 c x open open' :
  ledger c0 c open ->
  match x with
  | CConnect l true => open' = l :: open
  | CTeardown l => open ≡ₚ l :: open'
  | _ => open' = open
  end -> ledger c0 (call c x) open'.
Proof.
  intros (cs & Hc & Hp) Hx. exists (cs ++ [x]). cbn. rewrite Hc, <- app_assoc. split; [done|].
  unfold opened, closed in *. rewrite !omap_app.
  destruct x as [l [|]|l|l peers|l t|l ms|l]; cbn; rewrite ?app_nil_r; subst; try done.
  - rewrite Hp. by rewrite (Permutation_app_comm _ [l]).
  - rewrite Hp, Hx. cbn. rewrite (Permutation_app_comm (closed cs) [l]). cbn.
    unfold closed. by rewrite <- Permutation_middle.
Qed.

Lemma ledger_perm c0 c open open' : ledger c0 c open -> open ≡ₚ open' -> ledger c0 c open'.
Proof. intros (cs & Hc & Hp) H. exists cs. by rewrite <- H. Qed.

Lemma ledger_same_calls c0 c c' open : ledger c0 c open -> calls c' = calls c -> ledger c0 c' open.
Proof. intros (cs & Hc & Hp) H. exists cs. by rewrite H. Qed.

Section Props.
Context (net : Network).

(** ** Establishment *)

Lemma establish_spec c0 c devices c' members failures :
  establish net c devices = (c', members, failures) ->
  (forall open, ledger c0 c open -> ledger c0 c' (rev (open_links members) ++ open)) /\
  same_session c c' /\ primary_attempt_log c' = primary_attempt_log c /\
  Forall slot_ok members /\
  omap slot_id members ++ receivers failures ≡ₚ dev_id <$> devices /\
  (fst <$> open_links members) = omap slot_id members /\
  Forall (fun slot => match slot with Some m => em_device m ∈ devices | None => True end) members.
Proof.
  revert c c' members failures. induction devices as [|d devices IH];
    intros c c' members failures; cbn.
  { intros [= <- <- <-]. cbn. repeat split; auto. }
  unfold connect_member. destruct (connect_auto net d Ptp) as [[]|source].
  - destruct (establish net (call c (CConnect (dev_id d, Ptp) true)) devices)
      as [[c1 ms] fs] eqn:E.
    intros [= <- <- <-]. destruct (IH _ _ _ _ E) as (Hl & Hs & Hlog & Hok & Hp & Ho & Hin).
    split; [|split; [|split; [|split; [|split; [|split]]]]]; [|done|done| | | |].
    + intros open Hop. cbn. rewrite <- app_assoc. cbn. apply Hl.
      eapply ledger_call; [exact Hop|done].
    + constructor; [by right|done].
    + cbn. by rewrite Hp.
    + unfold open_links in *. cbn. f_equal. exact Ho.
    + constructor; [set_solver|]. eapply Forall_impl; [exact Hin|]. intros [m|]; set_solver.
  - destruct (establish net (call c (CConnect (dev_id d, Ptp) false)) devices)
      as [[c1 ms] fs] eqn:E.
    intros [= <- <- <-]. destruct (IH _ _ _ _ E) as (Hl & Hs & Hlog & Hok & Hp & Ho & Hin).
    split; [|split; [|split; [|split; [|split; [|split]]]]]; [|done|done| | | |].
    + intros open Hop. cbn. apply Hl. eapply ledger_call; [exact Hop|done].
    + by constructor.
    + cbn. rewrite <- Permutation_middle. by rewrite Hp.
    + done.
    + constructor; [done|]. eapply Forall_impl; [exact Hin|]. intros [m|]; set_solver.
Qed.

(** ** The primary *)

Definition members_ok (ids : list DeviceId) (members : list (option EstablishedMember))
    (failures : list MemberFailure) : Prop :=
  Forall slot_ok members /\ NoDup (omap slot_id members) /\
  (fst <$> open_links members) ++ receivers failures ≡ₚ ids.

Lemma position_unique members i m :
  NoDup (omap slot_id members) -> members !! i = Some (Some m) ->
  position (dev_id (em_device m)) members = Some i.
Proof.
  intros Hn Hi. unfold position.
  rewrite (proj2 (list_find_Some (fun slot => is_member (dev_id (em_device m)) slot = true)
                    members i (Some m))); [done|].
  split; [done|]. split; [by apply bool_decide_eq_true|].
  intros j y Hj Hlt Hy. destruct y as [x|]; [|done]. apply bool_decide_eq_true in Hy.
  rewrite <- (take_drop_middle members i (Some m) Hi), omap_app in Hn.
  apply NoDup_app in Hn as (_ & Hdis & _).
  apply (Hdis (dev_id (em_device m))); [|cbn; set_solver].
  apply list_elem_of_omap. exists (Some x). split; [|cbn; by rewrite Hy].
  apply (list_elem_of_lookup_2 _ j). by rewrite lookup_take_lt.
Qed.

Lemma open_links_split members i slot :
  members !! i = Some slot ->
  open_links members ≡ₚ option_list (link_of slot) ++ open_links (take i members ++ drop (S i) members).
Proof.
  intros Hi. unfold open_links. rewrite <- (take_drop_middle members i slot Hi) at 1.
  rewrite !omap_app. cbn. destruct (link_of slot) as [l|]; cbn; [|done].
  by rewrite <- Permutation_middle.
Qed.

(** Taking the link out of one slot. *)
Lemma close_slot ids members failures i m l failure :
  members_ok ids members failures -> members !! i = Some (Some m) -> em_link m = Some l ->
  failure_receiver failure = fst l ->
  let members' := <[i := Some {| em_device := em_device m; em_healthy := false;
                                 em_link := None |}]> members in
  members_ok ids members' (failures ++ [failure]) /\ open_links members ≡ₚ l :: open_links members'.
Proof.
  intros (Hok & Hn & Hp) Hi Hl Hf members'. pose proof (lookup_lt_Some _ _ _ Hi) as Hlt.
  assert (Hopen : open_links members ≡ₚ l :: open_links members').
  { rewrite (open_links_split members i _ Hi). cbn. rewrite Hl. cbn. constructor.
    unfold members', open_links. rewrite insert_take_drop, !omap_app by done. done. }
  assert (Hids : omap slot_id members' = omap slot_id members).
  { unfold members'. rewrite insert_take_drop by done.
    rewrite <- (take_drop_middle members i (Some m) Hi) at 3.
    rewrite !omap_app. done. }
  split; [|done]. split; [|split].
  - apply Forall_insert; [done|by left].
  - by rewrite Hids.
  - rewrite <- Hp, Hopen. unfold receivers. rewrite fmap_app. cbn. rewrite Hf.
    rewrite (Permutation_app_comm (failure_receiver <$> failures)). cbn.
    by rewrite <- Permutation_middle.
Qed.

Lemma candidate_slot members p :
  Forall slot_ok members -> p ∈ candidates members ->
  exists i m, members !! i = Some (Some m) /\ em_device m = p /\ em_link m = Some (dev_id p, Ptp).
Proof.
  intros Hok Hp. apply list_elem_of_omap in Hp as ([m|] & Hin & Hm); [|done].
  cbn in Hm. destruct (em_healthy m && _) eqn:E; [|done]. injection Hm as <-.
  apply list_elem_of_lookup in Hin as [i Hi]. exists i, m. split; [done|]. split; [done|].
  destruct (Forall_lookup_1 _ _ _ _ Hok Hi) as [H|H]; [|done].
  rewrite H in E. by rewrite andb_false_r in E.
Qed.

(** What the choice of a primary leaves: the books balance, and a primary is
    an open member that can keep PTP time. *)
Definition chosen_ok (c0 : Client) (ids : list DeviceId) (ch : Chosen) : Prop :=
  members_ok ids (ch_members ch) (ch_failures ch) /\
  ledger c0 (ch_client ch) (open_links (ch_members ch)) /\
  match ch_primary ch with
  | Some (i, timing) => exists m, ch_members ch !! i = Some (Some m) /\
      em_link m = Some (dev_id (em_device m), Ptp) /\ supports_ptp (em_device m) = true /\
      timing = (dev_id (em_device m), Ptp)
  | None => True
  end.

Lemma primary_critical_calls c0 c link peers c' r open :
  ledger c0 c open -> run_primary_critical net c link peers = (c', r) ->
  ledger c0 c' open /\ same_session c c' /\ primary_attempt_log c' = primary_attempt_log c /\
  (forall timing, r = Ok timing -> timing = link).
Proof.
  intros Hl. unfold run_primary_critical.
  assert (H1 : ledger c0 (call c (CSetup link)) open) by (by eapply ledger_call).
  destruct (setup_stream net link) as [[]|e]; [|by intros [= <- <-]].
  destruct (ptp_clock_rx net link); [|by intros [= <- <-]].
  assert (H2 : ledger c0 (call (call c (CSetup link)) (CSetPeers link peers)) open)
    by (by eapply ledger_call).
  destruct (send_setpeers net link peers) as [[]|e]; intros [= <- <-]; [|done].
  split; [done|]. split; [done|]. split; [done|]. by intros timing [= <-].
Qed.

Lemma choose_spec n c0 ids c members failures peers preferred :
  members_ok ids members failures -> ledger c0 c (open_links members) ->
  exists ch, choose net n c members failures peers preferred = Some ch /\
    chosen_ok c0 ids ch /\ same_session c (ch_client ch) /\
    (length (primary_attempt_log (ch_client ch)) <= length (primary_attempt_log c) + n)%nat.
Proof.
  revert c members failures peers preferred.
  induction n as [|n IH]; intros c members failures peers preferred Hm Hl; cbn [choose].
  { eexists. split; [done|]. unfold chosen_ok. cbn. repeat split; auto; apply Hm || lia. }
  pose proof (choose_primary_spec (candidates members) preferred) as Hch.
  destruct (choose_primary (candidates members) preferred) as [p|].
  2:{ eexists. split; [done|]. unfold chosen_ok. cbn. repeat split; auto; apply Hm || lia. }
  destruct Hch as (Hin & Hptp & _).
  destruct (candidate_slot members p (proj1 Hm) Hin) as (i & m & Hi & <- & Hlink).
  rewrite (position_unique members i m (proj1 (proj2 Hm)) Hi).
  cbn [mbind option_bind]. rewrite Hi. cbn [mbind option_bind]. rewrite Hlink.
  cbn [mbind option_bind]. set (link := (dev_id (em_device m), Ptp)).
  set (c1 := c <| primary_attempt_log := _ |>).
  assert (Hl1 : ledger c0 c1 (open_links members)) by (by eapply ledger_same_calls).
  destruct (run_primary_critical net c1 link _) as [c2 r] eqn:Er.
  destruct (primary_critical_calls _ _ _ _ _ _ _ Hl1 Er) as (Hl2 & Hs2 & Hlog2 & Ht).
  assert (Hlen : length (primary_attempt_log c2) = S (length (primary_attempt_log c))).
  { rewrite Hlog2. cbn. rewrite length_app. cbn. lia. }
  destruct r as [timing|[phase source]].
  - eexists. split; [done|]. split; [|split; [done|cbn; lia]].
    split; [done|]. cbn. split; [by eapply ledger_same_calls|].
    exists m. by rewrite (Ht timing eq_refl).
  - destruct (close_slot ids members failures i m link
                (member_failure (dev_id (em_device m)) phase source) Hm Hi Hlink eq_refl)
      as [Hm' Hopen].
    assert (Hl3 : ledger c0 (call c2 (CTeardown link)) (open_links (<[i := Some
        {| em_device := em_device m; em_healthy := false; em_link := None |}]> members)))
      by (eapply ledger_call; [exact Hl2|exact Hopen]).
    edestruct IH as (ch & Hc & Hok & Hs & Hle); [exact Hm'|exact Hl3|].
    + exists ch. split; [exact Hc|]. split; [done|]. split; [|cbn in Hle; lia].
      destruct Hs as (A1 & A2 & A3), Hs2 as (B1 & B2 & B3). cbn in A1, A2, A3, B1, B2, B3.
      unfold same_session. by rewrite A1, A2, A3, B1, B2, B3.
Qed.

(** ** The other members *)

Fixpoint other_links (k primary : nat) (members : list (option EstablishedMember)) : list Link :=
  match members with
  | [] => []
  | slot :: rest =>
      (if (k =? primary)%nat then [] else option_list (link_of slot))
      ++ other_links (S k) primary rest
  end.

Lemma other_links_past k primary members :
  (primary < k)%nat -> other_links k primary members = open_links members.
Proof.
  revert k. induction members as [|slot members IH]; intros k Hk; [done|].
  cbn [other_links]. rewrite (proj2 (Nat.eqb_neq k primary)) by lia. rewrite IH by lia.
  unfold open_links. cbn. by destruct (link_of slot).
Qed.

Lemma other_links_split k primary members m l :
  (k <= primary)%nat -> members !! (primary - k)%nat = Some (Some m) -> em_link m = Some l ->
  open_links members ≡ₚ l :: other_links k primary members.
Proof.
  revert k. induction members as [|slot members IH]; intros k Hk Hi Hl; [done|].
  cbn [other_links]. destruct (Nat.eqb_spec k primary) as [->|Hne].
  - rewrite Nat.sub_diag in Hi. injection Hi as ->. rewrite other_links_past by lia.
    unfold open_links. cbn. by rewrite Hl.
  - replace (primary - k)%nat with (S (primary - S k)) in Hi by lia. cbn in Hi.
    specialize (IH (S k) ltac:(lia) Hi Hl). unfold open_links in *. cbn.
    destruct (link_of slot) as [x|]; cbn; [|done]. rewrite IH. constructor.
Qed.

(** Every other open member survives or fails, and who fails is torn down. *)
Definition joined (c0 : Client) (all : list (option EstablishedMember)) (c c' : Client)
    (survivors : list nat) (fs : list MemberFailure) (links : list Link) : Prop :=
  exists others,
    mapM (member_at all) survivors = Some others /\
    Forall (fun '(d, l) => l = (dev_id d, Ptp)) others /\
    (fst <$> others.*2) ++ receivers fs ≡ₚ fst <$> links /\
    (forall more, ledger c0 c (links ++ more) -> ledger c0 c' (others.*2 ++ more)) /\
    same_session c c' /\ primary_attempt_log c' = primary_attempt_log c.

(** One member that fails after some calls. *)
Lemma joined_fail c0 all c c1 c2 survivors fs links link failure :
  failure_receiver failure = fst link ->
  (forall open, ledger c0 c (link :: open) -> ledger c0 c1 open) ->
  same_session c c1 -> primary_attempt_log c1 = primary_attempt_log c ->
  joined c0 all c1 c2 survivors fs links ->
  joined c0 all c c2 survivors (failure :: fs) (link :: links).
Proof.
  intros Hf Hl Hs Hlog (others & Hm & Hok & Hp & Hled & Hs' & Hlog').
  exists others. split; [done|]. split; [done|]. split; [|split; [|split]].
  - cbn. rewrite Hf, <- Permutation_middle. by rewrite Hp.
  - intros more Hmore. apply Hled, Hl. exact Hmore.
  - destruct Hs as (A1 & A2 & A3), Hs' as (B1 & B2 & B3). unfold same_session.
    by rewrite B1, B2, B3, A1, A2, A3.
  - congruence.
Qed.

Lemma joined_survive c0 all c c1 c2 index survivors fs links link d :
  member_at all index = Some (d, link) -> link = (dev_id d, Ptp) ->
  (forall open, ledger c0 c open -> ledger c0 c1 open) ->
  same_session c c1 -> primary_attempt_log c1 = primary_attempt_log c ->
  joined c0 all c1 c2 survivors fs links ->
  joined c0 all c c2 (index :: survivors) fs (link :: links).
Proof.
  intros Hat Hd Hl Hs Hlog (others & Hm & Hok & Hp & Hled & Hs' & Hlog').
  exists ((d, link) :: others). split; [cbn; by rewrite Hat, Hm|]. split; [by constructor|].
  split; [|split; [|split]].
  - cbn. by rewrite Hp.
  - intros more Hmore. cbn.
    apply (ledger_perm _ _ (others.*2 ++ link :: more)); [|by rewrite <- Permutation_middle].
    apply Hled, Hl. eapply ledger_perm; [exact Hmore|]. cbn. by rewrite <- Permutation_middle.
  - destruct Hs as (A1 & A2 & A3), Hs' as (B1 & B2 & B3). unfold same_session.
    by rewrite B1, B2, B3, A1, A2, A3.
  - congruence.
Qed.

Lemma join_spec c0 all members pre c primary timing peers c' survivors fs :
  Forall slot_ok members -> all = pre ++ members ->
  join_members net c (length pre) primary timing peers members = (c', survivors, fs) ->
  joined c0 all c c' survivors fs (other_links (length pre) primary members).
Proof.
  revert pre c c' survivors fs.
  induction members as [|slot members IH]; intros pre c c' survivors fs Hok Hall; cbn.
  { intros [= <- <- <-]. exists []. repeat split; auto. }
  apply Forall_cons in Hok as [Hslot Hok].
  assert (Hall' : all = (pre ++ [slot]) ++ members) by (by rewrite <- app_assoc).
  assert (Hlen : S (length pre) = length (pre ++ [slot])) by (rewrite length_app; cbn; lia).
  rewrite Hlen. destruct (length pre =? primary)%nat; [by apply IH|].
  destruct slot as [m|]; cbn [mbind option_bind]; [|by apply IH].
  destruct Hslot as [Hnone|Hlink]; [rewrite Hnone; cbn [mbind option_bind link_of];
    rewrite Hnone; by apply IH|].
  rewrite Hlink. cbn [mbind option_bind link_of]. rewrite Hlink. cbn [option_list app].
  set (link := (dev_id (em_device m), Ptp)).
  assert (Hat : member_at all (length pre) = Some (em_device m, link)).
  { unfold member_at. rewrite Hall, lookup_app_r, Nat.sub_diag by lia. cbn. by rewrite Hlink. }
  destruct (join_group_timing net link timing _) as [[]|source].
  - destruct (send_setpeers net link peers) as [[]|source].
    + destruct (join_members net _ _ primary timing peers members) as [[c1 sv] f1] eqn:E.
      intros [= <- <- <-].
      eapply joined_survive; [exact Hat|done| | | |eapply IH; [done|done|exact E]]; [|done|done].
      intros open Ho. eapply ledger_same_calls; [|done].
      eapply ledger_call; [eapply ledger_call; [exact Ho|]|]; done.
    + destruct (join_members net _ _ primary timing peers members) as [[c1 sv] f1] eqn:E.
      intros [= <- <- <-].
      eapply joined_fail; [| | | |eapply IH; [done|done|exact E]]; [done| |done|done].
      intros open Ho. eapply ledger_call; [eapply ledger_call; [eapply ledger_call; [exact Ho|]|]|]; done.
  - destruct (join_members net _ _ primary timing peers members) as [[c1 sv] f1] eqn:E.
    intros [= <- <- <-].
    eapply joined_fail; [| | | |eapply IH; [done|done|exact E]]; [done| |done|done].
    intros open Ho. eapply ledger_call; [eapply ledger_call; [exact Ho|]|]; done.
Qed.

(** ** The whole attempt *)

Lemma disconnect_conn_session c k :
  connection (fst (disconnect_conn net c k)) = connection c.
Proof. unfold disconnect_conn. by destruct (conn_disconnected k). Qed.

Lemma disconnect_clears c c' u : disconnect net c = (c', Ok u) -> stored c' = [].
Proof.
  unfold disconnect. set (c1 := fold_left _ _ c). cbn.
  destruct (connection c1) as [k|] eqn:E.
  - destruct (disconnect_conn net _ k) as [c2 [[]|e]] eqn:Ed; [|done]. intros [= <-].
    unfold stored. cbn. unfold disconnect_conn in Ed.
    destruct (conn_disconnected k); by injection Ed as <-.
  - intros [= <-]. unfold stored. cbn. done.
Qed.

Lemma ledger_teardown_all c0 c links :
  ledger c0 c links -> ledger c0 (fold_left (fun c l => call c (CTeardown l)) links c) [] /\
  same_session c (fold_left (fun c l => call c (CTeardown l)) links c) /\
  primary_attempt_log (fold_left (fun c l => call c (CTeardown l)) links c) = primary_attempt_log c.
Proof.
  revert c. induction links as [|l links IH]; intros c Hl; cbn; [done|].
  assert (H : ledger c0 (call c (CTeardown l)) links) by (by eapply ledger_call).
  destruct (IH _ H) as (H1 & (A1 & A2 & A3) & H3).
  split; [done|]. split; [by unfold same_session; rewrite A1, A2, A3|by rewrite H3].
Qed.

(** What a report means for the requested identities and the stored links. *)
Definition report_ok (ids : list DeviceId) (c0 c : Client) (report : GroupConnectReport) : Prop :=
  match report_primary report with
  | Some p =>
      head (report_connected report) = Some p /\
      report_connected report ++ receivers (report_failures report) ≡ₚ ids /\
      fst <$> stored c = report_connected report
  | None =>
      report_connected report = [] /\ stored c = [] /\
      exists torn_down, torn_down ++ receivers (report_failures report) ≡ₚ ids
  end /\ ledger c0 c (stored c) /\ (length (primary_attempt_log c) <= 2)%nat.

Lemma single_survivor_ok ids c0 c m failures c' report :
  stored c = [] -> em_link m = Some (dev_id (em_device m), Ptp) ->
  ledger c0 c [(dev_id (em_device m), Ptp)] ->
  dev_id (em_device m) :: receivers failures ≡ₚ ids ->
  (length (primary_attempt_log c) <= 2)%nat ->
  finish_single_survivor_session net c m failures = (c', report) -> report_ok ids c0 c' report.
Proof.
  intros Hst Hlink Hl Hp Hlog. unfold finish_single_survivor_session. rewrite Hlink.
  set (ptp := (dev_id (em_device m), Ptp)) in *. set (ntp := (dev_id (em_device m), Ntp)).
  assert (H1 : ledger c0 (call c (CTeardown ptp)) []) by (by eapply ledger_call).
  assert (Hfail : forall cf failure, ledger c0 cf [] -> same_session c cf ->
    primary_attempt_log cf = primary_attempt_log c ->
    failure_receiver failure = dev_id (em_device m) ->
    report_ok ids c0 cf (no_session (failures ++ [failure]))).
  { intros cf failure Hlf (A1 & A2 & _) Hlogf Hf.
    assert (Hsf : stored cf = []) by (unfold stored in *; by rewrite A1, A2).
    unfold report_ok. rewrite Hsf, Hlogf. cbn. split; [|done]. split; [done|]. split; [done|].
    exists []. cbn. rewrite <- Hp. unfold receivers. rewrite fmap_app. cbn.
    rewrite Hf. by rewrite (Permutation_app_comm _ [_]). }
  unfold connect_member. destruct (connect_auto net (em_device m) Ntp) as [[]|source].
  - fold ntp. cbn zeta.
    assert (H2 : ledger c0 (call (call c (CTeardown ptp)) (CConnect ntp true)) [ntp])
      by (by eapply ledger_call).
    set (c2 := call (call c (CTeardown ptp)) (CConnect ntp true)) in *.
    set (c3 := call (call c2 (CRenderDelay ntp (render_delay_ms c2))) (CSetup ntp)).
    assert (H3 : ledger c0 c3 [ntp]).
    { eapply ledger_call; [eapply ledger_call; [exact H2|]|]; done. }
    destruct (setup_stream net ntp) as [[]|source]; cbn; intros [= <- <-].
    + unfold report_ok, stored. cbn. split; [|split; [by eapply ledger_same_calls|done]].
      by split; [|split].
    + apply Hfail; [|done|done|done]. by eapply ledger_call.
  - cbn. intros [= <- <-]. apply Hfail; [|done|done|done]. by eapply ledger_call.
Qed.

Lemma mapM_others_ids (others : list (Device * Link)) :
  Forall (fun '(d, l) => l = (dev_id d, Ptp)) others ->
  fst <$> others.*2 = dev_id <$> others.*1.
Proof.
  induction 1 as [|[d l] others Hd _ IH]; cbn; [done|]. subst l. cbn. by rewrite IH.
Qed.

Lemma stored_links (ls : list Link) : conn_link <$> (store_link <$> ls) = ls.
Proof. induction ls as [|l ls IH]; cbn; [done|]. by rewrite IH. Qed.

Lemma connect_spec c devices preferred :
  devices <> [] -> NoDup (dev_id <$> devices) ->
  exists c' r, connect_group_best_effort net c devices preferred = Some (c', r) /\
    match r with
    | Err e => snd (disconnect net c) = Err e \/ magic_cookie net = Err e
    | Ok report => report_ok (dev_id <$> devices) (fst (disconnect net c)) c' report
    end.
Proof.
  intros Hne Hn. unfold connect_group_best_effort.
  rewrite (proj2 (find_duplicate_None devices) Hn).
  destruct devices as [|d0 rest] eqn:Edev; [done|]. rewrite <- Edev in *. clear Edev d0 rest.
  destruct (disconnect net c) as [c1 [[]|e]] eqn:Ed;
    [|eexists _, _; split; [done|by left]]. cbn [fst snd].
  destruct (magic_cookie net) as [[]|e]; [|eexists _, _; split; [done|by right]].
  set (c2 := c1 <| primary_attempt_log := [] |> <| timing_protocol_log := ∅ |>).
  destruct (establish net c2 devices) as [[c3 members] failures] eqn:Ee.
  destruct (establish_spec c1 c2 devices c3 members failures Ee)
    as (Hled & Hsess & Hlog & Hok & Hp & Hids & _).
  assert (Hst2 : stored c2 = []) by (apply (disconnect_clears _ _ _ Ed)).
  assert (Hm : members_ok (dev_id <$> devices) members failures).
  { split; [done|]. split.
    - rewrite <- Hp in Hn. by apply NoDup_app in Hn as (? & _).
    - by rewrite Hids. }
  assert (Hl3 : ledger c1 c3 (open_links members)).
  { eapply ledger_perm; [apply (Hled []); eapply ledger_same_calls; [apply ledger_refl|done]|].
    rewrite app_nil_r. symmetry. apply Permutation_rev. }
  destruct (choose_spec 2 c1 (dev_id <$> devices) c3 members failures [] preferred Hm Hl3)
    as (ch & Hch & (Hmok & Hlch & Hprim) & Hs4 & Hlen).
  rewrite Hlog in Hlen. cbn in Hlen.
  rewrite Hch. cbn [mbind option_bind].
  assert (Hst4 : forall cx, same_session (ch_client ch) cx -> stored cx = []).
  { intros cx (A1 & A2 & _). destruct Hsess as (B1 & B2 & _), Hs4 as (C1 & C2 & _).
    unfold stored in *. by rewrite A1, A2, C1, C2, B1, B2. }
  destruct (ch_primary ch) as [[i timing]|].
  2:{ destruct (ledger_teardown_all c1 (ch_client ch) _ Hlch) as (Ht & Hst & Hlt).
      eexists _, _. split; [done|]. unfold report_ok. cbn.
      change (omap (fun slot => m ← slot; em_link m) (ch_members ch))
        with (open_links (ch_members ch)).
      rewrite (Hst4 _ Hst), Hlt. split; [|split; [done|lia]]. split; [done|]. split; [done|].
      exists (fst <$> open_links (ch_members ch)). apply Hmok. }
  destruct Hprim as (m & Hi & Hlink & Hptp & ->). set (plink := (dev_id (em_device m), Ptp)) in *.
  destruct (join_members net _ 0 i _ _ _) as [[c5 survivors] more] eqn:Ej.
  destruct (join_spec c1 (ch_members ch) (ch_members ch) [] _ _ _ _ _ _ _ (proj1 Hmok) eq_refl Ej)
    as (others & Hmap & Hoth & Hperm & Hled5 & Hs5 & Hlog5).
  pose proof (other_links_split 0 i (ch_members ch) m plink ltac:(lia)
                ltac:(by rewrite Nat.sub_0_r) Hlink) as Hsplit. cbn [length] in *.
  assert (Hl5 : ledger c1 c5 (others.*2 ++ [plink])).
  { apply Hled5. eapply ledger_perm; [exact Hlch|]. rewrite Hsplit. by rewrite (Permutation_app_comm _ [plink]). }
  assert (Hall : dev_id (em_device m) :: ((fst <$> others.*2) ++ receivers (ch_failures ch ++ more))
                 ≡ₚ dev_id <$> devices).
  { destruct Hmok as (_ & _ & <-). rewrite Hsplit. cbn. constructor. rewrite <- Hperm.
    unfold receivers. rewrite fmap_app, <- !app_assoc.
    apply Permutation_app_head, Permutation_app_comm. }
  assert (Hlen5 : (length (primary_attempt_log c5) <= 2)%nat) by (rewrite Hlog5; lia).
  destruct survivors as [|s0 srest].
  - injection Hmap as <-. rewrite Hi. cbn [mbind option_bind].
    destruct (finish_single_survivor_session net c5 m _) as [c6 report] eqn:Ef.
    eexists _, _. split; [done|].
    eapply single_survivor_ok; [by apply Hst4|exact Hlink|exact Hl5|exact Hall|exact Hlen5|exact Ef].
  - assert (Hat : member_at (ch_members ch) i = Some (em_device m, plink)).
    { unfold member_at. rewrite Hi. cbn. by rewrite Hlink. }
    rewrite Hat. cbn [mbind option_bind]. rewrite Hmap. cbn [mbind option_bind].
    eexists _, _. split; [done|]. unfold report_ok, stored. cbn.
    rewrite stored_links. split; [|split; [|done]].
    + split; [done|]. rewrite <- (mapM_others_ids others Hoth). split; [|done].
      by rewrite <- Hall.
    + eapply ledger_same_calls; [|done]. eapply ledger_perm; [exact Hl5|].
      by rewrite (Permutation_app_comm _ [plink]).
Qed.

(** C10: A best-effort connect of distinct receivers never panics and gives an
    error only when the old session cannot be ended or the encoder cannot be
    made.  Otherwise, with a primary, the session lists it first, the stored
    connections are exactly the receivers reported as connected, and every
    requested receiver is reported exactly once, as connected or as failed;
    without one, nothing is connected and nothing is stored.  At most two
    receivers are ever tried as primary. *)
Theorem group_connect_accounts_for_everyone (c : Client) (devices : list Device)
    (preferred : option DeviceId) :
  devices <> [] -> NoDup (dev_id <$> devices) ->
  exists c' r, connect_group_best_effort net c devices preferred = Some (c', r) /\
    match r with
    | Err e => snd (disconnect net c) = Err e \/ magic_cookie net = Err e
    | Ok report =>
        (length (primary_attempt_log c') <= 2)%nat /\
        match report_primary report with
        | Some p =>
            head (report_connected report) = Some p /\
            report_connected report ++ receivers (report_failures report) ≡ₚ dev_id <$> devices /\
            fst <$> stored c' = report_connected report
        | None => report_connected report = [] /\ stored c' = []
        end
    end.
Proof.
  intros Hne Hn. destruct (connect_spec c devices preferred Hne Hn) as (c' & r & Hc & Hr).
  exists c', r. split; [done|]. destruct r as [report|e]; [|done].
  destruct Hr as (Hrep & _ & Hlog). split; [done|].
  destruct (report_primary report); [done|]. by destruct Hrep as (? & ? & _).
Qed.

(** C11: No connection leaks.  Of the links opened during an attempt, counted
    with multiplicity, each is either stored in the client or was torn down
    exactly once, never both, however establishment, the two primary attempts,
    the joins and the single-receiver reconnect turn out. *)
Theorem group_connect_leaks_nothing (c : Client) (devices : list Device)
    (preferred : option DeviceId) (c' : Client) (report : GroupConnectReport) :
  NoDup (dev_id <$> devices) ->
  connect_group_best_effort net c devices preferred = Some (c', Ok report) ->
  exists cs, calls c' = calls (fst (disconnect net c)) ++ cs /\
             opened cs ≡ₚ stored c' ++ closed cs.
Proof.
  intros Hn Hc. destruct devices as [|d devices]; [done|].
  destruct (connect_spec c (d :: devices) preferred ltac:(done) Hn) as (c1 & r & Hc' & Hr).
  rewrite Hc in Hc'. injection Hc' as <- <-. apply Hr.
Qed.

(** A lone receiver without PTP timing is connected, torn down and reported
    neither as connected nor as failed. *)
Theorem receiver_without_ptp_is_dropped (c : Client) (d : Device) (preferred : option DeviceId) :
  supports_ptp d = false -> connection c = None -> group_connections c = [] ->
  magic_cookie net = Ok tt -> connect_auto net d Ptp = Ok tt ->
  exists c', connect_group_best_effort net c [d] preferred = Some (c', Ok (no_session [])) /\
    calls c' = calls c ++ [CConnect (dev_id d, Ptp) true; CTeardown (dev_id d, Ptp)].
Proof.
  intros Hptp Hconn Hgrp Hcookie Hok. unfold connect_group_best_effort.
  cbn [find_duplicate_member find_duplicate_from]. cbn.
  unfold disconnect. rewrite Hgrp. cbn. rewrite Hconn. cbn. rewrite Hcookie.
  unfold connect_member. rewrite Hok. cbn.
  assert (Hch : choose_primary [d] preferred = None).
  { pose proof (choose_primary_spec [d] preferred) as H.
    destruct (choose_primary [d] preferred) as [p|]; [|done].
    destruct H as (Hin & Hp & _). apply list_elem_of_singleton in Hin. congruence. }
  rewrite Hch. cbn. eexists. split; [reflexivity|]. cbn. by rewrite <- app_assoc.
Qed.

(** When the old session's teardown fails, the attempt ends before it starts;
    the dead connection stays stored, and only the next attempt passes it. *)
Theorem failed_teardown_blocks_reconnect (c : Client) (k : Connection) (devices : list Device)
    (preferred : option DeviceId) (e : Error) :
  devices <> [] -> NoDup (dev_id <$> devices) -> group_connections c = [] ->
  connection c = Some k -> conn_disconnected k = false -> disconnect_link net (conn_link k) = Err e ->
  exists c', connect_group_best_effort net c devices preferred = Some (c', Err e) /\
    stored c' = [conn_link k] /\ snd (disconnect net c') = Ok tt.
Proof.
  intros Hne Hn Hg Hk Hd He. unfold connect_group_best_effort.
  rewrite (proj2 (find_duplicate_None devices) Hn). destruct devices as [|d rest]; [done|].
  unfold disconnect at 1. rewrite Hg. cbn. rewrite Hk. unfold disconnect_conn at 1. rewrite Hd, He.
  eexists. split; [reflexivity|]. by split.
Qed.

End Props.

(** ** Witnesses *)

Definition ptp_device (n : Z) : Device :=
  let d := example_device (receiver_n n) (lit "speaker") in
  {| dev_id := dev_id d; dev_name := dev_name d; dev_model := dev_model d;
     dev_manufacturer := None; dev_serial_number := None; dev_addresses := dev_addresses d;
     dev_port := 7000; dev_features := Z.shiftl 1 41; dev_required_sender_features := None;
     dev_public_key := None; dev_source_version := MIN_PTP_VERSION; dev_firmware_version := None;
     dev_os_version := None; dev_protocol_version := None; dev_requires_password := false;
     dev_status_flags := 0; dev_access_control := None; dev_pairing_identity := None;
     dev_system_pairing_identity := None; dev_bluetooth_address := None;
     dev_homekit_home_id := None; dev_group_id := None; dev_is_group_leader := false;
     dev_group_public_name := None; dev_group_contains_discoverable_leader := false;
     dev_home_group_id := None; dev_household_id := None; dev_parent_group_id := None;
     dev_parent_group_contains_discoverable_leader := false; dev_tight_sync_id := None;
     dev_raop_port := None; dev_raop_encryption_types := None; dev_raop_codecs := None;
     dev_raop_transport := None; dev_raop_metadata_types := None;
     dev_raop_digest_auth := false; dev_vodka_version := None |}.

(** Receiver 2 refuses the connection and receiver 1 fails as primary. *)
Definition sample_net : Network :=
  {| connect_auto d _ := if bool_decide (dev_id d = receiver_n 2) then Err ETimeout else Ok tt;
     setup_stream l := if bool_decide (l = (receiver_n 1, Ptp)) then Err ETimeout else Ok tt;
     ptp_clock_rx _ := true;
     send_setpeers _ _ := Ok tt;
     join_group_timing _ _ _ := Ok tt;
     local_addr _ := None;
     disconnect_link _ := Ok tt;
     magic_cookie := Ok tt |}.

Definition fresh_client : Client :=
  {| connection := None; group_connections := []; group := Some (new_group (ptp_device 7));
     render_delay_ms := 200; primary_attempt_log := []; timing_protocol_log := ∅; calls := [] |}.

Definition four : list Device := [ptp_device 1; ptp_device 2; ptp_device 3; ptp_device 4].
Definition sample_run : option (Client * Result GroupConnectReport Error) :=
  connect_group_best_effort sample_net fresh_client four None.

Lemma four_distinct : NoDup (dev_id <$> four).
Proof. apply (bool_decide_unpack _). vm_compute. exact I. Qed.

(** Receiver 3 takes over as primary.  The report lists the failures in the
    order they happened, 2 before 1, not in input order. *)
Lemma sample_report :
  match sample_run with
  | Some (c, Ok report) =>
      report_primary report = Some (receiver_n 3) /\
      report_connected report = [receiver_n 3; receiver_n 4] /\
      receivers (report_failures report) = [receiver_n 2; receiver_n 1] /\
      primary_attempt_log c = [receiver_n 1; receiver_n 3]
  | _ => False
  end.
Proof. vm_compute. repeat split; reflexivity. Qed.

(** After a failed attempt the metadata of the previous group is still there. *)
Lemma stale_group_survives :
  match connect_group_best_effort sample_net fresh_client [ptp_device 2] None with
  | Some (c, Ok report) =>
      report_primary report = None /\ stored c = [] /\
      match group c with Some g => group_leader_id g = receiver_n 7 | None => False end
  | _ => False
  end.
Proof. vm_compute. repeat split; reflexivity. Qed.

Lemma group_connect_accounts_for_everyone_witness :
  exists c' r, connect_group_best_effort sample_net fresh_client four None = Some (c', r).
Proof.
  destruct (group_connect_accounts_for_everyone sample_net fresh_client four None
              ltac:(discriminate) four_distinct) as (c' & r & H & _).
  exists c', r. exact H.
Defined.

Lemma group_connect_leaks_nothing_witness :
  match connect_group_best_effort sample_net fresh_client four None with
  | Some (c', Ok report) =>
      exists cs, calls c' = calls (fst (disconnect sample_net fresh_client)) ++ cs /\
                 opened cs ≡ₚ stored c' ++ closed cs
  | _ => True
  end.
Proof.
  destruct (connect_group_best_effort sample_net fresh_client four None) as [[c' [report|e]]|] eqn:E.
  - exact (group_connect_leaks_nothing sample_net fresh_client four None c' report four_distinct E).
  - exact I.
  - exact I.
Defined.

End GroupConnectProps.
