(* ===== verification/Persistence.v ===== *)
(** * Durable device state

    [apps/openaircast/src/backend/persistence.rs] and the group values of
    [model.rs]: the two schema versions, their validation and conversions, the
    effective volume, and the file-backed store.

    JSON goes through the class [Json], whose law is that what was written is
    read back; the type of documents is abstract.  The file system is the
    content of the state file and of the legacy volume file, and a script of
    the faults its calls meet ([faults]: an empty script never fails).  A
    replacement is atomic: the file changes in the last step or not at all. *)

From S2P Require Import Prelude Float32 AppState Model Text Calibration.
Import Model Calibration.

Module Persistence.

(** ** Values *)

Notation SavedGroupId := Z (only parsing).
Notation Volume := f32 (only parsing).

Definition DEFAULT_MASTER : Volume := f32_quarter.
Definition UNITY : Volume := f32_one.
Definition MUTED : Volume := f32_zero.

Record SavedGroupMember := {
  sm_receiver : ReceiverId;
  sm_last_known_name : text;
  sm_level : Volume;
}.
Record SavedGroup := {
  grp_id : SavedGroupId;
  grp_name : text;
  grp_members : list SavedGroupMember;
}.

Inductive AudioEndpointPreference :=
| SystemDefault
| Explicit (id last_known_name : text).
#[export] Instance AudioEndpointPreference_eq_dec : EqDecision AudioEndpointPreference.
Proof. solve_decision. Defined.

#[export] Instance LatencyPreset_eq_dec : EqDecision LatencyPreset.
Proof. solve_decision. Defined.

Record PersistedStateV1 := {
  version : Z;
  p_master_volume : Volume;
  p_muted : bool;
  p_receiver_levels : gmap ReceiverId Volume;
  p_saved_groups : list SavedGroup;
  p_last_desired_members : gset ReceiverId;
  p_audio_endpoint : AudioEndpointPreference;
  p_latency_preset : LatencyPreset;
  p_auto_connect : bool;
}.
#[export] Instance eta_PersistedStateV1 : Eta PersistedStateV1 := fun s =>
  {| version := version s; p_master_volume := p_master_volume s; p_muted := p_muted s;
     p_receiver_levels := p_receiver_levels s; p_saved_groups := p_saved_groups s;
     p_last_desired_members := p_last_desired_members s;
     p_audio_endpoint := p_audio_endpoint s; p_latency_preset := p_latency_preset s;
     p_auto_connect := p_auto_connect s |}.

Definition default_v1 : PersistedStateV1 :=
  {| version := 1; p_master_volume := DEFAULT_MASTER; p_muted := false;
     p_receiver_levels := ∅; p_saved_groups := []; p_last_desired_members := ∅;
     p_audio_endpoint := SystemDefault; p_latency_preset := Normal; p_auto_connect := false |}.

(** Schema version 2 carries the same fields and the calibration section; its
    own [version] is 2 and that of [base] plays no part. *)
Record PersistedStateV2 := {
  v2_version : Z;
  base : PersistedStateV1;
  calibration : CalibrationStateV2;
}.
#[export] Instance eta_PersistedStateV2 : Eta PersistedStateV2 := fun s =>
  {| v2_version := v2_version s; base := base s; calibration := calibration s |}.

Definition default_section : CalibrationStateV2 := {| reference := None; delays_ns := ∅ |}.
Definition default_v2 : PersistedStateV2 :=
  {| v2_version := 2; base := default_v1; calibration := default_section |}.
Definition v2_of_v1 (state : PersistedStateV1) : PersistedStateV2 :=
  {| v2_version := 2; base := state; calibration := default_section |}.
Definition into_v1_projection (state : PersistedStateV2) : PersistedStateV1 :=
  (base state) <| version := 1 |>.

(** ** Equality: volumes compare as IEEE values *)

Definition member_eqb (a b : SavedGroupMember) : bool :=
  (sm_receiver a ==? sm_receiver b) && (sm_last_known_name a ==? sm_last_known_name b)
  && f32_eqb (sm_level a) (sm_level b).
Definition group_eqb (a b : SavedGroup) : bool :=
  (grp_id a ==? grp_id b) && (grp_name a ==? grp_name b)
  && list_eqb member_eqb (grp_members a) (grp_members b).
Definition v1_eqb (a b : PersistedStateV1) : bool :=
  (version a =? version b) && f32_eqb (p_master_volume a) (p_master_volume b)
  && eqb (p_muted a) (p_muted b) && levels_eqb (p_receiver_levels a) (p_receiver_levels b)
  && list_eqb group_eqb (p_saved_groups a) (p_saved_groups b)
  && (p_last_desired_members a ==? p_last_desired_members b)
  && (p_audio_endpoint a ==? p_audio_endpoint b)
  && (p_latency_preset a ==? p_latency_preset b)
  && eqb (p_auto_connect a) (p_auto_connect b).

(** ** Validation *)

(** What the message of [PersistError::Invalid] names. *)
Inductive Invalidity :=
| UnsupportedVersion (version : Z)
| LatencyNotEnabled
| NameNotTrimmed (name : text)
| DuplicateName (name : text)
| NoMembers (name : text)
| DuplicateMember (name : text) (receiver : ReceiverId)
| SchemaV2Invalid.

Inductive PersistError :=
| CreateDirectory | Serialize | WriteTemporary | Sync | Replace
| Invalid (why : Invalidity)
| Io.

Fixpoint first_duplicate (seen : list ReceiverId) (members : list SavedGroupMember)
  : option ReceiverId :=
  match members with
  | [] => None
  | m :: rest =>
      if bool_decide (sm_receiver m ∈ seen) then Some (sm_receiver m)
      else first_duplicate (sm_receiver m :: seen) rest
  end.

Section Validate.
(** Unicode lower-casing of the Standard Library. *)
Context (to_lowercase : text -> text).

Fixpoint validate_groups (seen_names : list text) (groups : list SavedGroup)
  : Result unit PersistError :=
  match groups with
  | [] => Ok tt
  | group :: rest =>
      let trimmed := trim (grp_name group) in
      if (trimmed ==? []) || negb (trimmed ==? grp_name group)
      then Err (Invalid (NameNotTrimmed (grp_name group)))
      else if bool_decide (to_lowercase trimmed ∈ seen_names)
      then Err (Invalid (DuplicateName trimmed))
      else if bool_decide (grp_members group = []) then Err (Invalid (NoMembers trimmed))
      else match first_duplicate [] (grp_members group) with
           | Some r => Err (Invalid (DuplicateMember trimmed r))
           | None => validate_groups (to_lowercase trimmed :: seen_names) rest
           end
  end.

Definition validate_preferences (latency_preset : LatencyPreset) (saved_groups : list SavedGroup)
  : Result unit PersistError :=
  if is_none (enabled_config latency_preset) then Err (Invalid LatencyNotEnabled)
  else validate_groups [] saved_groups.

Definition validate (self : PersistedStateV1) : Result unit PersistError :=
  if negb (version self =? 1) then Err (Invalid (UnsupportedVersion (version self)))
  else validate_preferences (p_latency_preset self) (p_saved_groups self).

Definition validate_v2 (self : PersistedStateV2) : Result unit PersistError :=
  if negb (v2_version self =? 2) then Err (Invalid (UnsupportedVersion (v2_version self)))
  else validate_preferences (p_latency_preset (base self)) (p_saved_groups (base self)).
End Validate.

(** ** Effective volume *)

Definition effective_volume (master level : Volume) (muted : bool) : Volume :=
  if muted then MUTED
  else match new_volume (f32_mul master level) with Ok v => v | Err _ => MUTED end.

(** ** The store as the controller sees it *)

Inductive LoadOutcome :=
| Loaded (state : PersistedStateV1)
| FreshDefaults
| RecoveredCorrupt
| MigratedLegacyVolume (state : PersistedStateV1).

Definition into_state (o : LoadOutcome) : PersistedStateV1 :=
  match o with
  | Loaded state | MigratedLegacyVolume state => state
  | FreshDefaults | RecoveredCorrupt => default_v1
  end.

Class StateStore (S : Type) := {
  load : S -> S * Result LoadOutcome PersistError;
  save : S -> PersistedStateV1 -> S * Result unit PersistError;
  load_calibration : S -> S * Result (option CalibrationStateV2) PersistError;
  save_calibration : S -> option CalibrationStateV2 -> S * Result unit PersistError }.

(** A [Volume] is validated when it is made. *)
Definition volume_ok (v : Volume) : Prop := new_volume v = Ok v.
Definition doc_ok (d : PersistedStateV1) : Prop :=
  volume_ok (p_master_volume d) /\
  map_Forall (fun _ => volume_ok) (p_receiver_levels d) /\
  Forall (fun g => Forall (fun m => volume_ok (sm_level m)) (grp_members g)) (p_saved_groups d).

(** What a store promises: [document] and [section] are what a later launch
    would read; a write either takes effect or changes nothing. *)
Class StateStoreOk (S : Type) `{StateStore S} := {
  document : S -> option PersistedStateV1;
  section : S -> option CalibrationStateV2;
  save_writes s d s' : doc_ok d -> save s d = (s', Ok tt) ->
    document s' = Some d /\ section s' = section s;
  save_keeps s d s' e : save s d = (s', Err e) ->
    document s' = document s /\ section s' = section s;
  save_calibration_writes s c s' : (forall d, document s = Some d -> doc_ok d) ->
    save_calibration s c = (s', Ok tt) ->
    section s' = Some (default default_section c) /\
    document s' = Some ((default default_v1 (document s)) <| version := 1 |>);
  save_calibration_keeps s c s' e : save_calibration s c = (s', Err e) ->
    document s' = document s /\ section s' = section s }.

(** ** The file *)

(** [serde_json] on the two documents; [probe] is [VersionProbe]. *)
Class Json (Bytes : Type) := {
  probe : Bytes -> option Z;
  from_slice_v1 : Bytes -> option PersistedStateV1;
  from_slice_v2 : Bytes -> option PersistedStateV2;
  to_vec_v1 : PersistedStateV1 -> Result Bytes PersistError;
  to_vec_v2 : PersistedStateV2 -> Result Bytes PersistError;
  probe_v1 b d : from_slice_v1 b = Some d -> probe b = Some (version d);
  probe_v2 b d : from_slice_v2 b = Some d -> probe b = Some (v2_version d);
  v1_read_back d b : doc_ok d -> to_vec_v1 d = Ok b -> from_slice_v1 b = Some d;
  v2_read_back d b : doc_ok (base d) -> to_vec_v2 d = Ok b ->
    exists d', from_slice_v2 b = Some d' /\ v2_version d' = v2_version d /\
      into_v1_projection d' = into_v1_projection d /\ calibration d' = calibration d }.

Inductive StateDocument := V1 (state : PersistedStateV1) | V2 (state : PersistedStateV2).
Inductive ParseStateError := Unrecognizable | UnknownVersion (version : Z) | MalformedSchemaV2.

Section FileStore.
Context {Bytes : Type} `{Json Bytes} (to_lowercase : text -> text).
(** [raw.trim().parse::<f32>()] *)
Context (parse_f32 : text -> option f32).

Record FileStore := {
  file : option Bytes;
  quarantined : list Bytes;
  legacy_volume : option text;
  faults : list bool;
}.
#[export] Instance eta_FileStore : Eta FileStore := fun s =>
  {| file := file s; quarantined := quarantined s; legacy_volume := legacy_volume s;
     faults := faults s |}.

(** One call of the operating system: whether it failed. *)
Definition syscall (s : FileStore) : FileStore * bool :=
  match faults s with [] => (s, false) | f :: rest => (s <| faults := rest |>, f) end.

Definition parse_state_document (bytes : Bytes) : Result StateDocument ParseStateError :=
  match probe bytes with
  | None => Err Unrecognizable
  | Some v =>
      if v =? 1 then
        match from_slice_v1 bytes with Some d => Ok (V1 d) | None => Err Unrecognizable end
      else if v =? 2 then
        match from_slice_v2 bytes with Some d => Ok (V2 d) | None => Err MalformedSchemaV2 end
      else Err (UnknownVersion v)
  end.

(** [NotFound] is [Ok None]; every other failure is an error. *)
Definition read_state_bytes (s : FileStore) : FileStore * Result (option Bytes) PersistError :=
  let '(s, failed) := syscall s in
  (s, if failed then Err Io else Ok (file s)).

Definition quarantine_corrupt (s : FileStore) : FileStore * Result LoadOutcome PersistError :=
  let '(s, failed) := syscall s in
  match failed, file s with
  | false, Some bytes =>
      (s <| file := None |> <| quarantined := bytes :: quarantined s |>, Ok RecoveredCorrupt)
  | _, _ => (s, Err Io)
  end.

Definition replace_atomically (s : FileStore) (bytes : Bytes)
  : FileStore * Result unit PersistError :=
  let '(s, failed) := syscall s in
  if failed then (s, Err CreateDirectory) else
  let '(s, failed) := syscall s in
  if failed then (s, Err WriteTemporary) else
  let '(s, failed) := syscall s in
  if failed then (s, Err Sync) else
  let '(s, failed) := syscall s in
  if failed then (s, Err Replace) else (s <| file := Some bytes |>, Ok tt).

Definition write_bytes (s : FileStore) (r : Result Bytes PersistError)
  : FileStore * Result unit PersistError :=
  match r with Ok bytes => replace_atomically s bytes | Err e => (s, Err e) end.

(** [write_atomic_sync]: a calibration section on disk is carried forward. *)
Definition write_atomic_sync (s : FileStore) (state : PersistedStateV1)
  : FileStore * Result unit PersistError :=
  match validate to_lowercase state with
  | Err e => (s, Err e)
  | Ok _ =>
      match read_state_bytes s with
      | (s, Err e) => (s, Err e)
      | (s, Ok content) =>
          let carried :=
            match content with
            | Some bytes =>
                match parse_state_document bytes with Ok (V2 d) => Some (calibration d) | _ => None end
            | None => None
            end in
          write_bytes s
            match carried with
            | Some c => to_vec_v2 ((v2_of_v1 state) <| calibration := c |>)
            | None => to_vec_v1 state
            end
      end
  end.

Definition write_atomic_sync_v2 (s : FileStore) (state : PersistedStateV2)
  : FileStore * Result unit PersistError :=
  match validate_v2 to_lowercase state with
  | Err e => (s, Err e)
  | Ok _ => write_bytes s (to_vec_v2 state)
  end.

Definition parse_legacy_volume (raw : text) : option Volume :=
  parsed ← parse_f32 (trim raw);
  if negb (f32_is_finite parsed) then None
  else match new_volume (f32_clamp parsed f32_zero f32_one) with
       | Ok v => Some v | Err _ => None
       end.

Definition load_missing (s : FileStore) : FileStore * LoadOutcome :=
  match legacy_volume s ≫= parse_legacy_volume with
  | None => (s, FreshDefaults)
  | Some volume =>
      let state := default_v1 <| p_master_volume := volume |> in
      ((write_atomic_sync s state).1, MigratedLegacyVolume state)
  end.

Definition load_blocking (s : FileStore) : FileStore * Result LoadOutcome PersistError :=
  match read_state_bytes s with
  | (s, Ok (Some bytes)) =>
      match parse_state_document bytes with
      | Ok (V1 state) => (s, let? _ := validate to_lowercase state in Ok (Loaded state))
      | Ok (V2 state) =>
          (s, let? _ := validate_v2 to_lowercase state in Ok (Loaded (into_v1_projection state)))
      | Err _ => quarantine_corrupt s
      end
  | (s, Ok None) => let '(s, o) := load_missing s in (s, Ok o)
  | (s, Err _) => quarantine_corrupt s
  end.

Definition load_calibration_blocking (s : FileStore)
  : FileStore * Result (option CalibrationStateV2) PersistError :=
  match read_state_bytes s with
  | (s, Err e) => (s, Err e)
  | (s, Ok None) => (s, Ok None)
  | (s, Ok (Some bytes)) =>
      (s, Ok match parse_state_document bytes with
             | Ok (V2 state) => Some (calibration state) | _ => None
             end)
  end.

(** The document a calibration section is merged into. *)
Definition merge_base (s : FileStore) (content : option Bytes)
  : FileStore * Result PersistedStateV2 PersistError :=
  match content with
  | None => (s, Ok default_v2)
  | Some bytes =>
      match parse_state_document bytes with
      | Ok (V1 state) => (s, Ok (v2_of_v1 state))
      | Ok (V2 state) => (s, Ok state)
      | Err (UnknownVersion v) => (s, Err (Invalid (UnsupportedVersion v)))
      | Err MalformedSchemaV2 => (s, Err (Invalid SchemaV2Invalid))
      | Err Unrecognizable =>
          match quarantine_corrupt s with
          | (s, Ok _) => (s, Ok default_v2)
          | (s, Err e) => (s, Err e)
          end
      end
  end.

Definition save_calibration_blocking (s : FileStore) (c : option CalibrationStateV2)
  : FileStore * Result unit PersistError :=
  match read_state_bytes s with
  | (s, Err e) => (s, Err e)
  | (s, Ok content) =>
      match merge_base s content with
      | (s, Err e) => (s, Err e)
      | (s, Ok migrated) =>
          write_atomic_sync_v2 s (migrated <| calibration := default default_section c |>)
      end
  end.

#[export] Instance file_store : StateStore FileStore := {
  load := load_blocking;
  save := write_atomic_sync;
  load_calibration := load_calibration_blocking;
  save_calibration := save_calibration_blocking }.

(** ** What the file holds *)

Definition parsed (s : FileStore) : option StateDocument :=
  bytes ← file s; match parse_state_document bytes with Ok d => Some d | Err _ => None end.

Definition file_document (s : FileStore) : option PersistedStateV1 :=
  match parsed s with
  | Some (V1 d) => Some d | Some (V2 d) => Some (into_v1_projection d) | None => None
  end.
Definition file_section (s : FileStore) : option CalibrationStateV2 :=
  match parsed s with Some (V2 d) => Some (calibration d) | _ => None end.

(** ** The file store keeps the promise *)

Lemma syscall_file s s' f : syscall s = (s', f) -> file s' = file s.
Proof. unfold syscall. destruct (faults s); intros [= <- <-]; done. Qed.

Lemma read_file s s' r : read_state_bytes s = (s', r) ->
  file s' = file s /\ (forall c, r = Ok c -> c = file s).
Proof.
  unfold read_state_bytes. destruct (syscall s) as [s1 f] eqn:E.
  apply syscall_file in E. intros [= <- <-]. split; [done|].
  intros c. destruct f; intros [= <-]. done.
Qed.

Lemma replace_file s bytes s' r : replace_atomically s bytes = (s', r) ->
  match r with Ok _ => file s' = Some bytes | Err _ => file s' = file s end.
Proof.
  unfold replace_atomically.
  intros Hr.
  repeat match type of Hr with
  | (let '(_, _) := syscall ?x in _) = _ =>
      let E := fresh "E" in destruct (syscall x) as [? []] eqn:E; apply syscall_file in E
  end; injection Hr as <- <-; cbn; congruence.
Qed.

Lemma write_file s b s' r : write_bytes s b = (s', r) ->
  match r with
  | Ok _ => exists bytes, b = Ok bytes /\ file s' = Some bytes
  | Err _ => file s' = file s
  end.
Proof.
  unfold write_bytes. destruct b as [bytes|e]; [|intros [= <- <-]; done].
  intros Hr. apply replace_file in Hr. destruct r; eauto.
Qed.

Lemma same_file s s' :
  file s' = file s -> file_document s' = file_document s /\ file_section s' = file_section s.
Proof. intros Hf. unfold file_document, file_section, parsed. by rewrite Hf. Qed.

(** What a file written in either schema is read as. *)
Lemma reads_v1 s d bytes :
  doc_ok d -> version d = 1 -> to_vec_v1 d = Ok bytes -> file s = Some bytes ->
  file_document s = Some d /\ file_section s = None.
Proof.
  intros Hd Hv Hb Hf. pose proof (v1_read_back d bytes Hd Hb) as Hs.
  pose proof (probe_v1 _ _ Hs) as Hp.
  unfold file_document, file_section, parsed, parse_state_document. rewrite Hf. cbn.
  rewrite Hp, Hv. cbn. by rewrite Hs.
Qed.

Lemma reads_v2 s d bytes :
  doc_ok (base d) -> v2_version d = 2 -> to_vec_v2 d = Ok bytes -> file s = Some bytes ->
  file_document s = Some (into_v1_projection d) /\ file_section s = Some (calibration d).
Proof.
  intros Hd Hv Hb Hf. destruct (v2_read_back d bytes Hd Hb) as (d' & Hs & Hv' & Hj & Hc).
  pose proof (probe_v2 _ _ Hs) as Hp. rewrite Hv' in Hp.
  unfold file_document, file_section, parsed, parse_state_document. rewrite Hf. cbn.
  rewrite Hp, Hv. cbn. rewrite Hs. by rewrite Hj, Hc.
Qed.

Lemma validate_version d : validate to_lowercase d = Ok tt -> version d = 1.
Proof. unfold validate. destruct (Z.eqb_spec (version d) 1); done. Qed.

Lemma version_one d : version d = 1 -> d <| version := 1 |> = d.
Proof. destruct d; cbn. intros ->. done. Qed.

Lemma write_atomic_spec s d s' r : write_atomic_sync s d = (s', r) ->
  match r with
  | Ok _ => doc_ok d -> file_document s' = Some d /\ file_section s' = file_section s
  | Err _ => file s' = file s
  end.
Proof.
  unfold write_atomic_sync. destruct (validate to_lowercase d) as [[]|e] eqn:Hv;
    [|intros [= <- <-]; done].
  destruct (read_state_bytes s) as [s1 r1] eqn:Hr. apply read_file in Hr as [Hf1 Hc].
  destruct r1 as [content|e]; [|intros [= <- <-]; done].
  specialize (Hc content eq_refl). intros Hw. apply write_file in Hw.
  destruct r as [[]|e]; [|congruence]. destruct Hw as (bytes & Hb & Hf). intros Hd.
  apply validate_version in Hv.
  assert (Hsec : file_section s = match content with
    | Some bytes => match parse_state_document bytes with Ok (V2 d) => Some (calibration d) | _ => None end
    | None => None end).
  { unfold file_section, parsed. rewrite <- Hc. destruct content as [b|]; [|done]. cbn.
    by destruct (parse_state_document b) as [[]|]. }
  rewrite <- Hsec in Hb. destruct (file_section s) as [c|].
  - apply (reads_v2 s') in Hb; [|done|done|done]. destruct Hb as [Hb1 Hb2].
    rewrite Hb1, Hb2. split; [|done]. f_equal. by apply (version_one d).
  - by apply (reads_v1 s') in Hb.
Qed.

Lemma quarantine_file s s' r : quarantine_corrupt s = (s', r) ->
  match r with Ok _ => file s' = None | Err _ => file s' = file s end.
Proof.
  unfold quarantine_corrupt. destruct (syscall s) as [s1 f] eqn:E. apply syscall_file in E.
  destruct f; [intros [= <- <-]; done|]. destruct (file s1) eqn:Ef; intros [= <- <-]; cbn; congruence.
Qed.

Lemma save_calibration_spec s c s' r : save_calibration_blocking s c = (s', r) ->
  match r with
  | Ok _ => (forall d, file_document s = Some d -> doc_ok d) ->
            file_section s' = Some (default default_section c) /\
            file_document s' = Some ((default default_v1 (file_document s)) <| version := 1 |>)
  | Err _ => file_document s' = file_document s /\ file_section s' = file_section s
  end.
Proof.
  unfold save_calibration_blocking. destruct (read_state_bytes s) as [s1 r1] eqn:Hr.
  apply read_file in Hr as [Hf1 Hc]. destruct r1 as [content|e];
    [|intros [= <- <-]; by apply same_file].
  specialize (Hc content eq_refl).
  destruct (merge_base s1 content) as [s2 r2] eqn:Hm.
  assert (Hm' : match r2 with
     | Ok d => into_v1_projection d = (default default_v1 (file_document s)) <| version := 1 |> /\
               (file_document s2 = file_document s /\ file_section s2 = file_section s)
     | Err _ => file_document s2 = file_document s /\ file_section s2 = file_section s end).
  { unfold merge_base in Hm. unfold file_document at 1, parsed.
    rewrite <- Hc. destruct content as [b|]; cbn.
    - destruct (parse_state_document b) as [[d|d]|[|v|]] eqn:Hp; cbn.
      + injection Hm as <- <-. split; [done|by apply same_file].
      + injection Hm as <- <-. split; [done|by apply same_file].
      + destruct (quarantine_corrupt s1) as [s3 r3] eqn:Hq. apply quarantine_file in Hq.
        assert (file_document s = None /\ file_section s = None) as [Hd Hs].
        { unfold file_document, file_section, parsed. rewrite <- Hc. cbn. by rewrite Hp. }
        destruct r3; injection Hm as <- <-; rewrite ?Hd, ?Hs;
          (split; [done|]) || idtac; try (unfold file_document, file_section, parsed; rewrite Hq;
            try rewrite Hf1, <- Hc; cbn; try rewrite Hp; done).
      + injection Hm as <- <-. by apply same_file.
      + injection Hm as <- <-. by apply same_file.
    - injection Hm as <- <-. split; [done|by apply same_file]. }
  destruct r2 as [migrated|e]; [|intros [= <- <-]; done]. destruct Hm' as [Hj [Hd2 Hs2]].
  unfold write_atomic_sync_v2.
  destruct (validate_v2 to_lowercase _) as [[]|e] eqn:Hv; [|intros [= <- <-]; done].
  intros Hw. apply write_file in Hw. destruct r as [[]|e].
  - destruct Hw as (bytes & Hb & Hf). intros Hok.
    assert (Hbase : doc_ok (base migrated)).
    { destruct (file_document s) as [d|] eqn:Ed; cbn in Hj; [specialize (Hok d eq_refl)|];
        destruct migrated as [v [] k]; injection Hj; intros; subst; cbn in *; [done|].
      split; [done|]. split; [apply map_Forall_empty|constructor]. }
    unfold validate_v2 in Hv. cbn in Hv.
    destruct (Z.eqb_spec (v2_version migrated) 2) as [Hv2|]; [|done].
    apply (reads_v2 s') in Hb; [|done|done|done]. destruct Hb as [-> ->]. split; [done|].
    by rewrite <- Hj.
  - by apply same_file in Hw as [-> ->].
Qed.

#[export] Instance file_store_ok : StateStoreOk FileStore.
Proof.
  refine {| document := file_document; section := file_section |}.
  - intros s d s' Hd Hs. by apply write_atomic_spec in Hs; auto.
  - intros s d s' e Hs. apply write_atomic_spec in Hs. by apply same_file.
  - intros s c s' Hd Hs. by apply save_calibration_spec in Hs; auto.
  - intros s c s' e Hs. by apply save_calibration_spec in Hs.
Defined.

(** A disk that no longer fails. *)
Definition healthy (s : FileStore) : FileStore := s <| faults := [] |>.

Lemma load_result s s' :
  file s' = file s -> legacy_volume s' = legacy_volume s ->
  (load (healthy s')).2 = (load (healthy s)).2 /\
  (load_calibration (healthy s')).2 = (load_calibration (healthy s)).2.
Proof.
  intros Hf Hl. cbn. unfold load_blocking, load_calibration_blocking, read_state_bytes, load_missing,
    quarantine_corrupt, syscall. cbn. rewrite Hf, Hl.
  destruct (file s) as [b|]; cbn.
  - by destruct (parse_state_document b) as [[]|[]].
  - by destruct (legacy_volume s ≫= _).
Qed.

Lemma syscall_legacy s : legacy_volume (syscall s).1 = legacy_volume s.
Proof. unfold syscall. by destruct (faults s). Qed.

Lemma replace_legacy s b : legacy_volume (replace_atomically s b).1 = legacy_volume s.
Proof.
  unfold replace_atomically.
  repeat match goal with
  | |- context [let '(_, _) := syscall ?x in _] =>
      let E := fresh "E" in
      pose proof (syscall_legacy x) as E; destruct (syscall x) as [? []]; cbn in E |- *
  end; congruence.
Qed.

Lemma write_legacy s d s' r :
  write_atomic_sync s d = (s', r) -> legacy_volume s' = legacy_volume s.
Proof.
  intros Hw. replace s' with (write_atomic_sync s d).1 by (by rewrite Hw). clear Hw.
  unfold write_atomic_sync, read_state_bytes. destruct (validate to_lowercase d); [|done].
  rewrite <- (syscall_legacy s). destruct (syscall s) as [s1 []]; cbn; [done|].
  unfold write_bytes. case_match; [apply replace_legacy|done].
Qed.

Lemma write_validates s d s' :
  write_atomic_sync s d = (s', Ok tt) -> validate to_lowercase d = Ok tt.
Proof. unfold write_atomic_sync. by destruct (validate to_lowercase d) as [[]|e]. Qed.

Lemma validate_parts d :
  validate to_lowercase d = Ok tt ->
  validate_preferences to_lowercase (p_latency_preset d) (p_saved_groups d) = Ok tt.
Proof. unfold validate. by destruct (version d =? 1). Qed.

Lemma parsed_v2_version b d : parse_state_document b = Ok (V2 d) -> (v2_version d =? 2) = true.
Proof.
  unfold parse_state_document. destruct (probe b) as [v|] eqn:Hp; [|done].
  destruct (v =? 1); [by destruct (from_slice_v1 b)|]. destruct (v =? 2) eqn:E; [|done].
  destruct (from_slice_v2 b) as [d'|] eqn:Hs; [|done]. intros [= ->].
  apply probe_v2 in Hs. congruence.
Qed.

(** A valid document is loaded by the next launch, with its section. *)
Lemma healthy_load s d :
  file_document s = Some d -> validate to_lowercase d = Ok tt ->
  load (healthy s) = (healthy s, Ok (Loaded d)) /\
  load_calibration (healthy s) = (healthy s, Ok (file_section s)).
Proof.
  intros Hdoc Hv. pose proof (validate_parts d Hv) as Hp. revert Hdoc.
  cbn. unfold load_blocking, load_calibration_blocking, read_state_bytes, syscall,
    file_document, file_section, parsed. cbn.
  destruct (file s) as [b|]; [|done]. cbn.
  destruct (parse_state_document b) as [[d1|d2]|] eqn:Hb; [| |done]; intros [= Hj].
  - subst d1. cbn. by rewrite Hv.
  - cbn. split; [|done]. unfold validate_v2. rewrite (parsed_v2_version _ _ Hb). cbn.
    destruct d2 as [v bs k]; cbn in *. subst d. cbn in Hp. by rewrite Hp.
Qed.

(** A launch that loads a document leaves it in place. *)
Lemma load_keeps s s' d : load s = (s', Ok (Loaded d)) ->
  file_document s' = Some d /\ validate to_lowercase d = Ok tt.
Proof.
  cbn. unfold load_blocking. destruct (read_state_bytes s) as [s1 r] eqn:Hr.
  apply read_file in Hr as [Hf Hc].
  destruct r as [[b|]|e].
  - specialize (Hc _ eq_refl). unfold file_document, parsed.
    destruct (parse_state_document b) as [[d1|d2]|] eqn:Hb.
    + destruct (validate to_lowercase d1) as [[]|] eqn:Hv; [|done]. intros [= <- <-].
      rewrite Hf, <- Hc. cbn. by rewrite Hb.
    + destruct (validate_v2 to_lowercase d2) as [[]|] eqn:Hv; [|done]. intros [= <- <-].
      rewrite Hf, <- Hc. cbn. rewrite Hb. split; [done|]. unfold validate_v2 in Hv.
      destruct (v2_version d2 =? 2); [|done]. cbn in Hv. unfold validate. cbn.
      by destruct (validate_preferences _ _ _) as [[]|].
    + unfold quarantine_corrupt. destruct (syscall s1) as [? []]; [done|]. by case_match.
  - unfold load_missing. by destruct (legacy_volume s1 ≫= _).
  - unfold quarantine_corrupt. destruct (syscall s1) as [? []]; [done|]. by case_match.
Qed.

Lemma load_calibration_keeps s s' r : load_calibration s = (s', r) ->
  file s' = file s /\ (forall sec, r = Ok sec -> sec = file_section s).
Proof.
  cbn. unfold load_calibration_blocking. destruct (read_state_bytes s) as [s1 r1] eqn:Hr.
  apply read_file in Hr as [Hf Hc]. unfold file_section, parsed.
  destruct r1 as [[b|]|e]; [specialize (Hc _ eq_refl)|specialize (Hc _ eq_refl)|];
    intros [= <- <-]; (split; [done|]); intros sec [= <-]; rewrite <- Hc; cbn; [|done].
  by destruct (parse_state_document b) as [[]|].
Qed.

(** The state file survives restarts.  When a save succeeds, the next
    launch loads exactly the saved state, and reads exactly the calibration
    section that was on disk before the save; when it fails, at whatever step
    of writing and replacing the file, the next launch reads what it would
    have read without the save. *)
Theorem saved_state_survives_restart (s s' : FileStore) (d : PersistedStateV1)
    (r : Result unit PersistError) :
  doc_ok d -> save s d = (s', r) ->
  match r with
  | Ok _ => (load (healthy s')).2 = Ok (Loaded d) /\
            (load_calibration (healthy s')).2 = Ok (file_section s)
  | Err _ => (load (healthy s')).2 = (load (healthy s)).2 /\
             (load_calibration (healthy s')).2 = (load_calibration (healthy s)).2
  end.
Proof.
  intros Hd Hs. pose proof (write_atomic_spec s d s' r Hs) as Hr.
  destruct r as [[]|e]; [|by apply load_result; [|apply (write_legacy s d s' (Err e))]].
  destruct (Hr Hd) as [Hdoc Hsec]. rewrite <- Hsec.
  by destruct (healthy_load s' d Hdoc (write_validates s d s' Hs)) as [-> ->].
Qed.

(** A document that parses but fails validation ends the launch with an error
    and stays in place, so every later launch ends the same way; only what
    cannot be parsed is moved aside. *)
Theorem invalid_state_blocks_every_launch (s : FileStore) (bytes : Bytes)
    (d : PersistedStateV1) (why : PersistError) :
  faults s = [] -> file s = Some bytes -> parse_state_document bytes = Ok (V1 d) ->
  validate to_lowercase d = Err why -> load s = (s, Err why).
Proof.
  intros Hq Hf Hp Hv. cbn. unfold load_blocking, read_state_bytes, syscall.
  rewrite Hq, Hf, Hp, Hv. done.
Qed.

End FileStore.

(** ** A concrete encoding *)

Definition toy_probe (b : StateDocument) : option Z :=
  Some match b with V1 d => version d | V2 d => v2_version d end.

#[export] Instance toy_json : Json StateDocument.
Proof.
  refine {| probe := toy_probe;
            from_slice_v1 := fun b => match b with V1 d => Some d | V2 _ => None end;
            from_slice_v2 := fun b => match b with V2 d => Some d | V1 _ => None end;
            to_vec_v1 := fun d => Ok (V1 d); to_vec_v2 := fun d => Ok (V2 d) |}.
  - by intros [] d [= ->].
  - by intros [] d [= ->].
  - by intros d b _ [= <-].
  - intros d b _ [= <-]. eauto.
Defined.

(** A tuned document on disk, overwritten by an ordinary save on a disk whose
    first replacement fails. *)
Definition tuned : CalibrationStateV2 :=
  {| reference := None; delays_ns := {[MkDeviceId 0 0 0 0 0 1 := 5000]} |}.
Definition tuned_disk (fs : list bool) : FileStore (Bytes := StateDocument) :=
  {| file := Some (V2 (default_v2 <| calibration := tuned |>)); quarantined := [];
     legacy_volume := None; faults := fs |}.
Definition louder : PersistedStateV1 := default_v1 <| p_master_volume := f32_one |>.

Lemma saved_state_survives_restart_witness :
  let s' := (save (StateStore := file_store id (fun _ => None)) (tuned_disk []) louder).1 in
  (load (StateStore := file_store id (fun _ => None)) (healthy s')).2 = Ok (Loaded louder) /\
  (load_calibration (StateStore := file_store id (fun _ => None)) (healthy s')).2 = Ok (Some tuned).
Proof.
  intros s'.
  assert (Hd : doc_ok louder).
  { split; [reflexivity|]. split; [apply map_Forall_empty|constructor]. }
  exact (saved_state_survives_restart id (fun _ => None) (tuned_disk []) s' louder (Ok tt)
           Hd eq_refl).
Defined.

End Persistence.
