(* ===== verification/Backend.v ===== *)
(** * The published device state and the commands that change it

    [apps/openaircast/src/backend/model.rs] (the authoritative
    [DeviceSnapshot]), [listening_check.rs] (the guard of the test tone),
    [command.rs] (commands, envelopes, receipts and the bounded queue), the
    correlation counters and feeds of [event.rs], and [PendingBatch] of
    [controller.rs], which coalesces the commands of one drain. *)

From S2P Require Import Prelude Float32 AppState Model Wire Text Features Device TxtParser Browser Recovery Discovery Calibration DiagRing Supervisor Persistence.
Import Model Calibration Persistence.

Module Backend.

(** ** The snapshot *)

Inductive RunIntent := Stopped | Running.
#[export] Instance RunIntent_eq_dec : EqDecision RunIntent.
Proof. solve_decision. Defined.

Notation RestartReason := Supervisor.RestartReason (only parsing).
(** A pre-redacted [UserFacingError] is its text. *)
Notation UserFacingError := string (only parsing).

#[export] Existing Instance Supervisor.RestartReason_eq_dec.

Inductive SessionPhase :=
| PhStopped
| PhStarting (generation : Z)
| PhStreaming (generation : Z)
| PhDegraded (generation : Z)
| PhRestarting (generation : Z) (reason : RestartReason)
| PhStopping (generation : Z)
| PhFailed (generation : Z) (error : UserFacingError).
#[export] Instance SessionPhase_eq_dec : EqDecision SessionPhase.
Proof. solve_decision. Defined.

Inductive AudioFlow := Live | SilenceBridged.
#[export] Instance AudioFlow_eq_dec : EqDecision AudioFlow.
Proof. solve_decision. Defined.

Record SessionSnapshot := {
  ss_phase : SessionPhase;
  ss_desired : gset ReceiverId;
  ss_active : gset ReceiverId;
  ss_failed : gset ReceiverId;
  ss_retry_waiting : gset ReceiverId;
  ss_primary : option ReceiverId;
  ss_audio_flow : AudioFlow;
  ss_resume_pending : bool;
}.
#[export] Instance eta_SessionSnapshot : Eta SessionSnapshot := fun s =>
  {| ss_phase := ss_phase s; ss_desired := ss_desired s; ss_active := ss_active s;
     ss_failed := ss_failed s; ss_retry_waiting := ss_retry_waiting s;
     ss_primary := ss_primary s; ss_audio_flow := ss_audio_flow s;
     ss_resume_pending := ss_resume_pending s |}.
#[export] Instance SessionSnapshot_eq_dec : EqDecision SessionSnapshot.
Proof. solve_decision. Defined.
Definition default_session : SessionSnapshot :=
  {| ss_phase := PhStopped; ss_desired := ∅; ss_active := ∅; ss_failed := ∅;
     ss_retry_waiting := ∅; ss_primary := None; ss_audio_flow := SilenceBridged;
     ss_resume_pending := false |}.

#[export] Instance DiscoveryPhase_eq_dec : EqDecision Discovery.DiscoveryPhase.
Proof. solve_decision. Defined.
#[export] Instance DiscoverySnapshot_eq_dec : EqDecision Discovery.DiscoverySnapshot.
Proof. solve_decision. Defined.

Record ReceiverSnapshot := {
  rs_id : ReceiverId;
  rs_name : text;
  rs_model : text;
  rs_lifecycle : ReceiverLifecycle;
}.
#[export] Instance ReceiverSnapshot_eq_dec : EqDecision ReceiverSnapshot.
Proof. solve_decision. Defined.

(** The fields of [SavedGroup], rendered for the shell. *)
Notation SavedGroupSnapshot := SavedGroup (only parsing).

Record AudioEndpoint := { ep_id : text; ep_name : text }.
#[export] Instance AudioEndpoint_eq_dec : EqDecision AudioEndpoint.
Proof. solve_decision. Defined.

Inductive AudioSourceState := Capturing | SilentSystem | Recovering | SourceUnavailable | SourceFailed.
#[export] Instance AudioSourceState_eq_dec : EqDecision AudioSourceState.
Proof. solve_decision. Defined.

Record AudioSourceSnapshot := {
  au_active_endpoints : option (list AudioEndpoint);
  au_refresh_failed : bool;
  au_preference : AudioEndpointPreference;
  au_captured_endpoint : option AudioEndpoint;
  au_state : AudioSourceState;
  au_windows_input_peak_permille : option Z;
  au_pcm_frames_dropped_total : Z;
}.
#[export] Instance eta_AudioSourceSnapshot : Eta AudioSourceSnapshot := fun a =>
  {| au_active_endpoints := au_active_endpoints a; au_refresh_failed := au_refresh_failed a;
     au_preference := au_preference a; au_captured_endpoint := au_captured_endpoint a;
     au_state := au_state a;
     au_windows_input_peak_permille := au_windows_input_peak_permille a;
     au_pcm_frames_dropped_total := au_pcm_frames_dropped_total a |}.
#[export] Instance AudioSourceSnapshot_eq_dec : EqDecision AudioSourceSnapshot.
Proof. solve_decision. Defined.
Definition default_audio_source : AudioSourceSnapshot :=
  {| au_active_endpoints := None; au_refresh_failed := false; au_preference := SystemDefault;
     au_captured_endpoint := None; au_state := SourceUnavailable;
     au_windows_input_peak_permille := None; au_pcm_frames_dropped_total := 0 |}.

Inductive PersistenceSnapshot := PersistIdle | PersistHealthy | PersistError.
#[export] Instance PersistenceSnapshot_eq_dec : EqDecision PersistenceSnapshot.
Proof. solve_decision. Defined.

Inductive CommandFailure := Rejected | PersistenceFailure.
#[export] Instance CommandFailure_eq_dec : EqDecision CommandFailure.
Proof. solve_decision. Defined.

(** [recent] is oldest first. *)
Record CommandOutcomes := {
  recent : list (Z * option CommandFailure);
  evicted_through : Z;
}.
#[export] Instance CommandOutcomes_eq_dec : EqDecision CommandOutcomes.
Proof. solve_decision. Defined.

(** [while self.recent.len() > 128 { pop_front }] *)
Fixpoint evict_outcomes (recent : list (Z * option CommandFailure)) (evicted : Z)
  : CommandOutcomes :=
  match recent with
  | (id, e) :: rest =>
      if (128 <? length recent)%nat then evict_outcomes rest (Z.max evicted id)
      else {| recent := recent; evicted_through := evicted |}
  | [] => {| recent := []; evicted_through := evicted |}
  end.
Definition record_outcome (o : CommandOutcomes) (id : Z) (error : option CommandFailure)
  : CommandOutcomes :=
  evict_outcomes (recent o ++ [(id, error)]) (evicted_through o).

Record DeviceSnapshot := {
  sn_command_outcomes : CommandOutcomes;
  sn_revision : Z;
  sn_desired_revision : Z;
  sn_discovery : Discovery.DiscoverySnapshot;
  sn_receivers : list ReceiverSnapshot;
  sn_saved_groups : list SavedGroupSnapshot;
  sn_desired_members : gset ReceiverId;
  sn_run_intent : RunIntent;
  sn_session : SessionSnapshot;
  sn_audio_source : AudioSourceSnapshot;
  sn_master_volume : Volume;
  sn_receiver_levels : gmap ReceiverId Volume;
  sn_muted : bool;
  sn_latency_preset : LatencyPreset;
  sn_latency_presets : list (LatencyPreset * option UserFacingError);
  sn_auto_connect : bool;
  sn_persistence : PersistenceSnapshot;
}.
#[export] Instance eta_DeviceSnapshot : Eta DeviceSnapshot := fun s =>
  {| sn_command_outcomes := sn_command_outcomes s; sn_revision := sn_revision s;
     sn_desired_revision := sn_desired_revision s; sn_discovery := sn_discovery s;
     sn_receivers := sn_receivers s; sn_saved_groups := sn_saved_groups s;
     sn_desired_members := sn_desired_members s; sn_run_intent := sn_run_intent s;
     sn_session := sn_session s; sn_audio_source := sn_audio_source s;
     sn_master_volume := sn_master_volume s; sn_receiver_levels := sn_receiver_levels s;
     sn_muted := sn_muted s; sn_latency_preset := sn_latency_preset s;
     sn_latency_presets := sn_latency_presets s; sn_auto_connect := sn_auto_connect s;
     sn_persistence := sn_persistence s |}.

Definition default_snapshot : DeviceSnapshot :=
  {| sn_command_outcomes := {| recent := []; evicted_through := 0 |};
     sn_revision := 0; sn_desired_revision := 0;
     sn_discovery := {| Discovery.snap_generation := 0; Discovery.snap_phase := Discovery.Stopped |};
     sn_receivers := []; sn_saved_groups := []; sn_desired_members := ∅;
     sn_run_intent := Stopped; sn_session := default_session;
     sn_audio_source := default_audio_source; sn_master_volume := DEFAULT_MASTER;
     sn_receiver_levels := ∅; sn_muted := false; sn_latency_preset := Normal;
     sn_latency_presets := offered; sn_auto_connect := false; sn_persistence := PersistIdle |}.

(** The derived equality; volumes compare as IEEE values. *)
Definition snapshot_eqb (a b : DeviceSnapshot) : bool :=
  (sn_command_outcomes a ==? sn_command_outcomes b) && (sn_revision a =? sn_revision b)
  && (sn_desired_revision a =? sn_desired_revision b) && (sn_discovery a ==? sn_discovery b)
  && (sn_receivers a ==? sn_receivers b)
  && list_eqb group_eqb (sn_saved_groups a) (sn_saved_groups b)
  && (sn_desired_members a ==? sn_desired_members b) && (sn_run_intent a ==? sn_run_intent b)
  && (sn_session a ==? sn_session b) && (sn_audio_source a ==? sn_audio_source b)
  && f32_eqb (sn_master_volume a) (sn_master_volume b)
  && levels_eqb (sn_receiver_levels a) (sn_receiver_levels b)
  && eqb (sn_muted a) (sn_muted b) && (sn_latency_preset a ==? sn_latency_preset b)
  && (sn_latency_presets a ==? sn_latency_presets b)
  && eqb (sn_auto_connect a) (sn_auto_connect b) && (sn_persistence a ==? sn_persistence b).

Section Order.
Context (to_lowercase : text -> text).

(** [a.name.to_lowercase().cmp(..).then_with(|| a.id.cmp(&b.id))] *)
Definition receiver_before (a b : ReceiverSnapshot) : bool :=
  let ka := to_lowercase (rs_name a) in
  let kb := to_lowercase (rs_name b) in
  if ka ==? kb then device_leb (rs_id a) (rs_id b) else bytes_leb ka kb.
Definition group_before (a b : SavedGroup) : bool :=
  let ka := to_lowercase (grp_name a) in
  let kb := to_lowercase (grp_name b) in
  if ka ==? kb then grp_id a <=? grp_id b else bytes_leb ka kb.
Definition endpoint_before (a b : AudioEndpoint) : bool :=
  let ka := to_lowercase (ep_name a) in
  let kb := to_lowercase (ep_name b) in
  if ka ==? kb then bytes_leb (ep_id a) (ep_id b) else bytes_leb ka kb.

Definition sort_for_publication (s : DeviceSnapshot) : DeviceSnapshot :=
  s <| sn_receivers := isort receiver_before (sn_receivers s) |>
    <| sn_saved_groups := isort group_before (sn_saved_groups s) |>.
Definition sort_endpoints (endpoints : list AudioEndpoint) : list AudioEndpoint :=
  isort endpoint_before endpoints.
End Order.

(** ** The guard of the listening test *)

Record ListeningTestGuard := {
  lt_generation : Z;
  lt_members : gset ReceiverId;
  lt_volume : Volume;
  lt_levels : gmap ReceiverId Volume;
  lt_endpoint : AudioEndpointPreference;
  lt_captured : option AudioEndpoint;
}.

Definition guard_eqb (a b : ListeningTestGuard) : bool :=
  (lt_generation a =? lt_generation b) && (lt_members a ==? lt_members b)
  && f32_eqb (lt_volume a) (lt_volume b) && levels_eqb (lt_levels a) (lt_levels b)
  && (lt_endpoint a ==? lt_endpoint b) && (lt_captured a ==? lt_captured b).

Definition capture (s : DeviceSnapshot) : option ListeningTestGuard :=
  match ss_phase (sn_session s) with
  | PhStreaming generation =>
      if negb (sn_run_intent s ==? Running) || sn_muted s
         || (sn_desired_members s ==? ∅)
         || negb (ss_active (sn_session s) ==? sn_desired_members s)
         || f32_leb (sn_master_volume s) f32_zero || f32_ltb f32_0_15 (sn_master_volume s)
         || negb (sn_latency_preset s ==? Normal)
         || negb match au_state (sn_audio_source s) with
                 | Capturing | SilentSystem => true | _ => false
                 end
         || existsb (fun id => is_some_and (sn_receiver_levels s !! id)
                                 (fun v => f32_leb v f32_zero))
              (elements (sn_desired_members s))
      then None
      else Some {| lt_generation := generation; lt_members := sn_desired_members s;
                   lt_volume := sn_master_volume s; lt_levels := sn_receiver_levels s;
                   lt_endpoint := au_preference (sn_audio_source s);
                   lt_captured := au_captured_endpoint (sn_audio_source s) |}
  | _ => None
  end.

Definition matches (g : ListeningTestGuard) (s : DeviceSnapshot) : bool :=
  is_some_and (capture s) (fun captured => guard_eqb captured g).

(** ** Feeds *)

Record Generations := { gen_session : Z; gen_discovery : Z; gen_capture : Z }.

Inductive Severity := Info | Warning | SevError.
Inductive NoticeCode :=
| NoteDiscoveryFailed | NoteSessionFailed | NoteCaptureUnavailable | NotePersistenceWrite
| NoteQueueOverloaded.
Inductive ErrorScope := ScopeDiscovery | ScopeSession | ScopeCapture | ScopePersistence | ScopeQueue.
Inductive BackendEvent :=
| CommandCompleted (id : Z)
| CommandFailed (id : Z) (error : UserFacingError)
| Notice (severity : Severity) (code : NoticeCode) (scope : ErrorScope) (message : string).

Inductive SystemTransition :=
| WasSuspending | WasResumed | WasNetworkChanged (local_binding_changed : bool).

Inductive DiagnosticPayload :=
| Message (text : string)
| DiscoveryGeneration (generation : Z) (phase : Discovery.DiscoveryPhase)
| DiscoveryReceiver (receiver : ReceiverId) (present : bool)
| CommandResult (id : Z) (error : option UserFacingError)
| CommandCoalesced (dropped : Z)
| ReceiverTransition (receiver : ReceiverId) (to : ReceiverLifecycle)
| SetupPhaseDuration (receiver : ReceiverId) (phase : SetupPhase) (duration : Z)
| SessionTransition (phase : SessionPhase) (active_members : Z)
| SessionRestart (generation : Z) (reason : RestartReason)
| RetryScheduled (receiver : option ReceiverId) (attempt next_at : Z)
| CaptureTransition (state : AudioSourceState)
| PcmDrop (dropped : Z)
| SilenceBridge (duration : Z)
| Probe (healthy : bool) (latency_ms : Z)
| PersistenceOutcome (outcome : PersistenceSnapshot)
| QueueWatermark (depth capacity : Z)
| QueueLag (dropped : Z)
| WorkerShutdown (duration : Z) (timed_out : bool)
| SystemTransitioned (transition : SystemTransition)
| CalibrationStateChanged (state : DiagRing.CalibrationApplyState).

Inductive DiagnosticCategory :=
| CatGeneral | CatDiscovery | CatCommand | CatReceiver | CatSession | CatRetry | CatCapture
| CatProbe | CatPersistence | CatQueue | CatWorker.

(** [category_of] of the controller. *)
Definition category_of (p : DiagnosticPayload) : DiagnosticCategory :=
  match p with
  | PersistenceOutcome _ => CatPersistence
  | CommandResult _ _ | CommandCoalesced _ => CatCommand
  | SessionRestart _ _ | SessionTransition _ _ => CatSession
  | WorkerShutdown _ _ => CatWorker
  | _ => CatGeneral
  end.

(** [category_of_kind] of the feed. *)
Definition category_of_kind (p : DiagnosticPayload) : DiagnosticCategory :=
  match p with
  | Message _ => CatGeneral
  | DiscoveryGeneration _ _ | DiscoveryReceiver _ _ => CatDiscovery
  | CommandResult _ _ | CommandCoalesced _ => CatCommand
  | ReceiverTransition _ _ | SetupPhaseDuration _ _ _ => CatReceiver
  | SessionTransition _ _ | SessionRestart _ _ | CalibrationStateChanged _ => CatSession
  | RetryScheduled _ _ _ => CatRetry
  | CaptureTransition _ | PcmDrop _ | SilenceBridge _ => CatCapture
  | Probe _ _ => CatProbe
  | PersistenceOutcome _ => CatPersistence
  | QueueWatermark _ _ | QueueLag _ => CatQueue
  | SystemTransitioned _ | WorkerShutdown _ _ => CatWorker
  end.

(** One record of the diagnostic feed. *)
Record FeedEvent := {
  fe_monotonic_ns : Z;
  fe_wall_time : Z;
  fe_generations : Generations;
  fe_receiver : option ReceiverId;
  fe_severity : Severity;
  fe_category : DiagnosticCategory;
  fe_payload : DiagnosticPayload;
}.

(** The record a reader that fell behind gets instead of those it lost. *)
Definition queue_lag (now wall dropped : Z) : FeedEvent :=
  {| fe_monotonic_ns := now; fe_wall_time := wall;
     fe_generations := {| gen_session := 0; gen_discovery := 0; gen_capture := 0 |};
     fe_receiver := None; fe_severity := Warning;
     fe_category := category_of_kind (QueueLag dropped); fe_payload := QueueLag dropped |}.

(** ** Commands *)

Inductive SystemEvent :=
| Suspending | Resumed | NetworkChanged (local_binding_changed : bool).

Inductive BackendCommand :=
| RunListeningTest (guard : ListeningTestGuard)
| ApplyDesiredMembers (members : gset ReceiverId)
| SetDesiredMembers (members : gset ReceiverId)
| SetRunIntent (intent : RunIntent)
| SetMasterVolume (value : Volume)
| SetMuted (muted : bool)
| SetReceiverLevel (receiver : ReceiverId) (level : Volume)
| SetAudioEndpoint (preference : AudioEndpointPreference)
| SetLatencyPreset (preset : LatencyPreset)
| SetAutoConnect (enabled : bool)
| SaveGroup (id : option SavedGroupId) (name : text) (members : list SavedGroupMember)
| DeleteGroup (id : SavedGroupId)
| ActivateSavedGroup (id : SavedGroupId) (start : bool)
| RetryReceiver (receiver : ReceiverId)
| NotifySystem (event : SystemEvent)
| CalibrationCmd (command : CalibrationCommand)
| Shutdown.

Definition is_edge (c : BackendCommand) : bool :=
  match c with
  | ApplyDesiredMembers _ | SaveGroup _ _ _ | DeleteGroup _ | ActivateSavedGroup _ _
  | RetryReceiver _ | NotifySystem _ | CalibrationCmd _ | RunListeningTest _ | Shutdown => true
  | _ => false
  end.

(** The sender of a receipt is named by the envelope it was created with. *)
Record CommandEnvelope := {
  env_id : Z;
  env_command : BackendCommand;
  env_confirmation : option Z;
}.

Record CommandConfirmation := {
  cc_revision : Z;
  cc_error : option CommandFailure;
  cc_session_generation_floor : option Z;
}.

(** ** One drain *)

Record PendingBatch := {
  b_desired_members : option CommandEnvelope;
  b_run_intent : option CommandEnvelope;
  b_master_volume : option CommandEnvelope;
  b_master_receipt : option Z;
  b_muted : option CommandEnvelope;
  b_endpoint : option CommandEnvelope;
  b_latency_preset : option CommandEnvelope;
  b_auto_connect : option CommandEnvelope;
  b_levels : gmap ReceiverId CommandEnvelope;
  b_edges : list CommandEnvelope;
  b_drained_total : Z;
}.
#[export] Instance eta_PendingBatch : Eta PendingBatch := fun b =>
  {| b_desired_members := b_desired_members b; b_run_intent := b_run_intent b;
     b_master_volume := b_master_volume b; b_master_receipt := b_master_receipt b;
     b_muted := b_muted b; b_endpoint := b_endpoint b;
     b_latency_preset := b_latency_preset b; b_auto_connect := b_auto_connect b;
     b_levels := b_levels b; b_edges := b_edges b; b_drained_total := b_drained_total b |}.

Definition empty_batch : PendingBatch :=
  {| b_desired_members := None; b_run_intent := None; b_master_volume := None;
     b_master_receipt := None; b_muted := None; b_endpoint := None; b_latency_preset := None;
     b_auto_connect := None; b_levels := ∅; b_edges := []; b_drained_total := 0 |}.

(** A later Stop cancels the start of earlier group activations. *)
Definition cancel_start (e : CommandEnvelope) : CommandEnvelope :=
  match env_command e with
  | ActivateSavedGroup id _ =>
      {| env_id := env_id e; env_command := ActivateSavedGroup id false;
         env_confirmation := env_confirmation e |}
  | _ => e
  end.

Definition insert_envelope (b : PendingBatch) (envelope : CommandEnvelope) : PendingBatch :=
  let b := b <| b_drained_total := wrap 32 (b_drained_total b + 1) |> in
  match env_command envelope with
  | SetDesiredMembers _ => b <| b_desired_members := Some envelope |>
  | SetRunIntent intent =>
      let b := if intent ==? Stopped
               then b <| b_edges := cancel_start <$> b_edges b |> else b in
      b <| b_run_intent := Some envelope |>
  | SetMasterVolume _ =>
      let b := match env_confirmation envelope with
               | Some receipt => b <| b_master_receipt := Some receipt |>
               | None => b
               end in
      b <| b_master_volume :=
             Some {| env_id := env_id envelope; env_command := env_command envelope;
                     env_confirmation := None |} |>
  | SetMuted _ => b <| b_muted := Some envelope |>
  | SetReceiverLevel receiver _ => b <| b_levels := <[receiver := envelope]> (b_levels b) |>
  | SetAudioEndpoint _ => b <| b_endpoint := Some envelope |>
  | SetLatencyPreset _ => b <| b_latency_preset := Some envelope |>
  | SetAutoConnect _ => b <| b_auto_connect := Some envelope |>
  | _ => b <| b_edges := b_edges b ++ [envelope] |>
  end.

Definition held (o : option CommandEnvelope) : Z := if is_none o then 0 else 1.
Definition winner_count (b : PendingBatch) : Z :=
  held (b_desired_members b) + held (b_run_intent b) + held (b_master_volume b)
  + held (b_muted b) + held (b_endpoint b) + held (b_latency_preset b)
  + held (b_auto_connect b) + Z.of_nat (size (b_levels b)) + Z.of_nat (length (b_edges b)).

End Backend.
