(* ===== verification/Controller.v ===== *)
(** * The backend controller

    [apps/openaircast/src/backend/controller.rs]: [ControllerActor] with every
    handler, the persist-before-publish transaction, and the body of the main
    loop.

    The actor and the ports it owns are one record.  What it does to the
    outside goes to [out], newest first: published snapshots, events and
    diagnostics, writes to the store, requests and levels handed to the session
    supervisor, control edges for discovery and capture, receipts.  Sending is
    logged whether or not the bounded queue of the supervisor takes it, since
    the source ignores the answer.  The store is any [StateStore].

    Arguments of a round: the monotonic clock [now] and the wall clock [wall],
    read once per event.  [tone_free] and [uuid_v4] answer the listening-tone
    port and [Uuid::new_v4]; [ticks] counts those calls.  A Rust panic raises
    [panicked], after which no event is handled. *)

From S2P Require Import Prelude Float32 AppState Model Wire Text Features Device TxtParser Browser Recovery Discovery Inventory Calibration DiagRing Machine Supervisor Persistence Backend.
Import Model Calibration Persistence Backend.

Module Controller.

Notation Device := Device.Device (only parsing).
Notation Duration := Z (only parsing).
Notation Instant := Z (only parsing).
Notation SessionRequest := (@Supervisor.SessionRequest Device CalibrationProfile).

Definition RESUME_SETTLE : Duration := Recovery.from_secs 2.
Definition SUSPEND_WATCHDOG : Duration := Recovery.from_secs 300.
Definition AUTO_CONNECT_WINDOW : Duration := Recovery.from_secs 60.
Definition CAPTURE_SAMPLE_RATE : Z := 44100.
Definition CAPTURE_CHANNELS : Z := 2.

(** ** Causes *)

Inductive ReconcileCause :=
| CauseMembership | CauseSavedGroup | CauseLatencyPreset | CauseRetry | CausePrimaryFailure
| CauseResume | CauseNetworkRebind | CauseCalibrationChanged.

Definition reason (c : ReconcileCause) : Supervisor.RestartReason :=
  match c with
  | CauseMembership => Supervisor.ByMembershipChange
  | CauseSavedGroup => Supervisor.BySavedGroupActivated
  | CauseLatencyPreset => Supervisor.ByLatencyPresetChanged
  | CauseRetry => Supervisor.BySecondaryRejoin
  | CausePrimaryFailure => Supervisor.ByPrimaryReplaced
  | CauseResume => Supervisor.BySystemResume
  | CauseNetworkRebind => Supervisor.ByLocalInterfaceChanged
  | CauseCalibrationChanged => Supervisor.ByCalibrationChanged
  end.

Definition matrix_row (c : ReconcileCause) : Supervisor.ReconfigureCause :=
  match c with
  | CauseMembership | CauseSavedGroup => Supervisor.Membership
  | CauseLatencyPreset => Supervisor.LatencyChanged
  | CauseRetry => Supervisor.SecondaryRejoin
  | CausePrimaryFailure => Supervisor.PrimaryFailure
  | CauseResume => Supervisor.Resume'
  | CauseNetworkRebind => Supervisor.NetworkRebind
  | CauseCalibrationChanged => Supervisor.CalibrationChanged
  end.

(** ** Ports *)

Inductive CaptureControl := RequestEndpointChange | CaptureSuspend | CaptureResume | CaptureStop.

Inductive CaptureUpdate :=
| CapStarted (capture_generation : Z)
| CapReady (capture_generation : Z) (endpoint : AudioEndpoint)
| CapFrameDrop (capture_generation : Z) (dropped : Z)
| CapRecovering (capture_generation : Z)
| CapStopped
| CapSuspended (capture_generation : Z).

Inductive Output :=
| OPublish (s : DeviceSnapshot)
| OEvent (e : BackendEvent)
| ODiagnostic (g : Generations) (receiver : option ReceiverId) (severity : Severity)
    (category : DiagnosticCategory) (payload : DiagnosticPayload)
| OSave (d : PersistedStateV1) (ok : bool)
| OSaveCalibration (c : option CalibrationStateV2) (ok : bool)
| ORequest (r : SessionRequest)
| ORemember (receiver : ReceiverId) (volume : Volume)
| ODiscovery (control : Discovery.DiscoveryControl)
| OCapture (control : CaptureControl)
| OPreference (preference : AudioEndpointPreference)
| OScan
| OPattern (samples : list Z)
| OTone (token : Z) (started : bool)
| OCancelTone (token : Z)
| OConfirm (receipt : Z) (c : CommandConfirmation)
| OSessionShutdown.

(** ** State *)

Section Actor.
Context {S : Type} `{StateStore S}.
Context (to_lowercase : text -> text) (tone_free : nat -> bool) (uuid_v4 : nat -> Z).

Record Controller := {
  listening_test : option (ListeningTestGuard * Z);
  last_listening_test_generation : option Z;
  snapshot : DeviceSnapshot;
  persisted : PersistedStateV1;
  profile : CalibrationProfile;
  calibration_pending_generation : option Z;
  inventory : gmap ReceiverId Inventory.InventoryEntry;
  saved_names : gmap ReceiverId text;
  session_generation : Z;
  live_session_generation : option Z;
  capture_generation : Z;
  cell : Generations;
  primary : option ReceiverId;
  active : gset ReceiverId;
  discovery_failures : Z;
  seen_discovery_generation : Z;
  machines : gmap ReceiverId Machine.ReceiverMachine;
  retry : gmap ReceiverId Recovery.ReceiverRetryEntry;
  rejoin : Recovery.RejoinRestartLimiter;
  pending_desired : gset ReceiverId;
  suspended : bool;
  resume_at : option Instant;
  startup_auto_connect_until : option Instant;
  store : S;
  published : DeviceSnapshot;
  ticks : nat;
  panicked : bool;
  out : list Output;
}.
#[export] Instance eta_Controller : Eta Controller := fun c =>
  {| listening_test := listening_test c;
     last_listening_test_generation := last_listening_test_generation c;
     snapshot := snapshot c; persisted := persisted c; profile := profile c;
     calibration_pending_generation := calibration_pending_generation c;
     inventory := inventory c; saved_names := saved_names c;
     session_generation := session_generation c;
     live_session_generation := live_session_generation c;
     capture_generation := capture_generation c; cell := cell c; primary := primary c;
     active := active c; discovery_failures := discovery_failures c;
     seen_discovery_generation := seen_discovery_generation c; machines := machines c;
     retry := retry c; rejoin := rejoin c; pending_desired := pending_desired c;
     suspended := suspended c; resume_at := resume_at c;
     startup_auto_connect_until := startup_auto_connect_until c; store := store c;
     published := published c; ticks := ticks c; panicked := panicked c; out := out c |}.

Definition emit (o : Output) (c : Controller) : Controller := c <| out := o :: out c |>.

(** A [BTreeSet] iterates in key order. *)
Definition in_order (s : gset ReceiverId) : list ReceiverId := isort device_leb (elements s).

Definition generations (c : Controller) : Generations :=
  {| gen_session := default 0 (live_session_generation c);
     gen_discovery := Z.max (gen_discovery (cell c)) (seen_discovery_generation c);
     gen_capture := capture_generation c |}.

(** [publish_controller] leaves the browse counter to its owner. *)
Definition publish_generations (c : Controller) : Controller :=
  c <| cell := {| gen_session := gen_session (generations c);
                  gen_discovery := gen_discovery (cell c);
                  gen_capture := gen_capture (generations c) |} |>.

Definition emit_diagnostics (severity : Severity) (p : DiagnosticPayload) (c : Controller)
  : Controller := emit (ODiagnostic (generations c) None severity (category_of p) p) c.
Definition emit_receiver_diagnostic (receiver : ReceiverId) (severity : Severity)
    (p : DiagnosticPayload) (c : Controller) : Controller :=
  emit (ODiagnostic (generations c) (Some receiver) severity (category_of p) p) c.

(** ** Publication *)

Definition check_listening_test (c : Controller) : Controller :=
  match listening_test c with
  | Some (guard, token) =>
      if matches guard (snapshot c) then c
      else emit (OCancelTone token) (c <| listening_test := None |>)
  | None => c
  end.

Definition publish (c : Controller) : Controller :=
  let c := check_listening_test c in
  let revision := sn_revision (snapshot c) + 1 in
  let c := if revision <? 2 ^ 64 then c else c <| panicked := true |> in
  let s := sort_for_publication to_lowercase ((snapshot c) <| sn_revision := revision |>) in
  emit (OPublish s) (c <| snapshot := s |> <| published := s |>).

Definition transition_severity (p : SessionPhase) : Severity :=
  match p with
  | PhFailed _ _ => SevError
  | PhDegraded _ | PhRestarting _ _ => Warning
  | _ => Info
  end.

Definition maybe_publish (next : DeviceSnapshot) (c : Controller) : Controller :=
  if snapshot_eqb next (snapshot c) then c
  else
    let phase_changed := negb (ss_phase (sn_session next) ==? ss_phase (sn_session (snapshot c))) in
    let phase := ss_phase (sn_session next) in
    let active_members := Z.min (Z.of_nat (size (ss_active (sn_session next)))) u32_max in
    let c := publish (c <| snapshot := next |>) in
    if negb phase_changed then c
    else emit_diagnostics (transition_severity phase) (SessionTransition phase active_members) c.

(** ** Receiver rows *)

Definition castable (c : Controller) (id : ReceiverId) : bool :=
  is_some_and (inventory c !! id)
    (fun e => Inventory.ie_available e && Inventory.ie_castable e).

Definition keep_entry (desired : gset ReceiverId) (id : ReceiverId)
    (e : Inventory.InventoryEntry) : bool :=
  bool_decide (id ∈ desired) || (Inventory.ie_available e && Inventory.ie_castable e).

(** [(!entry.name.is_empty()).then_some(..)], then the saved label. *)
Definition row_name (c : Controller) (id : ReceiverId) : text :=
  match inventory c !! id with
  | Some e => if Inventory.ie_name e ==? [] then default [] (saved_names c !! id)
              else Inventory.ie_name e
  | None => default [] (saved_names c !! id)
  end.

Definition row_of (c : Controller) (id : ReceiverId) : ReceiverSnapshot :=
  {| rs_id := id;
     rs_name := row_name c id;
     rs_model := default [] (e ← inventory c !! id; d ← Inventory.ie_device e;
                             Some (Device.dev_model d));
     rs_lifecycle := match machines c !! id with
                     | Some m => Machine.state m | None => Unreachable
                     end |}.

Definition is_waiting (m : Machine.ReceiverMachine) : bool :=
  match Machine.state m with RetryWaiting _ _ => true | _ => false end.

Definition rebuild_receiver_rows (next : DeviceSnapshot) (c : Controller)
  : DeviceSnapshot * Controller :=
  let desired := sn_desired_members (snapshot c) in
  let c := c <| inventory := filter (fun kv => keep_entry desired kv.1 kv.2 = true) (inventory c) |> in
  let ids := dom (inventory c) ∪ desired in
  let entered :=
    set_to_map (fun id => (id, default (Machine.new (castable c id)) (machines c !! id))) ids in
  let c := c <| machines :=
                  map_imap (fun id m => Some (if bool_decide (id ∈ desired) then m
                                              else Machine.release m)) entered |>
             <| retry := fold_left Recovery.clear_deadline (in_order (ids ∖ desired)) (retry c) |> in
  (next <| sn_receivers := row_of c <$> in_order ids |>
        <| sn_session := (sn_session next)
             <| ss_retry_waiting :=
                  dom (filter (fun kv => is_waiting kv.2 = true) (machines c)) |> |>, c).

(** ** Lifecycle machines *)

Definition drive (receiver : ReceiverId) (apply : Machine.ReceiverMachine -> Machine.Outcome)
    (c : Controller) : Controller :=
  let machine := default (Machine.new (castable c receiver)) (machines c !! receiver) in
  let '(m, outcome) := apply machine in
  let c := c <| machines := <[receiver := m]> (machines c) |> in
  match outcome with
  | Ok _ =>
      if Machine.state m ==? Machine.state machine then c
      else emit_receiver_diagnostic receiver Info (ReceiverTransition receiver (Machine.state m)) c
  | Err rejected =>
      emit_receiver_diagnostic receiver Warning
        (Message ("receiver invariant violated: invalid receiver transition "
                    +:+ Machine.from rejected +:+ " -> " +:+ Machine.to rejected)%string) c
  end.

Definition republish_rows (c : Controller) : Controller :=
  let '(next, c) := rebuild_receiver_rows (snapshot c) c in maybe_publish next c.

Definition sync_one (now : Instant) (c : Controller) (id : ReceiverId) : Controller :=
  let available := castable c id in
  let c := c <| rejoin := if available then Recovery.note_discovered (rejoin c) now id
                          else Recovery.note_lost (rejoin c) id |> in
  if is_some_and (machines c !! id) (fun m => eqb (Machine.service_available m) available)
  then c
  else drive id (fun m => Machine.set_service_available m available) c.

Definition sync_service_availability (now : Instant) (c : Controller) : Controller :=
  fold_left (sync_one now) (in_order (dom (machines c))) c.

Definition refresh_receivers (now : Instant) (c : Controller) : Controller :=
  let '(_, c) := rebuild_receiver_rows (snapshot c) c in
  republish_rows (sync_service_availability now c).

(** ** Outcomes of commands *)

Definition record_result (id : Z) (error : option CommandFailure) (c : Controller) : Controller :=
  c <| snapshot := (snapshot c)
         <| sn_command_outcomes := record_outcome (sn_command_outcomes (snapshot c)) id error |> |>.

Definition complete (id : Z) (c : Controller) : Controller :=
  emit_diagnostics Info (CommandResult id None)
    (emit (OEvent (CommandCompleted id)) (record_result id None c)).

Definition fail_with_kind (id : Z) (message : string) (kind : CommandFailure) (c : Controller)
  : Controller :=
  emit_diagnostics Warning (CommandResult id (Some message))
    (emit (OEvent (CommandFailed id message)) (record_result id (Some kind) c)).
Definition fail (id : Z) (message : string) (c : Controller) : Controller :=
  fail_with_kind id message Rejected c.

Definition note_persistence_failure (id : Z) (c : Controller) : Controller :=
  let c := c <| snapshot := (snapshot c) <| sn_persistence := PersistError |> |> in
  let c := emit (OEvent (Notice SevError NotePersistenceWrite ScopePersistence
                  "saving device state failed; the change was not applied")) c in
  let c := fail_with_kind id "the change could not be saved to disk" PersistenceFailure c in
  emit_diagnostics SevError (PersistenceOutcome PersistError) c.

(** ** The durable transaction *)

Inductive CommitOutcome := Applied | Unchanged | CommitRejected | CommitFailed.
Definition applied (o : CommitOutcome) : bool := match o with Applied => true | _ => false end.
Definition state_is_intended (o : CommitOutcome) : bool :=
  match o with Applied | Unchanged => true | _ => false end.

Definition names_of (groups : list SavedGroup) : gmap ReceiverId text :=
  fold_left (fun names m => <[sm_receiver m := sm_last_known_name m]> names)
    (groups ≫= grp_members) ∅.
Definition sync_saved_names (c : Controller) : Controller :=
  c <| saved_names := names_of (p_saved_groups (persisted c)) |>.

Record DurableCommit := {
  dc_mutate : PersistedStateV1 -> PersistedStateV1;
  dc_announce : DeviceSnapshot -> DeviceSnapshot;
  dc_refresh_rows : bool;
  dc_sync_names : bool;
}.

(** What a successful transaction refreshes after its announcement. *)
Definition refresh_after (d : DurableCommit) (c : Controller) : Controller :=
  let c := if dc_refresh_rows d
           then let '(next, c) := rebuild_receiver_rows (snapshot c) c in c <| snapshot := next |>
           else c in
  if dc_sync_names d then sync_saved_names c else c.

Definition run_commit (id : Z) (d : DurableCommit) (c : Controller) : Controller * CommitOutcome :=
  let candidate := dc_mutate d (persisted c) in
  match validate to_lowercase candidate with
  | Err _ => (fail id "the requested change could not be applied" c, CommitRejected)
  | Ok _ =>
      if v1_eqb candidate (persisted c) then (complete id c, Unchanged)
      else
        match save (store c) candidate with
        | (st, Ok _) =>
            let c := emit (OSave candidate true) (c <| store := st |> <| persisted := candidate |>) in
            let c := c <| snapshot := (snapshot c)
                            <| sn_receiver_levels := p_receiver_levels candidate |> |> in
            let c := c <| snapshot := dc_announce d (snapshot c) |> in
            (publish (complete id (refresh_after d c)), Applied)
        | (st, Err _) =>
            let c := emit (OSave candidate false) (c <| store := st |>) in
            (publish (note_persistence_failure id c), CommitFailed)
        end
  end.

(** A commit that neither refreshes rows nor names. *)
Definition plain (mutate : PersistedStateV1 -> PersistedStateV1)
    (announce : DeviceSnapshot -> DeviceSnapshot) : DurableCommit :=
  {| dc_mutate := mutate; dc_announce := announce; dc_refresh_rows := false;
     dc_sync_names := false |}.

(** ** Volumes *)

Definition effective_for (c : Controller) (receiver : ReceiverId) : Volume :=
  effective_volume (p_master_volume (persisted c))
    (default UNITY (p_receiver_levels (persisted c) !! receiver)) (p_muted (persisted c)).

Definition forward_effective_volumes (c : Controller) : Controller :=
  fold_left (fun c r => emit (ORequest (Supervisor.SetVolume r (effective_for c r))) c)
    (in_order (active c)) c.
Definition remember_effective_volumes (c : Controller) : Controller :=
  fold_left (fun c r => emit (ORemember r (effective_for c r)) c)
    (in_order (sn_desired_members (snapshot c))) c.

(** ** Reconciliation *)

Definition in_backoff (c : Controller) (id : ReceiverId) : bool :=
  is_some_and (machines c !! id) Machine.in_backoff.

Definition is_stopped (c : Controller) : bool := sn_run_intent (snapshot c) ==? Stopped.

Definition desired_devices (c : Controller) : list Device :=
  if is_stopped c then []
  else omap (fun id => e ← inventory c !! id; Inventory.ie_device e)
         (List.filter (fun id => castable c id && negb (in_backoff c id))
            (in_order (sn_desired_members (snapshot c)))).

Definition latency_for (c : Controller) : Supervisor.LatencyConfig :=
  match enabled_config (p_latency_preset (persisted c)) with
  | Some l => Supervisor.MkLatency (Model.sender_buffer_ms l) (Model.render_delay_ms l)
  | None => Supervisor.MkLatency 2000 200
  end.

Definition is_calibration (cause : ReconcileCause) : bool :=
  match cause with CauseCalibrationChanged => true | _ => false end.

Definition request_reconcile (cause : ReconcileCause) (c : Controller) : Controller :=
  if suspended c then c
  else
    let stopped := is_stopped c in
    if stopped && bool_decide (active c = ∅) && bool_decide (pending_desired c = ∅) then c
    else
      let c := c <| session_generation := sat_add 64 (session_generation c) 1 |> in
      let c := c <| live_session_generation := Some (session_generation c) |> in
      let c := if is_calibration cause
               then c <| calibration_pending_generation := Some (session_generation c) |> else c in
      let c := publish_generations c in
      let devices := desired_devices c in
      let c := c <| pending_desired := list_to_set (Device.dev_id <$> devices) |> in
      let c := remember_effective_volumes c in
      let preferred := r ← primary c;
        if bool_decide (r ∈ sn_desired_members (snapshot c)) then Some r else None in
      let c := emit_diagnostics Info (SessionRestart (session_generation c) (reason cause)) c in
      emit (ORequest (Supervisor.Reconcile
        (Supervisor.MkParams (session_generation c) devices preferred (latency_for c)
           (profile c) stopped))) c.

(** The restart a rejoin limiter has to know about. *)
Definition restart_when (wanted : bool) (cause : ReconcileCause) (now : Instant) (c : Controller)
  : Controller :=
  if wanted
  then request_reconcile cause (c <| rejoin := Recovery.note_restart (rejoin c) now |>)
  else c.

(** [release_backoff]: every receiver serving a rung is driven to retry. *)
Definition release_backoff (c : Controller) : Controller :=
  fold_left
    (fun c r => drive r Machine.retry_now (c <| retry := Recovery.clear_deadline (retry c) r |>))
    (in_order (dom (filter (fun kv => Machine.in_backoff kv.2 = true) (machines c)))) c.

(** ** Automatic rejoin *)

Definition max_opt (at_ : Instant) (o : option Instant) : Instant :=
  match o with Some x => Z.max at_ x | None => at_ end.

(** When the three gates of a receiver open together. *)
Definition rejoin_at (c : Controller) (r : ReceiverId) : option Instant :=
  if is_some_and (machines c !! r) Machine.awaiting_rejoin then
    at_ ← Recovery.rejoin_eligible_at (rejoin c) r;
    Some (max_opt (max_opt at_ (Recovery.next_retry (retry c) r))
            (Recovery.group_allowed_at (rejoin c)))
  else None.

(** The body of the loop over the desired members: who is due, and the
    earliest of the others. *)
Definition sift (c : Controller) (now : Instant) (acc : list ReceiverId * option Instant)
    (r : ReceiverId) : list ReceiverId * option Instant :=
  let '(due, next) := acc in
  match rejoin_at c r with
  | None => (due, next)
  | Some at_ => if at_ <=? now then (due ++ [r], next) else (due, Recovery.min_opt next (Some at_))
  end.

Definition rejoin_candidates (c : Controller) (now : Instant)
  : list ReceiverId * option Instant :=
  if suspended c || negb (sn_run_intent (snapshot c) ==? Running) then ([], None)
  else fold_left (sift c now) (in_order (sn_desired_members (snapshot c))) ([], None).

Definition next_retry_delay (c : Controller) (now : Instant) : option Duration :=
  let '(due, next) := rejoin_candidates c now in
  if negb (bool_decide (due = [])) then Some 0
  else (fun at_ => sat_sub at_ now) <$> next.

Definition fire_due_retries (now : Instant) (c : Controller) : Controller :=
  let due := (rejoin_candidates c now).1 in
  if bool_decide (due = []) then c
  else
    let c := fold_left
      (fun c r => drive r Machine.retry_now (c <| retry := Recovery.clear_deadline (retry c) r |>))
      due c in
    let c := c <| rejoin := Recovery.note_restart (rejoin c) now |> in
    request_reconcile CauseRetry (republish_rows c).

(** ** Startup auto-connect *)

Definition earliest (l : list Instant) : option Instant :=
  match l with [] => None | x :: l => Some (fold_left Z.min l x) end.

Definition auto_connect_delay (c : Controller) (now : Instant) : option Duration :=
  until ← startup_auto_connect_until c;
  if suspended c then None
  else if until <? now then None
  else
    at_ ← earliest (omap (Recovery.rejoin_eligible_at (rejoin c))
                      (in_order (sn_desired_members (snapshot c))));
    if at_ <=? until then Some (sat_sub at_ now) else None.

Definition set_run_intent (intent : RunIntent) (c : Controller) : Controller :=
  c <| snapshot := (snapshot c) <| sn_run_intent := intent |> |>.
Definition disarm (c : Controller) : Controller := c <| startup_auto_connect_until := None |>.

Definition apply_startup_auto_connect (now : Instant) (c : Controller) : Controller :=
  match startup_auto_connect_until c with
  | None => c
  | Some until =>
      if suspended c then c
      else if until <? now then disarm c
      else if negb (sn_run_intent (snapshot c) ==? Stopped) then disarm c
      else if negb (existsb (Recovery.may_rejoin (rejoin c) now)
                      (in_order (sn_desired_members (snapshot c)))) then c
      else request_reconcile CauseMembership (publish (set_run_intent Running (disarm c)))
  end.

(** ** Platform edges *)

Definition with_session (f : SessionSnapshot -> SessionSnapshot) (s : DeviceSnapshot)
  : DeviceSnapshot := s <| sn_session := f (sn_session s) |>.

Definition begin_suspend (now : Instant) (c : Controller) : Controller :=
  let c := c <| suspended := true |> <| resume_at := Some (now + SUSPEND_WATCHDOG) |> in
  let c := emit (ORequest Supervisor.Suspend) (emit (OCapture CaptureSuspend) c) in
  let c := maybe_publish
    (with_session (fun s => s <| ss_resume_pending := true |> <| ss_audio_flow := SilenceBridged |>)
       (snapshot c)) c in
  emit_diagnostics Info (SystemTransitioned WasSuspending) c.

Definition begin_resume (now : Instant) (c : Controller) : Controller :=
  c <| resume_at := Some (now + RESUME_SETTLE) |>.

Definition resume_delay (c : Controller) (now : Instant) : option Duration :=
  (fun deadline => sat_sub deadline now) <$> resume_at c.

Definition finish_resume (now : Instant) (c : Controller) : Controller :=
  let c := c <| resume_at := None |> <| suspended := false |> in
  let c := emit (ODiscovery Discovery.RestartAfterNetworkChange) c in
  let c := emit (OCapture CaptureResume) c in
  let c := release_backoff c in
  let c := maybe_publish
    (with_session (fun s => s <| ss_resume_pending := false |>) (snapshot c)) c in
  let c := emit_diagnostics Info (SystemTransitioned WasResumed) c in
  restart_when (sn_run_intent (snapshot c) ==? Running) CauseResume now c.

Definition apply_network_change (now : Instant) (local_binding_changed : bool) (c : Controller)
  : Controller :=
  let c := emit_diagnostics Info
    (SystemTransitioned (WasNetworkChanged local_binding_changed)) c in
  if suspended c then c
  else
    let c := emit (ODiscovery Discovery.RestartAfterNetworkChange) c in
    if local_binding_changed && (sn_run_intent (snapshot c) ==? Running)
    then restart_when true CauseNetworkRebind now (release_backoff c)
    else c.

Definition handle_system_event (now : Instant) (event : SystemEvent) (c : Controller)
  : Controller :=
  match event with
  | Suspending => begin_suspend now c
  | Resumed => begin_resume now c
  | NetworkChanged changed => apply_network_change now changed c
  end.

(** ** Calibration *)

Definition note_calibration_state (state : DiagRing.CalibrationApplyState) (c : Controller)
  : Controller :=
  emit_diagnostics
    match state with DiagRing.CalibrationFailed => Warning | _ => Info end
    (CalibrationStateChanged state) c.

(** [None] is an index past the end of the buffer, a panic. *)
Definition start_pattern (id : Z) (pattern : option (list Z)) (c : Controller) : Controller :=
  match pattern with
  | Some pattern => complete id (emit (OPattern pattern) c)
  | None => c <| panicked := true |>
  end.

Definition handle_calibration_click_test (id : Z) (c : Controller) : Controller :=
  if (size (active c) <? 2)%nat
  then fail id "the alignment test needs at least two connected receivers" c
  else start_pattern id (calibration_click_pattern CAPTURE_SAMPLE_RATE CAPTURE_CHANNELS) c.

Definition empty_profile : CalibrationProfile :=
  {| reference_receiver := None; requested_relative_delay_ns := ∅ |}.

(** The common rest of applying and clearing a profile. *)
Definition apply_profile (id expected : Z) (wanted : CalibrationProfile) (clearing : bool)
    (c : Controller) : Controller * bool :=
  let refuse message :=
    (note_calibration_state DiagRing.CalibrationFailed (fail id message c), false) in
  if negb (expected =? sn_desired_revision (snapshot c)) then
    refuse "the receiver selection changed while calibrating; review it and apply again"%string
  else if negb clearing && (size (sn_desired_members (snapshot c)) <? 2)%nat then
    refuse "calibration needs at least two selected receivers"%string
  else if negb clearing
          && match normalize_calibration (sn_desired_members (snapshot c)) wanted with
             | Err _ => true | Ok _ => false
             end then
    refuse "the calibration values could not be applied"%string
  else
    let section := if clearing then None else Some (state_of_profile wanted) in
    match save_calibration (store c) section with
    | (st, Err _) =>
        let c := emit (OSaveCalibration section false) (c <| store := st |>) in
        let c := note_calibration_state DiagRing.CalibrationFailed (note_persistence_failure id c) in
        (publish c, false)
    | (st, Ok _) =>
        let c := emit (OSaveCalibration section true) (c <| store := st |>) in
        let c := complete id (c <| profile := wanted |>) in
        (note_calibration_state DiagRing.PendingRestart c, true)
    end.

Definition handle_calibration (id : Z) (command : CalibrationCommand) (c : Controller)
  : Controller * bool :=
  match command with
  | ApplyCalibrationProfile expected wanted => apply_profile id expected wanted false c
  | ResetCalibration expected => apply_profile id expected empty_profile true c
  | RunCalibrationClickTest => (handle_calibration_click_test id c, false)
  end.

Definition settle_calibration_generation (generation : Z) (c : Controller) : Controller :=
  match calibration_pending_generation c with
  | None => c
  | Some pending =>
      if generation <? pending then c
      else note_calibration_state DiagRing.Applied (c <| calibration_pending_generation := None |>)
  end.

(** ** Saved groups *)

Definition without_group (id : SavedGroupId) (groups : list SavedGroup) : list SavedGroup :=
  List.filter (fun g => negb (grp_id g =? id)) groups.

Definition name_taken (groups : list SavedGroup) (name : text) (edit : option SavedGroupId) : bool :=
  existsb (fun g => eq_ignore_ascii_case (grp_name g) name
                    && is_none_or edit (fun id => negb (grp_id g =? id))) groups.

Definition handle_save_group (id : Z) (group_id : option SavedGroupId) (name : text)
    (members : list SavedGroupMember) (c : Controller) : Controller :=
  let trimmed := trim name in
  if (trimmed ==? []) || (64 <? length trimmed)%nat then
    fail id "group names need 1-64 characters" c
  else if name_taken (p_saved_groups (persisted c)) trimmed group_id then
    fail id "a group with that name already exists" c
  else if negb (is_none (first_duplicate [] members)) then
    fail id "each receiver may appear once per group" c
  else if bool_decide (members = []) then
    fail id "a saved group needs at least one receiver" c
  else
    let '(resolved, c) :=
      match group_id with
      | Some g => (g, c)
      | None => (uuid_v4 (ticks c), c <| ticks := (ticks c + 1)%nat |>)
      end in
    let stored := {| grp_id := resolved; grp_name := trimmed; grp_members := members |} in
    (run_commit id
       {| dc_mutate := fun state =>
            state <| p_saved_groups :=
                       isort (group_before to_lowercase)
                         (without_group resolved (p_saved_groups state) ++ [stored]) |>;
          dc_announce := fun s =>
            s <| sn_saved_groups := without_group resolved (sn_saved_groups s) ++ [stored] |>;
          dc_refresh_rows := false; dc_sync_names := true |} c).1.

Definition handle_delete_group (id : Z) (group_id : SavedGroupId) (c : Controller) : Controller :=
  if negb (existsb (fun g => grp_id g =? group_id) (p_saved_groups (persisted c)))
  then complete id c
  else
    (run_commit id
       {| dc_mutate := fun state =>
            state <| p_saved_groups := without_group group_id (p_saved_groups state) |>;
          dc_announce := fun s => s <| sn_saved_groups := without_group group_id (sn_saved_groups s) |>;
          dc_refresh_rows := false; dc_sync_names := true |} c).1.

Definition with_levels (members : list SavedGroupMember) (levels : gmap ReceiverId Volume)
  : gmap ReceiverId Volume :=
  fold_left (fun levels m => <[sm_receiver m := sm_level m]> levels) members levels.

Definition bump_desired (members : gset ReceiverId) (bump : bool) (s : DeviceSnapshot)
  : DeviceSnapshot :=
  let s := s <| sn_desired_members := members |> in
  if bump then s <| sn_desired_revision := sat_add 64 (sn_desired_revision s) 1 |> else s.

Definition handle_activate_group (id : Z) (group_id : SavedGroupId) (start : bool)
    (c : Controller) : Controller * bool :=
  match List.find (fun g => grp_id g =? group_id) (p_saved_groups (persisted c)) with
  | None => (fail id "that saved group no longer exists" c, false)
  | Some group =>
      let member_ids : gset ReceiverId := list_to_set (sm_receiver <$> grp_members group) in
      let differs := negb (member_ids ==? p_last_desired_members (persisted c)) in
      let '(c, outcome) :=
        run_commit id
          {| dc_mutate := fun state =>
               state <| p_last_desired_members := member_ids |>
                     <| p_receiver_levels :=
                          with_levels (grp_members group) (p_receiver_levels state) |>;
             dc_announce := bump_desired member_ids differs;
             dc_refresh_rows := true; dc_sync_names := false |} c in
      let c := if negb start && state_is_intended outcome then disarm c else c in
      if start && state_is_intended outcome && negb (sn_run_intent (snapshot c) ==? Running)
      then (publish (set_run_intent Running c), true)
      else (c, applied outcome)
  end.

(** ** Batches *)

(** What the batch owes once its commands have run. *)
Record Owed := {
  reconcile : option ReconcileCause;
  volumes_changed : bool;
  shutdown_requested : bool;
  group_starts : list Z;
}.
#[export] Instance eta_Owed : Eta Owed := fun o =>
  {| reconcile := reconcile o; volumes_changed := volumes_changed o;
     shutdown_requested := shutdown_requested o; group_starts := group_starts o |}.
Definition nothing_owed : Owed :=
  {| reconcile := None; volumes_changed := false; shutdown_requested := false;
     group_starts := [] |}.

Definition owe (cause : ReconcileCause) (o : Owed) : Owed := o <| reconcile := Some cause |>.

(** [SetDesiredMembers] and [ApplyDesiredMembers] share their transaction. *)
Definition apply_members (id : Z) (members : gset ReceiverId) (co : Controller * Owed)
  : Controller * Owed :=
  let '(c, o) := co in
  if members ==? p_last_desired_members (persisted c) then (complete id c, o)
  else
    let '(c, outcome) :=
      run_commit id
        {| dc_mutate := fun state => state <| p_last_desired_members := members |>;
           dc_announce := bump_desired members true;
           dc_refresh_rows := true; dc_sync_names := false |} c in
    (c, if applied outcome then owe CauseMembership o else o).

Definition batch_run_intent (id : Z) (intent : RunIntent) (co : Controller * Owed)
  : Controller * Owed :=
  let '(c, o) := co in
  let c := disarm c in
  if intent ==? sn_run_intent (snapshot c) then (complete id c, o)
  else (publish (complete id (set_run_intent intent c)), owe CauseMembership o).

(** A durable scalar: the transaction, and whether it changed levels. *)
Definition durable (id : Z) (same : bool) (d : DurableCommit) (c : Controller)
  : Controller * bool :=
  if same then (complete id c, false)
  else let '(c, outcome) := run_commit id d c in (c, applied outcome).

Definition outcome_of (c : Controller) (id : Z) : option (option CommandFailure) :=
  snd <$> List.find (fun kv => fst kv =? id) (recent (sn_command_outcomes (snapshot c))).

Definition confirm (receipt : Z) (error : option CommandFailure) (floor : option Z)
    (c : Controller) : Controller :=
  emit (OConfirm receipt {| cc_revision := sn_revision (snapshot c) + 1; cc_error := error;
                            cc_session_generation_floor := floor |}) c.

Definition batch_master_volume (envelope : CommandEnvelope) (value : Volume) (receipt : option Z)
    (co : Controller * Owed) : Controller * Owed :=
  let '(c, o) := co in
  let id := env_id envelope in
  let '(c, changed) :=
    durable id (f32_eqb value (p_master_volume (persisted c)))
      (plain (fun state => state <| p_master_volume := value |>)
         (fun s => s <| sn_master_volume := value |>)) c in
  let c := match receipt with
           | Some r =>
               publish match outcome_of c id with
                       | Some error => confirm r error None c
                       | None => c
                       end
           | None => c
           end in
  (c, o <| volumes_changed := volumes_changed o || changed |>).

Definition batch_muted (id : Z) (muted : bool) (co : Controller * Owed) : Controller * Owed :=
  let '(c, o) := co in
  let '(c, changed) :=
    durable id (eqb muted (p_muted (persisted c)))
      (plain (fun state => state <| p_muted := muted |>) (fun s => s <| sn_muted := muted |>)) c in
  (c, o <| volumes_changed := volumes_changed o || changed |>).

Definition batch_endpoint (id : Z) (preference : AudioEndpointPreference)
    (co : Controller * Owed) : Controller * Owed :=
  let '(c, o) := co in
  let '(c, changed) :=
    durable id (preference ==? p_audio_endpoint (persisted c))
      (plain (fun state => state <| p_audio_endpoint := preference |>)
         (fun s => s <| sn_audio_source :=
                          (sn_audio_source s) <| au_preference := preference |> |>)) c in
  (if changed
   then emit (OCapture RequestEndpointChange) (emit (OPreference preference) (emit OScan c))
   else c, o).

Definition batch_latency (id : Z) (preset : LatencyPreset) (co : Controller * Owed)
  : Controller * Owed :=
  let '(c, o) := co in
  match disabled_reason preset with
  | Some why => (fail id why c, o)
  | None =>
      let '(c, changed) :=
        durable id (preset ==? p_latency_preset (persisted c))
          (plain (fun state => state <| p_latency_preset := preset |>)
             (fun s => s <| sn_latency_preset := preset |>)) c in
      (c, if changed then owe CauseLatencyPreset o else o)
  end.

Definition batch_auto_connect (id : Z) (enabled : bool) (co : Controller * Owed)
  : Controller * Owed :=
  let '(c, o) := co in
  let c := if enabled then c else disarm c in
  ((durable id (eqb enabled (p_auto_connect (persisted c)))
      (plain (fun state => state <| p_auto_connect := enabled |>)
         (fun s => s <| sn_auto_connect := enabled |>)) c).1, o).

Definition batch_level (id : Z) (receiver : ReceiverId) (level : Volume)
    (co : Controller * Owed) : Controller * Owed :=
  let '(c, o) := co in
  let '(c, changed) :=
    durable id (is_some_and (p_receiver_levels (persisted c) !! receiver)
                  (fun held => f32_eqb held level))
      (plain (fun state => state <| p_receiver_levels :=
                              <[receiver := level]> (p_receiver_levels state) |>) (fun s => s)) c in
  (c, o <| volumes_changed := volumes_changed o || changed |>).

(** A slot holds only its own command: anything else is [unreachable!]. *)
Definition unreachable (co : Controller * Owed) : Controller * Owed :=
  (co.1 <| panicked := true |>, co.2).

Definition scalar (receipt : option Z) (co : Controller * Owed) (envelope : CommandEnvelope)
  : Controller * Owed :=
  let id := env_id envelope in
  match env_command envelope with
  | SetDesiredMembers members => apply_members id members co
  | SetRunIntent intent => batch_run_intent id intent co
  | SetMasterVolume value => batch_master_volume envelope value receipt co
  | SetMuted muted => batch_muted id muted co
  | SetAudioEndpoint preference => batch_endpoint id preference co
  | SetLatencyPreset preset => batch_latency id preset co
  | SetAutoConnect enabled => batch_auto_connect id enabled co
  | SetReceiverLevel receiver level => batch_level id receiver level co
  | _ => unreachable co
  end.

(** The slots in the order they are executed; levels in key order. *)
Definition scalars (b : PendingBatch) : list CommandEnvelope :=
  option_list (b_desired_members b) ++ option_list (b_run_intent b)
  ++ option_list (b_master_volume b) ++ option_list (b_muted b) ++ option_list (b_endpoint b)
  ++ option_list (b_latency_preset b) ++ option_list (b_auto_connect b)
  ++ omap (fun id => b_levels b !! id) (in_order (dom (b_levels b))).

Definition run_listening_test (id : Z) (guard : ListeningTestGuard) (c : Controller)
  : Controller :=
  if negb (matches guard (snapshot c))
     || (last_listening_test_generation c ==? Some (lt_generation guard)) then
    fail id "the listening test configuration changed or was already used" c
  else
    let token := Z.of_nat (ticks c) in
    let started := tone_free (ticks c) in
    let c := emit (OTone token started) (c <| ticks := (ticks c + 1)%nat |>) in
    if started
    then complete id (c <| last_listening_test_generation := Some (lt_generation guard) |>
                        <| listening_test := Some (guard, token) |>)
    else fail id "the listening test audio source is busy" (emit (OCancelTone token) c).

Definition stop_listening_test (c : Controller) : Controller :=
  match listening_test c with
  | Some (_, token) => emit (OCancelTone token) (c <| listening_test := None |>)
  | None => c
  end.

Definition edge_command (now : Instant) (id : Z) (command : BackendCommand)
    (co : Controller * Owed) : Controller * Owed :=
  let '(c, o) := co in
  match command with
  | ApplyDesiredMembers members => apply_members id members (c, o)
  | SaveGroup group_id name members => (handle_save_group id group_id name members c, o)
  | DeleteGroup group_id => (handle_delete_group id group_id c, o)
  | ActivateSavedGroup group_id start =>
      let '(c, committed) := handle_activate_group id group_id start c in
      (c, if committed && is_none (reconcile o) then owe CauseSavedGroup o else o)
  | RetryReceiver receiver =>
      let c := c <| retry := Recovery.manual_retry (retry c) receiver |> in
      let c := republish_rows (drive receiver Machine.retry_now c) in
      (complete id c, owe CauseRetry o)
  | NotifySystem event => (complete id (handle_system_event now event c), o)
  | CalibrationCmd command =>
      let '(c, restart) := handle_calibration id command c in
      (c, if restart then owe CauseCalibrationChanged o else o)
  | RunListeningTest guard => (run_listening_test id guard c, o)
  | Shutdown => (complete id (stop_listening_test c), o <| shutdown_requested := true |>)
  | _ => unreachable (c, o)
  end.

Definition starts_group (command : BackendCommand) : bool :=
  match command with ActivateSavedGroup _ true => true | _ => false end.

Definition confirm_edge (envelope : CommandEnvelope) (co : Controller * Owed)
  : Controller * Owed :=
  match env_confirmation envelope with
  | None => co
  | Some receipt =>
      let '(c, o) := co in
      let '(c, o) :=
        match outcome_of c (env_id envelope) with
        | None => (c, o)
        | Some error =>
            if starts_group (env_command envelope) && is_none error
            then (c, o <| group_starts := group_starts o ++ [receipt] |>)
            else (confirm receipt error None c, o)
        end in
      (publish c, o)
  end.

Fixpoint edges (now : Instant) (envelopes : list CommandEnvelope) (co : Controller * Owed)
  : Controller * Owed :=
  match envelopes with
  | [] => co
  | envelope :: rest =>
      let co := confirm_edge envelope
                  (edge_command now (env_id envelope) (env_command envelope) co) in
      if shutdown_requested co.2 then co else edges now rest co
  end.

Definition settle_owed (co : Controller * Owed) : Controller :=
  let '(c, o) := co in
  let c := if volumes_changed o then forward_effective_volumes (remember_effective_volumes c)
           else c in
  let c := match reconcile o with Some cause => request_reconcile cause c | None => c end in
  let c :=
    if bool_decide (group_starts o = []) then c
    else
      let floor := if suspended c then sat_add 64 (session_generation c) 1
                   else session_generation c in
      publish (fold_left (fun c receipt => confirm receipt None (Some floor) c)
                 (group_starts o) c) in
  if sn_command_outcomes (published c) ==? sn_command_outcomes (snapshot c) then c else publish c.

Definition process_batch (now : Instant) (b : PendingBatch) (c : Controller)
  : Controller * bool :=
  let co := fold_left (scalar (b_master_receipt b)) (scalars b) (c, nothing_owed) in
  let co := edges now (b_edges b) co in
  (settle_owed co, shutdown_requested co.2).

(** ** Updates of the supervisors *)

Definition apply_discovery_update (now wall : Instant) (update : Discovery.DiscoveryUpdate)
    (c : Controller) : Controller :=
  match update with
  | Discovery.Started g =>
      let c := publish_generations
        (c <| seen_discovery_generation := Z.max g (seen_discovery_generation c) |>) in
      maybe_publish ((snapshot c) <| sn_discovery :=
        {| Discovery.snap_generation := g; Discovery.snap_phase := Discovery.Running |} |>) c
  | Discovery.Receiver g event =>
      if g <? seen_discovery_generation c then c
      else refresh_receivers now
             (c <| inventory := Inventory.mirror_event (inventory c) event |>)
  | Discovery.Failed g _ _ =>
      if g <? seen_discovery_generation c then c
      else
        let c := c <| discovery_failures := sat_add 32 (discovery_failures c) 1 |> in
        let next := (snapshot c) <| sn_discovery :=
          {| Discovery.snap_generation := Discovery.snap_generation (sn_discovery (snapshot c));
             Discovery.snap_phase := Discovery.Retrying (discovery_failures c) wall |} |> in
        let changed := negb (snapshot_eqb next (snapshot c)) in
        let c := maybe_publish next c in
        if changed
        then emit (OEvent (Notice Warning NoteDiscoveryFailed ScopeDiscovery
                    "receiver discovery is retrying in the background")) c
        else c
  end.

Definition with_audio (f : AudioSourceSnapshot -> AudioSourceSnapshot) (s : DeviceSnapshot)
  : DeviceSnapshot := s <| sn_audio_source := f (sn_audio_source s) |>.

Definition apply_endpoints (result : option (list AudioEndpoint)) (c : Controller) : Controller :=
  match result with
  | Some endpoints =>
      maybe_publish (with_audio (fun a =>
        a <| au_active_endpoints := Some (sort_endpoints to_lowercase endpoints) |>
          <| au_refresh_failed := false |>) (snapshot c)) c
  | None => maybe_publish (with_audio (fun a => a <| au_refresh_failed := true |>) (snapshot c)) c
  end.

Definition source_lost (state : AudioSourceState) (s : DeviceSnapshot) : DeviceSnapshot :=
  with_session (fun x => x <| ss_audio_flow := SilenceBridged |>)
    (with_audio (fun a => a <| au_state := state |> <| au_captured_endpoint := None |>
                            <| au_windows_input_peak_permille := None |>) s).

Definition note_capture_generation (update : CaptureUpdate) (c : Controller) : Controller :=
  c <| capture_generation :=
         match update with
         | CapStarted g | CapReady g _ | CapFrameDrop g _ | CapRecovering g | CapSuspended g =>
             Z.max (capture_generation c) g
         | CapStopped => 0
         end |>.

Definition apply_capture_update (update : CaptureUpdate) (c : Controller) : Controller :=
  let c := publish_generations (note_capture_generation update c) in
  match update with
  | CapReady _ endpoint =>
      maybe_publish
        (with_session (fun x => x <| ss_audio_flow :=
             if bool_decide (active c = ∅) then SilenceBridged else Live |>)
           (with_audio (fun a => a <| au_state := Capturing |>
                                   <| au_captured_endpoint := Some endpoint |>
                                   <| au_windows_input_peak_permille := None |>) (snapshot c))) c
  | CapSuspended _ | CapStopped => maybe_publish (source_lost SourceUnavailable (snapshot c)) c
  | CapRecovering _ => maybe_publish (source_lost Recovering (snapshot c)) c
  | CapStarted _ =>
      maybe_publish (with_audio (fun a => a <| au_windows_input_peak_permille := None |>)
                       (snapshot c)) c
  | CapFrameDrop _ dropped =>
      maybe_publish (with_audio (fun a => a <| au_pcm_frames_dropped_total :=
        Z.max (au_pcm_frames_dropped_total a) dropped |>) (snapshot c)) c
  end.

Definition apply_capture_telemetry (peak : option Z) (dropped : Z) (c : Controller) : Controller :=
  maybe_publish (with_audio (fun a =>
    a <| au_windows_input_peak_permille := peak |>
      <| au_pcm_frames_dropped_total := Z.max (au_pcm_frames_dropped_total a) dropped |>)
    (snapshot c)) c.

Definition note_receiver_failure (now wall : Instant) (receiver : ReceiverId) (retryable : bool)
    (error : string) (c : Controller) : Controller :=
  let c := drive receiver (fun m => Machine.fail m retryable error) c in
  if negb retryable then c
  else
    let c := c <| retry :=
      (Recovery.note_streaming (retry c) Recovery.default_policy now receiver).1 |> in
    match Recovery.note_failure (retry c) Recovery.default_policy now receiver with
    | None => c <| panicked := true |>
    | Some (entries, deadline) =>
        let c := c <| retry := entries |> in
        let attempt := Recovery.attempt (retry c) receiver in
        let retry_at := wall + sat_sub deadline now in
        let c := drive receiver (fun m => Machine.wait_retry m attempt retry_at) c in
        emit_receiver_diagnostic receiver Info (RetryScheduled (Some receiver) attempt retry_at) c
    end.

Definition setup_failure_error (f : Supervisor.MemberFailure) : string :=
  ("receiver rejected " +:+ Supervisor.phase_debug (Supervisor.phase f) +:+ " during setup")%string.

Definition role_of (primary : option ReceiverId) (id : ReceiverId) : ReceiverRole :=
  match primary with
  | Some p => if bool_decide (p = id) then Primary else Secondary
  | None => Secondary
  end.

Definition derive_phase (desired active : gset ReceiverId) (intent : RunIntent) (generation : Z)
  : SessionPhase :=
  if intent ==? Stopped then PhStopped
  else if negb (bool_decide (desired = ∅)) && bool_decide (active = desired)
  then PhStreaming generation
  else if negb (bool_decide (active = ∅)) then PhDegraded generation
  else PhStarting generation.

Definition live_flow (s : DeviceSnapshot) : AudioFlow :=
  if au_state (sn_audio_source s) ==? Capturing then Live else SilenceBridged.

(** Rows are rebuilt into the prepared snapshot, which is then published. *)
Definition publish_with_rows (next : DeviceSnapshot) (c : Controller) : Controller :=
  let '(next, c) := rebuild_receiver_rows next c in maybe_publish next c.

Definition adopt_generation (generation : Z) (c : Controller) : Controller :=
  let c := c <| session_generation := Z.max (session_generation c) generation |> in
  publish_generations (c <| live_session_generation := Some (session_generation c) |>).

Definition session_starting (generation : Z) (c : Controller) : Controller :=
  let c := adopt_generation generation c in
  let c := fold_left
    (fun c r => let attempt := Recovery.attempt (retry c) r in
                drive r (fun m => Machine.begin_generation m generation attempt) c)
    (in_order (pending_desired c)) c in
  publish_with_rows
    (with_session (fun x => x <| ss_phase := PhStarting generation |>
                              <| ss_desired := sn_desired_members (snapshot c) |>
                              <| ss_failed := ∅ |>) (snapshot c)) c.

Definition session_active (now wall : Instant) (generation : Z) (p : ReceiverId)
    (members : gset ReceiverId) (partial_failures : list Supervisor.MemberFailure)
    (c : Controller) : Controller :=
  let c := c <| primary := Some p |> <| active := members |> in
  let c := settle_calibration_generation generation (forward_effective_volumes c) in
  let single := (size members <=? 1)%nat in
  let c := fold_left
    (fun c r => drive r (fun m => Machine.enter_streaming m
                           (if single then Single else role_of (Some p) r)) c)
    (in_order members) c in
  let c := fold_left
    (fun c r => c <| retry := (Recovery.note_streaming (retry c) Recovery.default_policy now r).1 |>)
    (in_order members) c in
  let failed : gset ReceiverId := list_to_set (Supervisor.failed_receiver <$> partial_failures) in
  let c := fold_left
    (fun c f => note_receiver_failure now wall (Supervisor.failed_receiver f)
                  (Supervisor.failure_retryable f) (setup_failure_error f) c)
    partial_failures c in
  let c := fold_left
    (fun c r => note_receiver_failure now wall r true "the receiver did not join the group" c)
    (in_order (pending_desired c ∖ active c ∖ failed)) c in
  let s := snapshot c in
  publish_with_rows
    (with_session (fun x =>
       x <| ss_phase := derive_phase (sn_desired_members s) members (sn_run_intent s) generation |>
         <| ss_desired := sn_desired_members s |> <| ss_active := members |>
         <| ss_failed := failed |> <| ss_primary := Some p |>
         <| ss_audio_flow := live_flow s |>) s) c.

(** The bookkeeping of a lost member. *)
Definition lose_member (now wall : Instant) (receiver : ReceiverId) (was_primary : bool)
    (error : string) (c : Controller) : Controller :=
  let c := c <| active := active c ∖ {[receiver]} |> in
  let c := if was_primary && bool_decide (primary c = Some receiver)
           then c <| primary := None |> else c in
  note_receiver_failure now wall receiver true error c.

Definition show_lost_member (generation : Z) (receiver : ReceiverId) (was_primary : bool)
    (c : Controller) : Controller :=
  let s := snapshot c in
  publish_with_rows
    (with_session (fun x =>
       x <| ss_phase := derive_phase (sn_desired_members s) (active c) (sn_run_intent s) generation |>
         <| ss_active := active c |> <| ss_failed := {[receiver]} ∪ ss_failed x |>
         <| ss_primary := if was_primary then None else ss_primary x |>) s) c.

Definition session_member_failed (now wall : Instant) (generation : Z) (receiver : ReceiverId)
    (was_primary : bool) (error : string) (c : Controller) : Controller :=
  let row := if was_primary then Supervisor.PrimaryFailure else Supervisor.SecondaryFailure in
  restart_when (Supervisor.requires_full_restart row) CausePrimaryFailure now
    (show_lost_member generation receiver was_primary
       (lose_member now wall receiver was_primary error c)).

Definition session_stopped (c : Controller) : Controller :=
  let c := publish_generations (c <| live_session_generation := None |>) in
  let c := c <| active := ∅ |> <| primary := None |>
             <| machines := Machine.leave_session <$> machines c |> in
  publish_with_rows
    (with_session (fun x => x <| ss_phase := PhStopped |> <| ss_active := ∅ |>
                              <| ss_primary := None |> <| ss_audio_flow := SilenceBridged |>)
       (snapshot c)) c.

Definition apply_session_update (now wall : Instant) (update : Supervisor.SessionUpdate)
    (c : Controller) : Controller :=
  match update with
  | Supervisor.Starting g => session_starting g c
  | Supervisor.Active g p members failures => session_active now wall g p members failures c
  | Supervisor.MemberControlFailed g receiver error =>
      if g <? session_generation c then c
      else emit_receiver_diagnostic receiver Warning (Message error) c
  | Supervisor.MemberFailed g receiver was_primary error =>
      session_member_failed now wall g receiver was_primary error c
  | Supervisor.Recovering g why _ =>
      let c := adopt_generation g c in
      maybe_publish (with_session (fun x => x <| ss_phase := PhRestarting g why |>) (snapshot c)) c
  | Supervisor.Stopped _ => session_stopped c
  end.

(** ** The main loop *)

Inductive Event :=
| ECommand (first : CommandEnvelope) (queued : list CommandEnvelope)
| EDiscovery (update : Discovery.DiscoveryUpdate)
| ECapture (update : CaptureUpdate)
| ECaptureTelemetry (peak : option Z) (dropped : Z)
| EEndpoints (result : option (list AudioEndpoint))
| ESession (update : Supervisor.SessionUpdate)
| ERetryDue
| ESystem (event : SystemEvent)
| EResumeSettled
| EAutoConnectDue.

Definition command_event (now : Instant) (first : CommandEnvelope) (queued : list CommandEnvelope)
    (c : Controller) : Controller * bool :=
  let pending := fold_left insert_envelope (first :: queued) empty_batch in
  let dropped := sat_sub (b_drained_total pending) (winner_count pending) in
  let c := if 0 <? dropped then emit_diagnostics Info (CommandCoalesced dropped) c else c in
  process_batch now pending c.

Definition capture_event (update : CaptureUpdate) (c : Controller) : Controller :=
  let c := match update with CapReady _ _ | CapRecovering _ => emit OScan c | _ => c end in
  apply_capture_update update c.

Definition handle_event (now wall : Instant) (event : Event) (c : Controller)
  : Controller * bool :=
  match event with
  | ECommand first queued => command_event now first queued c
  | EDiscovery update => (apply_discovery_update now wall update c, false)
  | ECapture update => (capture_event update c, false)
  | ECaptureTelemetry peak dropped => (apply_capture_telemetry peak dropped c, false)
  | EEndpoints result => (apply_endpoints result c, false)
  | ESession update => (apply_session_update now wall update c, false)
  | ERetryDue => (fire_due_retries now c, false)
  | ESystem edge => (handle_system_event now edge c, false)
  | EResumeSettled => (finish_resume now (emit OScan c), false)
  | EAutoConnectDue => (apply_startup_auto_connect now c, false)
  end.

(** One iteration; a timer arm is enabled only while its delay is armed. *)
Definition enabled (now : Instant) (event : Event) (c : Controller) : bool :=
  match event with
  | ERetryDue => negb (is_none (next_retry_delay c now))
  | EResumeSettled => negb (is_none (resume_delay c now))
  | EAutoConnectDue => negb (is_none (auto_connect_delay c now))
  | _ => true
  end.

Definition iterate (now wall : Instant) (event : Event) (c : Controller)
  : Controller * bool :=
  let '(c, shutdown) := handle_event now wall event c in (publish_generations c, shutdown).

(** ** Startup *)

Definition from_persisted (now : Instant) (loaded : PersistedStateV1) (st : S) : Controller :=
  let first := default_snapshot
    <| sn_master_volume := p_master_volume loaded |>
    <| sn_receiver_levels := p_receiver_levels loaded |>
    <| sn_muted := p_muted loaded |>
    <| sn_latency_preset := p_latency_preset loaded |>
    <| sn_auto_connect := p_auto_connect loaded |>
    <| sn_audio_source := default_audio_source <| au_preference := p_audio_endpoint loaded |> |>
    <| sn_saved_groups := p_saved_groups loaded |>
    <| sn_desired_members := p_last_desired_members loaded |> in
  let c :=
    {| listening_test := None; last_listening_test_generation := None; snapshot := first;
       persisted := loaded; profile := empty_profile; calibration_pending_generation := None;
       inventory := ∅; saved_names := names_of (p_saved_groups loaded);
       session_generation := 0; live_session_generation := None; capture_generation := 0;
       cell := {| gen_session := 0; gen_discovery := 0; gen_capture := 0 |};
       primary := None; active := ∅; discovery_failures := 0; seen_discovery_generation := 0;
       machines := ∅; retry := ∅; rejoin := Recovery.new_limiter; pending_desired := ∅;
       suspended := false; resume_at := None;
       startup_auto_connect_until :=
         if p_auto_connect loaded then Some (now + AUTO_CONNECT_WINDOW) else None;
       store := st; published := first; ticks := 0; panicked := false; out := [] |} in
  let '(restored, c) := rebuild_receiver_rows (snapshot c) c in
  c <| snapshot := sort_for_publication to_lowercase restored |>.

(** [run_controller] up to its loop: load, restore, publish, report what kind
    of load it was, hand the capture supervisor its preference.  A load that
    fails ends the backend. *)
Definition announce_start (outcome : LoadOutcome) (unreadable : bool) (c : Controller)
  : Controller :=
  let corrupted := match outcome with RecoveredCorrupt => true | _ => false end in
  let migrated := match outcome with MigratedLegacyVolume _ => true | _ => false end in
  let c := emit_diagnostics (if corrupted then Warning else Info)
             (PersistenceOutcome PersistHealthy) c in
  let c := if corrupted then emit_diagnostics Warning (Message
    "stored device state was unreadable; it was set aside and defaults restored") c else c in
  let c := if unreadable then emit_diagnostics Warning (Message
    "the stored speaker alignment could not be read; this session runs without it") c else c in
  let c := if migrated then emit_diagnostics Info (Message
    "master volume was imported once from the previous release's settings") c else c in
  let c := if corrupted then emit (OEvent (Notice Warning NotePersistenceWrite ScopePersistence
    "the previous state file was damaged; defaults were restored")) c else c in
  let c := if unreadable then emit (OEvent (Notice Warning NotePersistenceWrite ScopePersistence
    "the saved speaker alignment could not be read and is not in use")) c else c in
  emit (OPreference (p_audio_endpoint (persisted c))) c.

(** The actor with the calibration it could read, its snapshot on display. *)
Definition restore (now : Instant) (loaded : PersistedStateV1)
    (section : Result (option CalibrationStateV2) Persistence.PersistError) (st : S) : Controller :=
  let c := from_persisted now loaded st in
  let c := c <| profile := match section with
                           | Ok (Some s) => profile_of_state s
                           | _ => empty_profile
                           end |> in
  emit (OPublish (snapshot c)) (c <| published := snapshot c |>).

Definition is_unreadable (section : Result (option CalibrationStateV2) Persistence.PersistError)
  : bool := match section with Err _ => true | Ok _ => false end.

Definition start_controller (now : Instant) (st : S) : Result Controller Persistence.PersistError :=
  match load st with
  | (_, Err e) => Err e
  | (st, Ok outcome) =>
      match load_calibration st with
      | (st, section) =>
          Ok (announce_start outcome (is_unreadable section)
                (restore now (into_state outcome) section st))
      end
  end.

(** ** Shutdown *)

(** The bounded steps of the teardown, each with whether it ended in time. *)
Record Teardown := {
  monitor_joined : bool;
  capture_reached : bool;
  session_reached : bool;
  discovery_reached : bool;
  updates_drained : bool;
  teardown_elapsed : Duration;
}.
Definition timed_out (t : Teardown) : bool :=
  negb (monitor_joined t && capture_reached t && session_reached t && discovery_reached t
        && updates_drained t).

Definition shut_down (t : Teardown) (c : Controller) : Controller :=
  let c := if capture_reached t then emit (OCapture CaptureStop) c else c in
  let c := if session_reached t then emit OSessionShutdown c else c in
  let c := if discovery_reached t then emit (ODiscovery Discovery.Shutdown) c else c in
  let c := emit_diagnostics (if timed_out t then Warning else Info)
             (WorkerShutdown (teardown_elapsed t) (timed_out t)) c in
  stop_listening_test c.

End Actor.

End Controller.
