(* ===== verification/ControllerSteps.v ===== *)
(** * The steps of the backend controller

    Every handler of [backend/controller.rs] is a sequence of a few kinds of
    primitive step: bookkeeping, a publication, a change of the run intent, a
    save, a request for a new session generation, and the edges of suspend and
    resume.  [prim] is that step relation, labelled by its kind; [event_steps]
    decomposes the handling of any event into primitive steps and says which
    kinds the event can produce.  Invariants of the actor are then proved once
    per kind of step. *)

From stdpp Require Import relations.
From S2P Require Import Prelude Float32 AppState Model Wire Text Features Device TxtParser Browser Recovery Discovery Inventory Calibration DiagRing Machine Supervisor Persistence Backend Controller.
Import Model Calibration Persistence Backend Controller.

Module ControllerSteps.

(** ** Views of a snapshot *)

Definition durable_of (s : DeviceSnapshot) :=
  (sn_master_volume s, sn_receiver_levels s, sn_muted s, sn_latency_preset s, sn_auto_connect s,
   au_preference (sn_audio_source s), sn_desired_members s).

(** What the snapshot shows of the durable document; groups in any order. *)
Definition mirrors (p : PersistedStateV1) (s : DeviceSnapshot) : Prop :=
  durable_of s = (p_master_volume p, p_receiver_levels p, p_muted p, p_latency_preset p,
                  p_auto_connect p, p_audio_endpoint p, p_last_desired_members p) /\
  sn_saved_groups s ≡ₚ p_saved_groups p.

Record same_choices (s s' : DeviceSnapshot) : Prop := {
  sc_durable : durable_of s' = durable_of s;
  sc_groups : sn_saved_groups s' ≡ₚ sn_saved_groups s;
  sc_persistence : sn_persistence s' = sn_persistence s;
}.
#[export] Instance same_choices_preorder : PreOrder same_choices.
Proof.
  split; [by split|]. intros a b c [] []. split; congruence || by etrans.
Qed.

Lemma mirrors_same p s s' : same_choices s s' -> mirrors p s -> mirrors p s'.
Proof. intros [Hd Hg _] [Hm Hn]. split; [congruence|by etrans]. Qed.

(** The same choices, run intent and revision. *)
Definition same_view (s s' : DeviceSnapshot) : Prop :=
  same_choices s s' /\ sn_run_intent s' = sn_run_intent s /\ sn_revision s' = sn_revision s.
#[export] Instance same_view_preorder : PreOrder same_view.
Proof.
  split; [by split|]. intros a b c (H1 & H2 & H3) (H4 & H5 & H6).
  split; [by etrans|]. split; congruence.
Qed.

(** ** Primitive steps *)

Definition quiet (o : Output) : Prop :=
  match o with
  | OPublish _ | OSave _ _ | OSaveCalibration _ _ | ORequest (Supervisor.Reconcile _)
  | OConfirm _ _ => False
  | _ => True
  end.

Inductive Kind :=
| Bookkeeping | Report | Publication | Intent (i : RunIntent) | Disarm | SuspendEdge | ResumeEdge | Resume
| Restart | Save | SaveRefused | SaveCalibration | Answer.
#[export] Instance Kind_eq_dec : EqDecision Kind.
Proof. solve_decision. Defined.

Section Steps.
Context {S : Type} `{StateStore S}.
Context (lower : text -> text) (tone : nat -> bool) (uuid : nat -> Z).
Local Notation Ctrl := (Controller (S := S)).

Definition core (c : Ctrl) :=
  (persisted c, store c, profile c, suspended c, resume_at c, startup_auto_connect_until c).

(** The outcome of a command is recorded before it is published. *)
Definition new_outcomes (s s' : DeviceSnapshot) : Prop :=
  exists o, s' = s <| sn_command_outcomes := o |>.
#[export] Instance new_outcomes_preorder : PreOrder new_outcomes.
Proof.
  split.
  - intros s. exists (sn_command_outcomes s). by destruct s.
  - intros a b c [o1 ->] [o2 ->]. by exists o2.
Qed.

Record moves (R : DeviceSnapshot -> DeviceSnapshot -> Prop) (c c' : Ctrl) : Prop := {
  t_core : core c' = core c;
  t_published : published c' = published c;
  t_generation : session_generation c <= session_generation c';
  t_snapshot : R (snapshot c) (snapshot c');
  t_out : exists new, out c' = new ++ out c /\ Forall quiet new;
}.
Local Notation tame := (moves eq).
Local Notation reports := (moves new_outcomes).

Record shows (R : DeviceSnapshot -> DeviceSnapshot -> Prop) (c c' : Ctrl) : Prop := {
  s_core : core c' = core c;
  s_published : published c' = snapshot c';
  s_generation : session_generation c <= session_generation c';
  s_revision : sn_revision (snapshot c') = sn_revision (snapshot c) + 1;
  s_related : R (snapshot c) (snapshot c');
  s_out : exists new, out c' = OPublish (snapshot c') :: new ++ out c /\ Forall quiet new;
}.

Definition same_run (s s' : DeviceSnapshot) : Prop :=
  same_choices s s' /\ sn_run_intent s' = sn_run_intent s.

(** A request for a new generation. *)
Record restarts (c c' : Ctrl) : Prop := {
  r_core : core c' = core c;
  r_views : snapshot c' = snapshot c /\ published c' = published c;
  r_awake : suspended c = false;
  r_generation : session_generation c' = sat_add 64 (session_generation c) 1;
  r_out : exists p new, out c' = ORequest (Supervisor.Reconcile p) :: new ++ out c /\
    Forall quiet new /\ Supervisor.generation p = session_generation c' /\
    Supervisor.calibration p = profile c /\
    Supervisor.teardown_only p = (sn_run_intent (snapshot c) ==? Stopped) /\
    (forall d, d ∈ Supervisor.desired p ->
       sn_run_intent (snapshot c) = Running /\
       exists id e, id ∈ sn_desired_members (snapshot c) /\ inventory c !! id = Some e /\
         Inventory.ie_available e = true /\ Inventory.ie_castable e = true /\
         Inventory.ie_device e = Some d /\ in_backoff c id = false);
}.

(** A successful transaction: saved, adopted, announced, published. *)
Record commits (c c' : Ctrl) : Prop := {
  c_saved : save (store c) (persisted c') = (store c', Ok tt);
  c_valid : validate lower (persisted c') = Ok tt;
  c_doc : doc_ok (persisted c) -> doc_ok (persisted c');
  c_rest : (profile c', suspended c', resume_at c', startup_auto_connect_until c',
            session_generation c') =
           (profile c, suspended c, resume_at c, startup_auto_connect_until c,
            session_generation c);
  c_published : published c' = snapshot c';
  c_revision : sn_revision (snapshot c') = sn_revision (snapshot c) + 1;
  c_run : sn_run_intent (snapshot c') = sn_run_intent (snapshot c);
  c_persistence : sn_persistence (snapshot c') = sn_persistence (snapshot c);
  c_mirrors : mirrors (persisted c) (snapshot c) -> mirrors (persisted c') (snapshot c');
  c_out : exists new, Forall quiet new /\
    out c' = OPublish (snapshot c') :: new ++ OSave (persisted c') true :: out c;
}.

(** A write that failed: nothing but the health and the outcome changes. *)
Record refuses (c c' : Ctrl) : Prop := {
  f_store : exists d e, save (store c) d = (store c', Err e) \/
            exists section, save_calibration (store c) section = (store c', Err e);
  f_rest : (persisted c', profile c', suspended c', resume_at c',
            startup_auto_connect_until c', session_generation c') =
           (persisted c, profile c, suspended c, resume_at c, startup_auto_connect_until c,
            session_generation c);
  f_published : published c' = snapshot c';
  f_revision : sn_revision (snapshot c') = sn_revision (snapshot c) + 1;
  f_view : durable_of (snapshot c') = durable_of (snapshot c) /\
    sn_saved_groups (snapshot c') ≡ₚ sn_saved_groups (snapshot c) /\
    sn_run_intent (snapshot c') = sn_run_intent (snapshot c) /\
    sn_persistence (snapshot c') = PersistError;
  f_out : exists new o, Forall quiet new /\
    (match o with OSave _ false | OSaveCalibration _ false => True | _ => False end) /\
    out c' = OPublish (snapshot c') :: new ++ o :: out c;
}.

Record calibrates (c c' : Ctrl) : Prop := {
  k_saved : exists section, save_calibration (store c) section = (store c', Ok tt) /\
    (section = Some (state_of_profile (profile c')) \/ section = None /\ profile c' = empty_profile) /\
    exists new, Forall quiet new /\ out c' = new ++ OSaveCalibration section true :: out c;
  k_rest : (persisted c', suspended c', resume_at c', startup_auto_connect_until c',
            session_generation c') =
           (persisted c, suspended c, resume_at c, startup_auto_connect_until c,
            session_generation c);
  k_published : published c' = published c;
  k_snapshot : exists o, snapshot c' = (snapshot c) <| sn_command_outcomes := o |>;
}.

Definition prim (k : Kind) (c c' : Ctrl) : Prop :=
  match k with
  | Bookkeeping => tame c c'
  | Report => reports c c'
  | Publication => shows same_run c c'
  | Intent i => shows (fun s s' => same_choices s s' /\ sn_run_intent s' = i) c c'
  | Disarm => c' = disarm c
  | SuspendEdge => exists at_, c' = c <| suspended := true |> <| resume_at := Some at_ |>
  | ResumeEdge => exists at_, c' = c <| resume_at := Some at_ |>
  | Resume => c' = c <| resume_at := None |> <| suspended := false |>
  | Restart => restarts c c'
  | Save => commits c c'
  | SaveRefused => refuses c c'
  | SaveCalibration => calibrates c c'
  | Answer => exists receipt error floor, c' = confirm receipt error floor c
  end.

Definition steps (P : Kind -> Prop) : Ctrl -> Ctrl -> Prop :=
  rtc (fun c c' => exists k, P k /\ prim k c c').


#[export] Instance steps_preorder P : PreOrder (steps P).
Proof. unfold steps. apply _. Qed.

Lemma steps_one (P : Kind -> Prop) k c c' : P k -> prim k c c' -> steps P c c'.
Proof. intros. apply rtc_once. eauto. Qed.

Lemma steps_weaken (P Q : Kind -> Prop) c c' :
  (forall k, P k -> Q k) -> steps P c c' -> steps Q c c'.
Proof.
  intros HPQ Hs. induction Hs as [|c1 c2 c3 (k & Hk & Hp) _ IH]; [done|].
  etrans; [|apply IH]. eapply steps_one; eauto.
Qed.

Lemma steps_fold {A} P (f : Ctrl -> A -> Ctrl) l c :
  (forall c x, steps P c (f c x)) -> steps P c (fold_left f l c).
Proof. intros Hf. revert c. induction l as [|x l IH]; intros c; cbn; [done|]. etrans; eauto. Qed.

(** An invariant of every kind of step that can occur holds at the end. *)
Lemma steps_inv (P : Kind -> Prop) (I : Ctrl -> Prop) c c' :
  (forall k a b, P k -> prim k a b -> I a -> I b) -> steps P c c' -> I c -> I c'.
Proof.
  intros Hp Hs. induction Hs as [|c1 c2 c3 (k & Hk & Hst) _ IH]; eauto.
Qed.

(** ** Bookkeeping *)

#[export] Instance moves_preorder R `{!PreOrder R} : PreOrder (moves R).
Proof.
  split.
  - intros c. split; [done|done|lia|done|by exists []].
  - intros a b c [H1 H2 H3 H4 (n1 & H5 & Hq1)] [H6 H7 H8 H9 (n2 & H10 & Hq2)].
    split; [congruence|congruence|lia|by etrans|].
    exists (n2 ++ n1). rewrite H10, H5, app_assoc. split; [done|]. by apply Forall_app.
Qed.

(** A step that leaves the observed fields alone. *)
Lemma tame_internal (c c' : Ctrl) :
  core c' = core c -> published c' = published c -> snapshot c' = snapshot c ->
  out c' = out c -> session_generation c <= session_generation c' -> tame c c'.
Proof.
  intros Hc Hp Hs Ho Hg. split; try done. exists []. by rewrite Ho.
Qed.

Lemma tame_emit o (c : Ctrl) : quiet o -> tame c (emit o c).
Proof.
  intros Ho. split; try done. exists [o]. split; [done|]. by constructor.
Qed.

Lemma tame_reports c c' : tame c c' -> reports c c'.
Proof. intros [? ? ? Hs ?]. split; try done. by rewrite Hs. Qed.

Lemma tame_fold {A} (f : Ctrl -> A -> Ctrl) l c :
  (forall c x, tame c (f c x)) -> tame c (fold_left f l c).
Proof. intros Hf. revert c. induction l as [|x l IH]; intros c; cbn; [done|]. etrans; eauto. Qed.

End Steps.

Notation tame := (moves eq).
Notation reports := (moves new_outcomes).

(** A record update of fields no step observes. *)
Ltac internal := apply tame_internal; [reflexivity|reflexivity|reflexivity|reflexivity|cbn; lia].

Section Bookkeeping.
Context {S : Type}.
Local Notation Ctrl := (Controller (S := S)).

Lemma tame_diagnostic sev p (c : Ctrl) : tame c (emit_diagnostics sev p c).
Proof. by apply tame_emit. Qed.
Lemma tame_receiver_diagnostic r sev p (c : Ctrl) : tame c (emit_receiver_diagnostic r sev p c).
Proof. by apply tame_emit. Qed.

Lemma tame_check_listening_test (c : Ctrl) : tame c (check_listening_test c).
Proof.
  unfold check_listening_test. destruct (listening_test c) as [[g t]|]; [|done].
  case_match; [done|]. etrans; [|by apply tame_emit]. internal.
Qed.

Lemma tame_publish_generations (c : Ctrl) : tame c (publish_generations c).
Proof. internal. Qed.

Lemma reports_result id e (c : Ctrl) : reports c (record_result id e c).
Proof. split; [done|done|cbn; lia|by eexists|by exists []]. Qed.

Lemma reports_complete id (c : Ctrl) : reports c (complete id c).
Proof.
  unfold complete. etrans; [|apply tame_reports, tame_diagnostic].
  etrans; [|by apply tame_reports, tame_emit]. apply reports_result.
Qed.

Lemma reports_fail_with_kind id m k (c : Ctrl) : reports c (fail_with_kind id m k c).
Proof.
  unfold fail_with_kind. etrans; [|apply tame_reports, tame_diagnostic].
  etrans; [|by apply tame_reports, tame_emit]. apply reports_result.
Qed.

Lemma reports_fail id m (c : Ctrl) : reports c (fail id m c).
Proof. apply reports_fail_with_kind. Qed.

Lemma tame_drive r apply (c : Ctrl) : tame c (drive r apply c).
Proof.
  unfold drive. destruct (apply _) as [m [[]|rejected]].
  - case_match; [internal|]. etrans; [|apply tame_receiver_diagnostic]. internal.
  - etrans; [|apply tame_receiver_diagnostic]. internal.
Qed.

Lemma tame_sync_one now (c : Ctrl) id : tame c (sync_one now c id).
Proof.
  unfold sync_one. case_match; [internal|]. etrans; [|apply tame_drive]. internal.
Qed.

Lemma tame_sync now (c : Ctrl) : tame c (sync_service_availability now c).
Proof. apply tame_fold, tame_sync_one. Qed.

Lemma tame_forward (c : Ctrl) : tame c (forward_effective_volumes c).
Proof. apply tame_fold. intros. by apply tame_emit. Qed.
Lemma tame_remember (c : Ctrl) : tame c (remember_effective_volumes c).
Proof. apply tame_fold. intros. by apply tame_emit. Qed.

(** Clearing a deadline and driving the machine to retry. *)
Lemma tame_retry (c : Ctrl) r :
  tame c (drive r Machine.retry_now (c <| retry := Recovery.clear_deadline (retry c) r |>)).
Proof. etrans; [|apply tame_drive]. internal. Qed.

Lemma tame_release_backoff (c : Ctrl) : tame c (release_backoff c).
Proof. apply tame_fold, tame_retry. Qed.

Lemma tame_calibration_state st (c : Ctrl) : tame c (note_calibration_state st c).
Proof. apply tame_diagnostic. Qed.

Lemma reports_pattern id p (c : Ctrl) : reports c (start_pattern id p c).
Proof.
  unfold start_pattern. destruct p; [|apply tame_reports; internal].
  etrans; [|apply reports_complete]. by apply tame_reports, tame_emit.
Qed.

Lemma reports_click_test id (c : Ctrl) : reports c (handle_calibration_click_test id c).
Proof.
  unfold handle_calibration_click_test. case_match; [apply reports_fail|apply reports_pattern].
Qed.

Lemma tame_settle_calibration g (c : Ctrl) : tame c (settle_calibration_generation g c).
Proof.
  unfold settle_calibration_generation. destruct (calibration_pending_generation c); [|done].
  case_match; [done|]. etrans; [|apply tame_calibration_state]. internal.
Qed.

Lemma reports_listening_test tone id g (c : Ctrl) : reports c (run_listening_test tone id g c).
Proof.
  unfold run_listening_test. case_match; [apply reports_fail|].
  destruct (tone (ticks c)).
  - etrans; [|apply reports_complete]. apply tame_reports.
    transitivity (emit (OTone (Z.of_nat (ticks c)) true) (c <| ticks := (ticks c + 1)%nat |>));
      [|internal]. etrans; [|by apply tame_emit]. internal.
  - etrans; [|apply reports_fail]. apply tame_reports.
    etrans; [|by apply tame_emit]. etrans; [|by apply tame_emit]. internal.
Qed.

Lemma tame_stop_listening_test (c : Ctrl) : tame c (stop_listening_test c).
Proof.
  unfold stop_listening_test. destruct (listening_test c) as [[]|]; [|done].
  etrans; [|by apply tame_emit]. internal.
Qed.

Lemma tame_receiver_failure now wall r retryable e (c : Ctrl) :
  tame c (note_receiver_failure now wall r retryable e c).
Proof.
  unfold note_receiver_failure. case_match; [apply tame_drive|].
  destruct (Recovery.note_failure _ _ _ _) as [[entries deadline]|].
  - etrans; [|apply tame_receiver_diagnostic]. etrans; [|apply tame_drive].
    etrans; [apply tame_drive|]. internal.
  - etrans; [apply tame_drive|]. internal.
Qed.

(** Rows are rebuilt without touching anything a step observes, and the
    snapshot they go into keeps its choices. *)
Lemma rebuild_rows_frame next (c : Ctrl) :
  tame c (rebuild_receiver_rows next c).2 /\ same_view next (rebuild_receiver_rows next c).1.
Proof. unfold rebuild_receiver_rows. split; [internal|done]. Qed.

Lemma adopt_generation_tame g (c : Ctrl) : tame c (adopt_generation g c).
Proof. internal. Qed.

End Bookkeeping.

(** ** Publication *)

Section Publication.
Context {S : Type} `{StateStore S}.
Context (lower : text -> text) (tone : nat -> bool) (uuid : nat -> Z).
Local Notation Ctrl := (Controller (S := S)).
Local Notation steps := (steps (S := S) lower).
Local Notation publish := (publish (S := S) lower).

Lemma check_snapshot (c : Ctrl) : snapshot (check_listening_test c) = snapshot c.
Proof. unfold check_listening_test. by repeat case_match. Qed.

Lemma sort_choices s : same_choices s (sort_for_publication lower s).
Proof. split; [done| |done]. apply isort_perm. Qed.

(** What [publish] makes of the state it is called in. *)
Lemma publish_fields (c : Ctrl) :
  snapshot (publish c) = published (publish c) /\
  snapshot (publish c) =
    sort_for_publication lower ((snapshot c) <| sn_revision := sn_revision (snapshot c) + 1 |>) /\
  core (publish c) = core c /\ session_generation (publish c) = session_generation c /\
  exists new, out (publish c) = OPublish (snapshot (publish c)) :: new ++ out c /\ Forall quiet new.
Proof.
  destruct (tame_check_listening_test c) as [Hc _ _ _ (new & Ho & Hq)].
  pose proof (check_snapshot c) as Hs.
  assert (Hg : session_generation (check_listening_test c) = session_generation c)
    by (unfold check_listening_test; by repeat case_match).
  unfold publish, Controller.publish.
  destruct (_ <? 2 ^ 64); cbn; rewrite Hs; (split_and!; [done|done|exact Hc|exact Hg|]);
    exists new; cbn; by rewrite Ho.
Qed.

(** [d] is [c] after some bookkeeping and a change of the snapshot. *)
Lemma publish_shows (R : DeviceSnapshot -> DeviceSnapshot -> Prop) (c d : Ctrl) :
  core d = core c -> session_generation c <= session_generation d ->
  sn_revision (snapshot d) = sn_revision (snapshot c) ->
  (exists new, out d = new ++ out c /\ Forall quiet new) ->
  (forall s, same_run (snapshot d) s -> R (snapshot c) s) ->
  shows R c (publish d).
Proof.
  intros Hc Hg Hr (n1 & Ho & Hq) HR.
  destruct (publish_fields d) as (Hp & Hs & Hcd & Hgd & n2 & Ho2 & Hq2).
  split; [congruence|done|lia| | |].
  - rewrite Hs. cbn. lia.
  - apply HR. rewrite Hs. split; [|done]. by etrans; [|apply sort_choices].
  - exists (n2 ++ n1). rewrite Ho2, Ho, app_assoc. split; [done|]. by apply Forall_app.
Qed.

Lemma steps_tame (P : Kind -> Prop) c c' : P Bookkeeping -> tame c c' -> steps P c c'.
Proof. intros. by eapply steps_one. Qed.

Lemma steps_report (P : Kind -> Prop) c c' : P Report -> reports c c' -> steps P c c'.
Proof. intros. by eapply steps_one. Qed.

Lemma steps_publish (P : Kind -> Prop) (c : Ctrl) : P Publication -> steps P c (publish c).
Proof.
  intros HP. apply (steps_one lower P Publication); [done|].
  apply publish_shows; [done|lia|done|by exists []|done].
Qed.

(** Publishing a view that keeps every choice. *)
Lemma steps_show (P : Kind -> Prop) next (c d : Ctrl) :
  P Publication -> tame c d -> same_view (snapshot d) next ->
  steps P c (publish (d <| snapshot := next |>)).
Proof.
  intros HP [Hc _ Hg Hs Ho] ([Hd Hgr Hpe] & Hi & Hr). apply (steps_one lower P Publication); [done|].
  rewrite <- Hs in Hd, Hgr, Hpe, Hi, Hr. apply publish_shows; [exact Hc|exact Hg|exact Hr|exact Ho|].
  intros s [[Hd' Hgr' Hpe'] Hi']. split; [split|].
  - etrans; [exact Hd'|exact Hd].
  - etrans; [exact Hgr'|exact Hgr].
  - etrans; [exact Hpe'|exact Hpe].
  - etrans; [exact Hi'|exact Hi].
Qed.

Lemma steps_maybe_publish (P : Kind -> Prop) next (c d : Ctrl) :
  P Bookkeeping -> P Publication -> tame c d -> same_view (snapshot d) next ->
  steps P c (maybe_publish lower next d).
Proof.
  intros HB HP Ht Hv. unfold maybe_publish. destruct (snapshot_eqb _ _); [by apply steps_tame|].
  cbv zeta. case_match; [by apply steps_show|].
  etrans; [by apply (steps_show P next c d)|]. apply steps_tame; [done|]. apply tame_diagnostic.
Qed.

Lemma steps_publish_rows (P : Kind -> Prop) next (c d : Ctrl) :
  P Bookkeeping -> P Publication -> tame c d -> same_view (snapshot d) next ->
  steps P c (publish_with_rows lower next d).
Proof.
  intros HB HP Ht Hv. unfold publish_with_rows. destruct (rebuild_rows_frame next d) as [Ht' Hv'].
  destruct (rebuild_receiver_rows next d) as [next' d'] eqn:E. cbn in Ht', Hv'.
  apply steps_maybe_publish; [done|done|by etrans|].
  replace (snapshot d') with (snapshot d); [by etrans|].
  unfold rebuild_receiver_rows in E. injection E as _ <-. done.
Qed.

Lemma steps_republish_rows (P : Kind -> Prop) (c d : Ctrl) :
  P Bookkeeping -> P Publication -> tame c d -> steps P c (republish_rows lower d).
Proof. intros. by apply (steps_publish_rows P (snapshot d)). Qed.

Lemma steps_refresh (P : Kind -> Prop) now (c d : Ctrl) :
  P Bookkeeping -> P Publication -> tame c d -> steps P c (refresh_receivers lower now d).
Proof.
  intros HB HP Ht. unfold refresh_receivers.
  pose proof (rebuild_rows_frame (snapshot d) d) as [Ht' _].
  destruct (rebuild_receiver_rows _ d) as [? d'].
  apply steps_republish_rows; [done|done|]. etrans; [done|]. etrans; [done|]. apply tame_sync.
Qed.

End Publication.

(** ** Handlers of supervisor updates and platform edges *)

Section Handlers.
Context {S : Type} `{StateStore S}.
Context (lower : text -> text).
Local Notation Ctrl := (Controller (S := S)).
Local Notation steps := (steps (S := S) lower).
(** Any event may keep books, publish and ask for a restart. *)
Context (P : Kind -> Prop) (HB : P Bookkeeping) (HP : P Publication) (HR : P Restart).
Implicit Types c : Ctrl.

Lemma steps_discovery now wall u c : steps P c (apply_discovery_update lower now wall u c).
Proof.
  unfold apply_discovery_update. destruct u as [g|g e|g ? ?].
  - apply steps_maybe_publish; [done|done| |done]. etrans; [|apply tame_publish_generations]. internal.
  - case_match; [done|]. apply steps_refresh; [done|done|]. internal.
  - case_match; [done|].
    assert (Hs : steps P c (maybe_publish lower ((snapshot c) <| sn_discovery :=
      {| Discovery.snap_generation := Discovery.snap_generation (sn_discovery (snapshot c));
         Discovery.snap_phase :=
           Discovery.Retrying (sat_add 32 (discovery_failures c) 1) wall |} |>)
      (c <| discovery_failures := sat_add 32 (discovery_failures c) 1 |>))).
    { apply steps_maybe_publish; [done|done|internal|done]. }
    case_match; [|exact Hs]. etrans; [exact Hs|]. apply steps_tame; [done|]. by apply tame_emit.
Qed.

Lemma steps_endpoints r c : steps P c (apply_endpoints lower r c).
Proof. unfold apply_endpoints. destruct r; by apply steps_maybe_publish. Qed.

Lemma steps_telemetry peak dropped c : steps P c (apply_capture_telemetry lower peak dropped c).
Proof. by apply steps_maybe_publish. Qed.

Lemma steps_capture u c : steps P c (capture_event lower u c).
Proof.
  unfold capture_event. etrans.
  { apply (steps_tame lower P c (match u with CapReady _ _ | CapRecovering _ => emit OScan c | _ => c end));
      [done|]. destruct u; done || by apply tame_emit. }
  generalize (match u with CapReady _ _ | CapRecovering _ => emit OScan c | _ => c end) as d. intros d.
  unfold apply_capture_update.
  assert (Ht : tame d (publish_generations (note_capture_generation u d))) by internal.
  destruct u; by apply steps_maybe_publish.
Qed.

(** A loop that only sends. *)
Lemma fold_emit {A} (f : Ctrl -> A -> Output) l c :
  (forall c x, quiet (f c x)) ->
  exists new, Forall quiet new /\
    fold_left (fun c x => emit (f c x) c) l c = c <| out := new ++ out c |>.
Proof.
  intros Hq. revert c. induction l as [|x l IH]; intros c; cbn.
  - exists []. split; [done|]. by destruct c.
  - destruct (IH (emit (f c x) c)) as (new & Hn & ->).
    exists (new ++ [f c x]). split; [apply Forall_app; by repeat constructor|].
    cbn. by rewrite <- app_assoc.
Qed.

Lemma desired_devices_castable c d : d ∈ desired_devices c ->
  sn_run_intent (snapshot c) = Running /\
  exists id e, id ∈ sn_desired_members (snapshot c) /\ inventory c !! id = Some e /\
    Inventory.ie_available e = true /\ Inventory.ie_castable e = true /\
    Inventory.ie_device e = Some d /\ in_backoff c id = false.
Proof.
  unfold desired_devices, is_stopped.
  case_bool_decide as Hi; [by intros ?%elem_of_nil|].
  assert (sn_run_intent (snapshot c) = Running) as Hrun by (by destruct (sn_run_intent (snapshot c))).
  rewrite list_elem_of_omap. intros (id & Hid & He). split; [done|].
  destruct (inventory c !! id) as [e|] eqn:Hl; [|done]. cbn in He.
  rewrite list_elem_of_In, filter_In, <- list_elem_of_In in Hid. destruct Hid as [Hin Hf].
  bool_simpl. exists id, e. unfold castable in *. rewrite Hl in *. cbn in *. bool_simpl.
  split_and!; try done. unfold in_order in Hin. rewrite isort_perm in Hin.
  by apply elem_of_elements in Hin.
Qed.

Lemma steps_request_reconcile cause c : steps P c (request_reconcile cause c).
Proof.
  unfold request_reconcile. destruct (suspended c) eqn:Hs; [done|].
  cbv zeta. destruct (is_stopped c && _ && _) eqn:Hidle; [done|].
  apply (steps_one lower P Restart); [done|].
  set (c1 := publish_generations _).
  assert (Hc1 : core c1 = core c /\ snapshot c1 = snapshot c /\ published c1 = published c /\
    out c1 = out c /\ session_generation c1 = sat_add 64 (session_generation c) 1 /\
    inventory c1 = inventory c /\ machines c1 = machines c /\ profile c1 = profile c)
    by (unfold c1; destruct (is_calibration cause); done).
  clearbody c1. destruct Hc1 as (H1 & H2 & H3 & H4 & H5 & H6 & H7 & H8).
  destruct (fold_emit (fun c r => ORemember r (effective_for c r))
    (in_order (sn_desired_members (snapshot c1)))
    (c1 <| pending_desired := list_to_set (Device.dev_id <$> desired_devices c1) |>)) as (new & Hq & He);
    [done|].
  unfold remember_effective_volumes. cbn -[desired_devices] in He |- *. rewrite He. clear He.
  split; [exact H1|done|done|exact H5|].
  eexists _, (_ :: new). cbn -[desired_devices]. rewrite H4. split_and!; [reflexivity|by constructor|done|done| |].
  - unfold is_stopped. by rewrite H2.
  - cbn -[desired_devices]. intros d Hd%desired_devices_castable. rewrite H2, H6 in Hd.
    destruct Hd as (Hrun & id & e & Hd). split; [done|]. exists id, e.
    unfold in_backoff in *. by rewrite H7 in Hd.
Qed.

(** The session part of a snapshot holds no choice of the user. *)
Lemma same_view_session f s : same_view s (with_session f s).
Proof. by destruct s. Qed.

Lemma steps_then f c :
  (forall d, steps P d (f d)) -> forall d, tame c d -> steps P c (f d).
Proof. intros Hf d Ht. etrans; [by apply steps_tame|apply Hf]. Qed.

Lemma steps_restart_when b cause now c : steps P c (restart_when b cause now c).
Proof.
  unfold restart_when. destruct b; [|done].
  apply steps_then; [intros; apply steps_request_reconcile|internal].
Qed.

Lemma steps_session_starting g c : steps P c (session_starting lower g c).
Proof.
  unfold session_starting. apply steps_publish_rows; [done|done| |done].
  etrans; [apply adopt_generation_tame|]. apply tame_fold. intros. apply tame_drive.
Qed.

Lemma tame_session_active now wall g p members failures c :
  let c1 := settle_calibration_generation g (forward_effective_volumes
              (c <| primary := Some p |> <| active := members |>)) in
  let c2 := fold_left (fun c r => drive r (fun m => Machine.enter_streaming m
              (if (size members <=? 1)%nat then Single else role_of (Some p) r)) c) (in_order members) c1 in
  let c3 := fold_left (fun c r =>
     c <| retry := (Recovery.note_streaming (retry c) Recovery.default_policy now r).1 |>)
     (in_order members) c2 in
  let c4 := fold_left (fun c f => note_receiver_failure now wall (Supervisor.failed_receiver f)
     (Supervisor.failure_retryable f) (setup_failure_error f) c) failures c3 in
  forall missing,
  tame c (fold_left (fun c r => note_receiver_failure now wall r true
            "the receiver did not join the group" c) missing c4).
Proof.
  intros c1 c2 c3 c4 missing. transitivity c1.
  { unfold c1. etrans; [|apply tame_settle_calibration]. etrans; [|apply tame_forward]. internal. }
  transitivity c2; [apply tame_fold; intros; apply tame_drive|].
  transitivity c3; [apply tame_fold; intros; internal|].
  transitivity c4; [apply tame_fold; intros; apply tame_receiver_failure|].
  apply tame_fold. intros. apply tame_receiver_failure.
Qed.

Lemma steps_session_active now wall g p members failures c :
  steps P c (session_active lower now wall g p members failures c).
Proof.
  unfold session_active. cbv zeta. apply steps_publish_rows; [done|done| |done].
  apply tame_session_active.
Qed.

Lemma steps_session_member_failed now wall g r primary error c :
  steps P c (session_member_failed lower now wall g r primary error c).
Proof.
  unfold session_member_failed. etrans; [|apply steps_restart_when].
  apply steps_publish_rows; [done|done| |apply same_view_session].
  unfold lose_member. etrans; [|apply tame_receiver_failure]. case_match; internal.
Qed.

Lemma steps_session_stopped c : steps P c (session_stopped lower c).
Proof. unfold session_stopped. apply steps_publish_rows; [done|done|internal|done]. Qed.

Lemma steps_session now wall u c : steps P c (apply_session_update lower now wall u c).
Proof.
  unfold apply_session_update. destruct u.
  - apply steps_session_starting.
  - apply steps_session_active.
  - case_match; [done|]. apply steps_tame; [done|]. apply tame_receiver_diagnostic.
  - apply steps_session_member_failed.
  - apply steps_maybe_publish; [done|done|apply adopt_generation_tame|done].
  - apply steps_session_stopped.
Qed.

Lemma steps_fire_due_retries now c : steps P c (fire_due_retries lower now c).
Proof.
  unfold fire_due_retries. case_match; [done|].
  etrans; [|apply steps_request_reconcile]. apply steps_republish_rows; [done|done|].
  transitivity (fold_left (fun c r => drive r Machine.retry_now
    (c <| retry := Recovery.clear_deadline (retry c) r |>)) (rejoin_candidates c now).1 c);
    [|internal]. apply tame_fold, tame_retry.
Qed.

Lemma steps_network_change now changed c : steps P c (apply_network_change now changed c).
Proof.
  unfold apply_network_change. cbv zeta.
  assert (Hd : tame c (emit_diagnostics Info (SystemTransitioned (WasNetworkChanged changed)) c))
    by apply tame_diagnostic.
  destruct (suspended _); [by apply steps_tame|].
  assert (Hd2 : tame c (emit (ODiscovery Discovery.RestartAfterNetworkChange)
    (emit_diagnostics Info (SystemTransitioned (WasNetworkChanged changed)) c)))
    by (etrans; [exact Hd|by apply tame_emit]).
  case_match; [|by apply steps_tame].
  apply steps_then; [intros; apply steps_restart_when|].
  etrans; [exact Hd2|]. apply tame_release_backoff.
Qed.

Lemma steps_suspend now c : P SuspendEdge -> steps P c (begin_suspend lower now c).
Proof.
  intros HS. unfold begin_suspend. cbv zeta. etrans.
  { apply (steps_one lower P SuspendEdge); [done|]. by eexists. }
  etrans; [|apply steps_tame; [done|apply tame_diagnostic]].
  apply steps_maybe_publish; [done|done| |done].
  etrans; [|by apply tame_emit]. by apply tame_emit.
Qed.

Lemma steps_resume_edge now c : P ResumeEdge -> steps P c (begin_resume now c).
Proof. intros. apply (steps_one lower P ResumeEdge); [done|]. by eexists. Qed.

(** What the end of a suspend does after its flags are cleared. *)
Lemma steps_awake now c :
  steps P (c <| resume_at := None |> <| suspended := false |>) (finish_resume lower now c).
Proof.
  unfold finish_resume. cbv zeta. set (c1 := c <| resume_at := None |> <| suspended := false |>).
  set (c2 := emit_diagnostics _ _ _).
  assert (Hs : steps P c1 c2).
  { unfold c2. etrans; [|apply steps_tame; [done|apply tame_diagnostic]].
    apply steps_maybe_publish; [done|done| |apply same_view_session].
    etrans; [|apply tame_release_backoff]. etrans; [|by apply tame_emit]. by apply tame_emit. }
  etrans; [exact Hs|apply steps_restart_when].
Qed.

Lemma steps_finish_resume now c : P Resume -> steps P c (finish_resume lower now c).
Proof. intros HE. etrans; [by apply (steps_one lower P Resume)|apply steps_awake]. Qed.

Lemma steps_system now e c :
  match e with Suspending => P SuspendEdge | Resumed => P ResumeEdge | NetworkChanged _ => True end ->
  steps P c (handle_system_event lower now e c).
Proof.
  destruct e; cbn; intros.
  - by apply steps_suspend.
  - by apply steps_resume_edge.
  - apply steps_network_change.
Qed.

(** Setting the run intent and publishing it. *)
Lemma steps_intent i c d : P (Intent i) -> tame c d ->
  steps P c (publish lower (set_run_intent i d)).
Proof.
  intros HI [Hc _ Hg Hs Ho]. apply (steps_one lower P (Intent i)); [done|].
  apply publish_shows; [exact Hc|exact Hg|cbn; by rewrite Hs|exact Ho|].
  intros s. change (snapshot (set_run_intent i d)) with ((snapshot d) <| sn_run_intent := i |>).
  rewrite Hs. intros [[Hd Hgr Hpe] Hi]. split; [by split|done].
Qed.

Lemma steps_auto_connect now c :
  P Disarm -> P (Intent Running) -> steps P c (apply_startup_auto_connect lower now c).
Proof.
  intros HD HI. unfold apply_startup_auto_connect.
  assert (Hd : steps P c (disarm c)) by (by apply (steps_one lower P Disarm)).
  repeat (case_match; try done).
  etrans; [|apply steps_request_reconcile]. etrans; [exact Hd|]. by apply steps_intent.
Qed.

End Handlers.

(** ** The durable transaction *)

(** The announcement of a transaction makes the snapshot mirror the new
    document and touches nothing else the steps observe. *)
Record commit_ok (d : DurableCommit) : Prop := {
  co_mirrors p s : mirrors p s ->
    mirrors (dc_mutate d p)
      (dc_announce d (s <| sn_receiver_levels := p_receiver_levels (dc_mutate d p) |>));
  co_run s : sn_run_intent (dc_announce d s) = sn_run_intent s;
  co_revision s : sn_revision (dc_announce d s) = sn_revision s;
  co_persistence s : sn_persistence (dc_announce d s) = sn_persistence s;
}.

Section Commands.
Context {S : Type} `{StateStore S}.
Context (lower : text -> text) (tone : nat -> bool) (uuid : nat -> Z).
Local Notation Ctrl := (Controller (S := S)).
Local Notation steps := (steps (S := S) lower).
Context (P : Kind -> Prop) (HB : P Bookkeeping) (HT : P Report) (HP : P Publication) (HR : P Restart)
  (HS : P Save) (HF : P SaveRefused) (HK : P SaveCalibration).
Implicit Types c : Ctrl.

Lemma core_fields (c c' : Ctrl) : core c' = core c ->
  persisted c' = persisted c /\ store c' = store c /\ profile c' = profile c /\
  suspended c' = suspended c /\ resume_at c' = resume_at c /\
  startup_auto_connect_until c' = startup_auto_connect_until c.
Proof. by intros [= -> -> -> -> -> ->]. Qed.

(** [e] is the state after the announcement. *)
Lemma commits_publish id c e :
  save (store c) (persisted e) = (store e, Ok tt) -> validate lower (persisted e) = Ok tt ->
  (doc_ok (persisted c) -> doc_ok (persisted e)) ->
  (profile e, suspended e, resume_at e, startup_auto_connect_until e, session_generation e) =
  (profile c, suspended c, resume_at c, startup_auto_connect_until c, session_generation c) ->
  sn_run_intent (snapshot e) = sn_run_intent (snapshot c) ->
  sn_revision (snapshot e) = sn_revision (snapshot c) ->
  sn_persistence (snapshot e) = sn_persistence (snapshot c) ->
  (mirrors (persisted c) (snapshot c) -> mirrors (persisted e) (snapshot e)) ->
  out e = OSave (persisted e) true :: out c ->
  commits lower c (publish lower (complete id e)).
Proof.
  intros Hsave Hv Hdoc Hrest Hi Hr Hp Hm Ho.
  destruct (publish_fields lower (complete id e)) as (Hpub & Hs & Hc & Hg & new & Hout & Hq).
  change (core (complete id e)) with (core e) in Hc.
  change (session_generation (complete id e)) with (session_generation e) in Hg.
  apply core_fields in Hc as (E1 & E2 & E3 & E4 & E5 & E6). injection Hrest as R1 R2 R3 R4 R5.
  split.
  - by rewrite E1, E2.
  - by rewrite E1.
  - by rewrite E1.
  - congruence.
  - done.
  - rewrite Hs. cbn. lia.
  - rewrite Hs. exact Hi.
  - rewrite Hs. exact Hp.
  - intros Hc. rewrite Hs, E1. specialize (Hm Hc). apply (mirrors_same _ (snapshot e)); [|exact Hm].
    etrans; [|apply sort_choices]. done.
  - exists (new ++ [ODiagnostic (generations e) None Info CatCommand (CommandResult id None);
                   OEvent (CommandCompleted id)]).
    split; [apply Forall_app; by repeat constructor|].
    rewrite Hout, <- app_assoc, E1. cbn. by rewrite <- Ho.
Qed.

Lemma persistence_failure_fields id c :
  let c' := note_persistence_failure id c in
  core c' = core c /\ session_generation c' = session_generation c /\
  (exists o, snapshot c' = (snapshot c) <| sn_persistence := PersistError |>
                             <| sn_command_outcomes := o |>) /\
  exists new, Forall quiet new /\ out c' = new ++ out c.
Proof.
  assert (reports (c <| snapshot := (snapshot c) <| sn_persistence := PersistError |> |>)
    (note_persistence_failure id c)) as [Hc _ _ Hs (new & Ho & Hq)].
  { unfold note_persistence_failure. etrans; [|apply tame_reports, tame_diagnostic].
    etrans; [|apply reports_fail_with_kind]. by apply tame_reports, tame_emit. }
  split_and!; [exact Hc|reflexivity|exact Hs|]. exists new. split; [exact Hq|exact Ho].
Qed.

(** [e] is the state after the failed write, [g] after reporting it. *)
Lemma refuses_publish id c e g o :
  (persisted e, profile e, suspended e, resume_at e, startup_auto_connect_until e,
   session_generation e) =
  (persisted c, profile c, suspended c, resume_at c, startup_auto_connect_until c,
   session_generation c) ->
  (exists d why, save (store c) d = (store e, Err why) \/
     exists section, save_calibration (store c) section = (store e, Err why)) ->
  snapshot e = snapshot c -> out e = o :: out c ->
  match o with OSave _ false | OSaveCalibration _ false => True | _ => False end ->
  tame (note_persistence_failure id e) g -> session_generation g = session_generation e ->
  refuses c (publish lower g).
Proof.
  intros Hrest Hst Hs Ho Hfail [Gc _ _ Gs (n1 & Go & Gq)] Gg.
  destruct (persistence_failure_fields id e) as (Nc & Ng & [on Ns] & n0 & Nq & No).
  rewrite Nc in Gc. rewrite Ns, Hs in Gs. symmetry in Gs. rewrite No, Ho in Go. clear Nc Ng Ns No.
  destruct (publish_fields lower g) as (Hpub & Hsp & Hc & Hg & n2 & Hout & Hq).
  rewrite Gc in Hc. apply core_fields in Hc as (E1 & E2 & E3 & E4 & E5 & E6).
  injection Hrest as R1 R2 R3 R4 R5 R6. split.
  - by rewrite E2.
  - congruence.
  - done.
  - rewrite Hsp, Gs. done.
  - rewrite Hsp, Gs. split_and!; [done| |done|done]. apply isort_perm.
  - exists (n2 ++ n1 ++ n0), o. split; [by rewrite !Forall_app|]. split; [done|].
    rewrite Hout, Go. by rewrite <- !app_assoc.
Qed.

Lemma steps_commit id d c :
  commit_ok d -> (doc_ok (persisted c) -> doc_ok (dc_mutate d (persisted c))) ->
  steps P c (run_commit lower id d c).1.
Proof.
  intros [Hm Hi Hr Hpe] Hdoc. unfold run_commit. cbv zeta.
  destruct (validate lower (dc_mutate d (persisted c))) as [[]|e] eqn:Hv;
    [|by apply steps_report, reports_fail].
  destruct (v1_eqb _ _); [by apply steps_report, reports_complete|].
  destruct (save (store c) (dc_mutate d (persisted c))) as [st [[]|e]] eqn:Hs.
  - apply (steps_one lower P Save); [done|]. unfold fst.
    set (cand := dc_mutate d (persisted c)) in *.
    set (s2 := dc_announce d ((snapshot c) <| sn_receiver_levels := p_receiver_levels cand |>)).
    set (c2 := (emit (OSave cand true) (c <| store := st |> <| persisted := cand |>)) <| snapshot := s2 |>).
    change (commits lower c (publish lower (complete id (refresh_after d c2)))).
    set (e := refresh_after d c2).
    assert (He : core e = core c2 /\ session_generation e = session_generation c2 /\
      out e = out c2 /\ same_view s2 (snapshot e)).
    { unfold e, refresh_after. destruct (dc_refresh_rows d), (dc_sync_names d); by cbn. }
    clearbody e. destruct He as (Hc & Hg & Ho & (Hch & Hvi & Hvr)).
    apply core_fields in Hc as (E1 & E2 & E3 & E4 & E5 & E6). cbn in E1, E2, E3, E4, E5, E6, Hg, Ho.
    apply commits_publish; rewrite ?E1, ?E2; try done.
    + congruence.
    + rewrite Hvi. unfold s2. by rewrite Hi.
    + rewrite Hvr. unfold s2. by rewrite Hr.
    + destruct Hch as [_ _ ->]. unfold s2. by rewrite Hpe.
    + intros Hmi. apply (mirrors_same _ s2); [done|]. by apply Hm.
  - apply (steps_one lower P SaveRefused); [done|]. unfold fst.
    eapply (refuses_publish id c (emit (OSave (dc_mutate d (persisted c)) false) (c <| store := st |>)));
      [done| |done|done|done|done|done].
    exists (dc_mutate d (persisted c)), e. left. exact Hs.
Qed.

End Commands.

(** ** Commands *)

Lemma without_group_perm id l l' : l ≡ₚ l' -> without_group id l ≡ₚ without_group id l'.
Proof.
  unfold without_group. induction 1 as [|x l l' _ IH|x y l|l1 l2 l3 _ IH1 _ IH2]; cbn.
  - done.
  - case_match; [by f_equiv|done].
  - repeat case_match; done || apply Permutation_swap.
  - by etrans.
Qed.

(** A transaction whose announcement repeats its mutation field by field. *)
Ltac announced :=
  split; [intros ? ? [[= ? ? ? ? ? ? ?] ?]; split;
            [unfold durable_of; cbn; by repeat f_equal|cbn; try done]|done|done|done].

Lemma commit_master v : commit_ok (plain (fun state => state <| p_master_volume := v |>)
  (fun s => s <| sn_master_volume := v |>)).
Proof. announced. Qed.
Lemma commit_muted b : commit_ok (plain (fun state => state <| p_muted := b |>)
  (fun s => s <| sn_muted := b |>)).
Proof. announced. Qed.
Lemma commit_endpoint p : commit_ok (plain (fun state => state <| p_audio_endpoint := p |>)
  (fun s => s <| sn_audio_source := (sn_audio_source s) <| au_preference := p |> |>)).
Proof. announced. Qed.
Lemma commit_latency l : commit_ok (plain (fun state => state <| p_latency_preset := l |>)
  (fun s => s <| sn_latency_preset := l |>)).
Proof. announced. Qed.
Lemma commit_auto b : commit_ok (plain (fun state => state <| p_auto_connect := b |>)
  (fun s => s <| sn_auto_connect := b |>)).
Proof. announced. Qed.
Lemma commit_level r l : commit_ok (plain (fun state =>
  state <| p_receiver_levels := <[r := l]> (p_receiver_levels state) |>) (fun s => s)).
Proof. announced. Qed.

Lemma commit_members members bump names mutate_levels :
  commit_ok {| dc_mutate := fun state => state <| p_last_desired_members := members |>
                 <| p_receiver_levels := mutate_levels (p_receiver_levels state) |>;
               dc_announce := bump_desired members bump; dc_refresh_rows := true;
               dc_sync_names := names |}.
Proof. unfold bump_desired. destruct bump; announced. Qed.

Lemma commit_desired members bump :
  commit_ok {| dc_mutate := fun state => state <| p_last_desired_members := members |>;
               dc_announce := bump_desired members bump; dc_refresh_rows := true;
               dc_sync_names := false |}.
Proof. unfold bump_desired. destruct bump; announced. Qed.

Lemma commit_save_group lower id stored :
  commit_ok {| dc_mutate := fun state => state <| p_saved_groups :=
                 isort (group_before lower) (without_group id (p_saved_groups state) ++ [stored]) |>;
               dc_announce := fun s => s <| sn_saved_groups :=
                 without_group id (sn_saved_groups s) ++ [stored] |>;
               dc_refresh_rows := false; dc_sync_names := true |}.
Proof. announced. rewrite isort_perm. f_equiv. by apply without_group_perm. Qed.

Lemma commit_delete_group id :
  commit_ok {| dc_mutate := fun state => state <| p_saved_groups :=
                 without_group id (p_saved_groups state) |>;
               dc_announce := fun s => s <| sn_saved_groups := without_group id (sn_saved_groups s) |>;
               dc_refresh_rows := false; dc_sync_names := true |}.
Proof. announced. by apply without_group_perm. Qed.

(** Volumes stay valid. *)
Lemma doc_master v p : volume_ok v -> doc_ok p -> doc_ok (p <| p_master_volume := v |>).
Proof. by intros Hv (_ & Hl & Hg). Qed.
Lemma doc_level r v p : volume_ok v -> doc_ok p ->
  doc_ok (p <| p_receiver_levels := <[r := v]> (p_receiver_levels p) |>).
Proof.
  intros Hv (Hm & Hl & Hg). split; [done|]. split; [|done]. by apply map_Forall_insert_2.
Qed.
Lemma without_group_Forall (Q : SavedGroup -> Prop) id l : Forall Q l -> Forall Q (without_group id l).
Proof.
  unfold without_group. induction 1; cbn; [constructor|]. case_match; [by constructor|done].
Qed.
Lemma doc_save_group lower id p stored :
  Forall (fun m => volume_ok (sm_level m)) (grp_members stored) -> doc_ok p ->
  doc_ok (p <| p_saved_groups :=
    isort (group_before lower) (without_group id (p_saved_groups p) ++ [stored]) |>).
Proof.
  intros Hs (Hm & Hl & Hg). split; [done|]. split; [done|]. cbn. rewrite isort_perm.
  apply Forall_app. split; [by apply without_group_Forall|]. by repeat constructor.
Qed.
Lemma doc_delete_group id p : doc_ok p ->
  doc_ok (p <| p_saved_groups := without_group id (p_saved_groups p) |>).
Proof.
  intros (Hm & Hl & Hg). split; [done|]. split; [done|]. by apply without_group_Forall.
Qed.
Lemma find_group id l group : List.find (fun g => grp_id g =? id) l = Some group -> group ∈ l.
Proof. intros [Hin _]%find_some. by apply list_elem_of_In. Qed.
Lemma with_levels_ok members levels :
  Forall (fun m => volume_ok (sm_level m)) members -> map_Forall (fun _ => volume_ok) levels ->
  map_Forall (fun _ => volume_ok) (with_levels members levels).
Proof.
  intros Hm. revert levels. induction Hm as [|m members Hv _ IH]; intros levels Hl; cbn; [done|].
  apply IH. by apply map_Forall_insert_2.
Qed.
Lemma doc_activate (ids : gset ReceiverId) group p : group ∈ p_saved_groups p -> doc_ok p ->
  doc_ok (p <| p_last_desired_members := ids |>
            <| p_receiver_levels := with_levels (grp_members group) (p_receiver_levels p) |>).
Proof.
  intros Hin (Hm & Hl & Hg). split; [done|]. split; [|done]. apply with_levels_ok; [|done].
  by apply (proj1 (Forall_forall _ _) Hg).
Qed.

Section Batch.
Context {S : Type} `{StateStore S}.
Context (lower : text -> text) (tone : nat -> bool) (uuid : nat -> Z).
Local Notation Ctrl := (Controller (S := S)).
Local Notation steps := (steps (S := S) lower).
Context (P : Kind -> Prop) (HB : P Bookkeeping) (HT : P Report) (HP : P Publication) (HR : P Restart)
  (HS : P Save) (HF : P SaveRefused) (HK : P SaveCalibration) (HD : P Disarm) (HA : P Answer).
Implicit Types c : Ctrl.

Lemma steps_disarm c : steps P c (disarm c).
Proof. by apply (steps_one lower P Disarm). Qed.

Lemma steps_book c d : tame c d -> steps P c d.
Proof. by apply steps_tame. Qed.
Lemma steps_told c d : reports c d -> steps P c d.
Proof. by apply steps_report. Qed.
Lemma steps_confirm r e f c : steps P c (confirm r e f c).
Proof. apply (steps_one lower P Answer); [done|]. by eexists _, _, _. Qed.

Lemma steps_durable id same d c :
  commit_ok d -> (doc_ok (persisted c) -> doc_ok (dc_mutate d (persisted c))) ->
  steps P c (durable lower id same d c).1.
Proof.
  intros Hd Hdoc. unfold durable. destruct same; [apply steps_told, reports_complete|].
  pose proof (steps_commit lower P HT HS HF id d c Hd Hdoc) as Hs.
  by destruct (run_commit lower id d c).
Qed.

Lemma steps_apply_members id members co : steps P co.1 (apply_members lower id members co).1.
Proof.
  destruct co as [c o]. unfold apply_members. cbn [fst]. case_match; [apply steps_told, reports_complete|].
  pose proof (steps_commit lower P HT HS HF id _ c (commit_desired members true) (fun Hd => Hd)) as Hs.
  by destruct (run_commit lower id _ c).
Qed.

Lemma steps_run_intent id i co : P (Intent i) -> steps P co.1 (batch_run_intent lower id i co).1.
Proof.
  intros HI. destruct co as [c o]. unfold batch_run_intent. cbn [fst].
  etrans; [apply steps_disarm|]. case_match; [apply steps_told, reports_complete|]. cbn [fst].
  apply (steps_one lower P (Intent i)); [done|].
  destruct (reports_complete id (set_run_intent i (disarm c))) as [Hc _ Hg [s Hs] Ho].
  apply publish_shows; [exact Hc|exact Hg|by rewrite Hs|exact Ho|].
  intros s'. rewrite Hs. intros [[Hd Hgr Hpe] Hi]. split; [by split|exact Hi].
Qed.

Lemma steps_master_volume e v r co : volume_ok v ->
  steps P co.1 (batch_master_volume lower e v r co).1.
Proof.
  intros Hv.   destruct co as [c o]. unfold batch_master_volume. cbn [fst].
  pose proof (steps_durable (env_id e) (f32_eqb v (p_master_volume (persisted c))) _ c
                (commit_master v) (doc_master v _ Hv)) as Hs.
  destruct (durable lower _ _ _ c) as [c1 changed]. cbn [fst] in Hs |- *.
  destruct r as [r|]; [|exact Hs]. etrans; [exact Hs|].
  etrans; [|by apply steps_publish]. destruct (outcome_of c1 _); [apply steps_confirm|done].
Qed.

Lemma steps_muted id b co : steps P co.1 (batch_muted lower id b co).1.
Proof.
  destruct co as [c o]. unfold batch_muted. cbn [fst].
  pose proof (steps_durable id (eqb b (p_muted (persisted c))) _ c (commit_muted b) (fun Hd => Hd)) as Hs.
  by destruct (durable lower _ _ _ c).
Qed.

Lemma steps_endpoint id p co : steps P co.1 (batch_endpoint lower id p co).1.
Proof.
  destruct co as [c o]. unfold batch_endpoint. cbn [fst].
  pose proof (steps_durable id (p ==? p_audio_endpoint (persisted c)) _ c (commit_endpoint p)
                (fun Hd => Hd)) as Hs.
  destruct (durable lower _ _ _ c) as [c1 changed]. cbn [fst] in Hs |- *.
  destruct changed; [|exact Hs]. etrans; [exact Hs|]. apply steps_book.
  etrans; [|by apply tame_emit]. etrans; [|by apply tame_emit]. by apply tame_emit.
Qed.

Lemma steps_latency id l co : steps P co.1 (batch_latency lower id l co).1.
Proof.
  destruct co as [c o]. unfold batch_latency. cbn [fst].
  destruct (disabled_reason l); [apply steps_told, reports_fail|].
  pose proof (steps_durable id (l ==? p_latency_preset (persisted c)) _ c (commit_latency l)
                (fun Hd => Hd)) as Hs.
  by destruct (durable lower _ _ _ c).
Qed.

Lemma steps_auto id b co : steps P co.1 (batch_auto_connect lower id b co).1.
Proof.
  destruct co as [c o]. unfold batch_auto_connect. cbn [fst].
  etrans; [|by apply steps_durable; [apply commit_auto|]]. destruct b; [done|apply steps_disarm].
Qed.

Lemma steps_level id r l co : volume_ok l -> steps P co.1 (batch_level lower id r l co).1.
Proof.
  intros Hv.   destruct co as [c o]. unfold batch_level. cbn [fst].
  pose proof (steps_durable id (is_some_and (p_receiver_levels (persisted c) !! r)
    (fun held => f32_eqb held l)) _ c (commit_level r l)
    (doc_level r l _ Hv)) as Hs.
  by destruct (durable lower _ _ _ c).
Qed.

Lemma steps_profile id expected wanted clearing c :
  (clearing = true -> wanted = empty_profile) ->
  steps P c (apply_profile lower id expected wanted clearing c).1.
Proof.
  intros Hw. unfold apply_profile.
  assert (Hrefuse : forall m, steps P c (note_calibration_state DiagRing.CalibrationFailed (fail id m c))).
  { intros m. apply steps_told. etrans; [apply reports_fail|].
    apply tame_reports, tame_calibration_state. }
  repeat (case_match; [apply Hrefuse|]).
  set (section := if clearing then None else Some (state_of_profile wanted)).
  destruct (save_calibration (store c) section) as [st [[]|why]] eqn:Hs; cbn [fst].
  - apply (steps_one lower P SaveCalibration); [done|].
    set (e := (emit (OSaveCalibration section true) (c <| store := st |>)) <| profile := wanted |>).
    assert (Ht : reports e (note_calibration_state DiagRing.PendingRestart (complete id e)))
      by (etrans; [apply reports_complete|apply tame_reports, tame_calibration_state]).
    assert (Hg : session_generation (note_calibration_state DiagRing.PendingRestart (complete id e))
                 = session_generation c) by reflexivity.
    revert Ht Hg. generalize (note_calibration_state DiagRing.PendingRestart (complete id e)).
    intros g [Gc Gp _ Gs (new & Go & Gq)] Hg.
    apply core_fields in Gc as (E1 & E2 & E3 & E4 & E5 & E6).
    cbn in E1, E2, E3, E4, E5, E6, Gp, Go.
    split; [|congruence|exact Gp|exact Gs].
    exists section. rewrite E2. split; [exact Hs|]. rewrite E3. split; [|by exists new].
    unfold section. destruct clearing; [right|by left]. split; [done|by apply Hw].
  - apply (steps_one lower P SaveRefused); [done|].
    eapply (refuses_publish lower id c (emit (OSaveCalibration section false) (c <| store := st |>)));
      [done| |done|done|done|apply tame_calibration_state|done].
    exists default_v1, why. right. by exists section.
Qed.

Lemma steps_calibration id command c : steps P c (handle_calibration lower id command c).1.
Proof.
  destruct command; cbn [handle_calibration].
  - by apply steps_profile.
  - by apply steps_profile.
  - apply steps_told, reports_click_test.
Qed.

Lemma steps_save_group id g name members c :
  Forall (fun m => volume_ok (sm_level m)) members ->
  steps P c (handle_save_group lower uuid id g name members c).
Proof.
  intros Hv.   unfold handle_save_group. repeat (case_match; [apply steps_told, reports_fail|]).
  destruct g as [g|].
  - by apply steps_commit; [..|apply doc_save_group]; [..|apply commit_save_group|].
  - etrans; [|by apply steps_commit; [..|apply doc_save_group]; [..|apply commit_save_group|]].
    apply steps_book. internal.
Qed.

Lemma steps_delete_group id g c : steps P c (handle_delete_group lower id g c).
Proof.
  unfold handle_delete_group. case_match; [apply steps_told, reports_complete|].
  by apply steps_commit; [..|apply doc_delete_group]; [..|apply commit_delete_group].
Qed.

Lemma steps_activate_group id g start c : (start = true -> P (Intent Running)) ->
  steps P c (handle_activate_group lower id g start c).1.
Proof.
  intros HI. unfold handle_activate_group. destruct (List.find _ _) as [group|] eqn:Hfind;
    [|apply steps_told, reports_fail].
  set (ids := list_to_set _).
  pose proof (steps_commit lower P HT HS HF id _ c
    (commit_members ids (negb (ids ==? p_last_desired_members (persisted c))) false
       (with_levels (grp_members group)))
    (doc_activate ids group (persisted c) (find_group _ _ _ Hfind))) as Hs.
  destruct (run_commit lower id _ c) as [c1 outcome]. cbn [fst] in Hs.
  set (c2 := if negb start && _ then disarm c1 else c1).
  assert (Hd : steps P c1 c2) by (unfold c2; case_match; [apply steps_disarm|done]).
  etrans; [exact Hs|]. etrans; [exact Hd|]. case_match eqn:Hg; [|done]. cbn [fst].
  bool_simpl. by apply steps_intent; [apply HI|].
Qed.

(** The kinds of step a command needs besides the common ones; a [Volume] is
    checked when it is made. *)
Definition command_permits (Q : Kind -> Prop) (command : BackendCommand) : Prop :=
  match command with
  | SetMasterVolume v | SetReceiverLevel _ v => volume_ok v
  | SaveGroup _ _ members => Forall (fun m => volume_ok (sm_level m)) members
  | SetRunIntent i => Q (Intent i)
  | ActivateSavedGroup _ true => Q (Intent Running)
  | NotifySystem Suspending => Q SuspendEdge
  | NotifySystem Resumed => Q ResumeEdge
  | _ => True
  end.

Lemma steps_scalar r co e :
  command_permits P (env_command e) -> steps P co.1 (scalar lower r co e).1.
Proof.
  intros HI. unfold scalar.
  assert (Hun : steps P co.1 (unreachable co).1) by (apply steps_book; internal).
  destruct (env_command e); try exact Hun.
  - apply steps_apply_members.
  - by apply steps_run_intent.
  - by apply steps_master_volume.
  - apply steps_muted.
  - by apply steps_level.
  - apply steps_endpoint.
  - apply steps_latency.
  - apply steps_auto.
Qed.

Lemma steps_edge_command now id command co :
  command_permits P command -> steps P co.1 (edge_command lower tone uuid now id command co).1.
Proof.
  intros HI. destruct co as [c o].
  assert (Hun : steps P c (unreachable (c, o)).1) by (apply steps_book; internal).
  unfold edge_command. cbn [fst]. destruct command; try exact Hun.
  - apply steps_told, reports_listening_test.
  - apply (steps_apply_members id members (c, o)).
  - by apply steps_save_group.
  - apply steps_delete_group.
  - pose proof (steps_activate_group id id0 start c) as Hs.
    destruct (handle_activate_group lower id id0 start c). cbn [fst] in *. apply Hs.
    by intros ->.
  - cbn [fst]. etrans; [|apply steps_told, reports_complete].
    apply steps_republish_rows; [done|done|]. etrans; [|apply tame_drive]. internal.
  - cbn [fst]. etrans; [|apply steps_told, reports_complete]. apply steps_system; [done|done|done|].
    by destruct event.
  - pose proof (steps_calibration id command c) as Hs.
    destruct (handle_calibration lower id command c). exact Hs.
  - cbn [fst]. apply steps_told. etrans; [|apply reports_complete].
    apply tame_reports, tame_stop_listening_test.
Qed.

Lemma steps_confirm_edge e co : steps P co.1 (confirm_edge lower e co).1.
Proof.
  unfold confirm_edge. destruct (env_confirmation e) as [r|]; [|done]. destruct co as [c o].
  destruct (outcome_of c (env_id e)) as [error|]; cbn [fst].
  - destruct (starts_group _ && _); cbn [fst]; [by apply steps_publish|].
    etrans; [|by apply steps_publish]. apply steps_confirm.
  - by apply steps_publish.
Qed.

Lemma steps_edges now es co :
  Forall (fun e => command_permits P (env_command e)) es ->
  steps P co.1 (edges lower tone uuid now es co).1.
Proof.
  intros Hes. revert co. induction Hes as [|e es He _ IH]; intros co; cbn [edges]; [done|].
  set (co' := confirm_edge lower e _).
  assert (Hs : steps P co.1 co'.1).
  { etrans; [by apply (steps_edge_command now (env_id e) (env_command e) co)|].
    apply steps_confirm_edge. }
  destruct (shutdown_requested co'.2); [done|]. etrans; [exact Hs|apply IH].
Qed.

Lemma steps_settle co : steps P co.1 (settle_owed lower co).
Proof.
  destruct co as [c o]. unfold settle_owed. cbn [fst].
  set (c1 := if volumes_changed o then _ else c).
  assert (H1 : steps P c c1).
  { apply steps_book. unfold c1. destruct (volumes_changed o); [|done].
    etrans; [apply tame_remember|apply tame_forward]. }
  set (c2 := match reconcile o with Some _ => _ | None => _ end).
  assert (H2 : steps P c1 c2).
  { unfold c2. destruct (reconcile o); [by apply steps_request_reconcile|done]. }
  set (c3 := if bool_decide (group_starts o = []) then c2 else _).
  assert (H3 : steps P c2 c3).
  { unfold c3. case_match; [done|]. etrans; [|by apply steps_publish].
    apply steps_fold. intros. apply steps_confirm. }
  clearbody c1 c2 c3. etrans; [exact H1|]. etrans; [exact H2|]. etrans; [exact H3|].
  case_match; [done|by apply steps_publish].
Qed.

Lemma steps_batch now b c :
  Forall (fun e => command_permits P (env_command e)) (scalars b ++ b_edges b) ->
  steps P c (process_batch lower tone uuid now b c).1.
Proof.
  intros [Hs He]%Forall_app. unfold process_batch. cbn [fst].
  etrans; [|apply steps_settle]. etrans; [|by apply steps_edges].
  change c with (c, nothing_owed).1 at 1. generalize (c, nothing_owed) as co.
  induction Hs as [|e es Hc _ IH]; intros co; cbn [fold_left]; [done|].
  etrans; [by apply steps_scalar|apply IH].
Qed.

End Batch.

(** ** Drains *)

(** Every envelope a drain holds. *)
Record holds (Q : CommandEnvelope -> Prop) (b : PendingBatch) : Prop := {
  h_members : forall e, b_desired_members b = Some e -> Q e;
  h_intent : forall e, b_run_intent b = Some e -> Q e;
  h_master : forall e, b_master_volume b = Some e -> Q e;
  h_muted : forall e, b_muted b = Some e -> Q e;
  h_endpoint : forall e, b_endpoint b = Some e -> Q e;
  h_latency : forall e, b_latency_preset b = Some e -> Q e;
  h_auto : forall e, b_auto_connect b = Some e -> Q e;
  h_levels : map_Forall (fun _ e => Q e) (b_levels b);
  h_edges : Forall Q (b_edges b);
}.

Lemma holds_empty Q : holds Q empty_batch.
Proof. split; done || apply map_Forall_empty || constructor. Qed.

Lemma holds_scalars Q b : holds Q b -> Forall Q (scalars b ++ b_edges b).
Proof.
  intros [H1 H2 H3 H4 H5 H6 H7 Hl He].
  assert (Hopt : forall o, (forall e, o = Some e -> Q e) -> Forall Q (option_list o)).
  { intros [e|] Ho; cbn; [constructor; [by apply Ho|constructor]|constructor]. }
  unfold scalars. rewrite !Forall_app. split; [|done]. split_and!; try (by apply Hopt).
  apply Forall_forall. intros e (id & _ & Hid)%list_elem_of_omap. by apply (Hl id).
Qed.

(** What a drain keeps of an envelope: its command, perhaps without the start
    of a group, and perhaps without its receipt. *)
Lemma holds_insert (Q : CommandEnvelope -> Prop) b e :
  (forall x y, Q x -> env_id y = env_id x -> env_command y = env_command x -> Q y) ->
  (forall x, Q x -> Q (cancel_start x)) ->
  holds Q b -> Q e -> holds Q (insert_envelope b e).
Proof.
  intros Hext Hcancel [H1 H2 H3 H4 H5 H6 H7 Hl He] HQ.
  assert (Hcut : Forall Q (cancel_start <$> b_edges b)).
  { apply Forall_fmap. by eapply Forall_impl. }
  assert (Hsnoc : Forall Q (b_edges b ++ [e])) by (apply Forall_app; by repeat constructor).
  unfold insert_envelope. destruct (env_command e) as [ | | |i| | | | | | | | | | | | |] eqn:Ec; cbn;
    try (split; cbn; try done; try (intros x [= <-]; done); fail).
  - destruct (i ==? Stopped); split; cbn; try done; intros x [= <-]; done.
  - destruct (env_confirmation e); split; cbn; try done; intros x [= <-];
      by apply (Hext e); cbn; rewrite ?Ec.
  - split; cbn; try done. apply map_Forall_insert_2; done.
Qed.

Lemma holds_drain (Q : CommandEnvelope -> Prop) es b :
  (forall x y, Q x -> env_id y = env_id x -> env_command y = env_command x -> Q y) ->
  (forall x, Q x -> Q (cancel_start x)) ->
  holds Q b -> Forall Q es -> holds Q (fold_left insert_envelope es b).
Proof.
  intros Hext Hcancel Hb Hes. revert b Hb. induction Hes as [|e es He _ IH]; intros b Hb; cbn; [done|].
  apply IH. by apply holds_insert.
Qed.

(** ** Events *)

Definition event_permits (Q : Kind -> Prop) (e : Event) : Prop :=
  match e with
  | ECommand first queued =>
      Q Report /\ Q Save /\ Q SaveRefused /\ Q SaveCalibration /\ Q Disarm /\ Q Answer /\
      Forall (fun x => command_permits Q (env_command x)) (first :: queued)
  | ESystem Suspending => Q SuspendEdge
  | ESystem Resumed => Q ResumeEdge
  | EResumeSettled => Q Resume
  | EAutoConnectDue => Q Disarm /\ Q (Intent Running)
  | _ => True
  end.

Section Events.
Context {S : Type} `{StateStore S}.
Context (lower : text -> text) (tone : nat -> bool) (uuid : nat -> Z).
Local Notation Ctrl := (Controller (S := S)).
Local Notation steps := (steps (S := S) lower).

Lemma permits_cancel Q x :
  command_permits Q (env_command x) -> command_permits Q (env_command (cancel_start x)).
Proof. unfold cancel_start. destruct x as [i []]; done. Qed.

Lemma steps_command Q now first queued (c : Ctrl) :
  Q Bookkeeping -> Q Publication -> Q Restart -> event_permits Q (ECommand first queued) ->
  steps Q c (command_event lower tone uuid now first queued c).1.
Proof.
  intros HB HP HR (H0 & H1 & H2 & H3 & H4 & H5 & Hf). unfold command_event. cbv zeta.
  set (b := fold_left insert_envelope _ _).
  assert (Hb : Forall (fun x => command_permits Q (env_command x)) (scalars b ++ b_edges b)).
  { apply holds_scalars, holds_drain; [|apply permits_cancel|apply holds_empty|done].
    intros x y Hx _ ->. done. }
  clearbody b. etrans; [|by apply steps_batch]. apply steps_tame; [done|].
  case_match; [apply tame_diagnostic|done].
Qed.

(** Every event is a sequence of primitive steps of the kinds it permits. *)
Theorem event_steps Q now wall e (c : Ctrl) :
  Q Bookkeeping -> Q Publication -> Q Restart -> event_permits Q e ->
  steps Q c (iterate lower tone uuid now wall e c).1.
Proof.
  intros HB HP HR He. unfold iterate.
  assert (Hs : steps Q c (handle_event lower tone uuid now wall e c).1).
  { destruct e; cbn [handle_event fst].
    - by apply steps_command.
    - by apply steps_discovery.
    - by apply steps_capture.
    - by apply steps_telemetry.
    - by apply steps_endpoints.
    - by apply steps_session.
    - by apply steps_fire_due_retries.
    - apply steps_system; [done|done|done|]. by destruct event.
    - etrans; [|by apply steps_finish_resume]. apply steps_tame; [done|]. by apply tame_emit.
    - destruct He. by apply steps_auto_connect. }
  destruct (handle_event _ _ _ _ _ e c) as [d b]. cbn [fst] in *.
  etrans; [exact Hs|]. apply steps_tame; [done|apply tame_publish_generations].
Qed.

(** A run: events with the clocks they are handled at. *)
Definition run (es : list (Z * Z * Event)) (c : Ctrl) : Ctrl :=
  fold_left (fun c '(now, wall, e) => (iterate lower tone uuid now wall e c).1) es c.

Lemma run_steps Q es (c : Ctrl) :
  Q Bookkeeping -> Q Publication -> Q Restart ->
  Forall (fun '(_, _, e) => event_permits Q e) es -> steps Q c (run es c).
Proof.
  intros HB HP HR Hes. revert c. induction Hes as [|[[now wall] e] es He _ IH]; intros c; [done|].
  unfold run. cbn [fold_left]. etrans; [by apply event_steps|apply IH].
Qed.

End Events.

End ControllerSteps.
