(* ===== verification/ControllerProps.v ===== *)
(** * What the backend controller guarantees

    Invariants of [ControllerActor] over every run of its main loop, proved per
    kind of primitive step of [ControllerSteps], and their composition with the
    state file of [Persistence]. *)

From stdpp Require Import relations.
From S2P Require Import Prelude Float32 AppState Model Wire Text Features Device TxtParser Browser Recovery Discovery Inventory Calibration DiagRing Machine Supervisor Persistence Backend Controller ControllerSteps.
Import Model Calibration Persistence Backend Controller ControllerSteps.

Module ControllerProps.

Section Props.
Context {S : Type} `{StateStore S}.
Context (lower : text -> text) (tone : nat -> bool) (uuid : nat -> Z).
Local Notation Ctrl := (Controller (S := S)).
Local Notation iterate := (iterate lower tone uuid).
Local Notation run := (run lower tone uuid).
Implicit Types c : Ctrl.

Definition any (k : Kind) : Prop := True.

(** An event whose volumes passed the constructor of [Volume]. *)
Definition typed (e : Event) : Prop := event_permits any e.

(** ** Publications *)

Definition publications (l : list Output) : list DeviceSnapshot :=
  omap (fun o => match o with OPublish s => Some s | _ => None end) l.

Lemma publications_app l l' : publications (l ++ l') = publications l ++ publications l'.
Proof. apply omap_app. Qed.

Lemma publications_quiet l : Forall quiet l -> publications l = [].
Proof. induction 1 as [|o l Ho _ IH]; cbn; [done|]. by destruct o. Qed.

(** The newest publication is [published], and revisions went up by one. *)
Fixpoint numbered (l : list DeviceSnapshot) : Prop :=
  match l with
  | s :: (s' :: _) as rest => sn_revision s = sn_revision s' + 1 /\ numbered rest
  | _ => True
  end.

Definition shown c : Prop :=
  new_outcomes (published c) (snapshot c) /\
  exists older, publications (out c) = published c :: older /\ numbered (published c :: older).

Lemma numbered_cons s s' older :
  sn_revision s = sn_revision s' + 1 -> numbered (s' :: older) -> numbered (s :: s' :: older).
Proof. done. Qed.

Lemma new_outcomes_revision s s' : new_outcomes s s' -> sn_revision s' = sn_revision s.
Proof. by intros [o ->]. Qed.

(** A step that ends in a publication. *)
Lemma shown_publish c c' new o : shown c ->
  published c' = snapshot c' -> sn_revision (snapshot c') = sn_revision (snapshot c) + 1 ->
  out c' = OPublish (snapshot c') :: new ++ o ++ out c -> Forall quiet new ->
  publications o = [] -> shown c'.
Proof.
  intros [Hn (older & Hp & Hnum)] Heq Hr Ho Hq Hno. split; [by rewrite Heq|].
  exists (published c :: older).
  rewrite Ho, Heq. cbn. rewrite !publications_app, (publications_quiet new Hq), Hno, Hp.
  split; [done|]. apply numbered_cons; [|done]. rewrite Hr. f_equal. by apply new_outcomes_revision.
Qed.

(** A step that does not publish. *)
Lemma shown_silent c c' new : shown c ->
  published c' = published c -> new_outcomes (snapshot c) (snapshot c') ->
  out c' = new ++ out c -> publications new = [] -> shown c'.
Proof.
  intros [Hn (older & Hp & Hnum)] Heq Hs Ho Hq. split; [rewrite Heq; by etrans|].
  exists older. by rewrite Heq, Ho, publications_app, Hq.
Qed.

Lemma prim_shown k c c' : prim lower k c c' -> shown c -> shown c'.
Proof.
  destruct k; cbn; intros Hp Hc.
  - destruct Hp as [_ Hpub _ Hs (new & Ho & Hq)].
    apply (shown_silent c c' new); [done|done|by rewrite Hs|done|by apply publications_quiet].
  - destruct Hp as [_ Hpub _ Hs (new & Ho & Hq)].
    apply (shown_silent c c' new); [done|done|done|done|by apply publications_quiet].
  - destruct Hp as [_ Hpub _ Hr _ (new & Ho & Hq)]. by apply (shown_publish c c' new []).
  - destruct Hp as [_ Hpub _ Hr _ (new & Ho & Hq)]. by apply (shown_publish c c' new []).
  - subst c'. by apply (shown_silent c _ []).
  - destruct Hp as [at_ ->]. by apply (shown_silent c _ []).
  - destruct Hp as [at_ ->]. by apply (shown_silent c _ []).
  - subst c'. by apply (shown_silent c _ []).
  - destruct Hp as [_ [Hs Hpub] _ _ (p & new & Ho & Hq & _)].
    apply (shown_silent c c' (ORequest (Supervisor.Reconcile p) :: new));
      [done|done|by rewrite Hs|done|cbn; by apply publications_quiet].
  - destruct Hp as [_ _ _ _ Hpub Hr _ _ _ (new & Hq & Ho)].
    by apply (shown_publish c c' new [OSave (persisted c') true]).
  - destruct Hp as [_ _ Hpub Hr _ (new & o & Hq & Hf & Ho)].
    apply (shown_publish c c' new [o]); try done. by destruct o.
  - destruct Hp as [(sec & _ & _ & new & Hq & Ho) _ Hpub Hs].
    apply (shown_silent c c' (new ++ [OSaveCalibration sec true])); [done|done|done| |].
    + by rewrite Ho, <- app_assoc.
    + by rewrite publications_app, publications_quiet.
  - destruct Hp as (r & e & f & ->).
    apply (shown_silent c _ [OConfirm r {| cc_revision := sn_revision (snapshot c) + 1; cc_error := e;
      cc_session_generation_floor := f |}]); done.
Qed.

Lemma steps_shown Q c c' : steps lower Q c c' -> shown c -> shown c'.
Proof. apply steps_inv. intros k a b _. apply prim_shown. Qed.

(** Nothing is left unpublished when the outcomes agree. *)
Lemma outcomes_settle c : shown c ->
  sn_command_outcomes (published c) = sn_command_outcomes (snapshot c) -> published c = snapshot c.
Proof. intros [[o ->] _] Ho. cbn in Ho. subst o. by destruct (published c). Qed.

Lemma settle_published co : shown (settle_owed lower co) ->
  published (settle_owed lower co) = snapshot (settle_owed lower co).
Proof.
  destruct co as [c o]. unfold settle_owed. cbv zeta.
  set (c3 := if bool_decide (group_starts o = []) then _ else _). clearbody c3.
  case_bool_decide as Ho; intros Hs; [by apply outcomes_settle|].
  destruct (publish_fields lower c3) as [Heq _]. done.
Qed.

(** Every kind of step an event without commands can make. *)
Definition unreported (k : Kind) : Prop :=
  match k with Report | SaveCalibration => False | _ => True end.

Lemma unreported_published c c' :
  steps lower unreported c c' -> published c = snapshot c -> published c' = snapshot c'.
Proof.
  apply (steps_inv lower unreported (fun c => published c = snapshot c)).
  intros k a b Hk Hp Heq. destruct k; cbn in *; try done; try by destruct Hp.
  - destruct Hp as [_ -> _ <- _]. done.
  - by subst b.
  - by destruct Hp as [at_ ->].
  - by destruct Hp as [at_ ->].
  - by subst b.
  - destruct Hp as [_ [-> ->] _ _ _]. done.
  - by destruct Hp as (r & e & f & ->).
Qed.

Lemma event_published now wall e c :
  typed e -> shown c -> published c = snapshot c ->
  shown (iterate now wall e c).1 /\
  published (iterate now wall e c).1 = snapshot (iterate now wall e c).1.
Proof.
  intros He Hs Heq.
  assert (Hsh : shown (iterate now wall e c).1).
  { apply (steps_shown any c); [|done]. by apply event_steps. }
  split; [done|]. destruct e as [first queued| | | | | | |ev| |];
    try (apply (unreported_published c); [apply event_steps|]; done).
  revert Hsh. unfold Controller.iterate. cbn [handle_event].
  unfold command_event, process_batch. cbn [fst]. intros Hsh.
  apply (settle_published _). exact Hsh.
Qed.

(** ** Persist before publish *)

(** The document last written, in a log that is newest first. *)
Fixpoint saved_in (loaded : PersistedStateV1) (l : list Output) : PersistedStateV1 :=
  match l with
  | OSave d true :: _ => d
  | _ :: rest => saved_in loaded rest
  | [] => loaded
  end.

(** Each publication mirrors the document last written before it. *)
Fixpoint truthful (loaded : PersistedStateV1) (l : list Output) : Prop :=
  match l with
  | OPublish s :: rest => mirrors (saved_in loaded rest) s /\ truthful loaded rest
  | _ :: rest => truthful loaded rest
  | [] => True
  end.

(** Outputs that neither publish nor write a document. *)
Definition aside (o : Output) : Prop :=
  match o with OPublish _ | OSave _ true => False | _ => True end.

Lemma quiet_aside o : quiet o -> aside o.
Proof. by destruct o. Qed.

Lemma saved_aside loaded new l : Forall aside new -> saved_in loaded (new ++ l) = saved_in loaded l.
Proof. induction 1 as [|o new Ho _ IH]; [done|]. cbn. by destruct o as [| | |? []| | | | | | | | | | | |]. Qed.
Lemma truthful_aside loaded new l :
  Forall aside new -> truthful loaded l -> truthful loaded (new ++ l).
Proof. induction 1 as [|o new Ho _ IH]; [done|]. intros Hl. cbn. destruct o; try done; by apply IH. Qed.

Definition ledger loaded c : Prop :=
  persisted c = saved_in loaded (out c) /\ mirrors (persisted c) (snapshot c) /\
  truthful loaded (out c).

Lemma mirrors_outcomes p s s' : new_outcomes s s' -> mirrors p s -> mirrors p s'.
Proof. by intros [o ->]. Qed.

Lemma ledger_silent loaded c c' new : ledger loaded c ->
  persisted c' = persisted c -> new_outcomes (snapshot c) (snapshot c') ->
  out c' = new ++ out c -> Forall aside new -> ledger loaded c'.
Proof.
  intros (Hp & Hm & Ht) Hpe Hs Ho Hq. unfold ledger. rewrite Ho, Hpe, saved_aside by done.
  split; [done|]. split; [by eapply mirrors_outcomes|by apply truthful_aside].
Qed.

Lemma ledger_publish loaded c c' new : ledger loaded c ->
  persisted c' = persisted c -> mirrors (persisted c) (snapshot c') ->
  out c' = OPublish (snapshot c') :: new ++ out c -> Forall aside new -> ledger loaded c'.
Proof.
  intros (Hp & Hm & Ht) Hpe Hm' Ho Hq. unfold ledger. rewrite Ho, Hpe. cbn.
  rewrite saved_aside by done. split_and!; [done|done|by rewrite <- Hp|by apply truthful_aside].
Qed.

Lemma aside_quiet new : Forall quiet new -> Forall aside new.
Proof. intros Hq. eapply Forall_impl; [exact Hq|]. apply quiet_aside. Qed.

Lemma prim_ledger loaded k c c' : prim lower k c c' -> ledger loaded c -> ledger loaded c'.
Proof.
  destruct k; cbn; intros Hp Hc.
  - destruct Hp as [[E1 _]%core_fields _ _ Hs (new & Ho & Hq%aside_quiet)].
    apply (ledger_silent loaded c c' new); try done. by rewrite Hs.
  - destruct Hp as [[E1 _]%core_fields _ _ Hs (new & Ho & Hq%aside_quiet)].
    by apply (ledger_silent loaded c c' new).
  - destruct Hp as [[E1 _]%core_fields _ _ _ [Hs _] (new & Ho & Hq%aside_quiet)].
    apply (ledger_publish loaded c c' new); try done. by eapply mirrors_same; [|apply Hc].
  - destruct Hp as [[E1 _]%core_fields _ _ _ [Hs _] (new & Ho & Hq%aside_quiet)].
    apply (ledger_publish loaded c c' new); try done. by eapply mirrors_same; [|apply Hc].
  - subst c'. by apply (ledger_silent loaded c _ []).
  - destruct Hp as [at_ ->]. by apply (ledger_silent loaded c _ []).
  - destruct Hp as [at_ ->]. by apply (ledger_silent loaded c _ []).
  - subst c'. by apply (ledger_silent loaded c _ []).
  - destruct Hp as [[E1 _]%core_fields [Hs _] _ _ (p & new & Ho & Hq%aside_quiet & _)].
    apply (ledger_silent loaded c c' (ORequest (Supervisor.Reconcile p) :: new)); try done;
      [by rewrite Hs|by constructor].
  - destruct Hp as [_ _ _ _ _ _ _ _ Hm (new & Hq%aside_quiet & Ho)].
    destruct Hc as (Hl & Hmi & Ht). specialize (Hm Hmi). unfold ledger. rewrite Ho. cbn.
    rewrite saved_aside by done. cbn.
    split_and!; [done|done|done|]. by apply truthful_aside.
  - destruct Hp as [_ Hrest _ _ (Hd & Hg & _) (new & o & Hq%aside_quiet & Hf & Ho)].
    injection Hrest as E1 _.
    apply (ledger_publish loaded c c' (new ++ [o])); try done.
    + destruct Hc as (_ & [Hm1 Hm2] & _). split; [congruence|by etrans].
    + by rewrite <- app_assoc.
    + apply Forall_app. split; [done|]. constructor; [|done]. by destruct o as [| | |? []| | | | | | | | | | | |].
  - destruct Hp as [(sec & _ & _ & new & Hq%aside_quiet & Ho) Hrest _ Hs]. injection Hrest as E1 _.
    apply (ledger_silent loaded c c' (new ++ [OSaveCalibration sec true])); try done.
    + by rewrite <- app_assoc.
    + apply Forall_app. by repeat constructor.
  - destruct Hp as (r & e & f & ->).
    apply (ledger_silent loaded c _ [OConfirm r {| cc_revision := sn_revision (snapshot c) + 1; cc_error := e;
      cc_session_generation_floor := f |}]); done || by repeat constructor.
Qed.

Lemma steps_ledger loaded Q c c' : steps lower Q c c' -> ledger loaded c -> ledger loaded c'.
Proof. apply steps_inv. intros k a b _. apply prim_ledger. Qed.

(** ** Start *)

Lemma tame_emit_if (b : bool) o c : quiet o -> tame c (if b then emit o c else c).
Proof. intros Ho. destruct b; [by apply tame_emit|done]. Qed.

Lemma tame_announce_start o b c : tame c (announce_start o b c).
Proof.
  unfold announce_start. cbv zeta. etrans; [|by apply tame_emit].
  repeat (etrans; [|by apply tame_emit_if]). apply tame_diagnostic.
Qed.

Lemma from_persisted_mirrors now loaded (st : S) :
  let c := from_persisted lower now loaded st in
  mirrors loaded (snapshot c) /\ persisted c = loaded /\ store c = st /\ out c = [] /\
  sn_run_intent (snapshot c) = Stopped /\ suspended c = false /\ session_generation c = 0.
Proof.
  unfold from_persisted, rebuild_receiver_rows. cbn. split_and!; try done.
  split; [done|]. cbn. apply isort_perm.
Qed.

Lemma restore_mirrors now loaded section (st : S) :
  let c := restore lower now loaded section st in
  mirrors loaded (snapshot c) /\ persisted c = loaded /\ store c = st /\
  published c = snapshot c /\ out c = [OPublish (snapshot c)] /\
  sn_run_intent (snapshot c) = Stopped /\ suspended c = false /\ session_generation c = 0.
Proof.
  unfold restore. pose proof (from_persisted_mirrors now loaded st) as Hf. cbv zeta in Hf |- *.
  revert Hf. generalize (from_persisted lower now loaded st) as c.
  intros c (Hm & Hp & Hst & Ho & Hi & Hsu & Hg). cbn. rewrite Ho. by split_and!.
Qed.

Lemma start_fields now st c : start_controller lower now st = Ok c ->
  exists st1 o, load st = (st1, Ok o) /\ store c = (load_calibration st1).1 /\
  persisted c = into_state o /\ published c = snapshot c /\
  mirrors (persisted c) (snapshot c) /\ sn_run_intent (snapshot c) = Stopped /\
  suspended c = false /\ 0 <= session_generation c /\
  exists new, out c = new ++ [OPublish (snapshot c)] /\ Forall quiet new.
Proof.
  unfold start_controller. destruct (load st) as [st1 [o|e]]; [|done].
  destruct (load_calibration st1) as [st2 section] eqn:Hk. intros [= <-].
  pose proof (restore_mirrors now (into_state o) section st2) as Hr. cbv zeta in Hr.
  generalize dependent (restore lower now (into_state o) section st2).
  intros r (Hm & Hp & Hst & He & Ho & Hi & Hsu & Hg).
  pose proof (tame_announce_start o (is_unreadable section) r) as Ht.
  generalize dependent (announce_start o (is_unreadable section) r).
  intros c [Hc Hpub Hg' Hs (new & Hout & Hq)].
  apply core_fields in Hc as (E1 & E2 & _ & E4 & _).
  exists st1, o. rewrite E1, E2, E4, Hpub, <- Hs, Hout, Hp, Hst, Ho, Hk.
  split_and!; try done; [lia|by exists new].
Qed.

Lemma start_invariants now st c : start_controller lower now st = Ok c ->
  shown c /\ published c = snapshot c /\ ledger (persisted c) c.
Proof.
  intros (st1 & o & _ & _ & _ & Heq & Hm & _ & _ & _ & new & Ho & Hq)%start_fields.
  split_and!.
  - split; [by rewrite Heq|]. exists []. rewrite Ho, publications_app, publications_quiet, Heq; done.
  - done.
  - pose proof (aside_quiet _ Hq). unfold ledger. rewrite Ho, saved_aside by done.
    split_and!; [done|done|]. apply truthful_aside; [done|]. done.
Qed.

Lemma run_shown es c :
  Forall (fun '(_, _, e) => typed e) es -> shown c -> published c = snapshot c ->
  shown (run es c) /\ published (run es c) = snapshot (run es c).
Proof.
  intros Hes. revert c. induction Hes as [|[[n w] e] es He _ IH]; intros c Hs Heq; [done|].
  destruct (event_published n w e c He Hs Heq) as [Hs' Heq']. by apply IH.
Qed.

Lemma run_ledger loaded es c :
  Forall (fun '(_, _, e) => typed e) es -> ledger loaded c -> ledger loaded (run es c).
Proof. intros Hes. apply (steps_ledger loaded any). by apply run_steps. Qed.

(** C4: persist before publish.  From start and through any run of the main
    loop, whatever the store, the supervisors and the clocks do: every snapshot
    ever published shows exactly the durable document written last before it
    (saved groups up to their order), publications carry consecutive revisions,
    and after every event the snapshot on display is the actor's own: nothing
    durable is shown before it is saved and nothing is left unpublished. *)
Theorem persist_before_publish now st c0 es :
  start_controller lower now st = Ok c0 -> Forall (fun '(_, _, e) => typed e) es ->
  let c := run es c0 in
  truthful (persisted c0) (out c) /\ persisted c = saved_in (persisted c0) (out c) /\
  mirrors (persisted c) (published c) /\ published c = snapshot c /\
  head (publications (out c)) = Some (published c) /\ numbered (publications (out c)).
Proof.
  intros (Hs & Heq & Hl)%start_invariants Hes c.
  destruct (run_shown es c0 Hes Hs Heq) as [[_ (older & Hpub & Hnum)] Hp].
  destruct (run_ledger _ es c0 Hes Hl) as (Hpe & Hm & Ht).
  fold c in Hpub, Hnum, Hp, Hpe, Hm, Ht. rewrite Hpub, <- Hp in *. done.
Qed.

(** ** A Stop stays stopped, a sleeping machine builds nothing *)

Definition requests (l : list Output) :=
  omap (fun o => match o with ORequest (Supervisor.Reconcile p) => Some p | _ => None end) l.

Lemma requests_app l l' : requests (l ++ l') = requests l ++ requests l'.
Proof. apply omap_app. Qed.
Lemma requests_quiet l : Forall quiet l -> requests l = [].
Proof.
  induction 1 as [|o l Ho _ IH]; cbn; [done|]. destruct o as [| | | | |[]| | | | | | | | | |]; done.
Qed.

(** What a step asks of the session supervisor: at most one generation. *)
Lemma prim_requests k c c' : prim lower k c c' ->
  requests (out c') = requests (out c) \/
  k = Restart /\ restarts c c' /\ exists p, requests (out c') = p :: requests (out c) /\
    Supervisor.generation p = session_generation c' /\
    Supervisor.teardown_only p = (sn_run_intent (snapshot c) ==? Stopped) /\
    (sn_run_intent (snapshot c) = Stopped -> Supervisor.desired p = []).
Proof.
  assert (Hnone : forall new o, Forall quiet new -> requests o = [] -> requests (new ++ o ++ out c) = requests (out c)).
  { intros new o Hq Ho. by rewrite !requests_app, requests_quiet, Ho. }
  destruct k; cbn; intros Hp.
  - left. destruct Hp as [_ _ _ _ (new & -> & Hq)]. by apply (Hnone new []).
  - left. destruct Hp as [_ _ _ _ (new & -> & Hq)]. by apply (Hnone new []).
  - left. destruct Hp as [_ _ _ _ _ (new & -> & Hq)]. cbn. by apply (Hnone new []).
  - left. destruct Hp as [_ _ _ _ _ (new & -> & Hq)]. cbn. by apply (Hnone new []).
  - left. by subst c'.
  - left. by destruct Hp as [at_ ->].
  - left. by destruct Hp as [at_ ->].
  - left. by subst c'.
  - right. split; [done|]. split; [done|].
    destruct Hp as [_ _ _ _ (p & new & Ho & Hq & Hg & _ & Ht & Hd)]. exists p. rewrite Ho. cbn.
    rewrite requests_app, requests_quiet by done. split_and!; try done.
    intros Hi. destruct (Supervisor.desired p) as [|d l]; [done|].
    destruct (Hd d (list_elem_of_here _ _)). congruence.
  - left. destruct Hp as [_ _ _ _ _ _ _ _ _ (new & Hq & ->)]. cbn. by apply (Hnone new [OSave _ true]).
  - left. destruct Hp as [_ _ _ _ _ (new & o & Hq & Hf & ->)]. cbn. apply (Hnone new [o]); [done|].
    by destruct o.
  - left. destruct Hp as [(sec & _ & _ & new & Hq & ->) _ _ _].
    by apply (Hnone new [OSaveCalibration sec true]).
  - left. by destruct Hp as (r & e & f & ->).
Qed.

(** Every request made since the log was [base] satisfies [Q]. *)
Definition since (base : list Output) (Q : Supervisor.ReconcileParams -> Prop) c : Prop :=
  exists new, requests (out c) = new ++ requests base /\ Forall Q new.

Definition teardown (p : Supervisor.ReconcileParams (Device := Device.Device)
    (CalibrationProfile := CalibrationProfile)) : Prop :=
  Supervisor.desired p = [] /\ Supervisor.teardown_only p = true.

Definition halted base c : Prop :=
  sn_run_intent (snapshot c) = Stopped /\ startup_auto_connect_until c = None /\
  since base teardown c.

Lemma prim_run k c c' : prim lower k c c' -> (forall i, k <> Intent i) ->
  sn_run_intent (snapshot c') = sn_run_intent (snapshot c).
Proof.
  destruct k; cbn; intros Hp Hk.
  - by destruct Hp as [_ _ _ <- _].
  - by destruct Hp as [_ _ _ [o ->] _].
  - by destruct Hp as [_ _ _ _ [_ ->] _].
  - by destruct (Hk i).
  - by subst c'.
  - by destruct Hp as [at_ ->].
  - by destruct Hp as [at_ ->].
  - by subst c'.
  - by destruct Hp as [_ [-> _] _ _ _].
  - by destruct Hp.
  - by destruct Hp as [_ _ _ _ (_ & _ & -> & _) _].
  - by destruct Hp as [_ _ _ [o ->]].
  - by destruct Hp as (r & e & f & ->).
Qed.

Lemma prim_armed k c c' : prim lower k c c' ->
  startup_auto_connect_until c' = startup_auto_connect_until c \/
  startup_auto_connect_until c' = None.
Proof.
  destruct k; cbn; intros Hp.
  - left. by destruct Hp as [(_ & _ & _ & _ & _ & ->)%core_fields _ _ _ _].
  - left. by destruct Hp as [(_ & _ & _ & _ & _ & ->)%core_fields _ _ _ _].
  - left. by destruct Hp as [(_ & _ & _ & _ & _ & ->)%core_fields _ _ _ _ _].
  - left. by destruct Hp as [(_ & _ & _ & _ & _ & ->)%core_fields _ _ _ _ _].
  - right. by subst c'.
  - left. by destruct Hp as [at_ ->].
  - left. by destruct Hp as [at_ ->].
  - left. by subst c'.
  - left. by destruct Hp as [(_ & _ & _ & _ & _ & ->)%core_fields _ _ _ _].
  - left. destruct Hp as [_ _ _ Hr _ _ _ _ _ _]. by injection Hr.
  - left. destruct Hp as [_ Hr _ _ _ _]. by injection Hr.
  - left. destruct Hp as [_ Hr _ _]. by injection Hr.
  - left. by destruct Hp as (r & e & f & ->).
Qed.

Definition no_start (k : Kind) : Prop := k <> Intent Running.

Lemma steps_halted base c c' : steps lower no_start c c' -> halted base c -> halted base c'.
Proof.
  apply steps_inv. intros k a b Hk Hp (Hi & Ha & new & Hr & Hq). split_and!.
  - destruct (decide (k = Intent Stopped)) as [->|Hn]; [by destruct Hp as [_ _ _ _ [_ ?] _]|].
    rewrite (prim_run k a b Hp); [done|]. intros [] ->; [by apply Hn|by apply Hk].
  - destruct (prim_armed k a b Hp); congruence.
  - unfold since. destruct (prim_requests k a b Hp) as [->|(-> & _ & p & -> & _ & Ht & Hd)]; [by exists new|].
    exists (p :: new). rewrite Hr. split; [done|]. constructor; [|done].
    split; [by apply Hd|]. by rewrite Ht, Hi.
Qed.

(** Whether an event carries a command that starts playback. *)
Definition starts_playback (command : BackendCommand) : bool :=
  match command with SetRunIntent Running | ActivateSavedGroup _ true => true | _ => false end.
Definition asks_start (e : Event) : bool :=
  match e with
  | ECommand first queued => existsb (fun x => starts_playback (env_command x)) (first :: queued)
  | _ => false
  end.

Lemma no_start_permits e :
  typed e -> asks_start e = false -> e <> EAutoConnectDue -> event_permits no_start e.
Proof.
  destruct e as [f q| | | | | | |ev| |]; try done.
  - intros (_ & _ & _ & _ & _ & _ & Ht) Hs _. split_and!; try done.
    rewrite Forall_forall in Ht |- *. intros x Hx. specialize (Ht x Hx).
    assert (starts_playback (env_command x) = false) as Hx'.
    { destruct (starts_playback (env_command x)) eqn:E; [|done]. unfold asks_start in Hs.
      assert (existsb (fun x => starts_playback (env_command x)) (f :: q) = true) as Hex
        by (apply existsb_elem; eauto). congruence. }
    by destruct (env_command x) as [ | | |[]| | | | | | | | |? []| |[]| |].
  - intros. by destruct ev.
Qed.

(** The timer arm of the launch policy does nothing once it is disarmed. *)
Lemma auto_connect_spent now c :
  startup_auto_connect_until c = None -> apply_startup_auto_connect lower now c = c.
Proof. intros Ha. unfold apply_startup_auto_connect. by rewrite Ha. Qed.

Lemma event_halted base now wall e c :
  typed e -> asks_start e = false -> halted base c -> halted base (iterate now wall e c).1.
Proof.
  intros Ht Hs Hh. assert (e = EAutoConnectDue \/ e <> EAutoConnectDue) as [->|Hn] by (destruct e; auto).
  - unfold Controller.iterate. cbn [handle_event fst].
    rewrite auto_connect_spent by apply Hh. exact Hh.
  - apply (steps_halted base c); [|done]. apply event_steps; try done. by apply no_start_permits.
Qed.

(** *** A drain with a Stop *)

Definition stopping (b : PendingBatch) : Prop :=
  (exists e, b_run_intent b = Some e /\ env_command e = SetRunIntent Stopped) /\
  Forall (fun e => starts_playback (env_command e) = false) (b_edges b).

(** Only edges queue up as edges. *)
Definition only_edges (b : PendingBatch) : Prop :=
  Forall (fun e => is_edge (env_command e) = true) (b_edges b).

Lemma insert_only_edges b e : only_edges b -> only_edges (insert_envelope b e).
Proof.
  unfold only_edges. intros Hb. unfold insert_envelope.
  assert (Hsnoc : is_edge (env_command e) = true ->
    Forall (fun e => is_edge (env_command e) = true) (b_edges b ++ [e]))
    by (intros; apply Forall_app; by repeat constructor).
  destruct (env_command e) as [ | | |[]| | | | | | | | | | | | |] eqn:Ec; cbn; try done; try (by apply Hsnoc).
  - apply Forall_fmap. eapply Forall_impl; [exact Hb|]. intros [i [] r]; done.
  - by destruct (env_confirmation e).
Qed.

Lemma drain_only_edges es b : only_edges b -> only_edges (fold_left insert_envelope es b).
Proof.
  revert b. induction es as [|e es IH]; intros b Hb; cbn; [done|]. by apply IH, insert_only_edges.
Qed.

Lemma insert_stop b e :
  only_edges b -> env_command e = SetRunIntent Stopped -> stopping (insert_envelope b e).
Proof.
  intros Hb He. unfold insert_envelope. rewrite He. split; [by eexists|]. cbn.
  apply Forall_fmap. eapply Forall_impl; [exact Hb|]. intros [i [] r]; done.
Qed.

Lemma insert_stopping b e :
  stopping b -> starts_playback (env_command e) = false -> stopping (insert_envelope b e).
Proof.
  intros [(x & Hx & Hc) He] Hs. unfold insert_envelope.
  assert (Hsnoc : Forall (fun e => starts_playback (env_command e) = false) (b_edges b ++ [e]))
    by (apply Forall_app; by repeat constructor).
  destruct (env_command e) as [ | | |[]| | | | | | | | | | | | |] eqn:Ec; try done;
    try (by split; [exists x|]).
  - split; [by exists e|]. cbn. apply Forall_fmap. eapply Forall_impl; [exact He|].
    intros [i [] r]; done.
  - destruct (env_confirmation e); by split; [exists x|].
Qed.

Lemma drain_stopping pre stop post :
  env_command stop = SetRunIntent Stopped ->
  Forall (fun e => starts_playback (env_command e) = false) post ->
  stopping (fold_left insert_envelope (pre ++ stop :: post) empty_batch).
Proof.
  intros Hstop Hpost. rewrite fold_left_app. cbn.
  assert (stopping (insert_envelope (fold_left insert_envelope pre empty_batch) stop)) as Hb.
  { apply insert_stop; [|done]. apply drain_only_edges. constructor. }
  revert Hb. generalize (insert_envelope (fold_left insert_envelope pre empty_batch) stop).
  clear Hstop. induction Hpost as [|e post He _ IH]; intros b' Hb; cbn; [done|].
  apply IH. by apply insert_stopping.
Qed.

(** Kinds of step that ask for no session. *)
Definition no_restart (k : Kind) : Prop := k <> Restart.

Lemma steps_no_requests c c' : steps lower no_restart c c' -> requests (out c') = requests (out c).
Proof.
  intros Hs. apply (steps_inv lower no_restart (fun x => requests (out x) = requests (out c)) c c');
    [|done|done].
  intros k a b Hk Hp <-. by destruct (prim_requests k a b Hp) as [|(-> & _)].
Qed.

Lemma stop_halts id co base : since base teardown co.1 ->
  halted base (batch_run_intent lower id Stopped co).1.
Proof.
  destruct co as [c o]. cbn [fst]. intros Hs.
  assert (Hst : steps lower no_restart c (batch_run_intent lower id Stopped (c, o)).1)
    by (apply (steps_run_intent lower no_restart) with (co := (c, o)); done).
  assert (Hr : since base teardown (batch_run_intent lower id Stopped (c, o)).1).
  { unfold since in *. by rewrite (steps_no_requests _ _ Hst). }
  split; [|split; [|exact Hr]]; clear Hst Hr Hs.
  - unfold batch_run_intent. case_bool_decide as Hi; cbn [fst].
    + destruct (reports_complete id (disarm c)) as [_ _ _ [s ->] _]. by symmetry.
    + destruct (publish_fields lower (complete id (set_run_intent Stopped (disarm c))))
        as (_ & -> & _). destruct (reports_complete id (set_run_intent Stopped (disarm c))) as [_ _ _ [s ->] _].
      done.
  - unfold batch_run_intent. case_bool_decide as Hi; cbn [fst].
    + by destruct (reports_complete id (disarm c)) as [(_ & _ & _ & _ & _ & ->)%core_fields _ _ _ _].
    + destruct (publish_fields lower (complete id (set_run_intent Stopped (disarm c))))
        as (_ & _ & (_ & _ & _ & _ & _ & ->)%core_fields & _).
      by destruct (reports_complete id (set_run_intent Stopped (disarm c)))
        as [(_ & _ & _ & _ & _ & ->)%core_fields _ _ _ _].
Qed.

(** Scalars other than the run intent start nothing. *)
Record slotted (b : PendingBatch) : Prop := {
  sl_members : forall e, b_desired_members b = Some e -> exists m, env_command e = SetDesiredMembers m;
  sl_master : forall e, b_master_volume b = Some e -> exists v, env_command e = SetMasterVolume v;
  sl_muted : forall e, b_muted b = Some e -> exists v, env_command e = SetMuted v;
  sl_endpoint : forall e, b_endpoint b = Some e -> exists v, env_command e = SetAudioEndpoint v;
  sl_latency : forall e, b_latency_preset b = Some e -> exists v, env_command e = SetLatencyPreset v;
  sl_auto : forall e, b_auto_connect b = Some e -> exists v, env_command e = SetAutoConnect v;
  sl_intent : forall e, b_run_intent b = Some e -> exists i, env_command e = SetRunIntent i;
  sl_levels : map_Forall (fun r e => exists v, env_command e = SetReceiverLevel r v) (b_levels b);
  sl_edges : only_edges b;
}.

Lemma slotted_empty : slotted empty_batch.
Proof. split; done || apply map_Forall_empty || constructor. Qed.

Lemma slotted_insert b e : slotted b -> slotted (insert_envelope b e).
Proof.
  intros Hb. pose proof (insert_only_edges b e (sl_edges b Hb)) as Hedges.
  destruct Hb as [H1 H2 H3 H4 H5 H6 H7 Hl _]. revert Hedges. unfold insert_envelope.
  destruct (env_command e) as [ | | |[]| | | | | | | | | | | | |] eqn:Ec; intros Hedges;
    try (split; cbn; try done; intros x [= <-]; rewrite Ec; by eexists).
  - destruct (env_confirmation e); split; cbn; try done; intros x [= <-]; by eexists.
  - split; cbn; try done. apply map_Forall_insert_2; [|done]. rewrite Ec. by eexists.
Qed.

Lemma slotted_drain es b : slotted b -> slotted (fold_left insert_envelope es b).
Proof. revert b. induction es as [|e es IH]; intros b Hb; cbn; [done|]. by apply IH, slotted_insert. Qed.

Lemma fold_scalars (Q : Kind -> Prop) r es co :
  Q Bookkeeping -> Q Report -> Q Publication -> Q Save -> Q SaveRefused -> Q Disarm -> Q Answer ->
  Forall (fun e => command_permits Q (env_command e)) es ->
  steps lower Q co.1 (fold_left (scalar lower r) es co).1.
Proof.
  intros HB HT HP HS HF HD HA Hes. revert co. induction Hes as [|e es He _ IH]; intros co; cbn; [done|].
  etrans; [by apply steps_scalar|apply IH].
Qed.

Lemma permits_no_start command :
  command_permits any command -> starts_playback command = false ->
  command_permits no_start command.
Proof. by destruct command as [ | | |[]| | | | | | | | |? []| |[]| |]. Qed.

Definition later_scalars (b : PendingBatch) : list CommandEnvelope :=
  option_list (b_master_volume b) ++ option_list (b_muted b) ++ option_list (b_endpoint b)
  ++ option_list (b_latency_preset b) ++ option_list (b_auto_connect b)
  ++ omap (fun id => b_levels b !! id) (in_order (dom (b_levels b))).

Lemma later_scalars_inert b : slotted b ->
  Forall (fun e => starts_playback (env_command e) = false) (later_scalars b).
Proof.
  intros [_ H2 H3 H4 H5 H6 _ Hl _].
  assert (Hopt : forall o, (forall e, o = Some e -> starts_playback (env_command e) = false) ->
    Forall (fun e => starts_playback (env_command e) = false) (option_list o)).
  { intros [e|] Ho; cbn; [constructor; [by apply Ho|constructor]|constructor]. }
  unfold later_scalars. rewrite !Forall_app. split_and!.
  - apply Hopt. intros e He. by destruct (H2 e He) as [v ->].
  - apply Hopt. intros e He. by destruct (H3 e He) as [v ->].
  - apply Hopt. intros e He. by destruct (H4 e He) as [v ->].
  - apply Hopt. intros e He. by destruct (H5 e He) as [v ->].
  - apply Hopt. intros e He. by destruct (H6 e He) as [v ->].
  - apply Forall_forall. intros e (id & _ & Hid)%list_elem_of_omap. by destruct (Hl id e Hid) as [v ->].
Qed.

Lemma permits_inert es :
  Forall (fun e => command_permits any (env_command e)) es ->
  Forall (fun e => starts_playback (env_command e) = false) es ->
  Forall (fun e => command_permits no_start (env_command e)) es.
Proof. rewrite !Forall_forall. intros H1 H2 e He. apply permits_no_start; eauto. Qed.

Lemma batch_halts now b c :
  stopping b -> slotted b -> holds (fun e => command_permits any (env_command e)) b ->
  halted (out c) (process_batch lower tone uuid now b c).1.
Proof.
  intros [(stop & Hstop & Hc) Hedges] Hsl Hh.
  pose proof (holds_scalars _ _ Hh) as [Hty Hte]%Forall_app.
  change (scalars b) with (option_list (b_desired_members b) ++ option_list (b_run_intent b)
    ++ later_scalars b) in Hty.
  rewrite !Forall_app in Hty. destruct Hty as (_ & _ & Hty).
  unfold process_batch. cbn [fst].
  change (scalars b) with (option_list (b_desired_members b) ++ option_list (b_run_intent b)
    ++ later_scalars b).
  rewrite Hstop, !fold_left_app. cbn [option_list fold_left].
  set (co1 := fold_left _ (option_list (b_desired_members b)) (c, nothing_owed)).
  assert (H1 : since (out c) teardown co1.1).
  { exists []. split; [|constructor]. cbn. change (out c) with (out (c, nothing_owed).1).
    apply steps_no_requests. apply fold_scalars; try done.
    destruct (b_desired_members b) as [e|] eqn:E; [|constructor]. cbn. constructor; [|done].
    by destruct (sl_members b Hsl e E) as [m ->]. }
  assert (H2 : halted (out c) (scalar lower (b_master_receipt b) co1 stop).1).
  { unfold scalar. rewrite Hc. by apply stop_halts. }
  clearbody co1. eapply (steps_halted (out c)); [|exact H2].
  etrans; [|by apply steps_settle]. etrans; [|apply steps_edges; done || by apply permits_inert].
  apply fold_scalars; try done. apply permits_inert; [done|]. by apply later_scalars_inert.
Qed.

Lemma run_halted base es c :
  Forall (fun '(_, _, e) => typed e /\ asks_start e = false) es ->
  halted base c -> halted base (run es c).
Proof.
  intros Hes. revert c. induction Hes as [|[[n w] e] es [Ht Hs] _ IH]; intros c Hh; [done|].
  apply IH. by apply event_halted.
Qed.

(** C5: a Stop stays stopped.  In any state of the controller, when a drain
    carries a Stop that no later command of the same drain undoes, then after
    it and through any further events that carry no start -- timers,
    discovery, capture and session updates, suspends and resumes, other
    commands -- the run intent is Stopped, the launch policy is spent, and
    every generation asked of the session supervisor in all that time names no
    device and is a teardown. *)
Theorem stop_stays_stopped now wall first queued pre stop post es c :
  first :: queued = pre ++ stop :: post -> env_command stop = SetRunIntent Stopped ->
  Forall (fun e => starts_playback (env_command e) = false) post ->
  typed (ECommand first queued) ->
  Forall (fun '(_, _, e) => typed e /\ asks_start e = false) es ->
  let c' := run ((now, wall, ECommand first queued) :: es) c in
  sn_run_intent (snapshot c') = Stopped /\ startup_auto_connect_until c' = None /\
  exists new, requests (out c') = new ++ requests (out c) /\
    Forall (fun p => Supervisor.desired p = [] /\ Supervisor.teardown_only p = true) new.
Proof.
  intros Hq Hc Hpost Ht Hes c'. 
  apply (run_halted (out c) es (iterate now wall (ECommand first queued) c).1); [done|].
  unfold Controller.iterate. cbn [handle_event]. unfold command_event. rewrite Hq.
  set (b := fold_left insert_envelope _ _).
  assert (Hb : halted (out c) (process_batch lower tone uuid now b
    (if 0 <? sat_sub (b_drained_total b) (winner_count b)
     then emit_diagnostics Info (CommandCoalesced (sat_sub (b_drained_total b) (winner_count b))) c
     else c)).1).
  { assert (Hsame : forall d, requests (out d) = requests (out c) ->
      halted (out c) (process_batch lower tone uuid now b d).1).
    { intros d Hd. pose proof (batch_halts now b d) as Hh. unfold halted, since in *.
      rewrite Hd in Hh. apply Hh; [by apply drain_stopping|apply slotted_drain, slotted_empty|].
      apply holds_drain; [|apply permits_cancel|apply holds_empty|].
      - intros x y Hx _ ->. done.
      - rewrite <- Hq. by destruct Ht as (_ & _ & _ & _ & _ & _ & Hf). }
    apply Hsame. by case_match. }
  clearbody b. destruct (process_batch _ _ _ _ _ _) as [d sh]. exact Hb.
Qed.

(** *** Suspend *)

Definition no_resume (k : Kind) : Prop := k <> Resume.

Definition asleep base c : Prop :=
  suspended c = true /\ resume_at c <> None /\ requests (out c) = requests base.

Lemma prim_asleep base k c c' :
  no_resume k -> prim lower k c c' -> asleep base c -> asleep base c'.
Proof.
  intros Hk Hp (Hs & Ha & Hr).
  assert (Hreq : requests (out c') = requests base).
  { destruct (prim_requests k c c' Hp) as [->|(_ & [_ _ Hawake _ _] & _)]; congruence. }
  assert (Hsame : suspended c' = suspended c -> resume_at c' = resume_at c -> asleep base c')
    by (intros E1 E2; split_and!; congruence).
  destruct k; cbn in Hp; try done;
    try (destruct Hp as [(_ & _ & _ & E1 & E2 & _)%core_fields]; by apply Hsame).
  - subst c'. by apply Hsame.
  - by destruct Hp as [at_ ->].
  - by destruct Hp as [at_ ->].
  - destruct Hp as [_ _ _ Hrest]. injection Hrest as _ E1 E2 _. by apply Hsame.
  - destruct Hp as [_ Hrest]. injection Hrest as _ _ E1 E2 _. by apply Hsame.
  - destruct Hp as [_ Hrest]. injection Hrest as _ E1 E2 _. by apply Hsame.
  - destruct Hp as (r & e & f & ->). by apply Hsame.
Qed.

Lemma no_resume_permits e : typed e -> e <> EResumeSettled -> event_permits no_resume e.
Proof.
  destruct e as [f q| | | | | | |ev| |]; try done.
  - intros (_ & _ & _ & _ & _ & _ & Ht) _. split_and!; try done.
    eapply Forall_impl; [exact Ht|]. intros x. cbn.
    by destruct (env_command x) as [ | | | | | | | | | | | |? []| |[]| |].
  - intros. by destruct ev.
Qed.

Lemma suspend_asleep now c : asleep (out c) (begin_suspend lower now c).
Proof.
  set (d := c <| suspended := true |> <| resume_at := Some (now + SUSPEND_WATCHDOG) |>).
  assert (Hs : steps lower no_resume d (begin_suspend lower now c)).
  { unfold begin_suspend. cbv zeta. fold d.
    etrans; [|apply steps_tame; [done|apply tame_diagnostic]].
    apply steps_maybe_publish; [done|done| |apply same_view_session].
    etrans; [|by apply tame_emit]. by apply tame_emit. }
  apply (steps_inv lower no_resume (asleep (out c)) d); [|done|by split_and!].
  intros k a b. apply prim_asleep.
Qed.

Lemma asleep_generations base c : asleep base c -> asleep base (publish_generations c).
Proof. done. Qed.

(** A suspended machine reconciles nothing.  From the event that announces
    a suspend until the settle timer fires, whatever else happens -- commands
    that change the selection, a resume broadcast, retries, session and
    network updates -- the controller stays suspended, sends the session
    supervisor no reconcile, and keeps the deadline armed that will end the
    suspend. *)
Theorem suspended_until_settled now wall es c :
  Forall (fun '(_, _, e) => typed e /\ e <> EResumeSettled) es ->
  let c' := run ((now, wall, ESystem Suspending) :: es) c in
  suspended c' = true /\ resume_at c' <> None /\ requests (out c') = requests (out c).
Proof.
  intros Hes. pose proof (asleep_generations _ _ (suspend_asleep now c)) as Hp.
  change (run ((now, wall, ESystem Suspending) :: es) c)
    with (run es (publish_generations (begin_suspend lower now c))).
  revert Hp. generalize (publish_generations (begin_suspend lower now c)).
  induction Hes as [|[[n w] e] es [Ht He] _ IH]; intros d Hd; [done|].
  apply IH. eapply (steps_inv lower no_resume (asleep (out c))); [|apply event_steps|exact Hd]; try done.
  - intros k a b. apply prim_asleep.
  - by apply no_resume_permits.
Qed.

(** ** Generations *)

Definition generations_of c : list Z := Supervisor.generation <$> requests (out c).

Definition descending (l : list Z) : Prop := StronglySorted (fun x y => y < x) l.

(** Newest first, each bounded by the counter; the counter is a [u64]. *)
Definition minted c : Prop :=
  0 <= session_generation c /\
  (session_generation c < 2 ^ 64 - 1 ->
   descending (generations_of c) /\ Forall (fun g => g <= session_generation c) (generations_of c)).

Lemma prim_generation k c c' : prim lower k c c' ->
  (0 <= session_generation c -> 0 <= session_generation c') /\
  (session_generation c' < 2 ^ 64 - 1 -> session_generation c <= session_generation c').
Proof.
  destruct k; cbn; intros Hp; try (destruct Hp as [_ _ Hg]; lia).
  - by subst c'.
  - by destruct Hp as [at_ ->].
  - by destruct Hp as [at_ ->].
  - by subst c'.
  - destruct Hp as [_ _ _ -> _]. unfold sat_add. lia.
  - destruct Hp as [_ _ _ Hr]. injection Hr as _ _ _ _ ->. lia.
  - destruct Hp as [_ Hr]. injection Hr as _ _ _ _ _ ->. lia.
  - destruct Hp as [_ Hr]. injection Hr as _ _ _ _ ->. lia.
  - by destruct Hp as (r & e & f & ->).
Qed.

Lemma prim_minted k c c' : prim lower k c c' -> minted c -> minted c'.
Proof.
  intros Hp [Hpos Hm]. destruct (prim_generation k c c' Hp) as [Hp1 Hp2].
  split; [by apply Hp1|]. intros Hlt. unfold generations_of.
  assert (Hle : Forall (fun g => g <= session_generation c') (generations_of c)).
  { destruct Hm as [_ Hb]; [lia|]. eapply Forall_impl; [exact Hb|]. cbn. intros g Hg. specialize (Hp2 Hlt). lia. }
  destruct (prim_requests k c c' Hp) as [->|(_ & [_ _ _ Hg _] & p & -> & Hgp & _)].
  - split; [|done]. apply Hm. lia.
  - cbn. rewrite Hgp. split; [|constructor; [lia|done]].
    unfold sat_add in Hg. destruct Hm as [Hd Hb]; [lia|].
    constructor; [done|]. eapply Forall_impl; [exact Hb|]. intros g. cbn. lia.
Qed.

(** Every reconcile is a new generation.  Through any run from start, the
    generations of the reconciles sent to the session supervisor are strictly
    increasing, so the supervisor's generation gate admits every one of them
    however far the earlier ones got; the bound says the 64-bit counter did
    not saturate. *)
Theorem reconcile_generations_increase now st c0 es :
  start_controller lower now st = Ok c0 -> Forall (fun '(_, _, e) => typed e) es ->
  let c := run es c0 in
  session_generation c < 2 ^ 64 - 1 ->
  descending (generations_of c) /\
  forall newer older l1 l2, generations_of c = l1 ++ newer :: l2 -> older ∈ l2 ->
    (Supervisor.gate_admits older newer).2 = true.
Proof.
  intros (st1 & o & _ & _ & _ & _ & _ & _ & _ & Hg & new & Ho & Hq)%start_fields Hes c Hlt.
  assert (Hm : minted c).
  { apply (steps_inv lower any minted c0); [|by apply run_steps|].
    - intros k a b _. apply prim_minted.
    - split; [done|]. intros _. unfold generations_of.
      rewrite Ho, requests_app, requests_quiet by done. by repeat constructor. }
  destruct (proj2 Hm Hlt) as [Hd _]. split; [done|].
  intros newer older l1 l2 Hsplit Hold. rewrite Hsplit in Hd.
  apply StronglySorted_app_1_r in Hd. apply StronglySorted_inv in Hd as [_ Hd].
  rewrite Forall_forall in Hd. specialize (Hd older Hold). unfold Supervisor.gate_admits.
  by destruct (Z.ltb_spec older newer); [|lia].
Qed.

(** ** The health of the store *)

Lemma prim_health k c c' : prim lower k c c' ->
  sn_persistence (snapshot c') = sn_persistence (snapshot c) \/
  sn_persistence (snapshot c') = PersistError.
Proof.
  destruct k; cbn; intros Hp.
  - left. by destruct Hp as [_ _ _ <- _].
  - left. by destruct Hp as [_ _ _ [o ->] _].
  - left. by destruct Hp as [_ _ _ _ [[_ _ ->] _] _].
  - left. by destruct Hp as [_ _ _ _ [[_ _ ->] _] _].
  - left. by subst c'.
  - left. by destruct Hp as [at_ ->].
  - left. by destruct Hp as [at_ ->].
  - left. by subst c'.
  - left. by destruct Hp as [_ [-> _] _ _ _].
  - left. by destruct Hp.
  - right. by destruct Hp as [_ _ _ _ (_ & _ & _ & ->) _].
  - left. by destruct Hp as [_ _ _ [o ->]].
  - left. by destruct Hp as (r & e & f & ->).
Qed.

(** The published health never reports a success: it is idle until the first
    failed write and an error ever after, whatever is saved later. *)
Theorem store_error_never_clears es c :
  Forall (fun '(_, _, e) => typed e) es ->
  (sn_persistence (snapshot c) <> PersistHealthy ->
   sn_persistence (snapshot (run es c)) <> PersistHealthy) /\
  (sn_persistence (snapshot c) = PersistError ->
   sn_persistence (snapshot (run es c)) = PersistError).
Proof.
  intros Hes. assert (Hs : steps lower any c (run es c)) by (by apply run_steps).
  split; intros Hc.
  - apply (steps_inv lower any (fun c => sn_persistence (snapshot c) <> PersistHealthy) c); [|done|done].
    intros k a b _ Hp Ha. destruct (prim_health k a b Hp); congruence.
  - apply (steps_inv lower any (fun c => sn_persistence (snapshot c) = PersistError) c); [|done|done].
    intros k a b _ Hp Ha. destruct (prim_health k a b Hp); congruence.
Qed.

End Props.
(** ** A concrete run *)

Definition toy_store : StateStore (FileStore (Bytes := StateDocument)) :=
  file_store id (fun _ => None).
Definition sample_disk : FileStore (Bytes := StateDocument) := tuned_disk [].

Local Existing Instance Device.eta_Device.
Definition kitchen_id : ReceiverId := MkDeviceId 1 2 3 4 5 6.
Definition kitchen : Device.Device :=
  (Device.example_device kitchen_id (lit "Kitchen")) <| Device.dev_features := Z.shiftl 1 40 |>
    <| Device.dev_source_version := Device.MIN_AIRPLAY2_VERSION |>.

Definition command (id : Z) (c : BackendCommand) : CommandEnvelope :=
  {| env_id := id; env_command := c; env_confirmation := None |}.

(** The kitchen appears, is selected and started. *)
Definition start_up : list (Z * Z * Event) :=
  [(1, 1, EDiscovery (Discovery.Started 1));
   (2, 2, EDiscovery (Discovery.Receiver 1 (Browser.Added kitchen)));
   (3, 3, ECommand (command 1 (SetDesiredMembers {[kitchen_id]})) [command 2 (SetRunIntent Running)])].

Local Notation go es c :=
  (run (H := toy_store) id (fun _ => true) Z.of_nat es c).

Definition launched : Controller (S := FileStore (Bytes := StateDocument)) :=
  match start_controller (H := toy_store) id 0 sample_disk with
  | Ok c => c
  | Err _ => restore id 0 default_v1 (Ok None) sample_disk
  end.

Lemma launch_ok : start_controller (H := toy_store) id 0 sample_disk = Ok launched.
Proof. vm_compute. reflexivity. Qed.

Lemma start_up_typed : Forall (fun '(_, _, e) => typed e) start_up.
Proof. repeat constructor. Qed.

(** The run really builds a session for the kitchen. *)
Example start_up_builds :
  (Supervisor.desired <$> requests (out (go start_up launched))) = [[kitchen]].
Proof. vm_compute. reflexivity. Qed.

Lemma persist_before_publish_witness :
  let c := go start_up launched in
  truthful (persisted launched) (out c) /\ persisted c = saved_in (persisted launched) (out c) /\
  mirrors (persisted c) (published c) /\ published c = snapshot c /\
  head (publications (out c)) = Some (published c) /\ numbered (publications (out c)).
Proof.
  exact (persist_before_publish (H := toy_store) id (fun _ => true) Z.of_nat 0 sample_disk launched
           start_up launch_ok start_up_typed).
Defined.

(** A Start and a Stop in one drain, then the retry timer and discovery. *)
Lemma stop_stays_stopped_witness :
  let c := go start_up launched in
  let c' := go [(4, 4, ECommand (command 3 (SetRunIntent Running)) [command 4 (SetRunIntent Stopped)]);
                (5, 5, ERetryDue); (6, 6, EAutoConnectDue)] c in
  sn_run_intent (snapshot c') = Stopped /\ startup_auto_connect_until c' = None /\
  exists new, requests (out c') = new ++ requests (out c) /\
    Forall (fun p => Supervisor.desired p = [] /\ Supervisor.teardown_only p = true) new.
Proof.
  apply (stop_stays_stopped (H := toy_store) id (fun _ => true) Z.of_nat 4 4
    (command 3 (SetRunIntent Running)) [command 4 (SetRunIntent Stopped)]
    [command 3 (SetRunIntent Running)] (command 4 (SetRunIntent Stopped)) []
    [(5, 5, ERetryDue); (6, 6, EAutoConnectDue)]); try reflexivity; repeat constructor.
Defined.

Lemma suspended_until_settled_witness :
  let c := go start_up launched in
  let c' := go [(4, 4, ESystem Suspending); (5, 5, ECommand (command 3 (SetDesiredMembers ∅)) []);
                (6, 6, ESystem Resumed); (7, 7, ERetryDue)] c in
  suspended c' = true /\ resume_at c' <> None /\ requests (out c') = requests (out c).
Proof.
  apply (suspended_until_settled (H := toy_store) id (fun _ => true) Z.of_nat 4 4).
  repeat constructor; discriminate.
Defined.

Lemma reconcile_generations_increase_witness :
  let c := go (start_up ++ [(4, 4, ECommand (command 3 (SetRunIntent Stopped)) [])]) launched in
  generations_of c = [2; 1] /\ descending (generations_of c).
Proof.
  intros c. split; [vm_compute; reflexivity|].
  apply (reconcile_generations_increase (H := toy_store) id (fun _ => true) Z.of_nat 0 sample_disk
    launched _ launch_ok).
  - apply Forall_app. split; [exact start_up_typed|repeat constructor].
  - vm_compute. reflexivity.
Defined.

End ControllerProps.
