(* ===== verification/ControllerRestart.v ===== *)
(** * Restarting the backend

    The controller against the interface [StateStoreOk]: whatever it publishes
    agrees with the document a later launch would read.  Composed with the file
    store of [backend/persistence.rs], a restart shows the user's choices as
    they were last on display. *)

From S2P Require Import Prelude Float32 AppState Model Wire Text Features Device TxtParser Browser Recovery Discovery Inventory Calibration DiagRing Machine Supervisor Persistence Backend Controller ControllerSteps ControllerProps.
Import Model Calibration Persistence Backend Controller ControllerSteps ControllerProps.

Module ControllerRestart.

Section Agreement.
Context {S : Type} `{HSt : StateStore S} `{!StateStoreOk S}.
Context (lower : text -> text) (tone : nat -> bool) (uuid : nat -> Z).
Local Notation Ctrl := (Controller (S := S)).
Implicit Types c : Ctrl.

(** The profile in use is the one on disk. *)
Definition profile_on_disk (s : option CalibrationStateV2) (p : CalibrationProfile) : Prop :=
  p = match s with Some s => profile_of_state s | None => empty_profile end.

Record on_disk c : Prop := {
  d_document : document (store c) = Some (persisted c);
  d_volumes : doc_ok (persisted c);
  d_valid : validate lower (persisted c) = Ok tt;
  d_profile : profile_on_disk (section (store c)) (profile c);
}.

Lemma on_disk_core c c' : core c' = core c -> on_disk c -> on_disk c'.
Proof.
  intros (E1 & E2 & E3 & _)%core_fields []. split; rewrite ?E1, ?E2, ?E3; done.
Qed.

Lemma prim_on_disk k c c' : prim lower k c c' -> on_disk c -> on_disk c'.
Proof.
  intros Hp Hc.
  destruct k; cbn in Hp; try (destruct Hp as [Hcore]; by apply (on_disk_core c)).
  - subst c'. by destruct Hc.
  - destruct Hp as [at_ ->]. by destruct Hc.
  - destruct Hp as [at_ ->]. by destruct Hc.
  - subst c'. by destruct Hc.
  - destruct Hp as [Hs Hv Hd Hr _ _ _ _ _ _]. injection Hr as E1 _ _ _ _. destruct Hc as [H1 H2 H3 H4].
    destruct (save_writes _ _ _ (Hd H2) Hs) as [E2 E3].
    split; [done|by apply Hd|done|]. by rewrite E1, E3.
  - destruct Hp as [(d & e & Hst) Hr _ _ _ _]. injection Hr as E1 E2 _ _ _ _.
    destruct Hc as [H1 H2 H3 H4].
    assert (document (store c') = document (store c) /\ section (store c') = section (store c)) as [D1 D2].
    { destruct Hst as [Hst|[sec Hst]]; [by eapply save_keeps|by eapply save_calibration_keeps]. }
    split; [congruence|congruence|congruence|]. by rewrite D2, E2.
  - destruct Hp as [(sec & Hst & Hsec & _) Hr _ _]. injection Hr as E1 _ _ _ _.
    destruct Hc as [H1 H2 H3 H4].
    destruct (save_calibration_writes _ _ _ (fun d Hd => ltac:(rewrite H1 in Hd; injection Hd as <-; exact H2)) Hst)
      as [D1 D2].
    split; [|congruence|congruence|].
    + rewrite D2, E1, H1. cbn. f_equal. apply version_one. by apply (validate_version lower).
    + rewrite D1. unfold profile_on_disk. destruct Hsec as [->|[-> ->]]; cbn; [|done].
      by rewrite profile_state_roundtrip.
  - destruct Hp as (r & e & f & ->). by destruct Hc.
Qed.

Lemma run_on_disk es c :
  Forall (fun '(_, _, e) => typed e) es -> on_disk c -> on_disk (run lower tone uuid es c).
Proof.
  intros Hes. apply (steps_inv lower any on_disk); [|by apply run_steps].
  intros k a b _. apply prim_on_disk.
Qed.

Lemma start_profile now st c : start_controller lower now st = Ok c ->
  profile c = match (load_calibration (load st).1).2 with
              | Ok (Some s) => profile_of_state s | _ => empty_profile
              end.
Proof.
  unfold start_controller. destruct (load st) as [st1 [o|e]]; [|done]. cbn.
  destruct (load_calibration st1) as [st2 sec]. intros [= <-].
  destruct (tame_announce_start o (is_unreadable sec) (restore lower now (into_state o) sec st2))
    as [(_ & _ & -> & _)%core_fields _ _ _ _]. done.
Qed.

End Agreement.

Section Restart.
Context {Bytes : Type} `{Json Bytes} (lower : text -> text) (parse_f32 : text -> option f32).
Context (tone : nat -> bool) (uuid : nat -> Z).
Local Notation store_of := (file_store (Bytes := Bytes) lower parse_f32).
Local Existing Instance file_store.
Local Existing Instance file_store_ok.

Lemma start_on_disk now (s s1 s2 : FileStore (Bytes := Bytes)) d sec c :
  load (StateStore := store_of) s = (s1, Ok (Loaded d)) -> doc_ok d ->
  load_calibration (StateStore := store_of) s1 = (s2, Ok sec) ->
  start_controller (H := store_of) lower now s = Ok c ->
  on_disk (HSt := store_of) (StateStoreOk0 := file_store_ok lower parse_f32) lower c.
Proof.
  intros Hl Hd Hc Hs.
  pose proof (start_profile (HSt := store_of) lower now s c Hs) as Hp.
  destruct (start_fields (H := store_of) lower now s c Hs) as (s1' & o & Hl' & Hst & Hpe & _).
  rewrite Hl in Hl'. injection Hl' as <- <-. rewrite Hl in Hp. cbn [fst] in Hp. rewrite Hc in Hp, Hst.
  cbn [fst snd] in Hp, Hst. cbn in Hpe.
  destruct (load_keeps lower parse_f32 s s1 d Hl) as [Hdoc Hv].
  destruct (load_calibration_keeps lower parse_f32 s1 s2 (Ok sec) Hc) as [Hf Hsec].
  specialize (Hsec sec eq_refl). destruct (same_file s1 s2 Hf) as [Hd2 Hs2].
  split.
  - cbn. by rewrite Hst, Hpe, Hd2.
  - by rewrite Hpe.
  - by rewrite Hpe.
  - cbn. rewrite Hst, Hs2, <- Hsec. exact Hp.
Qed.

(** C2: choices survive a restart.  A backend launched from a readable state
    file is run through any events, with writes that succeed or fail at any
    point; launching it again from the file it leaves behind always succeeds
    and shows the volumes, mute, latency, auto-connect, endpoint, selection and
    saved groups that were last published, runs with the same calibration
    profile, and starts Stopped. *)
Theorem choices_survive_restart now now' (s s1 s2 : FileStore (Bytes := Bytes)) d sec c0 es :
  load (StateStore := store_of) s = (s1, Ok (Loaded d)) -> doc_ok d ->
  load_calibration (StateStore := store_of) s1 = (s2, Ok sec) ->
  start_controller (H := store_of) lower now s = Ok c0 ->
  Forall (fun '(_, _, e) => typed e) es ->
  let c := run (H := store_of) lower tone uuid es c0 in
  exists c', start_controller (H := store_of) lower now' (healthy (store c)) = Ok c' /\
    durable_of (published c') = durable_of (published c) /\
    sn_saved_groups (published c') ≡ₚ sn_saved_groups (published c) /\
    profile c' = profile c /\ sn_run_intent (published c') = Stopped.
Proof.
  intros Hl Hd Hk Hs Hes c.
  pose proof (start_on_disk now s s1 s2 d sec c0 Hl Hd Hk Hs) as Hon.
  apply (run_on_disk lower tone uuid es) in Hon; [|done].
  destruct (start_invariants (H := store_of) lower now s c0 Hs) as (Hsh & Heq & Hled).
  destruct (run_shown (H := store_of) lower tone uuid es c0 Hes Hsh Heq) as [_ Hpub].
  destruct (run_ledger (H := store_of) lower tone uuid _ es c0 Hes Hled) as (_ & [Hm1 Hm2] & _).
  rewrite <- Hpub in Hm1, Hm2. fold c in Hm1, Hm2, Hon. clear Hpub.
  destruct Hon as [Hdoc _ Hv Hprof]. cbn [document file_store_ok] in Hdoc.
  destruct (healthy_load lower parse_f32 (store c) (persisted c) Hdoc Hv) as [Hload Hcal].
  destruct (start_controller (H := store_of) lower now' (healthy (store c))) as [c'|e] eqn:Hc'.
  - exists c'. split; [done|].
    pose proof (start_profile (HSt := store_of) lower now' _ c' Hc') as Hp.
    destruct (start_fields (H := store_of) lower now' _ c' Hc')
      as (s1' & o & Hl' & _ & Hpe & Heq' & [Hn1 Hn2] & Hrun & _).
    rewrite Hload in Hl', Hp. injection Hl' as <- <-. cbn in Hpe. cbn [fst] in Hp.
    rewrite Hcal in Hp. cbn [snd] in Hp.
    rewrite Heq'. split_and!; [congruence|by rewrite Hn2, Hm2, Hpe| |done].
    rewrite Hp. symmetry. exact Hprof.
  - unfold start_controller in Hc'. rewrite Hload in Hc'. by rewrite Hcal in Hc'.
Qed.

End Restart.
(** ** A concrete run *)

(** A launch from a tuned disk; the user turns the volume up, which is saved,
    then mutes, whose write fails on a full disk. *)
Definition sample_events : list (Z * Z * Event) :=
  [(1, 1, ECommand {| env_id := 1; env_command := SetMasterVolume f32_one;
                      env_confirmation := None |} []);
   (2, 2, ECommand {| env_id := 2; env_command := SetMuted true; env_confirmation := None |} [])].

Definition failing_disk : FileStore (Bytes := StateDocument) :=
  tuned_disk [false; false; false; false; false; false; false; true].

Lemma sample_typed : Forall (fun '(_, _, e) => typed e) sample_events.
Proof. repeat constructor. Qed.

Lemma choices_survive_restart_witness :
  exists c0, start_controller (H := toy_store) id 0 failing_disk = Ok c0 /\
  let c := run (H := toy_store) id (fun _ => true) Z.of_nat sample_events c0 in
  sn_master_volume (published c) = f32_one /\ sn_muted (published c) = false /\
  exists c', start_controller (H := toy_store) id 9 (healthy (store c)) = Ok c' /\
    durable_of (published c') = durable_of (published c) /\
    sn_saved_groups (published c') ≡ₚ sn_saved_groups (published c) /\
    profile c' = profile c /\ sn_run_intent (published c') = Stopped.
Proof.
  eexists. split; [vm_compute; reflexivity|].
  split; [vm_compute; reflexivity|]. split; [vm_compute; reflexivity|].
  eapply (choices_survive_restart id (fun _ => None) (fun _ => true) Z.of_nat 0 9
    failing_disk _ _ default_v1 (Some tuned)).
  - vm_compute. reflexivity.
  - split; [reflexivity|]. split; [apply map_Forall_empty|constructor].
  - vm_compute. reflexivity.
  - vm_compute. reflexivity.
  - exact sample_typed.
Defined.

End ControllerRestart.
