(* ===== verification/ControllerTimers.v ===== *)
(** * The timers of the backend controller

    The three timer arms of the main loop of [backend/controller.rs]: automatic
    rejoins, the end of a suspend, and the launch policy.  An arm that fired is
    not due again at the same instant, so the loop cannot spin on a timer. *)

From S2P Require Import Prelude Float32 AppState Model Wire Text Features Device TxtParser Browser Recovery Discovery Inventory Calibration DiagRing Machine Supervisor Persistence Backend Controller ControllerSteps ControllerProps.
Import Model Calibration Persistence Backend Controller ControllerSteps ControllerProps.

Module ControllerTimers.

Section Timers.
Context {S : Type} `{StateStore S}.
Context (lower : text -> text) (tone : nat -> bool) (uuid : nat -> Z).
Local Notation Ctrl := (Controller (S := S)).
Implicit Types c : Ctrl.

(** ** The rejoin limiter along the handlers *)

Lemma rejoin_fold {A} (f : Ctrl -> A -> Ctrl) l c :
  (forall c x, rejoin (f c x) = rejoin c) -> rejoin (fold_left f l c) = rejoin c.
Proof. intros Hf. revert c. induction l as [|x l IH]; intros c; cbn; [done|]. by rewrite IH, Hf. Qed.

Lemma rejoin_drive r apply c : rejoin (drive r apply c) = rejoin c.
Proof. unfold drive. destruct (apply _) as [m [[]|?]]; [by case_match|done]. Qed.

Lemma rejoin_publish c : rejoin (publish lower c) = rejoin c.
Proof.
  unfold publish. assert (Hc : rejoin (check_listening_test c) = rejoin c)
    by (unfold check_listening_test; by repeat case_match).
  by case_match.
Qed.

Lemma rejoin_maybe_publish next c : rejoin (maybe_publish lower next c) = rejoin c.
Proof.
  unfold maybe_publish. cbv zeta. case_match; [done|].
  assert (Hp : rejoin (publish lower (c <| snapshot := next |>)) = rejoin c) by (by rewrite rejoin_publish).
  generalize dependent (publish lower (c <| snapshot := next |>)). intros d Hd. by case_match.
Qed.

Lemma rejoin_republish c : rejoin (republish_rows lower c) = rejoin c.
Proof.
  unfold republish_rows. destruct (rebuild_receiver_rows (snapshot c) c) as [next d] eqn:E.
  rewrite rejoin_maybe_publish. unfold rebuild_receiver_rows in E. by injection E as _ <-.
Qed.

Lemma rejoin_reconcile cause c : rejoin (request_reconcile cause c) = rejoin c.
Proof.
  unfold request_reconcile. destruct (suspended c); [done|]. cbv zeta. case_match; [done|].
  cbn. unfold remember_effective_volumes. rewrite rejoin_fold by done. by destruct (is_calibration cause).
Qed.

(** ** Rejoins *)

Lemma max_opt_some a b : max_opt a (Some b) = Z.max a b.
Proof. done. Qed.

Lemma rejoin_at_spaced c r at_ last :
  Recovery.last_rejoin_restart (rejoin c) = Some last ->
  rejoin_at c r = Some at_ -> last + Recovery.REJOIN_RESTART_SPACING <= at_.
Proof.
  intros Hl. unfold rejoin_at. case_match; [|done].
  destruct (Recovery.rejoin_eligible_at (rejoin c) r) as [e|]; [|done]. cbn. intros [= <-].
  unfold Recovery.group_allowed_at. rewrite Hl. cbn. lia.
Qed.

Lemma sift_later c now l due next :
  (forall at_, next = Some at_ -> now < at_) ->
  let '(due', next') := fold_left (sift c now) l (due, next) in
  (forall at_, next' = Some at_ -> now < at_) /\
  (forall r, r ∈ due' -> r ∈ due \/ r ∈ l /\ exists at_, rejoin_at c r = Some at_ /\ at_ <= now).
Proof.
  revert due next. induction l as [|r l IH]; intros due next Hn; cbn; [by eauto|].
  destruct (rejoin_at c r) as [at_|] eqn:Hr.
  - destruct (Z.leb_spec at_ now).
    + specialize (IH (due ++ [r]) next Hn). destruct (fold_left _ l _) as [due' next'].
      destruct IH as [IH1 IH2]. split; [done|]. intros x Hx. destruct (IH2 x Hx) as [Hx'|[Hx' He]].
      * apply elem_of_app in Hx' as [?|Hx']; [by left|]. apply list_elem_of_singleton in Hx' as ->.
        right. split; [constructor|]. by exists at_.
      * right. split; [by constructor|done].
    + specialize (IH due (Recovery.min_opt next (Some at_))).
      destruct (fold_left _ l _) as [due' next']. destruct IH as [IH1 IH2].
      { intros x. destruct next as [n|]; cbn; intros [= <-]; [|done]. specialize (Hn n eq_refl). lia. }
      split; [done|]. intros x Hx. destruct (IH2 x Hx) as [?|[? ?]]; [by left|right].
      split; [by constructor|done].
  - specialize (IH due next Hn). destruct (fold_left _ l _) as [due' next'].
    destruct IH as [IH1 IH2]. split; [done|]. intros x Hx.
    destruct (IH2 x Hx) as [?|[? ?]]; [by left|right]. split; [by constructor|done].
Qed.

(** Nobody is due exactly when no gate is open, and the next deadline lies
    ahead. *)
Lemma candidates_spec c now :
  (forall at_, (rejoin_candidates c now).2 = Some at_ -> now < at_) /\
  (forall r, r ∈ (rejoin_candidates c now).1 -> exists at_, rejoin_at c r = Some at_ /\ at_ <= now).
Proof.
  unfold rejoin_candidates. case_match; [split; [done|by intros ? ?%elem_of_nil]|].
  pose proof (sift_later c now (in_order (sn_desired_members (snapshot c))) [] None) as Hs.
  destruct (fold_left (sift c now) _ ([], None)) as [due next]. destruct Hs as [H1 H2]; [done|].
  split; [done|]. intros r Hr. destruct (H2 r Hr) as [?%elem_of_nil|[_ ?]]; done.
Qed.

(** A restart that was just noted closes the arm for the spacing. *)
Lemma retry_spaced c now last :
  Recovery.last_rejoin_restart (rejoin c) = Some last ->
  now < last + Recovery.REJOIN_RESTART_SPACING -> next_retry_delay c now <> Some 0.
Proof.
  intros Hl Hn. destruct (candidates_spec c now) as [H1 H2]. unfold next_retry_delay.
  destruct (rejoin_candidates c now) as [due next]. cbn in H1, H2.
  case_bool_decide as Hd; cbn.
  - destruct next as [at_|]; [|done]. cbn. specialize (H1 at_ eq_refl).
    intros [= Hz]. unfold sat_sub in Hz. lia.
  - destruct due as [|r due]; [done|]. destruct (H2 r (list_elem_of_here _ _)) as (at_ & Hr & Hle).
    pose proof (rejoin_at_spaced c r at_ last Hl Hr). lia.
Qed.

Lemma fired_retry now c : next_retry_delay (fire_due_retries lower now c) now <> Some 0.
Proof.
  unfold fire_due_retries. case_bool_decide as Hd.
  - destruct (candidates_spec c now) as [H1 _]. unfold next_retry_delay.
    destruct (rejoin_candidates c now) as [due next]. cbn in H1, Hd. subst due. cbn.
    destruct next as [at_|]; [|done]. cbn. specialize (H1 at_ eq_refl).
    intros [= Hz]. unfold sat_sub in Hz. lia.
  - apply (retry_spaced _ now now); [|by unfold Recovery.REJOIN_RESTART_SPACING, Recovery.from_secs, Recovery.NANOS_PER_SEC; lia].
    by rewrite rejoin_reconcile, rejoin_republish.
Qed.

(** ** The launch policy *)

Lemma earliest_bound l now a :
  earliest l = Some a -> (forall x, x ∈ l -> now < x) -> now < a.
Proof.
  destruct l as [|x l]; [done|]. cbn. intros [= <-] Hl.
  assert (Hx : now < x) by (apply Hl; constructor).
  assert (Hr : forall y, y ∈ l -> now < y) by (intros; apply Hl; by constructor).
  clear Hl. revert x Hx. induction l as [|y l IH]; intros x Hx; cbn; [done|].
  apply IH; [by intros; apply Hr; constructor|].
  assert (now < y) by (apply Hr; constructor). lia.
Qed.

Lemma armed_reconcile cause c :
  startup_auto_connect_until (request_reconcile cause c) = startup_auto_connect_until c.
Proof.
  apply (steps_inv lower (fun k => k = Restart)
           (fun d => startup_auto_connect_until d = startup_auto_connect_until c) c);
    [|by apply steps_request_reconcile|done].
  intros k a b -> [(_ & _ & _ & _ & _ & ->)%core_fields _ _ _ _]. done.
Qed.

Lemma fired_auto_connect now c :
  auto_connect_delay (apply_startup_auto_connect lower now c) now <> Some 0.
Proof.
  assert (Hoff : forall d : Ctrl, startup_auto_connect_until d = None -> auto_connect_delay d now <> Some 0).
  { intros d Hd. unfold auto_connect_delay. by rewrite Hd. }
  unfold apply_startup_auto_connect.
  destruct (startup_auto_connect_until c) as [until|] eqn:Hu; [|by apply Hoff].
  destruct (suspended c) eqn:Hs; [unfold auto_connect_delay; by rewrite Hu, Hs|].
  destruct (until <? now) eqn:Hlate; [by apply Hoff|].
  case_match; [by apply Hoff|].
  case_match eqn:Hnone.
  - bool_simpl. unfold auto_connect_delay. rewrite Hu, Hs. cbn. rewrite Hlate.
    destruct (earliest _) as [at_|] eqn:He; [|done]. cbn. case_match; [|done].
    assert (now < at_) as Hlt.
    { eapply earliest_bound; [exact He|]. intros x (r & Hr & Hx)%list_elem_of_omap.
      assert (Recovery.may_rejoin (rejoin c) now r = false) as Hm.
      { destruct (Recovery.may_rejoin (rejoin c) now r) eqn:E; [|done].
        assert (existsb (Recovery.may_rejoin (rejoin c) now) (in_order (sn_desired_members (snapshot c))) = true)
          by (apply existsb_elem; eauto). congruence. }
      unfold Recovery.may_rejoin in Hm. rewrite Hx in Hm. cbn in Hm. lia. }
    intros [= Hz]. unfold sat_sub in Hz. lia.
  - apply Hoff. rewrite armed_reconcile.
    by destruct (publish_fields lower (set_run_intent Running (disarm c)))
      as (_ & _ & (_ & _ & _ & _ & _ & ->)%core_fields & _).
Qed.

(** ** The end of a suspend *)

Definition keeps_resume (k : Kind) : Prop :=
  match k with SuspendEdge | ResumeEdge | Resume => False | _ => True end.

Lemma resume_kept c c' : steps lower keeps_resume c c' -> resume_at c' = resume_at c.
Proof.
  intros Hs. apply (steps_inv lower keeps_resume (fun d => resume_at d = resume_at c) c c'); [|done|done].
  intros k a b Hk Hp <-. destruct k; cbn in Hp; try done;
    try (by destruct Hp as [(_ & _ & _ & _ & -> & _)%core_fields]).
  - by subst b.
  - destruct Hp as [_ _ _ Hr]. by injection Hr.
  - destruct Hp as [_ Hr]. by injection Hr.
  - destruct Hp as [_ Hr]. by injection Hr.
  - by destruct Hp as (r & e & f & ->).
Qed.

Lemma fired_resume now c : resume_delay (finish_resume lower now c) now <> Some 0.
Proof.
  unfold resume_delay. rewrite (resume_kept _ _ (steps_awake lower keeps_resume I I I now c)). done.
Qed.

Lemma generations_delay c now :
  next_retry_delay (publish_generations c) now = next_retry_delay c now /\
  resume_delay (publish_generations c) now = resume_delay c now /\
  auto_connect_delay (publish_generations c) now = auto_connect_delay c now.
Proof. done. Qed.

(** The delay of the arm an event belongs to. *)
Definition arm_delay (e : Event) c now : option Duration :=
  match e with
  | ERetryDue => next_retry_delay c now
  | EResumeSettled => resume_delay c now
  | EAutoConnectDue => auto_connect_delay c now
  | _ => None
  end.

(** C31: the main loop cannot spin on a timer.  In any state, once the retry
    arm, the settle arm or the launch arm has been handled, that arm is not
    due again at the same instant: it is disabled or its deadline lies ahead,
    whether or not the handler found anything to do. *)
Theorem timer_arms_never_spin now wall e c :
  arm_delay e (iterate lower tone uuid now wall e c).1 now <> Some 0.
Proof.
  unfold Controller.iterate.
  destruct e as [| | | | | | | | |]; try done; cbn [handle_event fst arm_delay].
  - destruct (generations_delay (fire_due_retries lower now c) now) as (-> & _ & _). apply fired_retry.
  - destruct (generations_delay (finish_resume lower now (emit OScan c)) now) as (_ & -> & _).
    apply fired_resume.
  - destruct (generations_delay (apply_startup_auto_connect lower now c) now) as (_ & _ & ->).
    apply fired_auto_connect.
Qed.

(** ** The launch policy acts once *)

(** Runs of the policy's timer that start playback. *)
Definition launches now c : bool :=
  (sn_run_intent (snapshot c) ==? Stopped)
  && (sn_run_intent (snapshot (apply_startup_auto_connect lower now c)) ==? Running).

(** When it did, in a run. *)
Fixpoint launch_times (es : list (Instant * Instant * Event)) c : list Instant :=
  match es with
  | [] => []
  | (now, wall, e) :: es =>
      match e with EAutoConnectDue => if launches now c then [now] else [] | _ => [] end
      ++ launch_times es (iterate lower tone uuid now wall e c).1
  end.

Lemma armed_event now wall e c : typed e ->
  startup_auto_connect_until c = None ->
  startup_auto_connect_until (iterate lower tone uuid now wall e c).1 = None.
Proof.
  intros Ht. apply (steps_inv lower any (fun d => startup_auto_connect_until d = None));
    [|by apply event_steps].
  intros k a b _ Hp Ha. destruct (prim_armed lower k a b Hp); congruence.
Qed.

Lemma unarmed_launches es c : Forall (fun '(_, _, e) => typed e) es ->
  startup_auto_connect_until c = None -> launch_times es c = [].
Proof.
  intros Hes. revert c. induction Hes as [|[[n w] e] es He _ IH]; intros c Ha; cbn [launch_times]; [done|].
  rewrite IH by (by apply armed_event).
  destruct e; try done. unfold launches. rewrite (auto_connect_spent lower n c Ha).
  by destruct (sn_run_intent (snapshot c)).
Qed.

Lemma launch_spent now c : launches now c = true ->
  startup_auto_connect_until (apply_startup_auto_connect lower now c) = None /\
  exists until, startup_auto_connect_until c = Some until /\ now <= until.
Proof.
  unfold launches. intros [Hi Hr]%andb_true_iff. apply bool_decide_eq_true in Hi, Hr. revert Hr.
  unfold apply_startup_auto_connect.
  destruct (startup_auto_connect_until c) as [until|] eqn:Hu; [|congruence].
  destruct (suspended c); [congruence|].
  destruct (Z.ltb_spec until now); [cbn; congruence|].
  rewrite Hi. cbn [negb]. case_bool_decide; [|done]. cbn [negb].
  case_match; [congruence|]. intros _. split; [|by exists until].
  rewrite armed_reconcile.
  by destruct (publish_fields lower (set_run_intent Running (disarm c)))
    as (_ & _ & (_ & _ & _ & _ & _ & ->)%core_fields & _).
Qed.

Lemma launch_times_spec deadline es c : Forall (fun '(_, _, e) => typed e) es ->
  (forall until, startup_auto_connect_until c = Some until -> until = deadline) ->
  (length (launch_times es c) <= 1)%nat /\ Forall (fun t => t <= deadline) (launch_times es c).
Proof.
  intros Hes. revert c. induction Hes as [|[[n w] e] es He Hes' IH]; intros c Hd; cbn [launch_times].
  { split; [cbn; lia|constructor]. }
  assert (Hnext : forall until, startup_auto_connect_until (iterate lower tone uuid n w e c).1 = Some until ->
    until = deadline).
  { apply (steps_inv lower any (fun d => forall until, startup_auto_connect_until d = Some until -> until = deadline) c);
      [|by apply event_steps|done].
    intros k a b _ Hp Ha u Hb. destruct (prim_armed lower k a b Hp); [apply Ha|]; congruence. }
  specialize (IH _ Hnext). destruct e; try exact IH.
  destruct (launches n c) eqn:Hl; [|exact IH].
  destruct (launch_spent n c Hl) as (Hoff & until & Hu & Hle).
  rewrite (unarmed_launches es); [|done|].
  - cbn. split; [lia|]. constructor; [|done]. by rewrite <- (Hd until Hu).
  - exact Hoff.
Qed.

(** The launch policy acts at most once.  In any run from start, automatic
    connection starts playback at most once, never later than a minute after
    launch, and never when the loaded document has the setting off, whatever is
    changed while the process runs. *)
Theorem launch_policy_acts_once now st c0 es :
  start_controller lower now st = Ok c0 -> Forall (fun '(_, _, e) => typed e) es ->
  (length (launch_times es c0) <= 1)%nat /\
  Forall (fun t => t <= now + AUTO_CONNECT_WINDOW) (launch_times es c0) /\
  (p_auto_connect (persisted c0) = false -> launch_times es c0 = []).
Proof.
  intros Hs Hes.
  assert (Ha : startup_auto_connect_until c0 =
    if p_auto_connect (persisted c0) then Some (now + AUTO_CONNECT_WINDOW) else None).
  { unfold start_controller in Hs. destruct (load st) as [st1 [o|e]]; [|done].
    destruct (load_calibration st1) as [st2 sec]. injection Hs as <-.
    destruct (tame_announce_start o (is_unreadable sec) (restore lower now (into_state o) sec st2))
      as [(-> & _ & _ & _ & _ & ->)%core_fields _ _ _ _]. done. }
  destruct (launch_times_spec (now + AUTO_CONNECT_WINDOW) es c0) as [H1 H2]; [done| |].
  { intros u Hu. rewrite Ha in Hu. case_match; congruence. }
  split_and!; [done|done|]. intros Hoff. apply unarmed_launches; [done|]. by rewrite Ha, Hoff.
Qed.

End Timers.
(** A launch with the setting on and the kitchen selected; the kitchen is on
    the network for three seconds when the arm fires. *)
Definition eager_disk : FileStore (Bytes := StateDocument) :=
  {| file := Some (V1 (default_v1 <| p_auto_connect := true |>
                         <| p_last_desired_members := {[kitchen_id]} |>));
     quarantined := []; legacy_volume := None; faults := [] |}.
Definition eager : Controller (S := FileStore (Bytes := StateDocument)) :=
  match start_controller (H := toy_store) id 0 eager_disk with
  | Ok c => c
  | Err _ => restore id 0 default_v1 (Ok None) eager_disk
  end.
Definition eager_events : list (Z * Z * Event) :=
  [(1, 1, EDiscovery (Discovery.Started 1));
   (2, 2, EDiscovery (Discovery.Receiver 1 (Browser.Added kitchen)));
   (3000000000, 3, EAutoConnectDue);
   (4000000000, 4, ECommand (command 1 (SetRunIntent Stopped)) []);
   (5000000000, 5, EAutoConnectDue)].

Example eager_launches :
  launch_times (H := toy_store) id (fun _ => true) Z.of_nat eager_events eager = [3000000000].
Proof. vm_compute. reflexivity. Qed.

Lemma launch_policy_acts_once_witness :
  (length (launch_times (H := toy_store) id (fun _ => true) Z.of_nat eager_events eager) <= 1)%nat.
Proof.
  apply (launch_policy_acts_once (H := toy_store) id (fun _ => true) Z.of_nat 0 eager_disk eager eager_events).
  - vm_compute. reflexivity.
  - repeat constructor.
Defined.

End ControllerTimers.
