(* ===== verification/ControllerBatch.v ===== *)
(** * Command drains

    [PendingBatch] and [process_batch] of [backend/controller.rs]: one drain of
    the command queue equals a reference that keeps the last command of each
    slot and every edge in order, and answers every receipt exactly once. *)

From S2P Require Import Prelude Float32 AppState Model Wire Text Features Device TxtParser Browser Recovery Discovery Inventory Calibration DiagRing Machine Supervisor Persistence Backend Controller ControllerSteps ControllerProps.
Import Model Calibration Persistence Backend Controller ControllerSteps ControllerProps.

Module ControllerBatch.

(** ** The reference *)

Definition of_slot (p : BackendCommand -> bool) (es : list CommandEnvelope) : option CommandEnvelope :=
  last (List.filter (fun e => p (env_command e)) es).

Definition is_members (c : BackendCommand) := match c with SetDesiredMembers _ => true | _ => false end.
Definition is_intent (c : BackendCommand) := match c with SetRunIntent _ => true | _ => false end.
Definition is_master (c : BackendCommand) := match c with SetMasterVolume _ => true | _ => false end.
Definition is_muted (c : BackendCommand) := match c with SetMuted _ => true | _ => false end.
Definition is_endpoint (c : BackendCommand) := match c with SetAudioEndpoint _ => true | _ => false end.
Definition is_latency (c : BackendCommand) := match c with SetLatencyPreset _ => true | _ => false end.
Definition is_auto (c : BackendCommand) := match c with SetAutoConnect _ => true | _ => false end.
Definition is_level (r : ReceiverId) (c : BackendCommand) :=
  match c with SetReceiverLevel r' _ => r' ==? r | _ => false end.
Definition is_stop (c : BackendCommand) :=
  match c with SetRunIntent Stopped => true | _ => false end.

(** Edges in order; a start that a later Stop overtakes is taken back. *)
Fixpoint edges_of (es : list CommandEnvelope) : list CommandEnvelope :=
  match es with
  | [] => []
  | e :: rest =>
      if is_edge (env_command e)
      then (if existsb (fun x => is_stop (env_command x)) rest then cancel_start e else e) :: edges_of rest
      else edges_of rest
  end.

Definition without_receipt (e : CommandEnvelope) : CommandEnvelope :=
  {| env_id := env_id e; env_command := env_command e; env_confirmation := None |}.

(** The receipt of the newest volume command that asked for one. *)
Definition master_receipt (es : list CommandEnvelope) : option Z :=
  last (omap (fun e => if is_master (env_command e) then env_confirmation e else None) es).

Definition drained (es : list CommandEnvelope) : PendingBatch :=
  fold_left insert_envelope es empty_batch.

Lemma drained_snoc es e : drained (es ++ [e]) = insert_envelope (drained es) e.
Proof. unfold drained. by rewrite fold_left_app. Qed.

Lemma of_slot_snoc p es e :
  of_slot p (es ++ [e]) = if p (env_command e) then Some e else of_slot p es.
Proof.
  unfold of_slot. rewrite List.filter_app. cbn. case_match; [by rewrite last_snoc|by rewrite app_nil_r].
Qed.

Lemma master_receipt_snoc es e :
  master_receipt (es ++ [e]) =
  if is_master (env_command e)
  then match env_confirmation e with Some r => Some r | None => master_receipt es end
  else master_receipt es.
Proof.
  unfold master_receipt. rewrite omap_app. cbn.
  destruct (is_master (env_command e)); [|by rewrite app_nil_r].
  destruct (env_confirmation e); [by rewrite last_snoc|by rewrite app_nil_r].
Qed.

Lemma cancel_start_twice e : cancel_start (cancel_start e) = cancel_start e.
Proof. by destruct e as [i [] r]. Qed.

Lemma edges_of_snoc es e :
  edges_of (es ++ [e]) =
  (if is_stop (env_command e) then cancel_start <$> edges_of es else edges_of es)
  ++ (if is_edge (env_command e) then [e] else []).
Proof.
  induction es as [|x es IH]; cbn.
  - destruct (is_edge (env_command e)); by destruct (is_stop (env_command e)).
  - rewrite existsb_app. cbn. rewrite orb_false_r, IH.
    destruct (is_edge (env_command x)); [|done].
    destruct (is_stop (env_command e)); cbn.
    + rewrite orb_true_r. f_equal. destruct (existsb _ es); [by rewrite cancel_start_twice|done].
    + by rewrite orb_false_r.
Qed.

(** ** The drain is the reference *)

Record coalesced (es : list CommandEnvelope) (b : PendingBatch) : Prop := {
  co_members : b_desired_members b = of_slot is_members es;
  co_intent : b_run_intent b = of_slot is_intent es;
  co_master : b_master_volume b = without_receipt <$> of_slot is_master es;
  co_receipt : b_master_receipt b = master_receipt es;
  co_muted : b_muted b = of_slot is_muted es;
  co_endpoint : b_endpoint b = of_slot is_endpoint es;
  co_latency : b_latency_preset b = of_slot is_latency es;
  co_auto : b_auto_connect b = of_slot is_auto es;
  co_levels : forall r, b_levels b !! r = of_slot (is_level r) es;
  co_edges : b_edges b = edges_of es;
}.

Lemma drain_coalesced es : coalesced es (drained es).
Proof.
  induction es as [|e es IH] using rev_ind; [by split|].
  rewrite drained_snoc. destruct IH as [H1 H2 H3 H4 H5 H6 H7 H8 H9 H10].
  unfold insert_envelope.
  destruct (env_command e) as [ | | |i| | |r l| | | | | | | | | |] eqn:Ec;
    (split; rewrite ?of_slot_snoc, ?master_receipt_snoc, ?edges_of_snoc, ?Ec; cbn;
     rewrite ?app_nil_r; try (intros r'; rewrite of_slot_snoc, Ec); cbn; try done; try by rewrite H10).
  all: try (destruct i; cbn; by rewrite ?H10).
  all: try (destruct (env_confirmation e); cbn; done).
  all: try (destruct (env_confirmation e); cbn; unfold without_receipt; by rewrite Ec).
  - destruct (decide (r = r')) as [->|Hn]; [rewrite lookup_insert_eq, bool_decide_true by done; done|].
    by rewrite lookup_insert_ne, bool_decide_false by done.
Qed.

Lemma insert_total b e : b_drained_total (insert_envelope b e) = wrap 32 (b_drained_total b + 1).
Proof.
  unfold insert_envelope. destruct (env_command e) as [ | | |[]| | | | | | | | | | | | |]; try done.
  by destruct (env_confirmation e).
Qed.

Lemma drained_total_wraps es : b_drained_total (drained es) = wrap 32 (Z.of_nat (length es)).
Proof.
  induction es as [|e es IH] using rev_ind; [done|].
  rewrite drained_snoc, insert_total, IH, length_app. cbn. unfold wrap.
  rewrite Z.add_mod_idemp_l by lia. f_equal. lia.
Qed.

Lemma held_some e : held (Some e) = 1.
Proof. done. Qed.
Lemma held_bounds o : 0 <= held o <= 1.
Proof. by destruct o. Qed.

Lemma insert_winners b e : winner_count (insert_envelope b e) <= winner_count b + 1.
Proof.
  unfold winner_count, insert_envelope.
  pose proof (held_bounds (b_desired_members b)). pose proof (held_bounds (b_run_intent b)).
  pose proof (held_bounds (b_master_volume b)). pose proof (held_bounds (b_muted b)).
  pose proof (held_bounds (b_endpoint b)). pose proof (held_bounds (b_latency_preset b)).
  pose proof (held_bounds (b_auto_connect b)).
  destruct (env_command e) as [ | | |i| | |r l| | | | | | | | | |]; cbn;
    rewrite ?length_app; cbn; try lia.
  - destruct (i ==? Stopped); cbn; rewrite ?length_fmap; lia.
  - destruct (env_confirmation e); cbn; lia.
  - assert (size (<[r := e]> (b_levels b)) <= Datatypes.S (size (b_levels b)))%nat; [|lia].
    destruct (b_levels b !! r) eqn:E.
    + rewrite map_size_insert_Some by done. lia.
    + rewrite map_size_insert_None by done. lia.
Qed.

Lemma winners_bound es : 0 <= winner_count (drained es) <= Z.of_nat (length es).
Proof.
  split.
  { unfold winner_count. pose proof held_bounds as Hh.
    pose proof (Hh (b_desired_members (drained es))). pose proof (Hh (b_run_intent (drained es))).
    pose proof (Hh (b_master_volume (drained es))). pose proof (Hh (b_muted (drained es))).
    pose proof (Hh (b_endpoint (drained es))). pose proof (Hh (b_latency_preset (drained es))).
    pose proof (Hh (b_auto_connect (drained es))). lia. }
  induction es as [|e es IH] using rev_ind; [done|].
  rewrite drained_snoc, length_app. pose proof (insert_winners (drained es) e). cbn. lia.
Qed.

(** C30: a drain is the reference.  Whatever commands one drain takes off the
    queue, in whatever order: every slot holds its last command, every
    receiver its last level, the edges are all there in arrival order with a
    start taken back when a Stop came after it, no slot or edge list holds a
    command of another kind (so no [unreachable!] is reached), and the number
    of commands reported as coalesced away is exact. *)
Theorem drain_is_reference es :
  let b := drained es in
  coalesced es b /\
  Forall (fun e => is_edge (env_command e) = false) (scalars b) /\
  Forall (fun e => is_edge (env_command e) = true) (b_edges b) /\
  (Z.of_nat (length es) < 2 ^ 32 ->
   sat_sub (b_drained_total b) (winner_count b) = Z.of_nat (length es) - winner_count b).
Proof.
  intros b. pose proof (slotted_drain es empty_batch slotted_empty) as Hs.
  split; [apply drain_coalesced|]. split; [|split].
  - pose proof (holds_scalars (fun e => is_edge (env_command e) = false)
      (b <| b_edges := [] |>)) as Hh. rewrite app_nil_r in Hh. apply Hh.
    destruct Hs as [H1 H2 H3 H4 H5 H6 H7 Hl _]. fold (drained es) in *.
    split; cbn; try (intros e He; match goal with Hx : forall e, _ = Some e -> _ |- _ =>
      destruct (Hx e He) as [? ->] end; done).
    + intros r e He. by destruct (Hl r e He) as [v ->].
    + constructor.
  - by destruct Hs.
  - intros Hlt. unfold b. rewrite drained_total_wraps, wrap_id by (unfold in_width; lia).
    pose proof (winners_bound es). unfold sat_sub. lia.
Qed.

(** ** Every edge records its outcome *)

Definition outcomes {S} (c : Controller (S := S)) := recent (sn_command_outcomes (snapshot c)).

Lemma evict_last recent ev id e : (0 < length recent)%nat -> last recent = Some (id, e) ->
  last (Backend.recent (evict_outcomes recent ev)) = Some (id, e).
Proof.
  revert ev. induction recent as [|[i x] l IH]; intros ev Hpos Hl; [cbn in *; lia|].
  cbn [evict_outcomes]. destruct (128 <? _)%nat eqn:E; [|done].
  destruct l as [|y l]; [done|]. apply IH; [cbn; lia|done].
Qed.

Lemma record_outcome_last o id e : last (recent (record_outcome o id e)) = Some (id, e).
Proof. apply evict_last; [rewrite length_app; cbn; lia|apply last_snoc]. Qed.

Section Receipts.
Context {S : Type} `{StateStore S}.
Context (lower : text -> text) (tone : nat -> bool) (uuid : nat -> Z).
Local Notation Ctrl := (Controller (S := S)).
Implicit Types c : Ctrl.

(** The newest outcome is that of command [id]. *)
Definition reported (id : Z) c : Prop := exists e, last (outcomes c) = Some (id, e).

Lemma reported_same id c c' :
  sn_command_outcomes (snapshot c') = sn_command_outcomes (snapshot c) -> reported id c -> reported id c'.
Proof. unfold reported, outcomes. by intros ->. Qed.

Lemma reported_tame id c c' : tame c c' -> reported id c -> reported id c'.
Proof. intros [_ _ _ Hs _]. apply reported_same. by rewrite Hs. Qed.

Lemma reported_publish id c : reported id c -> reported id (publish lower c).
Proof.
  apply reported_same. destruct (publish_fields lower c) as (_ & -> & _). done.
Qed.

Lemma reported_result id e c : reported id (record_result id e c).
Proof. exists e. apply record_outcome_last. Qed.

Lemma reported_complete id c : reported id (complete id c).
Proof.
  apply (reported_tame id (record_result id None c)); [|apply reported_result].
  unfold complete. etrans; [|apply tame_diagnostic]. by apply tame_emit.
Qed.

Lemma reported_fail_with_kind id m k c : reported id (fail_with_kind id m k c).
Proof.
  apply (reported_tame id (record_result id (Some k) c)); [|apply reported_result].
  unfold fail_with_kind. etrans; [|apply tame_diagnostic]. by apply tame_emit.
Qed.

Lemma reported_fail id m c : reported id (fail id m c).
Proof. apply reported_fail_with_kind. Qed.

Lemma reported_persistence_failure id c : reported id (note_persistence_failure id c).
Proof.
  unfold note_persistence_failure. eapply reported_tame; [apply tame_diagnostic|].
  apply reported_fail_with_kind.
Qed.

Lemma reported_commit id d c : reported id (run_commit lower id d c).1.
Proof.
  unfold run_commit. cbv zeta. destruct (validate lower _); [|apply reported_fail].
  destruct (v1_eqb _ _); [apply reported_complete|].
  destruct (save (store c) _) as [st [[]|e]]; cbn [fst]; apply reported_publish.
  - apply reported_complete.
  - apply reported_persistence_failure.
Qed.

Lemma reported_members id members co : reported id (apply_members lower id members co).1.
Proof.
  destruct co as [c o]. unfold apply_members. case_match; [apply reported_complete|].
  pose proof (reported_commit id {|
    dc_mutate := fun state => state <| p_last_desired_members := members |>;
    dc_announce := bump_desired members true; dc_refresh_rows := true; dc_sync_names := false |} c) as Hr.
  by destruct (run_commit lower id _ c).
Qed.

Lemma reported_profile id expected wanted clearing c :
  reported id (apply_profile lower id expected wanted clearing c).1.
Proof.
  unfold apply_profile.
  assert (Hrefuse : forall m, reported id (note_calibration_state DiagRing.CalibrationFailed (fail id m c))).
  { intros m. eapply reported_tame; [apply tame_calibration_state|apply reported_fail]. }
  repeat (case_match; [apply Hrefuse|]).
  destruct (save_calibration (store c) _) as [st [[]|why]]; cbn [fst].
  - eapply reported_tame; [apply tame_calibration_state|apply reported_complete].
  - apply reported_publish. eapply reported_tame; [apply tame_calibration_state|].
    apply reported_persistence_failure.
Qed.

Lemma reported_activate id g start c : reported id (handle_activate_group lower id g start c).1.
Proof.
  unfold handle_activate_group. destruct (List.find _ _) as [group|]; [|apply reported_fail].
  cbv zeta.
  match goal with |- context [run_commit lower id ?d c] =>
    pose proof (reported_commit id d c) as Hr; destruct (run_commit lower id d c) as [c1 outcome] end.
  cbn [fst] in Hr.
  set (c2 := if negb start && state_is_intended outcome then disarm c1 else c1).
  assert (Hr' : reported id c2) by (unfold c2; by case_match).
  clearbody c2. case_match; [|exact Hr']. cbn [fst]. apply reported_publish.
  revert Hr'. by apply reported_same.
Qed.

Lemma reported_edge now id command co :
  is_edge command = true ->
  reported id (edge_command lower tone uuid now id command co).1.
Proof.
  destruct co as [c o]. unfold edge_command.
  destruct command as [g|ms| | | | | | | | |gid name ms|gid|gid start|r|ev|k|]; intros Hedge; try done.
  - unfold run_listening_test. case_match; [apply reported_fail|].
    cbn [fst]. destruct (tone (ticks c)); [apply reported_complete|apply reported_fail].
  - apply reported_members.
  - cbn [fst]. unfold handle_save_group. repeat (case_match; [apply reported_fail|]).
    destruct gid; apply reported_commit.
  - cbn [fst]. unfold handle_delete_group. case_match; [apply reported_complete|apply reported_commit].
  - pose proof (reported_activate id gid start c) as Hr. by destruct (handle_activate_group lower id gid start c).
  - apply reported_complete.
  - apply reported_complete.
  - destruct k as [expected wanted|expected|].
    + pose proof (reported_profile id expected wanted false c) as Hr. cbn [handle_calibration] in *.
      by destruct (apply_profile lower id expected wanted false c).
    + pose proof (reported_profile id expected empty_profile true c) as Hr. cbn [handle_calibration] in *.
      by destruct (apply_profile lower id expected empty_profile true c).
    + cbn [handle_calibration fst]. unfold handle_calibration_click_test.
      case_match; [apply reported_fail|].
      destruct (click_pattern_exact CAPTURE_SAMPLE_RATE CAPTURE_CHANNELS) as (samples & -> & _); [easy|].
      apply reported_complete.
  - apply reported_complete.
Qed.

(** ** Receipts *)

Definition confirmations (l : list Output) : list Z :=
  omap (fun o => match o with OConfirm r _ => Some r | _ => None end) l.

Lemma confirmations_app l l' : confirmations (l ++ l') = confirmations l ++ confirmations l'.
Proof. apply omap_app. Qed.
Lemma confirmations_quiet l : Forall quiet l -> confirmations l = [].
Proof. induction 1 as [|o l Ho _ IH]; cbn; [done|]. by destruct o. Qed.

Definition silent (k : Kind) : Prop := k <> Answer.

Lemma prim_silent k c c' : silent k -> prim lower k c c' ->
  confirmations (out c') = confirmations (out c).
Proof.
  assert (Hnone : forall new o, Forall quiet new -> confirmations o = [] ->
    confirmations (new ++ o ++ out c) = confirmations (out c)).
  { intros new o Hq Ho. by rewrite !confirmations_app, confirmations_quiet, Ho. }
  intros Hk Hp. destruct k; cbn in Hp.
  - destruct Hp as [_ _ _ _ (new & -> & Hq)]. by apply (Hnone new []).
  - destruct Hp as [_ _ _ _ (new & -> & Hq)]. by apply (Hnone new []).
  - destruct Hp as [_ _ _ _ _ (new & -> & Hq)]. cbn. by apply (Hnone new []).
  - destruct Hp as [_ _ _ _ _ (new & -> & Hq)]. cbn. by apply (Hnone new []).
  - by subst c'.
  - by destruct Hp as [at_ ->].
  - by destruct Hp as [at_ ->].
  - by subst c'.
  - destruct Hp as [_ _ _ _ (p & new & -> & Hq & _)]. cbn. by apply (Hnone new []).
  - destruct Hp as [_ _ _ _ _ _ _ _ _ (new & Hq & ->)]. cbn. by apply (Hnone new [OSave _ true]).
  - destruct Hp as [_ _ _ _ _ (new & o & Hq & Hf & ->)]. cbn. apply (Hnone new [o]); [done|].
    by destruct o.
  - destruct Hp as [(sec & _ & _ & new & Hq & ->) _ _ _]. by apply (Hnone new [OSaveCalibration sec true]).
  - by destruct Hk.
Qed.

Lemma steps_silent c c' : steps lower silent c c' -> confirmations (out c') = confirmations (out c).
Proof.
  intros Hs. apply (steps_inv lower silent (fun x => confirmations (out x) = confirmations (out c)) c c');
    [|done|done]. intros k a b Hk Hp <-. by apply (prim_silent k).
Qed.

Lemma publish_silent c : confirmations (out (publish lower c)) = confirmations (out c).
Proof. by apply steps_silent, steps_publish. Qed.

Lemma confirm_out r e f c : confirmations (out (confirm r e f c)) = r :: confirmations (out c).
Proof. done. Qed.

(** A reported command has an outcome to answer with. *)
Lemma reported_outcome id c : reported id c -> exists e, outcome_of c id = Some e.
Proof.
  intros [e He]. unfold outcome_of. fold (outcomes c).
  destruct (List.find (fun kv => fst kv =? id) (outcomes c)) as [[i x]|] eqn:Ef; [by exists x|].
  exfalso. apply last_Some_elem_of in He. apply list_elem_of_In in He.
  pose proof (find_none _ _ Ef _ He) as Hn. cbn in Hn. lia.
Qed.

Lemma reported_durable id same d c : reported id (durable lower id same d c).1.
Proof.
  unfold durable. destruct same; [apply reported_complete|].
  pose proof (reported_commit id d c) as Hr. by destruct (run_commit lower id d c).
Qed.

Lemma scalar_silent r co e :
  command_permits any (env_command e) -> is_master (env_command e) = false ->
  confirmations (out (scalar lower r co e).1) = confirmations (out co.1).
Proof.
  intros Ht Hm. apply steps_silent. unfold scalar.
  assert (Hun : steps lower silent co.1 (unreachable co).1) by (by apply steps_book; [|internal]).
  destruct (env_command e); try exact Hun; try done.
  - by apply steps_apply_members.
  - by apply steps_run_intent.
  - by apply steps_muted.
  - by apply steps_level.
  - by apply steps_endpoint.
  - by apply steps_latency.
  - by apply steps_auto.
Qed.

Lemma scalar_master r co e v : env_command e = SetMasterVolume v -> volume_ok v ->
  confirmations (out (scalar lower r co e).1) = option_list r ++ confirmations (out co.1).
Proof.
  intros Hc Hv. unfold scalar. rewrite Hc. destruct co as [c o]. unfold batch_master_volume. cbn [fst].
  match goal with |- context [durable lower ?i ?s ?d c] =>
    pose proof (reported_durable i s d c) as Hr;
    assert (Hs : steps lower silent c (durable lower i s d c).1)
      by (apply steps_durable; try done; [apply commit_master|by apply doc_master]);
    destruct (durable lower i s d c) as [c1 changed] end.
  cbn [fst] in Hr, Hs |- *. rewrite <- (steps_silent _ _ Hs).
  destruct r as [r|]; [|done]. rewrite publish_silent.
  by destruct (reported_outcome _ _ Hr) as [x ->].
Qed.

Lemma fold_scalars_silent r es co :
  Forall (fun e => command_permits any (env_command e)) es ->
  Forall (fun e => is_master (env_command e) = false) es ->
  confirmations (out (fold_left (scalar lower r) es co).1) = confirmations (out co.1).
Proof.
  intros Ht. revert co. induction Ht as [|e es He _ IH]; intros co Hm; [done|].
  apply Forall_cons in Hm as [Hm Hms]. cbn [fold_left]. rewrite IH by done. by apply scalar_silent.
Qed.

(** ** Edges *)

Definition is_shutdown (c : BackendCommand) : bool := match c with Shutdown => true | _ => false end.

(** The edges up to a shutdown. *)
Fixpoint executed (es : list CommandEnvelope) : list CommandEnvelope :=
  match es with
  | [] => []
  | e :: rest => e :: (if is_shutdown (env_command e) then [] else executed rest)
  end.

Lemma edge_owed now id command co :
  group_starts (edge_command lower tone uuid now id command co).2 = group_starts co.2 /\
  shutdown_requested (edge_command lower tone uuid now id command co).2 =
    (shutdown_requested co.2 || is_shutdown command).
Proof.
  destruct co as [c o]. cbn [snd]. rewrite (orb_comm (shutdown_requested o)).
  unfold edge_command. destruct command; cbn [is_shutdown orb]; try done.
  - unfold apply_members. case_match; [done|].
    destruct (run_commit lower id _ c) as [c1 oc]. by destruct (applied oc).
  - destruct (handle_activate_group lower id id0 start c) as [c1 committed]. cbn [snd].
    by case_match.
  - destruct (handle_calibration lower id _ c) as [c1 restart]. cbn [snd]. by destruct restart.
Qed.

Lemma confirm_edge_receipts e co : reported (env_id e) co.1 ->
  let co' := confirm_edge lower e co in
  confirmations (out co'.1) ++ group_starts co'.2 ≡ₚ
    option_list (env_confirmation e) ++ confirmations (out co.1) ++ group_starts co.2 /\
  shutdown_requested co'.2 = shutdown_requested co.2.
Proof.
  intros Hr. unfold confirm_edge. destruct (env_confirmation e) as [r|]; [|done].
  destruct co as [c o]. cbn [fst snd] in Hr |- *. destruct (reported_outcome _ _ Hr) as [x ->].
  destruct (starts_group _ && _); cbn [fst snd]; rewrite publish_silent; split; try done.
  cbn. rewrite (Permutation_app_comm (group_starts o) [r]), Permutation_app_comm. cbn.
  by rewrite Permutation_app_comm.
Qed.

Lemma edges_receipts now es co :
  Forall (fun e => command_permits any (env_command e)) es ->
  Forall (fun e => is_edge (env_command e) = true) es -> shutdown_requested co.2 = false ->
  let co' := edges lower tone uuid now es co in
  confirmations (out co'.1) ++ group_starts co'.2 ≡ₚ
    omap env_confirmation (executed es) ++ confirmations (out co.1) ++ group_starts co.2.
Proof.
  intros Ht. revert co. induction Ht as [|e es He _ IH]; intros co Hes Hsh; [done|].
  apply Forall_cons in Hes as [Hedge Hes].
  cbn [edges executed]. set (co1 := edge_command lower tone uuid now _ _ co).
  assert (H1 : confirmations (out co1.1) = confirmations (out co.1)).
  { apply steps_silent. apply steps_edge_command; try done.
    by destruct (env_command e) as [ | | |[]| | | | | | | | |? []| |[]| |]. }
  destruct (edge_owed now (env_id e) (env_command e) co) as [H2 H3].
  pose proof (reported_edge now (env_id e) (env_command e) co Hedge) as Hr.
  fold co1 in H2, H3, Hr. clearbody co1.
  destruct (confirm_edge_receipts e co1 Hr) as [H4 H5]. rewrite H1, H2 in H4. rewrite H3, Hsh in H5.
  cbn [orb] in H5. set (co2 := confirm_edge lower e co1) in *. clearbody co2.
  rewrite H5.
  assert (Hcons : forall rest, omap env_confirmation (e :: rest) =
    option_list (env_confirmation e) ++ omap env_confirmation rest).
  { intros rest. cbn. by destruct (env_confirmation e). }
  rewrite Hcons. destruct (is_shutdown (env_command e)).
  - cbn. by rewrite app_nil_r.
  - rewrite (IH co2 Hes H5). rewrite H4. rewrite !app_assoc. f_equiv. f_equiv.
    apply Permutation_app_comm.
Qed.

Lemma fold_confirm floor l (c : Ctrl) :
  confirmations (out (fold_left (fun (c : Ctrl) r => confirm r None floor c) l c)) ≡ₚ l ++ confirmations (out c).
Proof.
  revert c. induction l as [|r l IH]; intros c; cbn [fold_left]; [done|].
  rewrite IH, confirm_out. cbn. by rewrite Permutation_middle.
Qed.

Lemma settle_receipts (co : Ctrl * Owed) :
  confirmations (out (settle_owed lower co)) ≡ₚ group_starts co.2 ++ confirmations (out co.1).
Proof.
  destruct co as [c o]. unfold settle_owed. cbn [fst snd].
  set (c1 := if volumes_changed o then _ else c).
  assert (H1 : confirmations (out c1) = confirmations (out c)).
  { apply steps_silent. apply steps_tame; [done|]. unfold c1.
    destruct (volumes_changed o); [|done]. etrans; [apply tame_remember|apply tame_forward]. }
  set (c2 := match reconcile o with Some _ => _ | None => _ end).
  assert (H2 : confirmations (out c2) = confirmations (out c1)).
  { apply steps_silent. unfold c2. destruct (reconcile o); [by apply steps_request_reconcile|done]. }
  set (c3 := if bool_decide (group_starts o = []) then c2 else _).
  assert (H3 : confirmations (out c3) ≡ₚ group_starts o ++ confirmations (out c2)).
  { unfold c3. case_bool_decide as Hg; [by rewrite Hg|]. rewrite publish_silent. apply fold_confirm. }
  clearbody c1 c2 c3. rewrite <- H1, <- H2, <- H3. case_match; [done|]. by rewrite publish_silent.
Qed.

Lemma scalar_owed r co e :
  group_starts (scalar lower r co e).2 = group_starts co.2 /\
  shutdown_requested (scalar lower r co e).2 = shutdown_requested co.2.
Proof.
  destruct co as [c o]. unfold scalar. destruct (env_command e); try done.
  - unfold apply_members. case_match; [done|].
    destruct (run_commit lower _ _ c) as [c1 oc]. by destruct (applied oc).
  - unfold batch_run_intent. by case_match.
  - unfold batch_master_volume. by destruct (durable lower _ _ _ c).
  - unfold batch_muted. by destruct (durable lower _ _ _ c).
  - unfold batch_level. by destruct (durable lower _ _ _ c).
  - unfold batch_endpoint. by destruct (durable lower _ _ _ c).
  - unfold batch_latency. destruct (disabled_reason _); [done|].
    destruct (durable lower _ _ _ c) as [c1 []]; done.
Qed.

Lemma fold_scalar_owed r es c :
  group_starts (fold_left (scalar lower r) es (c, nothing_owed)).2 = [] /\
  shutdown_requested (fold_left (scalar lower r) es (c, nothing_owed)).2 = false.
Proof.
  assert (forall co, group_starts co.2 = [] /\ shutdown_requested co.2 = false ->
    group_starts (fold_left (scalar lower r) es co).2 = [] /\
    shutdown_requested (fold_left (scalar lower r) es co).2 = false) as Hf; [|by apply Hf].
  induction es as [|e es IH]; intros co Hco; [done|]. cbn [fold_left]. apply IH.
  destruct (scalar_owed r co e) as [-> ->]. done.
Qed.

Lemma option_slot (p : BackendCommand -> Prop) o :
  (forall e, o = Some e -> p (env_command e)) -> Forall (fun e => p (env_command e)) (option_list o).
Proof. intros Ho. destruct o as [e|]; cbn; [constructor; [by apply Ho|constructor]|constructor]. Qed.

(** Among the scalars only the volume slot answers a receipt. *)
Lemma scalars_receipts b co : slotted b -> holds (fun e => command_permits any (env_command e)) b ->
  confirmations (out (fold_left (scalar lower (b_master_receipt b)) (scalars b) co).1) =
  (if is_none (b_master_volume b) then [] else option_list (b_master_receipt b))
  ++ confirmations (out co.1).
Proof.
  intros Hs Hh. pose proof (holds_scalars _ _ Hh) as [Hty _]%Forall_app.
  unfold scalars in Hty |- *.
  set (rest := option_list (b_muted b) ++ _) in *.
  assert (Hrest : Forall (fun e => is_master (env_command e) = false) rest).
  { destruct Hs as [_ _ H3 H4 H5 H6 _ Hl _]. unfold rest. rewrite !Forall_app. split_and!.
    1-4: apply (option_slot (fun k => is_master k = false)); intros e He.
    - by destruct (H3 e He) as [v ->].
    - by destruct (H4 e He) as [v ->].
    - by destruct (H5 e He) as [v ->].
    - by destruct (H6 e He) as [v ->].
    - apply Forall_forall. intros e (id & _ & Hid)%list_elem_of_omap. by destruct (Hl id e Hid) as [v ->]. }
  clearbody rest. rewrite !Forall_app in Hty. destruct Hty as (T1 & T2 & T3 & T4).
  rewrite !fold_left_app, fold_scalars_silent by done.
  assert (M1 : Forall (fun e => is_master (env_command e) = false) (option_list (b_desired_members b))).
  { apply (option_slot (fun k => is_master k = false)). intros e He. by destruct (sl_members b Hs e He) as [v ->]. }
  assert (M2 : Forall (fun e => is_master (env_command e) = false) (option_list (b_run_intent b))).
  { apply (option_slot (fun k => is_master k = false)). intros e He. by destruct (sl_intent b Hs e He) as [v ->]. }
  destruct (b_master_volume b) as [e|] eqn:Em; cbn [is_none app].
  - destruct (sl_master b Hs e Em) as [v Hv]. apply Forall_cons in T3 as [T3 _]. rewrite Hv in T3.
    change (option_list (Some e)) with [e]. cbn [fold_left]. rewrite (scalar_master _ _ e v Hv T3). by rewrite !fold_scalars_silent.
  - by rewrite !fold_scalars_silent.
Qed.

Lemma master_receipt_slot es : of_slot is_master es = None -> master_receipt es = None.
Proof.
  induction es as [|e es IH] using rev_ind; [done|].
  rewrite of_slot_snoc, master_receipt_snoc. by case_match.
Qed.

(** C27: every receipt is answered exactly once.  Whatever one drain holds, the
    receipts answered while it is processed are exactly the newest receipt
    among its volume commands and the receipts of its edges up to a shutdown,
    each once: no confirmed command is left waiting and none is answered
    twice, whichever way its handler ends. *)
Theorem receipts_answered_once now first queued c :
  typed (ECommand first queued) ->
  let es := first :: queued in
  confirmations (out (command_event lower tone uuid now first queued c).1) ≡ₚ
    option_list (master_receipt es) ++ omap env_confirmation (executed (edges_of es))
    ++ confirmations (out c).
Proof.
  intros (_ & _ & _ & _ & _ & _ & Ht) es. unfold command_event. cbv zeta.
  fold es in Ht |- *. change (fold_left insert_envelope es empty_batch) with (drained es).
  set (c1 := if _ <? _ then _ else c).
  assert (H1 : confirmations (out c1) = confirmations (out c)) by (unfold c1; by case_match).
  clearbody c1. rewrite <- H1.
  destruct (drain_coalesced es) as [_ _ Hmaster Hreceipt _ _ _ _ _ Hedges].
  assert (Hb : holds (fun e => command_permits any (env_command e)) (drained es)).
  { apply holds_drain; [|apply permits_cancel|apply holds_empty|done]. intros x y Hx _ ->. done. }
  pose proof (slotted_drain es empty_batch slotted_empty) as Hs. fold (drained es) in Hs.
  unfold process_batch. cbn [fst]. rewrite settle_receipts.
  set (co := fold_left _ _ (c1, nothing_owed)).
  assert (Hco : confirmations (out co.1) = option_list (master_receipt es) ++ confirmations (out c1)).
  { unfold co. rewrite scalars_receipts by done. cbn [fst]. f_equal.
    rewrite Hmaster, Hreceipt. destruct (of_slot is_master es) eqn:E; [done|]. cbn.
    by rewrite master_receipt_slot. }
  assert (Ho : group_starts co.2 = [] /\ shutdown_requested co.2 = false) by apply fold_scalar_owed.
  destruct Ho as [Hg Hsh]. clearbody co.
  pose proof (edges_receipts now (b_edges (drained es)) co) as He.
  rewrite Permutation_app_comm. rewrite He; [|by destruct Hb|by destruct Hs|done].
  rewrite Hg, app_nil_r, Hco, Hedges. rewrite !app_assoc. f_equiv. apply Permutation_app_comm.
Qed.

End Receipts.

(** A drain with a start, a Stop and a volume drag, each waiting for an answer. *)
Lemma receipts_answered_once_witness :
  let ask id c r := {| env_id := id; env_command := c; env_confirmation := Some r |} in
  confirmations (out (command_event (H := toy_store) id (fun _ => true) Z.of_nat 5
    (ask 1 (RetryReceiver kitchen_id) 11)
    [ask 2 (SetMasterVolume f32_one) 12; ask 3 Shutdown 13; ask 4 (DeleteGroup 7) 14] launched).1)
  ≡ₚ [12; 11; 13].
Proof.
  intros ask.
  exact (receipts_answered_once (H := toy_store) id (fun _ => true) Z.of_nat 5
    (ask 1 (RetryReceiver kitchen_id) 11)
    [ask 2 (SetMasterVolume f32_one) 12; ask 3 Shutdown 13; ask 4 (DeleteGroup 7) 14] launched
    ltac:(repeat constructor)).
Defined.

End ControllerBatch.
