(* ===== verification/ControllerRuns.v ===== *)
(** * Runs of the backend controller worth knowing

    Concrete runs of [backend/controller.rs] in which the code departs from
    what its comments say. *)

From S2P Require Import Prelude Float32 AppState Model Wire Text Features Device TxtParser Browser Recovery Discovery Inventory Calibration DiagRing Machine Supervisor Persistence Backend Controller ControllerSteps ControllerProps.
Import Model Calibration Persistence Backend Controller ControllerSteps ControllerProps.

Module ControllerRuns.

Local Notation go es c :=
  (run (H := toy_store) id (fun _ => true) Z.of_nat es c).

Definition session (u : Supervisor.SessionUpdate) : Event := ESession u.

(** The kitchen streams in generation 1, then drops out. *)
Definition streaming := start_up ++
  [(4, 4, session (Supervisor.Starting 1));
   (5, 5, session (Supervisor.Active 1 kitchen_id {[kitchen_id]} []))].

Definition row (c : Controller (S := FileStore (Bytes := StateDocument))) :=
  rs_lifecycle <$> sn_receivers (published c).

Example kitchen_streams : row (go streaming launched) = [Streaming Single].
Proof. vm_compute. reflexivity. Qed.

(** A report of a lost primary from generation 1 is not dropped although
    generation 2 has been asked for: it costs a third generation. *)
Theorem stale_primary_failure_restarts :
  let c := go (streaming ++
    [(6, 6, ECommand (command 3 (CalibrationCmd (ResetCalibration 1))) [])]) launched in
  let c' := go [(7, 7, session (Supervisor.MemberFailed 1 kitchen_id true "gone"))] c in
  generations_of c = [2; 1] /\ generations_of c' = [3; 2; 1].
Proof. vm_compute. split; reflexivity. Qed.

(** A retry asked for while playback is stopped shows the receiver as
    connecting, though no session is asked for and none will be. *)
Theorem retry_while_stopped_shows_connecting :
  let c := go (streaming ++
    [(6, 6, ECommand (command 3 (SetRunIntent Stopped)) []);
     (7, 7, session (Supervisor.MemberFailed 1 kitchen_id false "gone"));
     (8, 8, session (Supervisor.Stopped 2))]) launched in
  let c' := go [(9, 9, ECommand (command 4 (RetryReceiver kitchen_id)) [])] c in
  sn_run_intent (published c') = Stopped /\ ss_phase (sn_session (published c')) = PhStopped /\
  requests (out c') = requests (out c) /\
  row c' = [Connecting 1].
Proof. vm_compute. repeat split; reflexivity. Qed.

(** A receiver dropped from the selection while it streams keeps its place in
    the active set of the session until the next report, though its row says
    it is idle. *)
Theorem dropped_member_stays_active :
  let c := go (streaming ++
    [(6, 6, ECommand (command 3 (SetDesiredMembers ∅)) [])]) launched in
  bool_decide (kitchen_id ∈ ss_active (sn_session (published c))) = true /\ row c = [Discovered].
Proof. vm_compute. split; reflexivity. Qed.

(** The controller files under General kinds of record the feed has a category
    for; four of them are kinds it emits itself. *)
Theorem controller_categories_differ p :
  category_of p <> category_of_kind p <->
  match p with
  | ReceiverTransition _ _ | RetryScheduled _ _ _ | CalibrationStateChanged _
  | SystemTransitioned _ => True
  | DiscoveryGeneration _ _ | DiscoveryReceiver _ _ | SetupPhaseDuration _ _ _
  | CaptureTransition _ | PcmDrop _ | SilenceBridge _ | Probe _ _ | QueueWatermark _ _
  | QueueLag _ => True
  | _ => False
  end.
Proof. destruct p; cbn; split; done. Qed.

End ControllerRuns.
