(* ===== verification/ClientDiag.v ===== *)
(** * Client diagnostics

    [crates/airplay-client/src/diagnostics.rs]: the feedback counters and the
    bounded event sink of each connection, the per-connection entry that the
    connection publishes into, and the [ClientDiagnosticsSource] that joins
    the entries into one snapshot and drains their events.  The snapshot types
    of [crates/airplay-audio/src/diagnostics.rs] it carries are here too.

    An entry is shared: the connection records into it while a reader drains
    it.  Every method takes the locks it needs one after the other, so a method
    is one step on the state of the entries; an [AudioDiagnosticsSource] is a
    closure over counters, represented by what it would report now. *)

From S2P Require Import Prelude Float32 AppState Buffer Jitter TimingDiag RtpSender RtspSession.

Module ClientDiag.

(** ** Audio snapshots *)

Record RetransmitSnapshot := {
  retransmit_request_datagrams_total : Z;
  retransmit_packet_slots_requested_total : Z;
  retransmit_datagrams_accepted_local_total : Z;
  retransmit_history_misses_total : Z;
  retransmit_send_failures_total : Z;
}.
Definition default_retransmit : RetransmitSnapshot :=
  {| retransmit_request_datagrams_total := 0; retransmit_packet_slots_requested_total := 0;
     retransmit_datagrams_accepted_local_total := 0; retransmit_history_misses_total := 0;
     retransmit_send_failures_total := 0 |}.

Record CaptureQueueSnapshot := {
  cq_queued_frames : Z;
  cq_capacity_frames : Z;
  cq_submitted_frames_total : Z;
  cq_submitted_samples_per_channel_total : Z;
  cq_full_queue_drops_total : Z;
  cq_disconnected_drops_total : Z;
}.
Definition zeroed_capture_queue : CaptureQueueSnapshot :=
  {| cq_queued_frames := 0; cq_capacity_frames := 0; cq_submitted_frames_total := 0;
     cq_submitted_samples_per_channel_total := 0; cq_full_queue_drops_total := 0;
     cq_disconnected_drops_total := 0 |}.

(** [TargetTransportSnapshot] has the fields of the counters it copies. *)
Notation TargetTransportSnapshot := RtpSender.TargetTransportCounters (only parsing).

Record AudioDiagnosticsSnapshot := {
  sender_buffer : Buffer.SenderBufferSnapshot;
  capture_queue : CaptureQueueSnapshot;
  scheduler : Jitter.SchedulerJitterSnapshot;
  rtp_frames_prepared_total : Z;
  targets : list TargetTransportSnapshot;
  retransmit : RetransmitSnapshot;
}.

(** ** Feedback outcomes *)

Inductive FeedbackResultKind := Success | ProtocolFailure | TransportFailure | Timeout.
#[export] Instance FeedbackResultKind_eq_dec : EqDecision FeedbackResultKind.
Proof. solve_decision. Defined.

Record FeedbackSnapshot := {
  fb_attempts_total : Z;
  fb_successes_total : Z;
  fb_protocol_failures_total : Z;
  fb_transport_failures_total : Z;
  fb_timeouts_total : Z;
  fb_last_result : option FeedbackResultKind;
  fb_last_transaction_duration_ns : option Z;
  fb_last_success_elapsed_ns : option Z;
}.
Definition default_feedback : FeedbackSnapshot :=
  {| fb_attempts_total := 0; fb_successes_total := 0; fb_protocol_failures_total := 0;
     fb_transport_failures_total := 0; fb_timeouts_total := 0; fb_last_result := None;
     fb_last_transaction_duration_ns := None; fb_last_success_elapsed_ns := None |}.

Definition encode_result (kind : FeedbackResultKind) : Z :=
  match kind with Success => 1 | ProtocolFailure => 2 | TransportFailure => 3 | Timeout => 4 end.
Definition decode_result (code : Z) : option FeedbackResultKind :=
  match code with
  | 1 => Some Success
  | 2 => Some ProtocolFailure
  | 3 => Some TransportFailure
  | 4 => Some Timeout
  | _ => None
  end.

Record FeedbackRecorder := {
  attempts_total : Z;
  successes_total : Z;
  protocol_failures_total : Z;
  transport_failures_total : Z;
  timeouts_total : Z;
  last_result : Z;
  last_transaction_duration_ns : Z;
  has_last_transaction_duration : bool;
  last_success_elapsed_ns : Z;
  has_last_success_elapsed : bool;
}.
#[export] Instance eta_FeedbackRecorder : Eta FeedbackRecorder := fun r =>
  {| attempts_total := attempts_total r; successes_total := successes_total r;
     protocol_failures_total := protocol_failures_total r;
     transport_failures_total := transport_failures_total r;
     timeouts_total := timeouts_total r; last_result := last_result r;
     last_transaction_duration_ns := last_transaction_duration_ns r;
     has_last_transaction_duration := has_last_transaction_duration r;
     last_success_elapsed_ns := last_success_elapsed_ns r;
     has_last_success_elapsed := has_last_success_elapsed r |}.
Definition new_recorder : FeedbackRecorder :=
  {| attempts_total := 0; successes_total := 0; protocol_failures_total := 0;
     transport_failures_total := 0; timeouts_total := 0; last_result := 0;
     last_transaction_duration_ns := 0; has_last_transaction_duration := false;
     last_success_elapsed_ns := 0; has_last_success_elapsed := false |}.

Definition record_feedback (r : FeedbackRecorder) (kind : FeedbackResultKind)
    (duration_ns now_elapsed_ns : Z) : FeedbackRecorder :=
  let r := r <| attempts_total := u64_succ (attempts_total r) |> in
  let r := match kind with
           | Success => r <| successes_total := u64_succ (successes_total r) |>
                          <| last_success_elapsed_ns := now_elapsed_ns |>
                          <| has_last_success_elapsed := true |>
           | ProtocolFailure =>
               r <| protocol_failures_total := u64_succ (protocol_failures_total r) |>
           | TransportFailure =>
               r <| transport_failures_total := u64_succ (transport_failures_total r) |>
           | Timeout => r <| timeouts_total := u64_succ (timeouts_total r) |>
           end in
  r <| last_result := encode_result kind |>
    <| last_transaction_duration_ns := duration_ns |>
    <| has_last_transaction_duration := true |>.

Definition feedback_snapshot (r : FeedbackRecorder) : FeedbackSnapshot :=
  {| fb_attempts_total := attempts_total r;
     fb_successes_total := successes_total r;
     fb_protocol_failures_total := protocol_failures_total r;
     fb_transport_failures_total := transport_failures_total r;
     fb_timeouts_total := timeouts_total r;
     fb_last_result := decode_result (last_result r);
     fb_last_transaction_duration_ns :=
       if has_last_transaction_duration r then Some (last_transaction_duration_ns r) else None;
     fb_last_success_elapsed_ns :=
       if has_last_success_elapsed r then Some (last_success_elapsed_ns r) else None |}.

(** ** Errors *)

(** [airplay_core::Error]; the payload of a wrapped error is its display
    text. *)
Inductive CoreError :=
| EDiscovery (shown : string)
| EConnection (shown : string)
| EPairing (shown : string)
| ERtsp (shown : string)
| EStreaming (shown : string)
| ECrypto (shown : string)
| EParse (shown : string)
| EUnsupportedFeature (feature : string)
| EMfiRequired
| ETimeout.

Definition error_to_string (e : CoreError) : string :=
  match e with
  | EDiscovery s => "Discovery error: " +:+ s
  | EConnection s => "Connection error: " +:+ s
  | EPairing s => "Pairing error: " +:+ s
  | ERtsp s => "RTSP error: " +:+ s
  | EStreaming s => "Streaming error: " +:+ s
  | ECrypto s => "Crypto error: " +:+ s
  | EParse s => "Parse error: " +:+ s
  | EUnsupportedFeature f => "Device does not support required feature: " +:+ f
  | EMfiRequired =>
      "Device requires MFi authentication (not implementable without Apple hardware)"
  | ETimeout => "Operation timed out"
  end.

Definition classify_feedback_error (err : CoreError) : FeedbackResultKind :=
  match err with
  | EConnection _ => TransportFailure
  | ETimeout => Timeout
  | _ => ProtocolFailure
  end.

Inductive ClientDiagnosticErrorKind :=
| KindProtocolFailure | KindTransportFailure | KindTimeout | KindOther.
Record ClientDiagnosticError := {
  ce_kind : ClientDiagnosticErrorKind;
  ce_public_message : string;
}.

Definition from_core_error (err : CoreError) : ClientDiagnosticError :=
  {| ce_kind := match err with
                | EConnection _ => KindTransportFailure
                | ETimeout => KindTimeout
                | EDiscovery _ => KindOther
                | _ => KindProtocolFailure
                end;
     ce_public_message := error_to_string err |}.

Definition from_feedback_kind (kind : FeedbackResultKind) (context : string)
  : ClientDiagnosticError :=
  match kind with
  | Success => {| ce_kind := KindOther; ce_public_message := context +:+ ": succeeded" |}
  | ProtocolFailure =>
      {| ce_kind := KindProtocolFailure; ce_public_message := context +:+ " failed" |}
  | TransportFailure =>
      {| ce_kind := KindTransportFailure; ce_public_message := context +:+ " failed" |}
  | Timeout => {| ce_kind := KindTimeout; ce_public_message := context +:+ " failed" |}
  end.

Inductive ClientTimingRole := Single | PtpPrimary | PtpSecondary.
Inductive ClientDiagnosticKind := KFeedback | KSetupFailure | KRuntimeWarning.

Record ClientDiagnosticEvent := {
  ev_elapsed_ns : Z;
  ev_seq : Z;
  ev_device_id : option DeviceId;
  ev_kind : ClientDiagnosticKind;
}.

(** ** The bounded event sink of a connection *)

Definition EVENT_RING_CAPACITY : nat := 256.

Record EventSink := {
  ring : list (ClientDiagnosticEvent * Z);
  next_seq : Z;
  overflow_dropped_total : Z;
}.
#[export] Instance eta_EventSink : Eta EventSink := fun s =>
  {| ring := ring s; next_seq := next_seq s; overflow_dropped_total := overflow_dropped_total s |}.
Definition new_sink : EventSink := {| ring := []; next_seq := 0; overflow_dropped_total := 0 |}.

(** [while ring.len() >= EVENT_RING_CAPACITY { ring.pop_front(); .. }] *)
Fixpoint make_room {A} (ring : list A) (dropped : Z) : list A * Z :=
  match ring with
  | [] => ([], dropped)
  | _ :: rest =>
      if (EVENT_RING_CAPACITY <=? length ring)%nat then make_room rest (u64_succ dropped)
      else (ring, dropped)
  end.

Definition sink_record (s : EventSink) (now : Z) (device_id : option DeviceId)
    (kind : ClientDiagnosticKind) : EventSink :=
  let seq := next_seq s in
  let event := {| ev_elapsed_ns := now; ev_seq := seq; ev_device_id := device_id;
                  ev_kind := kind |} in
  let '(kept, dropped) := make_room (ring s) (overflow_dropped_total s) in
  {| ring := kept ++ [(event, seq)]; next_seq := u64_succ seq; overflow_dropped_total := dropped |}.

Definition take_all (s : EventSink) : EventSink * list (ClientDiagnosticEvent * Z) :=
  (s <| ring := [] |>, ring s).
Definition restore (s : EventSink) (items : list (ClientDiagnosticEvent * Z)) : EventSink :=
  s <| ring := ring s ++ items |>.

(** ** The entry of a connection *)

Inductive PlaybackState := PbStopped | PbPlaying | PbPaused | PbBuffering | PbError.

Record ConnectionLiveState := {
  rtsp_state : RtspSession.SessionState;
  playback_state : PlaybackState;
  timing_role : ClientTimingRole;
  timing_reference : TimingDiag.TimingReferenceKind;
}.
#[export] Instance eta_ConnectionLiveState : Eta ConnectionLiveState := fun l =>
  {| rtsp_state := rtsp_state l; playback_state := playback_state l;
     timing_role := timing_role l; timing_reference := timing_reference l |}.

Record EntryShared := {
  device_id : DeviceId;
  target_index : option Z;
  live_state : ConnectionLiveState;
  feedback : FeedbackRecorder;
  last_error : option ClientDiagnosticError;
  streamer_audio : option AudioDiagnosticsSnapshot;
  sink : EventSink;
}.
#[export] Instance eta_EntryShared : Eta EntryShared := fun e =>
  {| device_id := device_id e; target_index := target_index e; live_state := live_state e;
     feedback := feedback e; last_error := last_error e; streamer_audio := streamer_audio e;
     sink := sink e |}.

Definition new_entry (device_id : DeviceId) : EntryShared :=
  {| device_id := device_id;
     target_index := None;
     live_state := {| rtsp_state := RtspSession.Disconnected; playback_state := PbStopped;
                      timing_role := Single; timing_reference := TimingDiag.SenderReference |};
     feedback := new_recorder; last_error := None; streamer_audio := None; sink := new_sink |}.

Definition publish_live_state (e : EntryShared) (rtsp : RtspSession.SessionState)
    (playback : PlaybackState) : EntryShared :=
  e <| live_state := (live_state e) <| rtsp_state := rtsp |> <| playback_state := playback |> |>.
Definition set_timing_role (e : EntryShared) (role : ClientTimingRole)
    (reference : TimingDiag.TimingReferenceKind) : EntryShared :=
  e <| live_state := (live_state e) <| timing_role := role |> <| timing_reference := reference |> |>.
Definition set_sender_target_index (e : EntryShared) (index : Z) : EntryShared :=
  e <| target_index := Some index |>.
Definition set_streamer_audio_source (e : EntryShared) (source : AudioDiagnosticsSnapshot)
  : EntryShared :=
  e <| streamer_audio := Some source |>.

(** [record_feedback_result]; [duration] is in nanoseconds, [recorded] and
    [stamped] are the two readings of the process clock. *)
Definition record_feedback_result (e : EntryShared) (kind : FeedbackResultKind)
    (duration recorded stamped : Z) : EntryShared :=
  let e := e <| feedback := record_feedback (feedback e) kind (Z.min duration (2 ^ 64 - 1)) recorded |> in
  let e := e <| sink := sink_record (sink e) stamped (Some (device_id e)) KFeedback |> in
  match kind with
  | Success => e
  | _ => e <| last_error := Some (from_feedback_kind kind "Feedback") |>
  end.

Definition record_setup_failure (e : EntryShared) (err : CoreError) (now : Z) : EntryShared :=
  e <| last_error := Some (from_core_error err) |>
    <| sink := sink_record (sink e) now (Some (device_id e)) KSetupFailure |>.

Definition record_runtime_warning (e : EntryShared) (now : Z) : EntryShared :=
  e <| sink := sink_record (sink e) now (Some (device_id e)) KRuntimeWarning |>.

Definition transport_snapshot (e : EntryShared)
    (joined_targets : option (list TargetTransportSnapshot)) : TargetTransportSnapshot :=
  let index := Z.to_nat (default 0 (target_index e)) in
  match streamer_audio e with
  | Some audio => default RtpSender.new_counters (targets audio !! index)
  | None =>
      match joined_targets with
      | Some targets => default RtpSender.new_counters (targets !! index)
      | None => RtpSender.new_counters
      end
  end.

(** ** Snapshots *)

Record ConnectionDiagnosticsSnapshot := {
  cd_device_id : DeviceId;
  cd_sender_target_index : option Z;
  cd_rtsp_state : RtspSession.SessionState;
  cd_playback_state : PlaybackState;
  cd_timing_role : ClientTimingRole;
  cd_timing : TimingDiag.TimingDiagnosticsSnapshot;
  cd_transport : TargetTransportSnapshot;
  cd_retransmit : RetransmitSnapshot;
  cd_feedback : FeedbackSnapshot;
  cd_last_error : option ClientDiagnosticError;
}.

Definition entry_snapshot (joined_targets : option (list TargetTransportSnapshot))
    (e : EntryShared) : ConnectionDiagnosticsSnapshot :=
  let live := live_state e in
  {| cd_device_id := device_id e;
     cd_sender_target_index := target_index e;
     cd_rtsp_state := rtsp_state live;
     cd_playback_state := playback_state live;
     cd_timing_role := timing_role live;
     cd_timing :=
       {| TimingDiag.ts_reference := timing_reference live; TimingDiag.ts_latest := None;
          TimingDiag.ts_sample_age_ns := None; TimingDiag.ts_stale := false;
          TimingDiag.ts_drift := None |};
     cd_transport := transport_snapshot e joined_targets;
     cd_retransmit := default_retransmit;
     cd_feedback := feedback_snapshot (feedback e);
     cd_last_error := last_error e |}.

Record ClientDiagnosticsSnapshot := {
  captured_elapsed_ns : Z;
  client_audio : option AudioDiagnosticsSnapshot;
  connections : list ConnectionDiagnosticsSnapshot;
  client_events_dropped_total : Z;
}.

(** [Inner]; nothing ever adds to its drop counter. *)
Record ClientDiagnosticsSource := {
  entries : list EntryShared;
  source_audio : option AudioDiagnosticsSnapshot;
  source_events_dropped_total : Z;
}.
#[export] Instance eta_ClientDiagnosticsSource : Eta ClientDiagnosticsSource := fun s =>
  {| entries := entries s; source_audio := source_audio s;
     source_events_dropped_total := source_events_dropped_total s |}.

Definition from_parts (entries : list EntryShared) (audio : option AudioDiagnosticsSnapshot)
  : ClientDiagnosticsSource :=
  {| entries := entries; source_audio := audio; source_events_dropped_total := 0 |}.

Definition by_device (a b : ConnectionDiagnosticsSnapshot) : bool :=
  device_leb (cd_device_id a) (cd_device_id b).

Definition source_snapshot (s : ClientDiagnosticsSource) (now_elapsed_ns : Z)
  : ClientDiagnosticsSnapshot :=
  let joined_targets := targets <$> source_audio s in
  {| captured_elapsed_ns := now_elapsed_ns;
     client_audio := source_audio s;
     connections := isort by_device (entry_snapshot joined_targets <$> entries s);
     client_events_dropped_total := source_events_dropped_total s |}.

(** ** Draining *)

(** [(elapsed_ns, seq, sink index, event)] *)
Record Pooled := MkPooled { po_elapsed : Z; po_seq : Z; po_index : nat; po_event : ClientDiagnosticEvent }.

Definition pool_of (index : nat) (e : EntryShared) : list Pooled :=
  (fun '(event, seq) => MkPooled (ev_elapsed_ns event) seq index event) <$> ring (sink e).
Definition pooled (es : list EntryShared) : list Pooled := concat (imap pool_of es).

(** The key [(elapsed, seq)]; the order of equal keys, which only two sinks
    can produce, is not specified by [sort_unstable_by_key]. *)
Definition pooled_leb (a b : Pooled) : bool :=
  (po_elapsed a <? po_elapsed b) || ((po_elapsed a =? po_elapsed b) && (po_seq a <=? po_seq b)).

Definition emptied (e : EntryShared) : EntryShared := e <| sink := fst (take_all (sink e)) |>.
Definition rest_of (index : nat) (remainder : list Pooled) : list (ClientDiagnosticEvent * Z) :=
  (fun p => (po_event p, po_seq p)) <$> List.filter (fun p => po_index p =? index)%nat remainder.
Definition give_back (remainder : list Pooled) (index : nat) (e : EntryShared) : EntryShared :=
  e <| sink := restore (sink e) (rest_of index remainder) |>.

(** [drain_events] while no connection records; [reader_step] below is the same
    code one lock at a time. *)
Definition drain_events (s : ClientDiagnosticsSource) (limit : nat)
  : ClientDiagnosticsSource * list ClientDiagnosticEvent :=
  match entries s, limit with
  | [], _ | _, O => (s, [])
  | es, _ =>
      let sorted := isort pooled_leb (pooled es) in
      (s <| entries := imap (give_back (drop limit sorted)) (emptied <$> es) |>,
       po_event <$> take limit sorted)
  end.

(** ** Accounting

    What waits in the sinks, and how many events each sink has evicted. *)

Definition waiting (es : list EntryShared) : list ClientDiagnosticEvent :=
  es ≫= fun e => fst <$> ring (sink e).
Definition overflowed (es : list EntryShared) : Z :=
  foldr Z.add 0 ((fun e => overflow_dropped_total (sink e)) <$> es).
Definition sinks_bounded (es : list EntryShared) : Prop :=
  Forall (fun e => (length (ring (sink e)) <= EVENT_RING_CAPACITY)%nat) es.

Lemma pooled_snoc es e : pooled (es ++ [e]) = pooled es ++ pool_of (length es) e.
Proof.
  unfold pooled. rewrite imap_app, concat_app. cbn. rewrite Nat.add_0_r. by rewrite app_nil_r.
Qed.

Lemma waiting_snoc es e : waiting (es ++ [e]) = waiting es ++ (fst <$> ring (sink e)).
Proof. unfold waiting. rewrite bind_app. cbn. by rewrite app_nil_r. Qed.

Lemma waiting_pooled es : waiting es = po_event <$> pooled es.
Proof.
  induction es as [|e es IH] using rev_ind; [done|].
  rewrite waiting_snoc, pooled_snoc, fmap_app, IH. f_equal. unfold pool_of.
  rewrite <- list_fmap_compose. apply list_fmap_ext. by intros ? [].
Qed.

(** A pooled event knows its sink and its key. *)
Definition pool_ok (n : nat) (p : Pooled) : Prop :=
  (po_index p < n)%nat /\ po_elapsed p = ev_elapsed_ns (po_event p).

Lemma pooled_ok es : Forall (pool_ok (length es)) (pooled es).
Proof.
  induction es as [|e es IH] using rev_ind; [constructor|].
  rewrite pooled_snoc, length_app. cbn. apply Forall_app. split.
  - eapply Forall_impl; [exact IH|]. intros p [? ?]. split; [lia|done].
  - apply Forall_fmap, Forall_true. intros []. split; cbn; [lia|done].
Qed.

Lemma filter_split_eq (n : nat) (R : list Pooled) :
  Forall (pool_ok (S n)) R ->
  List.filter (fun p => po_index p <? n)%nat R ++ List.filter (fun p => po_index p =? n)%nat R ≡ₚ R.
Proof.
  induction 1 as [|p R [Hp _] _ IH]; [done|]. cbn [List.filter].
  destruct (Nat.ltb_spec (po_index p) n); destruct (Nat.eqb_spec (po_index p) n); try lia.
  - rewrite <- app_comm_cons. by rewrite IH.
  - rewrite <- Permutation_middle. by rewrite IH.
Qed.

Lemma filter_filter_index n i (R : list Pooled) :
  (i < n)%nat ->
  List.filter (fun p => po_index p =? i)%nat (List.filter (fun p => po_index p <? n)%nat R)
  = List.filter (fun p => po_index p =? i)%nat R.
Proof.
  intros Hi. induction R as [|p R IH]; [done|]. cbn [List.filter].
  destruct (Nat.ltb_spec (po_index p) n); cbn [List.filter]; rewrite IH; [done|].
  destruct (Nat.eqb_spec (po_index p) i); [lia|done].
Qed.

Lemma pool_of_given_back R i e :
  Forall (fun p => po_elapsed p = ev_elapsed_ns (po_event p)) R ->
  pool_of i (give_back R i (emptied e)) = List.filter (fun p => po_index p =? i)%nat R.
Proof.
  intros HR. unfold pool_of, give_back, rest_of, restore, emptied. cbn.
  induction HR as [|p R Hp _ IH]; [done|]. cbn.
  destruct (Nat.eqb_spec (po_index p) i) as [<-|]; [|done]. cbn. rewrite IH. f_equal.
  destruct p. cbn in *. by subst.
Qed.

Lemma pooled_given_back es R :
  Forall (pool_ok (length es)) R -> pooled (imap (give_back R) (emptied <$> es)) ≡ₚ R.
Proof.
  revert R. induction es as [|e es IH] using rev_ind; intros R HR.
  - destruct HR as [|p R [Hp _] _]; [done|]. cbn in Hp. lia.
  - rewrite length_app in HR. cbn in HR. rewrite Nat.add_1_r in HR.
    rewrite fmap_app, imap_app. cbn [fmap list_fmap imap]. rewrite pooled_snoc.
    unfold compose. cbn beta.
    rewrite length_imap, !length_fmap, Nat.add_0_r, pool_of_given_back
      by (eapply Forall_impl; [exact HR|]; intros ? []; done).
    rewrite <- (filter_split_eq (length es) R) at 3 by done. f_equiv.
    rewrite <- (IH (List.filter (fun p => po_index p <? length es)%nat R)).
    + apply reflexive_eq. f_equal. apply imap_ext. intros i x Hx.
      apply lookup_lt_Some in Hx. rewrite length_fmap in Hx.
      unfold give_back, rest_of. by rewrite filter_filter_index.
    + apply Forall_forall. intros p Hp. apply list_elem_of_In, filter_In in Hp as [Hp Hi].
      apply Nat.ltb_lt in Hi. split; [done|].
      rewrite Forall_forall in HR. by apply HR, list_elem_of_In.
Qed.

Definition drain_order (s : ClientDiagnosticsSource) : list Pooled :=
  isort pooled_leb (pooled (entries s)).

Lemma drain_eq s limit :
  (0 < limit)%nat ->
  drain_events s limit
  = (s <| entries := imap (give_back (drop limit (drain_order s))) (emptied <$> entries s) |>,
     po_event <$> take limit (drain_order s)).
Proof.
  intros Hl. unfold drain_events, drain_order. destruct s as [es audio dropped]. cbn [entries].
  destruct limit as [|limit]; [lia|]. by destruct es.
Qed.

Lemma drain_zero s : drain_events s 0 = (s, []).
Proof. unfold drain_events. by destruct (entries s). Qed.

(** Nothing is lost or delivered twice by a drain, and what it returns comes
    first in the order of [(elapsed, seq)]. *)
Lemma drain_conserves s limit s' drained :
  drain_events s limit = (s', drained) -> drained ++ waiting (entries s') ≡ₚ waiting (entries s).
Proof.
  destruct limit as [|limit].
  { rewrite drain_zero. by intros [= <- <-]. }
  rewrite drain_eq by lia. intros Hd. apply pair_equal_spec in Hd as [<- <-].
  rewrite !waiting_pooled. cbn [entries upd]. rewrite pooled_given_back.
  - rewrite <- fmap_app, take_drop. unfold drain_order. by rewrite (isort_perm pooled_leb).
  - apply Forall_drop. unfold drain_order. rewrite (isort_perm pooled_leb). apply pooled_ok.
Qed.

Lemma drain_overflowed s limit s' drained :
  drain_events s limit = (s', drained) -> overflowed (entries s') = overflowed (entries s).
Proof.
  destruct limit as [|limit].
  { rewrite drain_zero. by intros [= <- <-]. }
  rewrite drain_eq by lia. intros Hd. apply pair_equal_spec in Hd as [<- <-].
  unfold overflowed. cbn [entries upd]. f_equal.
  generalize (drop (S limit) (drain_order s)). intros R.
  apply list_eq. intros i. rewrite !list_lookup_fmap, list_lookup_imap, list_lookup_fmap.
  by destruct (entries s !! i).
Qed.

Lemma pool_events i e : po_event <$> pool_of i e = fst <$> ring (sink e).
Proof. unfold pool_of. rewrite <- list_fmap_compose. apply list_fmap_ext. by intros ? []. Qed.

Lemma filter_all (R : list Pooled) : List.filter (fun p => 0 <=? po_index p)%nat R = R.
Proof. induction R as [|p R IH]; [done|]. cbn. by f_equal. Qed.

Lemma filter_none {A} (f : A -> bool) l : Forall (fun x => f x = false) l -> List.filter f l = [].
Proof. induction 1 as [|x l Hx _ IH]; [done|]. cbn. by rewrite Hx. Qed.

Lemma filter_from i (R : list Pooled) :
  List.filter (fun p => po_index p =? i)%nat R ++ List.filter (fun p => S i <=? po_index p)%nat R
  ≡ₚ List.filter (fun p => i <=? po_index p)%nat R.
Proof.
  induction R as [|p R IH]; [done|]. cbn [List.filter].
  destruct (Nat.eqb_spec (po_index p) i), (Nat.leb_spec (S i) (po_index p)),
    (Nat.leb_spec i (po_index p)); try lia; rewrite <- IH; [done| |done].
  by rewrite <- Permutation_middle.
Qed.

(** ** Recording and draining, interleaved *)

(** What a connection does to its entry. *)
Inductive EntryOp :=
| Feedback (kind : FeedbackResultKind) (duration recorded stamped : Z)
| SetupFailure (err : CoreError) (now : Z)
| RuntimeWarning (now : Z)
| LiveState (rtsp : RtspSession.SessionState) (playback : PlaybackState)
| TimingRole (role : ClientTimingRole) (reference : TimingDiag.TimingReferenceKind)
| TargetIndex (index : Z)
| StreamerAudio (source : AudioDiagnosticsSnapshot).

Definition apply_entry (op : EntryOp) (e : EntryShared) : EntryShared :=
  match op with
  | Feedback kind duration recorded stamped => record_feedback_result e kind duration recorded stamped
  | SetupFailure err now => record_setup_failure e err now
  | RuntimeWarning now => record_runtime_warning e now
  | LiveState rtsp playback => publish_live_state e rtsp playback
  | TimingRole role reference => set_timing_role e role reference
  | TargetIndex index => set_sender_target_index e index
  | StreamerAudio source => set_streamer_audio_source e source
  end.

(** The event an operation records, if it records one. *)
Definition event_of (op : EntryOp) (e : EntryShared) : list ClientDiagnosticEvent :=
  let event now kind := [{| ev_elapsed_ns := now; ev_seq := next_seq (sink e);
                            ev_device_id := Some (device_id e); ev_kind := kind |}] in
  match op with
  | Feedback _ _ _ stamped => event stamped KFeedback
  | SetupFailure _ now => event now KSetupFailure
  | RuntimeWarning now => event now KRuntimeWarning
  | _ => []
  end.

(** [drain_events] between two of its locks: it empties the sinks one after
    the other, sorts and splits what it has, and gives the remainder back sink
    after sink; each sink is locked only while it is emptied or refilled. *)
Inductive Reader :=
| Resting
| Taking (next : nat) (pool : list Pooled) (limit : nat)
| GivingBack (next : nat) (drained : list ClientDiagnosticEvent) (remainder : list Pooled).

Inductive SourceOp := On (index : nat) (op : EntryOp) | BeginDrain (limit : nat) | Advance.

(** The source and its reader; what was recorded, what drains have returned,
    and what records have pushed out of a ring, each with the number of events
    the ring held at that moment. *)
Record Ledger := MkLedger {
  source : ClientDiagnosticsSource;
  reader : Reader;
  recorded : list ClientDiagnosticEvent;
  delivered : list ClientDiagnosticEvent;
  evicted : list (nat * ClientDiagnosticEvent) }.

(** What went from the front of a ring while one event was appended. *)
Definition popped (before after : list (ClientDiagnosticEvent * Z))
  : list (nat * ClientDiagnosticEvent) :=
  imap (fun i x => (length before - i, fst x)%nat) (take (S (length before) - length after) before).

Definition reader_step (es : list EntryShared) (r : Reader)
  : list EntryShared * Reader * list ClientDiagnosticEvent :=
  match r with
  | Resting => (es, Resting, [])
  | Taking i pool limit =>
      match es !! i with
      | Some e => (alter emptied i es, Taking (S i) (pool ++ pool_of i e) limit, [])
      | None =>
          let sorted := isort pooled_leb pool in
          (es, GivingBack 0 (po_event <$> take limit sorted) (drop limit sorted), [])
      end
  | GivingBack i drained remainder =>
      match es !! i with
      | Some e => (alter (give_back remainder i) i es, GivingBack (S i) drained remainder, [])
      | None => (es, Resting, drained)
      end
  end.

Definition begin_drain (es : list EntryShared) (limit : nat) (r : Reader) : Reader :=
  match r, es, limit with
  | Resting, _ :: _, S _ => Taking 0 [] limit
  | _, _, _ => r
  end.

Definition step (l : Ledger) (op : SourceOp) : Ledger :=
  let es := entries (source l) in
  match op with
  | On i op =>
      match es !! i with
      | None => l
      | Some e =>
          let e' := apply_entry op e in
          MkLedger ((source l) <| entries := alter (apply_entry op) i es |>) (reader l)
            (recorded l ++ event_of op e) (delivered l)
            (evicted l ++ match event_of op e with
                          | [] => []
                          | _ => popped (ring (sink e)) (ring (sink e'))
                          end)
      end
  | BeginDrain limit =>
      MkLedger (source l) (begin_drain es limit (reader l)) (recorded l) (delivered l) (evicted l)
  | Advance =>
      let '(es, r, events) := reader_step es (reader l) in
      MkLedger ((source l) <| entries := es |>) r (recorded l) (delivered l ++ events) (evicted l)
  end.

Definition ledger_run (s : ClientDiagnosticsSource) (ops : list SourceOp) : Ledger :=
  fold_left step ops (MkLedger s Resting [] [] []).

(** What the reader has in its hands. *)
Definition held (r : Reader) : list ClientDiagnosticEvent :=
  match r with
  | Resting => []
  | Taking _ pool _ => po_event <$> pool
  | GivingBack i drained remainder =>
      drained ++ (po_event <$> List.filter (fun p => i <=? po_index p)%nat remainder)
  end.

Lemma make_room_spec {A} (r : list A) d kept d' :
  make_room r d = (kept, d') -> 0 <= d -> d + Z.of_nat (length r) < 2 ^ 64 ->
  exists gone, r = gone ++ kept /\ d' = d + Z.of_nat (length gone).
Proof.
  revert d. induction r as [|x r IH]; intros d; cbn [make_room].
  { intros [= <- <-] _ _. exists []. cbn. split; [done|lia]. }
  destruct (_ <=? _)%nat eqn:E.
  - intros Hm H1 H2. cbn [length] in H2. rewrite u64_succ_no_overflow in Hm by lia.
    destruct (IH _ Hm) as (gone & -> & ->); [lia..|]. exists (x :: gone). cbn. split; [done|lia].
  - intros [= <- <-] _ _. exists []. cbn. split; [done|lia].
Qed.

Lemma make_room_kept {A} (r : list A) d kept d' :
  make_room r d = (kept, d') -> exists gone, r = gone ++ kept.
Proof.
  revert d. induction r as [|x r IH]; intros d; cbn [make_room].
  { intros [= <- <-]. by exists []. }
  destruct (_ <=? _)%nat; [|by intros [= <- <-]; exists []].
  intros Hm. destruct (IH _ Hm) as (gone & ->). by exists (x :: gone).
Qed.

Lemma make_room_bound {A} (r : list A) d kept d' :
  make_room r d = (kept, d') -> (length kept < EVENT_RING_CAPACITY)%nat.
Proof.
  revert d. induction r as [|x r IH]; intros d; cbn [make_room].
  { intros [= <- <-]. unfold EVENT_RING_CAPACITY. cbn. lia. }
  destruct (_ <=? _)%nat eqn:E; [apply IH|]. apply Nat.leb_gt in E. by intros [= <- <-].
Qed.

(** What is popped leaves a ring one short of full behind it. *)
Lemma make_room_full {A} (r : list A) d kept d' :
  make_room r d = (kept, d') ->
  length kept = length r \/ S (length kept) = EVENT_RING_CAPACITY.
Proof.
  revert d. induction r as [|x r IH]; intros d; cbn [make_room].
  { intros [= <- <-]. by left. }
  destruct (_ <=? _)%nat eqn:E; [|intros [= <- <-]; by left].
  intros Hm. right. apply Nat.leb_le in E. cbn [length] in E. pose proof (make_room_bound _ _ _ _ Hm).
  destruct (IH _ Hm); lia.
Qed.

Lemma popped_gone gone kept x :
  popped (gone ++ kept) (kept ++ [x])
  = imap (fun i y => (length (gone ++ kept) - i, fst y)%nat) gone.
Proof.
  unfold popped. f_equal. rewrite !length_app. cbn [length].
  replace (S (length gone + length kept) - (length kept + 1))%nat with (length gone) by lia.
  apply take_app_length.
Qed.

(** Recording appends one event; it pops from the front only while the ring is
    full, and counts what it pops. *)
Lemma sink_record_spec s now dev kind :
  let s' := sink_record s now dev kind in
  let out := popped (ring s) (ring s') in
  (fst <$> ring s) ++ [{| ev_elapsed_ns := now; ev_seq := next_seq s; ev_device_id := dev;
                          ev_kind := kind |}]
  = (snd <$> out) ++ (fst <$> ring s') /\
  Forall (fun x => EVENT_RING_CAPACITY <= fst x)%nat out /\
  (0 <= overflow_dropped_total s ->
   overflow_dropped_total s + Z.of_nat (length (ring s)) < 2 ^ 64 ->
   overflow_dropped_total s' = overflow_dropped_total s + Z.of_nat (length out)).
Proof.
  cbn zeta. unfold sink_record. destruct (make_room _ _) as [kept d'] eqn:Em.
  cbn [ring overflow_dropped_total].
  destruct (make_room_kept _ _ _ _ Em) as (gone & Hg).
  pose proof (make_room_full _ _ _ _ Em) as Hfull. rewrite Hg, length_app in Hfull.
  rewrite Hg, popped_gone, !fmap_app. split; [|split].
  - rewrite fmap_imap, <- app_assoc. by setoid_rewrite (imap_const fst gone).
  - apply Forall_lookup. intros i [n y] Hi. rewrite list_lookup_imap in Hi.
    apply fmap_Some in Hi as (z & Hz & [= -> _]). apply lookup_lt_Some in Hz. cbn [fst].
    rewrite length_app. destruct Hfull; lia.
  - intros H1 H2. rewrite <- Hg in H2. destruct (make_room_spec _ _ _ _ Em) as (gone' & Hg' & ->); [lia..|].
    rewrite length_imap. rewrite Hg in Hg'. apply app_inv_tail in Hg' as ->. done.
Qed.

Definition pushed_out (op : EntryOp) (e : EntryShared) : list (nat * ClientDiagnosticEvent) :=
  match event_of op e with
  | [] => []
  | _ => popped (ring (sink e)) (ring (sink (apply_entry op e)))
  end.

Lemma apply_entry_spec op e :
  (fst <$> ring (sink e)) ++ event_of op e
  = (snd <$> pushed_out op e) ++ (fst <$> ring (sink (apply_entry op e))) /\
  Forall (fun x => EVENT_RING_CAPACITY <= fst x)%nat (pushed_out op e) /\
  (0 <= overflow_dropped_total (sink e) ->
   overflow_dropped_total (sink e) + Z.of_nat (length (ring (sink e))) < 2 ^ 64 ->
   overflow_dropped_total (sink (apply_entry op e))
   = overflow_dropped_total (sink e) + Z.of_nat (length (pushed_out op e))).
Proof.
  destruct op as [kind d r t|err now|now| | | |]; unfold pushed_out; cbn [event_of].
  1: { replace (sink (apply_entry (Feedback kind d r t) e))
         with (sink_record (sink e) t (Some (device_id e)) KFeedback) by (by destruct kind).
       apply sink_record_spec. }
  1, 2: apply sink_record_spec.
  all: cbn; rewrite app_nil_r; (split; [done|]); (split; [constructor|]); lia.
Qed.

Lemma waiting_middle l1 e l2 :
  waiting (l1 ++ e :: l2) = waiting l1 ++ (fst <$> ring (sink e)) ++ waiting l2.
Proof. unfold waiting. by rewrite bind_app. Qed.

Lemma overflowed_middle l1 e l2 :
  overflowed (l1 ++ e :: l2) = overflow_dropped_total (sink e) + overflowed (l1 ++ l2).
Proof.
  unfold overflowed. rewrite !fmap_app, fmap_cons, !foldr_app. cbn.
  induction (_ <$> l1) as [|x xs IH]; cbn; lia.
Qed.

Lemma overflowed_nonneg es :
  Forall (fun e => 0 <= overflow_dropped_total (sink e)) es -> 0 <= overflowed es.
Proof. unfold overflowed. induction 1; cbn; lia. Qed.

Lemma make_room_nonneg {A} (r : list A) d kept d' : make_room r d = (kept, d') -> 0 <= d -> 0 <= d'.
Proof.
  revert d. induction r as [|x r IH]; intros d; cbn [make_room]; [by intros [= <- <-]|].
  destruct (_ <=? _)%nat; [|by intros [= <- <-]].
  intros Hm _. apply (IH _ Hm). apply wrap_bound. lia.
Qed.

Lemma apply_entry_nonneg op e :
  0 <= overflow_dropped_total (sink e) -> 0 <= overflow_dropped_total (sink (apply_entry op e)).
Proof.
  assert (forall now kind, 0 <= overflow_dropped_total (sink e) ->
    0 <= overflow_dropped_total (sink_record (sink e) now (Some (device_id e)) kind)) as H.
  { intros now kind He. unfold sink_record. destruct (make_room _ _) eqn:E. cbn.
    by eapply make_room_nonneg. }
  destruct op as [kind| | | | | |]; [destruct kind|..]; cbn; auto.
Qed.

Lemma alter_split {A} (f : A -> A) i (l : list A) x :
  l !! i = Some x -> exists l1 l2, l = l1 ++ x :: l2 /\ alter f i l = l1 ++ f x :: l2.
Proof.
  intros Hx. exists (take i l), (drop (S i) l). split; [by rewrite take_drop_middle|].
  assert (i = length (take i l)) as Hi.
  { rewrite length_take. apply lookup_lt_Some in Hx. lia. }
  rewrite <- (take_drop_middle l i x Hx) at 1. rewrite alter_app_r_alt by lia.
  by replace (i - length (take i l))%nat with 0%nat by lia.
Qed.

Lemma alter_beyond {A} (f : A -> A) i (l : list A) : l !! i = None -> alter f i l = l.
Proof.
  intros Hi. apply list_eq. intros j. destruct (decide (i = j)) as [<-|].
  - by rewrite list_lookup_alter_eq, Hi.
  - by rewrite list_lookup_alter_ne.
Qed.

(** Replacing the sink of one entry. *)
Lemma alter_waiting f i es e :
  es !! i = Some e -> exists l1 l2,
    waiting es ≡ₚ (fst <$> ring (sink e)) ++ l1 ++ l2 /\
    waiting (alter f i es) ≡ₚ (fst <$> ring (sink (f e))) ++ l1 ++ l2.
Proof.
  intros Ei. destruct (alter_split f _ _ _ Ei) as (l1 & l2 & -> & ->).
  exists (waiting l1), (waiting l2). rewrite !waiting_middle. split; solve_Permutation.
Qed.

Lemma alter_overflowed f i es e :
  es !! i = Some e ->
  overflowed (alter f i es)
  = overflowed es + (overflow_dropped_total (sink (f e)) - overflow_dropped_total (sink e)).
Proof.
  intros Ei. destruct (alter_split f _ _ _ Ei) as (l1 & l2 & -> & ->).
  rewrite !overflowed_middle. lia.
Qed.

Lemma entry_overflow i es e :
  Forall (fun e => 0 <= overflow_dropped_total (sink e)) es -> es !! i = Some e ->
  0 <= overflow_dropped_total (sink e) <= overflowed es.
Proof.
  intros Hn Ei. destruct (alter_split id _ _ _ Ei) as (l1 & l2 & -> & _).
  rewrite overflowed_middle. apply Forall_app in Hn as [H1 H2]. inversion H2; subst.
  pose proof (overflowed_nonneg (l1 ++ l2) ltac:(by apply Forall_app)). lia.
Qed.

(** What the reader holds belongs to sinks that exist. *)
Definition reader_ok (n : nat) (r : Reader) : Prop :=
  match r with
  | Resting => True
  | Taking _ pool _ => Forall (pool_ok n) pool
  | GivingBack _ _ remainder => Forall (pool_ok n) remainder
  end.

Record accounted (l : Ledger) : Prop := {
  ac_events : recorded l
    ≡ₚ delivered l ++ held (reader l) ++ waiting (entries (source l)) ++ (snd <$> evicted l);
  ac_full : Forall (fun x => EVENT_RING_CAPACITY <= fst x)%nat (evicted l);
  ac_counters : Forall (fun e => 0 <= overflow_dropped_total (sink e)) (entries (source l));
  ac_overflow : Z.of_nat (length (recorded l)) < 2 ^ 64 ->
    overflowed (entries (source l)) = Z.of_nat (length (evicted l));
  ac_reader : reader_ok (length (entries (source l))) (reader l) }.

Lemma Forall_alter_at {A} (P : A -> Prop) f i (l : list A) :
  Forall P l -> (forall x, P x -> P (f x)) -> Forall P (alter f i l).
Proof. intros Hl Hf. apply Forall_alter; [done|]. intros x _. apply Hf. Qed.

Lemma accounted_on l i op : accounted l -> accounted (step l (On i op)).
Proof.
  intros [Hev Hfull Hc Ho Hr]. cbn [step]. destruct (entries (source l) !! i) as [e|] eqn:Ei; [|done].
  destruct (apply_entry_spec op e) as (Hsp & Hf & Hover). fold (pushed_out op e).
  destruct (alter_waiting (apply_entry op) _ _ _ Ei) as (l1 & l2 & Hw & Hw').
  split; cbn [source reader recorded delivered evicted entries upd].
  - rewrite Hw', fmap_app, Hev, Hw.
    transitivity (delivered l ++ held (reader l) ++ ((fst <$> ring (sink e)) ++ event_of op e)
                    ++ l1 ++ l2 ++ (snd <$> evicted l)); [solve_Permutation|].
    rewrite Hsp. solve_Permutation.
  - by apply Forall_app.
  - apply Forall_alter_at; [done|]. intros x. apply apply_entry_nonneg.
  - rewrite length_app. intros Hlt. rewrite (alter_overflowed _ _ _ _ Ei), length_app.
    rewrite Ho by lia. pose proof (entry_overflow _ _ _ Hc Ei) as He. rewrite Ho in He by lia.
    apply Permutation_length in Hev. rewrite !length_app in Hev.
    apply Permutation_length in Hw. rewrite !length_app, length_fmap in Hw. rewrite length_fmap in Hev.
    rewrite Hover by lia. lia.
  - by rewrite length_alter.
Qed.

Lemma accounted_begin l limit : accounted l -> accounted (step l (BeginDrain limit)).
Proof.
  intros [Hev Hfull Hc Ho Hr]. cbn [step].
  assert (held (begin_drain (entries (source l)) limit (reader l)) = held (reader l) /\
          reader_ok (length (entries (source l)))
            (begin_drain (entries (source l)) limit (reader l))) as [Hh Hrd].
  { unfold begin_drain. destruct (reader l); try done.
    destruct (entries (source l)), limit; try done. split; [done|constructor]. }
  split; cbn; rewrite ?Hh; done.
Qed.

(** A step of the reader moves events between its hands, the sinks and the
    caller, and touches no counter. *)
Lemma reader_step_spec es r es' r' events :
  reader_ok (length es) r -> reader_step es r = (es', r', events) ->
  held r ++ waiting es ≡ₚ events ++ held r' ++ waiting es' /\
  reader_ok (length es') r' /\ overflowed es' = overflowed es /\
  (Forall (fun e => 0 <= overflow_dropped_total (sink e)) es ->
   Forall (fun e => 0 <= overflow_dropped_total (sink e)) es').
Proof.
  destruct r as [|i pool limit|i drained rem]; cbn [reader_step reader_ok].
  - intros _ [= <- <- <-]. done.
  - intros Hp. destruct (es !! i) as [e|] eqn:Ei; intros [= <- <- <-].
    + destruct (alter_waiting emptied _ _ _ Ei) as (l1 & l2 & Hw & Hw').
      split; [|split; [|split]].
      * cbn [held app]. rewrite fmap_app, pool_events, Hw, Hw'. cbn. solve_Permutation.
      * rewrite length_alter. apply Forall_app. split; [done|].
        apply Forall_fmap, Forall_true. intros []. split; [by eapply lookup_lt_Some|done].
      * rewrite (alter_overflowed _ _ _ _ Ei). cbn. lia.
      * intros Hc. by apply Forall_alter_at.
    + assert (isort pooled_leb pool ≡ₚ pool) as Hs by apply isort_perm.
      split; [|split; [|done]].
      * cbn [held app]. by rewrite filter_all, <- fmap_app, take_drop, Hs.
      * apply Forall_drop. by rewrite Hs.
  - intros Hp. destruct (es !! i) as [e|] eqn:Ei; intros [= <- <- <-].
    + destruct (alter_waiting (give_back rem i) _ _ _ Ei) as (l1 & l2 & Hw & Hw').
      split; [|split; [|split]].
      * cbn [held app]. rewrite Hw, Hw'. unfold give_back, restore. cbn. rewrite fmap_app.
        rewrite <- (filter_from i rem), fmap_app. unfold rest_of. rewrite <- list_fmap_compose.
        change (fst ∘ (fun p : Pooled => (po_event p, po_seq p))) with po_event. solve_Permutation.
      * by rewrite length_alter.
      * rewrite (alter_overflowed _ _ _ _ Ei). cbn. lia.
      * intros Hc. by apply Forall_alter_at.
    + split; [|done]. cbn [held app]. apply lookup_ge_None in Ei.
      rewrite filter_none; [by rewrite app_nil_r|].
      eapply Forall_impl; [exact Hp|]. intros p [Hi _]. apply Nat.leb_gt. lia.
Qed.

Lemma accounted_advance l : accounted l -> accounted (step l Advance).
Proof.
  intros [Hev Hfull Hc Ho Hr]. cbn [step].
  destruct (reader_step _ _) as [[es r] events] eqn:E.
  destruct (reader_step_spec _ _ _ _ _ Hr E) as (Hp & Hr' & Hov & Hc').
  split; cbn [source reader recorded delivered evicted entries upd]; auto.
  - rewrite Hev.
    transitivity (delivered l ++ (held (reader l) ++ waiting (entries (source l)))
                    ++ (snd <$> evicted l)); [solve_Permutation|].
    rewrite Hp. solve_Permutation.
  - by rewrite Hov.
Qed.

(** Undisturbed, the steps are [drain_events]. *)
Definition with_reader (l : Ledger) (es : list EntryShared) (r : Reader)
    (events : list ClientDiagnosticEvent) : Ledger :=
  MkLedger ((source l) <| entries := es |>) r (recorded l) (delivered l ++ events) (evicted l).

Lemma advances l es r events n :
  fold_left step (replicate n Advance) (with_reader l es r events)
  = (fun '(es', r', more) => with_reader l es' r' (events ++ more))
      (Nat.iter n (fun '(es, r, out) =>
         let '(es', r', more) := reader_step es r in (es', r', out ++ more)) (es, r, [])).
Proof.
  enough (Hg : forall out, fold_left step (replicate n Advance) (with_reader l es r (events ++ out))
    = (fun '(es', r', more) => with_reader l es' r' (events ++ more))
        (Nat.iter n (fun '(es, r, out) =>
           let '(es', r', more) := reader_step es r in (es', r', out ++ more)) (es, r, out))).
  { specialize (Hg []). rewrite app_nil_r in Hg. exact Hg. }
  revert es r. induction n as [|n IH]; intros es r out; [done|].
  cbn [replicate fold_left]. rewrite Nat.iter_succ_r.
  assert (step (with_reader l es r (events ++ out)) Advance
          = (fun '(es', r', more) => with_reader l es' r' (events ++ (out ++ more))) (reader_step es r)) as ->.
  { cbn [step with_reader source entries upd reader]. destruct (reader_step es r) as [[es' r'] more].
    unfold with_reader. cbn. by rewrite <- !app_assoc. }
  destruct (reader_step es r) as [[es' r'] more]. apply IH.
Qed.

Notation reader_iter :=
  (fun '(es, r, out) => let '(es', r', more) := reader_step es r in (es', r', out ++ more)).

Lemma taking_all limit es2 es1 pool :
  Nat.iter (length es2) reader_iter (es1 ++ es2, Taking (length es1) pool limit, [])
  = (es1 ++ (emptied <$> es2), Taking (length es1 + length es2)
      (pool ++ concat (imap (fun j => pool_of (length es1 + j)) es2)) limit, []).
Proof.
  revert es1 pool. induction es2 as [|e es2 IH]; intros es1 pool.
  { cbn. by rewrite !app_nil_r, Nat.add_0_r. }
  cbn [length]. rewrite Nat.iter_succ_r. cbn [reader_step].
  rewrite list_lookup_middle by done. cbn [app].
  rewrite alter_app_r_alt, Nat.sub_diag by lia. cbn [alter list_alter].
  replace (S (length es1)) with (length (es1 ++ [emptied e])) by (rewrite length_app; cbn; lia).
  rewrite cons_middle, app_assoc. rewrite (IH (es1 ++ [emptied e])).
  rewrite length_app. cbn [length imap concat fmap list_fmap]. rewrite <- !app_assoc, Nat.add_0_r.
  cbn [app]. do 3 f_equal; [lia|]. do 3 f_equal. apply imap_ext. intros j x _. cbn. f_equal. lia.
Qed.

Lemma giving_back_all drained rem es2 es1 :
  Nat.iter (length es2) reader_iter (es1 ++ es2, GivingBack (length es1) drained rem, [])
  = (es1 ++ imap (fun j => give_back rem (length es1 + j)) es2,
     GivingBack (length es1 + length es2) drained rem, []).
Proof.
  revert es1. induction es2 as [|e es2 IH]; intros es1.
  { cbn. by rewrite Nat.add_0_r. }
  cbn [length]. rewrite Nat.iter_succ_r. cbn [reader_step].
  rewrite list_lookup_middle by done. cbn [app].
  rewrite alter_app_r_alt, Nat.sub_diag by lia. cbn [alter list_alter].
  set (e' := give_back rem (length es1) e).
  replace (S (length es1)) with (length (es1 ++ [e'])) by (rewrite length_app; cbn; lia).
  rewrite cons_middle, app_assoc. rewrite (IH (es1 ++ [e'])).
  rewrite length_app. cbn [length imap]. rewrite <- !app_assoc, Nat.add_0_r. cbn [app]. subst e'.
  f_equal; f_equal; [|f_equal; lia]. do 2 f_equal. apply imap_ext. intros j x _. cbn. f_equal. lia.
Qed.

Theorem drain_undisturbed l limit :
  reader l = Resting -> entries (source l) <> [] -> (0 < limit)%nat ->
  let n := length (entries (source l)) in
  let '(s, events) := drain_events (source l) limit in
  fold_left step (BeginDrain limit :: replicate (S (n + S n)) Advance) l
  = MkLedger s Resting (recorded l) (delivered l ++ events) (evicted l).
Proof.
  intros Hr Hne Hl n. rewrite drain_eq by done. cbn [fold_left step]. rewrite Hr.
  assert (Hb : begin_drain (entries (source l)) limit Resting = Taking 0 [] limit)
    by (destruct (entries (source l)), limit; done || lia).
  rewrite Hb. set (es := entries (source l)) in *.
  assert (Hl0 : MkLedger (source l) (Taking 0 [] limit) (recorded l) (delivered l) (evicted l)
                = with_reader l es (Taking 0 [] limit) []).
  { unfold with_reader. rewrite app_nil_r. subst es. by destruct (source l). }
  rewrite Hl0, advances. change (S (n + S n)) with (S n + S n)%nat.
  rewrite Nat.iter_add, !Nat.iter_succ.
  pose proof (taking_all limit es [] []) as Ht. cbn [app length Nat.add] in Ht. fold n in Ht.
  rewrite Ht. cbn [reader_step]. rewrite (proj2 (lookup_ge_None _ n)) by (by rewrite length_fmap).
  cbn [app]. change (concat (imap (fun j => pool_of j) es)) with (pooled es).
  pose proof (giving_back_all (po_event <$> take limit (isort pooled_leb (pooled es)))
                (drop limit (isort pooled_leb (pooled es))) (emptied <$> es) []) as Hg.
  cbn [app length Nat.add] in Hg. rewrite length_fmap in Hg. fold n in Hg. rewrite Hg.
  cbn [reader_step]. rewrite (proj2 (lookup_ge_None _ n)) by (by rewrite length_imap, length_fmap).
  done.
Qed.

(** A source assembled from connections that have not recorded anything. *)
Definition fresh (s : ClientDiagnosticsSource) : Prop :=
  Forall (fun e => ring (sink e) = [] /\ overflow_dropped_total (sink e) = 0) (entries s).

Lemma fresh_accounted s : fresh s -> accounted (MkLedger s Resting [] [] []).
Proof.
  unfold fresh. intros Hf. split; cbn [source reader recorded delivered evicted]; try done.
  - induction Hf as [|e es [He _] _ IH]; [done|]. unfold waiting in *. cbn. by rewrite He.
  - eapply Forall_impl; [exact Hf|]. intros e [_ Ho]. lia.
  - intros _. induction Hf as [|e es [_ He] _ IH]; [done|]. unfold overflowed in *. cbn in *. lia.
Qed.

Lemma run_accounted l ops : accounted l -> accounted (fold_left step ops l).
Proof.
  revert l. induction ops as [|op ops IH]; intros l Ha; [done|]. cbn. apply IH.
  destruct op; auto using accounted_on, accounted_begin, accounted_advance.
Qed.

(** C29: client events are delivered exactly once or counted as evicted.
    Connections record into their sinks while a reader drains them with any
    limits, the reader holding one sink's lock at a time and the connections
    recording between any two of its locks: every event ever recorded was
    returned by a drain, is in the hands of the drain under way, waits in a
    sink, or was pushed out of a sink by a later record, none twice; only a
    sink that held at least 256 events had one pushed out, and, up to 2^64
    records, the sinks' overflow counters add up to exactly those.  Between
    drains the reader holds nothing. *)
Theorem client_events_accounted s ops :
  fresh s ->
  let l := ledger_run s ops in
  recorded l
    ≡ₚ delivered l ++ held (reader l) ++ waiting (entries (source l)) ++ (snd <$> evicted l) /\
  Forall (fun x => EVENT_RING_CAPACITY <= fst x)%nat (evicted l) /\
  (Z.of_nat (length (recorded l)) < 2 ^ 64 ->
   overflowed (entries (source l)) = Z.of_nat (length (evicted l))) /\
  (reader l = Resting -> held (reader l) = []).
Proof.
  intros Hf l. destruct (run_accounted _ ops (fresh_accounted s Hf)) as [Hev Hfull _ Ho _].
  split; [exact Hev|]. split; [exact Hfull|]. split; [exact Ho|]. by intros ->.
Qed.

Definition sample_device : DeviceId := MkDeviceId 2 0 0 0 0 7.
Definition sample_source : ClientDiagnosticsSource := from_parts [new_entry sample_device] None.
(** A record arrives after the drain has emptied the sink. *)
Definition sample_ops : list SourceOp :=
  [On 0 (RuntimeWarning 5); On 0 (Feedback Timeout 9 6 6); BeginDrain 1; Advance;
   On 0 (RuntimeWarning 7); Advance; Advance; Advance].

Lemma client_events_accounted_witness :
  let l := ledger_run sample_source sample_ops in
  length (delivered l) = 1%nat /\ length (waiting (entries (source l))) = 2%nat /\
  recorded l
    ≡ₚ delivered l ++ held (reader l) ++ waiting (entries (source l)) ++ (snd <$> evicted l).
Proof.
  assert (fresh sample_source) as Hf by (repeat constructor).
  split; [reflexivity|]. split; [reflexivity|].
  exact (proj1 (client_events_accounted sample_source sample_ops Hf)).
Defined.

(** ** The ring while a drain is under way

    Giving back does not look at the capacity, so a ring that filled up in
    the meantime holds more than it should. *)

Example ring_exceeds_its_capacity :
  let warnings n := replicate n (On 0 (RuntimeWarning 5)) in
  let l := ledger_run sample_source
             (warnings 256%nat ++ [BeginDrain 1; Advance] ++ warnings 256%nat ++ [Advance; Advance]) in
  (length ∘ ring ∘ sink <$> entries (source l)) = [511%nat].
Proof. vm_compute. reflexivity. Qed.

(** ** What the snapshot says about lost events *)

Lemma dropped_total_step l op :
  source_events_dropped_total (source (step l op)) = source_events_dropped_total (source l).
Proof.
  destruct op as [i op|limit|]; cbn [step]; [|done|].
  - by destruct (entries (source l) !! i).
  - by destruct (reader_step _ _) as [[es r] events].
Qed.

(** The snapshot's [client_events_dropped_total] is zero whatever happens,
    although sinks do drop events. *)
Theorem dropped_total_stays_zero entries audio ops now :
  client_events_dropped_total
    (source_snapshot (source (ledger_run (from_parts entries audio) ops)) now) = 0.
Proof.
  cbn. unfold ledger_run.
  change 0 with (source_events_dropped_total (source
    (MkLedger (from_parts entries audio) Resting [] [] []))).
  generalize (MkLedger (from_parts entries audio) Resting [] [] []).
  induction ops as [|op ops IH]; intros l; [done|]. cbn. by rewrite IH, dropped_total_step.
Qed.

Example sinks_do_drop :
  overflowed (ClientDiag.entries (source (ledger_run sample_source
    (replicate 257 (On 0 (RuntimeWarning 5)))))) = 1.
Proof. vm_compute. reflexivity. Qed.

(** The order of a snapshot's rows is the order of the receiver identities,
    and no connection is missing from it. *)
Lemma snapshot_rows s now :
  connections (source_snapshot s now) ≡ₚ entry_snapshot (targets <$> source_audio s) <$> entries s.
Proof. apply isort_perm. Qed.

End ClientDiag.
