(* ===== verification/Registry.v ===== *)
(** * The diagnostics registry

    [apps/openaircast/src/diagnostics/registry.rs] and the registration half of
    [diagnostics/snapshot.rs]: the worker that owns the event ring, ingests the
    backend feed, reads the registered client source and publishes immutable
    snapshots; and the [DiagnosticsSessionTracker] that turns the supervisor's
    session states into registrations.

    The client source is shared with the connections that record into it, so it
    lives in a store of its own, [Clients], and a registration names it.  The
    readings of the [DiagnosticsClock] trait are an argument of an operation;
    two readings within one operation are not told apart. *)

From stdpp Require Import pretty.
From S2P Require Import Prelude Float32 AppState Model Wire Text Features Device TxtParser Browser Recovery Discovery Calibration Buffer Jitter TimingDiag RtpSender DiagRing Supervisor Persistence Backend ClientDiag.
Import Model Recovery(f64, f64_of_Z, f64_div) Backend.
Import ClientDiag (AudioDiagnosticsSnapshot, ClientDiagnosticsSource, ClientDiagnosticsSnapshot, ConnectionDiagnosticsSnapshot, ClientDiagnosticEvent, FeedbackSnapshot, source_snapshot, drain_events).
Import DiagRing (DiagnosticSeverity, DiagnosticComponent, DiagnosticErrorCode, DiagnosticError, DefiniteCounterKind, ReceiverSessionKey, RingInner).

Module Registry.

(** [{:?}] of the enums that messages quote. *)
Class Debug (A : Type) := debug : A -> string.

Notation SessionStopReason := Supervisor.SessionStopReason (only parsing).
Notation Ring := (@DiagRing.RingInner DiagnosticPayload ClientDiagnosticEvent) (only parsing).
Notation Draft := (@DiagRing.DiagnosticEventDraft DiagnosticPayload ClientDiagnosticEvent)
  (only parsing).

(** ** Data *)

Inductive Health := HealthUnknown | HealthRunning | HealthAttention | HealthError.

(** The shared client sources, by the identity of their [Arc]. *)
Definition Clients : Type := gmap Z ClientDiagnosticsSource.
Definition client_source (clients : Clients) (source : Z) : ClientDiagnosticsSource :=
  default (ClientDiag.from_parts [] None) (clients !! source).

Record SessionRegistration := {
  reg_session_id : Z;
  reg_started_elapsed_ns : Z;
  reg_primary : option ReceiverId;
  reg_members : gmap ReceiverId DeviceId;
  reg_source : Z;
}.

Inductive ReceiverTimingSource :=
| TimingUnavailable
| SenderReference
| PtpMeasuredAgainstThisMaster
| PtpSharedFromPrimary (source_receiver_id : option ReceiverId).
#[export] Instance ReceiverTimingSource_eq_dec : EqDecision ReceiverTimingSource.
Proof. solve_decision. Defined.

Record ReceiverTimingSnapshot := {
  rt_source : ReceiverTimingSource;
  rt_independently_measured : bool;
  rt_offset_local_minus_master_ns : option Z;
  rt_mean_path_delay_ns : option Z;
  rt_drift_ppm : option f64;
  rt_sample_age_ns : option Z;
  rt_stale : bool;
}.

Record ReceiverTransportSnapshot := {
  data_datagrams_attempted_total : Z;
  data_datagrams_accepted_local_total : Z;
  data_datagram_send_failures_total : Z;
  data_bytes_accepted_local_total : Z;
  sync_datagrams_attempted_total : Z;
  sync_datagrams_accepted_local_total : Z;
  sync_datagram_send_failures_total : Z;
  sync_bytes_accepted_local_total : Z;
  retransmit_slots_requested_total : Z;
  retransmit_slots_accepted_local_total : Z;
  recovery_demand_numerator_slots : Z;
  recovery_demand_denominator_shared_frames : Z;
  recovery_demand_ratio : option f64;
}.

Record SessionDiagnosticsSnapshot := {
  sd_session_id : Z;
  sd_started_elapsed_ns : Z;
  sd_finished_elapsed_ns : option Z;
  sd_stop_reason : option SessionStopReason;
  sd_phase : option SessionPhase;
  sd_primary : option ReceiverId;
  sd_members : gmap ReceiverId DeviceId;
  sd_audio : option AudioDiagnosticsSnapshot;
}.

Record ReceiverDiagnosticsSnapshot := {
  rd_key : ReceiverSessionKey;
  rd_lifecycle : ReceiverLifecycle;
  rd_timing : ReceiverTimingSnapshot;
  rd_transport : ReceiverTransportSnapshot;
  rd_feedback : FeedbackSnapshot;
  rd_last_error : option DiagnosticError;
}.

Record DiagnosticsSnapshot := {
  schema_version : Z;
  snapshot_sequence : Z;
  captured_at_utc : Z;
  snapshot_elapsed_ns : Z;
  active_session_id : option Z;
  health : Health;
  session : option SessionDiagnosticsSnapshot;
  receivers : list ReceiverDiagnosticsSnapshot;
  diagnostics_events_dropped_total : Z;
}.

Definition DIAGNOSTICS_SNAPSHOT_SCHEMA_VERSION : Z := 1.

(** What the clock reads during an operation. *)
Record Reading := { now_utc : Z; elapsed_ns : Z }.

Record DefiniteBaseline := {
  capture_queue_full_drops : Z;
  buffer_underruns : Z;
  udp_send_failures : Z;
  retransmit_history_misses : Z;
}.

Record RetainedSession := {
  retained_session : SessionDiagnosticsSnapshot;
  retained_receivers : list ReceiverDiagnosticsSnapshot;
}.

Inductive Command :=
| Register (registration : SessionRegistration)
| Finish (session_id : Z) (reason : SessionStopReason).

(** [WorkerState] with the shared half it publishes into: [ring] and
    [current]. *)
Record WorkerState := {
  ring : Ring;
  current : DiagnosticsSnapshot;
  sequence : Z;
  dropped_total : Z;
  active : option SessionRegistration;
  retained : option RetainedSession;
  lifecycle : gmap ReceiverId ReceiverLifecycle;
  phase : option SessionPhase;
  attention_definite : bool;
  feedback_attention : bool;
  pcm_drop_accumulator : Z;
  definite_baseline : option DefiniteBaseline;
}.
#[export] Instance eta_WorkerState : Eta WorkerState := fun w =>
  {| ring := ring w; current := current w; sequence := sequence w;
     dropped_total := dropped_total w; active := active w; retained := retained w;
     lifecycle := lifecycle w; phase := phase w; attention_definite := attention_definite w;
     feedback_attention := feedback_attention w;
     pcm_drop_accumulator := pcm_drop_accumulator w; definite_baseline := definite_baseline w |}.

(** The snapshot [DiagnosticsRegistry::start] publishes before the worker runs. *)
Definition initial_snapshot (r : Reading) : DiagnosticsSnapshot :=
  {| schema_version := DIAGNOSTICS_SNAPSHOT_SCHEMA_VERSION; snapshot_sequence := 0;
     captured_at_utc := now_utc r; snapshot_elapsed_ns := elapsed_ns r;
     active_session_id := None; health := HealthUnknown; session := None; receivers := [];
     diagnostics_events_dropped_total := 0 |}.

Definition new_worker (r : Reading) : WorkerState :=
  {| ring := DiagRing.new; current := initial_snapshot r; sequence := 0; dropped_total := 0;
     active := None; retained := None; lifecycle := ∅; phase := None;
     attention_definite := false; feedback_attention := false; pcm_drop_accumulator := 0;
     definite_baseline := None |}.

Definition push (w : WorkerState) (draft : Draft) : WorkerState :=
  w <| ring := fst (DiagRing.push (ring w) draft) |>.

(** ** Keys *)

Definition is_active_member (w : WorkerState) (receiver : ReceiverId) : bool :=
  is_some_and (active w) (fun reg => bool_decide (is_Some (reg_members reg !! receiver))).

Definition session_key_for (w : WorkerState) (receiver : ReceiverId) : option ReceiverSessionKey :=
  match active w with
  | Some reg =>
      if reg_members reg !! receiver
      then Some {| DiagRing.session_id := reg_session_id reg; DiagRing.receiver_id := receiver |}
      else None
  | None => None
  end.

(** [BTreeMap] iteration: by receiver. *)
Definition members_in_order (members : gmap ReceiverId DeviceId) : list (ReceiverId * DeviceId) :=
  isort (fun a b => device_leb (fst a) (fst b)) (map_to_list members).

Definition device_key (w : WorkerState) (device : DeviceId) : option ReceiverSessionKey :=
  match active w with
  | Some reg =>
      (fun '(receiver, _) => {| DiagRing.session_id := reg_session_id reg;
                                DiagRing.receiver_id := receiver |})
      <$> List.find (fun '(_, member) => member ==? device) (members_in_order (reg_members reg))
  | None => None
  end.

(** ** Labels of wrapped events *)

Definition map_backend_severity (s : Severity) : DiagnosticSeverity :=
  match s with
  | Info => DiagRing.SevInfo
  | Warning => DiagRing.SevWarning
  | SevError => DiagRing.SevError
  end.

Definition backend_component_for (category : DiagnosticCategory) (receiver_scoped : bool)
  : DiagnosticComponent :=
  match category with
  | CatDiscovery => DiagRing.CompDiscovery
  | CatCapture => DiagRing.CompCapture
  | CatProbe => DiagRing.CompFeedback
  | CatRetry => if receiver_scoped then DiagRing.CompRtsp else DiagRing.CompDiscovery
  | CatReceiver | CatSession => DiagRing.CompRtsp
  | CatCommand | CatGeneral | CatPersistence | CatQueue | CatWorker => DiagRing.CompBackend
  end.

Definition backend_code_for (p : DiagnosticPayload) : DiagnosticErrorCode :=
  match p with
  | PcmDrop _ => DiagRing.CaptureQueueFull
  | QueueLag _ => DiagRing.EventChannelFailure
  | Probe false _ => DiagRing.FeedbackFailure
  | _ => DiagRing.Notice
  end.

(** ** Receiver rows *)

Definition client_error_to_diagnostic (error : ClientDiag.ClientDiagnosticError)
    (key : ReceiverSessionKey) : DiagnosticError :=
  let '(code, component) :=
    match ClientDiag.ce_kind error with
    | ClientDiag.KindTimeout => (DiagRing.FeedbackTimeout, DiagRing.CompFeedback)
    | ClientDiag.KindProtocolFailure => (DiagRing.FeedbackFailure, DiagRing.CompFeedback)
    | ClientDiag.KindTransportFailure => (DiagRing.UdpSendFailure, DiagRing.CompUdpTransport)
    | ClientDiag.KindOther => (DiagRing.Notice, DiagRing.CompBackend)
    end in
  {| DiagRing.err_code := code; DiagRing.err_component := component;
     DiagRing.err_severity := DiagRing.SevError;
     DiagRing.err_recoverability := DiagRing.AutomaticRetry;
     DiagRing.err_operation := "client_connection";
     DiagRing.err_receiver_session := Some key;
     DiagRing.err_public_message := ClientDiag.ce_public_message error;
     DiagRing.err_technical_detail := None |}.

Definition unmeasured (source : ReceiverTimingSource) : ReceiverTimingSnapshot :=
  {| rt_source := source; rt_independently_measured := false;
     rt_offset_local_minus_master_ns := None; rt_mean_path_delay_ns := None;
     rt_drift_ppm := None; rt_sample_age_ns := None; rt_stale := false |}.

Definition timing_row (primary : option ReceiverId) (conn : option ConnectionDiagnosticsSnapshot)
  : ReceiverTimingSnapshot :=
  match conn with
  | Some conn =>
      match ClientDiag.cd_timing_role conn with
      | ClientDiag.PtpPrimary =>
          let values := ClientDiag.cd_timing conn in
          {| rt_source := PtpMeasuredAgainstThisMaster;
             rt_independently_measured := true;
             rt_offset_local_minus_master_ns :=
               TimingDiag.offset_local_minus_master_ns <$> TimingDiag.ts_latest values;
             rt_mean_path_delay_ns :=
               TimingDiag.mean_path_delay_ns <$> TimingDiag.ts_latest values;
             rt_drift_ppm := TimingDiag.drift_ppm <$> TimingDiag.ts_drift values;
             rt_sample_age_ns := TimingDiag.ts_sample_age_ns values;
             rt_stale := TimingDiag.ts_stale values |}
      | ClientDiag.PtpSecondary => unmeasured (PtpSharedFromPrimary primary)
      | ClientDiag.Single => unmeasured SenderReference
      end
  | None => unmeasured TimingUnavailable
  end.

Definition transport_row (shared_frames : Z) (conn : option ConnectionDiagnosticsSnapshot)
  : ReceiverTransportSnapshot :=
  let row := default RtpSender.new_counters (ClientDiag.cd_transport <$> conn) in
  let retransmit := default ClientDiag.default_retransmit (ClientDiag.cd_retransmit <$> conn) in
  let requested := ClientDiag.retransmit_packet_slots_requested_total retransmit in
  {| data_datagrams_attempted_total := RtpSender.data_attempted_total row;
     data_datagrams_accepted_local_total := RtpSender.data_accepted_local_total row;
     data_datagram_send_failures_total := RtpSender.data_send_failures_total row;
     data_bytes_accepted_local_total := RtpSender.data_bytes_sent_total row;
     sync_datagrams_attempted_total := RtpSender.sync_attempted_total row;
     sync_datagrams_accepted_local_total := RtpSender.sync_accepted_local_total row;
     sync_datagram_send_failures_total := RtpSender.sync_send_failures_total row;
     sync_bytes_accepted_local_total := RtpSender.sync_bytes_sent_total row;
     retransmit_slots_requested_total := requested;
     retransmit_slots_accepted_local_total :=
       ClientDiag.retransmit_datagrams_accepted_local_total retransmit;
     recovery_demand_numerator_slots := requested;
     recovery_demand_denominator_shared_frames := shared_frames;
     recovery_demand_ratio :=
       if 0 <? shared_frames then Some (f64_div (f64_of_Z requested) (f64_of_Z shared_frames))
       else None |}.

Definition receiver_row (w : WorkerState) (registration : SessionRegistration)
    (client : ClientDiagnosticsSnapshot) (member : ReceiverId * DeviceId)
  : ReceiverDiagnosticsSnapshot :=
  let '(receiver, device) := member in
  let shared_frames := default 0 (ClientDiag.rtp_frames_prepared_total <$> ClientDiag.client_audio client) in
  let key := {| DiagRing.session_id := reg_session_id registration;
                DiagRing.receiver_id := receiver |} in
  let conn := List.find (fun conn => ClientDiag.cd_device_id conn ==? device)
                (ClientDiag.connections client) in
  {| rd_key := key;
     rd_lifecycle := default Discovered (lifecycle w !! receiver);
     rd_timing := timing_row (reg_primary registration) conn;
     rd_transport := transport_row shared_frames conn;
     rd_feedback := default ClientDiag.default_feedback (ClientDiag.cd_feedback <$> conn);
     rd_last_error :=
       match conn with
       | Some conn => (fun error => client_error_to_diagnostic error key) <$> ClientDiag.cd_last_error conn
       | None => None
       end |}.

Definition build_receiver_rows (w : WorkerState) (registration : SessionRegistration)
    (client : ClientDiagnosticsSnapshot) : list ReceiverDiagnosticsSnapshot :=
  receiver_row w registration client <$> members_in_order (reg_members registration).

(** The [SessionDiagnosticsSnapshot] of a registration. *)
Definition session_snapshot (w : WorkerState) (registration : SessionRegistration)
    (client : ClientDiagnosticsSnapshot) (finished : option (Z * SessionStopReason))
  : SessionDiagnosticsSnapshot :=
  {| sd_session_id := reg_session_id registration;
     sd_started_elapsed_ns := reg_started_elapsed_ns registration;
     sd_finished_elapsed_ns := fst <$> finished;
     sd_stop_reason := snd <$> finished;
     sd_phase := phase w;
     sd_primary := reg_primary registration;
     sd_members := reg_members registration;
     sd_audio := ClientDiag.client_audio client |}.

(** ** Commands *)

Definition apply_command (r : Reading) (clients : Clients) (w : WorkerState) (c : Command)
  : WorkerState :=
  match c with
  | Register registration =>
      w <| active := Some registration |> <| retained := None |> <| lifecycle := ∅ |>
        <| phase := None |> <| attention_definite := false |> <| feedback_attention := false |>
        <| pcm_drop_accumulator := 0 |> <| definite_baseline := None |>
  | Finish session_id reason =>
      match active w with
      | Some registration =>
          if reg_session_id registration =? session_id then
            let w := w <| active := None |> in
            let client := source_snapshot (client_source clients (reg_source registration)) (elapsed_ns r) in
            w <| retained := Some
                  {| retained_session :=
                       session_snapshot w registration client (Some (elapsed_ns r, reason));
                     retained_receivers := build_receiver_rows w registration client |} |>
          else w
      | None => w
      end
  end.

Section Messages.
Context `{!Debug Discovery.DiscoveryPhase, !Debug ReceiverLifecycle, !Debug SetupPhase,
          !Debug SessionPhase, !Debug RestartReason, !Debug AudioSourceState,
          !Debug PersistenceSnapshot, !Debug SystemTransition,
          !Debug DiagRing.CalibrationApplyState, !Debug DefiniteCounterKind}.

(** Durations are in nanoseconds. *)
Definition as_millis (duration : Z) : Z := duration / 1000000.

Definition backend_public_message (p : DiagnosticPayload) : string :=
  match p with
  | Message text => text
  | DiscoveryGeneration generation phase =>
      "discovery generation " +:+ pretty generation +:+ " is " +:+ debug phase
  | DiscoveryReceiver _ true => "a receiver appeared in discovery"
  | DiscoveryReceiver _ false => "a receiver disappeared from discovery"
  | CommandResult id (Some error) => "command " +:+ pretty id +:+ " failed: " +:+ error
  | CommandResult id None => "command " +:+ pretty id +:+ " completed"
  | CommandCoalesced dropped => pretty dropped +:+ " superseded commands were merged away"
  | ReceiverTransition _ to => "receiver entered " +:+ debug to
  | SetupPhaseDuration _ phase duration =>
      "setup phase " +:+ debug phase +:+ " took " +:+ pretty (as_millis duration) +:+ " ms"
  | SessionTransition phase active_members =>
      "session entered " +:+ debug phase +:+ " with " +:+ pretty active_members
        +:+ " active receivers"
  | SessionRestart generation reason =>
      "session generation " +:+ pretty generation +:+ " restarts: " +:+ debug reason
  | RetryScheduled (Some _) attempt _ =>
      "reconnect attempt " +:+ pretty attempt +:+ " scheduled for a receiver"
  | RetryScheduled None attempt _ => "retry attempt " +:+ pretty attempt +:+ " scheduled"
  | CaptureTransition state => "audio capture is " +:+ debug state
  | PcmDrop dropped => "capture bridge dropped " +:+ pretty dropped +:+ " frames"
  | QueueLag dropped => "diagnostic feed lagged; " +:+ pretty dropped +:+ " events lost"
  | SilenceBridge duration =>
      "bridge paced silence for " +:+ pretty (as_millis duration) +:+ " ms"
  | QueueWatermark depth capacity =>
      "queue reached " +:+ pretty depth +:+ "/" +:+ pretty capacity +:+ " entries"
  | Probe true latency_ms => "probe answered in " +:+ pretty latency_ms +:+ " ms"
  | Probe false _ => "probe failed"
  | PersistenceOutcome outcome => "saving device state is " +:+ debug outcome
  | WorkerShutdown duration true =>
      "shutdown ran out of its budget after " +:+ pretty (as_millis duration) +:+ " ms"
  | WorkerShutdown duration false =>
      "shutdown completed in " +:+ pretty (as_millis duration) +:+ " ms"
  | SystemTransitioned transition => "platform edge applied: " +:+ debug transition
  | CalibrationStateChanged state => "speaker calibration is " +:+ debug state
  end.

(** ** Definite counters *)

Definition record_definite_transition (r : Reading) (w : WorkerState)
    (counter : DefiniteCounterKind) (component : DiagnosticComponent) (code : DiagnosticErrorCode)
    (previous_total current_total : Z) : WorkerState :=
  push w {| DiagRing.occurred_at_utc := now_utc r;
            DiagRing.process_elapsed_ns := elapsed_ns r;
            DiagRing.receiver_session := None;
            DiagRing.severity := DiagRing.SevWarning;
            DiagRing.component := component;
            DiagRing.code := code;
            DiagRing.public_message := debug counter +:+ " total advanced";
            DiagRing.payload :=
              DiagRing.DefiniteCounterTransition counter previous_total current_total |}.

Definition baseline_of (audio : AudioDiagnosticsSnapshot) : DefiniteBaseline :=
  {| capture_queue_full_drops :=
       ClientDiag.cq_full_queue_drops_total (ClientDiag.capture_queue audio);
     buffer_underruns := Buffer.ss_underrun_events_total (ClientDiag.sender_buffer audio);
     udp_send_failures :=
       foldl (sat_add 64) 0 (RtpSender.data_send_failures_total <$> ClientDiag.targets audio);
     retransmit_history_misses :=
       ClientDiag.retransmit_history_misses_total (ClientDiag.retransmit audio) |}.

(** [increases] *)
Definition watched (b : DefiniteBaseline)
  : list (Z * DefiniteCounterKind * DiagnosticComponent * DiagnosticErrorCode) :=
  [(capture_queue_full_drops b, DiagRing.CaptureDrops, DiagRing.CompCapture, DiagRing.CaptureQueueFull);
   (buffer_underruns b, DiagRing.BufferUnderruns, DiagRing.CompBuffer, DiagRing.BufferUnderrun);
   (udp_send_failures b, DiagRing.UdpSendFailures, DiagRing.CompUdpTransport, DiagRing.UdpSendFailure);
   (retransmit_history_misses b, DiagRing.RetransmitHistoryMisses, DiagRing.CompRetransmit,
    DiagRing.RetransmitHistoryMiss)].

Definition observe_increase (r : Reading) (w : WorkerState) (previous : Z)
    (now : Z * DefiniteCounterKind * DiagnosticComponent * DiagnosticErrorCode) : WorkerState :=
  let '(now, kind, component, code) := now in
  if (previous <? now) && negb (is_none (active w))
  then (record_definite_transition r w kind component code previous now) <| attention_definite := true |>
  else w.

Definition observe_definite_counters (r : Reading) (w : WorkerState)
    (client : ClientDiagnosticsSnapshot) : WorkerState :=
  match ClientDiag.client_audio client with
  | None => w
  | Some audio =>
      let current := baseline_of audio in
      match definite_baseline w with
      | None => w <| definite_baseline := Some current |>
      | Some baseline =>
          let w := fold_left (fun w '(previous, now) => observe_increase r w previous now)
                     (zip ((fun x => x.1.1.1) <$> watched baseline) (watched current)) w in
          w <| definite_baseline := Some current |>
      end
  end.

(** ** The backend feed *)

Definition ingest_backend_event (r : Reading) (w : WorkerState) (event : FeedEvent) : WorkerState :=
  let payload := fe_payload event in
  let w := match payload with
           | QueueLag dropped => w <| dropped_total := wrap 64 (dropped_total w + dropped) |>
           | PcmDrop dropped =>
               let previous := pcm_drop_accumulator w in
               let w := w <| pcm_drop_accumulator := sat_add 64 previous dropped |> in
               if negb (is_none (active w)) && (previous <? pcm_drop_accumulator w)
               then (record_definite_transition r w DiagRing.CaptureDrops DiagRing.CompCapture
                       DiagRing.CaptureQueueFull previous (pcm_drop_accumulator w))
                      <| attention_definite := true |>
               else w
           | ReceiverTransition changed to =>
               if is_active_member w changed then w <| lifecycle := <[changed := to]> (lifecycle w) |>
               else w
           | SessionTransition entered _ => w <| phase := Some entered |>
           | _ => w
           end in
  push w {| DiagRing.occurred_at_utc := fe_wall_time event;
            DiagRing.process_elapsed_ns := fe_monotonic_ns event;
            DiagRing.receiver_session :=
              match fe_receiver event with Some id => session_key_for w id | None => None end;
            DiagRing.severity := map_backend_severity (fe_severity event);
            DiagRing.component :=
              backend_component_for (fe_category event) (negb (is_none (fe_receiver event)));
            DiagRing.code := backend_code_for payload;
            DiagRing.public_message := backend_public_message payload;
            DiagRing.payload :=
              match payload with
              | CalibrationStateChanged state => DiagRing.CalibrationState state
              | other => DiagRing.Backend other
              end |}.

(** ** The client feed *)

Definition ingest_client_event (r : Reading) (w : WorkerState) (event : ClientDiagnosticEvent)
  : WorkerState :=
  let receiver_session :=
    match ClientDiag.ev_device_id event with Some device => device_key w device | None => None end in
  let '(severity, component, code, attention, message) :=
    match ClientDiag.ev_kind event with
    | ClientDiag.KFeedback =>
        (DiagRing.SevInfo, DiagRing.CompFeedback, DiagRing.Notice, false,
         "feedback transaction recorded")
    | ClientDiag.KSetupFailure =>
        (DiagRing.SevWarning, DiagRing.CompRtsp, DiagRing.SetupRejected, false,
         "receiver setup failed")
    | ClientDiag.KRuntimeWarning =>
        (DiagRing.SevWarning, DiagRing.CompRetransmit, DiagRing.Notice, true,
         "recoverable transport problem")
    end in
  let w := if (attention : bool) then w <| attention_definite := true |> else w in
  push w {| DiagRing.occurred_at_utc := now_utc r;
            DiagRing.process_elapsed_ns := ClientDiag.ev_elapsed_ns event;
            DiagRing.receiver_session := receiver_session;
            DiagRing.severity := severity;
            DiagRing.component := component;
            DiagRing.code := code;
            DiagRing.public_message := message;
            DiagRing.payload := DiagRing.Client event |}.

(** [for _ in 0..16] *)
Fixpoint drain_client_events (rounds : nat) (r : Reading) (w : WorkerState)
    (source : ClientDiagnosticsSource) : WorkerState * ClientDiagnosticsSource :=
  match rounds with
  | O => (w, source)
  | S rounds =>
      match drain_events source 512 with
      | (source, []) => (w, source)
      | (source, drained) =>
          drain_client_events rounds r (fold_left (ingest_client_event r) drained w) source
      end
  end.

(** ** Health and publication *)

Definition is_failed_lifecycle (l : ReceiverLifecycle) : bool :=
  match l with Failed _ _ => true | _ => false end.

Definition compute_health (w : WorkerState) : Health :=
  if is_none (active w) then HealthUnknown
  else if existsb (fun x => is_failed_lifecycle x.2) (map_to_list (lifecycle w))
          || match phase w with Some (PhFailed _ _) => true | _ => false end
  then HealthError
  else if match phase w with Some (PhDegraded _) => true | _ => false end
          || attention_definite w || feedback_attention w
  then HealthAttention
  else HealthRunning.

Definition feedback_failed (conn : ConnectionDiagnosticsSnapshot) : bool :=
  match ClientDiag.fb_last_result (ClientDiag.cd_feedback conn) with
  | Some (ClientDiag.ProtocolFailure | ClientDiag.TransportFailure | ClientDiag.Timeout) => true
  | _ => false
  end.

(** What [publish] reads from the active source, and what it leaves there. *)
Definition poll_source (r : Reading) (w : WorkerState) (source : ClientDiagnosticsSource)
  : WorkerState * ClientDiagnosticsSource * ClientDiagnosticsSnapshot :=
  let '(w, source) := drain_client_events 16 r w source in
  let client := source_snapshot source (elapsed_ns r) in
  let w := observe_definite_counters r w client in
  let w := if existsb feedback_failed (ClientDiag.connections client)
           then w <| feedback_attention := true |> else w in
  (w, source, client).

Definition publish (r : Reading) (clients : Clients) (w : WorkerState) : WorkerState * Clients :=
  let '(w, clients, receivers, session) :=
    match active w with
    | Some registration =>
        let '(w, source, client) :=
          poll_source r w (client_source clients (reg_source registration)) in
        (w, <[reg_source registration := source]> clients,
         build_receiver_rows w registration client,
         Some (session_snapshot w registration client None))
    | None =>
        match retained w with
        | Some retained =>
            (w, clients, retained_receivers retained, Some (retained_session retained))
        | None => (w, clients, [], None)
        end
    end in
  let health := compute_health w in
  let w := w <| sequence := u64_succ (sequence w) |> in
  (w <| current :=
       {| schema_version := DIAGNOSTICS_SNAPSHOT_SCHEMA_VERSION;
          snapshot_sequence := sequence w;
          captured_at_utc := now_utc r;
          snapshot_elapsed_ns := elapsed_ns r;
          active_session_id := reg_session_id <$> active w;
          health := health;
          session := session;
          receivers := receivers;
          diagnostics_events_dropped_total := dropped_total w |} |>, clients).

(** ** The worker loop *)

(** What one round of [run_registry_worker] finds: the pending commands, and
    then, unless it is told to shut down, a wake-up or one record of the
    feed. *)
Inductive Round :=
| Commands (reading : Reading) (pending : list Command)
| Received (reading : Reading) (event : FeedEvent).

Definition apply_commands (r : Reading) (clients : Clients) (w : WorkerState) (cs : list Command)
  : WorkerState := fold_left (apply_command r clients) cs w.

Definition worker_round (s : WorkerState * Clients) (round : Round) : WorkerState * Clients :=
  let '(w, clients) := s in
  match round with
  | Commands r [] => (w, clients)
  | Commands r pending => publish r clients (apply_commands r clients w pending)
  | Received r event => publish r clients (ingest_backend_event r w event)
  end.

Definition start_worker (r : Reading) (clients : Clients) : WorkerState * Clients :=
  publish r clients (new_worker r).

(** The final drain after the shutdown flag was seen. *)
Definition finish_worker (r : Reading) (s : WorkerState * Clients) (pending : list Command)
  : WorkerState * Clients :=
  publish r (snd s) (apply_commands r (snd s) (fst s) pending).

End Messages.

(** ** The session tracker *)

Record DiagnosticsSessionTracker := {
  newest_generation : Z;
  newest_is_inactive : bool;
  tracked : option (Z * Z);
}.
#[export] Instance eta_DiagnosticsSessionTracker : Eta DiagnosticsSessionTracker := fun t =>
  {| newest_generation := newest_generation t; newest_is_inactive := newest_is_inactive t;
     tracked := tracked t |}.
Definition new_tracker : DiagnosticsSessionTracker :=
  {| newest_generation := 0; newest_is_inactive := false; tracked := None |}.

Notation SessionDiagnosticsState := (@Supervisor.SessionDiagnosticsState Z) (only parsing).

(** [reconcile]: the tracker and the commands it sends; [fresh] is the
    identifier [SessionId::generate] would return. *)
Definition reconcile (fresh : Z) (t : DiagnosticsSessionTracker) (state : SessionDiagnosticsState)
  : DiagnosticsSessionTracker * list Command :=
  match state with
  | Supervisor.DiagInactive generation reason =>
      if generation <? newest_generation t then (t, [])
      else
        let t := t <| newest_generation := generation |> <| newest_is_inactive := true |> in
        match tracked t with
        | Some (active_generation, session_id) =>
            if active_generation <=? generation
            then (t <| tracked := None |>, [Finish session_id reason])
            else (t, [])
        | None => (t, [])
        end
  | Supervisor.DiagActive generation started primary members source =>
      if (generation <? newest_generation t)
         || ((generation =? newest_generation t) && newest_is_inactive t)
         || is_some_and (tracked t) (fun a => fst a =? generation)
      then (t, [])
      else
        let ended := match tracked t with
                     | Some (_, session_id) => [Finish session_id Supervisor.ReasonRestarted]
                     | None => []
                     end in
        ({| newest_generation := generation; newest_is_inactive := false;
            tracked := Some (generation, fresh) |},
         ended ++
         [Register {| reg_session_id := fresh; reg_started_elapsed_ns := started;
                      reg_primary := primary; reg_members := set_to_map (fun id => (id, id)) members;
                      reg_source := source |}])
  end.

End Registry.
