(* ===== verification/RegistryProps.v ===== *)
(** * What the diagnostics registry publishes

    Theorems about [Registry]: the tracker's sessions, the published snapshot
    as a function of what happened since the session was registered, and what
    it does not say. *)

From stdpp Require Import pretty.
From S2P Require Import Prelude Float32 AppState Model Wire Text Features Device TxtParser Browser Recovery Discovery Calibration Buffer Jitter TimingDiag RtpSender DiagRing Supervisor Persistence Backend ClientDiag Registry.
Import Model Backend Registry.
Import ClientDiag (ClientDiagnosticsSource, ClientDiagnosticsSnapshot, ClientDiagnosticEvent, source_snapshot, drain_events).
Import DiagRing (DefiniteCounterKind).

Module RegistryProps.

#[local] Existing Instance ClientDiag.eta_ClientDiagnosticsSource.

(** ** Sessions *)

(** The registration in force after a list of commands. *)
Definition open_step (open : option SessionRegistration) (c : Command)
  : option SessionRegistration :=
  match c with
  | Register registration => Some registration
  | Finish id _ =>
      match open with
      | Some registration => if reg_session_id registration =? id then None else open
      | None => None
      end
  end.
Definition open_session (cs : list Command) : option SessionRegistration :=
  fold_left open_step cs None.

(** A tracker with the commands it has sent and the generations of the
    sessions it has registered. *)
Record Tracking := { tracker : DiagnosticsSessionTracker; sent : list Command;
                     generations_registered : list Z }.

(** It is fed with session states, each with the identifier that would be
    generated for it. *)
Definition track_step (k : Tracking)
    (s : Z * Supervisor.SessionDiagnosticsState (Source:=Z)) : Tracking :=
  let '(t, cs) := reconcile (fst s) (tracker k) (snd s) in
  {| tracker := t; sent := sent k ++ cs;
     generations_registered := generations_registered k ++
       match cs with
       | [] | [Finish _ _] => []
       | _ => [Supervisor.diagnostics_generation (snd s)]
       end |}.

Definition track (states : list (Z * Supervisor.SessionDiagnosticsState (Source:=Z))) : Tracking :=
  fold_left track_step states {| tracker := new_tracker; sent := []; generations_registered := [] |}.

(** Commands in which no session is opened over another and only the open one
    is ended; the session left open. *)
Fixpoint well_bracketed (open : option Z) (cs : list Command) : option (option Z) :=
  match cs with
  | [] => Some open
  | Register registration :: cs =>
      match open with
      | None => well_bracketed (Some (reg_session_id registration)) cs
      | Some _ => None
      end
  | Finish id _ :: cs =>
      match open with
      | Some open => if open =? id then well_bracketed None cs else None
      | None => None
      end
  end.

Lemma well_bracketed_app open cs cs' :
  well_bracketed open (cs ++ cs') = match well_bracketed open cs with
                                    | Some open' => well_bracketed open' cs'
                                    | None => None
                                    end.
Proof.
  revert open. induction cs as [|[reg|id reason] cs IH]; intros open; cbn; [done|..].
  - by destruct open.
  - destruct open as [open|]; [|done]. by destruct (open =? id).
Qed.

(** What the tracker maintains: its newest generation bounds the one it
    tracks, and a tracked session is the newest unless that was inactive. *)
Definition tracker_ok (t : DiagnosticsSessionTracker) : Prop :=
  match tracked t with
  | Some (g, _) => g = newest_generation t /\ newest_is_inactive t = false
  | None => True
  end.

Lemma reconcile_ok fresh t state : tracker_ok t -> tracker_ok (fst (reconcile fresh t state)).
Proof.
  unfold tracker_ok, reconcile. intros Ht.
  destruct state as [g reason|g started primary members source].
  - destruct (Z.ltb_spec g (newest_generation t)); [done|].
    cbn [tracked upd]. destruct (tracked t) as [[a id]|] eqn:E; [|done].
    destruct Ht as [-> _]. destruct (Z.leb_spec (newest_generation t) g); [done|lia].
  - destruct (_ || _); [done|]. done.
Qed.

Lemma reconcile_bracketed fresh t state :
  tracker_ok t ->
  well_bracketed (snd <$> tracked t) (snd (reconcile fresh t state))
  = Some (snd <$> tracked (fst (reconcile fresh t state))).
Proof.
  unfold tracker_ok, reconcile. intros Ht.
  destruct state as [g reason|g started primary members source].
  - destruct (Z.ltb_spec g (newest_generation t)); [done|].
    cbn [tracked upd]. destruct (tracked t) as [[a id]|] eqn:E; [|done].
    destruct Ht as [-> _]. destruct (Z.leb_spec (newest_generation t) g); [|lia].
    cbn. by rewrite Z.eqb_refl.
  - destruct (_ || _); [done|]. cbn [fst snd tracked].
    destruct (tracked t) as [[a id]|]; cbn; [by rewrite Z.eqb_refl|done].
Qed.

(** Every registered generation is older than the newest, or is the one still
    tracked, or was ended under its own number. *)
Definition gens_ok (k : Tracking) : Prop :=
  StronglySorted Z.lt (generations_registered k) /\
  Forall (fun g => g < newest_generation (tracker k) \/
                   g = newest_generation (tracker k) /\
                   (newest_is_inactive (tracker k) = true \/
                    exists id, tracked (tracker k) = Some (g, id)))
    (generations_registered k).

Lemma gens_sorted_snoc gs g :
  StronglySorted Z.lt gs -> Forall (fun x => x < g) gs -> StronglySorted Z.lt (gs ++ [g]).
Proof.
  induction 1 as [|x gs Hs IH Hx]; intros Hg; cbn; [by repeat constructor|].
  inversion Hg; subst. constructor; [by apply IH|]. apply Forall_app. split; [done|by constructor].
Qed.

Lemma track_step_gens k s : tracker_ok (tracker k) -> gens_ok k -> gens_ok (track_step k s).
Proof.
  unfold gens_ok, track_step, reconcile, tracker_ok. intros Ht [Hs Hf].
  destruct s as [fresh [g reason|g started primary members source]]; cbn [fst snd].
  - destruct (Z.ltb_spec g (newest_generation (tracker k))).
    { cbn. by rewrite app_nil_r. }
    assert (Forall (fun x => x < g \/ x = g /\ (true = true \/ exists id, tracked (tracker k) = Some (x, id)))
              (generations_registered k)) as Hf'.
    { eapply Forall_impl; [exact Hf|]. intros x Hx. cbn in Hx. destruct (decide (x = g)); [|lia].
      right. split; [done|by left]. }
    cbn [tracked upd]. destruct (tracked (tracker k)) as [[a id]|] eqn:E.
    + destruct Ht as [-> _]. destruct (Z.leb_spec (newest_generation (tracker k)) g); [|lia].
      cbn. rewrite app_nil_r. split; [done|]. eapply Forall_impl; [exact Hf'|].
      intros x [?|[? _]]; [by left|right; split; [done|by left]].
    + cbn. rewrite app_nil_r. split; [done|]. eapply Forall_impl; [exact Hf'|].
      intros x [?|[? _]]; [by left|right; split; [done|by left]].
  - destruct (_ || _) eqn:Ec; [cbn; by rewrite app_nil_r|].
    apply orb_false_iff in Ec as [[Ec1 Ec2]%orb_false_iff Ec3]. apply Z.ltb_ge in Ec1.
    assert (Forall (fun x => x < g) (generations_registered k)) as Hlt.
    { eapply Forall_impl; [exact Hf|]. intros x [Hx|[-> [Hi|[id Hid]]]]; [lia|..].
      - rewrite Hi, andb_true_r in Ec2. apply Z.eqb_neq in Ec2. lia.
      - rewrite Hid in Ec3. cbn in Ec3. apply Z.eqb_neq in Ec3. lia. }
    assert (gens_ok {| tracker := {| newest_generation := g; newest_is_inactive := false;
                                     tracked := Some (g, fresh) |};
                       sent := sent k; generations_registered := generations_registered k ++ [g] |})
      as [Hg1 Hg2].
    { split; [by apply gens_sorted_snoc|]. apply Forall_app. split.
      + eapply Forall_impl; [exact Hlt|]. intros x Hx. by left.
      + apply Forall_singleton. right. split; [done|]. right. by exists fresh. }
    by destruct (tracked (tracker k)) as [[]|].
Qed.

Lemma track_step_ok k s :
  tracker_ok (tracker k) -> well_bracketed None (sent k) = Some (snd <$> tracked (tracker k)) ->
  tracker_ok (tracker (track_step k s)) /\
  well_bracketed None (sent (track_step k s)) = Some (snd <$> tracked (tracker (track_step k s))).
Proof.
  intros Ht Hb. unfold track_step.
  pose proof (reconcile_ok (fst s) _ (snd s) Ht) as Hok.
  pose proof (reconcile_bracketed (fst s) _ (snd s) Ht) as Hbr.
  destruct (reconcile _ _ _) as [t' cs]. cbn [fst snd tracker sent] in *.
  split; [done|]. by rewrite well_bracketed_app, Hb.
Qed.

(** Bracketed commands leave exactly the bracket's session open. *)
Lemma open_session_bracketed cs open :
  well_bracketed None cs = Some open -> reg_session_id <$> open_session cs = open.
Proof.
  unfold open_session.
  assert (forall o open', well_bracketed (reg_session_id <$> o) cs = Some open' ->
    reg_session_id <$> fold_left open_step cs o = open') as H; [|by apply (H None)].
  induction cs as [|[reg|id reason] cs IH]; intros o open'; cbn.
  - by intros [= <-].
  - destruct o; [done|]. cbn. apply (IH (Some reg)).
  - destruct o as [reg|]; [|done]. cbn.
    destruct (reg_session_id reg =? id); [|done]. apply (IH None).
Qed.

(** The registry follows the supervisor's sessions. However the session
    states arrive (late, repeated, or with generations missing), the tracker
    never opens a session over another and only ends the one it opened; the
    sessions it registers have strictly increasing generations, so an
    obsolete transport is never registered after a newer one; and the session
    left open by its commands is exactly the one it tracks. *)
Theorem tracked_sessions_are_bracketed states :
  let k := track states in
  well_bracketed None (sent k) = Some (snd <$> tracked (tracker k)) /\
  StronglySorted Z.lt (generations_registered k) /\
  reg_session_id <$> open_session (sent k) = snd <$> tracked (tracker k).
Proof.
  cbn zeta. unfold track.
  set (k0 := {| tracker := new_tracker; sent := []; generations_registered := [] |}).
  assert (forall k, tracker_ok (tracker k) ->
    well_bracketed None (sent k) = Some (snd <$> tracked (tracker k)) -> gens_ok k ->
    let k := fold_left track_step states k in
    well_bracketed None (sent k) = Some (snd <$> tracked (tracker k)) /\
    StronglySorted Z.lt (generations_registered k)) as H.
  { induction states as [|s states IH]; intros k Ht Hb Hg; [by destruct Hg|]. cbn.
    destruct (track_step_ok k s Ht Hb). apply IH; [done..|]. by apply track_step_gens. }
  destruct (H k0) as [Hb Hs]; [done..| |].
  { split; constructor. }
  split; [done|]. split; [done|]. by apply open_session_bracketed.
Qed.

(** ** What happened since the session was registered *)

Inductive Happening :=
| Fed (event : FeedEvent)
| Polled (drained : list ClientDiagnosticEvent) (client : ClientDiagnosticsSnapshot).

(** The transitions of a receiver, the session phases, and the counter
    readings, in the order in which the worker saw them. *)
Definition transitions (x : ReceiverId) (log : list Happening) : list ReceiverLifecycle :=
  omap (fun h => match h with
                 | Fed e => match fe_payload e with
                            | ReceiverTransition changed to => if changed ==? x then Some to else None
                            | _ => None
                            end
                 | Polled _ _ => None
                 end) log.
Definition phases (log : list Happening) : list SessionPhase :=
  omap (fun h => match h with
                 | Fed e => match fe_payload e with
                            | SessionTransition entered _ => Some entered
                            | _ => None
                            end
                 | Polled _ _ => None
                 end) log.
Definition audios (log : list Happening) : list DefiniteBaseline :=
  omap (fun h => match h with
                 | Polled _ client => baseline_of <$> ClientDiag.client_audio client
                 | Fed _ => None
                 end) log.

(** Lost capture audio, a transport warning, a failed feedback answer. *)
Definition lost_audio (h : Happening) : bool :=
  match h with
  | Fed e => match fe_payload e with PcmDrop dropped => 0 <? dropped | _ => false end
  | Polled _ _ => false
  end.
Definition warns (e : ClientDiagnosticEvent) : bool :=
  match ClientDiag.ev_kind e with ClientDiag.KRuntimeWarning => true | _ => false end.
Definition warned (h : Happening) : bool :=
  match h with Polled drained _ => existsb warns drained | Fed _ => false end.
Definition feedback_bad (h : Happening) : bool :=
  match h with
  | Polled _ client => existsb feedback_failed (ClientDiag.connections client)
  | Fed _ => false
  end.

(** A counter of loss was higher than at the reading before. *)
Definition increased (a b : DefiniteBaseline) : bool :=
  (capture_queue_full_drops a <? capture_queue_full_drops b)
  || (buffer_underruns a <? buffer_underruns b)
  || (udp_send_failures a <? udp_send_failures b)
  || (retransmit_history_misses a <? retransmit_history_misses b).
Fixpoint grown (bs : list DefiniteBaseline) : bool :=
  match bs with
  | a :: rest => is_some_and (head rest) (increased a) || grown rest
  | [] => false
  end.

Definition alarmed (log : list Happening) : bool :=
  existsb lost_audio log || existsb warned log || grown (audios log).

(** The health the badge should show. *)
Definition reference_health (reg : SessionRegistration) (log : list Happening) : Health :=
  if existsb (fun x => is_some_and (last (transitions (fst x) log)) is_failed_lifecycle)
       (map_to_list (reg_members reg))
     || match last (phases log) with Some (PhFailed _ _) => true | _ => false end
  then HealthError
  else if match last (phases log) with Some (PhDegraded _) => true | _ => false end
          || alarmed log || existsb feedback_bad log
  then HealthAttention
  else HealthRunning.

Lemma existsb_snoc {A} (f : A -> bool) l x : existsb f (l ++ [x]) = existsb f l || f x.
Proof. rewrite existsb_app. cbn. by rewrite orb_false_r. Qed.

Lemma omap_snoc {A B} (f : A -> option B) l x :
  omap f (l ++ [x]) = omap f l ++ match f x with Some y => [y] | None => [] end.
Proof. rewrite omap_app. cbn. by destruct (f x). Qed.

Lemma grown_snoc bs b : grown (bs ++ [b]) = grown bs || is_some_and (last bs) (fun a => increased a b).
Proof.
  induction bs as [|a bs IH]; [done|]. cbn [app grown]. rewrite IH.
  destruct bs as [|a' bs]; cbn [app head is_some_and grown last]; [by rewrite orb_false_r|].
  by rewrite orb_assoc.
Qed.

Section Worker.
Context `{!Debug Discovery.DiscoveryPhase, !Debug ReceiverLifecycle, !Debug SetupPhase,
          !Debug SessionPhase, !Debug Supervisor.RestartReason, !Debug AudioSourceState,
          !Debug PersistenceSnapshot, !Debug SystemTransition,
          !Debug DiagRing.CalibrationApplyState, !Debug DefiniteCounterKind}.

(** ** Draining the source *)

Fixpoint drained_by (rounds : nat) (source : ClientDiagnosticsSource)
  : list ClientDiagnosticEvent * ClientDiagnosticsSource :=
  match rounds with
  | O => ([], source)
  | S rounds =>
      match drain_events source 512 with
      | (source, []) => ([], source)
      | (source, drained) => let '(more, source) := drained_by rounds source in (drained ++ more, source)
      end
  end.

Lemma drain_client_events_eq rounds r w source :
  drain_client_events rounds r w source
  = (fold_left (ingest_client_event r) (fst (drained_by rounds source)) w,
     snd (drained_by rounds source)).
Proof.
  revert w source. induction rounds as [|rounds IH]; intros w source; [done|]. cbn [drain_client_events drained_by].
  destruct (drain_events source 512) as [source' [|e drained]]; [done|]. rewrite IH.
  destruct (drained_by rounds source') as [more source'']. cbn [fst snd].
  by rewrite fold_left_app.
Qed.

(** ** Frame conditions

    What the worker's helpers leave alone: everything but the ring and the
    attention flag. *)

Definition steady (w w' : WorkerState) : Prop :=
  active w' = active w /\ retained w' = retained w /\ lifecycle w' = lifecycle w /\
  phase w' = phase w /\ feedback_attention w' = feedback_attention w /\
  pcm_drop_accumulator w' = pcm_drop_accumulator w /\ sequence w' = sequence w /\
  dropped_total w' = dropped_total w /\ current w' = current w.

#[local] Instance steady_preorder : PreOrder steady.
Proof.
  split; [by intros w|]. unfold steady. intros w w' w''.
  intros (?&?&?&?&?&?&?&?&?) (?&?&?&?&?&?&?&?&?). repeat split; congruence.
Qed.

Lemma ingest_client_steady r w e :
  steady w (ingest_client_event r w e) /\
  definite_baseline (ingest_client_event r w e) = definite_baseline w /\
  attention_definite (ingest_client_event r w e) = attention_definite w || warns e.
Proof.
  unfold ingest_client_event, warns. destruct (ClientDiag.ev_kind e); cbn;
    rewrite ?orb_false_r, ?orb_true_r; by repeat split.
Qed.

Lemma ingest_clients_steady r es w :
  steady w (fold_left (ingest_client_event r) es w) /\
  definite_baseline (fold_left (ingest_client_event r) es w) = definite_baseline w /\
  attention_definite (fold_left (ingest_client_event r) es w) = attention_definite w || existsb warns es.
Proof.
  revert w. induction es as [|e es IH]; intros w; cbn; [by rewrite orb_false_r|].
  destruct (IH (ingest_client_event r w e)) as (H1 & H2 & H3).
  destruct (ingest_client_steady r w e) as (G1 & G2 & G3).
  split; [by etrans|]. rewrite H2, G2, H3, G3, orb_assoc. done.
Qed.

Lemma observe_increase_steady r w previous x :
  steady w (observe_increase r w previous x) /\
  definite_baseline (observe_increase r w previous x) = definite_baseline w /\
  (is_Some (active w) ->
   attention_definite (observe_increase r w previous x) = attention_definite w || (previous <? x.1.1.1)).
Proof.
  destruct x as [[[now kind] component] code]. cbn [fst].
  unfold observe_increase. destruct (previous <? now); cbn [andb]; rewrite ?orb_false_r;
    [|by repeat split].
  destruct (active w) eqn:E; cbn; rewrite ?orb_true_r; repeat split; done.
Qed.

Lemma observe_steady r w client :
  is_Some (active w) ->
  steady w (observe_definite_counters r w client) /\
  definite_baseline (observe_definite_counters r w client)
  = match ClientDiag.client_audio client with
    | Some audio => Some (baseline_of audio)
    | None => definite_baseline w
    end /\
  attention_definite (observe_definite_counters r w client)
  = attention_definite w ||
    match ClientDiag.client_audio client, definite_baseline w with
    | Some audio, Some baseline => increased baseline (baseline_of audio)
    | _, _ => false
    end.
Proof.
  intros Ha. unfold observe_definite_counters.
  destruct (ClientDiag.client_audio client) as [audio|]; [|by rewrite orb_false_r].
  destruct (definite_baseline w) as [b|] eqn:Eb; [|cbn; by rewrite orb_false_r].
  cbn [watched fmap list_fmap zip zip_with fold_left fst].
  destruct (observe_increase_steady r w (capture_queue_full_drops b)
    (capture_queue_full_drops (baseline_of audio), DiagRing.CaptureDrops, DiagRing.CompCapture,
     DiagRing.CaptureQueueFull)) as (S1 & _ & A1).
  set (w1 := observe_increase r w _ _) in *.
  destruct (observe_increase_steady r w1 (buffer_underruns b)
    (buffer_underruns (baseline_of audio), DiagRing.BufferUnderruns, DiagRing.CompBuffer,
     DiagRing.BufferUnderrun)) as (S2 & _ & A2).
  set (w2 := observe_increase r w1 _ _) in *.
  destruct (observe_increase_steady r w2 (udp_send_failures b)
    (udp_send_failures (baseline_of audio), DiagRing.UdpSendFailures, DiagRing.CompUdpTransport,
     DiagRing.UdpSendFailure)) as (S3 & _ & A3).
  set (w3 := observe_increase r w2 _ _) in *.
  destruct (observe_increase_steady r w3 (retransmit_history_misses b)
    (retransmit_history_misses (baseline_of audio), DiagRing.RetransmitHistoryMisses,
     DiagRing.CompRetransmit, DiagRing.RetransmitHistoryMiss)) as (S4 & _ & A4).
  set (w4 := observe_increase r w3 _ _) in *. clearbody w1 w2 w3 w4.
  assert (steady w w2) as S12 by by etrans. assert (steady w w3) as S13 by by etrans.
  assert (steady w w4) as S14 by by etrans.
  split; [exact S14|]. split; [done|].
  change (attention_definite w4 = attention_definite w || increased b (baseline_of audio)).
  rewrite A4, A3, A2, A1 by (destruct S1 as [E1 _], S12 as [E2 _], S13 as [E3 _];
    rewrite ?E1, ?E2, ?E3; exact Ha).
  cbn [fst]. unfold increased. by rewrite !orb_assoc.
Qed.

(** ** Publication *)

Definition polled (r : Reading) (clients : Clients) (reg : SessionRegistration) : Happening :=
  let '(drained, source) := drained_by 16 (client_source clients (reg_source reg)) in
  Polled drained (source_snapshot source (elapsed_ns r)).

(** What a poll of the source does to the worker. *)
Definition polled_into (h : Happening) (w w' : WorkerState) : Prop :=
  active w' = active w /\ retained w' = retained w /\ lifecycle w' = lifecycle w /\
  phase w' = phase w /\ pcm_drop_accumulator w' = pcm_drop_accumulator w /\
  sequence w' = sequence w /\ dropped_total w' = dropped_total w /\
  definite_baseline w' = match last (audios [h]) with Some b => Some b | None => definite_baseline w end /\
  attention_definite w'
  = attention_definite w || warned h ||
    match last (audios [h]), definite_baseline w with
    | Some b, Some a => increased a b
    | _, _ => false
    end /\
  feedback_attention w' = feedback_attention w || feedback_bad h.

Lemma poll_source_spec r clients w reg w' source client :
  active w = Some reg ->
  poll_source r w (client_source clients (reg_source reg)) = (w', source, client) ->
  polled_into (polled r clients reg) w w'.
Proof.
  intros Ha. unfold poll_source, polled. rewrite drain_client_events_eq.
  destruct (drained_by 16 _) as [drained source0] eqn:Ed. cbn [fst snd].
  destruct (ingest_clients_steady r drained w) as ((E1&E2&E3&E4&E5&E6&E7&E8&E9) & B1 & A1).
  set (w1 := fold_left _ drained w) in *. set (client0 := source_snapshot source0 _).
  assert (is_Some (active w1)) as Ha1 by (rewrite E1, Ha; eauto).
  destruct (observe_steady r w1 client0 Ha1) as ((F1&F2&F3&F4&F5&F6&F7&F8&F9) & B2 & A2).
  set (w2 := observe_definite_counters r w1 client0) in *. clearbody w1 w2 client0.
  intros [= <- _ _].
  assert (forall v, v = (if existsb feedback_failed (ClientDiag.connections client0)
                         then w2 <| feedback_attention := true |> else w2) ->
    polled_into (Polled drained client0) w v) as H; [|by apply H].
  intros v Hv. unfold polled_into, audios. cbn [omap list_omap warned feedback_bad].
  assert (definite_baseline w2 = match ClientDiag.client_audio client0 with
            | Some audio => Some (baseline_of audio) | None => definite_baseline w end) as B3.
  { by rewrite B2, B1. }
  rewrite B1, A1 in A2.
  destruct (existsb feedback_failed _); subst v;
    cbn [active retained lifecycle phase pcm_drop_accumulator sequence dropped_total
         definite_baseline attention_definite feedback_attention upd];
    rewrite B3, A2, ?orb_true_r, ?orb_false_r;
    (repeat split; try congruence); by destruct (ClientDiag.client_audio client0).
Qed.

Definition member_key (reg : SessionRegistration) (m : ReceiverId * DeviceId)
  : DiagRing.ReceiverSessionKey :=
  {| DiagRing.session_id := reg_session_id reg; DiagRing.receiver_id := fst m |}.

(** The published snapshot shows the worker's state. *)
Record in_sync (w : WorkerState) : Prop := {
  sync_health : health (current w) = compute_health w;
  sync_session : active_session_id (current w) = reg_session_id <$> active w;
  sync_sequence : snapshot_sequence (current w) = sequence w;
  sync_dropped : diagnostics_events_dropped_total (current w) = dropped_total w;
  sync_rows :
    match active w, retained w with
    | Some reg, _ =>
        rd_key <$> receivers (current w) = member_key reg <$> members_in_order (reg_members reg) /\
        rd_lifecycle <$> receivers (current w)
          = (fun m => default Discovered (lifecycle w !! fst m)) <$> members_in_order (reg_members reg) /\
        exists s, session (current w) = Some s /\ sd_session_id s = reg_session_id reg /\
          sd_members s = reg_members reg /\ sd_phase s = phase w /\ sd_finished_elapsed_ns s = None
    | None, Some kept =>
        receivers (current w) = retained_receivers kept /\
        session (current w) = Some (retained_session kept)
    | None, None => receivers (current w) = [] /\ session (current w) = None
    end;
}.

Lemma publish_spec r clients w :
  let w' := fst (publish r clients w) in
  in_sync w' /\ active w' = active w /\ retained w' = retained w /\
  lifecycle w' = lifecycle w /\ phase w' = phase w /\ dropped_total w' = dropped_total w /\
  pcm_drop_accumulator w' = pcm_drop_accumulator w /\ sequence w' = u64_succ (sequence w) /\
  match active w with
  | Some reg =>
      exists v, polled_into (polled r clients reg) w v /\
        definite_baseline w' = definite_baseline v /\
        attention_definite w' = attention_definite v /\ feedback_attention w' = feedback_attention v
  | None => True
  end.
Proof.
  cbn zeta. unfold publish. destruct (active w) as [reg|] eqn:Ea.
  - destruct (poll_source r w _) as [[v source] client] eqn:Ep.
    pose proof (poll_source_spec _ _ _ _ _ _ _ Ea Ep) as Hp.
    pose proof Hp as (E1&E2&E3&E4&E5&E6&E7&_). rewrite Ea in E1. cbn [fst].
    split; [|cbn [active retained lifecycle phase dropped_total pcm_drop_accumulator sequence
                  definite_baseline attention_definite feedback_attention upd];
             rewrite ?E6; repeat split; try done; by exists v].
    constructor; cbn [current health active_session_id snapshot_sequence sequence
      diagnostics_events_dropped_total receivers session active retained upd]; rewrite ?E1.
    + unfold compute_health. cbn [active lifecycle phase attention_definite feedback_attention upd].
      by rewrite E1.
    + done.
    + done.
    + done.
    + unfold build_receiver_rows. rewrite <- !list_fmap_compose. split; [|split].
      * apply list_fmap_ext. intros i [? ?] _. done.
      * apply list_fmap_ext. intros i [? ?] _. done.
      * eexists. split; [done|]. done.
  - destruct (retained w) as [kept|] eqn:Er; cbn [fst];
      (split; [|cbn; rewrite ?Ea, ?Er; by repeat split]);
      (constructor; cbn; rewrite ?Ea, ?Er; try done);
      unfold compute_health; cbn; by rewrite Ea.
Qed.

(** ** Runs *)

(** Rounds of the worker, between which connections record into their entries
    and streamers move their counters. *)
Inductive Step :=
| InRound (round : Round)
| InClient (source : Z) (index : nat) (op : ClientDiag.EntryOp)
| InStream (source : Z) (audio : option ClientDiag.AudioDiagnosticsSnapshot).

Record Traced := { tw : WorkerState; tc : Clients; tlog : list Happening }.

Definition is_register (c : Command) : bool := match c with Register _ => true | _ => false end.

Definition traced_publish (r : Reading) (clients : Clients) (w : WorkerState)
    (log : list Happening) : Traced :=
  {| tw := fst (publish r clients w); tc := snd (publish r clients w);
     tlog := match active w with Some reg => log ++ [polled r clients reg] | None => log end |}.

Definition change_source (f : ClientDiagnosticsSource -> ClientDiagnosticsSource) (source : Z)
    (t : Traced) : Traced :=
  {| tw := tw t; tc := <[source := f (client_source (tc t) source)]> (tc t); tlog := tlog t |}.

Definition traced_step (t : Traced) (s : Step) : Traced :=
  match s with
  | InRound (Commands r []) => t
  | InRound (Commands r pending) =>
      traced_publish r (tc t) (apply_commands r (tc t) (tw t) pending)
        (if existsb is_register pending then [] else tlog t)
  | InRound (Received r event) =>
      traced_publish r (tc t) (ingest_backend_event r (tw t) event) (tlog t ++ [Fed event])
  | InClient source i op =>
      change_source (fun s => s <| ClientDiag.entries :=
        alter (ClientDiag.apply_entry op) i (ClientDiag.entries s) |>) source t
  | InStream source audio =>
      change_source (fun s => s <| ClientDiag.source_audio := audio |>) source t
  end.

Definition traced_run (r : Reading) (clients : Clients) (steps : list Step) : Traced :=
  fold_left traced_step steps (traced_publish r clients (new_worker r) []).

(** The trace only adds the log. *)
Lemma traced_round t round :
  (tw (traced_step t (InRound round)), tc (traced_step t (InRound round)))
  = worker_round (tw t, tc t) round.
Proof.
  destruct round as [r [|c cs]|r event]; cbn [traced_step worker_round]; [done|..];
    unfold traced_publish; cbn [tw tc]; by rewrite <- surjective_pairing.
Qed.

(** Counts on the feed are unsigned. *)
Definition step_ok (s : Step) : Prop :=
  match s with
  | InRound (Received _ event) =>
      match fe_payload event with PcmDrop dropped => 0 <= dropped | _ => True end
  | _ => True
  end.

(** The worker's memory of the session is what the log says. *)
Definition remembers (reg : SessionRegistration) (w : WorkerState) (log : list Happening) : Prop :=
  (forall x, lifecycle w !! x
             = if reg_members reg !! x then last (transitions x log) else None) /\
  phase w = last (phases log) /\
  attention_definite w = alarmed log /\
  feedback_attention w = existsb feedback_bad log /\
  definite_baseline w = last (audios log) /\
  0 <= pcm_drop_accumulator w /\
  (0 < pcm_drop_accumulator w -> existsb lost_audio log = true).

Definition memory_ok (w : WorkerState) (log : list Happening) : Prop :=
  match active w with Some reg => remembers reg w log | None => True end.

Lemma apply_command_memory r clients w c log :
  memory_ok w log -> memory_ok (apply_command r clients w c) (if is_register c then [] else log).
Proof.
  unfold memory_ok. intros Hm. destruct c as [reg|id reason]; cbn.
  - split; [intros x; by destruct (reg_members reg !! x)|]. by repeat split.
  - destruct (active w) as [reg|] eqn:Ea; [|by rewrite Ea].
    destruct (reg_session_id reg =? id); cbn; [done|by rewrite Ea].
Qed.

Lemma apply_commands_memory r clients w cs log :
  memory_ok w log ->
  memory_ok (apply_commands r clients w cs) (if existsb is_register cs then [] else log).
Proof.
  unfold apply_commands. revert w log. induction cs as [|c cs IH]; intros w log Hm; [done|]. cbn.
  pose proof (IH _ _ (apply_command_memory r clients w c log Hm)) as H.
  by destruct (is_register c), (existsb is_register cs).
Qed.

(** A poll is remembered. *)
Lemma polled_remembers reg h w v w' log :
  polled_into h w v -> (exists drained client, h = Polled drained client) ->
  lifecycle w' = lifecycle w -> phase w' = phase w ->
  pcm_drop_accumulator w' = pcm_drop_accumulator w ->
  definite_baseline w' = definite_baseline v -> attention_definite w' = attention_definite v ->
  feedback_attention w' = feedback_attention v ->
  remembers reg w log -> remembers reg w' (log ++ [h]).
Proof.
  intros (_&_&_&_&_&_&_&Eb&Ea&Ef) (drained & client & ->) G1 G2 G3 G4 G5 G6
    (R1&R2&R3&R4&R5&R6&R7).
  unfold remembers. rewrite G1, G2, G3, G4, G5, G6, Eb, Ea, Ef, R2, R3, R4, R5.
  unfold phases, alarmed, audios. rewrite !omap_snoc, !existsb_snoc, !app_nil_r.
  cbn [lost_audio warned feedback_bad]. rewrite orb_false_r.
  split; [intros x; unfold transitions; rewrite omap_snoc, app_nil_r; apply R1|].
  split; [done|]. split; [|split; [done|split; [|done]]].
  - cbn [omap list_omap]. destruct (ClientDiag.client_audio client) as [audio|]; cbn.
    + rewrite grown_snoc. destruct (existsb lost_audio log), (existsb warned log), (existsb warns drained),
        (grown _), (last _); done.
    + rewrite app_nil_r.
      by destruct (existsb lost_audio log), (existsb warned log), (existsb warns drained), (grown _).
  - cbn [omap list_omap]. destruct (ClientDiag.client_audio client) as [audio|]; cbn.
    + by rewrite last_snoc.
    + by rewrite app_nil_r.
Qed.

(** A record of the feed is remembered. *)
Lemma fed_remembers reg r w event log :
  step_ok (InRound (Received r event)) -> active w = Some reg -> remembers reg w log ->
  remembers reg (ingest_backend_event r w event) (log ++ [Fed event]).
Proof.
  intros Hok Ha (R1&R2&R3&R4&R5&R6&R7). unfold remembers, ingest_backend_event, push.
  unfold phases, alarmed, audios. rewrite !omap_snoc, !existsb_snoc, !app_nil_r.
  cbn [warned feedback_bad lost_audio]. rewrite !orb_false_r. cbn in Hok.
  assert (forall x, match fe_payload event with ReceiverTransition _ _ => False | _ => True end ->
    last (transitions x (log ++ [Fed event])) = last (transitions x log)) as Hsame.
  { intros x Hx. unfold transitions. rewrite omap_snoc.
    destruct (fe_payload event); by rewrite ?app_nil_r. }
  destruct (fe_payload event) eqn:Ep; cbn [lifecycle phase attention_definite feedback_attention
    definite_baseline pcm_drop_accumulator upd app];
    rewrite ?app_nil_r, ?orb_false_r;
    try (split; [intros x; rewrite Hsame by exact I; apply R1|];
         repeat split; try done; fail).
  - (* a receiver's transition *)
    unfold is_active_member. rewrite Ha. cbn [is_some_and].
    split; [|case_bool_decide; by repeat split].
    intros x. unfold transitions. rewrite omap_snoc, Ep.
    destruct (decide (receiver = x)) as [->|Hne].
    + rewrite (bool_decide_eq_true_2 (x = x)) by done. rewrite last_snoc.
      destruct (reg_members reg !! x) eqn:Ex.
      * rewrite bool_decide_eq_true_2 by eauto. cbn. by rewrite lookup_insert_eq.
      * rewrite bool_decide_eq_false_2 by (by intros [? [=]]). rewrite R1, Ex. done.
    + rewrite (bool_decide_eq_false_2 (receiver = x)), app_nil_r by done.
      case_bool_decide; cbn; rewrite ?lookup_insert_ne by done; apply R1.
  - (* a phase *)
    split; [intros x; rewrite Hsame by exact I; apply R1|]. rewrite last_snoc. by repeat split.
  - (* lost audio *)
    rewrite Ha. cbn [active is_none negb andb pcm_drop_accumulator upd].
    assert (sat_add 64 (pcm_drop_accumulator w) dropped = pcm_drop_accumulator w \/
            pcm_drop_accumulator w < sat_add 64 (pcm_drop_accumulator w) dropped \/
            2 ^ 64 - 1 < pcm_drop_accumulator w) as Hacc by (unfold sat_add; lia).
    destruct (pcm_drop_accumulator w <? sat_add 64 (pcm_drop_accumulator w) dropped) eqn:El;
      [apply Z.ltb_lt in El|apply Z.ltb_ge in El];
      cbn [lifecycle phase attention_definite feedback_attention definite_baseline
           pcm_drop_accumulator record_definite_transition push upd];
      (split; [intros x; rewrite Hsame by exact I; apply R1|]);
      (split; [done|]); (split; [|split; [done|split; [done|]]]).
    + assert (0 < dropped) as Hd by (unfold sat_add in *; lia).
      apply Z.ltb_lt in Hd. by rewrite Hd, !orb_true_r.
    + assert (0 < dropped) as Hd by (unfold sat_add in *; lia).
      apply Z.ltb_lt in Hd. rewrite Hd, orb_true_r. split; [lia|done].
    + rewrite R3. unfold alarmed, audios. destruct (Z.ltb_spec 0 dropped); [|by rewrite orb_false_r].
      rewrite R7; [done|]. unfold sat_add in *. lia.
    + split; [unfold sat_add in *; lia|]. intros Hp. destruct (Z.ltb_spec 0 dropped).
      * by rewrite orb_true_r.
      * rewrite orb_false_r. apply R7. unfold sat_add in *. lia.
Qed.

Lemma ingest_active r w event : active (ingest_backend_event r w event) = active w.
Proof.
  unfold ingest_backend_event, push. destruct (fe_payload event); try done; cbn.
  - by destruct (is_active_member w receiver).
  - by destruct (negb (is_none (active w)) && _).
Qed.

Lemma apply_commands_active r clients w cs :
  active (apply_commands r clients w cs) = fold_left open_step cs (active w).
Proof.
  unfold apply_commands. revert w. induction cs as [|c cs IH]; intros w; [done|]. cbn [fold_left].
  rewrite IH. f_equal. destruct c as [reg|id reason]; [done|]. cbn.
  destruct (active w) as [reg|] eqn:Ea; [|done]. by destruct (reg_session_id reg =? id).
Qed.

Definition commands_of (steps : list Step) : list Command :=
  steps ≫= fun s => match s with InRound (Commands _ pending) => pending | _ => [] end.

(** The invariant of a run. *)
Definition traced_ok (open : option SessionRegistration) (t : Traced) : Prop :=
  active (tw t) = open /\ in_sync (tw t) /\ memory_ok (tw t) (tlog t).

Lemma traced_publish_ok r clients w log :
  memory_ok w log -> traced_ok (active w) (traced_publish r clients w log).
Proof.
  intros Hm. unfold traced_ok, traced_publish. cbn [tw tlog].
  destruct (publish_spec r clients w) as (Hs & E1 & E2 & E3 & E4 & E5 & E6 & E7 & Hp).
  split; [done|]. split; [done|]. unfold memory_ok in *. rewrite E1.
  destruct (active w) as [reg|]; [|done]. destruct Hp as (v & Hv & G1 & G2 & G3).
  eapply polled_remembers; try done. unfold polled. destruct (drained_by 16 _). eauto.
Qed.

Lemma traced_step_ok open t s :
  step_ok s -> traced_ok open t ->
  traced_ok (fold_left open_step (commands_of [s]) open) (traced_step t s).
Proof.
  intros Hok (Ha & Hs & Hm). destruct s as [[r [|c cs]|r event]|source i op|source audio].
  - done.
  - cbn [commands_of mbind list_bind app]. rewrite app_nil_r. cbn [traced_step].
    rewrite <- Ha, <- (apply_commands_active r (tc t)).
    apply traced_publish_ok. by apply apply_commands_memory.
  - cbn [commands_of mbind list_bind app fold_left traced_step].
    rewrite <- Ha, <- (ingest_active r (tw t) event). apply traced_publish_ok.
    unfold memory_ok in *. rewrite ingest_active.
    destruct (active (tw t)) as [reg|] eqn:Er; [|done]. by apply fed_remembers.
  - done.
  - done.
Qed.

Lemma reference_compute reg w log :
  active w = Some reg -> remembers reg w log -> compute_health w = reference_health reg log.
Proof.
  intros Ha (R1&R2&R3&R4&_). unfold compute_health, reference_health. rewrite Ha, R2, R3, R4.
  cbn [is_none]. f_equal.
  assert (existsb (fun x => is_failed_lifecycle x.2) (map_to_list (lifecycle w))
          = existsb (fun x => is_some_and (last (transitions (fst x) log)) is_failed_lifecycle)
              (map_to_list (reg_members reg))) as ->; [|done].
  apply eq_true_iff_eq. rewrite !existsb_elem. split.
  - intros ([x l] & Hx & Hf). apply elem_of_map_to_list in Hx. rewrite R1 in Hx.
    destruct (reg_members reg !! x) as [d|] eqn:Ed; [|done].
    exists (x, d). split; [by apply elem_of_map_to_list|]. cbn. by rewrite Hx.
  - intros ([x d] & Hx & Hf). apply elem_of_map_to_list in Hx. cbn in Hf.
    destruct (last (transitions x log)) as [l|] eqn:El; [|done].
    exists (x, l). split; [|done]. apply elem_of_map_to_list. by rewrite R1, Hx.
Qed.

Lemma members_in_order_elem m members : m ∈ members_in_order members -> members !! m.1 = Some m.2.
Proof.
  unfold members_in_order. rewrite isort_perm. destruct m. by rewrite elem_of_map_to_list.
Qed.

(** C18: the registry reports the session, and its badge is explained. After
    any rounds of the worker, between which connections and streamers go on
    recording: the snapshot on display names exactly the session that was
    registered last and not finished; it has one row per member, keyed by
    that session, in receiver order, each with the last lifecycle the feed
    reported for it; and the health badge is a function of what was seen since
    the registration: Error exactly when the last phase or some member's last
    state is a failure, otherwise Attention exactly when the stream is
    degraded, audio was lost, a loss counter grew, a transport warning was
    drained or a feedback answer failed, and Unknown when nothing is
    registered. *)
Theorem registry_reports_the_session r clients steps :
  Forall step_ok steps ->
  let t := traced_run r clients steps in
  let shown := current (tw t) in
  active_session_id shown = reg_session_id <$> open_session (commands_of steps) /\
  match open_session (commands_of steps) with
  | Some reg =>
      health shown = reference_health reg (tlog t) /\
      rd_key <$> receivers shown = member_key reg <$> members_in_order (reg_members reg) /\
      rd_lifecycle <$> receivers shown
        = (fun m => default Discovered (last (transitions (fst m) (tlog t))))
          <$> members_in_order (reg_members reg) /\
      exists s, session shown = Some s /\ sd_session_id s = reg_session_id reg /\
        sd_members s = reg_members reg /\ sd_phase s = last (phases (tlog t)) /\
        sd_finished_elapsed_ns s = None
  | None => health shown = HealthUnknown
  end.
Proof.
  intros Hok. cbn zeta. unfold traced_run, open_session.
  assert (forall open t, traced_ok open t ->
    traced_ok (fold_left open_step (commands_of steps) open) (fold_left traced_step steps t)) as Hrun.
  { induction Hok as [|s steps Hs Hok IH]; intros open t Ht; [done|].
    change (s :: steps) with ([s] ++ steps). unfold commands_of. rewrite bind_app, !fold_left_app.
    apply IH. by apply traced_step_ok. }
  destruct (Hrun None (traced_publish r clients (new_worker r) [])) as (Ha & [S1 S2 S3 S4 S5] & Hm).
  { by apply (traced_publish_ok r clients (new_worker r) []). }
  set (t := fold_left traced_step steps _) in *. rewrite S2, S1, <- Ha. split; [done|].
  unfold memory_ok in Hm. destruct (active (tw t)) as [reg|] eqn:Er.
  - pose proof Hm as (R1 & R2 & _). destruct S5 as (H1 & H2 & H3). split; [by apply reference_compute|].
    split; [done|]. split; [|by rewrite <- R2].
    rewrite H2. apply list_fmap_ext. intros i m Hi.
    apply list_elem_of_lookup_2, members_in_order_elem in Hi. by rewrite R1, Hi.
  - unfold compute_health. by rewrite Er.
Qed.

End Worker.

(** ** What the rows cannot say *)

(** The client leaves the per-receiver retransmit half zeroed, so a row always
    claims that its receiver asked for nothing, whatever the stream's own
    counters say. *)
Theorem receiver_retransmits_always_zero w reg source now :
  Forall (fun row => retransmit_slots_requested_total (rd_transport row) = 0 /\
                     recovery_demand_numerator_slots (rd_transport row) = 0)
    (build_receiver_rows w reg (source_snapshot source now)).
Proof.
  unfold build_receiver_rows. apply Forall_fmap, Forall_true. intros [x d].
  unfold compose, receiver_row. cbn [rd_transport rd_timing].
  destruct (List.find _ _) as [conn|] eqn:Ef; [|done].
  apply find_some in Ef as [Hin _]. apply list_elem_of_In in Hin.
  rewrite ClientDiag.snapshot_rows in Hin. apply list_elem_of_fmap in Hin as (e & -> & _). done.
Qed.

(** A row of the group's clock master is labelled as independently measured
    although no measurement ever reaches it. *)
Theorem measured_rows_hold_no_measurement w reg source now :
  Forall (fun row => rt_offset_local_minus_master_ns (rd_timing row) = None /\
                     rt_mean_path_delay_ns (rd_timing row) = None /\
                     rt_drift_ppm (rd_timing row) = None)
    (build_receiver_rows w reg (source_snapshot source now)).
Proof.
  unfold build_receiver_rows. apply Forall_fmap, Forall_true. intros [x d].
  unfold compose, receiver_row. cbn [rd_transport rd_timing].
  destruct (List.find _ _) as [conn|] eqn:Ef; [|done].
  apply find_some in Ef as [Hin _]. apply list_elem_of_In in Hin.
  rewrite ClientDiag.snapshot_rows in Hin. apply list_elem_of_fmap in Hin as (e & -> & _). cbn.
  by destruct (ClientDiag.timing_role _).
Qed.

(** ** Concrete runs *)

#[local] Instance some_debug A : Debug A := fun _ => "value".

Definition at_noon : Reading := {| now_utc := 12; elapsed_ns := 12 |}.
Definition sample_registration : SessionRegistration :=
  {| reg_session_id := 1; reg_started_elapsed_ns := 10;
     reg_primary := Some ClientDiag.sample_device;
     reg_members := {[ClientDiag.sample_device := ClientDiag.sample_device]}; reg_source := 7 |}.
Definition sample_clients : Clients := {[7 := ClientDiag.sample_source]}.
Definition fed (p : DiagnosticPayload) : Step :=
  InRound (Received at_noon
    {| fe_monotonic_ns := 11; fe_wall_time := 11;
       fe_generations := {| gen_session := 1; gen_discovery := 1; gen_capture := 1 |};
       fe_receiver := None; fe_severity := Info; fe_category := category_of_kind p;
       fe_payload := p |}).
Definition registered : Step := InRound (Commands at_noon [Register sample_registration]).
Definition sample_steps : list Step :=
  [registered; InClient 7 0 (ClientDiag.RuntimeWarning 5);
   fed (ReceiverTransition ClientDiag.sample_device (Streaming Primary))].

Lemma registry_reports_the_session_witness :
  let t := traced_run at_noon sample_clients sample_steps in
  Forall step_ok sample_steps /\
  health (current (tw t)) = HealthAttention /\
  active_session_id (current (tw t)) = reg_session_id <$> open_session (commands_of sample_steps).
Proof.
  assert (Forall step_ok sample_steps) as Hok by (repeat constructor).
  destruct (registry_reports_the_session at_noon sample_clients sample_steps Hok) as [H1 H2].
  split; [exact Hok|]. split; [vm_compute; reflexivity|exact H1].
Defined.

Definition client_records (w : WorkerState) : nat :=
  length (List.filter (fun e => match DiagRing.payload (DiagRing.content e) with
                                | DiagRing.Client _ => true | _ => false end)
            (DiagRing.entries (ring w))).

(** What a connection records between the last publication and the end of its
    session never reaches the ring: the finished session is not drained. *)
Theorem finish_strands_client_events :
  let t := traced_run at_noon sample_clients
    [registered; InClient 7 0 (ClientDiag.RuntimeWarning 5);
     InRound (Commands at_noon [Finish 1 Supervisor.ReasonStopped]);
     fed (Message "later"); fed (Message "much later")] in
  client_records (tw t) = 0%nat /\
  length (ClientDiag.waiting (ClientDiag.entries (client_source (tc t) 7))) = 1%nat.
Proof. vm_compute. split; reflexivity. Qed.

Definition with_drops (drops : Z) : option ClientDiag.AudioDiagnosticsSnapshot :=
  Some {| ClientDiag.sender_buffer :=
            {| Buffer.ss_queued_frames := 0; Buffer.ss_capacity_frames := 8;
               Buffer.ss_queued_samples_per_channel := 0; Buffer.ss_buffered_ns := 0;
               Buffer.ss_fill_ratio := f32_zero; Buffer.ss_samples_written_total := 0;
               Buffer.ss_samples_read_total := 0; Buffer.ss_underrun_events_total := 0 |};
          ClientDiag.capture_queue :=
            {| ClientDiag.cq_queued_frames := 0; ClientDiag.cq_capacity_frames := 8;
               ClientDiag.cq_submitted_frames_total := 0;
               ClientDiag.cq_submitted_samples_per_channel_total := 0;
               ClientDiag.cq_full_queue_drops_total := drops;
               ClientDiag.cq_disconnected_drops_total := 0 |};
          ClientDiag.scheduler := Jitter.snapshot Jitter.new_ring;
          ClientDiag.rtp_frames_prepared_total := 0; ClientDiag.targets := [];
          ClientDiag.retransmit := ClientDiag.default_retransmit |}.

Definition capture_drop_totals (w : WorkerState) : list (Z * Z) :=
  omap (fun e => match DiagRing.payload (DiagRing.content e) with
                 | DiagRing.DefiniteCounterTransition DiagRing.CaptureDrops previous now =>
                     Some (previous, now)
                 | _ => None
                 end) (DiagRing.entries (ring w)).

(** Two unrelated counters are reported under the one kind [CaptureDrops]: the
    records say the total rose to five, then from two to three. *)
Theorem capture_drop_totals_run_backwards :
  capture_drop_totals (tw (traced_run at_noon sample_clients
    [InStream 7 (with_drops 2); registered; fed (PcmDrop 5); InStream 7 (with_drops 3);
     fed (Message "tick")])) = [(0, 5); (2, 3)].
Proof. vm_compute. reflexivity. Qed.

End RegistryProps.
