(* ===== verification/Handle.v ===== *)
(** * The backend's command queue

    [DeviceBackendHandle] and [CommandReceipt] of
    [apps/openaircast/src/backend/command.rs]: identifiers are allocated before
    a command is offered to a queue of fixed capacity; a confirmed command
    comes with a receipt, which stays pending until the snapshot that contains
    the command's effect has been projected.

    A oneshot channel is named by the identifier of its command; what the
    producer did with it so far is an entry of [answers]. *)

From S2P Require Import Prelude Float32 AppState Model Wire Text Features Device TxtParser Browser Recovery Discovery Calibration DiagRing Supervisor Persistence Backend.
Import Backend.

Module Handle.

Definition COMMAND_CAPACITY : nat := 64.

Inductive BackendSendError := Busy | Closed.
#[export] Instance BackendSendError_eq_dec : EqDecision BackendSendError.
Proof. solve_decision. Defined.

(** ** Receipts *)

Inductive Oneshot := Answered (confirmation : CommandConfirmation) | Dropped.
Definition Answers : Type := gmap Z Oneshot.

Record CommandReceipt := { receiver : Z; confirmed : option CommandConfirmation }.
#[export] Instance eta_CommandReceipt : Eta CommandReceipt := fun r =>
  {| receiver := receiver r; confirmed := confirmed r |}.

Inductive ReceiptState := Pending | Completed (error : option CommandFailure) | Lost.
#[export] Instance ReceiptState_eq_dec : EqDecision ReceiptState.
Proof. solve_decision. Defined.

Definition session_generation_floor (r : CommandReceipt) (projected_revision : Z) : option Z :=
  match confirmed r with
  | Some c => if cc_revision c <=? projected_revision then cc_session_generation_floor c else None
  | None => None
  end.

(** The part of [poll] behind a confirmation. *)
Definition settle (projected_revision : Z) (c : CommandConfirmation) : ReceiptState :=
  if projected_revision <? cc_revision c then Pending else Completed (cc_error c).

Definition poll (answers : Answers) (r : CommandReceipt) (projected_revision : Z)
  : CommandReceipt * ReceiptState :=
  match confirmed r with
  | Some c => (r, settle projected_revision c)
  | None =>
      match answers !! receiver r with
      | None => (r, Pending)
      | Some Dropped => (r, Lost)
      | Some (Answered c) => (r <| confirmed := Some c |>, settle projected_revision c)
      end
  end.

(** ** The queue *)

Record Queue := {
  pending : list CommandEnvelope;
  next_id : Z;
  closed : bool;
}.
#[export] Instance eta_Queue : Eta Queue := fun q =>
  {| pending := pending q; next_id := next_id q; closed := closed q |}.
Definition new_queue : Queue := {| pending := []; next_id := 1; closed := false |}.

(** [mpsc::Sender::try_reserve_many]: room for [n] more. *)
Definition try_reserve (q : Queue) (n : nat) : Result unit BackendSendError :=
  if closed q then Err Closed
  else if (length (pending q) + n <=? COMMAND_CAPACITY)%nat then Ok tt else Err Busy.

Definition try_send_envelope (q : Queue) (command : BackendCommand) (confirm : bool)
  : Queue * Result Z BackendSendError :=
  let id := next_id q in
  let q := q <| next_id := u64_succ id |> in
  match try_reserve q 1 with
  | Err e => (q, Err e)
  | Ok _ =>
      (q <| pending := pending q ++
             [{| env_id := id; env_command := command;
                 env_confirmation := if confirm then Some id else None |}] |>, Ok id)
  end.

Definition try_send (q : Queue) (command : BackendCommand) : Queue * Result Z BackendSendError :=
  try_send_envelope q command false.

Definition try_send_confirmed (q : Queue) (command : BackendCommand)
  : Queue * Result (Z * CommandReceipt) BackendSendError :=
  match try_send_envelope q command true with
  | (q, Ok id) => (q, Ok (id, {| receiver := id; confirmed := None |}))
  | (q, Err e) => (q, Err e)
  end.

(** The loop of [try_send_batch] over the reserved permits. *)
Fixpoint send_all (q : Queue) (commands : list BackendCommand) : Queue * list Z :=
  match commands with
  | [] => (q, [])
  | command :: commands =>
      let id := next_id q in
      let q := q <| next_id := u64_succ id |>
                 <| pending := pending q ++
                      [{| env_id := id; env_command := command; env_confirmation := None |}] |> in
      let '(q, ids) := send_all q commands in (q, id :: ids)
  end.

Definition try_send_batch (q : Queue) (commands : list BackendCommand)
  : Queue * Result (list Z) BackendSendError :=
  match try_reserve q (length commands) with
  | Err e => (q, Err e)
  | Ok _ => let '(q, ids) := send_all q commands in (q, Ok ids)
  end.

Definition is_closed (q : Queue) : bool := closed q.

(** The actor takes everything that waits. *)
Definition drain (q : Queue) : Queue * list CommandEnvelope := (q <| pending := [] |>, pending q).

(** ** What a queue promises *)

(** Identifiers below the counter, oldest first, and never more than fit. *)
Definition queue_ok (q : Queue) : Prop :=
  StronglySorted Z.lt (env_id <$> pending q) /\
  Forall (fun e => env_id e < next_id q) (pending q) /\
  (length (pending q) <= COMMAND_CAPACITY)%nat.

Lemma sorted_snoc_lt (l : list Z) x :
  StronglySorted Z.lt l -> Forall (fun y => y < x) l -> StronglySorted Z.lt (l ++ [x]).
Proof.
  induction 1 as [|y l Hs IH Hy]; intros Hx; cbn; [by repeat constructor|].
  inversion Hx; subst. constructor; [by apply IH|]. apply Forall_app. split; [done|by constructor].
Qed.

Lemma queue_ok_push q command confirmation :
  queue_ok q -> 0 <= next_id q < 2 ^ 64 - 1 -> (length (pending q) < COMMAND_CAPACITY)%nat ->
  queue_ok (q <| next_id := u64_succ (next_id q) |>
              <| pending := pending q ++ [{| env_id := next_id q; env_command := command;
                                             env_confirmation := confirmation |}] |>).
Proof.
  intros (Hs & Hb & Hl) Hn Hc. unfold queue_ok. cbn [pending next_id upd].
  rewrite u64_succ_no_overflow, fmap_app, length_app by lia. cbn. split; [|split; [|lia]].
  - apply sorted_snoc_lt; [done|]. by apply Forall_fmap.
  - apply Forall_app. split; [|by repeat constructor; cbn; lia].
    eapply Forall_impl; [exact Hb|]. cbn. intros e He. lia.
Qed.

Lemma try_reserve_room q n :
  try_reserve q n = Ok tt -> (length (pending q) + n <= COMMAND_CAPACITY)%nat.
Proof. unfold try_reserve. destruct (closed q); [done|]. by destruct (Nat.leb_spec (length (pending q) + n) COMMAND_CAPACITY). Qed.

Lemma try_send_envelope_ok q command confirm :
  queue_ok q -> 0 <= next_id q < 2 ^ 64 - 1 -> queue_ok (fst (try_send_envelope q command confirm)).
Proof.
  intros Hq Hn. unfold try_send_envelope. cbn zeta.
  destruct (try_reserve _ 1) as [[]|e] eqn:Er; cbn [fst].
  - apply try_reserve_room in Er. cbn [pending upd] in Er.
    exact (queue_ok_push q command (if confirm then Some (next_id q) else None) Hq Hn ltac:(lia)).
  - destruct Hq as (Hs & Hb & Hl). split; [done|]. split; [|done].
    cbn [pending next_id upd]. rewrite u64_succ_no_overflow by lia.
    eapply Forall_impl; [exact Hb|]. cbn. intros x Hx. lia.
Qed.

Lemma send_all_spec q commands :
  pending (fst (send_all q commands)) = pending q ++
    zip_with (fun id command => {| env_id := id; env_command := command; env_confirmation := None |})
      (snd (send_all q commands)) commands /\
  length (snd (send_all q commands)) = length commands /\
  closed (fst (send_all q commands)) = closed q.
Proof.
  revert q. induction commands as [|command commands IH]; intros q; cbn [send_all]; [by rewrite app_nil_r|].
  specialize (IH (q <| next_id := u64_succ (next_id q) |>
    <| pending := pending q ++ [{| env_id := next_id q; env_command := command; env_confirmation := None |}] |>)).
  destruct (send_all _ commands) as [q' ids]. cbn [fst snd] in *. cbn [pending closed upd] in IH.
  destruct IH as (-> & Hl & Hc). cbn. rewrite Hl, <- app_assoc. done.
Qed.

(** A batch is admitted whole or not at all. *)
Lemma batch_is_atomic q commands :
  match try_send_batch q commands with
  | (q', Ok ids) =>
      env_command <$> pending q' = (env_command <$> pending q) ++ commands /\
      length ids = length commands
  | (q', Err _) => q' = q
  end.
Proof.
  unfold try_send_batch. destruct (try_reserve q _); [|done].
  destruct (send_all_spec q commands) as (Hp & Hl & _).
  destruct (send_all q commands) as [q' ids]. cbn [fst snd] in *. split; [|done].
  rewrite Hp, fmap_app. f_equal. clear Hp. revert commands Hl. induction ids as [|id ids IH]; intros [|c cs] Hl; try done.
  cbn in *. f_equal. apply IH. lia.
Qed.

(** A receipt that has been completed once answers the same from then on. *)
Lemma poll_stable answers answers' r revision revision' r' error :
  poll answers r revision = (r', Completed error) -> revision <= revision' ->
  poll answers' r' revision' = (r', Completed error).
Proof.
  unfold poll, settle. destruct (confirmed r) as [c|] eqn:Ec.
  - destruct (Z.ltb_spec revision (cc_revision c)); [done|]. intros [= <- <-] Hle. rewrite Ec.
    by destruct (Z.ltb_spec revision' (cc_revision c)); [lia|].
  - destruct (answers !! receiver r) as [[c|]|]; try done.
    destruct (Z.ltb_spec revision (cc_revision c)); [done|]. intros [= <- <-] Hle. cbn.
    by destruct (Z.ltb_spec revision' (cc_revision c)); [lia|].
Qed.

End Handle.
