(* ===== verification/Bridge.v ===== *)
(** * The bridge between shell and backend

    [apps/openaircast/src/backend_bridge]: downwards [BackendPort] turns device
    commands of the shell into backend commands and records what was asked
    ([commands.rs]); upwards [Projection::project] derives the events one
    backend snapshot implies ([projection.rs]); between them the loop of
    [run_bridge] ([runtime.rs]) delivers them through the shell's bounded queue.

    The shell's text is a [string] of UTF-8 bytes, the backend's a list of code
    points.  A [GenerationEcho] is shared by the shell's thread and the
    bridge's; each method holds the locks it takes, so it is one step. *)

From S2P Require Import Prelude Float32 AppState Model Wire Text Features Device TxtParser Browser Recovery Discovery Calibration Buffer Jitter TimingDiag RtpSender DiagRing Supervisor Persistence Backend ClientDiag Registry Handle.
Import Model.
Import Persistence (AudioEndpointPreference, SystemDefault, Explicit, DEFAULT_MASTER).
Import Handle (CommandReceipt, ReceiptState, Answers, Queue, Pending, Completed, Lost).

Module Bridge.

#[export] Existing Instances Handle.ReceiptState_eq_dec Handle.eta_Queue Backend.RunIntent_eq_dec
  Registry.ReceiverTimingSource_eq_dec.

(** ** Text *)

Definition show (t : text) : string :=
  String.string_of_list_ascii ((fun b => Ascii.ascii_of_N (Z.to_N b)) <$> utf8_encode t).
Definition read (s : string) : text :=
  from_utf8_lossy ((fun c => Z.of_N (Ascii.N_of_ascii c)) <$> String.list_ascii_of_string s).

(** [Display] of [ReceiverId]. *)
Definition receiver_to_string (id : ReceiverId) : text :=
  match upper_hex <$> device_bytes id with
  | [] => []
  | first :: rest => first ++ (rest ≫= fun pair => 58 :: pair)
  end.

(** ** Opaque endpoint keys *)

Record EndpointEntry := { ee_key : AudioEndpointKey; ee_id : text; ee_name : text }.
Record EndpointTable := { et_next : Z; et_known : list EndpointEntry }.
Definition new_table : EndpointTable := {| et_next := 0; et_known := [] |}.

(** [iter_mut().find(..)]: the first entry with the identifier is renamed. *)
Fixpoint rename_entry (id name : text) (known : list EndpointEntry)
  : option (list EndpointEntry * AudioEndpointKey) :=
  match known with
  | [] => None
  | e :: known =>
      if ee_id e ==? id
      then Some ({| ee_key := ee_key e; ee_id := ee_id e; ee_name := name |} :: known, ee_key e)
      else (fun '(known, key) => (e :: known, key)) <$> rename_entry id name known
  end.

Definition key_for (t : EndpointTable) (endpoint : Backend.AudioEndpoint)
  : EndpointTable * AudioEndpointKey :=
  match rename_entry (Backend.ep_id endpoint) (Backend.ep_name endpoint) (et_known t) with
  | Some (known, key) => ({| et_next := et_next t; et_known := known |}, key)
  | None =>
      let key := et_next t in
      ({| et_next := u64_succ key;
          et_known := et_known t ++ [{| ee_key := key; ee_id := Backend.ep_id endpoint;
                                        ee_name := Backend.ep_name endpoint |}] |}, key)
  end.

Definition table_preference (t : EndpointTable) (key : AudioEndpointKey)
  : option AudioEndpointPreference :=
  (fun e => Explicit (ee_id e) (ee_name e)) <$> List.find (fun e => ee_key e =? key) (et_known t).

(** ** What a session answer says *)

Inductive SessionEcho :=
| EchoStopped
| EchoActive (active : list DeviceId)
| EchoDegraded (active : list DeviceId)
| EchoRestarting
| EchoFailed (summary : string).
#[export] Instance SessionEcho_eq_dec : EqDecision SessionEcho.
Proof. solve_decision. Defined.

Inductive DiscoveryEcho := EchoInventory (found : list ReceiverState) | EchoDiscoveryFailed (summary : string).
#[export] Instance DiscoveryEcho_eq_dec : EqDecision DiscoveryEcho.
Proof. solve_decision. Defined.

Inductive SessionEdge :=
| Untouched
| EdgeStart
| PendingGroupStart
| ConfirmedGroupStart (backend_floor : Z)
| EdgeStop
| EdgeRejected.
#[export] Instance SessionEdge_eq_dec : EqDecision SessionEdge.
Proof. solve_decision. Defined.

Record GenerationsSeen := {
  seen_discovery : GenerationId;
  seen_session : GenerationId;
  seen_session_edge : SessionEdge;
}.

Definition answered_by (edge : SessionEdge) (echo : SessionEcho) : bool :=
  match edge, echo with
  | PendingGroupStart, _ | ConfirmedGroupStart _, _ => false
  | EdgeRejected, _ => true
  | EdgeStart, (EchoActive _ | EchoDegraded _ | EchoFailed _) => true
  | EdgeStop, EchoStopped => true
  | _, _ => false
  end.

(** ** Echoes of one snapshot *)

Definition latency_choice (p : LatencyPreset) : LatencyChoice :=
  match p with Low => LatencyLow | Normal => LatencyNormal | Stable => LatencyStable end.
Definition latency_preset (c : LatencyChoice) : LatencyPreset :=
  match c with LatencyLow => Low | LatencyNormal => Normal | LatencyStable => Stable end.

Definition latency_unavailable (offer : LatencyPreset * option string) : option LatencyUnavailable :=
  (fun _ => NotValidated) <$> snd offer.
Definition latency_echo (selected : LatencyPreset) (offered : list (LatencyPreset * option string))
  : LatencyReading :=
  {| lr_selected := latency_choice selected;
     lr_options := (fun o => {| lo_choice := latency_choice (fst o);
                                lo_unavailable := latency_unavailable o |}) <$> offered |}.

Definition capture_state (s : Backend.AudioSourceState) : CaptureState :=
  match s with
  | Backend.Capturing => Capturing
  | Backend.SilentSystem => SilentSystem
  | Backend.Recovering => CaptureRecovering
  | Backend.SourceUnavailable => CaptureUnavailable
  | Backend.SourceFailed => CaptureFailed
  end.

(** [active_endpoints.iter().flatten().map(..key_for..).collect()] *)
Fixpoint offer_endpoints (t : EndpointTable) (endpoints : list Backend.AudioEndpoint)
  : EndpointTable * list AudioEndpointChoice :=
  match endpoints with
  | [] => (t, [])
  | endpoint :: endpoints =>
      let '(t, key) := key_for t endpoint in
      let '(t, choices) := offer_endpoints t endpoints in
      (t, {| ec_key := key; ec_name := show (Backend.ep_name endpoint) |} :: choices)
  end.

(** [position] *)
Fixpoint endpoint_position (id : text) (endpoints : list Backend.AudioEndpoint) : option nat :=
  match endpoints with
  | [] => None
  | endpoint :: endpoints =>
      if Backend.ep_id endpoint ==? id then Some 0%nat else S <$> endpoint_position id endpoints
  end.

Definition is_endpoint (id : text) (endpoint : Backend.AudioEndpoint) : bool :=
  Backend.ep_id endpoint ==? id.

(** The selection; [endpoints\[index\]] panics beyond the offers, which have the
    positions of the endpoints. *)
Definition audio_selection (source : Backend.AudioSourceSnapshot)
    (offers : list AudioEndpointChoice) : AudioEndpointSelection :=
  match Backend.au_preference source with
  | SystemDefault => SelSystemDefault
  | Explicit id last_known_name =>
      match endpoint_position id (default [] (Backend.au_active_endpoints source)) with
      | Some index => match offers !! index with
                      | Some choice => SelChosen (ec_key choice)
                      | None => SelSystemDefault
                      end
      | None =>
          if is_none (Backend.au_active_endpoints source)
             || is_some_and (Backend.au_captured_endpoint source) (is_endpoint id)
          then SelChosenUnverified (show
                 match Backend.au_captured_endpoint source with
                 | Some endpoint =>
                     if is_endpoint id endpoint then Backend.ep_name endpoint else last_known_name
                 | None => last_known_name
                 end)
          else SelChosenButMissing (show last_known_name)
      end
  end.

Definition audio_echo (source : Backend.AudioSourceSnapshot) (t : EndpointTable)
  : EndpointTable * AudioSourceReading :=
  let '(t, offers) := offer_endpoints t (default [] (Backend.au_active_endpoints source)) in
  let '(t, captured) :=
    match Backend.au_captured_endpoint source with
    | Some endpoint => let '(t, key) := key_for t endpoint in (t, Some key)
    | None => (t, None)
    end in
  (t, {| as_endpoints_known := negb (is_none (Backend.au_active_endpoints source));
         as_refresh_failed := Backend.au_refresh_failed source;
         as_endpoints := offers;
         as_selection := audio_selection source offers;
         as_captured_key := captured;
         as_captured_name := (fun e => show (Backend.ep_name e)) <$> Backend.au_captured_endpoint source;
         as_state := capture_state (Backend.au_state source) |}).

Definition availability_of (l : ReceiverLifecycle) : Availability :=
  match l with Unreachable => Unavailable | _ => Available end.

Definition display_name (id : ReceiverId) (name : text) : string :=
  if name ==? receiver_to_string id then "" else show name.

Definition inventory (receivers : list Backend.ReceiverSnapshot) : list ReceiverState :=
  isort (fun a b => device_leb (rs_id a) (rs_id b))
    ((fun r => {| rs_id := Backend.rs_id r;
                  rs_name := display_name (Backend.rs_id r) (Backend.rs_name r);
                  rs_model := show (Backend.rs_model r);
                  rs_availability := availability_of (Backend.rs_lifecycle r) |}) <$> receivers).

Definition DISCOVERY_FAILED_SUMMARY : string := "Devices could not be searched for.".

Definition discovery_echo (d : Discovery.DiscoverySnapshot)
    (receivers : list Backend.ReceiverSnapshot) : option DiscoveryEcho :=
  match Discovery.snap_phase d with
  | Discovery.Stopped => None
  | Discovery.Running => Some (EchoInventory (inventory receivers))
  | Discovery.Retrying _ _ => Some (EchoDiscoveryFailed DISCOVERY_FAILED_SUMMARY)
  end.

(** [BTreeSet] iteration. *)
Definition in_id_order (s : gset DeviceId) : list DeviceId := isort device_leb (elements s).

Definition session_echo (s : Backend.SessionSnapshot) : option SessionEcho :=
  match Backend.ss_phase s with
  | Backend.PhStopped => Some EchoStopped
  | Backend.PhStarting _ | Backend.PhStopping _ => None
  | Backend.PhRestarting _ _ => Some EchoRestarting
  | Backend.PhStreaming _ => Some (EchoActive (in_id_order (Backend.ss_active s)))
  | Backend.PhDegraded _ => Some (EchoDegraded (in_id_order (Backend.ss_active s)))
  | Backend.PhFailed _ error => Some (EchoFailed error)
  end.

Definition group_reading (receivers : list Backend.ReceiverSnapshot) (g : Persistence.SavedGroup)
  : SavedGroupReading :=
  {| sg_id := Persistence.grp_id g;
     sg_name := show (Persistence.grp_name g);
     sg_members := (fun m => {| gm_receiver := Persistence.sm_receiver m;
                                gm_name := show (Persistence.sm_last_known_name m);
                                gm_level := Persistence.sm_level m |}) <$> Persistence.grp_members g;
     sg_available_members := list_to_set
       (Persistence.sm_receiver <$>
        List.filter (fun m => existsb (fun row =>
            (Backend.rs_id row ==? Persistence.sm_receiver m)
            && (availability_of (Backend.rs_lifecycle row) ==? Available)) receivers)
          (Persistence.grp_members g)) |}.

(** ** The projection *)

Record Projection := {
  pj_master_volume : option f32;
  pj_desired : option (Z * list DeviceId);
  pj_groups : option (list SavedGroupReading);
  pj_discovery : option (GenerationId * DiscoveryEcho);
  pj_session : option (GenerationId * SessionEcho);
  pj_mute : option bool;
  pj_receiver_levels : option (gmap DeviceId f32);
  pj_latency : option LatencyReading;
  pj_audio : option AudioSourceReading;
  pj_endpoints : EndpointTable;
}.
#[export] Instance eta_Projection : Eta Projection := fun p =>
  {| pj_master_volume := pj_master_volume p; pj_desired := pj_desired p;
     pj_groups := pj_groups p; pj_discovery := pj_discovery p; pj_session := pj_session p;
     pj_mute := pj_mute p; pj_receiver_levels := pj_receiver_levels p;
     pj_latency := pj_latency p; pj_audio := pj_audio p; pj_endpoints := pj_endpoints p |}.
Definition new_projection : Projection :=
  {| pj_master_volume := None; pj_desired := None; pj_groups := None; pj_discovery := None;
     pj_session := None; pj_mute := None; pj_receiver_levels := None; pj_latency := None;
     pj_audio := None; pj_endpoints := new_table |}.

(** A part of [project]: the projection so far and the events so far. *)
Definition Pass : Type := Projection * list ControllerEvent.

Definition project_volume (s : Backend.DeviceSnapshot) (p : Pass) : Pass :=
  let '(next, events) := p in
  let volume := Backend.sn_master_volume s in
  if option_eqb f32_eqb (pj_master_volume next) (Some volume) then p
  else (next <| pj_master_volume := Some volume |>, events ++ [VolumeApplied 0 volume]).

Definition project_desired (s : Backend.DeviceSnapshot) (p : Pass) : Pass :=
  let '(next, events) := p in
  let desired := (Backend.sn_desired_revision s, in_id_order (Backend.sn_desired_members s)) in
  if pj_desired next ==? Some desired then p
  else (next <| pj_desired := Some desired |>,
        events ++ [DesiredReceiversChanged (fst desired) (snd desired)]).

Definition project_groups (s : Backend.DeviceSnapshot) (p : Pass) : Pass :=
  let '(next, events) := p in
  let groups := group_reading (Backend.sn_receivers s) <$> Backend.sn_saved_groups s in
  if option_eqb (list_eqb saved_group_eqb) (pj_groups next) (Some groups) then p
  else (next <| pj_groups := Some groups |>, events ++ [SavedGroupsChanged groups]).

Definition discovery_event (stamped : GenerationId * DiscoveryEcho) : ControllerEvent :=
  match snd stamped with
  | EchoInventory receivers => DiscoveryCompleted (fst stamped) receivers
  | EchoDiscoveryFailed summary => DiscoveryFailedEvent (fst stamped) summary
  end.

Definition project_discovery (s : Backend.DeviceSnapshot) (seen : GenerationsSeen) (p : Pass)
  : Pass :=
  let '(next, events) := p in
  match discovery_echo (Backend.sn_discovery s) (Backend.sn_receivers s) with
  | None => p
  | Some echo =>
      let stamped := (seen_discovery seen, echo) in
      if pj_discovery next ==? Some stamped then p
      else (next <| pj_discovery := Some stamped |>, events ++ [discovery_event stamped])
  end.

Definition backend_generation (phase : Backend.SessionPhase) : option Z :=
  match phase with
  | Backend.PhStarting g | Backend.PhStreaming g | Backend.PhDegraded g
  | Backend.PhRestarting g _ | Backend.PhStopping g | Backend.PhFailed g _ => Some g
  | Backend.PhStopped => None
  end.

(** Whether this pass may answer the shell's session request. *)
Definition session_publishes (session : Backend.SessionSnapshot) (seen : GenerationsSeen)
    (published : option (GenerationId * SessionEcho)) (echo : SessionEcho) : bool :=
  match seen_session_edge seen with
  | ConfirmedGroupStart backend_floor =>
      let settled := is_some_and published (fun x => fst x =? seen_session seen) in
      match backend_generation (Backend.ss_phase session) with
      | None => settled
      | Some generation => backend_floor <=? generation
      end && negb (published ==? Some (seen_session seen, echo))
  | PendingGroupStart => false
  | edge =>
      match published with
      | None => if edge ==? Untouched then true else answered_by edge echo
      | Some (generation, published) =>
          if generation =? seen_session seen then negb (published ==? echo)
          else answered_by edge echo
      end
  end.

Definition session_event (stamped : GenerationId * SessionEcho) : ControllerEvent :=
  match snd stamped with
  | EchoStopped => SessionStopped (fst stamped)
  | EchoActive active => SessionStarted (fst stamped) active
  | EchoDegraded active => SessionDegraded (fst stamped) active
  | EchoRestarting => SessionRestarting (fst stamped)
  | EchoFailed summary => SessionFailed (fst stamped) summary
  end.

Definition project_session (s : Backend.DeviceSnapshot) (seen : GenerationsSeen) (p : Pass) : Pass :=
  let '(next, events) := p in
  match session_echo (Backend.sn_session s) with
  | None => p
  | Some echo =>
      let stamped := (seen_session seen, echo) in
      if session_publishes (Backend.sn_session s) seen (pj_session next) echo
      then (next <| pj_session := Some stamped |>, events ++ [session_event stamped])
      else p
  end.

Definition project_mute (s : Backend.DeviceSnapshot) (p : Pass) : Pass :=
  let '(next, events) := p in
  if pj_mute next ==? Some (Backend.sn_muted s) then p
  else (next <| pj_mute := Some (Backend.sn_muted s) |>,
        events ++ [MuteChanged (Backend.sn_muted s)]).

Definition project_levels (s : Backend.DeviceSnapshot) (p : Pass) : Pass :=
  let '(next, events) := p in
  let levels := Backend.sn_receiver_levels s in
  if option_eqb levels_eqb (pj_receiver_levels next) (Some levels) then p
  else (next <| pj_receiver_levels := Some levels |>, events ++ [ReceiverLevelsChanged levels]).

Definition project_latency (s : Backend.DeviceSnapshot) (p : Pass) : Pass :=
  let '(next, events) := p in
  let latency := latency_echo (Backend.sn_latency_preset s) (Backend.sn_latency_presets s) in
  if pj_latency next ==? Some latency then p
  else (next <| pj_latency := Some latency |>, events ++ [LatencyChanged latency]).

Definition project_audio (s : Backend.DeviceSnapshot) (p : Pass) : Pass :=
  let '(next, events) := p in
  let '(table, audio) := audio_echo (Backend.sn_audio_source s) (pj_endpoints next) in
  let next := next <| pj_endpoints := table |> in
  if pj_audio next ==? Some audio then (next, events)
  else (next <| pj_audio := Some audio |>, events ++ [AudioSourceChanged audio]).

Definition project (p : Projection) (s : Backend.DeviceSnapshot) (seen : GenerationsSeen)
  : Projection * list ControllerEvent :=
  project_audio s (project_latency s (project_levels s (project_mute s
    (project_session s seen (project_discovery s seen (project_groups s
      (project_desired s (project_volume s (p, []))))))))).

(** [project_event] *)
Definition project_event (event : Backend.BackendEvent) (seen : GenerationsSeen)
  : option ControllerEvent :=
  match event with
  | Backend.Notice _ Backend.NoteDiscoveryFailed _ _ =>
      Some (DiscoveryFailedEvent (seen_discovery seen) DISCOVERY_FAILED_SUMMARY)
  | _ => None
  end.

(** ** What the shell asked for *)

Record VolumePending := { vp_generation : GenerationId; vp_receipt : option CommandReceipt }.
Record GroupPending := {
  gp_request : Z;
  gp_generation : option GenerationId;
  gp_admission : Result (Z * CommandReceipt) GroupFailure;
}.

(** [wake] is the permit a [Notify] stores. *)
Record GenerationEcho := {
  listening_target : option (GenerationId * Backend.ListeningTestGuard);
  listening_pending : option VolumePending;
  volume : option VolumePending;
  group : option GroupPending;
  discovery : GenerationId;
  session : GenerationId * SessionEdge;
  wake : bool;
}.
#[export] Instance eta_GenerationEcho : Eta GenerationEcho := fun e =>
  {| listening_target := listening_target e; listening_pending := listening_pending e;
     volume := volume e; group := group e; discovery := discovery e; session := session e;
     wake := wake e |}.
Definition new_echo : GenerationEcho :=
  {| listening_target := None; listening_pending := None; volume := None; group := None;
     discovery := 0; session := (0, Untouched); wake := false |}.

Definition notify (e : GenerationEcho) : GenerationEcho := e <| wake := true |>.
Definition record_discovery (e : GenerationEcho) (g : GenerationId) : GenerationEcho :=
  notify (e <| discovery := g |>).
Definition record_session (e : GenerationEcho) (g : GenerationId) (edge : SessionEdge)
  : GenerationEcho := notify (e <| session := (g, edge) |>).
Definition sample (e : GenerationEcho) : GenerationsSeen :=
  {| seen_discovery := discovery e; seen_session := fst (session e);
     seen_session_edge := snd (session e) |}.

Definition started_generation (event : ControllerEvent) : option GenerationId :=
  match event with SessionStarted g _ => Some g | _ => None end.

Definition observe_listening_target (e : GenerationEcho) (s : Backend.DeviceSnapshot)
    (events : list ControllerEvent) : GenerationEcho :=
  match omap started_generation events with
  | g :: _ => e <| listening_target := (fun guard => (g, guard)) <$> Backend.capture s |>
  | [] => match Backend.ss_phase (Backend.sn_session s) with
          | Backend.PhStreaming _ => e
          | _ => e <| listening_target := None |>
          end
  end.

Definition LISTENING_FAILED_SUMMARY : string := "The listening test tone could not be started.".

Definition listening_events (answers : Answers) (s : Backend.DeviceSnapshot) (closed : bool)
    (e : GenerationEcho) : GenerationEcho * list ControllerEvent :=
  match listening_pending e with
  | None => (e, [])
  | Some request =>
      let polled := (fun r => Handle.poll answers r (Backend.sn_revision s)) <$> vp_receipt request in
      let status := snd <$> polled in
      if negb closed && (status ==? Some Pending)
      then (e <| listening_pending := Some {| vp_generation := vp_generation request;
                                              vp_receipt := fst <$> polled |} |>, [])
      else
        let failed := closed || negb (status ==? Some (Completed None)) in
        (e <| listening_pending := None |>,
         if failed then [SessionFailed (vp_generation request) LISTENING_FAILED_SUMMARY] else [])
  end.

Definition volume_events (answers : Answers) (s : Backend.DeviceSnapshot) (closed : bool)
    (e : GenerationEcho) : GenerationEcho * list ControllerEvent :=
  match volume e with
  | None => (e, [])
  | Some request =>
      let polled := (fun r => Handle.poll answers r (Backend.sn_revision s)) <$> vp_receipt request in
      let settled := is_none_or polled (fun x => negb (snd x ==? Pending) || closed) in
      if settled
      then (e <| volume := None |>,
            [VolumeApplied (vp_generation request) (Backend.sn_master_volume s)])
      else (e <| volume := Some {| vp_generation := vp_generation request;
                                   vp_receipt := fst <$> polled |} |>, [])
  end.

(** The status of a group request, with its polled receipt. *)
Definition group_status (answers : Answers) (s : Backend.DeviceSnapshot) (closed : bool)
    (admission : Result (Z * CommandReceipt) GroupFailure)
  : Result (Z * CommandReceipt) GroupFailure * option GroupOperationStatus :=
  match admission with
  | Err failure => (admission, Some (OperationFailed failure))
  | Ok (id, receipt) =>
      let '(receipt, result) := Handle.poll answers receipt (Backend.sn_revision s) in
      (Ok (id, receipt),
       match result with
       | Completed None => Some OperationSucceeded
       | Completed (Some Backend.PersistenceFailure) => Some (OperationFailed GroupPersistence)
       | Completed (Some Backend.Rejected) => Some (OperationFailed GroupValidation)
       | Pending => if closed then Some (OperationFailed GroupClosed) else None
       | Lost => if closed then Some (OperationFailed GroupClosed)
                 else Some (OperationFailed GroupConfirmationLost)
       end)
  end.

(** The session edge after a group operation has finished; a refused one is
    never successful, so the last case is unreachable in the source. *)
Definition edge_after (revision : Z) (admission : Result (Z * CommandReceipt) GroupFailure)
    (status : GroupOperationStatus) : SessionEdge :=
  match status, admission with
  | OperationFailed _, _ => EdgeRejected
  | _, Ok (_, receipt) =>
      match Handle.session_generation_floor receipt revision with
      | Some backend_floor => ConfirmedGroupStart backend_floor
      | None => PendingGroupStart
      end
  | _, Err _ => EdgeRejected
  end.

Definition group_events (answers : Answers) (s : Backend.DeviceSnapshot) (closed : bool)
    (e : GenerationEcho) : GenerationEcho * list ControllerEvent :=
  match group e with
  | None => (e, [])
  | Some pending =>
      let '(admission, status) := group_status answers s closed (gp_admission pending) in
      match status with
      | None => (e <| group := Some {| gp_request := gp_request pending;
                                       gp_generation := gp_generation pending;
                                       gp_admission := admission |} |>, [])
      | Some status =>
          let e := match gp_generation pending with
                   | Some generation =>
                       if fst (session e) =? generation
                       then notify (e <| session :=
                              (generation, edge_after (Backend.sn_revision s) admission status) |>)
                       else e
                   | None => e
                   end in
          (e <| group := None |>, [GroupOperationFinished (gp_request pending) status])
      end
  end.

(** ** The port *)

Inductive DeviceCommand :=
| DevGroup (request : Z) (generation : option GenerationId) (command : GroupCommand)
| DevApplyReceiverLevel (receiver : DeviceId) (level : f32)
| DevDiscover (generation : GenerationId)
| DevStartSession (generation : GenerationId) (receiver_ids : list DeviceId) (volume : f32)
| DevStopSession (generation : GenerationId)
| DevPlayListeningTone (generation : GenerationId)
| DevApplyVolume (generation : GenerationId) (volume : f32)
| DevApplyMute (muted : bool)
| DevApplyLatency (choice : LatencyChoice)
| DevApplyAudioEndpoint (request : AudioEndpointRequest)
| DevShutdown.

Inductive ControllerSendError := PortBusy | PortClosed.
Definition port_error (e : Handle.BackendSendError) : ControllerSendError :=
  match e with Handle.Busy => PortBusy | Handle.Closed => PortClosed end.
Definition port_result {A} (r : Result A Handle.BackendSendError) : Result unit ControllerSendError :=
  match r with Ok _ => Ok tt | Err e => Err (port_error e) end.

(** What the shell's thread and the bridge's thread share: the command queue,
    the echo and the endpoint directory. *)
Record Shared := { queue : Queue; echo : GenerationEcho; directory : EndpointTable }.
#[export] Instance eta_Shared : Eta Shared := fun x =>
  {| queue := queue x; echo := echo x; directory := directory x |}.

Definition preference_of (x : Shared) (request : AudioEndpointRequest)
  : option AudioEndpointPreference :=
  match request with
  | ReqSystemDefault => Some SystemDefault
  | ReqEndpoint key => table_preference (directory x) key
  end.

Definition send (x : Shared) (command : Backend.BackendCommand)
  : Shared * Result unit ControllerSendError :=
  let '(q, r) := Handle.try_send (queue x) command in (x <| queue := q |>, port_result r).

(** [value.clamp(0.0, 1.0)] *)
Definition clamp_unit (value : f32) : f32 :=
  if f32_ltb value f32_zero then f32_zero
  else if f32_ltb f32_one value then f32_one else value.

Definition volume_of (value : f32) : f32 :=
  if negb (f32_is_finite value) then DEFAULT_MASTER
  else match new_volume (clamp_unit value) with Ok v => v | Err _ => DEFAULT_MASTER end.

Definition group_member_of (m : GroupMember) : Result Persistence.SavedGroupMember ModelError :=
  match new_volume (gm_level m) with
  | Ok level => Ok {| Persistence.sm_receiver := gm_receiver m;
                      Persistence.sm_last_known_name := read (gm_name m);
                      Persistence.sm_level := level |}
  | Err e => Err e
  end.

(** [collect::<Result<Vec<_>, _>>()] *)
Fixpoint collect_members (ms : list GroupMember) : Result (list Persistence.SavedGroupMember) ModelError :=
  match ms with
  | [] => Ok []
  | m :: ms =>
      match group_member_of m with
      | Err e => Err e
      | Ok m => match collect_members ms with Ok ms => Ok (m :: ms) | Err e => Err e end
      end
  end.

Definition translate_group (c : GroupCommand) : Result Backend.BackendCommand GroupFailure :=
  match c with
  | GroupSave id name members =>
      match collect_members members with
      | Ok members => Ok (Backend.SaveGroup id (read name) members)
      | Err _ => Err GroupValidation
      end
  | GroupDelete id => Ok (Backend.DeleteGroup id)
  | GroupApply id start => Ok (Backend.ActivateSavedGroup id start)
  | GroupApplySelection ids => Ok (Backend.ApplyDesiredMembers (list_to_set ids))
  end.

Definition admission_error (e : Handle.BackendSendError) : GroupFailure :=
  match e with Handle.Busy => GroupBusy | Handle.Closed => GroupClosed end.

Definition is_busy {A} (r : Result A ControllerSendError) : bool :=
  match r with Err PortBusy => true | _ => false end.

Definition send_tone (x : Shared) (generation : GenerationId) : Shared * Result unit ControllerSendError :=
  let guard :=
    match listening_target (echo x) with
    | Some (g, guard) =>
        if (g =? generation) && (fst (session (echo x)) =? generation) then Some guard else None
    | None => None
    end in
  match listening_pending (echo x) with
  | Some _ => (x, Err PortBusy)
  | None =>
      let '(q, receipt) :=
        match guard with
        | None => (queue x, None)
        | Some guard =>
            match Handle.try_send_confirmed (queue x) (Backend.RunListeningTest guard) with
            | (q, Ok (_, receipt)) => (q, Some receipt)
            | (q, Err _) => (q, None)
            end
        end in
      (x <| queue := q |>
         <| echo := notify ((echo x) <| listening_pending :=
              Some {| vp_generation := generation; vp_receipt := receipt |} |>) |>, Ok tt)
  end.

Definition send_group (x : Shared) (request : Z) (generation : option GenerationId)
    (command : GroupCommand) : Shared * Result unit ControllerSendError :=
  match group (echo x) with
  | Some _ => (x, Err PortBusy)
  | None =>
      let '(q, admission) :=
        match translate_group command with
        | Err failure => (queue x, Err failure)
        | Ok command =>
            match Handle.try_send_confirmed (queue x) command with
            | (q, Ok admitted) => (q, Ok admitted)
            | (q, Err e) => (q, Err (admission_error e))
            end
        end in
      let e := match generation with
               | Some generation =>
                   record_session (echo x) generation
                     match admission with Ok _ => PendingGroupStart | Err _ => EdgeRejected end
               | None => echo x
               end in
      (x <| queue := q |>
         <| echo := notify (e <| group := Some {| gp_request := request;
                                                  gp_generation := generation;
                                                  gp_admission := admission |} |>) |>, Ok tt)
  end.

Definition try_send (x : Shared) (command : DeviceCommand) : Shared * Result unit ControllerSendError :=
  match command with
  | DevPlayListeningTone generation => send_tone x generation
  | DevGroup request generation command => send_group x request generation command
  | DevDiscover generation =>
      if Handle.is_closed (queue x) then (x, Err PortClosed)
      else (x <| echo := record_discovery (echo x) generation |>, Ok tt)
  | DevStartSession generation receiver_ids volume =>
      let '(q, r) := Handle.try_send_batch (queue x)
        [Backend.SetDesiredMembers (list_to_set receiver_ids);
         Backend.SetMasterVolume (volume_of volume);
         Backend.SetRunIntent Backend.Running] in
      let outcome := port_result r in
      (x <| queue := q |>
         <| echo := record_session (echo x) generation
              (if is_busy outcome then EdgeRejected else EdgeStart) |>, outcome)
  | DevStopSession generation =>
      let '(x, outcome) := send x (Backend.SetRunIntent Backend.Stopped) in
      (x <| echo := record_session (echo x) generation
              (if is_busy outcome then EdgeRejected else EdgeStop) |>, outcome)
  | DevApplyVolume generation volume =>
      match Handle.try_send_confirmed (queue x) (Backend.SetMasterVolume (volume_of volume)) with
      | (q, Ok (_, receipt)) =>
          (x <| queue := q |>
             <| echo := notify ((echo x) <| Bridge.volume :=
                  Some {| vp_generation := generation; vp_receipt := Some receipt |} |>) |>, Ok tt)
      | (q, Err e) =>
          (x <| queue := q |>
             <| echo := notify ((echo x) <| Bridge.volume :=
                  Some {| vp_generation := generation; vp_receipt := None |} |>) |>, Err (port_error e))
      end
  | DevApplyMute muted => send x (Backend.SetMuted muted)
  | DevApplyReceiverLevel receiver level =>
      send x (Backend.SetReceiverLevel receiver (volume_of level))
  | DevApplyLatency choice => send x (Backend.SetLatencyPreset (latency_preset choice))
  | DevApplyAudioEndpoint request =>
      match preference_of x request with
      | None => (x, Ok tt)
      | Some preference => send x (Backend.SetAudioEndpoint preference)
      end
  | DevShutdown => send x Backend.Shutdown
  end.

(** ** Diagnostics readings *)

Definition health_of (h : Registry.Health) : DiagnosticsHealth :=
  match h with
  | Registry.HealthUnknown => HealthUnknown
  | Registry.HealthRunning => HealthRunning
  | Registry.HealthAttention => HealthAttention
  | Registry.HealthError => HealthError
  end.

Definition measured_receivers (rows : list Registry.ReceiverDiagnosticsSnapshot) : Z :=
  Z.of_nat (length rows).

Definition diagnostics_reading (s : Registry.DiagnosticsSnapshot) : DiagnosticsReading :=
  {| dr_health := health_of (Registry.health s);
     dr_events_dropped_total := Registry.diagnostics_events_dropped_total s;
     dr_measured_receivers :=
       if is_none (Registry.active_session_id s) then 0
       else measured_receivers (Registry.receivers s) |}.

Definition diagnostic_issue (c : DiagRing.DiagnosticErrorCode) : DiagnosticIssue :=
  match c with
  | DiagRing.PairingFailure => IssuePairing
  | DiagRing.SetupRejected | DiagRing.SetupTimeout => IssueSetup
  | DiagRing.CaptureFailure | DiagRing.CaptureQueueFull | DiagRing.BufferUnderrun
  | DiagRing.EncodeFailure => IssueCapture
  | DiagRing.PtpBindFallback | DiagRing.PtpSampleStale => IssueTiming
  | DiagRing.SenderQueueDisconnected | DiagRing.UdpSendFailure
  | DiagRing.RetransmitHistoryMiss => IssueTransport
  | DiagRing.FeedbackFailure | DiagRing.FeedbackTimeout => IssueFeedback
  | DiagRing.TeardownTimeout => IssueTeardown
  | DiagRing.DiscoveryFailure | DiagRing.EventChannelFailure | DiagRing.CalibrationApplyFailure
  | DiagRing.ExportFailure | DiagRing.Notice => IssueOther
  end.

Definition receiver_state (l : ReceiverLifecycle) : DiagnosticReceiverState :=
  match l with
  | Discovered | Ready _ => DiagReady
  | Connecting _ | SettingUp _ _ => DiagConnecting
  | Streaming _ => DiagStreaming
  | RetryWaiting _ _ => DiagRecovering
  | Unreachable => DiagOffline
  | Failed _ _ => DiagFailed
  end.

(** [current]: the registry, when it describes the stream on display. *)
Definition current_session (backend : Backend.DeviceSnapshot)
    (registry : option Registry.DiagnosticsSnapshot) (registration : option (Z * Z))
  : option (Registry.DiagnosticsSnapshot * Registry.SessionDiagnosticsSnapshot) :=
  match registry with
  | Some r =>
      match Registry.session r with
      | Some s =>
          if (Backend.sn_run_intent backend ==? Backend.Running)
             && (Registry.active_session_id r ==? Some (Registry.sd_session_id s))
             && is_none (Registry.sd_finished_elapsed_ns s)
             && match registration, Backend.ss_phase (Backend.sn_session backend) with
                | Some (a, id), (Backend.PhStreaming b | Backend.PhDegraded b) =>
                    (a =? b) && (id =? Registry.sd_session_id s)
                | _, _ => false
                end
          then Some (r, s) else None
      | None => None
      end
  | None => None
  end.

Definition buffer_reading (s : Registry.SessionDiagnosticsSnapshot) : option BufferDiagnosticsReading :=
  match Registry.sd_audio s with
  | Some audio =>
      let b := ClientDiag.sender_buffer audio in
      if 0 <? Buffer.ss_capacity_frames b
      then Some {| bd_queued_frames := Buffer.ss_queued_frames b;
                   bd_capacity_frames := Buffer.ss_capacity_frames b;
                   bd_buffered_ms := Buffer.ss_buffered_ns b / 1000000;
                   bd_underruns := Buffer.ss_underrun_events_total b |}
      else None
  | None => None
  end.

(** The registry's row for a receiver of the current session. *)
Definition measured_row
    (current : option (Registry.DiagnosticsSnapshot * Registry.SessionDiagnosticsSnapshot))
    (id : ReceiverId) : option Registry.ReceiverDiagnosticsSnapshot :=
  match current with
  | Some (r, s) =>
      List.find (fun row =>
          (Some (DiagRing.session_id (Registry.rd_key row)) ==? Registry.active_session_id r)
          && (DiagRing.receiver_id (Registry.rd_key row) ==? id)
          && (Registry.sd_members s !! id ==? Some id))
        (Registry.receivers r)
  | None => None
  end.

Definition was_observed (row : Registry.ReceiverDiagnosticsSnapshot) : bool :=
  negb (Registry.rt_source (Registry.rd_timing row) ==? Registry.TimingUnavailable)
  || (0 <? Registry.data_datagrams_attempted_total (Registry.rd_transport row))
  || (0 <? ClientDiag.fb_attempts_total (Registry.rd_feedback row)).

Definition transport_reading (row : Registry.ReceiverDiagnosticsSnapshot) : TransportDiagnosticsReading :=
  let t := Registry.rd_transport row in
  {| td_packets_accepted := Registry.data_datagrams_accepted_local_total t;
     td_bytes_accepted := Registry.data_bytes_accepted_local_total t;
     td_send_failures := Registry.data_datagram_send_failures_total t;
     td_retransmit_requests := Registry.retransmit_slots_requested_total t |}.

Definition project_live_diagnostics (backend : Backend.DeviceSnapshot)
    (registry : option Registry.DiagnosticsSnapshot) (generation : GenerationId)
    (registration : option (Z * Z)) : LiveDiagnosticsReading :=
  let current := current_session backend registry registration in
  let source := Backend.sn_audio_source backend in
  {| ld_generation := generation;
     ld_input_peak_per_mille :=
       match Backend.au_state source with
       | Backend.Capturing | Backend.SilentSystem => Backend.au_windows_input_peak_permille source
       | _ => None
       end;
     ld_capture_drops_total := Backend.au_pcm_frames_dropped_total source;
     ld_buffer := match current with Some (_, s) => buffer_reading s | None => None end;
     ld_receivers :=
       (fun r =>
          let measured := measured_row current (Backend.rs_id r) in
          let observed := match measured with
                          | Some row => if was_observed row then Some row else None
                          | None => None
                          end in
          {| rd_id := Backend.rs_id r;
             rd_state := receiver_state (Backend.rs_lifecycle r);
             rd_transport := transport_reading <$> observed;
             rd_issue := match measured with
                         | Some row => (fun error => diagnostic_issue (DiagRing.err_code error))
                                       <$> Registry.rd_last_error row
                         | None => None
                         end |}) <$> Backend.sn_receivers backend |}.

(** ** The shell's queue *)

Definition EVENT_CHANNEL_CAPACITY : nat := Z.to_nat 256.

(** The bridge's view of it: what waits, whether the receiver is gone, and (a
    history variable) everything it ever accepted from the bridge. *)
Record ShellQueue := { sq_waiting : nat; sq_closed : bool; sq_accepted : list ControllerEvent }.

Inductive AppUnavailable := ShellBusy | ShellClosed.

Definition shell_try_send (q : ShellQueue) (event : ControllerEvent)
  : ShellQueue * Result unit AppUnavailable :=
  if sq_closed q then (q, Err ShellClosed)
  else if (EVENT_CHANNEL_CAPACITY <=? sq_waiting q)%nat then (q, Err ShellBusy)
  else ({| sq_waiting := S (sq_waiting q); sq_closed := false;
           sq_accepted := sq_accepted q ++ [event] |}, Ok tt).

(** [flush]: the queue, the outbox that is left, and whether the shell is
    gone. *)
Fixpoint flush (q : ShellQueue) (outbox : list ControllerEvent) (gone : bool)
  : ShellQueue * list ControllerEvent * bool :=
  match outbox with
  | [] => (q, [], gone)
  | event :: rest =>
      match shell_try_send q event with
      | (q, Ok _) => flush q rest gone
      | (q, Err ShellBusy) => (q, outbox, gone)
      | (q, Err ShellClosed) => (q, [], true)
      end
  end.

(** ** The bridge thread *)

(** Where the loop stands; between two of these points the shell's thread may
    use the port. *)
Inductive Pc :=
| AtTop
| AtReceipts (snapshot : Backend.DeviceSnapshot)
| AtDiagnostics
| AtWait
| Ended.

(** The locals of [run_bridge]; [sent] are the commands given to the registry,
    [produced] (a history variable) every event put into the outbox. *)
Record Thread := {
  projection : Projection;
  outbox : list ControllerEvent;
  state_closed : bool;
  events_closed : bool;
  session_diagnostics_closed : bool;
  closure_reported : bool;
  shell_gone : bool;
  has_registry : bool;
  sessions : Registry.DiagnosticsSessionTracker;
  sent : list Registry.Command;
  published : option DiagnosticsReading;
  published_live : option LiveDiagnosticsReading;
  next_live_poll : Z;
  registry_stamp : option (Z * Z);
  is_done : bool;
  pc : Pc;
  produced : list ControllerEvent;
}.
#[export] Instance eta_Thread : Eta Thread := fun b =>
  {| projection := projection b; outbox := outbox b; state_closed := state_closed b;
     events_closed := events_closed b;
     session_diagnostics_closed := session_diagnostics_closed b;
     closure_reported := closure_reported b; shell_gone := shell_gone b;
     has_registry := has_registry b; sessions := sessions b;
     sent := sent b; published := published b;
     published_live := published_live b; next_live_poll := next_live_poll b;
     registry_stamp := registry_stamp b; is_done := is_done b; pc := pc b;
     produced := produced b |}.

Definition start_thread (has_registry : bool) (now : Z) : Thread :=
  {| projection := new_projection; outbox := []; state_closed := false; events_closed := false;
     session_diagnostics_closed := false; closure_reported := false; shell_gone := false;
     has_registry := has_registry; sessions := Registry.new_tracker; sent := [];
     published := None; published_live := None; next_live_poll := now; registry_stamp := None;
     is_done := false; pc := AtTop; produced := [] |}.

Record World := { shared : Shared; shell : ShellQueue; thread : Thread }.
#[export] Instance eta_World : Eta World := fun w =>
  {| shared := shared w; shell := shell w; thread := thread w |}.

Definition put (events : list ControllerEvent) (b : Thread) : Thread :=
  b <| outbox := outbox b ++ events |> <| produced := produced b ++ events |>.

Definition flushed (w : World) : World :=
  let b := thread w in
  let '(q, rest, gone) := flush (shell w) (outbox b) (shell_gone b) in
  w <| shell := q |> <| thread := b <| outbox := rest |> <| shell_gone := gone |> |>.

Definition may_derive (b : Thread) : bool :=
  match outbox b with [] => negb (shell_gone b) | _ => false end.

Definition reconcile_sessions (fresh : Z) (state : Supervisor.SessionDiagnosticsState (Source:=Z))
    (b : Thread) : Thread :=
  let '(t, commands) := Registry.reconcile fresh (sessions b) state in
  b <| sessions := t |> <| sent := sent b ++ commands |>.

(** From the top of the loop to the projection of the newest snapshot. *)
Definition top (snapshot : Backend.DeviceSnapshot)
    (state : Supervisor.SessionDiagnosticsState (Source:=Z)) (fresh : Z) (w : World) : World :=
  let w := flushed w in
  let b := thread w in
  let b := if session_diagnostics_closed b then b
           else if has_registry b then reconcile_sessions fresh state b else b in
  if may_derive b then
    let '(next, events) := project (projection b) snapshot (sample (echo (shared w))) in
    w <| shared := (shared w) <| echo := observe_listening_target (echo (shared w)) snapshot events |>
                              <| directory := pj_endpoints next |> |>
      <| thread := (put events (b <| projection := next |>)) <| pc := AtReceipts snapshot |> |>
  else w <| thread := b <| pc := AtDiagnostics |> |>.

Definition CLOSED_SUMMARY : string := "the audio controller stopped".

(** The one report that the backend is gone. *)
Definition report_closure (b : Thread) : Thread :=
  if state_closed b && negb (closure_reported b)
  then (put [ChannelClosed CLOSED_SUMMARY] b) <| closure_reported := true |> else b.

(** The receipts of the same pass. *)
Definition receipts (answers : Answers) (snapshot : Backend.DeviceSnapshot) (w : World) : World :=
  let b := thread w in
  let e := echo (shared w) in
  let '(e, groups) := group_events answers snapshot (state_closed b) e in
  let '(e, volumes) := volume_events answers snapshot (state_closed b) e in
  let '(e, tones) := listening_events answers snapshot (state_closed b) e in
  let b := report_closure (put tones (put volumes (put groups b))) in
  flushed (w <| shared := (shared w) <| echo := e |> |> <| thread := b <| pc := AtDiagnostics |> |>).

(** The reading of the registry. *)
Definition publish_reading (reading : DiagnosticsReading) (w : World) : World :=
  let b := thread w in
  if published b ==? Some reading then w
  else flushed (w <| thread := put [DiagnosticsUpdated reading] (b <| published := Some reading |>) |>).

Definition LIVE_POLL_INTERVAL : Z := 250000000.
Definition REGISTRY_FRESH : Z := 2000000000.

Definition is_delivering (session : option (GenerationId * SessionEcho)) (g : GenerationId) : bool :=
  match session with
  | Some (generation, (EchoActive _ | EchoDegraded _)) => generation =? g
  | _ => false
  end.

Definition publish_live (registry : Registry.DiagnosticsSnapshot) (backend : Backend.DeviceSnapshot)
    (now : Z) (w : World) : World :=
  let b := thread w in
  let seen := sample (echo (shared w)) in
  if (next_live_poll b <=? now)
     || negb ((ld_generation <$> published_live b) ==? Some (seen_session seen))
  then
    let b := b <| next_live_poll := now + LIVE_POLL_INTERVAL |> in
    let b := if (fst <$> registry_stamp b) ==? Some (Registry.snapshot_sequence registry) then b
             else b <| registry_stamp := Some (Registry.snapshot_sequence registry, now) |> in
    let fresh := is_some_and (registry_stamp b) (fun s => now - snd s <? REGISTRY_FRESH) in
    let ready := negb (state_closed b) && is_delivering (pj_session (projection b)) (seen_session seen) in
    let registration := if ready then Registry.tracked (sessions b) else None in
    let live := project_live_diagnostics backend (if fresh then Some registry else None)
                  (seen_session seen) registration in
    if published_live b ==? Some live then w <| thread := b |>
    else flushed (w <| thread := put [LiveDiagnosticsUpdated live]
                                   (b <| published_live := Some live |>) |>)
  else w.

Definition finished (state_closed events_closed : bool) : bool := state_closed && events_closed.

(** The end of an iteration: done, or waiting. *)
Definition conclude (w : World) : World :=
  let b := thread w in
  if finished (state_closed b) (events_closed b) then
    let b := b <| is_done := true |> in
    if match outbox b with [] => true | _ => shell_gone b end
    then w <| thread := b <| pc := Ended |> |>
    else w <| thread := b <| pc := AtWait |> |>
  else w <| thread := b <| pc := AtWait |> |>.

(** The diagnostics half; the pass is repeated under the same condition. *)
Definition diagnostics (registry : Registry.DiagnosticsSnapshot) (backend : Backend.DeviceSnapshot)
    (now : Z) (w : World) : World :=
  let b := thread w in
  conclude
    (if may_derive b && has_registry b
     then publish_live registry backend now (publish_reading (diagnostics_reading registry) w)
     else w).

Inductive Wake :=
| StateChanged
| StateClosed
| EventReceived (event : Backend.BackendEvent)
| EventsLagged
| EventsClosed
| SessionChanged
| SessionClosed (state : Supervisor.SessionDiagnosticsState (Source:=Z)) (fresh : Z)
| EchoNotified
| RepairDue
| RegistryDue.

Definition REPAIR_INTERVAL : Z := 100000000.
Definition repair_delay (retained : nat) : option Z :=
  if (0 <? retained)%nat then Some REPAIR_INTERVAL else None.

Definition failed_session_state (state : Supervisor.SessionDiagnosticsState (Source:=Z))
  : Supervisor.SessionDiagnosticsState (Source:=Z) :=
  Supervisor.DiagInactive (Supervisor.diagnostics_generation state) Supervisor.ReasonFailed.

(** Which branches of the [select!] can be taken. *)
Definition ready (w : World) (k : Wake) : bool :=
  let b := thread w in
  match k with
  | StateChanged | StateClosed => negb (state_closed b)
  | EventReceived _ | EventsLagged | EventsClosed => negb (events_closed b)
  | SessionChanged | SessionClosed _ _ => negb (session_diagnostics_closed b)
  | EchoNotified => wake (echo (shared w))
  | RepairDue => negb (is_none (repair_delay (length (outbox b))))
  | RegistryDue => has_registry b
  end.

Definition woken (k : Wake) (w : World) : World :=
  let b := thread w in
  let w := w <| thread := b <| pc := AtTop |> |> in
  let b := thread w in
  match k with
  | StateClosed => w <| thread := b <| state_closed := true |> |>
  | EventReceived event =>
      match project_event event (sample (echo (shared w))) with
      | Some translated => w <| thread := put [translated] b |>
      | None => w
      end
  | EventsClosed => w <| thread := b <| events_closed := true |> |>
  | SessionClosed state fresh =>
      let b := b <| session_diagnostics_closed := true |> in
      w <| thread := if has_registry b
                     then reconcile_sessions fresh (failed_session_state state) b
                     else b |>
  | EchoNotified => w <| shared := (shared w) <| echo := (echo (shared w)) <| wake := false |> |> |>
  | _ => w
  end.

(** ** Everything that happens *)

Inductive Step :=
| PortSend (command : DeviceCommand)
| BackendDrain
| BackendGone
| ShellTake
| ShellGone
| Top (snapshot : Backend.DeviceSnapshot)
    (state : Supervisor.SessionDiagnosticsState (Source:=Z)) (fresh : Z)
| Receipts (answers : Answers)
| Diagnose (registry : Registry.DiagnosticsSnapshot) (backend : Backend.DeviceSnapshot) (now : Z)
| Wait (k : Wake).

Definition step (w : World) (s : Step) : World :=
  match s with
  | PortSend command => w <| shared := fst (try_send (shared w) command) |>
  | BackendDrain => w <| shared := (shared w) <| queue := fst (Handle.drain (queue (shared w))) |> |>
  | BackendGone =>
      w <| shared := (shared w) <| queue := (queue (shared w)) <| Handle.closed := true |> |> |>
  | ShellTake =>
      w <| shell := {| sq_waiting := pred (sq_waiting (shell w)); sq_closed := sq_closed (shell w);
                       sq_accepted := sq_accepted (shell w) |} |>
  | ShellGone =>
      w <| shell := {| sq_waiting := sq_waiting (shell w); sq_closed := true;
                       sq_accepted := sq_accepted (shell w) |} |>
  | Top snapshot state fresh =>
      match pc (thread w) with AtTop => top snapshot state fresh w | _ => w end
  | Receipts answers =>
      match pc (thread w) with AtReceipts snapshot => receipts answers snapshot w | _ => w end
  | Diagnose registry backend now =>
      match pc (thread w) with AtDiagnostics => diagnostics registry backend now w | _ => w end
  | Wait k =>
      match pc (thread w) with AtWait => if ready w k then woken k w else w | _ => w end
  end.

Definition start_world (has_registry : bool) (now : Z) : World :=
  {| shared := {| queue := Handle.new_queue; echo := new_echo; directory := new_table |};
     shell := {| sq_waiting := 0; sq_closed := false; sq_accepted := [] |};
     thread := start_thread has_registry now |}.

Definition run (w : World) (steps : list Step) : World := fold_left step steps w.

End Bridge.
