(* ===== verification/BridgeProps.v ===== *)
(** * Delivery through the bridge

    Theorems about [Bridge]: nothing is lost, repeated or reordered on the way
    to the shell; what the shell was told is what the backend says; every group
    request is answered once. *)

From S2P Require Import Prelude Float32 AppState Model Wire Text Features Device TxtParser Browser Recovery Discovery Calibration Buffer Jitter TimingDiag RtpSender DiagRing Supervisor Persistence Backend ClientDiag Registry Handle Bridge.
Import Model Bridge.

Module BridgeProps.

(** ** Flushing *)

Lemma flush_spec q outbox gone q' rest gone' :
  flush q outbox gone = (q', rest, gone') ->
  exists sent lost, outbox = sent ++ lost ++ rest /\
    sq_accepted q' = sq_accepted q ++ sent /\ sq_closed q' = sq_closed q /\
    (lost = [] \/ gone' = true /\ rest = []) /\ (gone = true -> gone' = true) /\
    (gone' = true -> gone = true \/ sq_closed q' = true) /\
    (sq_closed q = true -> sent = []).
Proof.
  revert q. induction outbox as [|event outbox IH]; intros q; cbn [flush].
  { intros [= <- <- <-]. exists [], []. cbn. rewrite !app_nil_r. split_and!; auto. }
  unfold shell_try_send. destruct (sq_closed q) eqn:Ec.
  { intros [= <- <- <-]. exists [], (event :: outbox). cbn. rewrite !app_nil_r. split_and!; auto. }
  destruct (EVENT_CHANNEL_CAPACITY <=? sq_waiting q)%nat.
  { intros [= <- <- <-]. exists [], []. cbn. rewrite !app_nil_r. split_and!; auto; congruence. }
  intros Hf. destruct (IH _ Hf) as (sent & lost & -> & Ha & Hc & Hl & Hg & Hg' & _).
  exists (event :: sent), lost. cbn in Ha, Hc. rewrite Ha, <- app_assoc. split_and!; auto; congruence.
Qed.

(** ** The delivery invariant *)

(** Everything produced was accepted, is lost with the shell, or waits. *)
Definition delivery (w : World) : Prop :=
  exists lost, produced (thread w) = sq_accepted (shell w) ++ lost ++ outbox (thread w) /\
    (shell_gone (thread w) = false -> lost = []) /\
    (shell_gone (thread w) = true -> sq_closed (shell w) = true).

(** Steps of the thread that do not touch the outbox. *)
Definition same_delivery (w w' : World) : Prop :=
  shell w' = shell w /\ outbox (thread w') = outbox (thread w) /\
  produced (thread w') = produced (thread w) /\ shell_gone (thread w') = shell_gone (thread w).

Lemma delivery_same w w' : same_delivery w w' -> delivery w -> delivery w'.
Proof. intros (H1 & H2 & H3 & H4). unfold delivery. by rewrite H1, H2, H3, H4. Qed.

Lemma delivery_put events w b :
  delivery (w <| thread := b |>) -> delivery (w <| thread := put events b |>).
Proof.
  intros (lost & Hp & H1 & H2). exists lost. cbn in *. split; [|by split].
  by rewrite Hp, <- !app_assoc.
Qed.

Lemma delivery_flushed w : delivery w -> delivery (flushed w).
Proof.
  intros (lost & Hp & H1 & H2). unfold flushed.
  destruct (flush (shell w) (outbox (thread w)) (shell_gone (thread w))) as [[q rest] gone] eqn:Ef.
  destruct (flush_spec _ _ _ _ _ _ Ef) as (sent & lost' & Ho & Ha & Hc & Hl & Hg & Hg' & Hs).
  unfold delivery. cbn [thread shell outbox produced shell_gone upd]. rewrite Hp, Ho, Ha.
  destruct (shell_gone (thread w)) eqn:Eg.
  - rewrite (Hs (H2 eq_refl)). exists (lost ++ lost'). rewrite app_nil_r, <- !app_assoc. cbn.
    split; [done|]. split; [intros E; by rewrite Hg in E|]. intros _. rewrite Hc. auto.
  - rewrite H1 by done. exists lost'. rewrite <- !app_assoc. cbn. split; [done|]. split.
    + intros ->. by destruct Hl as [|[? _]].
    + intros G. destruct (Hg' G); [done|]. done.
Qed.

Lemma delivery_pc w b p :
  delivery (w <| thread := b |>) -> delivery (w <| thread := b <| pc := p |> |>).
Proof. by apply delivery_same. Qed.

(** The port and the loop's bookkeeping leave the delivery alone. *)
Lemma reconcile_sessions_frame fresh state b :
  outbox (reconcile_sessions fresh state b) = outbox b /\
  produced (reconcile_sessions fresh state b) = produced b /\
  shell_gone (reconcile_sessions fresh state b) = shell_gone b /\
  projection (reconcile_sessions fresh state b) = projection b /\
  closure_reported (reconcile_sessions fresh state b) = closure_reported b /\
  state_closed (reconcile_sessions fresh state b) = state_closed b /\
  pc (reconcile_sessions fresh state b) = pc b.
Proof. unfold reconcile_sessions. by destruct (Registry.reconcile _ _ _). Qed.

Lemma top_delivery snapshot state fresh w : delivery w -> delivery (top snapshot state fresh w).
Proof.
  intros Hd. apply delivery_flushed in Hd. unfold top.
  generalize dependent (flushed w). clear w. intros w Hd.
  set (b := if session_diagnostics_closed (thread w) then thread w
            else if has_registry (thread w) then reconcile_sessions fresh state (thread w)
                 else thread w).
  assert (delivery (w <| thread := b |>)) as Hb.
  { eapply delivery_same; [|exact Hd]. unfold b.
    destruct (session_diagnostics_closed (thread w)); [done|]. destruct (has_registry (thread w)); [|done].
    destruct (reconcile_sessions_frame fresh state (thread w)) as (?&?&?&_). by split_and!. }
  clearbody b. destruct (may_derive b); [|by apply delivery_pc].
  destruct (project _ _ _) as [next events].
  eapply (delivery_same (w <| thread := put events (b <| projection := next |>) |>)); [done|].
  apply delivery_put. by eapply delivery_same.
Qed.

Lemma delivery_report w b x :
  delivery (w <| thread := b |>) ->
  delivery (w <| shared := x |> <| thread := (report_closure b) <| pc := AtDiagnostics |> |>).
Proof.
  intros Hb. unfold report_closure. destruct (_ && _); [|by eapply delivery_same].
  eapply delivery_same; [|exact (delivery_put [ChannelClosed CLOSED_SUMMARY] _ _ Hb)]. done.
Qed.

Lemma receipts_delivery answers snapshot w : delivery w -> delivery (receipts answers snapshot w).
Proof.
  intros Hd. unfold receipts.
  destruct (group_events _ _ _ _) as [e1 groups]. destruct (volume_events _ _ _ _) as [e2 volumes].
  destruct (listening_events _ _ _ _) as [e3 tones].
  apply delivery_flushed, delivery_report. do 3 apply delivery_put. by eapply delivery_same.
Qed.

Lemma diagnostics_delivery registry backend now w :
  delivery w -> delivery (diagnostics registry backend now w).
Proof.
  intros Hd. unfold diagnostics.
  assert (forall w, delivery w -> delivery (conclude w)) as Hc.
  { clear. intros w Hd. unfold conclude. eapply delivery_same; [|exact Hd].
    cbn zeta. destruct (finished _ _); [|done].
    by destruct (match outbox _ with [] => true | _ => _ end). }
  apply Hc. destruct (_ && _); [|done].
  assert (delivery (publish_reading (diagnostics_reading registry) w)) as Hr.
  { unfold publish_reading. case_bool_decide; [done|]. apply delivery_flushed, delivery_put.
    by eapply delivery_same. }
  generalize dependent (publish_reading (diagnostics_reading registry) w). clear. intros w Hd.
  unfold publish_live. destruct (_ || _); [|done]. cbn zeta.
  set (b := if (fst <$> registry_stamp _) ==? _ then _ else _).
  assert (delivery (w <| thread := b |>)) as Hb.
  { eapply delivery_same; [|exact Hd]. unfold b. by case_bool_decide. }
  clearbody b. set (live := project_live_diagnostics _ _ _ _). clearbody live.
  case_bool_decide; [done|]. apply delivery_flushed, delivery_put. by eapply delivery_same.
Qed.

Lemma woken_delivery k w : delivery w -> delivery (woken k w).
Proof.
  intros Hd. unfold woken.
  assert (delivery (w <| thread := (thread w) <| pc := AtTop |> |>)) as Ht by by eapply delivery_same.
  generalize dependent (w <| thread := (thread w) <| pc := AtTop |> |>). clear. intros w Hd.
  destruct k; try done; try (by eapply delivery_same).
  - destruct (project_event _ _); [|done]. apply delivery_put. by eapply delivery_same.
  - cbn zeta. eapply delivery_same; [|exact Hd]. cbn.
    destruct (has_registry _); [|done].
    edestruct reconcile_sessions_frame as (H1 & H2 & H3 & _). unfold same_delivery. cbn.
    by rewrite H1, H2, H3.
Qed.

Lemma step_delivery w s : delivery w -> delivery (step w s).
Proof.
  intros Hd. destruct s; cbn [step]; try (by eapply delivery_same).
  - destruct Hd as (lost & ? & ? & ?). by exists lost.
  - destruct (pc _); try done. by apply top_delivery.
  - destruct (pc _); try done. by apply receipts_delivery.
  - destruct (pc _); try done. by apply diagnostics_delivery.
  - destruct (pc _); try done. destruct (ready w k); [|done]. by apply woken_delivery.
Qed.

Lemma run_delivery steps w : delivery w -> delivery (run w steps).
Proof.
  unfold run. revert w. induction steps as [|s steps IH]; intros w Hd; [done|]. cbn.
  by apply IH, step_delivery.
Qed.

(** ** What the shell has been told

    The newest value of each setting among the events. *)

Definition desired_of (e : ControllerEvent) : option (Z * list DeviceId) :=
  match e with DesiredReceiversChanged revision ids => Some (revision, ids) | _ => None end.
Definition groups_of (e : ControllerEvent) : option (list SavedGroupReading) :=
  match e with SavedGroupsChanged groups => Some groups | _ => None end.
Definition mute_of (e : ControllerEvent) : option bool :=
  match e with MuteChanged muted => Some muted | _ => None end.
Definition levels_of (e : ControllerEvent) : option (gmap DeviceId f32) :=
  match e with ReceiverLevelsChanged levels => Some levels | _ => None end.
Definition latency_of (e : ControllerEvent) : option LatencyReading :=
  match e with LatencyChanged reading => Some reading | _ => None end.
Definition audio_of (e : ControllerEvent) : option AudioSourceReading :=
  match e with AudioSourceChanged reading => Some reading | _ => None end.
Definition applied_volume (e : ControllerEvent) : option f32 :=
  match e with VolumeApplied _ volume => Some volume | _ => None end.

Definition newest {A} (f : ControllerEvent -> option A) (events : list ControllerEvent) : option A :=
  last (omap f events).

Lemma newest_after {A} (f : ControllerEvent -> option A) events e :
  newest f (events ++ [e]) = match f e with Some x => Some x | None => newest f events end.
Proof.
  unfold newest. rewrite omap_app. cbn. destruct (f e) as [x|]; [|by rewrite app_nil_r].
  by rewrite last_snoc.
Qed.

(** Equal, or equal as the derived [PartialEq] (which goes through IEEE
    equality) sees it. *)
Definition same {A} (eqb : A -> A -> bool) (x y : A) : Prop := x = y \/ eqb x y = true.

Lemma f32_eqb_sym x y : f32_eqb x y = true -> f32_eqb y x = true.
Proof. intros H. by destruct (f32_eqb_spec x y H) as [->|(b & c & -> & ->)]. Qed.

Lemma same_volume_trans x y z : same f32_eqb x y -> same f32_eqb y z -> same f32_eqb x z.
Proof.
  intros [->|H1] [->|H2]; unfold same; eauto. right. by eapply f32_eqb_trans.
Qed.

(** The events of the loop itself. *)
Definition routine (e : ControllerEvent) : bool :=
  match e with
  | ChannelClosed _ | DiagnosticsUpdated _ | LiveDiagnosticsUpdated _ | DiscoveryFailedEvent _ _ => true
  | _ => false
  end.

(** The projection remembers what it last told. *)
Definition mirrors (p : Projection) (events : list ControllerEvent) : Prop :=
  pj_desired p = newest desired_of events /\
  pj_groups p = newest groups_of events /\
  pj_mute p = newest mute_of events /\
  pj_receiver_levels p = newest levels_of events /\
  pj_latency p = newest latency_of events /\
  pj_audio p = newest audio_of events /\
  match pj_master_volume p, newest applied_volume events with
  | Some m, Some v => same f32_eqb v m
  | None, None => True
  | _, _ => False
  end.

(** The projection agrees with a snapshot; [a] is the audio reading, whose keys
    depend on the endpoints seen before. *)
Definition groups_reading (s : Backend.DeviceSnapshot) : list SavedGroupReading :=
  group_reading (Backend.sn_receivers s) <$> Backend.sn_saved_groups s.
Definition desired_reading (s : Backend.DeviceSnapshot) : Z * list DeviceId :=
  (Backend.sn_desired_revision s, in_id_order (Backend.sn_desired_members s)).
Definition latency_reading (s : Backend.DeviceSnapshot) : LatencyReading :=
  latency_echo (Backend.sn_latency_preset s) (Backend.sn_latency_presets s).

Lemma volume_mirrors s base next events :
  mirrors next (base ++ events) ->
  let '(next', events') := project_volume s (next, events) in
  mirrors next' (base ++ events') /\
  (exists m, pj_master_volume next' = Some m /\ same f32_eqb m (Backend.sn_master_volume s)) /\
  pj_endpoints next' = pj_endpoints next /\ pj_session next' = pj_session next.
Proof.
  intros (M1&M2&M3&M4&M5&M6&M7). unfold project_volume.
  destruct (option_eqb f32_eqb _ _) eqn:E.
  - split; [done|]. split; [|done]. destruct (pj_master_volume next) as [m|]; [|done].
    exists m. split; [done|by right].
  - split; [|split; [by eexists; split; [done|left]|done]].
    rewrite app_assoc. unfold mirrors. rewrite !newest_after.
    cbn. split_and!; try done. by left.
Qed.

(** Every other part of a pass tells a changed setting, and nothing else. *)
Ltac mirror_part :=
  intros (M1&M2&M3&M4&M5&M6&M7);
  match goal with |- context [if ?c then _ else _] => destruct c eqn:E end;
  [split; [done|split; [|done]]
  |split; [rewrite app_assoc; unfold mirrors; rewrite !newest_after; cbn; split_and!; done
          |split; [|done]]].

Lemma desired_mirrors s base next events :
  mirrors next (base ++ events) ->
  let '(next', events') := project_desired s (next, events) in
  mirrors next' (base ++ events') /\
  pj_desired next' = Some (desired_reading s) /\
  pj_endpoints next' = pj_endpoints next /\ pj_master_volume next' = pj_master_volume next.
Proof. unfold project_desired. mirror_part; [by apply bool_decide_eq_true in E|done]. Qed.

Lemma groups_mirrors s base next events :
  mirrors next (base ++ events) ->
  let '(next', events') := project_groups s (next, events) in
  mirrors next' (base ++ events') /\
  (exists g, pj_groups next' = Some g /\ same (list_eqb saved_group_eqb) g (groups_reading s)) /\
  pj_endpoints next' = pj_endpoints next /\ pj_master_volume next' = pj_master_volume next /\
  pj_desired next' = pj_desired next.
Proof.
  unfold project_groups. mirror_part.
  - destruct (pj_groups next) as [g|]; [|done]. exists g. split; [done|by right].
  - eexists. split; [done|by left].
Qed.

Lemma mute_mirrors s base next events :
  mirrors next (base ++ events) ->
  let '(next', events') := project_mute s (next, events) in
  mirrors next' (base ++ events') /\
  pj_mute next' = Some (Backend.sn_muted s) /\
  pj_endpoints next' = pj_endpoints next /\ pj_master_volume next' = pj_master_volume next /\
  pj_desired next' = pj_desired next /\ pj_groups next' = pj_groups next.
Proof. unfold project_mute. mirror_part; [by apply bool_decide_eq_true in E|done]. Qed.

Lemma levels_mirrors s base next events :
  mirrors next (base ++ events) ->
  let '(next', events') := project_levels s (next, events) in
  mirrors next' (base ++ events') /\
  (exists l, pj_receiver_levels next' = Some l /\ same levels_eqb l (Backend.sn_receiver_levels s)) /\
  pj_endpoints next' = pj_endpoints next /\ pj_master_volume next' = pj_master_volume next /\
  pj_desired next' = pj_desired next /\ pj_groups next' = pj_groups next /\
  pj_mute next' = pj_mute next.
Proof.
  unfold project_levels. mirror_part.
  - destruct (pj_receiver_levels next) as [l|]; [|done]. exists l. split; [done|by right].
  - eexists. split; [done|by left].
Qed.

Lemma latency_mirrors s base next events :
  mirrors next (base ++ events) ->
  let '(next', events') := project_latency s (next, events) in
  mirrors next' (base ++ events') /\
  pj_latency next' = Some (latency_reading s) /\
  pj_endpoints next' = pj_endpoints next /\ pj_master_volume next' = pj_master_volume next /\
  pj_desired next' = pj_desired next /\ pj_groups next' = pj_groups next /\
  pj_mute next' = pj_mute next /\ pj_receiver_levels next' = pj_receiver_levels next.
Proof. unfold project_latency. mirror_part; [by apply bool_decide_eq_true in E|done]. Qed.

(** The settings of a projection, without the discovery and session answers. *)
Definition settings (p : Projection) :=
  (pj_master_volume p, pj_desired p, pj_groups p, pj_mute p, pj_receiver_levels p, pj_latency p,
   pj_audio p, pj_endpoints p).

(** An event that carries no setting. *)
Definition no_setting (e : ControllerEvent) : bool :=
  match e with
  | DesiredReceiversChanged _ _ | SavedGroupsChanged _ | MuteChanged _ | ReceiverLevelsChanged _
  | LatencyChanged _ | AudioSourceChanged _ | VolumeApplied _ _ => false
  | _ => true
  end.

Lemma mirrors_quiet p events more :
  forallb no_setting more = true -> mirrors p events -> mirrors p (events ++ more).
Proof.
  revert events. induction more as [|e more IH]; intros events Hq Hm; [by rewrite app_nil_r|].
  cbn in Hq. apply andb_true_iff in Hq as [He Hq].
  change (e :: more) with ([e] ++ more). rewrite app_assoc. apply IH; [done|].
  unfold mirrors. rewrite !newest_after. by destruct e.
Qed.

Lemma routine_no_setting es : forallb routine es = true -> forallb no_setting es = true.
Proof. rewrite !forallb_forall. intros H e He. specialize (H e He). by destruct e. Qed.

Lemma answers_mirror s seen base next events :
  mirrors next (base ++ events) ->
  let '(next', events') := project_session s seen (project_discovery s seen (next, events)) in
  mirrors next' (base ++ events') /\ settings next' = settings next.
Proof.
  intros Hm.
  assert (let '(next', events') := project_discovery s seen (next, events) in
          mirrors next' (base ++ events') /\ settings next' = settings next) as Hd.
  { unfold project_discovery. destruct (discovery_echo _ _) as [echo|]; [|done].
    case_bool_decide; [done|]. split; [|done]. rewrite app_assoc.
    apply (mirrors_quiet next); [by destruct echo|done]. }
  destruct (project_discovery s seen (next, events)) as [next1 events1]. destruct Hd as [Hm1 Hs1].
  unfold project_session. destruct (session_echo _) as [echo|]; [|done].
  destruct (session_publishes _ _ _ _); [|done]. split; [|done]. rewrite app_assoc.
  apply (mirrors_quiet next1); [by destruct echo|done].
Qed.

Lemma audio_mirrors s base next events :
  mirrors next (base ++ events) ->
  let '(next', events') := project_audio s (next, events) in
  mirrors next' (base ++ events') /\
  (pj_endpoints next', pj_audio next')
  = (let '(t, a) := audio_echo (Backend.sn_audio_source s) (pj_endpoints next) in (t, Some a)) /\
  pj_master_volume next' = pj_master_volume next /\
  pj_desired next' = pj_desired next /\ pj_groups next' = pj_groups next /\
  pj_mute next' = pj_mute next /\ pj_receiver_levels next' = pj_receiver_levels next /\
  pj_latency next' = pj_latency next.
Proof.
  intros (M1&M2&M3&M4&M5&M6&M7). unfold project_audio. destruct (audio_echo _ _) as [t a].
  cbn [pj_audio upd]. case_bool_decide as E.
  - split; [unfold mirrors; cbn; by split_and!|]. cbn. by rewrite E.
  - split; [|done]. rewrite app_assoc. unfold mirrors. rewrite !newest_after. cbn. by split_and!.
Qed.

(** What a snapshot says about every setting. *)
Definition agrees (p : Projection) (s : Backend.DeviceSnapshot) (audio : AudioSourceReading) : Prop :=
  (exists m, pj_master_volume p = Some m /\ same f32_eqb m (Backend.sn_master_volume s)) /\
  pj_desired p = Some (desired_reading s) /\
  (exists g, pj_groups p = Some g /\ same (list_eqb saved_group_eqb) g (groups_reading s)) /\
  pj_mute p = Some (Backend.sn_muted s) /\
  (exists l, pj_receiver_levels p = Some l /\ same levels_eqb l (Backend.sn_receiver_levels s)) /\
  pj_latency p = Some (latency_reading s) /\ pj_audio p = Some audio.

Lemma project_mirrors p s seen base :
  mirrors p base ->
  let '(p', events) := project p s seen in
  mirrors p' (base ++ events) /\
  agrees p' s (snd (audio_echo (Backend.sn_audio_source s) (pj_endpoints p))) /\
  pj_endpoints p' = fst (audio_echo (Backend.sn_audio_source s) (pj_endpoints p)).
Proof.
  intros Hm. rewrite <- (app_nil_r base) in Hm. unfold project.
  pose proof (volume_mirrors s base p [] Hm) as H.
  destruct (project_volume s (p, [])) as [p1 e1]. destruct H as (Hm1 & Hv & He1 & _).
  pose proof (desired_mirrors s base p1 e1 Hm1) as H.
  destruct (project_desired s (p1, e1)) as [p2 e2]. destruct H as (Hm2 & Hd & He2 & F2).
  pose proof (groups_mirrors s base p2 e2 Hm2) as H.
  destruct (project_groups s (p2, e2)) as [p3 e3]. destruct H as (Hm3 & Hg & He3 & F31 & F32).
  pose proof (answers_mirror s seen base p3 e3 Hm3) as H.
  destruct (project_session _ _ _) as [p4 e4]. destruct H as (Hm4 & F4).
  injection F4 as V4 D4 G4 _ _ _ _ E4.
  pose proof (mute_mirrors s base p4 e4 Hm4) as H.
  destruct (project_mute s (p4, e4)) as [p5 e5]. destruct H as (Hm5 & Hmu & He5 & V5 & D5 & G5).
  pose proof (levels_mirrors s base p5 e5 Hm5) as H.
  destruct (project_levels s (p5, e5)) as [p6 e6]. destruct H as (Hm6 & Hl & He6 & V6 & D6 & G6 & M6).
  pose proof (latency_mirrors s base p6 e6 Hm6) as H.
  destruct (project_latency s (p6, e6)) as [p7 e7].
  destruct H as (Hm7 & Hla & He7 & V7 & D7 & G7 & M7 & L7).
  pose proof (audio_mirrors s base p7 e7 Hm7) as H.
  destruct (project_audio s (p7, e7)) as [p8 e8].
  destruct H as (Hm8 & Ha & V8 & D8 & G8 & M8 & L8 & La8).
  assert (pj_endpoints p7 = pj_endpoints p) as Et by congruence. rewrite Et in Ha.
  destruct (audio_echo _ _) as [t a]. injection Ha as Ha1 Ha2. cbn [fst snd].
  split; [done|]. split; [|done]. unfold agrees.
  rewrite V8, V7, V6, V5, V4, F31, F2, D8, D7, D6, D5, D4, F32, G8, G7, G6, G5, G4, M8, M7, M6,
    L8, L7, La8. by split_and!.
Qed.

(** ** Along a run *)

(** What flushing and the diagnostics leave alone. *)
Definition same_view (w w' : World) : Prop :=
  projection (thread w') = projection (thread w) /\ shared w' = shared w /\
  state_closed (thread w') = state_closed (thread w).

Lemma flushed_frame w :
  same_view w (flushed w) /\ produced (thread (flushed w)) = produced (thread w) /\
  pc (thread (flushed w)) = pc (thread w).
Proof. unfold flushed. by destruct (flush _ _ _) as [[q rest] gone]. Qed.

Definition extends (b b' : Thread) (events : list ControllerEvent) : Prop :=
  projection b' = projection b /\ produced b' = produced b ++ events.

Lemma extends_trans b b' b'' es es' : extends b b' es -> extends b' b'' es' -> extends b b'' (es ++ es').
Proof. unfold extends. intros [-> ->] [-> ->]. by rewrite app_assoc. Qed.

Lemma put_extends es b : extends b (put es b) es.
Proof. done. Qed.

Lemma report_extends b :
  exists closing, extends b (report_closure b) closing /\ forallb routine closing = true.
Proof.
  unfold report_closure, extends. destruct (_ && _); [by exists [ChannelClosed CLOSED_SUMMARY]|].
  exists []. by rewrite app_nil_r.
Qed.

Lemma flushed_extends w b b' x es :
  extends b b' es ->
  extends b (thread (flushed (w <| shared := x |> <| thread := b' <| pc := AtDiagnostics |> |>))) es /\
  pc (thread (flushed (w <| shared := x |> <| thread := b' <| pc := AtDiagnostics |> |>)))
  = AtDiagnostics.
Proof.
  intros He. edestruct flushed_frame as ((F1 & _ & _) & F2 & F3). unfold extends. by rewrite F1, F2, F3.
Qed.

Lemma receipts_extends answers snapshot w :
  exists groups volumes tones closing,
    extends (thread w) (thread (receipts answers snapshot w)) (groups ++ volumes ++ tones ++ closing) /\
    snd (group_events answers snapshot (state_closed (thread w)) (echo (shared w))) = groups /\
    forallb no_setting groups = true /\
    Forall (fun e => exists g, e = VolumeApplied g (Backend.sn_master_volume snapshot)) volumes /\
    forallb no_setting tones = true /\ forallb routine closing = true /\
    pc (thread (receipts answers snapshot w)) = AtDiagnostics.
Proof.
  unfold receipts.
  destruct (group_events _ _ _ _) as [e1 groups] eqn:Eg.
  destruct (volume_events _ _ _ _) as [e2 volumes] eqn:Ev.
  destruct (listening_events _ _ _ _) as [e3 tones] eqn:Et.
  assert (extends (thread w) (put tones (put volumes (put groups (thread w))))
            ((groups ++ volumes) ++ tones)) as Hp.
  { eapply extends_trans; [|apply put_extends]. eapply extends_trans; apply put_extends. }
  destruct (report_extends (put tones (put volumes (put groups (thread w))))) as (closing & Hr & Hq).
  pose proof (extends_trans _ _ _ _ _ Hp Hr) as Ht. rewrite <- !app_assoc in Ht.
  exists groups, volumes, tones, closing. cbn [snd].
  destruct (flushed_extends w _ _ ((shared w) <| echo := e3 |>) _ Ht) as [Hf Hpc].
  split; [exact Hf|]. split; [done|]. split.
  { clear -Eg. unfold group_events in Eg. repeat case_match; simplify_eq; done. }
  split.
  { clear -Ev. unfold volume_events in Ev. repeat case_match; simplify_eq; repeat constructor. eauto. }
  split; [|split; [done|exact Hpc]].
  clear -Et. unfold listening_events in Et. repeat case_match; simplify_eq; done.
Qed.

Lemma conclude_extends w : extends (thread w) (thread (conclude w)) [] /\
  forall s, pc (thread (conclude w)) <> AtReceipts s.
Proof.
  unfold conclude, extends. rewrite app_nil_r. cbn zeta.
  destruct (finished _ _); [|done]. by destruct (match outbox _ with [] => true | _ => _ end).
Qed.

Lemma publish_reading_extends reading w :
  exists es, extends (thread w) (thread (publish_reading reading w)) es /\ forallb routine es = true.
Proof.
  unfold publish_reading, extends. case_bool_decide; [exists []; by rewrite app_nil_r|].
  exists [DiagnosticsUpdated reading].
  edestruct flushed_frame as ((-> & _ & _) & -> & _). done.
Qed.

Lemma publish_live_extends registry backend now w :
  exists es, extends (thread w) (thread (publish_live registry backend now w)) es /\
    forallb routine es = true.
Proof.
  unfold publish_live, extends. destruct (_ || _); [|exists []; by rewrite app_nil_r]. cbn zeta.
  set (b := if (fst <$> registry_stamp _) ==? _ then _ else _).
  assert (projection b = projection (thread w) /\ produced b = produced (thread w)) as [B1 B2].
  { unfold b. by case_bool_decide. }
  clearbody b. set (live := project_live_diagnostics _ _ _ _). clearbody live.
  case_bool_decide; [exists []; cbn; by rewrite app_nil_r|].
  exists [LiveDiagnosticsUpdated live]. edestruct flushed_frame as ((-> & _ & _) & -> & _). cbn.
  by rewrite B1, B2.
Qed.

Lemma diagnostics_extends registry backend now w :
  exists es, extends (thread w) (thread (diagnostics registry backend now w)) es /\
    forallb routine es = true /\
    forall s, pc (thread (diagnostics registry backend now w)) <> AtReceipts s.
Proof.
  unfold diagnostics. destruct (_ && _).
  - destruct (publish_reading_extends (diagnostics_reading registry) w) as (es & He & Hq).
    destruct (publish_live_extends registry backend now (publish_reading (diagnostics_reading registry) w))
      as (es' & He' & Hq').
    destruct (conclude_extends (publish_live registry backend now
      (publish_reading (diagnostics_reading registry) w))) as [Hc Hpc].
    exists (es ++ es'). split; [|split; [by rewrite forallb_app, Hq, Hq'|done]].
    rewrite <- (app_nil_r (es ++ es')). eauto using extends_trans.
  - destruct (conclude_extends w). by exists [].
Qed.

Lemma woken_extends k w :
  exists es, extends (thread w) (thread (woken k w)) es /\ forallb routine es = true /\
    pc (thread (woken k w)) = AtTop.
Proof.
  unfold woken, extends. cbn zeta.
  destruct k; try (exists []; cbn; rewrite app_nil_r; done).
  - destruct (project_event _ _) as [e|] eqn:Ee; [|exists []; cbn; by rewrite app_nil_r].
    exists [e]. split; [done|]. split; [|done].
    unfold project_event in Ee. repeat case_match; simplify_eq; done.
  - exists []. cbn. rewrite app_nil_r. destruct (has_registry _); [|done].
    edestruct reconcile_sessions_frame as (_ & -> & _ & -> & _ & _ & ->). done.
Qed.

(** ** The thread's view *)

Lemma same_sym x y : same f32_eqb x y -> same f32_eqb y x.
Proof. intros [->|H]; [by left|right; by apply f32_eqb_sym]. Qed.

Lemma mirrors_volume p events m v :
  pj_master_volume p = Some m -> same f32_eqb v m ->
  forall es, Forall (fun e => exists g, e = VolumeApplied g v) es ->
  mirrors p events -> mirrors p (events ++ es).
Proof.
  intros Hm Hv es Hes. revert events.
  induction Hes as [|e es [g ->] _ IH]; intros events Hp; [by rewrite app_nil_r|].
  change (VolumeApplied g v :: es) with ([VolumeApplied g v] ++ es). rewrite app_assoc. apply IH.
  destruct Hp as (M1&M2&M3&M4&M5&M6&M7). unfold mirrors. rewrite !newest_after. cbn.
  split_and!; try done. by rewrite Hm.
Qed.

(** What the projection remembers is what the events say, and between the two
    halves of a pass the volume is the snapshot's. *)
Definition view_ok (b : Thread) : Prop :=
  mirrors (projection b) (produced b) /\
  forall s, pc b = AtReceipts s ->
    exists m, pj_master_volume (projection b) = Some m /\ same f32_eqb m (Backend.sn_master_volume s).

Lemma view_extends b b' es :
  view_ok b -> extends b b' es -> forallb routine es = true ->
  (forall s, pc b' <> AtReceipts s) -> view_ok b'.
Proof.
  intros [Hm _] [He1 He2] Hq Hpc. split; [|intros s Hs; by destruct (Hpc s)].
  rewrite He1, He2. apply mirrors_quiet; [by apply routine_no_setting|done].
Qed.

(** A pass of the loop derives from the newest snapshot, or leaves the view. *)
Lemma top_view snapshot state fresh w :
  view_ok (thread w) ->
  view_ok (thread (top snapshot state fresh w)) /\
  (pc (thread (top snapshot state fresh w)) = AtReceipts snapshot ->
   agrees (projection (thread (top snapshot state fresh w))) snapshot
     (snd (audio_echo (Backend.sn_audio_source snapshot) (pj_endpoints (projection (thread w)))))) /\
  (pc (thread (top snapshot state fresh w)) = AtDiagnostics \/
   pc (thread (top snapshot state fresh w)) = AtReceipts snapshot).
Proof.
  intros Hv. unfold top.
  destruct (flushed_frame w) as ((F1 & _ & _) & F2 & F3).
  assert (mirrors (projection (thread (flushed w))) (produced (thread (flushed w)))) as Hm.
  { rewrite F1, F2. apply Hv. }
  rewrite <- F1. clear Hv F1 F2 F3. generalize dependent (flushed w). clear w. intros w Hm.
  set (b := if session_diagnostics_closed (thread w) then thread w
            else if has_registry (thread w) then reconcile_sessions fresh state (thread w)
                 else thread w).
  assert (projection b = projection (thread w) /\ produced b = produced (thread w)) as [B1 B2].
  { unfold b. destruct (session_diagnostics_closed _); [done|]. destruct (has_registry _); [|done].
    by destruct (reconcile_sessions_frame fresh state (thread w)) as (_&?&_&?&_). }
  clearbody b. rewrite <- B1, <- B2 in Hm. rewrite <- B1. destruct (may_derive b).
  - pose proof (project_mirrors (projection b) snapshot (sample (echo (shared w))) _ Hm) as Hp.
    destruct (project _ _ _) as [next events]. destruct Hp as (Hp & Ha & _).
    split; [|split; [done|by right]]. split; [done|].
    intros s [= <-]. apply Ha.
  - split; [|split; [done|by left]]. by split.
Qed.

Lemma receipts_view answers s w :
  pc (thread w) = AtReceipts s -> view_ok (thread w) -> view_ok (thread (receipts answers s w)).
Proof.
  intros Hpc [Hm Hv]. destruct (Hv s Hpc) as (m & Hp & Hs).
  destruct (receipts_extends answers s w)
    as (groups & volumes & tones & closing & [E1 E2] & _ & Hg & Hvol & Ht & Hc & Hpc').
  split; [|intros x Hx; congruence]. rewrite E1, E2, app_assoc, (app_assoc _ volumes).
  apply mirrors_quiet; [by rewrite forallb_app, Ht, routine_no_setting|].
  eapply mirrors_volume; [done|apply same_sym, Hs|done|]. by apply mirrors_quiet.
Qed.

Lemma step_view w s : view_ok (thread w) -> view_ok (thread (step w s)).
Proof.
  intros Hv. destruct s; cbn [step]; try done.
  - destruct (pc _) eqn:E; try done. by apply top_view.
  - destruct (pc _) eqn:E; try done. by apply receipts_view.
  - destruct (pc _) eqn:E; try done.
    destruct (diagnostics_extends registry backend now w) as (es & He & Hq & Hpc). eauto using view_extends.
  - destruct (pc _) eqn:E; try done. destruct (ready w k); [|done].
    destruct (woken_extends k w) as (es & He & Hq & Hpc). eapply view_extends; eauto. congruence.
Qed.

Lemma run_view steps w : view_ok (thread w) -> view_ok (thread (run w steps)).
Proof.
  revert w. induction steps as [|s steps IH]; intros w Hv; [done|]. by apply IH, step_view.
Qed.

Lemma start_view has_registry now : view_ok (thread (start_world has_registry now)).
Proof. split; [|done]. unfold mirrors. cbn. by split_and!. Qed.

Lemma start_delivery has_registry now : delivery (start_world has_registry now).
Proof. by exists []. Qed.

Definition is_top (s : Step) : bool := match s with Top _ _ _ => true | _ => false end.

(** Only a pass changes the projection. *)
Lemma step_projection w s : is_top s = false -> projection (thread (step w s)) = projection (thread w).
Proof.
  intros Hs. destruct s; cbn [step]; try done.
  - destruct (pc _); try done.
    by destruct (receipts_extends answers snapshot w) as (?&?&?&?&[? _]&_).
  - destruct (pc _); try done. by destruct (diagnostics_extends registry backend now w) as (?&[? _]&_).
  - destruct (pc _); try done. destruct (ready w k); [|done].
    by destruct (woken_extends k w) as (?&[? _]&_).
Qed.

Lemma run_projection steps w :
  forallb (fun s => negb (is_top s)) steps = true ->
  projection (thread (run w steps)) = projection (thread w).
Proof.
  revert w. induction steps as [|s steps IH]; intros w Hs; [done|].
  cbn in Hs. apply andb_true_iff in Hs as [Hs Hr]. apply negb_true_iff in Hs.
  change (run w (s :: steps)) with (run (step w s) steps). rewrite IH by done. by apply step_projection.
Qed.

(** The newest reading of every setting among the events is a snapshot's, up
    to the equality the bridge itself compares with. *)
Definition tells (events : list ControllerEvent) (s : Backend.DeviceSnapshot)
    (audio : AudioSourceReading) : Prop :=
  (exists v, newest applied_volume events = Some v /\ same f32_eqb v (Backend.sn_master_volume s)) /\
  newest desired_of events = Some (desired_reading s) /\
  (exists g, newest groups_of events = Some g /\ same (list_eqb saved_group_eqb) g (groups_reading s)) /\
  newest mute_of events = Some (Backend.sn_muted s) /\
  (exists l, newest levels_of events = Some l /\ same levels_eqb l (Backend.sn_receiver_levels s)) /\
  newest latency_of events = Some (latency_reading s) /\ newest audio_of events = Some audio.

Lemma mirrors_tells p events s audio : mirrors p events -> agrees p s audio -> tells events s audio.
Proof.
  intros (M1&M2&M3&M4&M5&M6&M7) ((m & Hm & Hs)&A2&A3&A4&A5&A6&A7). unfold tells.
  rewrite <- M1, <- M2, <- M3, <- M4, <- M5, <- M6. split_and!; try done.
  rewrite Hm in M7. destruct (newest applied_volume events) as [v|]; [|done].
  exists v. split; [done|]. by eapply same_volume_trans.
Qed.

End BridgeProps.
