(* ===== verification/BridgeRuns.v ===== *)
(** * Runs of the bridge

    The theorems about whole runs of the bridge thread and the port: delivery,
    catching up with the backend, answers to group requests. *)

From S2P Require Import Prelude Float32 AppState Model Wire Text Features Device TxtParser Browser Recovery Discovery Calibration Buffer Jitter TimingDiag RtpSender DiagRing Supervisor Persistence Backend ClientDiag Registry Handle Bridge BridgeProps.
Import Model Bridge BridgeProps.

Module BridgeRuns.

(** ** Delivery *)

(** A flush with room for everything leaves nothing behind. *)
Lemma flush_drains q outbox gone :
  sq_closed q = false -> (sq_waiting q + length outbox <= EVENT_CHANNEL_CAPACITY)%nat ->
  flush q outbox gone
  = ({| sq_waiting := sq_waiting q + length outbox; sq_closed := false;
        sq_accepted := sq_accepted q ++ outbox |}, [], gone).
Proof.
  revert q. induction outbox as [|event outbox IH]; intros q Hc Hw; cbn [flush].
  { rewrite Nat.add_0_r, app_nil_r. by destruct q as [? [] ?]. }
  unfold shell_try_send. rewrite Hc. cbn [length] in Hw.
  rewrite (proj2 (Nat.leb_gt _ _)) by lia. rewrite IH; [|done|cbn; lia].
  cbn. rewrite <- app_assoc. repeat f_equal. lia.
Qed.

(** C28: The events the shell's queue has accepted from the bridge are the
    events the bridge produced, in order and each once; while the shell is
    there, what is not accepted yet is exactly what still waits in the outbox,
    and once the shell is gone the accepted ones are a prefix.  Whenever the
    bridge reaches the top of its loop and the queue has room for what waits,
    all of it is accepted. *)
Theorem bridge_loses_nothing has_registry now steps :
  let w := run (start_world has_registry now) steps in
  (if shell_gone (thread w)
   then sq_closed (shell w) = true /\ exists lost, produced (thread w) = sq_accepted (shell w) ++ lost
   else produced (thread w) = sq_accepted (shell w) ++ outbox (thread w)) /\
  (pc (thread w) = AtTop -> sq_closed (shell w) = false ->
   (sq_waiting (shell w) + length (outbox (thread w)) <= EVENT_CHANNEL_CAPACITY)%nat ->
   forall snapshot state fresh,
     exists more, sq_accepted (shell (step w (Top snapshot state fresh)))
                  = sq_accepted (shell w) ++ outbox (thread w) ++ more).
Proof.
  cbn zeta. set (w := run _ _).
  assert (delivery w) as (lost & Hp & H1 & H2) by apply run_delivery, start_delivery.
  split.
  - destruct (shell_gone (thread w)).
    + split; [auto|]. eauto.
    + rewrite Hp, H1 by done. done.
  - intros Hpc Hc Hw snapshot state fresh. exists []. cbn [step]. rewrite Hpc. unfold top, flushed.
    rewrite (flush_drains (shell w)) by done.
    cbn zeta. destruct (may_derive _); [destruct (project _ _ _)|]; cbn; by rewrite app_nil_r.
Qed.

(** ** Catching up *)

(** C6: After a pass over a snapshot, and any number of further steps without
    another pass, an emptied outbox means that what the shell was told last
    about the volume, the chosen receivers, the saved groups, mute, the
    receiver levels, latency and the audio source is what that snapshot says. *)
Theorem window_catches_up has_registry now s1 snapshot state fresh s2 :
  let w0 := run (start_world has_registry now) s1 in
  let w1 := step w0 (Top snapshot state fresh) in
  let w2 := run w1 s2 in
  pc (thread w0) = AtTop -> pc (thread w1) = AtReceipts snapshot ->
  forallb (fun s => negb (is_top s)) s2 = true ->
  outbox (thread w2) = [] -> shell_gone (thread w2) = false ->
  tells (sq_accepted (shell w2)) snapshot
    (snd (audio_echo (Backend.sn_audio_source snapshot) (pj_endpoints (projection (thread w0))))).
Proof.
  intros w0 w1 w2 Hpc0 Hpc1 Hs Ho Hg.
  assert (view_ok (thread w0)) as Hv0 by apply run_view, start_view.
  assert (delivery w2) as (lost & Hp & H1 & _) by apply run_delivery, step_delivery, run_delivery, start_delivery.
  rewrite H1, Ho, !app_nil_r in Hp by done. rewrite <- Hp.
  assert (view_ok (thread w2)) as [Hm _] by by apply run_view, step_view.
  eapply mirrors_tells; [done|]. subst w2. rewrite run_projection by done.
  revert Hpc1. subst w1. cbn [step]. rewrite Hpc0. intros Hpc1. by apply top_view.
Qed.

(** ** Group requests *)

(** The requests among the commands that the port took over. *)
Definition taken_request (w : World) (s : Step) : list Z :=
  match s with
  | PortSend (DevGroup request generation command) =>
      match snd (try_send (shared w) (DevGroup request generation command)) with
      | Ok _ => [request]
      | Err _ => []
      end
  | _ => []
  end.
Fixpoint taken (w : World) (steps : list Step) : list Z :=
  match steps with [] => [] | s :: steps => taken_request w s ++ taken (step w s) steps end.

Definition finished_request (e : ControllerEvent) : option Z :=
  match e with GroupOperationFinished request _ => Some request | _ => None end.

Definition waiting_request (w : World) : list Z :=
  option_list (gp_request <$> group (echo (shared w))).

(** Answered requests, then the one that waits. *)
Definition answered (w : World) : list Z :=
  omap finished_request (produced (thread w)) ++ waiting_request w.

(** ** What one pass tells *)

(** Settings and discovery. *)
Definition telling (e : ControllerEvent) : bool :=
  match e with DiscoveryCompleted _ _ | DiscoveryFailedEvent _ _ => true | _ => negb (no_setting e) end.

(** A part of a pass that is not about the session. *)
Definition telling_part (f : Pass -> Pass) : Prop :=
  forall x, pj_session (fst (f x)) = pj_session (fst x) /\
    exists es, snd (f x) = snd x ++ es /\ forallb telling es = true.

Lemma telling_comp f g : telling_part f -> telling_part g -> telling_part (fun x => g (f x)).
Proof.
  intros Hf Hg x. destruct (Hf x) as (F1 & es & F2 & F3). destruct (Hg (f x)) as (G1 & es' & G2 & G3).
  split; [congruence|]. exists (es ++ es'). rewrite G2, F2, forallb_app, F3, G3. by rewrite app_assoc.
Qed.

Ltac telling_by :=
  intros [next events]; cbn;
  repeat case_match; simplify_eq; split; try done;
  first [by (exists []; rewrite app_nil_r)|by eexists [_]].

Lemma volume_telling s : telling_part (project_volume s).
Proof. unfold project_volume. telling_by. Qed.
Lemma desired_telling s : telling_part (project_desired s).
Proof. unfold project_desired. telling_by. Qed.
Lemma groups_telling s : telling_part (project_groups s).
Proof. unfold project_groups. telling_by. Qed.
Lemma discovery_telling s seen : telling_part (project_discovery s seen).
Proof.
  unfold project_discovery. intros [next events]. destruct (discovery_echo _ _) as [[]|]; [| |by (split; [|exists []; rewrite app_nil_r])].
  all: case_match; split; try done; first [by (exists []; rewrite app_nil_r)|by eexists [_]].
Qed.
Lemma mute_telling s : telling_part (project_mute s).
Proof. unfold project_mute. telling_by. Qed.
Lemma levels_telling s : telling_part (project_levels s).
Proof. unfold project_levels. telling_by. Qed.
Lemma latency_telling s : telling_part (project_latency s).
Proof. unfold project_latency. telling_by. Qed.
Lemma audio_telling s : telling_part (project_audio s).
Proof. unfold project_audio. telling_by. Qed.
#[local] Hint Resolve telling_comp volume_telling desired_telling groups_telling discovery_telling
  mute_telling levels_telling latency_telling audio_telling : core.

(** The session's part of a pass, from what was last told about it. *)
Definition session_pass (s : Backend.DeviceSnapshot) (seen : GenerationsSeen)
    (told : option (GenerationId * SessionEcho))
  : option (GenerationId * SessionEcho) * list ControllerEvent :=
  match session_echo (Backend.sn_session s) with
  | Some echo =>
      if session_publishes (Backend.sn_session s) seen told echo
      then (Some (seen_session seen, echo), [session_event (seen_session seen, echo)])
      else (told, [])
  | None => (told, [])
  end.

Lemma project_split p s seen :
  exists before after,
    snd (project p s seen) = before ++ snd (session_pass s seen (pj_session p)) ++ after /\
    pj_session (fst (project p s seen)) = fst (session_pass s seen (pj_session p)) /\
    forallb telling before = true /\ forallb telling after = true.
Proof.
  unfold project.
  assert (telling_part (fun x => project_discovery s seen (project_groups s
           (project_desired s (project_volume s x))))) as Hb by auto 8.
  assert (telling_part (fun x => project_audio s (project_latency s (project_levels s
           (project_mute s x))))) as Ha by auto 8.
  specialize (Hb (p, [])). cbn [fst snd] in Hb.
  destruct (project_discovery _ _ _) as [p1 e1]. destruct Hb as (B1 & before & B2 & B3). cbn in B1, B2.
  specialize (Ha (project_session s seen (p1, e1))). cbn beta in Ha.
  destruct (project_audio _ _) as [p3 e3]. destruct Ha as (A1 & after & A2 & A3).
  exists before, after. cbn [fst snd] in *. rewrite A1, A2. clear A1 A2. subst e1. rewrite <- B1.
  unfold project_session, session_pass. destruct (session_echo _) as [echo|]; [|done].
  destruct (session_publishes _ _ _ _); cbn; by rewrite <- ?app_assoc.
Qed.

(** ** What the steps do to the requests *)

Definition requests (w : World) := (group (echo (shared w)), session (echo (shared w)),
                                    listening_pending (echo (shared w))).

Lemma observe_requests e s events :
  group (observe_listening_target e s events) = group e /\
  session (observe_listening_target e s events) = session e /\
  listening_pending (observe_listening_target e s events) = listening_pending e.
Proof. unfold observe_listening_target. by repeat case_match. Qed.

Lemma top_pass snapshot state fresh w :
  let w' := top snapshot state fresh w in
  requests w' = requests w /\
  ((projection (thread w') = projection (thread w) /\ produced (thread w') = produced (thread w)) \/
   (projection (thread w'), produced (thread w'))
   = (let '(next, events) := project (projection (thread w)) snapshot (sample (echo (shared w))) in
      (next, produced (thread w) ++ events))).
Proof.
  cbn zeta. unfold top, requests.
  destruct (flushed_frame w) as ((F1 & F0 & _) & F2 & F3). rewrite <- F1, <- F2, <- F0.
  clear F0 F1 F2 F3. generalize (flushed w). clear w. intros w.
  set (b := if session_diagnostics_closed (thread w) then thread w
            else if has_registry (thread w) then reconcile_sessions fresh state (thread w)
                 else thread w).
  assert (projection b = projection (thread w) /\ produced b = produced (thread w)) as [B1 B2].
  { unfold b. destruct (session_diagnostics_closed _); [done|]. destruct (has_registry _); [|done].
    by destruct (reconcile_sessions_frame fresh state (thread w)) as (_&?&_&?&_). }
  clearbody b. rewrite <- B1, <- B2. destruct (may_derive b); [|by split; [|left]].
  destruct (project _ _ _) as [next events]. cbn.
  destruct (observe_requests (echo (shared w)) snapshot events) as (-> & -> & ->).
  by split; [|right].
Qed.

Lemma diagnostics_requests registry backend now w :
  requests (diagnostics registry backend now w) = requests w.
Proof.
  unfold diagnostics.
  assert (forall w, requests (conclude w) = requests w) as Hc.
  { clear. intros w. unfold conclude. cbn zeta. by repeat case_match. }
  assert (forall w, requests (flushed w) = requests w) as Hf.
  { clear. intros w. unfold requests. destruct (flushed_frame w) as ((_ & -> & _) & _). done. }
  rewrite Hc. destruct (_ && _); [|done].
  assert (requests (publish_reading (diagnostics_reading registry) w) = requests w) as <-.
  { unfold publish_reading. case_bool_decide; [done|]. by rewrite Hf. }
  generalize (publish_reading (diagnostics_reading registry) w). clear w. intros w.
  unfold publish_live. destruct (_ || _); [|done]. cbn zeta.
  match goal with |- context [put [LiveDiagnosticsUpdated ?l] ?b] =>
    generalize (put [LiveDiagnosticsUpdated l] b); generalize l end.
  intros live b'. case_bool_decide; [done|]. by rewrite Hf.
Qed.

Lemma woken_requests k w : requests (woken k w) = requests w.
Proof. unfold woken. cbn zeta. destruct k; try done. by case_match. Qed.

Lemma volume_requests answers s closed e e' es :
  volume_events answers s closed e = (e', es) ->
  group e' = group e /\ session e' = session e /\ listening_pending e' = listening_pending e /\
  Forall (fun e => exists g v, e = VolumeApplied g v) es.
Proof.
  unfold volume_events. intros. repeat case_match; simplify_eq; split_and!; try done.
  repeat constructor. eauto.
Qed.

Lemma listening_requests answers s closed e e' es :
  listening_events answers s closed e = (e', es) ->
  group e' = group e /\ session e' = session e /\
  (vp_generation <$> listening_pending e' = vp_generation <$> listening_pending e \/
   listening_pending e' = None) /\
  Forall (fun x => exists r, listening_pending e = Some r /\
                     x = SessionFailed (vp_generation r) LISTENING_FAILED_SUMMARY) es.
Proof.
  unfold listening_events. intros H. repeat case_match; simplify_eq; split_and!; try done; auto.
  all: repeat constructor; eauto.
Qed.

(** A receipts pass answers the waiting request or leaves it. *)
Lemma group_pass answers s closed e e' es :
  group_events answers s closed e = (e', es) ->
  listening_pending e' = listening_pending e /\ fst (session e') = fst (session e) /\
  omap finished_request es ++ option_list (gp_request <$> group e') = option_list (gp_request <$> group e) /\
  (session e' = session e \/ exists p, group e = Some p /\ gp_generation p = Some (fst (session e))) /\
  Forall (fun x => exists r st, x = GroupOperationFinished r st) es /\
  (gp_generation <$> group e' = gp_generation <$> group e \/ group e' = None) /\
  (closed = true -> group e' = None).
Proof.
  unfold group_events. destruct (group e) as [p|] eqn:Eg.
  2:{ intros [= <- <-]. rewrite Eg. split_and!; auto. }
  destruct (group_status _ _ _ _) as [admission status] eqn:Es.
  destruct status as [status|]; intros [= <- <-]; cbn.
  - destruct (gp_generation p) as [g|] eqn:Ep; [destruct (_ =? g) eqn:E|]; cbn; try apply Z.eqb_eq in E.
    all: split_and!; eauto; try (repeat constructor; by eauto).
    right. exists p. by rewrite E.
  - split_and!; auto. intros ->. clear -Es. unfold group_status in Es. by repeat case_match; simplify_eq.
Qed.

Lemma flushed_parts w b x p es :
  extends b p es ->
  shared (flushed (w <| shared := x |> <| thread := p <| pc := AtDiagnostics |> |>)) = x /\
  produced (thread (flushed (w <| shared := x |> <| thread := p <| pc := AtDiagnostics |> |>)))
  = produced b ++ es.
Proof.
  intros [_ He]. edestruct flushed_frame as ((_ & F1 & _) & F2 & _). rewrite F1, F2. by split.
Qed.

(** The parts of a receipts pass together. *)
Lemma receipts_pass answers s w :
  exists groups volumes tones closing,
    let w' := receipts answers s w in
    produced (thread w') = produced (thread w) ++ groups ++ volumes ++ tones ++ closing /\
    exists e1, group_events answers s (state_closed (thread w)) (echo (shared w)) = (e1, groups) /\
      group (echo (shared w')) = group e1 /\ session (echo (shared w')) = session e1 /\
      (vp_generation <$> listening_pending (echo (shared w')) = vp_generation <$> listening_pending e1 \/
       listening_pending (echo (shared w')) = None) /\
      Forall (fun e => exists g v, e = VolumeApplied g v) volumes /\
      Forall (fun x => exists r, listening_pending e1 = Some r /\
                         x = SessionFailed (vp_generation r) LISTENING_FAILED_SUMMARY) tones /\
      forallb routine closing = true.
Proof.
  unfold receipts.
  destruct (group_events _ _ _ _) as [e1 groups] eqn:Eg.
  destruct (volume_events _ _ _ _) as [e2 volumes] eqn:Ev.
  destruct (listening_events _ _ _ _) as [e3 tones] eqn:Et.
  destruct (volume_requests _ _ _ _ _ _ Ev) as (V1 & V2 & V3 & V4).
  destruct (listening_requests _ _ _ _ _ _ Et) as (T1 & T2 & T3 & T4).
  assert (extends (thread w) (put tones (put volumes (put groups (thread w))))
            ((groups ++ volumes) ++ tones)) as Hp.
  { eapply extends_trans; [|apply put_extends]. eapply extends_trans; apply put_extends. }
  destruct (report_extends (put tones (put volumes (put groups (thread w))))) as (closing & Hr & Hq).
  pose proof (extends_trans _ _ _ _ _ Hp Hr) as Ht. rewrite <- !app_assoc in Ht. clear Hp Hr.
  destruct (flushed_parts w _ ((shared w) <| echo := e3 |>) _ _ Ht) as [F1 F2].
  exists groups, volumes, tones, closing. cbn zeta. rewrite F1, F2. clear F1 F2 Ht. cbn [echo upd].
  split; [done|]. exists e1. rewrite <- V3. split_and!; try done; congruence.
Qed.

Lemma quiet_of {A} (f : ControllerEvent -> option A) (sel : ControllerEvent -> bool) es :
  (forall e, sel e = true -> f e = None) -> forallb sel es = true -> omap f es = [].
Proof.
  intros Hf. induction es as [|e es IH]; [done|]. cbn. intros [He Hs]%andb_true_iff.
  rewrite Hf by done. auto.
Qed.

Lemma quiet_forall {A} (f : ControllerEvent -> option A) (P : ControllerEvent -> Prop) es :
  (forall e, P e -> f e = None) -> Forall P es -> omap f es = [].
Proof. intros Hf. induction 1 as [|e es He _ IH]; [done|]. cbn. by rewrite Hf. Qed.

Lemma telling_finish es : forallb telling es = true -> omap finished_request es = [].
Proof. apply quiet_of. by intros []. Qed.
Lemma routine_finish es : forallb routine es = true -> omap finished_request es = [].
Proof. apply quiet_of. by intros []. Qed.

Lemma session_pass_finish s seen told : omap finished_request (snd (session_pass s seen told)) = [].
Proof. unfold session_pass. destruct (session_echo _) as [[]|]; by repeat case_match. Qed.

Lemma waiting_same w w' : requests w' = requests w -> waiting_request w' = waiting_request w.
Proof. unfold waiting_request. by intros [= -> _ _]. Qed.

(** Sending only adds the request it takes over. *)
Lemma send_answered w command :
  waiting_request (step w (PortSend command))
  = waiting_request w ++ taken_request w (PortSend command).
Proof.
  unfold waiting_request, taken_request, step. cbn [shared upd].
  destruct command; cbn [try_send]; try (rewrite app_nil_r);
    try (by (unfold send; repeat case_match; simplify_eq)).
  - unfold send_group. destruct (group (echo (shared w))) eqn:Eg; cbn.
    + by rewrite Eg.
    + repeat case_match; done.
  - unfold send_tone. repeat case_match; done.
Qed.

Lemma step_answered w s : answered (step w s) = answered w ++ taken_request w s.
Proof.
  unfold answered. destruct s; try (cbn [taken_request]; rewrite app_nil_r); try done.
  - rewrite send_answered. by rewrite app_assoc.
  - cbn [step]. destruct (pc _); try done. destruct (top_pass snapshot state fresh w) as (Hr & Hc).
    cbn zeta in Hc. rewrite (waiting_same _ _ Hr). destruct Hc as [[_ ->]|Hc]; [done|].
    destruct (project_split (projection (thread w)) snapshot (sample (echo (shared w))))
      as (before & after & Hs & _ & Hb & Ha).
    destruct (project _ _ _) as [next events]. cbn in Hs. injection Hc as _ ->.
    rewrite Hs, !omap_app, (telling_finish before), (telling_finish after), session_pass_finish by done.
    by rewrite !app_nil_r.
  - cbn [step]. destruct (pc _); try done.
    destruct (receipts_pass answers snapshot w)
      as (groups & volumes & tones & closing & Hp & e1 & Hg & Hg1 & _ & _ & Hv & Ht & Hc).
    destruct (group_pass _ _ _ _ _ _ Hg) as (_ & _ & Hf & _).
    unfold waiting_request. rewrite Hp, Hg1, !omap_app, <- Hf.
    assert (omap finished_request volumes = []) as ->.
    { eapply quiet_forall; [|exact Hv]. by intros ? (?&?&->). }
    assert (omap finished_request tones = []) as ->.
    { eapply quiet_forall; [|exact Ht]. by intros ? (?&?&->). }
    rewrite (routine_finish closing) by done. cbn. by rewrite !app_nil_r, <- app_assoc.
  - cbn [step]. destruct (pc _); try done.
    rewrite (waiting_same _ _ (diagnostics_requests registry backend now w)).
    destruct (diagnostics_extends registry backend now w) as (es & [_ ->] & Hq & _).
    by rewrite omap_app, (routine_finish es), app_nil_r.
  - cbn [step]. destruct (pc _); try done. destruct (ready w k); [|done].
    rewrite (waiting_same _ _ (woken_requests k w)).
    destruct (woken_extends k w) as (es & [_ ->] & Hq & _).
    by rewrite omap_app, (routine_finish es), app_nil_r.
Qed.

Lemma run_answered steps w : answered (run w steps) = answered w ++ taken w steps.
Proof.
  revert w. induction steps as [|s steps IH]; intros w; cbn [taken]; [by rewrite app_nil_r|].
  change (run w (s :: steps)) with (run (step w s) steps). by rewrite IH, step_answered, app_assoc.
Qed.

(** Every group request the port takes over is answered exactly once, in
    the order they were taken: at any time the answered requests followed by
    the one that waits (there is at most one) are the requests taken.  A
    receipts pass after the backend is gone leaves none waiting. *)
Theorem group_requests_answered_once has_registry now steps :
  let w := run (start_world has_registry now) steps in
  taken (start_world has_registry now) steps
  = omap finished_request (produced (thread w)) ++ waiting_request w /\
  (forall answers s, pc (thread w) = AtReceipts s -> state_closed (thread w) = true ->
     waiting_request (step w (Receipts answers)) = []).
Proof.
  cbn zeta. split; [exact (eq_sym (run_answered steps (start_world has_registry now)))|].
  set (w := run _ _). intros answers s Hpc Hc. cbn [step]. rewrite Hpc.
  destruct (receipts_pass answers s w) as (groups & ? & ? & ? & _ & e1 & Hg & Hg1 & _).
  destruct (group_pass _ _ _ _ _ _ Hg) as (_ & _ & _ & _ & _ & _ & Hn).
  unfold waiting_request. by rewrite Hg1, Hn.
Qed.

(** ** Presses of Start and Stop *)

Definition session_answer (g : GenerationId) (e : ControllerEvent) : option SessionEcho :=
  match e with
  | SessionStopped g' => if g' =? g then Some EchoStopped else None
  | SessionStarted g' active => if g' =? g then Some (EchoActive active) else None
  | SessionDegraded g' active => if g' =? g then Some (EchoDegraded active) else None
  | SessionRestarting g' => if g' =? g then Some EchoRestarting else None
  | SessionFailed g' summary => if g' =? g then Some (EchoFailed summary) else None
  | _ => None
  end.

(** The answers the shell gets for a generation. *)
Definition told (g : GenerationId) (w : World) : list SessionEcho :=
  omap (session_answer g) (produced (thread w)).

(** A command that is a press, and the edge it records. *)
Definition press_of (command : DeviceCommand) : option (GenerationId * SessionEdge) :=
  match command with
  | DevStartSession g _ _ => Some (g, EdgeStart)
  | DevStopSession g => Some (g, EdgeStop)
  | _ => None
  end.

(** Commands that carry a generation of the session. *)
Definition names (g : GenerationId) (s : Step) : bool :=
  match s with
  | PortSend (DevStartSession g' _ _ | DevStopSession g' | DevPlayListeningTone g'
             | DevGroup _ (Some g') _) => g' =? g
  | _ => false
  end.

(** The session events the shell receives for a generation. *)
Definition names_session (g : GenerationId) (e : ControllerEvent) : bool :=
  match e with
  | SessionStopped g' | SessionStarted g' _ | SessionDegraded g' _ | SessionRestarting g'
  | SessionFailed g' _ => g' =? g
  | _ => false
  end.
Definition session_events (g : GenerationId) (w : World) : list ControllerEvent :=
  List.filter (names_session g) (produced (thread w)).

Lemma told_events g w :
  match session_events g w with
  | [] => told g w = []
  | first :: _ => exists echo echoes, told g w = echo :: echoes /\ first = session_event (g, echo)
  end.
Proof.
  unfold session_events, told. induction (produced (thread w)) as [|e es IH]; [done|].
  cbn [List.filter omap list_omap].
  destruct (names_session g e) eqn:E.
  - destruct e; try discriminate; cbn in *; rewrite E; apply Z.eqb_eq in E as ->;
      eexists _, _; (split; [reflexivity|]); reflexivity.
  - assert (session_answer g e = None) as -> by (destruct e; cbn in *; rewrite ?E; done). exact IH.
Qed.

Section Press.
Context (g : GenerationId).

Definition about_g (told_last : option (GenerationId * SessionEcho)) : bool :=
  is_some_and told_last (fun x => fst x =? g).

(** The generation was never used ([edge] is [None]), or the press with that
    edge was the only use of it. *)
Definition pressed (edge : option SessionEdge) (w : World) : Prop :=
  let '(grp, (gs, current), tone) := requests w in
  (gs = g -> edge = Some current) /\
  (vp_generation <$> tone) <> Some g /\
  (forall p, grp = Some p -> gp_generation p <> Some g) /\
  ((told g w = [] /\ about_g (pj_session (projection (thread w))) = false) \/
   exists edge' first rest, edge = Some edge' /\ told g w = first :: rest /\
     answered_by edge' first = true).

Lemma pressed_same edge w w' :
  requests w' = requests w -> told g w' = told g w ->
  pj_session (projection (thread w')) = pj_session (projection (thread w)) ->
  pressed edge w -> pressed edge w'.
Proof. unfold pressed. by intros -> -> ->. Qed.

Lemma routine_untold es : forallb routine es = true -> omap (session_answer g) es = [].
Proof. apply quiet_of. by intros []. Qed.
Lemma telling_untold es : forallb telling es = true -> omap (session_answer g) es = [].
Proof. apply quiet_of. by intros []. Qed.

Lemma session_event_answer x : session_answer g (session_event x) = if fst x =? g then Some (snd x) else None.
Proof. by destruct x as [g' []]. Qed.

Lemma told_extends w w' es :
  extends (thread w) (thread w') es -> forallb routine es = true -> told g w' = told g w.
Proof. intros [_ He] Hq. unfold told. by rewrite He, omap_app, (routine_untold es), app_nil_r. Qed.

(** The session's part of a pass under a press. *)
Lemma pass_pressed edge s e told_last :
  edge = EdgeStart \/ edge = EdgeStop -> snd (session e) = edge -> about_g told_last = false ->
  fst (session e) = g ->
  let '(told_last', es) := session_pass s (sample e) told_last in
  (es = [] /\ told_last' = told_last) \/
  (exists echo, omap (session_answer g) es = [echo] /\ answered_by edge echo = true).
Proof.
  intros Hedge He Hn Hg. unfold session_pass. destruct (session_echo _) as [echo|]; [|by left].
  destruct (session_publishes _ _ _ _) eqn:Ep; [|by left]. right. exists echo.
  cbn [omap list_omap]. rewrite session_event_answer. cbn. rewrite Hg, Z.eqb_refl. split; [done|].
  unfold session_publishes, about_g in *. cbn in Ep. rewrite He, Hg in Ep.
  destruct told_last as [[g' last]|]; cbn in Hn; [rewrite Hn in Ep|]; by destruct Hedge as [-> | ->].
Qed.

(** ... and without one. *)
Lemma pass_other s e told_last :
  fst (session e) <> g ->
  let '(told_last', es) := session_pass s (sample e) told_last in
  omap (session_answer g) es = [] /\ (about_g told_last = false -> about_g told_last' = false).
Proof.
  intros Hg. unfold session_pass. destruct (session_echo _) as [echo|]; [|done].
  destruct (session_publishes _ _ _ _) eqn:Ep; [|done].
  cbn [omap list_omap]. rewrite session_event_answer. cbn.
  apply Z.eqb_neq in Hg. by rewrite Hg.
Qed.

Lemma top_pressed edge snapshot state fresh w :
  (forall e, edge = Some e -> e = EdgeStart \/ e = EdgeStop) ->
  pressed edge w -> pressed edge (top snapshot state fresh w).
Proof.
  intros Hedge Hp. destruct (top_pass snapshot state fresh w) as (Hr & [[H1 H2]|Hc]); cbn zeta in *.
  { eapply pressed_same; [done| |by rewrite H1|done]. unfold told. by rewrite H2. }
  destruct (project_split (projection (thread w)) snapshot (sample (echo (shared w))))
    as (before & after & Hs & Hl & Hb & Ha).
  destruct (project _ _ _) as [next events]. cbn in Hs, Hl. injection Hc as Hc1 Hc2.
  assert (told g (top snapshot state fresh w) = told g w ++ omap (session_answer g)
            (snd (session_pass snapshot (sample (echo (shared w))) (pj_session (projection (thread w)))))) as Ht.
  { unfold told. rewrite Hc2, Hs, !omap_app, (telling_untold before), (telling_untold after) by done.
    by rewrite app_nil_r. }
  unfold pressed in *. rewrite Hr, Ht, Hc1, Hl. clear Hr Ht Hc1 Hc2 Hs Hl.
  unfold requests in *. destruct (session (echo (shared w))) as [gs current] eqn:Es.
  destruct Hp as (P1 & P2 & P3 & P4). split_and!; try done. destruct (decide (gs = g)) as [->|Hn].
  - specialize (P1 eq_refl). destruct P4 as [[Q1 Q2]|(edge' & first & rest & Q1 & Q2 & Q3)].
    + pose proof (pass_pressed current snapshot (echo (shared w)) _ (Hedge _ P1)
        ltac:(by rewrite Es) Q2 ltac:(by rewrite Es)) as H.
      destruct (session_pass _ _ _) as [l es]. cbn. destruct H as [[-> ->]|(echo & -> & H)].
      * left. by rewrite Q1.
      * right. exists current, echo, []. by rewrite Q1.
    + right. rewrite Q2. by exists edge', first, (rest ++ omap (session_answer g)
        (snd (session_pass snapshot (sample (echo (shared w))) (pj_session (projection (thread w)))))).
  - pose proof (pass_other snapshot (echo (shared w)) (pj_session (projection (thread w)))
      ltac:(rewrite Es; exact Hn)) as H.
    destruct (session_pass _ _ _) as [l es]. cbn. destruct H as [-> H]. rewrite app_nil_r.
    destruct P4 as [[Q1 Q2]|Q]; [left; auto|by right].
Qed.

Lemma receipts_pressed edge answers s w : pressed edge w -> pressed edge (receipts answers s w).
Proof.
  intros Hp. destruct (receipts_pass answers s w)
    as (groups & volumes & tones & closing & Hpr & e1 & Hg & R1 & R2 & R3 & Hv & Ht & Hc).
  destruct (group_pass _ _ _ _ _ _ Hg) as (G1 & G2 & _ & G4 & G5 & G6 & _).
  destruct (receipts_extends answers s w) as (?&?&?&?&[Hpj _]&_).
  unfold pressed, requests in *. destruct (session (echo (shared w))) as [gs current] eqn:Es.
  destruct Hp as (P1 & P2 & P3 & P4).
  assert (told g (receipts answers s w) = told g w) as ->.
  { unfold told. rewrite Hpr, !omap_app. rewrite (routine_untold closing) by done.
    assert (omap (session_answer g) groups = []) as -> by (eapply quiet_forall; [|exact G5]; by intros ? (?&?&->)).
    assert (omap (session_answer g) volumes = []) as -> by (eapply quiet_forall; [|exact Hv]; by intros ? (?&?&->)).
    assert (omap (session_answer g) tones = []) as ->; [|by rewrite app_nil_r].
    eapply quiet_forall; [|exact Ht]. intros ? (r & Hl & ->). cbn. rewrite G1 in Hl. rewrite Hl in P2.
    cbn in P2. destruct (vp_generation r =? g) eqn:E; [|done]. apply Z.eqb_eq in E. destruct P2. by rewrite E. }
  rewrite R1, R2, Hpj. destruct (session e1) as [gs' current'] eqn:Es'. cbn in G2. subst gs'.
  split_and!; try done.
  - intros ->. destruct G4 as [[= ->]|(p & H1 & H2)]; [auto|]. by destruct (P3 p H1).
  - destruct R3 as [->| ->]; [by rewrite G1|done].
  - intros p Hpe. destruct G6 as [G6|G6]; [|by rewrite G6 in Hpe].
    rewrite Hpe in G6. destruct (group (echo (shared w))) as [p'|] eqn:Eg; [|done].
    injection G6 as ->. by apply P3.
Qed.

(** A command that does not carry the generation. *)
Lemma send_pressed edge command w :
  names g (PortSend command) = false -> pressed edge w -> pressed edge (step w (PortSend command)).
Proof.
  intros Hn Hp. cbn [step].
  assert (requests (w <| shared := fst (try_send (shared w) command) |>) = requests w ->
          pressed edge (w <| shared := fst (try_send (shared w) command) |>)) as Hsame.
  { intros Hr. by eapply pressed_same. }
  destruct command; try (apply Hsame; cbn [try_send]; unfold send; repeat case_match; simplify_eq; done).
  all: clear Hsame; unfold pressed, requests in *; cbn [shared thread projection upd].
  all: destruct (session (echo (shared w))) as [gs current] eqn:Es; destruct Hp as (P1 & P2 & P3 & P4).
  all: change (told g (w <| shared := ?x |>)) with (told g w).
  - cbn [try_send]. unfold send_group. destruct (group (echo (shared w))) as [p|] eqn:Eg.
    { cbn. rewrite Es, Eg. by split_and!. }
    match goal with |- context [let '(q, a) := ?x in _] => destruct x as [q admission] end.
    destruct generation as [g'|]; cbn; rewrite ?Es.
    + cbn in Hn. apply Z.eqb_neq in Hn. split_and!; try done. by intros ? [= <-] [= ->].
    + split_and!; try done. by intros ? [= <-].
  - cbn in Hn. apply Z.eqb_neq in Hn. cbn [try_send].
    destruct (Handle.try_send_batch _ _) as [q r]. by split_and!.
  - cbn in Hn. apply Z.eqb_neq in Hn. cbn [try_send]. unfold send.
    destruct (Handle.try_send _ _) as [q r]. by split_and!.
  - cbn in Hn. apply Z.eqb_neq in Hn. cbn [try_send]. unfold send_tone.
    destruct (listening_pending (echo (shared w))) as [p|] eqn:El.
    { cbn. rewrite Es, El. by split_and!. }
    match goal with |- context [let '(q, a) := ?x in _] => destruct x as [q receipt] end.
    cbn. rewrite Es. split_and!; try done. by intros [= ->].
Qed.

Lemma step_pressed edge s w :
  (forall e, edge = Some e -> e = EdgeStart \/ e = EdgeStop) ->
  names g s = false -> pressed edge w -> pressed edge (step w s).
Proof.
  intros Hedge Hn Hp. destruct s; try (cbn [step]; by eapply pressed_same).
  - by apply send_pressed.
  - cbn [step]. destruct (pc _); try done. by apply top_pressed.
  - cbn [step]. destruct (pc _); try done. by apply receipts_pressed.
  - cbn [step]. destruct (pc _); try done.
    destruct (diagnostics_extends registry backend now w) as (es & He & Hq & _).
    eapply pressed_same; [apply diagnostics_requests|by eapply told_extends|by destruct He as [-> _]|done].
  - cbn [step]. destruct (pc _); try done. destruct (ready w k); [|done].
    destruct (woken_extends k w) as (es & He & Hq & _).
    eapply pressed_same; [apply woken_requests|by eapply told_extends|by destruct He as [-> _]|done].
Qed.

Lemma run_pressed edge steps w :
  (forall e, edge = Some e -> e = EdgeStart \/ e = EdgeStop) ->
  forallb (fun s => negb (names g s)) steps = true -> pressed edge w -> pressed edge (run w steps).
Proof.
  intros Hedge. revert w. induction steps as [|s steps IH]; intros w Hs Hp; [done|].
  cbn in Hs. apply andb_true_iff in Hs as [Hs Hr]. apply negb_true_iff in Hs.
  apply IH; [done|]. by apply step_pressed.
Qed.

Lemma press_pressed edge command w :
  press_of command = Some (g, edge) ->
  is_busy (snd (try_send (shared w) command)) = false ->
  pressed None w -> pressed (Some edge) (step w (PortSend command)).
Proof.
  intros Hc Hb Hp. unfold pressed, requests in *. cbn [step shared thread projection upd].
  change (told g (w <| shared := ?x |>)) with (told g w).
  destruct (session (echo (shared w))) as [gs current] eqn:Es. destruct Hp as (P1 & P2 & P3 & P4).
  assert (told g w = [] /\ about_g (pj_session (projection (thread w))) = false) as P5
    by (destruct P4 as [|(?&?&?&?&_)]; done).
  destruct command; try done; injection Hc as -> <-; cbn [try_send] in *.
  - destruct (Handle.try_send_batch _ _) as [q r]. cbn in *. rewrite Hb. split_and!; auto.
  - unfold send in *. destruct (Handle.try_send _ _) as [q r]. cbn in *. rewrite Hb. split_and!; auto.
Qed.

End Press.

(** The first answer to a press passes the bridge's own test. *)
Lemma press_answered has_registry now s1 command s2 g edge :
  press_of command = Some (g, edge) -> g <> 0 ->
  forallb (fun s => negb (names g s)) (s1 ++ s2) = true ->
  let w0 := run (start_world has_registry now) s1 in
  is_busy (snd (try_send (shared w0) command)) = false ->
  match told g (run (step w0 (PortSend command)) s2) with
  | [] => True
  | first :: _ => answered_by edge first = true
  end.
Proof.
  intros Hc Hg Hs w0 Hb. rewrite forallb_app in Hs. apply andb_true_iff in Hs as [H1 H2].
  assert (pressed g None w0) as Hp.
  { apply run_pressed; [done|done|]. unfold pressed. cbn. split_and!; try done; first [congruence|by left]. }
  apply (press_pressed g edge command w0) in Hp; [|done|done].
  apply (run_pressed g _ s2) in Hp; [|by intros ? [= ->]; destruct command; simplify_eq/=; auto|done].
  unfold pressed in Hp. destruct (requests _) as [[grp [gs cur]] tone].
  destruct Hp as (_ & _ & _ & [[-> _]|(? & first & rest & [= <-] & -> & ?)]); done.
Qed.

(** C7: A press is never contradicted.  When Stop, or Start, is pressed with a
    nonzero generation that no other command carries, and the queue does not
    refuse it, then the first session event the shell receives for that
    generation is, after a Stop, that the session has stopped, never that it
    runs, restarts or has failed; after a Start, that it runs, runs degraded or
    has failed, never that it has stopped or restarts.  (A Start of a session
    that already runs, or has already failed, is answered at once.) *)
Theorem press_is_never_contradicted has_registry now s1 command s2 g :
  g <> 0 -> forallb (fun s => negb (names g s)) (s1 ++ s2) = true ->
  let w0 := run (start_world has_registry now) s1 in
  is_busy (snd (try_send (shared w0) command)) = false ->
  let events := session_events g (run (step w0 (PortSend command)) s2) in
  match command, events with
  | DevStopSession g', first :: _ => g' = g -> first = SessionStopped g
  | DevStartSession g' _ _, first :: _ =>
      g' = g -> (exists active, first = SessionStarted g active) \/
                (exists active, first = SessionDegraded g active) \/
                (exists summary, first = SessionFailed g summary)
  | _, _ => True
  end.
Proof.
  intros Hg Hs w0 Hb events.
  pose proof (told_events g (run (step w0 (PortSend command)) s2)) as He.
  fold events in He. clearbody events. destruct events as [|first rest]; [destruct command; exact I|].
  destruct (press_of command) as [[g' edge]|] eqn:Ep;
    [|destruct command; exact I || discriminate Ep].
  destruct (decide (g' = g)) as [->|Hne]; 
    [|destruct command; try exact I; injection Ep as -> _; done].
  pose proof (press_answered has_registry now s1 command s2 g edge Ep Hg Hs Hb) as Ha.
  destruct He as (echo & echoes & Et & ->). fold w0 in Ha. rewrite Et in Ha.
  destruct command; try discriminate Ep; injection Ep as -> <-; intros _;
    destruct echo; try discriminate Ha; cbn; eauto.
Qed.

(** ** Concrete runs *)

Definition idle : Supervisor.SessionDiagnosticsState (Source:=Z) :=
  Supervisor.DiagInactive 0 Supervisor.ReasonFailed.

Lemma bridge_loses_nothing_witness :
  let w := start_world false 0 in
  exists more, sq_accepted (shell (step w (Top Backend.default_snapshot idle 0)))
               = sq_accepted (shell w) ++ outbox (thread w) ++ more.
Proof.
  destruct (bridge_loses_nothing false 0 []) as [_ H].
  apply H; [reflexivity|reflexivity|apply Nat.leb_le; vm_compute; reflexivity].
Defined.

Lemma window_catches_up_witness :
  tells (sq_accepted (shell (run (step (run (start_world false 0) [])
                                       (Top Backend.default_snapshot idle 0)) [Receipts ∅])))
    Backend.default_snapshot
    (snd (audio_echo (Backend.sn_audio_source Backend.default_snapshot)
            (pj_endpoints (projection (thread (run (start_world false 0) [])))))).
Proof.
  apply (window_catches_up false 0 [] Backend.default_snapshot idle 0 [Receipts ∅]).
  - reflexivity.
  - reflexivity.
  - reflexivity.
  - vm_compute. reflexivity.
  - vm_compute. reflexivity.
Defined.

(** A request whose members are refused is answered in the next pass. *)
Definition empty_delete : Step := PortSend (DevGroup 7 None (GroupDelete 1)).

Lemma group_requests_answered_once_witness :
  let w := run (start_world false 0) [BackendGone; empty_delete; Top Backend.default_snapshot idle 0;
             Receipts ∅; Diagnose (Registry.initial_snapshot {| Registry.now_utc := 0; Registry.elapsed_ns := 0 |})
                           Backend.default_snapshot 0; Wait StateClosed; Top Backend.default_snapshot idle 0] in
  taken (start_world false 0) [BackendGone; empty_delete] = [7] /\
  waiting_request (step w (Receipts ∅)) = [].
Proof.
  split; [reflexivity|].
  apply (proj2 (group_requests_answered_once false 0 _) ∅ Backend.default_snapshot); vm_compute; reflexivity.
Defined.

Definition stop_then_pass : list Step := Top Backend.default_snapshot idle 0 :: [Receipts ∅].

Lemma press_is_never_contradicted_witness :
  session_events 1 (run (step (run (start_world false 0) []) (PortSend (DevStopSession 1))) stop_then_pass)
  = [SessionStopped 1] /\
  match session_events 1 (run (step (run (start_world false 0) []) (PortSend (DevStopSession 1))) stop_then_pass) with
  | first :: _ => 1 = 1 -> first = SessionStopped 1
  | [] => True
  end.
Proof.
  split; [reflexivity|].
  apply (press_is_never_contradicted false 0 [] (DevStopSession 1) stop_then_pass 1); try done.
Defined.

(** ** The outbox of a shell that stays behind

    Notices of a failed search are put into the outbox whether or not it is
    empty, so it grows with a shell that takes nothing. *)

Definition search_failed : Backend.BackendEvent :=
  Backend.Notice Backend.Warning Backend.NoteDiscoveryFailed Backend.ScopeDiscovery EmptyString.
Definition quiet_registry : Registry.DiagnosticsSnapshot :=
  Registry.initial_snapshot {| Registry.now_utc := 0; Registry.elapsed_ns := 0 |}.
Definition notice_round : list Step :=
  [Top Backend.default_snapshot idle 0; Receipts ∅; Diagnose quiet_registry Backend.default_snapshot 0;
   Wait (EventReceived search_failed)].

Lemma outbox_grows_with_notices :
  length (outbox (thread (run (start_world false 0) (concat (repeat notice_round 350))))) = 102%nat.
Proof. vm_compute. reflexivity. Qed.

End BridgeRuns.
