(* ===== verification/BridgeKeys.v ===== *)
(** * Opaque endpoint keys

    The two rules the endpoint table of the bridge is built on: a key means the
    same Windows endpoint for ever, and nothing the shell is told depends on
    the raw identifiers of the endpoints. *)

From S2P Require Import Prelude Float32 AppState Model Wire Text Features Device TxtParser Browser Recovery Discovery Calibration Buffer Jitter TimingDiag RtpSender DiagRing Supervisor Persistence Backend ClientDiag Registry Handle Bridge BridgeProps BridgeRuns.
Import Model Bridge BridgeProps BridgeRuns.
Import Persistence (AudioEndpointPreference, SystemDefault, Explicit).

Module BridgeKeys.

#[local] Existing Instances Backend.eta_DeviceSnapshot Handle.eta_CommandReceipt.

(** ** Renaming the identifiers *)

Section Rename.
Context (f : text -> text) `{Hinj : !Inj (=) (=) f}.

Definition m_ep (e : Backend.AudioEndpoint) : Backend.AudioEndpoint :=
  {| Backend.ep_id := f (Backend.ep_id e); Backend.ep_name := Backend.ep_name e |}.
Definition m_pref (p : AudioEndpointPreference) : AudioEndpointPreference :=
  match p with SystemDefault => SystemDefault | Explicit id name => Explicit (f id) name end.
Definition m_source (a : Backend.AudioSourceSnapshot) : Backend.AudioSourceSnapshot :=
  {| Backend.au_active_endpoints := (fun es : list Backend.AudioEndpoint => m_ep <$> es) <$> Backend.au_active_endpoints a;
     Backend.au_refresh_failed := Backend.au_refresh_failed a;
     Backend.au_preference := m_pref (Backend.au_preference a);
     Backend.au_captured_endpoint := m_ep <$> Backend.au_captured_endpoint a;
     Backend.au_state := Backend.au_state a;
     Backend.au_windows_input_peak_permille := Backend.au_windows_input_peak_permille a;
     Backend.au_pcm_frames_dropped_total := Backend.au_pcm_frames_dropped_total a |}.
Definition m_snap (s : Backend.DeviceSnapshot) : Backend.DeviceSnapshot :=
  s <| Backend.sn_audio_source := m_source (Backend.sn_audio_source s) |>.
Definition m_entry (e : EndpointEntry) : EndpointEntry :=
  {| ee_key := ee_key e; ee_id := f (ee_id e); ee_name := ee_name e |}.
Definition m_table (t : EndpointTable) : EndpointTable :=
  {| et_next := et_next t; et_known := m_entry <$> et_known t |}.
Definition m_pj (p : Projection) : Projection := p <| pj_endpoints := m_table (pj_endpoints p) |>.
Definition m_guard (g : Backend.ListeningTestGuard) : Backend.ListeningTestGuard :=
  {| Backend.lt_generation := Backend.lt_generation g; Backend.lt_members := Backend.lt_members g;
     Backend.lt_volume := Backend.lt_volume g; Backend.lt_levels := Backend.lt_levels g;
     Backend.lt_endpoint := m_pref (Backend.lt_endpoint g);
     Backend.lt_captured := m_ep <$> Backend.lt_captured g |}.
Definition m_cmd (c : Backend.BackendCommand) : Backend.BackendCommand :=
  match c with
  | Backend.RunListeningTest g => Backend.RunListeningTest (m_guard g)
  | Backend.SetAudioEndpoint p => Backend.SetAudioEndpoint (m_pref p)
  | c => c
  end.
Definition m_env (e : Backend.CommandEnvelope) : Backend.CommandEnvelope :=
  {| Backend.env_id := Backend.env_id e; Backend.env_command := m_cmd (Backend.env_command e);
     Backend.env_confirmation := Backend.env_confirmation e |}.
Definition m_queue (q : Handle.Queue) : Handle.Queue :=
  {| Handle.pending := m_env <$> Handle.pending q; Handle.next_id := Handle.next_id q;
     Handle.closed := Handle.closed q |}.
Definition m_echo (e : GenerationEcho) : GenerationEcho :=
  e <| listening_target := (fun '(g, guard) => (g, m_guard guard)) <$> listening_target e |>.
Definition m_shared (x : Shared) : Shared :=
  {| queue := m_queue (queue x); echo := m_echo (echo x); directory := m_table (directory x) |}.
Definition m_pc (p : Pc) : Pc :=
  match p with AtReceipts s => AtReceipts (m_snap s) | p => p end.
Definition m_thread (b : Thread) : Thread :=
  b <| projection := m_pj (projection b) |> <| pc := m_pc (pc b) |>.
Definition m_world (w : World) : World :=
  {| shared := m_shared (shared w); shell := shell w; thread := m_thread (thread w) |}.
Definition m_step (s : Step) : Step :=
  match s with
  | Top snapshot state fresh => Top (m_snap snapshot) state fresh
  | Diagnose registry backend now => Diagnose registry (m_snap backend) now
  | s => s
  end.

(** Renaming commutes with the table. *)

Lemma eqb_inj (x y : text) : (f x ==? f y) = (x ==? y).
Proof. apply bool_decide_ext. split; [apply (inj f)|by intros ->]. Qed.

Lemma rename_m id name (known : list EndpointEntry) :
  rename_entry (f id) name (m_entry <$> known)
  = (fun x : list EndpointEntry * AudioEndpointKey => (m_entry <$> fst x, snd x)) <$> rename_entry id name known.
Proof.
  induction known as [|e known IH]; [done|]. cbn [rename_entry fmap list_fmap].
  cbn [ee_id m_entry]. rewrite eqb_inj. destruct (ee_id e ==? id); [done|].
  change (m_entry <$> known) with (list_fmap _ _ m_entry known) in *. rewrite IH.
  by destruct (rename_entry id name known) as [[]|].
Qed.

Lemma key_for_m t e :
  key_for (m_table t) (m_ep e) = (let '(t, key) := key_for t e in (m_table t, key)).
Proof.
  unfold key_for. cbn [m_table et_known et_next m_ep Backend.ep_id Backend.ep_name]. rewrite rename_m.
  destruct (rename_entry _ _ _) as [[known key]|]; [done|]. cbn. unfold m_table. cbn.
  by rewrite fmap_app.
Qed.

Lemma offer_m t (es : list Backend.AudioEndpoint) :
  offer_endpoints (m_table t) (m_ep <$> es)
  = (let '(t, choices) := offer_endpoints t es in (m_table t, choices)).
Proof.
  revert t. induction es as [|e es IH]; intros t; [done|].
  change (m_ep <$> e :: es) with (m_ep e :: (m_ep <$> es)). cbn [offer_endpoints].
  rewrite key_for_m. destruct (key_for t e) as [t' key]. rewrite IH. by destruct (offer_endpoints t' es).
Qed.

Lemma position_m id (es : list Backend.AudioEndpoint) : endpoint_position (f id) (m_ep <$> es) = endpoint_position id es.
Proof.
  induction es as [|e es IH]; [done|]. change (m_ep <$> e :: es) with (m_ep e :: (m_ep <$> es)).
  cbn [endpoint_position]. cbn [m_ep Backend.ep_id]. rewrite eqb_inj, IH. done.
Qed.

Lemma is_endpoint_m id e : is_endpoint (f id) (m_ep e) = is_endpoint id e.
Proof. apply eqb_inj. Qed.

Lemma selection_m a offers : audio_selection (m_source a) offers = audio_selection a offers.
Proof.
  unfold audio_selection. cbn [m_source Backend.au_preference Backend.au_active_endpoints
    Backend.au_captured_endpoint]. destruct (Backend.au_preference a) as [|id name]; [done|]. cbn [m_pref].
  replace (default [] ((fun es : list Backend.AudioEndpoint => m_ep <$> es) <$> Backend.au_active_endpoints a))
    with (m_ep <$> default [] (Backend.au_active_endpoints a)) by by destruct (Backend.au_active_endpoints a).
  rewrite position_m. destruct (endpoint_position _ _); [done|].
  destruct (Backend.au_captured_endpoint a) as [e|]; cbn; rewrite ?is_endpoint_m;
    by destruct (Backend.au_active_endpoints a).
Qed.

Lemma audio_echo_m a t :
  audio_echo (m_source a) (m_table t) = (let '(t, r) := audio_echo a t in (m_table t, r)).
Proof.
  unfold audio_echo.
  replace (default [] (Backend.au_active_endpoints (m_source a)))
    with (m_ep <$> default [] (Backend.au_active_endpoints a))
    by (cbn; by destruct (Backend.au_active_endpoints a)).
  rewrite offer_m. destruct (offer_endpoints _ _) as [t1 offers]. rewrite selection_m.
  cbn [m_source Backend.au_captured_endpoint Backend.au_refresh_failed Backend.au_active_endpoints
       Backend.au_state].
  destruct (Backend.au_captured_endpoint a) as [e|]; cbn [fmap option_fmap option_map];
    [rewrite key_for_m; destruct (key_for t1 e)|]; by destruct (Backend.au_active_endpoints a).
Qed.

(** ... with a pass, ... *)

Definition m_pass (x : Pass) : Pass := (m_pj (fst x), snd x).

Definition commutes (part part' : Pass -> Pass) : Prop := forall x, part' (m_pass x) = m_pass (part x).

Lemma commutes_comp p p' q q' :
  commutes p p' -> commutes q q' -> commutes (fun x => q (p x)) (fun x => q' (p' x)).
Proof. intros Hp Hq x. by rewrite Hp, Hq. Qed.

Ltac part_commutes := intros [next events]; cbn; by repeat case_match.

Lemma volume_m s : commutes (project_volume s) (project_volume (m_snap s)).
Proof. unfold project_volume. part_commutes. Qed.
Lemma desired_m s : commutes (project_desired s) (project_desired (m_snap s)).
Proof. unfold project_desired. part_commutes. Qed.
Lemma groups_m s : commutes (project_groups s) (project_groups (m_snap s)).
Proof. unfold project_groups. part_commutes. Qed.
Lemma discovery_m s seen : commutes (project_discovery s seen) (project_discovery (m_snap s) seen).
Proof. unfold project_discovery. part_commutes. Qed.
Lemma session_m s seen : commutes (project_session s seen) (project_session (m_snap s) seen).
Proof. unfold project_session. part_commutes. Qed.
Lemma mute_m s : commutes (project_mute s) (project_mute (m_snap s)).
Proof. unfold project_mute. part_commutes. Qed.
Lemma levels_m s : commutes (project_levels s) (project_levels (m_snap s)).
Proof. unfold project_levels. part_commutes. Qed.
Lemma latency_m s : commutes (project_latency s) (project_latency (m_snap s)).
Proof. unfold project_latency. part_commutes. Qed.
Lemma audio_m s : commutes (project_audio s) (project_audio (m_snap s)).
Proof.
  intros [next events]. unfold project_audio. cbn [m_pass fst snd m_pj pj_endpoints upd m_snap Backend.sn_audio_source].
  rewrite audio_echo_m. destruct (audio_echo _ _) as [t audio]. cbn. by case_bool_decide.
Qed.

Lemma project_m p s seen :
  project (m_pj p) (m_snap s) seen = (let '(p, events) := project p s seen in (m_pj p, events)).
Proof.
  unfold project. change (m_pj p, []) with (m_pass (p, [])).
  rewrite volume_m, desired_m, groups_m, discovery_m, session_m, mute_m, levels_m, latency_m, audio_m.
  by destruct (project_audio _ _).
Qed.

(** ... with the echo, ... *)

Lemma capture_m s : Backend.capture (m_snap s) = m_guard <$> Backend.capture s.
Proof. unfold Backend.capture. cbn. by repeat case_match. Qed.

Lemma observe_m e s events :
  observe_listening_target (m_echo e) (m_snap s) events = m_echo (observe_listening_target e s events).
Proof.
  unfold observe_listening_target. rewrite capture_m.
  destruct (omap started_generation events); [cbn; by case_match|]. unfold m_echo. cbn.
  by destruct (Backend.capture s).
Qed.

Lemma group_events_m answers s closed e :
  group_events answers (m_snap s) closed (m_echo e)
  = (let '(e, events) := group_events answers s closed e in (m_echo e, events)).
Proof.
  unfold group_events. cbn. destruct (group e) as [p|]; [|done].
  change (group_status answers (m_snap s) closed) with (group_status answers s closed).
  destruct (group_status _ _ _ _) as [admission [status|]]; [|done].
  destruct (gp_generation p); [|done]. by case_match.
Qed.

Lemma volume_events_m answers s closed e :
  volume_events answers (m_snap s) closed (m_echo e)
  = (let '(e, events) := volume_events answers s closed e in (m_echo e, events)).
Proof. unfold volume_events. cbn. by repeat case_match. Qed.

Lemma listening_events_m answers s closed e :
  listening_events answers (m_snap s) closed (m_echo e)
  = (let '(e, events) := listening_events answers s closed e in (m_echo e, events)).
Proof. unfold listening_events. cbn. by repeat case_match. Qed.

(** ... with the port, ... *)

Lemma envelope_m q command confirm :
  Handle.try_send_envelope (m_queue q) (m_cmd command) confirm
  = (let '(q, r) := Handle.try_send_envelope q command confirm in (m_queue q, r)).
Proof.
  unfold Handle.try_send_envelope, Handle.try_reserve. cbn. rewrite length_fmap.
  destruct (Handle.closed q); [done|]. destruct (_ <=? _)%nat; [|done].
  unfold m_queue. cbn. by rewrite fmap_app.
Qed.

Lemma send_m x command :
  send (m_shared x) (m_cmd command) = (let '(x, r) := send x command in (m_shared x, r)).
Proof.
  unfold send, Handle.try_send. cbn [m_shared queue]. rewrite envelope_m.
  by destruct (Handle.try_send_envelope _ _ _).
Qed.

Lemma confirmed_m q command :
  Handle.try_send_confirmed (m_queue q) (m_cmd command)
  = (let '(q, r) := Handle.try_send_confirmed q command in (m_queue q, r)).
Proof.
  unfold Handle.try_send_confirmed. rewrite envelope_m.
  by destruct (Handle.try_send_envelope _ _ _) as [q' []].
Qed.

Lemma send_all_m q commands :
  Handle.send_all (m_queue q) (m_cmd <$> commands)
  = (let '(q, ids) := Handle.send_all q commands in (m_queue q, ids)).
Proof.
  revert q. induction commands as [|command commands IH]; intros q; [done|].
  change (m_cmd <$> command :: commands) with (m_cmd command :: (m_cmd <$> commands)).
  cbn [Handle.send_all]. cbn zeta. cbn [m_queue Handle.next_id Handle.pending].
  match goal with |- context [Handle.send_all ?q' (m_cmd <$> commands)] =>
    match goal with |- context [Handle.send_all ?q'' commands] =>
      replace q' with (m_queue q''); [rewrite IH|] end end.
  - by destruct (Handle.send_all _ commands).
  - unfold m_queue. cbn. by rewrite fmap_app.
Qed.

Lemma batch_m q commands :
  Handle.try_send_batch (m_queue q) (m_cmd <$> commands)
  = (let '(q, r) := Handle.try_send_batch q commands in (m_queue q, r)).
Proof.
  unfold Handle.try_send_batch, Handle.try_reserve. cbn [m_queue Handle.closed Handle.pending].
  rewrite !length_fmap. destruct (Handle.closed q); [done|]. destruct (_ <=? _)%nat; [|done].
  fold (m_queue q). rewrite send_all_m. by destruct (Handle.send_all q commands).
Qed.

Lemma find_m key (known : list EndpointEntry) :
  List.find (fun e => ee_key e =? key) (m_entry <$> known)
  = m_entry <$> List.find (fun e => ee_key e =? key) known.
Proof.
  induction known as [|e known IH]; [done|]. change (m_entry <$> e :: known) with (m_entry e :: (m_entry <$> known)).
  cbn [List.find]. cbn [m_entry ee_key]. destruct (_ =? _); [done|exact IH].
Qed.

Lemma preference_m x request : preference_of (m_shared x) request = m_pref <$> preference_of x request.
Proof.
  destruct request as [|key]; [done|]. cbn. unfold table_preference. cbn [m_table et_known].
  rewrite find_m. by destruct (List.find _ _).
Qed.

Lemma group_command_m c command : translate_group c = Ok command -> m_cmd command = command.
Proof. unfold translate_group. intros. by repeat case_match; simplify_eq. Qed.

Lemma send_group_m x request generation command :
  send_group (m_shared x) request generation command
  = (let '(x, r) := send_group x request generation command in (m_shared x, r)).
Proof.
  unfold send_group. cbn [m_shared echo queue]. change (group (m_echo (echo x))) with (group (echo x)).
  destruct (group (echo x)); [done|].
  destruct (translate_group command) as [c|failure] eqn:Ec; [|by destruct generation].
  rewrite <- (group_command_m _ _ Ec) at 1. rewrite confirmed_m.
  destruct (Handle.try_send_confirmed (queue x) c) as [q [admitted|e]]; by destruct generation.
Qed.

Lemma send_tone_m x generation :
  send_tone (m_shared x) generation = (let '(x, r) := send_tone x generation in (m_shared x, r)).
Proof.
  unfold send_tone. cbn [m_shared echo queue].
  change (listening_pending (m_echo (echo x))) with (listening_pending (echo x)).
  change (session (m_echo (echo x))) with (session (echo x)).
  change (listening_target (m_echo (echo x)))
    with ((fun '(g, guard) => (g, m_guard guard)) <$> listening_target (echo x)).
  destruct (listening_pending (echo x)); [done|].
  destruct (listening_target (echo x)) as [[g guard]|]; [|done]. cbn [fmap option_fmap option_map].
  destruct (_ && _); [|done].
  change (Backend.RunListeningTest (m_guard guard)) with (m_cmd (Backend.RunListeningTest guard)).
  rewrite confirmed_m.
  by destruct (Handle.try_send_confirmed (queue x) (Backend.RunListeningTest guard)) as [q [[]|e]].
Qed.

Lemma try_send_m x command :
  try_send (m_shared x) command = (let '(x, r) := try_send x command in (m_shared x, r)).
Proof.
  destruct command as [| | |g ids v| | |g v| | | |]; cbn [try_send].
  - apply send_group_m.
  - apply (send_m x (Backend.SetReceiverLevel receiver (volume_of level))).
  - unfold Handle.is_closed. cbn [m_shared queue m_queue Handle.closed].
    by destruct (Handle.closed (queue x)).
  - pose proof (batch_m (queue x) [Backend.SetDesiredMembers (list_to_set ids);
      Backend.SetMasterVolume (volume_of v); Backend.SetRunIntent Backend.Running]) as H.
    cbn [fmap list_fmap m_cmd] in H. cbn [m_shared queue echo]. rewrite H. clear H.
    by destruct (Handle.try_send_batch _ _).
  - pose proof (send_m x (Backend.SetRunIntent Backend.Stopped)) as H. cbn [m_cmd] in H. rewrite H. clear H.
    by destruct (send x _).
  - apply send_tone_m.
  - pose proof (confirmed_m (queue x) (Backend.SetMasterVolume (volume_of v))) as H.
    cbn [m_cmd] in H. cbn [m_shared queue echo]. rewrite H. clear H.
    by destruct (Handle.try_send_confirmed _ _) as [q [[]|e]].
  - apply (send_m x (Backend.SetMuted muted)).
  - apply (send_m x (Backend.SetLatencyPreset (latency_preset choice))).
  - rewrite preference_m. destruct (preference_of x request) as [p|]; [|done].
    apply (send_m x (Backend.SetAudioEndpoint p)).
  - apply (send_m x Backend.Shutdown).
Qed.

(** ... and with every step of the thread. *)

Lemma flushed_m w : flushed (m_world w) = m_world (flushed w).
Proof. unfold flushed. cbn. by destruct (flush _ _ _) as [[q rest] gone]. Qed.

Lemma reconcile_m fresh state b :
  reconcile_sessions fresh state (m_thread b) = m_thread (reconcile_sessions fresh state b).
Proof. unfold reconcile_sessions. cbn. by destruct (Registry.reconcile _ _ _). Qed.

(** From the projection on, once the tracker has been reconciled. *)
Definition derive (snapshot : Backend.DeviceSnapshot) (w : World) (b : Thread) : World :=
  if may_derive b then
    let '(next, events) := project (projection b) snapshot (sample (echo (shared w))) in
    w <| shared := (shared w) <| echo := observe_listening_target (echo (shared w)) snapshot events |>
                              <| directory := pj_endpoints next |> |>
      <| thread := (put events (b <| projection := next |>)) <| pc := AtReceipts snapshot |> |>
  else w <| thread := b <| pc := AtDiagnostics |> |>.

Lemma derive_m snapshot w b :
  derive (m_snap snapshot) (m_world w) (m_thread b) = m_world (derive snapshot w b).
Proof.
  unfold derive. change (may_derive (m_thread b)) with (may_derive b).
  change (projection (m_thread b)) with (m_pj (projection b)).
  change (sample (echo (shared (m_world w)))) with (sample (echo (shared w))).
  destruct (may_derive b); [|done]. rewrite project_m. destruct (project _ _ _) as [next events].
  cbn [m_world shared m_shared echo]. rewrite observe_m. done.
Qed.

Lemma top_m snapshot state fresh w :
  top (m_snap snapshot) state fresh (m_world w) = m_world (top snapshot state fresh w).
Proof.
  unfold top. rewrite flushed_m. generalize (flushed w). clear w. intros w.
  pose proof (reconcile_m fresh state (thread w)) as Hr.
  transitivity (derive (m_snap snapshot) (m_world w)
    (m_thread (if session_diagnostics_closed (thread w) then thread w
               else if has_registry (thread w) then reconcile_sessions fresh state (thread w)
                    else thread w))); [|apply derive_m].
  cbn [m_world thread]. change (session_diagnostics_closed (m_thread (thread w))) with (session_diagnostics_closed (thread w)).
  change (has_registry (m_thread (thread w))) with (has_registry (thread w)).
  destruct (session_diagnostics_closed (thread w)); [done|].
  destruct (has_registry (thread w)); [|done]. by rewrite Hr.
Qed.

Lemma put_m events b : put events (m_thread b) = m_thread (put events b).
Proof. done. Qed.

Lemma report_m b : report_closure (m_thread b) = m_thread (report_closure b).
Proof. unfold report_closure. cbn. by destruct (_ && _). Qed.

Lemma receipts_m answers snapshot w :
  receipts answers (m_snap snapshot) (m_world w) = m_world (receipts answers snapshot w).
Proof.
  unfold receipts. cbn [m_world thread shared m_shared echo].
  change (state_closed (m_thread (thread w))) with (state_closed (thread w)).
  rewrite group_events_m. destruct (group_events _ _ _ _) as [e1 groups].
  rewrite volume_events_m. destruct (volume_events _ _ _ _) as [e2 volumes].
  rewrite listening_events_m. destruct (listening_events _ _ _ _) as [e3 tones].
  rewrite !put_m, report_m. generalize (report_closure (put tones (put volumes (put groups (thread w))))).
  intros b. by rewrite <- flushed_m.
Qed.

Lemma publish_reading_m reading w : publish_reading reading (m_world w) = m_world (publish_reading reading w).
Proof.
  unfold publish_reading. cbn [m_world thread].
  change (published (m_thread (thread w))) with (published (thread w)).
  case_bool_decide; [done|]. by rewrite <- flushed_m.
Qed.

Lemma publish_live_m registry backend now w :
  publish_live registry (m_snap backend) now (m_world w) = m_world (publish_live registry backend now w).
Proof.
  unfold publish_live. cbn [m_world thread shared m_shared echo].
  change (sample (m_echo (echo (shared w)))) with (sample (echo (shared w))).
  change (next_live_poll (m_thread (thread w))) with (next_live_poll (thread w)).
  change (published_live (m_thread (thread w))) with (published_live (thread w)).
  destruct (_ || _); [|done]. cbn zeta.
  change (registry_stamp ((m_thread (thread w)) <| next_live_poll := now + LIVE_POLL_INTERVAL |>))
    with (registry_stamp (thread w)).
  change (registry_stamp ((thread w) <| next_live_poll := now + LIVE_POLL_INTERVAL |>))
    with (registry_stamp (thread w)).
  destruct (_ ==? Some (Registry.snapshot_sequence registry));
    lazymatch goal with |- (if ?c then _ else _) = m_world (if ?c' then _ else _) =>
      change c with c'; destruct c' end; try done; by rewrite <- flushed_m.
Qed.

Lemma conclude_m w : conclude (m_world w) = m_world (conclude w).
Proof. unfold conclude. cbn. destruct (finished _ _); [|done]. by case_match. Qed.

Lemma diagnostics_m registry backend now w :
  diagnostics registry (m_snap backend) now (m_world w) = m_world (diagnostics registry backend now w).
Proof.
  unfold diagnostics. cbn zeta.
  change (may_derive (thread (m_world w))) with (may_derive (thread w)).
  change (has_registry (thread (m_world w))) with (has_registry (thread w)).
  destruct (_ && _); [|apply conclude_m]. by rewrite publish_reading_m, publish_live_m, conclude_m.
Qed.

Lemma woken_m k w : woken k (m_world w) = m_world (woken k w).
Proof.
  unfold woken. destruct k; try done; cbn zeta.
  - change (sample (echo (shared ((m_world w) <| thread := ?b |>)))) with (sample (echo (shared w))).
    change (sample (echo (shared (w <| thread := ?b |>)))) with (sample (echo (shared w))).
    by destruct (project_event _ _).
  - set (b := (thread w) <| pc := AtTop |> <| session_diagnostics_closed := true |>).
    transitivity (m_world (w <| thread := if has_registry b
      then reconcile_sessions fresh (failed_session_state state) b else b |>)); [|done].
    pose proof (reconcile_m fresh (failed_session_state state) b) as H.
    change (has_registry _) with (has_registry b) at 1.
    destruct (has_registry b); [|done].
    unfold m_world. cbn [thread shared shell upd]. f_equal. exact H.
Qed.

Lemma step_m s w : step (m_world w) (m_step s) = m_world (step w s).
Proof.
  destruct s; cbn [step m_step]; try done.
  - cbn [m_world shared]. rewrite try_send_m. by destruct (try_send _ _).
  - cbn [m_world thread]. change (pc (m_thread (thread w))) with (m_pc (pc (thread w))).
    destruct (pc (thread w)); try done. apply top_m.
  - cbn [m_world thread]. change (pc (m_thread (thread w))) with (m_pc (pc (thread w))).
    destruct (pc (thread w)) as [|snapshot| | |]; try done. cbn [m_pc]. apply receipts_m.
  - cbn [m_world thread]. change (pc (m_thread (thread w))) with (m_pc (pc (thread w))).
    destruct (pc (thread w)); try done. apply diagnostics_m.
  - cbn [m_world thread]. change (pc (m_thread (thread w))) with (m_pc (pc (thread w))).
    destruct (pc (thread w)); try done. cbn [m_pc].
    change (ready _ k) with (ready w k) at 1. destruct (ready w k); [|done]. apply woken_m.
Qed.

Lemma run_m steps w : run (m_world w) (m_step <$> steps) = m_world (run w steps).
Proof.
  revert w. induction steps as [|s steps IH]; intros w; [done|].
  change (run (m_world w) (m_step <$> s :: steps)) with (run (step (m_world w) (m_step s)) (m_step <$> steps)).
  rewrite step_m. apply IH.
Qed.

End Rename.

(** ** Keys are stable *)

(** The [i]th entry has the [i]th key. *)
Definition table_ok (t : EndpointTable) : Prop :=
  et_next t = Z.of_nat (length (et_known t)) mod 2 ^ 64 /\
  forall i e, et_known t !! i = Some e -> ee_key e = Z.of_nat i mod 2 ^ 64.

(** Entries keep their key and their identifier. *)
Definition grows (t t' : EndpointTable) : Prop :=
  forall i e, et_known t !! i = Some e ->
    exists e', et_known t' !! i = Some e' /\ ee_key e' = ee_key e /\ ee_id e' = ee_id e.

#[global] Instance grows_preorder : PreOrder grows.
Proof.
  split.
  - intros t i e H. eauto.
  - intros t t' t'' H1 H2 i e H. destruct (H1 i e H) as (e1 & He1 & Hk & Hi).
    destruct (H2 i e1 He1) as (e2 & ? & ? & ?). exists e2. split_and!; congruence.
Qed.

Definition stands_for (t : EndpointTable) (key : AudioEndpointKey) (id : text) : Prop :=
  exists i e, et_known t !! i = Some e /\ ee_key e = key /\ ee_id e = id.

Lemma stands_for_grows t t' key id : grows t t' -> stands_for t key id -> stands_for t' key id.
Proof.
  intros Hg (i & e & He & <- & <-). destruct (Hg i e He) as (e' & ? & ? & ?). by exists i, e'.
Qed.

Lemma rename_spec id name known known' key :
  rename_entry id name known = Some (known', key) ->
  length known' = length known /\
  (forall i e, known !! i = Some e ->
     exists e', known' !! i = Some e' /\ ee_key e' = ee_key e /\ ee_id e' = ee_id e) /\
  exists i e, known' !! i = Some e /\ ee_key e = key /\ ee_id e = id.
Proof.
  revert known' key. induction known as [|x known IH]; intros known' key; [done|]. cbn [rename_entry].
  case_bool_decide as E.
  - intros [= <- <-]. split; [done|]. split; [|by eexists 0%nat, _].
    intros [|i] e; cbn; [intros [= <-]|]; eauto.
  - destruct (rename_entry id name known) as [[known1 key1]|]; [|done]. intros [= <- <-].
    destruct (IH _ _ eq_refl) as (Hl & Hs & i & e & Hi). split; [cbn; by rewrite Hl|]. split.
    + intros [|j] e'; cbn; [intros [= <-]; eauto|apply Hs].
    + by exists (S i), e.
Qed.

Lemma key_for_spec t endpoint :
  table_ok t ->
  let '(t', key) := key_for t endpoint in
  table_ok t' /\ grows t t' /\ stands_for t' key (Backend.ep_id endpoint).
Proof.
  intros [Hn Hk]. unfold key_for.
  destruct (rename_entry _ _ _) as [[known key]|] eqn:Er.
  - destruct (rename_spec _ _ _ _ _ Er) as (Hl & Hs & Hf). split; [split; cbn|by split].
    + by rewrite Hl.
    + intros i e He. destruct (lookup_lt_is_Some_2 (et_known t) i) as [e0 He0].
      { rewrite <- Hl. by eapply lookup_lt_Some. }
      destruct (Hs i e0 He0) as (e' & He' & Hkey & _). rewrite He in He'. injection He' as <-.
      rewrite Hkey. by apply Hk.
  - split; [split; cbn|split].
    + rewrite length_app, Hn. unfold u64_succ, wrap. cbn [length]. rewrite Zplus_mod_idemp_l. f_equal. lia.
    + intros i e. rewrite lookup_app_Some. intros [H|[Hi H]]; [by apply Hk|].
      apply list_lookup_singleton_Some in H as [Hz <-]. cbn. rewrite Hn. do 2 f_equal. lia.
    + intros i e He. exists e. split; [|done]. cbn. by apply lookup_app_l_Some.
    + eexists (length (et_known t)), _. cbn. split; [by apply lookup_app_Some; right; rewrite Nat.sub_diag|done].
Qed.

Lemma offer_spec t endpoints :
  table_ok t ->
  let '(t', choices) := offer_endpoints t endpoints in
  table_ok t' /\ grows t t' /\
  Forall2 (fun endpoint choice => ec_name choice = show (Backend.ep_name endpoint) /\
             stands_for t' (ec_key choice) (Backend.ep_id endpoint)) endpoints choices.
Proof.
  revert t. induction endpoints as [|endpoint endpoints IH]; intros t Hok; cbn [offer_endpoints]; [by split|].
  pose proof (key_for_spec t endpoint Hok) as Hk. destruct (key_for t endpoint) as [t1 key].
  destruct Hk as (Hok1 & Hg1 & Hs1). specialize (IH t1 Hok1).
  destruct (offer_endpoints t1 endpoints) as [t2 choices]. destruct IH as (Hok2 & Hg2 & Hall).
  split; [done|]. split; [by etrans|]. constructor; [|done]. split; [done|].
  by eapply stands_for_grows.
Qed.

Lemma audio_echo_spec source t :
  table_ok t ->
  let '(t', reading) := audio_echo source t in
  table_ok t' /\ grows t t' /\
  Forall2 (fun endpoint choice => ec_name choice = show (Backend.ep_name endpoint) /\
             stands_for t' (ec_key choice) (Backend.ep_id endpoint))
    (default [] (Backend.au_active_endpoints source)) (as_endpoints reading).
Proof.
  intros Hok. unfold audio_echo.
  pose proof (offer_spec t (default [] (Backend.au_active_endpoints source)) Hok) as Ho.
  destruct (offer_endpoints _ _) as [t1 offers]. destruct Ho as (Hok1 & Hg1 & Hall).
  destruct (Backend.au_captured_endpoint source) as [e|]; [|by split_and!].
  pose proof (key_for_spec t1 e Hok1) as Hk. destruct (key_for t1 e) as [t2 key].
  destruct Hk as (Hok2 & Hg2 & _). split; [done|]. split; [by etrans|]. cbn.
  eapply Forall2_impl; [exact Hall|]. intros x y [? ?]. split; [done|]. by eapply stands_for_grows.
Qed.

(** A key in range is found again. *)
Lemma stands_for_resolves t key id :
  table_ok t -> Z.of_nat (length (et_known t)) <= 2 ^ 64 -> stands_for t key id ->
  exists name, table_preference t key = Some (Explicit id name).
Proof.
  intros [_ Hk] Hl (i & e & He & <- & <-). unfold table_preference.
  assert (forall known k, (forall j x, known !! j = Some x -> ee_key x = k + Z.of_nat j) ->
            forall i e, known !! i = Some e ->
            List.find (fun x => ee_key x =? ee_key e) known = Some e) as Hf.
  { clear. induction known as [|x known IH]; intros k Hk i e He; [done|].
    cbn [List.find]. destruct i as [|i]; [injection He as ->; by rewrite Z.eqb_refl|].
    pose proof (Hk 0%nat x eq_refl) as H0. pose proof (Hk (S i) e He) as H1.
    destruct (Z.eqb_spec (ee_key x) (ee_key e)); [lia|].
    apply (IH (k + 1)) with i; [|done]. intros j y Hy. rewrite (Hk (S j) y Hy). lia. }
  rewrite (Hf _ 0) with (i := i); [by eexists| |done].
  intros j x Hx. rewrite (Hk j x Hx). apply lookup_lt_Some in Hx. rewrite Z.mod_small; lia.
Qed.

(** ** Along a run *)

Definition tables (w : World) := (directory (shared w), pj_endpoints (projection (thread w))).

Lemma send_directory x command : directory (fst (try_send x command)) = directory x.
Proof.
  destruct command; cbn [try_send]; unfold send_group, send_tone, send;
    repeat case_match; simplify_eq; done.
Qed.

Lemma flushed_tables w : tables (flushed w) = tables w.
Proof. unfold tables. by destruct (flushed_frame w) as ((-> & -> & _) & _). Qed.

Lemma receipts_tables answers s w : tables (receipts answers s w) = tables w.
Proof.
  unfold tables. f_equal.
  - unfold receipts. destruct (group_events _ _ _ _) as [e1 ?]. destruct (volume_events _ _ _ _) as [e2 ?].
    destruct (listening_events _ _ _ _) as [e3 ?].
    match goal with |- context [flushed ?w'] =>
      destruct (flushed_frame w') as ((_ & F & _) & _) end. by rewrite F.
  - by destruct (receipts_extends answers s w) as (?&?&?&?&[-> _]&_).
Qed.

Lemma diagnostics_tables registry backend now w : tables (diagnostics registry backend now w) = tables w.
Proof.
  unfold diagnostics.
  assert (forall w, tables (conclude w) = tables w) as Hc.
  { clear. intros w. unfold conclude. cbn zeta. by repeat case_match. }
  rewrite Hc. destruct (_ && _); [|done].
  transitivity (tables (publish_reading (diagnostics_reading registry) w)).
  - generalize (publish_reading (diagnostics_reading registry) w). clear. intros w.
    unfold publish_live. destruct (_ || _); [|done]. cbn zeta.
    destruct (_ ==? Some (Registry.snapshot_sequence registry)); case_bool_decide; try done;
      by rewrite flushed_tables.
  - unfold publish_reading. case_bool_decide; [done|]. by rewrite flushed_tables.
Qed.

Lemma woken_tables k w : tables (woken k w) = tables w.
Proof.
  unfold tables. f_equal; [|by destruct (woken_extends k w) as (?&[-> _]&_)].
  unfold woken. cbn zeta. destruct k; try done. by case_match.
Qed.

(** The parts before the audio source leave the endpoints alone. *)
Definition keeps (part : Pass -> Pass) : Prop :=
  forall x, pj_endpoints (fst (part x)) = pj_endpoints (fst x).
Ltac part_keeps := intros [next events]; cbn; by repeat case_match.

Lemma before_audio_keeps s seen :
  keeps (project_volume s) /\ keeps (project_desired s) /\ keeps (project_groups s) /\
  keeps (project_discovery s seen) /\ keeps (project_session s seen) /\ keeps (project_mute s) /\
  keeps (project_levels s) /\ keeps (project_latency s).
Proof.
  unfold project_volume, project_desired, project_groups, project_discovery, project_session,
    project_mute, project_levels, project_latency. split_and!; part_keeps.
Qed.

Lemma project_endpoints p s seen :
  pj_endpoints (fst (project p s seen)) = fst (audio_echo (Backend.sn_audio_source s) (pj_endpoints p)).
Proof.
  destruct (before_audio_keeps s seen) as (K1&K2&K3&K4&K5&K6&K7&K8). unfold project.
  assert (forall x, pj_endpoints (fst (project_audio s x))
                    = fst (audio_echo (Backend.sn_audio_source s) (pj_endpoints (fst x)))) as Ha.
  { intros [next events]. unfold project_audio. cbn [fst]. destruct (audio_echo _ _) as [t a]. by case_match. }
  by rewrite Ha, K8, K7, K6, K5, K4, K3, K2, K1.
Qed.

(** Only a pass touches the tables: it offers the endpoints of its snapshot and
    publishes the table for the port. *)
Lemma top_tables snapshot state fresh w :
  let t := pj_endpoints (projection (thread w)) in
  let w' := top snapshot state fresh w in
  tables w' = tables w /\ pc (thread w') = AtDiagnostics \/
  tables w' = (fst (audio_echo (Backend.sn_audio_source snapshot) t),
               fst (audio_echo (Backend.sn_audio_source snapshot) t)).
Proof.
  cbn zeta. unfold top. rewrite <- (flushed_tables w).
  assert (pj_endpoints (projection (thread w)) = pj_endpoints (projection (thread (flushed w)))) as ->.
  { by destruct (flushed_frame w) as ((-> & _) & _). }
  generalize (flushed w). clear w. intros w.
  set (b := if session_diagnostics_closed (thread w) then thread w
            else if has_registry (thread w) then reconcile_sessions fresh state (thread w)
                 else thread w).
  assert (projection b = projection (thread w)) as B1.
  { unfold b. destruct (session_diagnostics_closed _); [done|]. destruct (has_registry _); [|done].
    by destruct (reconcile_sessions_frame fresh state (thread w)) as (_&_&_&?&_). }
  clearbody b. rewrite <- B1. destruct (may_derive b); [|left; unfold tables; cbn; by rewrite B1].
  right. assert (pj_endpoints (fst (project (projection b) snapshot (sample (echo (shared w)))))
                 = fst (audio_echo (Backend.sn_audio_source snapshot) (pj_endpoints (projection b)))) as H.
  { apply project_endpoints. }
  destruct (project _ _ _) as [next events]. cbn in H. unfold tables. cbn. by rewrite H.
Qed.

(** The port's table is the projection's. *)
Definition tables_ok (w : World) : Prop :=
  directory (shared w) = pj_endpoints (projection (thread w)) /\ table_ok (directory (shared w)).

Lemma step_tables w s :
  tables_ok w -> tables_ok (step w s) /\ grows (directory (shared w)) (directory (shared (step w s))).
Proof.
  intros [Hd Hok].
  assert (forall w', tables w' = tables w ->
            tables_ok w' /\ grows (directory (shared w)) (directory (shared w'))) as Hsame.
  { intros w' Ht. unfold tables in Ht. injection Ht as H1 H2. unfold tables_ok. rewrite H1, H2. done. }
  destruct s; cbn [step]; try (apply Hsame; done).
  - apply Hsame. unfold tables. cbn. by rewrite send_directory.
  - destruct (pc _); try (apply Hsame; done).
    destruct (top_tables snapshot state fresh w) as [[H _]|H]; cbn zeta in H; [by apply Hsame|].
    pose proof (audio_echo_spec (Backend.sn_audio_source snapshot) _ Hok) as Ha. rewrite Hd in Ha.
    destruct (audio_echo _ _) as [t' reading]. destruct Ha as (Hok' & Hg & _).
    unfold tables in H. injection H as H1 H2. unfold tables_ok. rewrite H1, H2, Hd. done.
  - destruct (pc _); try (apply Hsame; done). apply Hsame, receipts_tables.
  - destruct (pc _); try (apply Hsame; done). apply Hsame, diagnostics_tables.
  - destruct (pc _); try (apply Hsame; done). destruct (ready w k); [|by apply Hsame].
    apply Hsame, woken_tables.
Qed.

Lemma run_tables steps w :
  tables_ok w -> tables_ok (run w steps) /\ grows (directory (shared w)) (directory (shared (run w steps))).
Proof.
  revert w. induction steps as [|s steps IH]; intros w Hw; [by split|].
  destruct (step_tables w s Hw) as [Hw' Hg]. destruct (IH _ Hw') as [Hr Hg'].
  split; [done|]. by etrans.
Qed.

Lemma start_tables has_registry now : tables_ok (start_world has_registry now).
Proof. by split. Qed.

(** C17: An endpoint key the shell is offered means that endpoint for ever.
    Whenever a pass offers the active endpoints of a snapshot, each choice
    carries its endpoint's name, and sending its key at any later time (with
    fewer than 2^64 endpoints seen) asks the backend for exactly that
    endpoint's identifier. *)
Theorem endpoint_keys_stay_true has_registry now s1 snapshot state fresh s2 :
  let w0 := run (start_world has_registry now) s1 in
  let w1 := step w0 (Top snapshot state fresh) in
  let w2 := run w1 s2 in
  pc (thread w0) = AtTop -> pc (thread w1) = AtReceipts snapshot ->
  Z.of_nat (length (et_known (directory (shared w2)))) <= 2 ^ 64 ->
  Forall2 (fun endpoint choice =>
      ec_name choice = show (Backend.ep_name endpoint) /\
      exists name, try_send (shared w2) (DevApplyAudioEndpoint (ReqEndpoint (ec_key choice)))
                   = send (shared w2) (Backend.SetAudioEndpoint (Explicit (Backend.ep_id endpoint) name)))
    (default [] (Backend.au_active_endpoints (Backend.sn_audio_source snapshot)))
    (as_endpoints (snd (audio_echo (Backend.sn_audio_source snapshot)
                          (pj_endpoints (projection (thread w0)))))).
Proof.
  intros w0 w1 w2 Hpc0 Hpc1 Hl.
  assert (tables_ok w0) as Hok0 by apply run_tables, start_tables.
  destruct (step_tables w0 (Top snapshot state fresh) Hok0) as [Hok1 _].
  destruct (run_tables s2 w1 Hok1) as [[_ Hok2] Hg].
  assert (tables w1 = (fst (audio_echo (Backend.sn_audio_source snapshot) (pj_endpoints (projection (thread w0)))),
                       fst (audio_echo (Backend.sn_audio_source snapshot) (pj_endpoints (projection (thread w0)))))) as Ht.
  { revert Hpc1. subst w1. cbn [step]. rewrite Hpc0. intros Hpc1.
    destruct (top_tables snapshot state fresh w0) as [[_ H]|H]; [congruence|done]. }
  destruct Hok0 as [Hd0 Hok0]. rewrite Hd0 in Hok0.
  pose proof (audio_echo_spec (Backend.sn_audio_source snapshot) _ Hok0) as Ha.
  destruct (audio_echo _ _) as [t1 reading]. destruct Ha as (_ & _ & Hall). cbn [fst snd] in *.
  injection Ht as Ht1 _. rewrite Ht1 in Hg.
  eapply Forall2_impl; [exact Hall|]. intros endpoint choice [Hn Hs]. split; [done|].
  destruct (stands_for_resolves (directory (shared w2)) (ec_key choice) (Backend.ep_id endpoint))
    as [name Hp]; [done|done|by eapply stands_for_grows|].
  exists name. cbn [try_send preference_of]. by rewrite Hp.
Qed.

(** C16: Nothing the shell is told depends on the raw endpoint identifiers:
    renaming them injectively in everything the backend publishes leaves every
    event the bridge produces, and everything the shell's queue has accepted,
    as it was. *)
Theorem raw_endpoint_ids_stay_hidden (f : text -> text) (Hinj : Inj (=) (=) f) has_registry now steps :
  let w := run (start_world has_registry now) steps in
  let w' := run (start_world has_registry now) (m_step f <$> steps) in
  produced (thread w') = produced (thread w) /\ sq_accepted (shell w') = sq_accepted (shell w).
Proof.
  cbn zeta. pose proof (run_m f steps (start_world has_registry now)) as H.
  change (m_world f (start_world has_registry now)) with (start_world has_registry now) in H.
  rewrite H. done.
Qed.

(** ** Two endpoints *)

Definition two_endpoints : Backend.DeviceSnapshot :=
  Backend.default_snapshot <| Backend.sn_audio_source :=
    {| Backend.au_active_endpoints :=
         Some [{| Backend.ep_id := [1]; Backend.ep_name := [65] |};
               {| Backend.ep_id := [2]; Backend.ep_name := [66] |}];
       Backend.au_refresh_failed := false; Backend.au_preference := Explicit [2] [66];
       Backend.au_captured_endpoint := None; Backend.au_state := Backend.Capturing;
       Backend.au_windows_input_peak_permille := None; Backend.au_pcm_frames_dropped_total := 0 |} |>.
Definition no_session : Supervisor.SessionDiagnosticsState (Source:=Z) :=
  Supervisor.DiagInactive 0 Supervisor.ReasonFailed.

Lemma endpoint_keys_stay_true_witness :
  Forall2 (fun endpoint choice =>
      ec_name choice = show (Backend.ep_name endpoint) /\
      exists name, try_send (shared (step (start_world false 0) (Top two_endpoints no_session 0)))
                     (DevApplyAudioEndpoint (ReqEndpoint (ec_key choice)))
                   = send (shared (step (start_world false 0) (Top two_endpoints no_session 0)))
                       (Backend.SetAudioEndpoint (Explicit (Backend.ep_id endpoint) name)))
    (default [] (Backend.au_active_endpoints (Backend.sn_audio_source two_endpoints)))
    (as_endpoints (snd (audio_echo (Backend.sn_audio_source two_endpoints)
                          (pj_endpoints (projection (thread (start_world false 0))))))).
Proof.
  exact (endpoint_keys_stay_true false 0 [] two_endpoints no_session 0 [] eq_refl eq_refl
           ltac:(vm_compute; discriminate)).
Defined.

Lemma raw_endpoint_ids_stay_hidden_witness :
  produced (thread (run (start_world false 0) (m_step (cons 7) <$> [Top two_endpoints no_session 0])))
  = produced (thread (run (start_world false 0) [Top two_endpoints no_session 0])) /\
  sq_accepted (shell (run (start_world false 0) (m_step (cons 7) <$> [Top two_endpoints no_session 0])))
  = sq_accepted (shell (run (start_world false 0) [Top two_endpoints no_session 0])).
Proof.
  apply (raw_endpoint_ids_stay_hidden (cons 7)). intros x y H. by injection H.
Defined.

End BridgeKeys.
