(* ===== verification/PairSetup.v ===== *)
(** * SRP-6a and pair-setup ([srp.rs], [pair_setup.rs])

    [Srp]: the password exchange; [PairSetup]: the M1-M6 machine and the
    accessory of its tests. *)

From Stdlib Require Import Zpow_facts Znumtheory.
From Stdlib Require Zmod.ZmodInv.
From S2P Require Import Prelude Tlv Wire Text ControlCipher PairVerify.

(** ** SRP-6a ([airplay-crypto/src/srp.rs])

    The client half of the password exchange of pair-setup.  SHA-512 is a
    third-party package: the class [Sha512] says what the code relies on.  A
    [BigUint] is a non-negative [Z]; the random private key is an input.

    The accessory of the exchange is the one the tests of
    [airplay-pairing/src/pair_setup.rs] run against ([MockSrpServer]). *)

Module Srp.

Class Sha512 := {
  sha512 : list Z -> list Z;
  sha512_length m : length (sha512 m) = 64%nat;
  sha512_bytes m : bytes_ok (sha512 m);
}.

Definition N_BYTES : nat := 384.

Definition RFC5054_N_3072 : Z :=
  0xFFFFFFFFFFFFFFFFC90FDAA22168C234C4C6628B80DC1CD129024E088A67CC74020BBEA63B139B22514A08798E3404DDEF9519B3CD3A431B302B0A6DF25F14374FE1356D6D51C245E485B576625E7EC6F44C42E9A637ED6B0BFF5CB6F406B7EDEE386BFB5A899FA5AE9F24117C4B1FE649286651ECE45B3DC2007CB8A163BF0598DA48361C55D39A69163FA8FD24CF5F83655D23DCA3AD961C62F356208552BB9ED529077096966D670C354E4ABC9804F1746C08CA18217C32905E462E36CE3BE39E772C180E86039B2783A2EC07A28FB5C55DF06F4C52C9DE2BCBF6955817183995497CEA956AE515D2261898FA051015728E5A8AAAC42DAD33170D04507A33A85521ABDF1CBA64ECFB850458DBEF0A8AEA71575D060C7DB3970F85A6E1E4C7ABF5AE8CDB0933D71E8C94E04A25619DCEE3D2261AD2EE6BF12FFA06D98A0864D87602733EC86A64521F2B18177B200CBBE117577A615D6C770988C0BAD946E208E24FA074E5AB3143DB5BFCE0FD108E4B82D120A93AD2CAFFFFFFFFFFFFFFFF.

Record SrpParams := { n : Z; g : Z }.
Definition default_params : SrpParams := {| n := RFC5054_N_3072; g := 5 |}.

Record SrpClient := {
  params : SrpParams;
  identity : list Z;
  password : list Z;
  private_key : list Z;
  public_key_value : Z;
}.
Record SrpChallenge := { salt : list Z; server_public_key : list Z }.
Record SrpProof := {
  client_proof : list Z;
  shared_secret : list Z;
  expected_server_proof : list Z;
}.

Inductive SrpError := InvalidServerKey | InvalidScrambler.

(** [BigUint::to_bytes_be]: no leading zeros, and one byte for zero. *)
Definition byte_length (v : Z) : nat := if v =? 0 then 1 else S (Z.to_nat (Z.log2 v / 8)).
Definition to_bytes_be (v : Z) : list Z := to_be_bytes (byte_length v) v.
(** [BigUint::modpow] *)
Definition modpow (b e m : Z) : Z := Zpow_mod b e m.

Definition pad_to_n (value : Z) : list Z :=
  let bytes := to_bytes_be value in
  if (N_BYTES <=? length bytes)%nat then drop (length bytes - N_BYTES) bytes
  else replicate (N_BYTES - length bytes) 0 ++ bytes.

(** [SrpClient::new], from the random private key. *)
Definition new_client (p : SrpParams) (identity password : list Z) (a : Z) : SrpClient :=
  {| params := p; identity := identity; password := password; private_key := to_bytes_be a;
     public_key_value := modpow (g p) a (n p) |}.

Definition public_key (c : SrpClient) : list Z := pad_to_n (public_key_value c).

Section Hash.
Context `{Sha512}.

Definition compute_k (p : SrpParams) : Z := from_be_bytes (sha512 (pad_to_n (n p) ++ pad_to_n (g p))).
Definition compute_u (a b : Z) : Z := from_be_bytes (sha512 (pad_to_n a ++ pad_to_n b)).
Definition compute_x (salt identity password : list Z) : Z :=
  from_be_bytes (sha512 (salt ++ sha512 (identity ++ lit ":" ++ password))).

Definition compute_m1 (p : SrpParams) (identity salt : list Z) (a b : Z) (k : list Z) : list Z :=
  let h_n := sha512 (pad_to_n (n p)) in
  let h_g := sha512 (to_bytes_be (g p)) in
  sha512 (zip_with Z.lxor h_n h_g ++ sha512 identity ++ salt ++ pad_to_n a ++ pad_to_n b ++ k).

Definition process_challenge (c : SrpClient) (challenge : SrpChallenge) : Result SrpProof SrpError :=
  let p := params c in
  let b := from_be_bytes (server_public_key challenge) in
  if b mod n p =? 0 then Err InvalidServerKey
  else
    let a := from_be_bytes (private_key c) in
    let u := compute_u (public_key_value c) b in
    if u =? 0 then Err InvalidScrambler
    else
      let x := compute_x (salt challenge) (identity c) (password c) in
      let k := compute_k p in
      let g_x := modpow (g p) x (n p) in
      let k_gx := (k * g_x) mod n p in
      let base := if k_gx <=? b then (b - k_gx) mod n p else (b + n p - k_gx) mod n p in
      let exponent := (a + u * x) mod (n p - 1) in
      let s := modpow base exponent (n p) in
      let shared_secret := sha512 (pad_to_n s) in
      let client_proof :=
        compute_m1 p (identity c) (salt challenge) (public_key_value c) b shared_secret in
      Ok {| client_proof := client_proof; shared_secret := shared_secret;
            expected_server_proof :=
              sha512 (pad_to_n (public_key_value c) ++ client_proof ++ shared_secret) |}.

(** [ct_eq] *)
Definition verify_server_proof (proof expected : list Z) : bool := bool_decide (proof = expected).

(** ** The accessory *)

Record SrpServer := {
  s_params : SrpParams;
  s_salt : list Z;
  s_verifier : Z;
  s_private_key : Z;
  s_public_key : Z;
}.

Definition new_server (p : SrpParams) (identity password salt : list Z) (b : Z) : SrpServer :=
  let verifier := modpow (g p) (compute_x salt identity password) (n p) in
  let k_v := (compute_k p * verifier) mod n p in
  {| s_params := p; s_salt := salt; s_verifier := verifier; s_private_key := b;
     s_public_key := (k_v + modpow (g p) b (n p)) mod n p |}.

Definition public_key_bytes (s : SrpServer) : list Z := pad_to_n (s_public_key s).

(** The secret, the client proof the accessory expects, and its own proof. *)
Definition compute_session (s : SrpServer) (client_public : list Z) : list Z * list Z * list Z :=
  let p := s_params s in
  let a := from_be_bytes client_public in
  let u := compute_u a (s_public_key s) in
  let v_u := modpow (s_verifier s) u (n p) in
  let base := (a * v_u) mod n p in
  let secret := sha512 (pad_to_n (modpow base (s_private_key s) (n p))) in
  let m1 := compute_m1 p (lit "Pair-Setup") (s_salt s) a (s_public_key s) secret in
  (secret, m1, sha512 (pad_to_n a ++ m1 ++ secret)).

(** ** Numbers and bytes *)

Lemma byte_length_fits v : 0 <= v -> in_width (8 * Z.of_nat (byte_length v)) v.
Proof.
  intros Hv. unfold byte_length, in_width. destruct (Z.eqb_spec v 0) as [->|Hz]; [lia|].
  split; [done|]. rewrite Nat2Z.inj_succ, Z2Nat.id by (apply Z.div_pos; [apply Z.log2_nonneg|lia]).
  destruct (Z.log2_spec v ltac:(lia)) as [_ Hl].
  eapply Z.lt_le_trans; [exact Hl|]. apply Z.pow_le_mono_r; [lia|].
  pose proof (Z.div_mod (Z.log2 v) 8 ltac:(lia)). pose proof (Z.mod_pos_bound (Z.log2 v) 8 ltac:(lia)). lia.
Qed.

Lemma from_to_bytes_be v : 0 <= v -> from_be_bytes (to_bytes_be v) = v.
Proof. intros Hv. apply from_to_be_bytes, byte_length_fits, Hv. Qed.

Lemma from_be_zeros k bs : from_be_bytes (replicate k 0 ++ bs) = from_be_bytes bs.
Proof.
  rewrite from_be_bytes_app. unfold from_be_bytes at 2. f_equal.
  induction k as [|k IH]; [done|]. exact IH.
Qed.

Lemma from_be_nonneg bs : bytes_ok bs -> 0 <= from_be_bytes bs.
Proof.
  unfold from_be_bytes. assert (forall acc, 0 <= acc -> bytes_ok bs ->
    0 <= fold_left (fun acc b => Z.lor (Z.shiftl acc 8) b) bs acc) as Hf; [|by apply Hf].
  induction bs as [|b bs IH]; intros acc Ha Hb; [done|]. inversion Hb; subst. cbn. apply IH; [|done].
  apply Z.lor_nonneg. split; [by apply Z.shiftl_nonneg|]. unfold is_byte, in_width in *. lia.
Qed.

(** A number below [256^384] survives padding. *)
Lemma byte_length_bound v k : (0 < k)%nat -> 0 <= v < 2 ^ (8 * Z.of_nat k) -> (byte_length v <= k)%nat.
Proof.
  intros Hk [H0 Hv]. unfold byte_length. destruct (Z.eqb_spec v 0); [lia|].
  apply Z.log2_lt_pow2 in Hv; [|lia].
  assert (Z.log2 v / 8 < Z.of_nat k) by (apply Z.div_lt_upper_bound; lia).
  pose proof (Z.log2_nonneg v). assert (0 <= Z.log2 v / 8) by (apply Z.div_pos; lia). lia.
Qed.

Lemma pad_to_n_spec v :
  0 <= v < 2 ^ 3072 -> length (pad_to_n v) = N_BYTES /\ from_be_bytes (pad_to_n v) = v.
Proof.
  intros Hv. unfold pad_to_n. assert (length (to_bytes_be v) = byte_length v) as Hl by apply length_to_be_bytes.
  pose proof (byte_length_bound v N_BYTES ltac:(unfold N_BYTES; lia) ltac:(exact Hv)) as Hb.
  rewrite Hl. destruct (Nat.leb_spec N_BYTES (byte_length v)).
  - replace (byte_length v - N_BYTES)%nat with 0%nat by lia. rewrite drop_0.
    split; [lia|]. apply from_to_bytes_be. lia.
  - rewrite length_app, length_replicate, Hl, from_be_zeros. split; [lia|]. apply from_to_bytes_be. lia.
Qed.

(** ** Both sides agree *)

Section Agree.
Context (p : SrpParams) (Hn : Znumtheory.prime (n p)) (Hg : g p mod n p <> 0)
  (Hsize : n p < 2 ^ 3072).

Lemma n_pos : 1 < n p.
Proof. by destruct Hn. Qed.

Lemma modpow_mod b e : modpow b e (n p) = b ^ e mod n p.
Proof. apply Zpow_mod_correct. pose proof n_pos. lia. Qed.

(** The exponent may be reduced modulo [n - 1]. *)
Lemma pow_reduce b e :
  b mod n p <> 0 -> 0 <= e -> b ^ (e mod (n p - 1)) mod n p = b ^ e mod n p.
Proof.
  intros Hb He. pose proof n_pos as Hp.
  set (m := n p - 1). assert (0 < m) as Hm by (subst m; lia).
  assert (0 <= e / m) as Hq by (apply Z.div_pos; lia).
  pose proof (Z.mod_pos_bound e m Hm) as Hr.
  assert (b ^ e = (b ^ m) ^ (e / m) * b ^ (e mod m)) as ->.
  { rewrite <- Z.pow_mul_r, <- Z.pow_add_r by lia. f_equal. rewrite <- Z.div_mod by lia. done. }
  rewrite Z.mul_mod by lia. rewrite (Zpower_mod (b ^ m)) by lia.
  unfold m at 2. rewrite ZmodInv.Z.fermat_nz; [|by apply prime_alt|done].
  rewrite Z.pow_1_l by lia. rewrite (Z.mod_small 1) by lia. by rewrite Z.mul_1_l, Z.mod_mod by lia.
Qed.

Lemma pow_nonzero e : 0 <= e -> g p ^ e mod n p <> 0.
Proof.
  pose proof n_pos as Hp. revert e. apply natlike_ind.
  - cbn. rewrite Z.mod_1_l; lia.
  - intros e He IH Hz. rewrite Z.pow_succ_r in Hz by done.
    apply Z.mod_divide, prime_mult in Hz; [|done|lia].
    destruct Hz as [Hz|Hz]; apply Z.mod_divide in Hz; auto; lia.
Qed.

(** [(kv + g^b) - k g^x], as the client computes it, is [g^b]. *)
Lemma client_base kv b :
  0 <= b -> 0 <= kv < n p ->
  let pub := (kv + g p ^ b mod n p) mod n p in
  (if kv <=? pub then (pub - kv) mod n p else (pub + n p - kv) mod n p) = g p ^ b mod n p.
Proof.
  intros Hb Hkv pub. pose proof n_pos as Hp.
  assert ((pub - kv) mod n p = g p ^ b mod n p) as Hd.
  { unfold pub. rewrite Zminus_mod_idemp_l.
    replace (kv + g p ^ b mod n p - kv) with (g p ^ b mod n p) by lia. by rewrite Z.mod_mod by lia. }
  destruct (kv <=? pub); [done|].
  replace (pub + n p - kv) with (pub - kv + 1 * n p) by lia. by rewrite Z_mod_plus_full.
Qed.

Lemma mod_in_width v : in_width 3072 (v mod n p).
Proof. pose proof n_pos. pose proof (Z.mod_pos_bound v (n p) ltac:(lia)). unfold in_width. lia. Qed.

(** Both exponentiations give the same number. *)
Lemma same_power a b u x :
  0 <= a -> 0 <= b -> 0 <= u -> 0 <= x ->
  modpow (g p ^ b mod n p) ((a + u * x) mod (n p - 1)) (n p)
  = modpow ((g p ^ a mod n p) * modpow (g p ^ x mod n p) u (n p) mod n p) b (n p).
Proof.
  intros Ha Hb Hu Hx. pose proof n_pos as Hp. rewrite !modpow_mod.
  rewrite pow_reduce; [|rewrite Z.mod_mod by lia; by apply pow_nonzero|nia].
  rewrite <- Zpower_mod by lia. rewrite <- (Zpower_mod (_ * _)) by lia.
  rewrite (Zpower_mod (g p ^ a mod n p * _)) by lia.
  rewrite Zmult_mod_idemp_l, Zmult_mod_idemp_r, Z.mul_mod, <- (Zpower_mod (g p ^ x)), <- Z.mul_mod by lia.
  rewrite <- Zpower_mod by lia. rewrite <- !Z.pow_mul_r, <- Z.pow_add_r, <- Z.pow_mul_r by nia.
  f_equal. f_equal. lia.
Qed.

Lemma hash_number m : 0 <= from_be_bytes (sha512 m).
Proof. apply from_be_nonneg, sha512_bytes. Qed.

(** With the same password both sides hold the same secret, the accessory
    expects the client's proof and the client the accessory's. *)
Lemma srp_agree password salt a b :
  let c := new_client p (lit "Pair-Setup") password a in
  let s := new_server p (lit "Pair-Setup") password salt b in
  0 <= a -> 0 <= b -> s_public_key s <> 0 ->
  compute_u (public_key_value c) (s_public_key s) <> 0 ->
  exists proof,
    process_challenge c {| salt := salt; server_public_key := public_key_bytes s |} = Ok proof /\
    compute_session s (public_key c)
    = (shared_secret proof, client_proof proof, expected_server_proof proof).
Proof.
  intros c s Ha Hb Hs Hu. pose proof n_pos as Hp.
  assert (in_width 3072 (s_public_key s)) as Ws by apply mod_in_width.
  assert (in_width 3072 (public_key_value c)) as Wc.
  { unfold c, new_client. cbn [public_key_value]. rewrite modpow_mod. apply mod_in_width. }
  unfold process_challenge, public_key_bytes. cbn [server_public_key Srp.salt].
  rewrite (proj2 (pad_to_n_spec _ Ws)).
  change (n (params c)) with (n p). change (g (params c)) with (g p).
  assert (0 <= s_public_key s < n p) as Hr by (apply Z.mod_pos_bound; lia).
  rewrite Z.mod_small by done.
  rewrite (proj2 (Z.eqb_neq _ _) Hs), (proj2 (Z.eqb_neq _ _) Hu).
  eexists. split; [reflexivity|]. cbn [shared_secret client_proof expected_server_proof].
  unfold compute_session, public_key. rewrite (proj2 (pad_to_n_spec _ Wc)).
  change (params c) with p. change (s_params s) with p.
  change (Srp.identity c) with (lit "Pair-Setup"). change (Srp.password c) with password.
  change (s_salt s) with salt.
  set (u := compute_u (public_key_value c) (s_public_key s)).
  set (x := compute_x salt (lit "Pair-Setup") password).
  assert (from_be_bytes (private_key c) = a) as -> by by apply from_to_bytes_be.
  assert (modpow ((public_key_value c * modpow (s_verifier s) u (n p)) mod n p) (s_private_key s) (n p)
          = modpow (if compute_k p * modpow (g p) x (n p) mod n p <=? s_public_key s
                    then (s_public_key s - compute_k p * modpow (g p) x (n p) mod n p) mod n p
                    else (s_public_key s + n p - compute_k p * modpow (g p) x (n p) mod n p) mod n p)
              ((a + u * x) mod (n p - 1)) (n p)) as ->; [|done].
  set (kv := compute_k p * modpow (g p) x (n p) mod n p).
  assert (s_public_key s = (kv + g p ^ b mod n p) mod n p) as ->.
  { unfold s, new_server. cbn [s_public_key]. fold x kv. by rewrite modpow_mod. }
  pose proof (client_base kv b Hb ltac:(apply Z.mod_pos_bound; lia)) as Hc. cbn zeta in Hc.
  rewrite Hc, same_power; try done; try apply hash_number.
  unfold s, c, new_server, new_client. cbn [s_verifier s_private_key public_key_value]. fold x.
  by rewrite !(modpow_mod (g p)).
Qed.
End Agree.
End Hash.
End Srp.

(** ** Pair-setup ([airplay-pairing/src/pair_setup.rs])

    The M1-M6 exchange that turns a PIN into a shared secret (SRP-6a) and
    exchanges long-term identities, its transient form that ends after M4, and
    the deprecated exchange over identity keys.  SRP is [Srp], the ciphers and
    curves are those of [ControlCipher] and [PairVerify]; random values are
    inputs.  Deriving 32 bytes with HKDF-SHA512 cannot fail. *)
Import ControlCipher PairVerify Srp.

Module PairSetup.

Inductive PairSetupState :=
| Initial | M1Sent | M2Received | M3Sent | M4Received | M5Sent | Complete | Failed.
#[export] Instance PairSetupState_eq_dec : EqDecision PairSetupState.
Proof. solve_decision. Defined.

Inductive Reason :=
| ParseFailed | ServerError | WrongState | MissingSalt | SaltLength (len : nat) | MissingPublicKey
| PublicKeyTooLong (len : nat) | NoSrpClient | ChallengeFailed (e : SrpError) | NoProof
| MissingProof | ProofMismatch | NoSessionKey | EncryptFailed (e : CryptoError)
| MissingEncryptedData | DecryptFailed (e : CryptoError) | InnerParseFailed | MissingIdentifier
| MissingServerKey | MissingSignature | ServerKeyLength | SignatureLength | SignatureRejected
| SecretFailed | NotAKey (len : nat).
Inductive SetupError := InvalidState | Protocol (reason : Reason).

Record PairSetup := {
  state : PairSetupState;
  pin : list Z;
  srp_client : option SrpClient;
  srp_proof : option SrpProof;
  session_key : option (list Z);
  transient_mode : bool;
  server_identifier : option (list Z);
  server_ltpk : option (list Z);
}.
#[export] Instance eta_PairSetup : Eta PairSetup := fun v =>
  {| state := state v; pin := pin v; srp_client := srp_client v; srp_proof := srp_proof v;
     session_key := session_key v; transient_mode := transient_mode v;
     server_identifier := server_identifier v; server_ltpk := server_ltpk v |}.

Definition PS_MSG05_NONCE : list Z := nonce_from_string (lit "PS-Msg05").
Definition PS_MSG06_NONCE : list Z := nonce_from_string (lit "PS-Msg06").

Definition fresh (pin : list Z) (transient : bool) : PairSetup :=
  {| state := Initial; pin := pin; srp_client := None; srp_proof := None; session_key := None;
     transient_mode := transient; server_identifier := None; server_ltpk := None |}.
Definition new_setup (pin : list Z) : PairSetup := fresh pin false.
Definition new_transient : PairSetup := fresh (lit "3939") true.
Definition new_transient_with_pin (pin : list Z) : PairSetup := fresh pin true.

Definition fail {A} (v : PairSetup) (e : SetupError) : PairSetup * Result A SetupError :=
  (v <| state := Failed |>, Err e).
Definition refuse {A} (v : PairSetup) (r : Reason) : PairSetup * Result A SetupError :=
  fail v (Protocol r).

Definition is_complete (v : PairSetup) : bool := bool_decide (state v = Complete).

Section Protocol.
(** The group; the program uses [default_params]. *)
Context (p : SrpParams) `{Sha512} `{Aead} `{Curves}.

Definition generate_m1_internal (v : PairSetup) (with_flags : bool) (a : Z)
  : PairSetup * Result (list Z) SetupError :=
  if negb (bool_decide (state v = Initial)) then fail v InvalidState
  else
    (v <| srp_client := Some (new_client p (lit "Pair-Setup") (pin v) a) |> <| state := M1Sent |>,
     Ok (Tlv.encode (if with_flags then Tlv.pair_setup_m1_with_flags else Tlv.pair_setup_m1))).
Definition generate_m1 (v : PairSetup) (a : Z) := generate_m1_internal v (transient_mode v) a.
Definition generate_m1_with_flags (v : PairSetup) (a : Z) := generate_m1_internal v true a.

(** The guards every answer passes: it parses, carries no error and has the
    expected state. *)
Definition open_answer {A} (v : PairSetup) (response : list Z) (expected : Z)
    (k : Tlv.Tlv8 -> PairSetup * Result A SetupError) : PairSetup * Result A SetupError :=
  match Tlv.parse response with
  | Err _ => refuse v ParseFailed
  | Ok t =>
      match Tlv.error t with
      | Some _ => refuse v ServerError
      | None => if negb (bool_decide (Tlv.state t = Some expected)) then refuse v WrongState else k t
      end
  end.

(** [Some] the key padded on the left to 384 bytes. *)
Definition padded_key (raw : list Z) : option (list Z) :=
  if (length raw <? 384)%nat then Some (replicate (384 - length raw) 0 ++ raw)
  else if (length raw =? 384)%nat then Some raw else None.

Definition process_m2 (v : PairSetup) (response : list Z) : PairSetup * Result unit SetupError :=
  if negb (bool_decide (state v = M1Sent)) then fail v InvalidState
  else open_answer v response 2 (fun t =>
    match Tlv.get t Tlv.Salt with
    | None => refuse v MissingSalt
    | Some salt =>
        if negb (length salt =? 16)%nat then refuse v (SaltLength (length salt))
        else match Tlv.get t Tlv.PublicKey with
        | None => refuse v MissingPublicKey
        | Some raw =>
            match padded_key raw with
            | None => refuse v (PublicKeyTooLong (length raw))
            | Some server_pk =>
                match srp_client v with
                | None => refuse v NoSrpClient
                | Some c =>
                    match process_challenge c {| Srp.salt := salt; server_public_key := server_pk |} with
                    | Err e => refuse v (ChallengeFailed e)
                    | Ok proof => (v <| srp_proof := Some proof |> <| state := M2Received |>, Ok tt)
                    end
                end
            end
        end
    end).

Definition generate_m3 (v : PairSetup) : PairSetup * Result (list Z) SetupError :=
  if negb (bool_decide (state v = M2Received)) then fail v InvalidState
  else match srp_client v with
  | None => refuse v NoSrpClient
  | Some c =>
      match srp_proof v with
      | None => refuse v NoProof
      | Some proof =>
          (v <| state := M3Sent |>,
           Ok (Tlv.encode (Tlv.set (Tlv.set (Tlv.set Tlv.new Tlv.State [3]) Tlv.PublicKey (public_key c))
                 Tlv.Proof_ (client_proof proof))))
      end
  end.

Definition derive_pair_setup_key (secret : list Z) : list Z :=
  hkdf32 secret (lit "Pair-Setup-Encrypt-Salt") (lit "Pair-Setup-Encrypt-Info").

Definition process_m4 (v : PairSetup) (response : list Z) : PairSetup * Result unit SetupError :=
  if negb (bool_decide (state v = M3Sent)) then fail v InvalidState
  else open_answer v response 4 (fun t =>
    match Tlv.get t Tlv.Proof_ with
    | None => refuse v MissingProof
    | Some server_proof =>
        match srp_client v with
        | None => refuse v NoSrpClient
        | Some _ =>
            match srp_proof v with
            | None => refuse v NoProof
            | Some proof =>
                if negb (verify_server_proof server_proof (expected_server_proof proof))
                then refuse v ProofMismatch
                else (v <| session_key := Some (derive_pair_setup_key (Srp.shared_secret proof)) |>
                        <| state := M4Received |>, Ok tt)
            end
        end
    end).

Definition complete_transient (v : PairSetup) : PairSetup * Result (list Z) SetupError :=
  if negb (bool_decide (state v = M4Received)) then fail v InvalidState
  else if negb (transient_mode v) then (v, Err InvalidState)
  else match srp_proof v with
  | None => refuse v NoProof
  | Some proof => (v <| state := Complete |>, Ok (Srp.shared_secret proof))
  end.

(** Key, salt and info labels of the two signatures. *)
Definition controller_x (secret : list Z) : list Z :=
  hkdf32 secret (lit "Pair-Setup-Controller-Sign-Salt") (lit "Pair-Setup-Controller-Sign-Info").
Definition accessory_x (secret : list Z) : list Z :=
  hkdf32 secret (lit "Pair-Setup-Accessory-Sign-Salt") (lit "Pair-Setup-Accessory-Sign-Info").

(** Identifier, long-term key, and the signature over both behind [x]. *)
Definition identity_tlv (x id seed : list Z) : Tlv.Tlv8 :=
  Tlv.set (Tlv.set (Tlv.set Tlv.new Tlv.Identifier id) Tlv.PublicKey (ed_public seed))
    Tlv.Signature (ed_sign seed (x ++ id ++ ed_public seed)).

Definition generate_m5_internal (v : PairSetup) (pairing_id seed : list Z)
  : PairSetup * Result (list Z) SetupError :=
  if negb (bool_decide (state v = M4Received)) then fail v InvalidState
  else match session_key v with
  | None => refuse v NoSessionKey
  | Some key =>
      match srp_proof v with
      | None => refuse v NoProof
      | Some proof =>
          let inner := identity_tlv (controller_x (Srp.shared_secret proof)) pairing_id seed in
          match encrypt_with_nonce key PS_MSG05_NONCE (Tlv.encode inner) with
          | Err e => refuse v (EncryptFailed e)
          | Ok encrypted =>
              (v <| state := M5Sent |>,
               Ok (Tlv.encode (Tlv.set (Tlv.set Tlv.new Tlv.State [5]) Tlv.EncryptedData encrypted)))
          end
      end
  end.
Definition generate_m5_with_controller (v : PairSetup) (id : text) (seed : list Z) :=
  generate_m5_internal v (utf8_encode id) seed.
Definition generate_m5 (v : PairSetup) (seed : list Z) :=
  generate_m5_internal v (utf8_encode (uuid_of (ed_public seed))) seed.

(** The identity inside M6. *)
Definition check_m6 (v : PairSetup) (proof : SrpProof) (plain : list Z)
  : PairSetup * Result (list Z) SetupError :=
  match Tlv.parse plain with
  | Err _ => refuse v InnerParseFailed
  | Ok t =>
      match Tlv.get t Tlv.Identifier with
      | None => refuse v MissingIdentifier
      | Some id =>
          match Tlv.get t Tlv.PublicKey with
          | None => refuse v MissingServerKey
          | Some pk =>
              match Tlv.get t Tlv.Signature with
              | None => refuse v MissingSignature
              | Some sig =>
                  if negb (length pk =? 32)%nat then refuse v ServerKeyLength
                  else if negb (length sig =? 64)%nat then refuse v SignatureLength
                  else if negb (ed_verify pk (accessory_x (Srp.shared_secret proof) ++ id ++ pk) sig)
                  then refuse v SignatureRejected
                  else (v <| server_identifier := Some id |> <| server_ltpk := Some pk |>
                          <| state := Complete |>, Ok (Srp.shared_secret proof))
              end
          end
      end
  end.

Definition process_m6 (v : PairSetup) (response : list Z) : PairSetup * Result (list Z) SetupError :=
  if negb (bool_decide (state v = M5Sent)) then fail v InvalidState
  else open_answer v response 6 (fun t =>
    match session_key v with
    | None => refuse v NoSessionKey
    | Some key =>
        match srp_proof v with
        | None => refuse v NoProof
        | Some proof =>
            match Tlv.get t Tlv.EncryptedData with
            | None => refuse v MissingEncryptedData
            | Some encrypted =>
                match decrypt_with_nonce key PS_MSG06_NONCE encrypted with
                | Err e => refuse v (DecryptFailed e)
                | Ok plain => check_m6 v proof plain
                end
            end
        end
    end).
End Protocol.

(** ** The accessory of the tests *)

Record SetupServer := {
  ss_identity : list Z;
  ss_salt : list Z;
  ss_srp : SrpServer;
  ss_client_public_key : option (list Z);
  ss_session_key : option (list Z);
  ss_shared_secret : option (list Z);
}.

Section Accessory.
Context (p : SrpParams) `{Sha512} `{Aead} `{Curves}.

Definition new_setup_server (pin seed salt : list Z) (b : Z) : SetupServer :=
  {| ss_identity := seed; ss_salt := salt;
     ss_srp := new_server p (lit "Pair-Setup") pin salt b; ss_client_public_key := None;
     ss_session_key := None; ss_shared_secret := None |}.

Definition server_m2 (s : SetupServer) : list Z :=
  Tlv.encode (Tlv.set (Tlv.set (Tlv.set Tlv.new Tlv.State [2]) Tlv.Salt (ss_salt s))
    Tlv.PublicKey (public_key_bytes (ss_srp s))).

Definition server_m4 (s : SetupServer) (m3 : list Z) : Result (SetupServer * list Z) Reason :=
  match Tlv.parse m3 with
  | Err _ => Err ParseFailed
  | Ok t =>
      match Tlv.get t Tlv.PublicKey with
      | None => Err MissingPublicKey
      | Some client_pk =>
          match Tlv.get t Tlv.Proof_ with
          | None => Err MissingProof
          | Some _ =>
              let '(secret, _, server_proof) := compute_session (ss_srp s) client_pk in
              Ok ({| ss_identity := ss_identity s; ss_salt := ss_salt s; ss_srp := ss_srp s;
                     ss_client_public_key := Some client_pk;
                     ss_session_key := Some (derive_pair_setup_key secret);
                     ss_shared_secret := Some secret |},
                  Tlv.encode (Tlv.set (Tlv.set Tlv.new Tlv.State [4]) Tlv.Proof_ server_proof))
          end
      end
  end.

Definition server_m6 (s : SetupServer) (m5 : list Z) : Result (list Z) Reason :=
  match Tlv.parse m5 with
  | Err _ => Err ParseFailed
  | Ok t =>
      match Tlv.get t Tlv.EncryptedData with
      | None => Err MissingEncryptedData
      | Some encrypted =>
          match ss_session_key s with
          | None => Err NoSessionKey
          | Some key =>
              match decrypt_with_nonce key PS_MSG05_NONCE encrypted with
              | Err e => Err (DecryptFailed e)
              | Ok _ =>
                  match ss_shared_secret s with
                  | None => Err NoProof
                  | Some secret =>
                      match encrypt_with_nonce key PS_MSG06_NONCE
                              (Tlv.encode (identity_tlv (accessory_x secret) (lit "AirPlay-Server")
                                 (ss_identity s))) with
                      | Err e => Err (EncryptFailed e)
                      | Ok sealed =>
                          Ok (Tlv.encode (Tlv.set (Tlv.set Tlv.new Tlv.State [6])
                                Tlv.EncryptedData sealed))
                      end
                  end
              end
          end
      end
  end.
End Accessory.

(** ** The deprecated exchange over identity keys *)

Inductive TransientState := TInitial | TM1Sent | TComplete | TFailed.
#[export] Instance TransientState_eq_dec : EqDecision TransientState.
Proof. solve_decision. Defined.

Record TransientPairSetup := {
  t_state : TransientState;
  t_identity : list Z;
  server_ed25519_public : option (list Z);
  t_shared_secret : option (list Z);
}.
#[export] Instance eta_TransientPairSetup : Eta TransientPairSetup := fun v =>
  {| t_state := t_state v; t_identity := t_identity v;
     server_ed25519_public := server_ed25519_public v; t_shared_secret := t_shared_secret v |}.
Definition new_transient_setup (identity : list Z) : TransientPairSetup :=
  {| t_state := TInitial; t_identity := identity; server_ed25519_public := None;
     t_shared_secret := None |}.

Section Transient.
Context `{Sha512} `{Curves}.
(** [decompress] and [to_montgomery] of the curve package. *)
Context (montgomery : list Z -> option (list Z)).

Definition clamp (bs : list Z) : list Z :=
  alter (fun b => Z.lor (Z.land b 127) 64) 31%nat (alter (fun b => Z.land b 248) 0%nat bs).
Definition ed25519_seed_to_x25519_secret (seed : list Z) : list Z := clamp (take 32 (sha512 seed)).
Definition ed25519_to_x25519_dh (seed their : list Z) : option (list Z) :=
  match montgomery their with
  | None => None
  | Some point =>
      let shared := x25519 (ed25519_seed_to_x25519_secret seed) point in
      if all_zero shared then None else Some shared
  end.

Definition transient_m1 (v : TransientPairSetup) : TransientPairSetup * Result (list Z) SetupError :=
  if negb (bool_decide (t_state v = TInitial)) then (v <| t_state := TFailed |>, Err InvalidState)
  else (v <| t_state := TM1Sent |>,
        Ok (Tlv.encode (Tlv.set (Tlv.set (Tlv.set (Tlv.set Tlv.new Tlv.Method [0]) Tlv.State [1])
              Tlv.Flags [0x10; 0; 0; 0]) Tlv.PublicKey (ed_public (t_identity v))))).
Definition transient_m1_raw (v : TransientPairSetup)
  : TransientPairSetup * Result (list Z) SetupError :=
  if negb (bool_decide (t_state v = TInitial)) then (v <| t_state := TFailed |>, Err InvalidState)
  else (v <| t_state := TM1Sent |>, Ok (ed_public (t_identity v))).

Definition raw_key (response : list Z) : Result (list Z) SetupError :=
  if (length response =? 32)%nat then Ok response else Err (Protocol (NotAKey (length response))).
Definition extract_server_public_key (response : list Z) : Result (list Z) SetupError :=
  match Tlv.parse response with
  | Err _ => raw_key response
  | Ok t =>
      match Tlv.error t with
      | Some _ => Err (Protocol ServerError)
      | None =>
          if match Tlv.state t with Some s => negb (s =? 2) | None => false end
          then Err (Protocol WrongState)
          else match Tlv.get t Tlv.PublicKey with Some pk => Ok pk | None => raw_key response end
      end
  end.

Definition transient_m2 (v : TransientPairSetup) (response : list Z)
  : TransientPairSetup * Result (list Z) SetupError :=
  if negb (bool_decide (t_state v = TM1Sent)) then (v <| t_state := TFailed |>, Err InvalidState)
  else match extract_server_public_key response with
  | Err e => (v <| t_state := TFailed |>, Err e)
  | Ok pk =>
      if negb (length pk =? 32)%nat then (v <| t_state := TFailed |>, Err (Protocol ServerKeyLength))
      else
        let v := v <| server_ed25519_public := Some pk |> in
        match ed25519_to_x25519_dh (t_identity v) pk with
        | None => (v <| t_state := TFailed |>, Err (Protocol SecretFailed))
        | Some shared => (v <| t_shared_secret := Some shared |> <| t_state := TComplete |>, Ok shared)
        end
  end.
End Transient.

End PairSetup.
