(* ===== verification/PairSetupProps.v ===== *)
(** * Pair-setup: agreement and authentication

    With the accessory of the tests and the same PIN the exchange completes and
    both sides hold the same secret; whatever the peer sends, it completes only
    after a verified proof and, outside the transient mode, a verified
    identity. *)

From Stdlib Require Znumtheory.
From S2P Require Import Prelude Wire Text Tlv ControlCipher CipherProps PairVerify PairSetup PairVerifyProps.
Import ControlCipher CipherProps PairVerify Srp PairSetup.

Module PairSetupProps.

Section Sealing.
Context `{Aead}.

(** What was sealed opens again. *)
Lemma opens_sealed key nonce m c :
  encrypt_with_nonce key nonce m = Ok c -> decrypt_with_nonce key nonce c = Ok m.
Proof.
  unfold encrypt_with_nonce, decrypt_with_nonce. destruct (seal key nonce [] m) as [c'|] eqn:Hc; [|done].
  intros [= ->]. pose proof (seal_length _ _ _ _ _ Hc).
  destruct (Nat.ltb_spec (length c) 16); [lia|]. by rewrite (open_seal _ _ _ _ _ Hc).
Qed.

Lemma seals key nonce m : (forall k nonce m, is_Some (seal k nonce [] m)) ->
  exists c, encrypt_with_nonce key nonce m = Ok c.
Proof. intros Hs. unfold encrypt_with_nonce. destruct (Hs key nonce m) as [c ->]. eauto. Qed.

Lemma decrypt_sealed key nonce c m : decrypt_with_nonce key nonce c = Ok m -> seal key nonce [] m = Some c.
Proof.
  unfold decrypt_with_nonce. destruct (_ <? 16)%nat; [done|]. destruct (open key nonce [] c) eqn:E; [|done].
  intros [= ->]. by apply open_authentic.
Qed.

End Sealing.

Section Agreement.
Context (p : SrpParams) `{Sha512} `{Aead} `{Curves}.
Context (Hn : Znumtheory.prime (n p)) (Hg : g p mod n p <> 0) (Hsize : n p < 2 ^ 3072).

(** One honest exchange: the PIN, the accessory's identity and salt, the two
    private numbers. *)
Context (code seed salt : list Z) (a b : Z).
Context (Ha : 0 <= a) (Hb : 0 <= b) (Hsalt : length salt = 16%nat).

Definition the_client : SrpClient := new_client p (lit "Pair-Setup") code a.
Definition accessory : SetupServer := new_setup_server p code seed salt b.
Definition usable : Prop :=
  s_public_key (ss_srp accessory) <> 0 /\
  compute_u (public_key_value the_client) (s_public_key (ss_srp accessory)) <> 0.

Definition m3_of (proof : SrpProof) : list Z :=
  Tlv.encode (Tlv.set (Tlv.set (Tlv.set Tlv.new Tlv.State [3]) Tlv.PublicKey (public_key the_client))
    Tlv.Proof_ (client_proof proof)).
Definition after_m4 (transient : bool) (proof : SrpProof) : PairSetup :=
  {| state := M4Received; pin := code; srp_client := Some the_client; srp_proof := Some proof;
     session_key := Some (derive_pair_setup_key (Srp.shared_secret proof));
     transient_mode := transient; server_identifier := None; server_ltpk := None |}.
Definition informed (proof : SrpProof) : SetupServer :=
  {| ss_identity := seed; ss_salt := salt; ss_srp := ss_srp accessory;
     ss_client_public_key := Some (public_key the_client);
     ss_session_key := Some (derive_pair_setup_key (Srp.shared_secret proof));
     ss_shared_secret := Some (Srp.shared_secret proof) |}.

(** Messages up to M4. *)
Lemma reaches_m4 transient :
  usable ->
  exists proof m1 v1 v2 v3 m4,
    generate_m1 p (fresh code transient) a = (v1, Ok m1) /\
    PairSetup.process_m2 v1 (server_m2 accessory) = (v2, Ok tt) /\
    PairSetup.generate_m3 v2 = (v3, Ok (m3_of proof)) /\
    server_m4 accessory (m3_of proof) = Ok (informed proof, m4) /\
    PairSetup.process_m4 v3 m4 = (after_m4 transient proof, Ok tt).
Proof.
  intros [Hpub Hu].
  destruct (srp_agree p Hn Hg Hsize code salt a b Ha Hb Hpub Hu) as (proof & Hc & Hs).
  exists proof. unfold generate_m1, generate_m1_internal.
  rewrite bool_decide_true by done. cbn [negb fresh transient_mode PairSetup.pin].
  do 2 eexists. do 3 eexists. split; [reflexivity|]. split.
  { unfold PairSetup.process_m2. rewrite bool_decide_true by done. cbn [negb].
    unfold open_answer, server_m2. rewrite Tlv.parse_encode.
    set (t := Tlv.set (Tlv.set (Tlv.set _ _ _) _ _) _ _).
    assert (Tlv.error t = None) as -> by reflexivity.
    assert (Tlv.state t = Some 2) as -> by reflexivity. rewrite bool_decide_true by done. cbn [negb].
    assert (Tlv.get t Tlv.Salt = Some salt) as -> by reflexivity. rewrite Hsalt. cbn [negb Nat.eqb].
    assert (Tlv.get t Tlv.PublicKey = Some (public_key_bytes (ss_srp accessory))) as -> by reflexivity.
    unfold padded_key.
    assert (length (public_key_bytes (ss_srp accessory)) = 384%nat) as ->.
    { apply pad_to_n_spec. apply mod_in_width; done. }
    cbn [Nat.ltb Nat.leb Nat.eqb]. cbn [PairSetup.srp_client upd]. unfold accessory, new_setup_server. cbn [ss_srp].
    rewrite Hc. reflexivity. }
  split; [reflexivity|]. split.
  { unfold server_m4, m3_of. rewrite Tlv.parse_encode.
    set (t := Tlv.set (Tlv.set (Tlv.set _ _ _) _ _) _ _).
    assert (Tlv.get t Tlv.PublicKey = Some (public_key the_client)) as -> by reflexivity.
    assert (Tlv.get t Tlv.Proof_ = Some (client_proof proof)) as -> by reflexivity.
    unfold the_client at 1. cbn [accessory new_setup_server ss_srp]. rewrite Hs. reflexivity. }
  unfold PairSetup.process_m4. rewrite bool_decide_true by done. cbn [negb].
  unfold open_answer. rewrite Tlv.parse_encode.
  set (t := Tlv.set (Tlv.set _ _ _) _ _).
  assert (Tlv.error t = None) as -> by reflexivity.
  assert (Tlv.state t = Some 4) as -> by reflexivity. rewrite bool_decide_true by done. cbn [negb].
  assert (Tlv.get t Tlv.Proof_ = Some (expected_server_proof proof)) as -> by reflexivity.
  cbn [srp_client srp_proof upd]. unfold verify_server_proof. rewrite bool_decide_true by done. done.
Qed.

(** An identity is accepted by the side that derives the same [x]. *)
Lemma accepts_identity v proof id :
  check_m6 v proof (Tlv.encode (identity_tlv (accessory_x (Srp.shared_secret proof)) id seed))
  = (v <| server_identifier := Some id |> <| server_ltpk := Some (ed_public seed) |>
       <| state := Complete |>, Ok (Srp.shared_secret proof)).
Proof.
  unfold check_m6. rewrite Tlv.parse_encode. set (t := identity_tlv _ _ _).
  assert (Tlv.get t Tlv.Identifier = Some id) as -> by reflexivity.
  assert (Tlv.get t Tlv.PublicKey = Some (ed_public seed)) as -> by reflexivity.
  assert (Tlv.get t Tlv.Signature = Some (ed_sign seed
            (accessory_x (Srp.shared_secret proof) ++ id ++ ed_public seed))) as -> by reflexivity.
  by rewrite ed_public_length, ed_sign_length, ed_verify_sign.
Qed.

(** Messages M5 and M6. *)
Lemma reaches_m6 proof controller :
  (forall k nonce m, is_Some (seal k nonce [] m)) ->
  exists v5 m5 m6 v6,
    generate_m5 (after_m4 false proof) controller = (v5, Ok m5) /\
    server_m6 (informed proof) m5 = Ok m6 /\
    process_m6 v5 m6 = (v6, Ok (Srp.shared_secret proof)) /\
    state v6 = Complete /\ server_ltpk v6 = Some (ed_public seed).
Proof.
  intros Hseal. set (key := derive_pair_setup_key (Srp.shared_secret proof)).
  destruct (seals key PS_MSG05_NONCE (Tlv.encode (identity_tlv (controller_x (Srp.shared_secret proof))
    (utf8_encode (uuid_of (ed_public controller))) controller)) Hseal) as [c5 H5].
  destruct (seals key PS_MSG06_NONCE (Tlv.encode (identity_tlv (accessory_x (Srp.shared_secret proof))
    (lit "AirPlay-Server") seed)) Hseal) as [c6 H6].
  eexists _, _, (Tlv.encode (Tlv.set (Tlv.set Tlv.new Tlv.State [6]) Tlv.EncryptedData c6)),
    ((after_m4 false proof) <| state := M5Sent |> <| server_identifier := Some (lit "AirPlay-Server") |>
       <| server_ltpk := Some (ed_public seed) |> <| state := Complete |>).
  split. { unfold generate_m5, generate_m5_internal. rewrite bool_decide_true by done. cbn [negb].
    cbn [after_m4 session_key srp_proof]. fold key. rewrite H5. reflexivity. }
  split. { unfold server_m6. rewrite Tlv.parse_encode.
    assert (forall t c, Tlv.get (Tlv.set t Tlv.EncryptedData c) Tlv.EncryptedData = Some c) as Hget.
    { intros t c. apply lookup_insert_eq. }
    rewrite Hget. cbn [informed ss_session_key ss_shared_secret ss_identity]. fold key.
    rewrite (opens_sealed _ _ _ _ H5), H6. done. }
  split; [|split; [reflexivity|reflexivity]].
  unfold process_m6. rewrite bool_decide_true by done. cbn [negb]. unfold open_answer.
  rewrite Tlv.parse_encode. set (t := Tlv.set (Tlv.set _ _ _) _ _).
  assert (Tlv.error t = None) as -> by reflexivity.
  assert (Tlv.state t = Some 6) as -> by reflexivity. rewrite bool_decide_true by done. cbn [negb].
  cbn [after_m4 session_key srp_proof upd]. fold key.
  assert (Tlv.get t Tlv.EncryptedData = Some c6) as -> by reflexivity.
  rewrite (opens_sealed _ _ _ _ H6). apply accepts_identity.
Qed.

End Agreement.

(** C12: Pair-setup with an accessory that holds the same PIN completes: every
    message is accepted, both sides end with the same SRP secret, and the
    client has stored the accessory's long-term key, verified under that
    secret.  The group is any with a prime modulus of at most 3072 bits; the
    accessory's public number and the scrambler must not be zero. *)
Theorem honest_pair_setup_completes (p : SrpParams) `{Sha512} `{Aead} `{Curves}
    (code seed salt controller : list Z) (a b : Z) :
  Znumtheory.prime (n p) -> g p mod n p <> 0 -> n p < 2 ^ 3072 ->
  0 <= a -> 0 <= b -> length salt = 16%nat -> usable p code seed salt a b ->
  (forall k nonce m, is_Some (seal k nonce [] m)) ->
  exists m1 v1 v2 m3 v3 server m4 v4 m5 v5 m6 v6 secret,
    generate_m1 p (new_setup code) a = (v1, Ok m1) /\
    PairSetup.process_m2 v1 (server_m2 (new_setup_server p code seed salt b)) = (v2, Ok tt) /\
    PairSetup.generate_m3 v2 = (v3, Ok m3) /\
    server_m4 (new_setup_server p code seed salt b) m3 = Ok (server, m4) /\
    PairSetup.process_m4 v3 m4 = (v4, Ok tt) /\
    generate_m5 v4 controller = (v5, Ok m5) /\
    server_m6 server m5 = Ok m6 /\
    process_m6 v5 m6 = (v6, Ok secret) /\
    ss_shared_secret server = Some secret /\
    state v6 = Complete /\ server_ltpk v6 = Some (ed_public seed).
Proof.
  intros Hn Hg Hsize Ha Hb Hsalt Hu Hseal.
  destruct (reaches_m4 p Hn Hg Hsize code seed salt a b Ha Hb Hsalt false Hu)
    as (proof & m1 & v1 & v2 & v3 & m4 & E1 & E2 & E3 & E4 & E5).
  destruct (reaches_m6 p code seed salt a b proof controller Hseal)
    as (v5 & m5 & m6 & v6 & E6 & E7 & E8 & E9 & E10).
  eexists m1, v1, v2, _, v3, _, m4, _, m5, v5, m6, v6, _. split_and!; try eassumption. reflexivity.
Qed.

(** ** Whatever the peer sends *)

Section Traces.
Context (p : SrpParams) `{Sha512} `{Aead} `{Curves}.

Inductive Op :=
| OpM1 (flags : bool) (a : Z)
| OpM2 (response : list Z)
| OpM3
| OpM4 (response : list Z)
| OpTransient
| OpM5 (id seed : list Z)
| OpM6 (response : list Z).

Definition apply_op (v : PairSetup) (o : Op) : PairSetup :=
  match o with
  | OpM1 flags a => fst (generate_m1_internal p v flags a)
  | OpM2 r => fst (PairSetup.process_m2 v r)
  | OpM3 => fst (PairSetup.generate_m3 v)
  | OpM4 r => fst (PairSetup.process_m4 v r)
  | OpTransient => fst (complete_transient v)
  | OpM5 id seed => fst (generate_m5_internal v id seed)
  | OpM6 r => fst (process_m6 v r)
  end.

(** A proof was sent that only a holder of the secret can compute. *)
Definition proved (ops : list Op) (v : PairSetup) : Prop :=
  exists m4 t proof, OpM4 m4 ∈ ops /\ Tlv.parse m4 = Ok t /\ srp_proof v = Some proof /\
    Tlv.get t Tlv.Proof_ = Some (expected_server_proof proof) /\
    session_key v = Some (derive_pair_setup_key (Srp.shared_secret proof)).

(** An identity was sent, sealed under the session key and signed. *)
Definition identified (ops : list Op) (v : PairSetup) : Prop :=
  exists m6 t sealed plain inner proof key id pk sig,
    OpM6 m6 ∈ ops /\ Tlv.parse m6 = Ok t /\ Tlv.get t Tlv.EncryptedData = Some sealed /\
    session_key v = Some key /\ srp_proof v = Some proof /\
    seal key PS_MSG06_NONCE [] plain = Some sealed /\ Tlv.parse plain = Ok inner /\
    Tlv.get inner Tlv.Signature = Some sig /\
    ed_verify pk (accessory_x (Srp.shared_secret proof) ++ id ++ pk) sig = true /\
    server_identifier v = Some id /\ server_ltpk v = Some pk.

Definition authenticated (ops : list Op) (v : PairSetup) : Prop :=
  match state v with
  | M4Received | M5Sent => proved ops v
  | Complete => proved ops v /\ (transient_mode v = true \/ identified ops v)
  | _ => True
  end.

Lemma proved_snoc ops o v v' :
  srp_proof v' = srp_proof v -> session_key v' = session_key v -> proved ops v -> proved (ops ++ [o]) v'.
Proof.
  intros H1' H2' (m4 & t & proof & Hin & Hr). exists m4, t, proof. rewrite H1', H2'.
  split; [apply elem_of_app; by left|done].
Qed.

Ltac setup_cases :=
  unfold fail, refuse, open_answer in *;
  repeat (case_match; simplify_eq/=; try done).

Lemma op_authenticated ops o v :
  authenticated ops v -> authenticated (ops ++ [o]) (apply_op v o).
Proof.
  intros Ha. destruct o; cbn [apply_op].
  - unfold generate_m1_internal. case_bool_decide; done.
  - unfold PairSetup.process_m2. case_bool_decide; [|done]. cbn [negb]. unfold open_answer.
    setup_cases.
  - unfold PairSetup.generate_m3. case_bool_decide; [|done]. cbn [negb]. setup_cases.
  - unfold PairSetup.process_m4. case_bool_decide; [|done]. cbn [negb]. unfold open_answer, refuse, fail.
    repeat (case_match; try done). simplify_eq/=.
    cbn. eexists response, _, _. split; [apply elem_of_app; right; by left|]. split; [done|].
    split; [done|]. split; [|done].
    match goal with E : negb (verify_server_proof _ _) = false |- _ =>
      unfold verify_server_proof in E; apply negb_false_iff, bool_decide_eq_true in E; by subst end.
  - unfold complete_transient. case_bool_decide as Hs; [|done]. cbn [negb].
    unfold authenticated in Ha. rewrite Hs in Ha.
    destruct (transient_mode v) eqn:Et; cbn [negb].
    + destruct (srp_proof v) eqn:Ep; [|done]. cbn. rewrite Et. split; [|by left]. by eapply proved_snoc.
    + unfold authenticated. cbn. rewrite Hs. by eapply proved_snoc.
  - unfold generate_m5_internal. case_bool_decide as Hs; [|done]. cbn [negb].
    unfold authenticated in Ha. rewrite Hs in Ha. unfold refuse, fail.
    repeat (case_match; try done). cbn. by eapply proved_snoc.
  - unfold process_m6. case_bool_decide as Hs; [|done]. cbn [negb].
    unfold authenticated in Ha. rewrite Hs in Ha. unfold open_answer, check_m6, refuse, fail.
    repeat (case_match; try done). cbn. split; [by eapply proved_snoc|]. right.
    exists response. do 9 eexists.
    split; [apply elem_of_app; right; by left|]. split; [eassumption|]. split; [eassumption|].
    split; [eassumption|]. split; [eassumption|]. split; [by apply decrypt_sealed|].
    split; [eassumption|]. split; [eassumption|]. split; [by apply negb_false_iff|]. done.
Qed.

(** C13: Whatever a peer answers and in whatever order the client's operations
    are called, pair-setup is complete only if some M4 carried the proof that
    depends on the SRP secret, and, outside the transient mode, some M6 was
    sealed under the session key derived from that secret and contained an
    identity whose signature verifies under the long-term key now stored. *)
Theorem pair_setup_authenticates code transient ops :
  let v := fold_left apply_op ops (fresh code transient) in
  state v = Complete -> proved ops v /\ (transient_mode v = true \/ identified ops v).
Proof.
  intros v Hs. assert (authenticated ops v) as Ha.
  { subst v. clear Hs. induction ops as [|o ops IH] using rev_ind; [done|].
    rewrite fold_left_app. by apply op_authenticated. }
  unfold authenticated in Ha. by rewrite Hs in Ha.
Qed.
End Traces.

(** ** Witnesses: a hash that sums, over a group of three elements *)

Definition toy_sum (m : list Z) : list Z := replicate 63 0 ++ [1 + fold_left Z.add m 0 mod 200].
Lemma toy_sum_length m : length (toy_sum m) = 64%nat.
Proof. done. Qed.
Lemma toy_sum_bytes m : bytes_ok (toy_sum m).
Proof.
  unfold toy_sum. apply Forall_app. split.
  - apply Forall_replicate. unfold is_byte, in_width. lia.
  - repeat constructor; pose proof (Z.mod_pos_bound (fold_left Z.add m 0) 200); lia.
Qed.
Definition toy_sha : Sha512 :=
  {| sha512 := toy_sum; sha512_length := toy_sum_length; sha512_bytes := toy_sum_bytes |}.
Definition toy_group : SrpParams := {| n := 3; g := 2 |}.
Definition toy_salt : list Z := replicate 16 9.

Lemma toy_seals k nonce m : is_Some (@seal toy_aead k nonce [] m).
Proof. eexists. reflexivity. Qed.

Lemma honest_pair_setup_completes_witness :
  exists m1 v1 v2 m3 v3 server m4 v4 m5 v5 m6 v6 secret,
    generate_m1 toy_group (new_setup (lit "3939")) 5 = (v1, Ok m1) /\
    @PairSetup.process_m2 toy_sha v1 (@server_m2 (@new_setup_server toy_group toy_sha (lit "3939") [6] toy_salt 4))
    = (v2, Ok tt) /\
    PairSetup.generate_m3 v2 = (v3, Ok m3) /\
    @server_m4 toy_sha PairVerifyProps.toy_curves
      (@new_setup_server toy_group toy_sha (lit "3939") [6] toy_salt 4) m3 = Ok (server, m4) /\
    @PairSetup.process_m4 PairVerifyProps.toy_curves v3 m4 = (v4, Ok tt) /\
    @generate_m5 toy_aead PairVerifyProps.toy_curves v4 [7] = (v5, Ok m5) /\
    @server_m6 toy_aead PairVerifyProps.toy_curves server m5 = Ok m6 /\
    @process_m6 toy_aead PairVerifyProps.toy_curves v5 m6 = (v6, Ok secret) /\
    ss_shared_secret server = Some secret /\
    state v6 = Complete /\ server_ltpk v6 = Some (PairVerifyProps.pad [6]).
Proof.
  apply (@honest_pair_setup_completes toy_group toy_sha toy_aead PairVerifyProps.toy_curves
           (lit "3939") [6] toy_salt [7] 5 4).
  - exact Znumtheory.prime_3.
  - vm_compute. discriminate.
  - vm_compute. reflexivity.
  - lia.
  - lia.
  - reflexivity.
  - split; vm_compute; discriminate.
  - exact toy_seals.
Defined.

Definition toy_exchange : list Op :=
  let s := @new_setup_server toy_group toy_sha (lit "3939") [6] toy_salt 4 in
  let v2 := fold_left (@apply_op toy_group toy_sha toy_aead PairVerifyProps.toy_curves)
              [OpM1 true 5; OpM2 (server_m2 s)] (fresh (lit "3939") true) in
  [OpM1 true 5; OpM2 (server_m2 s); OpM3;
   OpM4 match PairSetup.generate_m3 v2 with
        | (_, Ok m3) => match @server_m4 toy_sha PairVerifyProps.toy_curves s m3 with
                        | Ok (_, m4) => m4 | Err _ => [] end
        | _ => [] end;
   OpTransient].

Lemma pair_setup_authenticates_witness :
  let v := fold_left (@apply_op toy_group toy_sha toy_aead PairVerifyProps.toy_curves) toy_exchange
             (fresh (lit "3939") true) in
  @proved PairVerifyProps.toy_curves toy_exchange v /\
  (transient_mode v = true \/ @identified toy_aead PairVerifyProps.toy_curves toy_exchange v).
Proof.
  apply (@pair_setup_authenticates toy_group toy_sha toy_aead PairVerifyProps.toy_curves
           (lit "3939") true toy_exchange). vm_compute. reflexivity.
Defined.
End PairSetupProps.
