(* ===== verification/PairingSession.v ===== *)
(** * Pairing session ([airplay-pairing/src/session.rs], [fairplay.rs])

    The FairPlay message frames, the session that drives pair-setup, its
    transient form, pair-verify and FairPlay, and the theorems about it. *)

From Stdlib Require Znumtheory.
From S2P Require Import Prelude Tlv Features Wire Text ControlCipher CipherProps PairVerify PairVerifyProps PairSetup PairSetupProps.

Import ControlCipher PairVerify Srp.
#[local] Existing Instances PairSetup.PairSetupState_eq_dec.

(** ** FairPlay *)

Module FairPlay.

Definition FPLY_HEADER : list Z := lit "FPLY".
Definition FPLY_VERSION_MAJOR : Z := 3.
Definition FPLY_VERSION_MINOR : Z := 0.
Definition PHASE1_REQUEST_SIZE : nat := 16.
Definition PHASE1_RESPONSE_SIZE : nat := 142.
Definition PHASE3_REQUEST_SIZE : nat := 164.
Definition PHASE3_RESPONSE_SIZE : nat := 32.

Inductive FpState := Initial | Phase1Sent | Phase1Complete | Phase3Sent | Complete | Failed.
#[export] Instance FpState_eq_dec : EqDecision FpState.
Proof. solve_decision. Defined.

Record FairPlaySetup := {
  fp_state : FpState;
  mode : option Z;
  fp_session_key : option (list Z);
  phase1_response : option (list Z);
}.
#[export] Instance eta_FairPlaySetup : Eta FairPlaySetup := fun f =>
  {| fp_state := fp_state f; mode := mode f; fp_session_key := fp_session_key f;
     phase1_response := phase1_response f |}.
Definition new_fairplay : FairPlaySetup :=
  {| fp_state := Initial; mode := None; fp_session_key := None; phase1_response := None |}.

Inductive FairPlayError := InvalidState | WrongLength (len : nat) | WrongHeader.

Definition frame (size : nat) (phase : Z) : list Z :=
  FPLY_HEADER ++ [FPLY_VERSION_MAJOR; FPLY_VERSION_MINOR; phase] ++ replicate (size - 7) 0.

Definition generate_phase1 (f : FairPlaySetup) : FairPlaySetup * Result (list Z) FairPlayError :=
  if negb (bool_decide (fp_state f = Initial)) then (f <| fp_state := Failed |>, Err InvalidState)
  else (f <| fp_state := Phase1Sent |>, Ok (frame PHASE1_REQUEST_SIZE 1)).

Definition process_phase1_response (f : FairPlaySetup) (response : list Z)
  : FairPlaySetup * Result unit FairPlayError :=
  if negb (bool_decide (fp_state f = Phase1Sent)) then (f <| fp_state := Failed |>, Err InvalidState)
  else if negb (length response =? PHASE1_RESPONSE_SIZE)%nat
  then (f <| fp_state := Failed |>, Err (WrongLength (length response)))
  else if negb (bool_decide (take 4 response = FPLY_HEADER))
  then (f <| fp_state := Failed |>, Err WrongHeader)
  else (f <| mode := response !! 7%nat |> <| phase1_response := Some response |>
          <| fp_state := Phase1Complete |>, Ok tt).

(** [for i in 7..min(164, len + 7) { request\[i\] = data.get(i - 7).unwrap_or(0) }] *)
Fixpoint copy_from (data request : list Z) (idx : list nat) : list Z :=
  match idx with
  | [] => request
  | i :: idx => copy_from data (<[i := default 0 (data !! (i - 7)%nat)]> request) idx
  end.

Definition generate_phase3 (f : FairPlaySetup) : FairPlaySetup * Result (list Z) FairPlayError :=
  if negb (bool_decide (fp_state f = Phase1Complete)) then (f <| fp_state := Failed |>, Err InvalidState)
  else
    let request := frame PHASE3_REQUEST_SIZE 3 in
    (f <| fp_state := Phase3Sent |>,
     Ok match phase1_response f with
        | Some data => copy_from data request
                         (seq 7 (Nat.min PHASE3_REQUEST_SIZE (length data + 7) - 7))
        | None => request
        end).

Definition process_phase3_response (f : FairPlaySetup) (response : list Z)
  : FairPlaySetup * Result (list Z) FairPlayError :=
  if negb (bool_decide (fp_state f = Phase3Sent)) then (f <| fp_state := Failed |>, Err InvalidState)
  else if negb (length response =? PHASE3_RESPONSE_SIZE)%nat
  then (f <| fp_state := Failed |>, Err (WrongLength (length response)))
  else (f <| fp_session_key := Some response |> <| fp_state := Complete |>, Ok response).

(** The loop overwrites what follows the header with a prefix of the data. *)
Lemma copy_from_spec data request k m :
  (k + m <= length request)%nat -> (m <= length (drop (k - 7) data))%nat -> (7 <= k)%nat ->
  copy_from data request (seq k m)
  = take k request ++ take m (drop (k - 7) data) ++ drop (k + m) request.
Proof.
  revert k request. induction m as [|m IH]; intros k request Hl Hd Hk; cbn [seq copy_from].
  - rewrite take_0, Nat.add_0_r. cbn [app]. by rewrite take_drop.
  - destruct (drop (k - 7) data) as [|x rest] eqn:Ed; [cbn in Hd; lia|].
    assert (data !! (k - 7)%nat = Some x) as Hx.
    { rewrite <- (Nat.add_0_r (k - 7)), <- lookup_drop, Ed. done. }
    assert (drop (S k - 7) data = rest) as Ed'.
    { replace (S k - 7)%nat with (k - 7 + 1)%nat by lia. by rewrite <- drop_drop, Ed. }
    rewrite Hx, (IH (S k)); [|rewrite length_insert; lia|rewrite Ed'; cbn in Hd; lia|lia].
    rewrite Ed'. cbn [default from_option take]. unfold id.
    rewrite (take_S_r _ _ x) by (apply list_lookup_insert_eq; lia).
    rewrite take_insert_ge, drop_insert_lt by lia. rewrite <- app_assoc.
    by replace (S k + m)%nat with (k + S m)%nat by lia.
Qed.

(** A whole exchange: the key message repeats the answer of the first phase
    behind its header, and the session key is the peer's last answer as it is. *)
Lemma fairplay_exchange response key :
  length response = PHASE1_RESPONSE_SIZE -> take 4 response = FPLY_HEADER ->
  length key = PHASE3_RESPONSE_SIZE ->
  exists f1 f2 f3 f4,
    generate_phase1 new_fairplay = (f1, Ok (frame PHASE1_REQUEST_SIZE 1)) /\
    process_phase1_response f1 response = (f2, Ok tt) /\
    generate_phase3 f2
    = (f3, Ok (FPLY_HEADER ++ [3; 0; 3] ++ response ++ replicate 15 0)) /\
    process_phase3_response f3 key = (f4, Ok key) /\ fp_state f4 = Complete /\
    mode f4 = response !! 7%nat.
Proof.
  intros Hl Hh Hk. do 4 eexists. split; [reflexivity|]. split.
  { unfold process_phase1_response. rewrite bool_decide_true by done. cbn [negb].
    rewrite Hl. cbn [negb PHASE1_RESPONSE_SIZE Nat.eqb]. by rewrite bool_decide_true. }
  split.
  { unfold generate_phase3. rewrite bool_decide_true by done. cbn [negb phase1_response upd].
    rewrite Hl, copy_from_spec; [|by apply Nat.leb_le|change (7 - 7)%nat with 0%nat; rewrite drop_0, Hl; by apply Nat.leb_le|lia].
    change (7 - 7)%nat with 0%nat. rewrite drop_0. rewrite (take_ge response) by (rewrite Hl; by apply Nat.leb_le). reflexivity. }
  split.
  { unfold process_phase3_response. rewrite bool_decide_true by done. cbn [negb]. by rewrite Hk. }
  split; reflexivity.
Qed.

End FairPlay.

(** ** The session *)

Module PairingSession.
Import PairSetup PairSetupProps FairPlay.

Inductive PairSetupStage := SetupNotStarted | SetupWaitingM2 | SetupWaitingM4 | SetupWaitingM6 | SetupComplete.
Inductive PairVerifyStage := VerifyNotStarted | VerifyWaitingM2 | VerifyWaitingM4 | VerifyComplete.
Inductive FairPlayStage := FpNotStarted | WaitingPhase1Response | WaitingPhase3Response | FpComplete.
Inductive TransientStage := TransientNotStarted | TransientWaitingM2 | TransientWaitingM4 | TransientComplete.
#[export] Instance PairSetupStage_eq_dec : EqDecision PairSetupStage.
Proof. solve_decision. Defined.
#[export] Instance PairVerifyStage_eq_dec : EqDecision PairVerifyStage.
Proof. solve_decision. Defined.
#[export] Instance FairPlayStage_eq_dec : EqDecision FairPlayStage.
Proof. solve_decision. Defined.
#[export] Instance TransientStage_eq_dec : EqDecision TransientStage.
Proof. solve_decision. Defined.

Inductive PairingStep := Send (request : list Z) | CompleteWith (keys : SessionKeys).

Record PairingSession := {
  auth_method : Features.AuthMethod;
  identity : list Z;
  pair_setup : option PairSetup;
  pair_setup_state : PairSetupStage;
  transient_setup : option PairSetup;
  transient_state : TransientStage;
  pair_verify : option PairVerify;
  pair_verify_state : PairVerifyStage;
  fairplay : option FairPlaySetup;
  fairplay_state : FairPlayStage;
  session_secret : option (list Z);
  session_keys : option SessionKeys;
}.
#[export] Instance eta_PairingSession : Eta PairingSession := fun s =>
  {| auth_method := auth_method s; identity := identity s; pair_setup := pair_setup s;
     pair_setup_state := pair_setup_state s; transient_setup := transient_setup s;
     transient_state := transient_state s; pair_verify := pair_verify s;
     pair_verify_state := pair_verify_state s; fairplay := fairplay s;
     fairplay_state := fairplay_state s; session_secret := session_secret s;
     session_keys := session_keys s |}.
Definition with_identity (m : Features.AuthMethod) (identity : list Z) : PairingSession :=
  {| auth_method := m; identity := identity; pair_setup := None; pair_setup_state := SetupNotStarted;
     transient_setup := None; transient_state := TransientNotStarted; pair_verify := None;
     pair_verify_state := VerifyNotStarted; fairplay := None; fairplay_state := FpNotStarted;
     session_secret := None; session_keys := None |}.

Inductive SessionError :=
| AlreadyStarted | NotStarted | WrongStage | NoKeys
| SetupFailed (e : SetupError) | VerifyFailed (e : PairingError) | FairPlayFailed (e : FairPlayError).

Definition is_transient_complete (s : PairingSession) : bool := bool_decide (transient_state s = TransientComplete).
Definition is_pair_setup_complete (s : PairingSession) : bool := bool_decide (pair_setup_state s = SetupComplete).
Definition is_pair_verify_complete (s : PairingSession) : bool := bool_decide (pair_verify_state s = VerifyComplete).
Definition is_fairplay_complete (s : PairingSession) : bool := bool_decide (fairplay_state s = FpComplete).
Definition is_complete (s : PairingSession) : bool := bool_decide (is_Some (session_keys s)).
Definition fairplay_session_key (s : PairingSession) : option (list Z) := fairplay s ≫= fp_session_key.
Definition take_session_keys (s : PairingSession) : PairingSession * option SessionKeys :=
  (s <| session_keys := None |>, session_keys s).

Section Session.
Context (p : SrpParams) `{Sha512} `{Aead} `{Curves}.

Definition start_pair_setup (s : PairingSession) (pin : list Z) (a : Z)
  : PairingSession * Result (list Z) SessionError :=
  match pair_setup s with
  | Some _ => (s, Err AlreadyStarted)
  | None =>
      match generate_m1 p (new_setup pin) a with
      | (_, Err e) => (s, Err (SetupFailed e))
      | (v, Ok m1) => (s <| pair_setup := Some v |> <| pair_setup_state := SetupWaitingM2 |>, Ok m1)
      end
  end.

(** A failed step leaves the stage as it was; the machine keeps its own state. *)
Definition continue_pair_setup (s : PairingSession) (response : list Z)
  : PairingSession * Result (option (list Z)) SessionError :=
  match pair_setup s with
  | None => (s, Err NotStarted)
  | Some v =>
      match pair_setup_state s with
      | SetupWaitingM2 =>
          match PairSetup.process_m2 v response with
          | (v, Err e) => (s <| pair_setup := Some v |>, Err (SetupFailed e))
          | (v, Ok _) =>
              match PairSetup.generate_m3 v with
              | (v, Err e) => (s <| pair_setup := Some v |>, Err (SetupFailed e))
              | (v, Ok m3) =>
                  (s <| pair_setup := Some v |> <| pair_setup_state := SetupWaitingM4 |>, Ok (Some m3))
              end
          end
      | SetupWaitingM4 =>
          match PairSetup.process_m4 v response with
          | (v, Err e) => (s <| pair_setup := Some v |>, Err (SetupFailed e))
          | (v, Ok _) =>
              match generate_m5 v (identity s) with
              | (v, Err e) => (s <| pair_setup := Some v |>, Err (SetupFailed e))
              | (v, Ok m5) =>
                  (s <| pair_setup := Some v |> <| pair_setup_state := SetupWaitingM6 |>, Ok (Some m5))
              end
          end
      | SetupWaitingM6 =>
          match process_m6 v response with
          | (v, Err e) => (s <| pair_setup := Some v |>, Err (SetupFailed e))
          | (v, Ok secret) =>
              (s <| pair_setup := Some v |> <| session_secret := Some secret |>
                 <| pair_setup_state := SetupComplete |>, Ok None)
          end
      | _ => (s, Err WrongStage)
      end
  end.

Definition start_transient_pairing_with_pin (s : PairingSession) (pin : list Z) (a : Z)
  : PairingSession * Result (list Z) SessionError :=
  match transient_setup s with
  | Some _ => (s, Err AlreadyStarted)
  | None =>
      match generate_m1 p (new_transient_with_pin pin) a with
      | (_, Err e) => (s, Err (SetupFailed e))
      | (v, Ok m1) =>
          (s <| transient_setup := Some v |> <| transient_state := TransientWaitingM2 |>, Ok m1)
      end
  end.
Definition start_transient_pairing (s : PairingSession) (a : Z)
  : PairingSession * Result (list Z) SessionError :=
  match transient_setup s with
  | Some _ => (s, Err AlreadyStarted)
  | None => start_transient_pairing_with_pin s (lit "3939") a
  end.
Definition transient_pairing_start (s : PairingSession) (pin : list Z) (a : Z)
  : PairingSession * Result PairingStep SessionError :=
  match start_transient_pairing_with_pin s pin a with
  | (s, Ok m1) => (s, Ok (Send m1))
  | (s, Err e) => (s, Err e)
  end.

Definition continue_transient_pairing (s : PairingSession) (response : list Z)
  : PairingSession * Result (option (list Z)) SessionError :=
  match transient_setup s with
  | None => (s, Err NotStarted)
  | Some v =>
      match transient_state s with
      | TransientWaitingM2 =>
          match PairSetup.process_m2 v response with
          | (v, Err e) => (s <| transient_setup := Some v |>, Err (SetupFailed e))
          | (v, Ok _) =>
              match PairSetup.generate_m3 v with
              | (v, Err e) => (s <| transient_setup := Some v |>, Err (SetupFailed e))
              | (v, Ok m3) =>
                  (s <| transient_setup := Some v |> <| transient_state := TransientWaitingM4 |>,
                   Ok (Some m3))
              end
          end
      | TransientWaitingM4 =>
          match PairSetup.process_m4 v response with
          | (v, Err e) => (s <| transient_setup := Some v |>, Err (SetupFailed e))
          | (v, Ok _) =>
              match complete_transient v with
              | (v, Err e) => (s <| transient_setup := Some v |>, Err (SetupFailed e))
              | (v, Ok secret) =>
                  (s <| transient_setup := Some v |> <| session_secret := Some secret |>
                     <| session_keys := Some (derive_control_keys secret) |>
                     <| transient_state := TransientComplete |>, Ok None)
              end
          end
      | _ => (s, Err WrongStage)
      end
  end.
Definition transient_pairing_continue (s : PairingSession) (response : list Z)
  : PairingSession * Result PairingStep SessionError :=
  match continue_transient_pairing s response with
  | (s, Err e) => (s, Err e)
  | (s, Ok (Some next)) => (s, Ok (Send next))
  | (s, Ok None) =>
      match take_session_keys s with
      | (s, Some keys) => (s, Ok (CompleteWith keys))
      | (s, None) => (s, Err NoKeys)
      end
  end.

(** The ephemeral key pair is an input. *)
Definition start_pair_verify (s : PairingSession) (secret : list Z)
  : PairingSession * Result (list Z) SessionError :=
  match pair_verify s with
  | Some _ => (s, Err AlreadyStarted)
  | None =>
      match PairVerify.generate_m1 (new_verify (identity s) None) secret with
      | (_, Err e) => (s, Err (VerifyFailed e))
      | (v, Ok m1) => (s <| pair_verify := Some v |> <| pair_verify_state := VerifyWaitingM2 |>, Ok m1)
      end
  end.

Definition continue_pair_verify (s : PairingSession) (response : list Z)
  : PairingSession * Result (option (list Z)) SessionError :=
  match pair_verify s with
  | None => (s, Err NotStarted)
  | Some v =>
      match pair_verify_state s with
      | VerifyWaitingM2 =>
          match PairVerify.process_m2 v response with
          | (v, Err e) => (s <| pair_verify := Some v |>, Err (VerifyFailed e))
          | (v, Ok _) =>
              match PairVerify.generate_m3 v with
              | (v, Err e) => (s <| pair_verify := Some v |>, Err (VerifyFailed e))
              | (v, Ok m3) =>
                  (s <| pair_verify := Some v |> <| pair_verify_state := VerifyWaitingM4 |>, Ok (Some m3))
              end
          end
      | VerifyWaitingM4 =>
          match PairVerify.process_m4 v response with
          | (v, Err e) => (s <| pair_verify := Some v |>, Err (VerifyFailed e))
          | (v, Ok keys) =>
              (s <| pair_verify := Some v |> <| session_keys := Some keys |>
                 <| pair_verify_state := VerifyComplete |>, Ok None)
          end
      | _ => (s, Err WrongStage)
      end
  end.

Definition start_fairplay (s : PairingSession) : PairingSession * Result (list Z) SessionError :=
  match fairplay s with
  | Some _ => (s, Err AlreadyStarted)
  | None =>
      match generate_phase1 new_fairplay with
      | (_, Err e) => (s, Err (FairPlayFailed e))
      | (f, Ok m) => (s <| fairplay := Some f |> <| fairplay_state := WaitingPhase1Response |>, Ok m)
      end
  end.
Definition continue_fairplay (s : PairingSession) (response : list Z)
  : PairingSession * Result (option (list Z)) SessionError :=
  match fairplay s with
  | None => (s, Err NotStarted)
  | Some f =>
      match fairplay_state s with
      | WaitingPhase1Response =>
          match process_phase1_response f response with
          | (f, Err e) => (s <| fairplay := Some f |>, Err (FairPlayFailed e))
          | (f, Ok _) =>
              match generate_phase3 f with
              | (f, Err e) => (s <| fairplay := Some f |>, Err (FairPlayFailed e))
              | (f, Ok m) =>
                  (s <| fairplay := Some f |> <| fairplay_state := WaitingPhase3Response |>, Ok (Some m))
              end
          end
      | WaitingPhase3Response =>
          match process_phase3_response f response with
          | (f, Err e) => (s <| fairplay := Some f |>, Err (FairPlayFailed e))
          | (f, Ok _) => (s <| fairplay := Some f |> <| fairplay_state := FpComplete |>, Ok None)
          end
      | _ => (s, Err WrongStage)
      end
  end.
End Session.
End PairingSession.

(** ** Pairing session: agreement, and where the keys come from

    With the accessory of the tests the transient exchange hands out the keys
    the accessory derives; whatever is answered, the keys and the secret a
    session holds were derived by an exchange that completed. *)
Import ControlCipher CipherProps PairVerify Srp PairSetup PairSetupProps FairPlay PairingSession.

Module PairingSessionProps.

(** C23: Transient pairing of a new session with an accessory that holds the same
    PIN takes two answers: the first step sends M3, the second hands out the
    control keys of the secret the accessory holds; the session then keeps that
    secret and reports its transient exchange as complete. *)
Theorem transient_session_agrees (p : SrpParams) `{Sha512} `{Aead} `{Curves}
    (method : Features.AuthMethod) (identity code seed salt : list Z) (a b : Z) :
  Znumtheory.prime (n p) -> g p mod n p <> 0 -> n p < 2 ^ 3072 ->
  0 <= a -> 0 <= b -> length salt = 16%nat -> usable p code seed salt a b ->
  let accessory := new_setup_server p code seed salt b in
  exists s1 s2 s3 m1 m3 server m4 secret,
    transient_pairing_start p (with_identity method identity) code a = (s1, Ok (Send m1)) /\
    transient_pairing_continue s1 (server_m2 accessory) = (s2, Ok (Send m3)) /\
    server_m4 accessory m3 = Ok (server, m4) /\
    transient_pairing_continue s2 m4 = (s3, Ok (CompleteWith (derive_control_keys secret))) /\
    ss_shared_secret server = Some secret /\ session_secret s3 = Some secret /\
    is_transient_complete s3 = true.
Proof.
  intros Hn Hg Hsize Ha Hb Hsalt Hu accessory.
  destruct (reaches_m4 p Hn Hg Hsize code seed salt a b Ha Hb Hsalt true Hu)
    as (proof & m1 & v1 & v2 & v3 & m4 & E1 & E2 & E3 & E4 & E5).
  fold (new_transient_with_pin code) in E1. change (PairSetupProps.accessory p code seed salt b) with accessory in *.
  set (s1 := (with_identity method identity) <| transient_setup := Some v1 |>
               <| transient_state := TransientWaitingM2 |>).
  set (s2 := s1 <| transient_setup := Some v3 |> <| transient_state := TransientWaitingM4 |>).
  assert (transient_pairing_continue s1 (server_m2 accessory) = (s2, Ok (Send (m3_of p code a proof)))) as H2.
  { unfold transient_pairing_continue, continue_transient_pairing.
    cbn [s1 transient_setup transient_state upd]. by rewrite E2, E3. }
  exists s1, s2. do 6 eexists. split.
  { unfold transient_pairing_start, start_transient_pairing_with_pin. cbn [with_identity transient_setup].
    by rewrite E1. }
  split; [exact H2|]. split; [exact E4|]. split.
  { unfold transient_pairing_continue, continue_transient_pairing.
    cbn [s2 transient_setup transient_state upd]. rewrite E5. reflexivity. }
  split_and!; reflexivity.
Qed.

(** Handing out the keys takes them out of the session: after a transient
    exchange has completed this way, [is_complete] is false. *)
Lemma handed_out_keys_are_gone `{Sha512} `{Aead} `{Curves} s response s' keys :
  transient_pairing_continue s response = (s', Ok (CompleteWith keys)) ->
  PairingSession.is_complete s' = false.
Proof.
  unfold transient_pairing_continue.
  destruct (continue_transient_pairing s response) as [s1 [[m|]|e]]; [done| |done].
  unfold take_session_keys. destruct (session_keys s1); [|done]. by intros [= <- _].
Qed.

Lemma transient_session_agrees_witness :
  let accessory := @new_setup_server toy_group toy_sha (lit "3939") [6] toy_salt 4 in
  exists s1 s2 s3 m1 m3 server m4 secret,
    transient_pairing_start toy_group (with_identity Features.HomeKitTransient [7]) (lit "3939") 5
    = (s1, Ok (Send m1)) /\
    @transient_pairing_continue toy_sha PairVerifyProps.toy_curves s1 (server_m2 accessory)
    = (s2, Ok (Send m3)) /\
    @server_m4 toy_sha PairVerifyProps.toy_curves accessory m3 = Ok (server, m4) /\
    @transient_pairing_continue toy_sha PairVerifyProps.toy_curves s2 m4
    = (s3, Ok (CompleteWith (@derive_control_keys PairVerifyProps.toy_curves secret))) /\
    ss_shared_secret server = Some secret /\ session_secret s3 = Some secret /\
    is_transient_complete s3 = true.
Proof.
  apply (@transient_session_agrees toy_group toy_sha toy_aead PairVerifyProps.toy_curves
           Features.HomeKitTransient [7] (lit "3939") [6] toy_salt 5 4).
  - exact Znumtheory.prime_3.
  - vm_compute. discriminate.
  - vm_compute. reflexivity.
  - lia.
  - lia.
  - reflexivity.
  - split; vm_compute; discriminate.
Defined.

(** A session's pair-verify starts without any long-term key of the receiver,
    also when its pair-setup has just stored one. *)
Lemma verify_knows_no_key `{Aead} `{Curves} s secret s' m1 :
  start_pair_verify s secret = (s', Ok m1) ->
  exists v, pair_verify s' = Some v /\ PairVerify.server_ltpk v = None.
Proof.
  unfold start_pair_verify. destruct (pair_verify s); [done|]. intros [= <- _]. eauto.
Qed.

(** ** Whatever is answered *)

Inductive SessionOp :=
| StartSetup (pin : list Z) (a : Z)
| ContinueSetup (response : list Z)
| StartTransient (pin : list Z) (a : Z)
| ContinueTransient (response : list Z)
| TransientStep (response : list Z)
| StartVerify (secret : list Z)
| ContinueVerify (response : list Z)
| StartFairPlay
| ContinueFairPlay (response : list Z)
| TakeKeys.

Definition answer_of (o : SessionOp) : list (list Z) :=
  match o with
  | ContinueSetup r | ContinueTransient r | TransientStep r => [r]
  | _ => []
  end.
Definition answers (os : list SessionOp) : list (list Z) := os ≫= answer_of.

Section Runs.
Context (p : SrpParams) `{Sha512} `{Aead} `{Curves}.

Definition session_op (s : PairingSession) (o : SessionOp) : PairingSession :=
  match o with
  | StartSetup pin a => fst (start_pair_setup p s pin a)
  | ContinueSetup r => fst (continue_pair_setup s r)
  | StartTransient pin a => fst (start_transient_pairing_with_pin p s pin a)
  | ContinueTransient r => fst (continue_transient_pairing s r)
  | TransientStep r => fst (transient_pairing_continue s r)
  | StartVerify secret => fst (start_pair_verify s secret)
  | ContinueVerify r => fst (continue_pair_verify s r)
  | StartFairPlay => fst (start_fairplay s)
  | ContinueFairPlay r => fst (continue_fairplay s r)
  | TakeKeys => fst (take_session_keys s)
  end.

(** [v] was reached by the operations of pair-setup on the given answers. *)
Definition ran (rs : list (list Z)) (transient : bool) (v : PairSetup) : Prop :=
  exists code ops, v = fold_left (apply_op p) ops (fresh code transient) /\
    (forall r, OpM4 r ∈ ops -> r ∈ rs).

(** A completed pair-setup whose secret is [secret]. *)
Definition finished (v : PairSetup) (secret : list Z) : Prop :=
  state v = PairSetup.Complete /\ exists proof, srp_proof v = Some proof /\ Srp.shared_secret proof = secret.

Definition backed_secret (s : PairingSession) (secret : list Z) : Prop :=
  (exists v, pair_setup s = Some v /\ pair_setup_state s = SetupComplete /\ finished v secret) \/
  (exists v, transient_setup s = Some v /\ transient_state s = TransientComplete /\ finished v secret).
Definition backed_keys (s : PairingSession) (k : SessionKeys) : Prop :=
  (exists v secret, transient_setup s = Some v /\ transient_state s = TransientComplete /\
     finished v secret /\ k = derive_control_keys secret) \/
  (exists v secret, pair_verify s = Some v /\ pair_verify_state s = VerifyComplete /\
     PairVerify.shared_secret v = Some secret /\ k = derive_control_keys secret).

Record backed (rs : list (list Z)) (s : PairingSession) : Prop := {
  setup_ran v : pair_setup s = Some v -> ran rs false v;
  transient_ran v : transient_setup s = Some v -> ran rs true v;
  secret_backed x : session_secret s = Some x -> backed_secret s x;
  keys_backed k : session_keys s = Some k -> backed_keys s k;
}.

Lemma ran_mono rs rs' b v : rs ⊆ rs' -> ran rs b v -> ran rs' b v.
Proof. intros Hs (code & ops & Hv & Hr). exists code, ops. split; [done|]. intros r Hi. by apply Hs, Hr. Qed.

Lemma ran_op rs b v o :
  (forall r, o = OpM4 r -> r ∈ rs) -> ran rs b v -> ran rs b (apply_op p v o).
Proof.
  intros Ho (code & ops & -> & Hr). exists code, (ops ++ [o]). split.
  - by rewrite fold_left_app.
  - intros r [Hi|Hi%list_elem_of_singleton]%elem_of_app; eauto.
Qed.

(** Every operation of pair-setup the session calls is one of [apply_op]. *)
Lemma ran_m2 rs b v r v' x : ran rs b v -> PairSetup.process_m2 v r = (v', x) -> ran rs b v'.
Proof. intros Hv E. replace v' with (apply_op p v (OpM2 r)) by (cbn; by rewrite E). by apply ran_op. Qed.
Lemma ran_m3 rs b v v' x : ran rs b v -> PairSetup.generate_m3 v = (v', x) -> ran rs b v'.
Proof. intros Hv E. replace v' with (apply_op p v OpM3) by (cbn; by rewrite E). by apply ran_op. Qed.
Lemma ran_m4 rs b v r v' x : r ∈ rs -> ran rs b v -> PairSetup.process_m4 v r = (v', x) -> ran rs b v'.
Proof.
  intros Hr Hv E. replace v' with (apply_op p v (OpM4 r)) by (cbn; by rewrite E).
  apply ran_op; [|done]. by intros ? [= <-].
Qed.
Lemma ran_m5 rs b v seed v' x : ran rs b v -> generate_m5 v seed = (v', x) -> ran rs b v'.
Proof.
  intros Hv E. replace v' with (apply_op p v (OpM5 (utf8_encode (uuid_of (ed_public seed))) seed)).
  - by apply ran_op.
  - unfold generate_m5 in E. unfold apply_op. by rewrite E.
Qed.
Lemma ran_m6 rs b v r v' x : ran rs b v -> process_m6 v r = (v', x) -> ran rs b v'.
Proof. intros Hv E. replace v' with (apply_op p v (OpM6 r)) by (cbn; by rewrite E). by apply ran_op. Qed.
Lemma ran_transient rs b v v' x : ran rs b v -> complete_transient v = (v', x) -> ran rs b v'.
Proof. intros Hv E. replace v' with (apply_op p v OpTransient) by (cbn; by rewrite E). by apply ran_op. Qed.

Lemma process_m6_finishes v r v' secret : process_m6 v r = (v', Ok secret) -> finished v' secret.
Proof.
  unfold process_m6, open_answer, check_m6, refuse, fail. intros E.
  repeat (case_match; try done). simplify_eq/=. split; [done|]. eexists. split; [|done]. done.
Qed.
Lemma complete_transient_finishes v v' secret : complete_transient v = (v', Ok secret) -> finished v' secret.
Proof.
  unfold complete_transient, refuse, fail. intros E.
  repeat (case_match; try done). simplify_eq/=. split; [done|]. eexists. split; [|done]. done.
Qed.
Lemma verify_m4_derives v r v' k :
  PairVerify.process_m4 v r = (v', Ok k) ->
  exists secret, PairVerify.shared_secret v' = Some secret /\ k = derive_control_keys secret.
Proof.
  unfold PairVerify.process_m4, derive_session_keys. intros E.
  repeat (case_match; try done). simplify_eq/=. eauto.
Qed.

(** A step of an unfinished pair-setup touches nothing the other exchanges gave. *)
Lemma setup_moves rs s s' v :
  backed rs s -> pair_setup s = None \/ pair_setup_state s <> SetupComplete -> pair_setup s' = Some v -> ran rs false v ->
  transient_setup s' = transient_setup s -> transient_state s' = transient_state s ->
  pair_verify s' = pair_verify s -> pair_verify_state s' = pair_verify_state s ->
  session_secret s' = session_secret s -> session_keys s' = session_keys s -> backed rs s'.
Proof.
  intros [B1 B2 B3 B4] Hst Hv Hran Et Ets Ev Evs Ex Ek. constructor.
  - rewrite Hv. by intros ? [= <-].
  - rewrite Et. exact B2.
  - rewrite Ex. intros x Hx. destruct (B3 x Hx) as [(? & ? & ? & ?)|(w & ? & ? & ?)]; [destruct Hst; congruence|].
    right. exists w. by rewrite Et, Ets.
  - rewrite Ek. intros k Hk. unfold backed_keys. rewrite Et, Ets, Ev, Evs. by apply B4.
Qed.

Lemma transient_moves rs s s' v :
  backed rs s -> transient_setup s = None \/ transient_state s <> TransientComplete -> transient_setup s' = Some v -> ran rs true v ->
  pair_setup s' = pair_setup s -> pair_setup_state s' = pair_setup_state s ->
  pair_verify s' = pair_verify s -> pair_verify_state s' = pair_verify_state s ->
  session_secret s' = session_secret s -> session_keys s' = session_keys s -> backed rs s'.
Proof.
  intros [B1 B2 B3 B4] Hst Hv Hran Et Ets Ev Evs Ex Ek. constructor.
  - rewrite Et. exact B1.
  - rewrite Hv. by intros ? [= <-].
  - rewrite Ex. intros x Hx. destruct (B3 x Hx) as [(w & ? & ? & ?)|(? & ? & ? & ?)]; [|destruct Hst; congruence].
    left. exists w. by rewrite Et, Ets.
  - rewrite Ek. intros k Hk. destruct (B4 k Hk) as [(? & ? & ? & ? & ?)|B]; [destruct Hst; congruence|].
    right. by rewrite Ev, Evs.
Qed.

Lemma verify_moves rs s s' :
  backed rs s -> pair_verify s = None \/ pair_verify_state s <> VerifyComplete ->
  pair_setup s' = pair_setup s -> pair_setup_state s' = pair_setup_state s ->
  transient_setup s' = transient_setup s -> transient_state s' = transient_state s ->
  session_secret s' = session_secret s -> session_keys s' = session_keys s -> backed rs s'.
Proof.
  intros [B1 B2 B3 B4] Hst Et Ets Ev Evs Ex Ek. constructor.
  - rewrite Et. exact B1.
  - rewrite Ev. exact B2.
  - rewrite Ex. unfold backed_secret. rewrite Et, Ets, Ev, Evs. exact B3.
  - rewrite Ek. intros k Hk. destruct (B4 k Hk) as [B|(? & ? & ? & ? & ?)]; [|destruct Hst; congruence].
    left. by rewrite Ev, Evs.
Qed.

(** Fields no exchange owns. *)
Lemma keys_leave rs s s' :
  backed rs s -> pair_setup s' = pair_setup s -> pair_setup_state s' = pair_setup_state s ->
  transient_setup s' = transient_setup s -> transient_state s' = transient_state s ->
  pair_verify s' = pair_verify s -> pair_verify_state s' = pair_verify_state s ->
  session_secret s' = session_secret s ->
  session_keys s' = session_keys s \/ session_keys s' = None -> backed rs s'.
Proof.
  intros [B1 B2 B3 B4] Es Ess Et Ets Ev Evs Ex Ek. constructor.
  - rewrite Es. exact B1.
  - rewrite Et. exact B2.
  - rewrite Ex. unfold backed_secret. rewrite Es, Ess, Et, Ets. exact B3.
  - unfold backed_keys. rewrite Et, Ets, Ev, Evs. destruct Ek as [->| ->]; [exact B4|done].
Qed.

Lemma started_setup rs transient code a v x :
  generate_m1 p (fresh code transient) a = (v, x) -> ran rs transient v.
Proof.
  intros E. exists code, [OpM1 transient a]. split; [|by intros r [=]%list_elem_of_singleton].
  change (v = fst (generate_m1 p (fresh code transient) a)). by rewrite E.
Qed.

(** The operations named by the equations in the context, last one first. *)
Ltac ran_step :=
  match goal with
  | Hv : ran _ _ ?v |- ran _ _ ?v => exact Hv
  | E : PairSetup.process_m2 _ _ = (?v, _) |- ran _ _ ?v => eapply ran_m2, E
  | E : PairSetup.generate_m3 _ = (?v, _) |- ran _ _ ?v => eapply ran_m3, E
  | E : PairSetup.process_m4 _ _ = (?v, _) |- ran _ _ ?v => eapply ran_m4, E; [assumption|]
  | E : generate_m5 _ _ = (?v, _) |- ran _ _ ?v => eapply ran_m5, E
  | E : process_m6 _ _ = (?v, _) |- ran _ _ ?v => eapply ran_m6, E
  | E : complete_transient _ = (?v, _) |- ran _ _ ?v => eapply ran_transient, E
  end.
Ltac moves l B Es := cbn [fst]; eapply l; [exact B|right; by rewrite Es|reflexivity|repeat ran_step|reflexivity..].

Lemma continue_setup_backed rs s r :
  r ∈ rs -> backed rs s -> backed rs (fst (continue_pair_setup s r)).
Proof.
  intros Hr B. unfold continue_pair_setup.
  destruct (pair_setup s) as [v|] eqn:Ev; [|done]. pose proof (setup_ran _ _ B v Ev) as Hv.
  destruct (pair_setup_state s) eqn:Es; try done.
  - destruct (PairSetup.process_m2 v r) as [v2 [[]|]] eqn:E2;
      [destruct (PairSetup.generate_m3 v2) as [v3 [m|]] eqn:E3|]; moves setup_moves B Es.
  - destruct (PairSetup.process_m4 v r) as [v2 [[]|]] eqn:E2;
      [destruct (generate_m5 v2 (identity s)) as [v3 [m|]] eqn:E3|]; moves setup_moves B Es.
  - destruct (process_m6 v r) as [v2 [secret|]] eqn:E2; [|moves setup_moves B Es].
    apply process_m6_finishes in E2 as Hf. destruct B as [B1 B2 B3 B4]. constructor; cbn.
    + intros ? [= <-]. repeat ran_step.
    + exact B2.
    + intros x [= <-]. left. exists v2. auto.
    + exact B4.
Qed.

Lemma continue_transient_backed rs s r :
  r ∈ rs -> backed rs s -> backed rs (fst (continue_transient_pairing s r)).
Proof.
  intros Hr B. unfold continue_transient_pairing.
  destruct (transient_setup s) as [v|] eqn:Ev; [|done]. pose proof (transient_ran _ _ B v Ev) as Hv.
  destruct (transient_state s) eqn:Es; try done.
  - destruct (PairSetup.process_m2 v r) as [v2 [[]|]] eqn:E2;
      [destruct (PairSetup.generate_m3 v2) as [v3 [m|]] eqn:E3|]; moves transient_moves B Es.
  - destruct (PairSetup.process_m4 v r) as [v2 [[]|]] eqn:E2; [|moves transient_moves B Es].
    destruct (complete_transient v2) as [v3 [secret|]] eqn:E3; [|moves transient_moves B Es].
    apply complete_transient_finishes in E3 as Hf. destruct B as [B1 B2 B3 B4]. constructor; cbn.
    + exact B1.
    + intros ? [= <-]. repeat ran_step.
    + intros x [= <-]. right. exists v3. auto.
    + intros k [= <-]. left. exists v3, secret. auto.
Qed.

Lemma continue_verify_backed rs s r : backed rs s -> backed rs (fst (continue_pair_verify s r)).
Proof.
  intros B. unfold continue_pair_verify.
  destruct (pair_verify s) as [v|] eqn:Ev; [|done].
  destruct (pair_verify_state s) eqn:Es; try done.
  - destruct (PairVerify.process_m2 v r) as [v2 [[]|]] eqn:E2;
      [destruct (PairVerify.generate_m3 v2) as [v3 [m|]] eqn:E3|];
      cbn [fst]; (eapply verify_moves; [exact B|right; by rewrite Es|reflexivity..]).
  - destruct (PairVerify.process_m4 v r) as [v2 [k|]] eqn:E2; cbn [fst];
      [|eapply verify_moves; [exact B|right; by rewrite Es|reflexivity..]].
    apply verify_m4_derives in E2 as (secret & Hs & Hk).
    destruct B as [B1 B2 B3 B4]. constructor; cbn; try done.
    intros ? [= <-]. right. eauto 6.
Qed.

Lemma session_op_backed rs s o :
  answer_of o ⊆ rs -> backed rs s -> backed rs (session_op s o).
Proof.
  intros Hr B. assert (forall r, answer_of o = [r] -> r ∈ rs) as Hin.
  { intros r E. apply Hr. rewrite E. by left. }
  destruct o; cbn [session_op].
  - unfold start_pair_setup. destruct (pair_setup s) eqn:Es; [done|].
    destruct (generate_m1 p (new_setup _) a) as [v [m|]] eqn:E; [|done]. cbn [fst].
    eapply setup_moves; [exact B|by left|reflexivity|by eapply started_setup|reflexivity..].
  - by apply continue_setup_backed; auto.
  - unfold start_transient_pairing_with_pin. destruct (transient_setup s) eqn:Es; [done|].
    destruct (generate_m1 p (new_transient_with_pin _) a) as [v [m|]] eqn:E; [|done]. cbn [fst].
    eapply transient_moves; [exact B|by left|reflexivity|by eapply started_setup|reflexivity..].
  - by apply continue_transient_backed; auto.
  - unfold transient_pairing_continue. pose proof (continue_transient_backed rs s response (Hin _ eq_refl) B) as B'.
    destruct (continue_transient_pairing s response) as [s' [[m|]|]]; cbn [fst] in *; [done| |done].
    unfold take_session_keys. destruct (session_keys s'); cbn [fst];
      (eapply keys_leave; [exact B'|reflexivity..|by right]).
  - unfold start_pair_verify. destruct (pair_verify s) eqn:Es; [done|].
    destruct (PairVerify.generate_m1 _ _) as [v [m|]]; [|done]. cbn [fst].
    eapply verify_moves; [exact B|by left|reflexivity..].
  - by apply continue_verify_backed.
  - unfold start_fairplay. repeat case_match; cbn [fst]; try done;
      (eapply keys_leave; [exact B|reflexivity..|by left]).
  - unfold continue_fairplay. repeat case_match; cbn [fst]; try done;
      (eapply keys_leave; [exact B|reflexivity..|by left]).
  - eapply keys_leave; [exact B|reflexivity..|by right].
Qed.

Lemma backed_mono rs rs' s : rs ⊆ rs' -> backed rs s -> backed rs' s.
Proof.
  intros Hs [B1 B2 B3 B4]. constructor; [| |exact B3|exact B4]; intros v Hv; (eapply ran_mono; [exact Hs|auto]).
Qed.

Lemma runs_backed method identity os :
  backed (answers os) (fold_left session_op os (with_identity method identity)).
Proof.
  induction os as [|o os IH] using rev_ind; [by constructor|].
  rewrite fold_left_app. unfold answers. rewrite bind_app. cbn [fold_left mbind list_bind].
  apply session_op_backed; [set_solver|]. eapply backed_mono; [|exact IH]. set_solver.
Qed.

(** A completed pair-setup saw an M4 with the expected proof. *)
Lemma ran_proved rs b v :
  ran rs b v -> state v = PairSetup.Complete ->
  exists m4 t proof, m4 ∈ rs /\ Tlv.parse m4 = Ok t /\ srp_proof v = Some proof /\
    Tlv.get t Tlv.Proof_ = Some (expected_server_proof proof).
Proof.
  intros (code & ops & Hv & Hr) Hs.
  assert (authenticated ops v) as Ha.
  { subst v. clear Hs Hr. induction ops as [|o ops IH] using rev_ind; [done|].
    rewrite fold_left_app. by apply op_authenticated. }
  unfold authenticated in Ha. rewrite Hs in Ha. destruct Ha as [(m4 & t & proof & Hi & Ht & Hp & Hg & _) _].
  exists m4, t, proof. auto.
Qed.

(** C22: Whatever is called on a session and whatever is answered, control keys in
    it were derived either from the SRP secret of a transient exchange, one of
    the answers being an M4 with the proof that depends on that secret, or from
    the secret of a pair-verify that completed.  A pair-setup alone never
    leaves keys. *)
Theorem session_keys_are_backed method identity os k :
  let s := fold_left session_op os (with_identity method identity) in
  session_keys s = Some k ->
  (exists m4 t proof, m4 ∈ answers os /\ Tlv.parse m4 = Ok t /\
     Tlv.get t Tlv.Proof_ = Some (expected_server_proof proof) /\
     (exists v, transient_setup s = Some v /\ srp_proof v = Some proof) /\
     k = derive_control_keys (Srp.shared_secret proof)) \/
  (exists v secret, pair_verify s = Some v /\ is_pair_verify_complete s = true /\
     PairVerify.shared_secret v = Some secret /\ k = derive_control_keys secret).
Proof.
  intros s Hk. pose proof (runs_backed method identity os) as B. fold s in B.
  destruct (keys_backed _ _ B k Hk) as [(v & secret & Hv & _ & [Hc (proof & Hp & <-)] & ->)
    |(v & secret & Hv & Hst & Hx & ->)].
  - left. destruct (ran_proved _ _ _ (transient_ran _ _ B v Hv) Hc) as (m4 & t & proof' & Hi & Ht & Hp' & Hg).
    rewrite Hp in Hp'. simplify_eq. exists m4, t, proof'. eauto 8.
  - right. exists v, secret. split; [done|]. split; [|done].
    unfold is_pair_verify_complete. by apply bool_decide_eq_true.
Qed.
End Runs.

(** The transient exchange with the accessory of the tests, as session calls. *)
Definition toy_run : list SessionOp :=
  let s := @new_setup_server toy_group toy_sha (lit "3939") [6] toy_salt 4 in
  let before := fold_left (@session_op toy_group toy_sha toy_aead PairVerifyProps.toy_curves)
                  [StartTransient (lit "3939") 5] (with_identity Features.HomeKitTransient [7]) in
  [StartTransient (lit "3939") 5; ContinueTransient (server_m2 s);
   ContinueTransient
     match @continue_transient_pairing toy_sha PairVerifyProps.toy_curves before (server_m2 s) with
     | (_, Ok (Some m3)) => match @server_m4 toy_sha PairVerifyProps.toy_curves s m3 with
                            | Ok (_, m4) => m4 | Err _ => [] end
     | _ => [] end].
Definition toy_keys : SessionKeys :=
  default {| write_key := []; read_key := [] |}
    (session_keys (fold_left (@session_op toy_group toy_sha toy_aead PairVerifyProps.toy_curves) toy_run
       (with_identity Features.HomeKitTransient [7]))).

Lemma session_keys_are_backed_witness :
  let s := fold_left (@session_op toy_group toy_sha toy_aead PairVerifyProps.toy_curves) toy_run
             (with_identity Features.HomeKitTransient [7]) in
  session_keys s = Some toy_keys /\
  ((exists m4 t proof, m4 ∈ answers toy_run /\ Tlv.parse m4 = Ok t /\
     Tlv.get t Tlv.Proof_ = Some (expected_server_proof proof) /\
     (exists v, transient_setup s = Some v /\ srp_proof v = Some proof) /\
     toy_keys = @derive_control_keys PairVerifyProps.toy_curves (Srp.shared_secret proof)) \/
  (exists v secret, pair_verify s = Some v /\ is_pair_verify_complete s = true /\
     PairVerify.shared_secret v = Some secret /\
     toy_keys = @derive_control_keys PairVerifyProps.toy_curves secret)).
Proof.
  intros s. assert (session_keys s = Some toy_keys) as Hk by (vm_compute; reflexivity).
  split; [exact Hk|].
  exact (@session_keys_are_backed toy_group toy_sha toy_aead PairVerifyProps.toy_curves
           Features.HomeKitTransient [7] toy_run toy_keys Hk).
Defined.
End PairingSessionProps.
