(* ===== verification/Preferences.v ===== *)
(** * Shell preferences ([apps/openaircast/src/preferences.rs])

    The settings file with its two schemas and the legacy shortcut file, the
    atomic save, the debounce, and the worker thread behind a bounded queue.
    [serde_json] is a third-party package: the class [SettingsJson] says what
    the code relies on.  What an operating-system call does is an input of the
    save ([Fault]); the clock readings of the worker are inputs of its
    iterations. *)

From S2P Require Import Prelude Float32 Text AppState Reducer.

Module Preferences.

Definition STANDARD_DEBOUNCE_MS : Z := 500.
Definition GEOMETRY_DEBOUNCE_MS : Z := 1000.
Definition COMMAND_CHANNEL_CAPACITY : nat := 16.

Definition default_preferences : Preferences :=
  {| pref_schema_version := PREFERENCES_SCHEMA_VERSION; pref_hotkey := default_hotkey;
     pref_theme := ThemeSystem; pref_locale := LocaleSystem; pref_advanced_information := false;
     pref_window := default_geometry; pref_last_page := PageHome; pref_close_to_tray := true;
     pref_launch_at_startup := false |}.

Inductive PreferencesError :=
| InvalidSchemaVersion (found : Z) | CreateDirectory | Serialize | WriteTemporary | Sync | Replace.
Inductive PreferencesUnavailable := PrefsBusy | PrefsClosed.

Definition invalid_preferences_notice (summary : string) : UserNotice :=
  {| n_severity := SevWarning; n_code := NoticePreferencesFailed; n_summary := summary;
     n_action := Some ActionOpenSettings |}.
Definition LEGACY_INVALID_NOTICE : string :=
  "The previously saved shortcut was ignored because it is invalid.".
Definition CORRUPT_JSON_NOTICE : string :=
  "Saved settings could not be read and were reset to their defaults.".

(** ** Reading *)

Definition u32_max : Z := 2 ^ 32 - 1.
Definition parse_legacy_hotkey (contents : text) : option HotkeyBinding :=
  match split 44 (trim contents) with
  | m :: k :: rest =>
      modifiers ← parse_uint u32_max (trim m);
      virtual_key ← parse_uint u32_max (trim k);
      if negb (bool_decide (rest = [])) || (virtual_key =? 0) then None
      else Some {| hk_enabled := true; hk_modifiers := modifiers; hk_virtual_key := virtual_key |}
  | _ => None
  end.

Record PreferencesV1 := {
  v1_schema_version : Z;
  v1_hotkey : HotkeyBinding;
  v1_theme : ThemePreference;
  v1_window : WindowGeometry;
  v1_last_page : Page;
  v1_close_to_tray : bool;
  v1_launch_at_startup : bool;
}.
Definition migrate (v : PreferencesV1) : Preferences :=
  {| pref_schema_version := PREFERENCES_SCHEMA_VERSION; pref_hotkey := v1_hotkey v;
     pref_theme := v1_theme v; pref_locale := LocaleSystem; pref_advanced_information := false;
     pref_window := v1_window v; pref_last_page := v1_last_page v;
     pref_close_to_tray := v1_close_to_tray v; pref_launch_at_startup := v1_launch_at_startup v |}.

(** JSON has no notation for the other floats. *)
Definition finite_window (g : WindowGeometry) : bool :=
  f32_is_finite (geo_width g) && f32_is_finite (geo_height g)
  && match geo_x g with Some x => f32_is_finite x | None => true end
  && match geo_y g with Some y => f32_is_finite y | None => true end.

Class SettingsJson := {
  probe : text -> option Z;                    (* [SchemaProbe] *)
  read_v1 : text -> option PreferencesV1;
  read_v2 : text -> option Preferences;
  to_string_pretty : Preferences -> option text;
  read_back v raw : finite_window (pref_window v) = true -> to_string_pretty v = Some raw ->
    probe (raw ++ [LF]) = Some (pref_schema_version v) /\ read_v2 (raw ++ [LF]) = Some v;
}.

(** What the folder holds; a file that cannot be read as text is [None]. *)
Record Disk := { settings_file : option text; temporary_file : option text; legacy_hotkey_file : option text }.
#[export] Instance eta_Disk : Eta Disk := fun d =>
  {| settings_file := settings_file d; temporary_file := temporary_file d;
     legacy_hotkey_file := legacy_hotkey_file d |}.

(** The call that fails during one save, and what a failed write leaves in the
    temporary file. *)
Inductive Fault := NoFault | CreateFails | WriteFails (partial : option text) | SyncFails | ReplaceFails.

Section Repository.
Context `{SettingsJson}.

Definition parse_settings (raw : text) : option Preferences :=
  match probe raw with
  | None => None
  | Some v =>
      if v =? 1 then migrate <$> read_v1 raw
      else if v =? PREFERENCES_SCHEMA_VERSION then read_v2 raw else None
  end.

Definition load (d : Disk) : PreferencesLoad :=
  match settings_file d with
  | Some raw =>
      match parse_settings raw with
      | Some value => {| pl_value := value; pl_notice := None |}
      | None => {| pl_value := default_preferences;
                   pl_notice := Some (invalid_preferences_notice CORRUPT_JSON_NOTICE) |}
      end
  | None =>
      match legacy_hotkey_file d with
      | Some raw =>
          match parse_legacy_hotkey raw with
          | Some hotkey =>
              {| pl_value := {| pref_schema_version := PREFERENCES_SCHEMA_VERSION;
                   pref_hotkey := hotkey; pref_theme := pref_theme default_preferences;
                   pref_locale := pref_locale default_preferences;
                   pref_advanced_information := pref_advanced_information default_preferences;
                   pref_window := pref_window default_preferences;
                   pref_last_page := pref_last_page default_preferences;
                   pref_close_to_tray := pref_close_to_tray default_preferences;
                   pref_launch_at_startup := pref_launch_at_startup default_preferences |};
                 pl_notice := None |}
          | None => {| pl_value := default_preferences;
                       pl_notice := Some (invalid_preferences_notice LEGACY_INVALID_NOTICE) |}
          end
      | None => {| pl_value := default_preferences; pl_notice := None |}
      end
  end.

(** [replace_file]: on failure the temporary file is removed (Windows). *)
Definition replace_file (d : Disk) (fault : Fault) : Disk * Result unit PreferencesError :=
  match fault with
  | ReplaceFails => (d <| temporary_file := None |>, Err Replace)
  | _ => (d <| settings_file := temporary_file d |> <| temporary_file := None |>, Ok tt)
  end.

Definition save_atomic (d : Disk) (value : Preferences) (fault : Fault)
  : Disk * Result unit PreferencesError :=
  if negb (pref_schema_version value =? PREFERENCES_SCHEMA_VERSION)
  then (d, Err (InvalidSchemaVersion (pref_schema_version value)))
  else match fault with
  | CreateFails => (d, Err CreateDirectory)
  | _ =>
      match to_string_pretty value with
      | None => (d, Err Serialize)
      | Some serialized =>
          match fault with
          | WriteFails partial => (d <| temporary_file := partial |>, Err WriteTemporary)
          | SyncFails => (d <| temporary_file := Some (serialized ++ [LF]) |>, Err Sync)
          | _ => replace_file (d <| temporary_file := Some (serialized ++ [LF]) |>) fault
          end
      end
  end.
End Repository.

(** ** Debounce *)

Record PendingSave := { deadline_ms : Z; ps_generation : GenerationId; ps_value : Preferences }.
Record DebounceState := { pending : option PendingSave }.

Definition differs_only_in_window (previous next : Preferences) : bool :=
  (pref_hotkey previous ==? pref_hotkey next) && (pref_theme previous ==? pref_theme next)
  && (pref_locale previous ==? pref_locale next)
  && (pref_advanced_information previous ==? pref_advanced_information next)
  && (pref_last_page previous ==? pref_last_page next)
  && (pref_close_to_tray previous ==? pref_close_to_tray next)
  && (pref_launch_at_startup previous ==? pref_launch_at_startup next).

Definition geometry_only (d : DebounceState) (value : Preferences) (reference : option Preferences) : bool :=
  match pending d with
  | Some p => differs_only_in_window (ps_value p) value
  | None => match reference with Some r => differs_only_in_window r value | None => false end
  end.

Definition offer (d : DebounceState) (now : Z) (generation : GenerationId) (value : Preferences)
    (reference : option Preferences) : DebounceState * Z :=
  let fresh :=
    let delay := if geometry_only d value reference then GEOMETRY_DEBOUNCE_MS else STANDARD_DEBOUNCE_MS in
    let deadline := wrap 64 (now + delay) in
    ({| pending := Some {| deadline_ms := deadline; ps_generation := generation; ps_value := value |} |},
     deadline) in
  match pending d with
  | Some p => if generation <? ps_generation p then (d, deadline_ms p) else fresh
  | None => fresh
  end.

Definition peek_deadline (d : DebounceState) : option Z := deadline_ms <$> pending d.
Definition peek_pending (d : DebounceState) : option Preferences := ps_value <$> pending d.
Definition take_pending (d : DebounceState) : DebounceState * option (GenerationId * Preferences) :=
  ({| pending := None |}, (fun p => (ps_generation p, ps_value p)) <$> pending d).
Definition take_due (d : DebounceState) (now : Z) : DebounceState * option (GenerationId * Preferences) :=
  match pending d with
  | Some p => if deadline_ms p <=? now then take_pending d else (d, None)
  | None => (d, None)
  end.

(** ** The worker and its queue *)

Inductive PreferencesCommand := Save (generation : GenerationId) (value : Preferences) | FlushAndShutdown.

(** [reports] is every outcome the worker tried to send to the shell. *)
Record Worker := {
  queue : list PreferencesCommand;
  senders_gone : bool;
  running : bool;
  debounce : DebounceState;
  last_committed : option Preferences;
  disk : Disk;
  reports : list PreferencesEvent;
  acknowledged : bool;
}.
#[export] Instance eta_Worker : Eta Worker := fun w =>
  {| queue := queue w; senders_gone := senders_gone w; running := running w; debounce := debounce w;
     last_committed := last_committed w; disk := disk w; reports := reports w;
     acknowledged := acknowledged w |}.
(** [spawned]: whether the thread could be started; if not, its receiver is gone. *)
Definition spawn_preferences_worker (d : Disk) (spawned : bool) : Worker :=
  {| queue := []; senders_gone := false; running := spawned; debounce := {| pending := None |};
     last_committed := None; disk := d; reports := []; acknowledged := false |}.

(** [SyncSender::try_send]; the receiver is dropped when the worker ends. *)
Definition try_send (w : Worker) (c : PreferencesCommand) : Worker * Result unit PreferencesUnavailable :=
  if negb (running w) then (w, Err PrefsClosed)
  else if (COMMAND_CHANNEL_CAPACITY <=? length (queue w))%nat then (w, Err PrefsBusy)
  else (w <| queue := queue w ++ [c] |>, Ok tt).
Definition try_schedule (w : Worker) (g : GenerationId) (v : Preferences) := try_send w (Save g v).
Definition try_flush_and_shutdown (w : Worker) := try_send w FlushAndShutdown.

Section RunWorker.
Context `{SettingsJson}.

Definition commit (w : Worker) (g : GenerationId) (v : Preferences) (fault : Fault) : Worker * bool :=
  match save_atomic (disk w) v fault with
  | (d, Ok _) => (w <| disk := d |> <| reports := reports w ++ [PreferencesPersisted g] |>, true)
  | (d, Err _) => (w <| disk := d |> <| reports := reports w ++ [PreferencesPersistFailed g] |>, false)
  end.

Definition commit_due (w : Worker) (now : Z) (fault : Fault) : Worker :=
  match take_due (debounce w) now with
  | (d, Some (g, v)) =>
      match commit (w <| debounce := d |>) g v fault with
      | (w, true) => w <| last_committed := Some v |>
      | (w, false) => w
      end
  | (d, None) => w <| debounce := d |>
  end.

Definition commit_pending (w : Worker) (fault : Fault) : Worker :=
  match take_pending (debounce w) with
  | (d, Some (g, v)) => fst (commit (w <| debounce := d |>) g v fault)
  | (d, None) => w <| debounce := d |>
  end.

Definition accept_save (w : Worker) (now : Z) (g : GenerationId) (v : Preferences) : Worker :=
  let reference :=
    match peek_pending (debounce w) with Some p => Some p | None => last_committed w end in
  w <| debounce := fst (offer (debounce w) now g v reference) |>.

(** What [recv] or [recv_timeout] gives: the head of the queue if there is
    one, an error if every sender is gone, nothing yet or a timeout. *)
Inductive Received := Command (c : PreferencesCommand) | Disconnected | Nothing.
Definition receive (w : Worker) : Worker * Received :=
  match queue w with
  | c :: rest => (w <| queue := rest |>, Command c)
  | [] => (w, if senders_gone w then Disconnected else Nothing)
  end.

Definition handle_outcome (w : Worker) (r : Received) (later : Z) (fault : Fault) : Worker :=
  match r with
  | Command (Save g v) => accept_save w later g v
  | Command FlushAndShutdown =>
      (commit_pending w fault) <| acknowledged := true |> <| running := false |>
  | Disconnected => (commit_pending w fault) <| running := false |>
  | Nothing => w
  end.

(** One pass of the loop of [run_worker]: [now] is read before waiting, [later]
    after it.  With nothing to receive the pass waits: for ever when nothing is
    pending, up to the deadline otherwise. *)
Definition iterate (w : Worker) (now later : Z) (fault : Fault) : Worker :=
  if negb (running w) then w
  else match peek_deadline (debounce w) with
  | None => let (w, r) := receive w in handle_outcome w r later fault
  | Some deadline =>
      if deadline <=? now then commit_due w now fault
      else match receive w with
           | (w, Nothing) => commit_due w later fault
           | (w, r) => handle_outcome w r later fault
           end
  end.
End RunWorker.
End Preferences.
