(* ===== verification/Executor.v ===== *)
(** * Effects, shutdown and frames ([app/mod.rs], [app_handle.rs])

    [Executor]: the effect executor and the shutdown coordinator.  [Frames]: how
    snapshots and window effects reach the window.  All as threads whose steps
    interleave. *)

From S2P Require Import Prelude Float32 AppState Reducer Text Bridge Preferences.

Import Preferences.

(** ** Effect executor and bounded shutdown ([apps/openaircast/src/app/mod.rs])

    The executor that carries the reducer's effects to the services, the
    coordinator thread that shuts the services down one after the other, and
    the budgets of the exit.  The device controller and the shortcut service
    are reached through their ports: what they answer is an input.  The
    preferences worker is [Preferences.Worker].  The threads interleave: a run
    is a sequence of steps of the actor, the coordinator and the worker. *)

Module Executor.

(** ** Budgets *)

(** [Duration] in nanoseconds; [saturating_add] stops at its maximum. *)
Definition DURATION_MAX : Z := 2 ^ 64 * 10 ^ 9 - 1.
Definition secs (n : Z) : Z := n * 10 ^ 9.
Definition saturating_add (a b : Z) : Z := Z.min (a + b) DURATION_MAX.

Definition PREFERENCE_FLUSH_BUDGET : Z := secs 2.
Definition VIEWPORT_TEARDOWN_SLACK : Z := secs 4.
Record ShutdownBudgets := { b_device : Z; b_hotkey : Z }.
Definition default_budgets : ShutdownBudgets := {| b_device := secs 3; b_hotkey := secs 1 |}.
Definition worst_case (b : ShutdownBudgets) : Z :=
  saturating_add (saturating_add (b_device b) (b_hotkey b)) PREFERENCE_FLUSH_BUDGET.
Definition exit_valve (b : ShutdownBudgets) : Z := saturating_add (worst_case b) VIEWPORT_TEARDOWN_SLACK.

(** ** The executor *)

Inductive UiEffect :=
| UiShowMainWindow | UiHideMainWindow | UiFocusMainWindow | UiAnnounce (message : string)
| UiDropTray | UiCloseApplication.
Inductive HotkeyError := HotkeyBusy | HotkeyClosed | HotkeySpawn.

(** [effect_to_command] of [device_service.rs] *)
Definition effect_to_command (e : AppEffect) : option Bridge.DeviceCommand :=
  match e with
  | EffPlayListeningTone g => Some (Bridge.DevPlayListeningTone g)
  | EffGroup request g command => Some (Bridge.DevGroup request g command)
  | EffDiscover g => Some (Bridge.DevDiscover g)
  | EffStartSession g ids v => Some (Bridge.DevStartSession g ids v)
  | EffStopSession g => Some (Bridge.DevStopSession g)
  | EffApplyVolume g v => Some (Bridge.DevApplyVolume g v)
  | EffApplyMute m => Some (Bridge.DevApplyMute m)
  | EffApplyReceiverLevel r l => Some (Bridge.DevApplyReceiverLevel r l)
  | EffApplyLatency c => Some (Bridge.DevApplyLatency c)
  | EffApplyAudioEndpoint r => Some (Bridge.DevApplyAudioEndpoint r)
  | _ => None
  end.

(** Where the coordinator thread is. *)
Inductive Stage := ArmValve | DropTheTray | StopDevice | StopHotkey | FlushPreferences | AwaitFlush | CloseUp | Done.
Inductive StageCall := ShutdownDevice (timeout : Z) | ShutdownHotkey (timeout : Z) | FlushCall.

(** The shell; [ui], [told], [sent], [reconfigured] and [calls] record what was
    sent to the window, to the shell's own queue and to the services. *)
Record Shell := {
  app : AppState;
  worker : Worker;
  budgets : ShutdownBudgets;
  begin_shutdown_started : bool;
  coordinator : option Stage;
  valve : option Z;
  ui : list UiEffect;
  told : list AppEvent;
  sent : list Bridge.DeviceCommand;
  reconfigured : list (GenerationId * HotkeyBinding);
  calls : list StageCall;
}.
#[export] Instance eta_Shell : Eta Shell := fun x =>
  {| app := app x; worker := worker x; budgets := budgets x;
     begin_shutdown_started := begin_shutdown_started x; coordinator := coordinator x;
     valve := valve x; ui := ui x; told := told x; sent := sent x; reconfigured := reconfigured x;
     calls := calls x |}.
Definition start_shell (initial : AppState) (w : Worker) (b : ShutdownBudgets) : Shell :=
  {| app := initial; worker := w; budgets := b; begin_shutdown_started := false; coordinator := None;
     valve := None; ui := []; told := []; sent := []; reconfigured := []; calls := [] |}.

(** What the services answer while one event is handled. *)
Record Answers := {
  device_answers : Bridge.DeviceCommand -> Result unit Bridge.ControllerSendError;
  hotkey_answers : Result unit HotkeyError;
  coordinator_spawns : bool;
}.

Definition tell (x : Shell) (e : AppEvent) : Shell := x <| told := told x ++ [e] |>.
Definition report_channel_loss (x : Shell) (summary : string) : Shell :=
  tell x (Controller (ChannelClosed summary)).
Definition show (x : Shell) (e : UiEffect) : Shell := x <| ui := ui x ++ [e] |>.

(** One thread at most: the latch is set first. *)
Definition begin_bounded_shutdown (x : Shell) (spawned : bool) : Shell :=
  if begin_shutdown_started x then x
  else
    let x := x <| begin_shutdown_started := true |> in
    if spawned then x <| coordinator := Some ArmValve |>
    else show (show x UiDropTray) UiCloseApplication.

Definition send_device (x : Shell) (e : AppEffect) (ans : Answers) : Shell :=
  match effect_to_command e with
  | None => x
  | Some command =>
      match device_answers ans command with
      | Ok _ => x <| sent := sent x ++ [command] |>
      | Err Bridge.PortBusy => x
      | Err Bridge.PortClosed => report_channel_loss x "the audio controller stopped"
      end
  end.

Definition execute (x : Shell) (ans : Answers) (e : AppEffect) : Shell :=
  match e with
  | EffPlayListeningTone g =>
      match device_answers ans (Bridge.DevPlayListeningTone g) with
      | Ok _ => x <| sent := sent x ++ [Bridge.DevPlayListeningTone g] |>
      | Err _ =>
          tell x (Controller (SessionFailed g "The listening test tone could not be started."))
      end
  | EffGroup _ _ _ | EffDiscover _ | EffStartSession _ _ _ | EffStopSession _ | EffApplyVolume _ _
  | EffApplyMute _ | EffApplyReceiverLevel _ _ | EffApplyLatency _ | EffApplyAudioEndpoint _ =>
      send_device x e ans
  | EffPersistPreferences g v =>
      match try_schedule (worker x) g v with
      | (w, Ok _) => x <| worker := w |>
      | (w, Err _) => tell (x <| worker := w |>) (PreferencesEv (PreferencesPersistFailed g))
      end
  | EffReconfigureHotkey g b =>
      match hotkey_answers ans with
      | Ok _ => x <| reconfigured := reconfigured x ++ [(g, b)] |>
      | Err HotkeyClosed => report_channel_loss x "the shortcut service stopped"
      | Err _ => x
      end
  | EffShowMainWindow => show x UiShowMainWindow
  | EffHideMainWindow => show x UiHideMainWindow
  | EffBeginShutdown => begin_bounded_shutdown x (coordinator_spawns ans)
  end.

(** ** The coordinator ([run_shutdown_coordinator]) *)

(** [ok]: whether the valve could be armed; the answers of the services are
    only logged. *)
Definition coordinate (x : Shell) (ok : bool) : Shell :=
  match coordinator x with
  | None | Some Done => x
  | Some ArmValve =>
      x <| valve := if ok then Some (exit_valve (budgets x)) else None |>
        <| coordinator := Some DropTheTray |>
  | Some DropTheTray => (show x UiDropTray) <| coordinator := Some StopDevice |>
  | Some StopDevice =>
      x <| calls := calls x ++ [ShutdownDevice (b_device (budgets x))] |>
        <| coordinator := Some StopHotkey |>
  | Some StopHotkey =>
      x <| calls := calls x ++ [ShutdownHotkey (b_hotkey (budgets x))] |>
        <| coordinator := Some FlushPreferences |>
  | Some FlushPreferences =>
      let x := x <| calls := calls x ++ [FlushCall] |> in
      match try_flush_and_shutdown (worker x) with
      | (w, Ok _) => x <| worker := w |> <| coordinator := Some AwaitFlush |>
      | (w, Err _) => x <| worker := w |> <| coordinator := Some CloseUp |>
      end
  | Some AwaitFlush => x <| coordinator := Some CloseUp |>
  | Some CloseUp => (show x UiCloseApplication) <| coordinator := Some Done |>
  end.

(** How long a stage may take: the waits are bounded by their budgets. *)
Definition stage_budget (b : ShutdownBudgets) (s : Stage) : Z :=
  match s with
  | StopDevice => b_device b
  | StopHotkey => b_hotkey b
  | AwaitFlush => PREFERENCE_FLUSH_BUDGET
  | _ => 0
  end.

(** ** Runs *)

Section Runs.
Context `{SettingsJson} (tl : string -> string).

Inductive ShellStep :=
| Handle (e : AppEvent) (ans : Answers)
| WorkerPass (now later : Z) (fault : Fault)
| Coordinate (ok : bool).

(** One turn of the actor: reduce, then execute the effects in order. *)
Definition handle_event (x : Shell) (e : AppEvent) (ans : Answers) : Shell :=
  let (s, t) := reduce tl (app x) e in
  fold_left (fun x f => execute x ans f) (t_effects t) (x <| app := s |>).

Definition shell_step (x : Shell) (st : ShellStep) : Shell :=
  match st with
  | Handle e ans => handle_event x e ans
  | WorkerPass now later fault => x <| worker := iterate (worker x) now later fault |>
  | Coordinate ok => coordinate x ok
  end.
Definition run_shell (x : Shell) (steps : list ShellStep) : Shell := fold_left shell_step steps x.
End Runs.
End Executor.

(** ** Snapshots and effects reach the window ([apps/openaircast/src/app_handle.rs])

    The actor and the worker threads store snapshots and queue window effects,
    then schedule a frame through a shared gate; the window's frame resets the
    gate while it drains the effects and then loads the snapshot.  Every line
    of this that another thread can observe is one step, and the steps of the
    threads interleave freely.  A repaint request during a frame leads to
    another frame, and the window paints a first frame by itself. *)
Import Executor.

Module Frames.

(** Where the window's frame is: [logic] runs [consume_window_effects] first,
    every load of the snapshot comes after it. *)
Inductive FramePc := Idle | Entered | Drained.

(** [unscheduled] counts threads that have stored something and not yet
    called [schedule_frame]; [repaint] is a requested frame that has not begun.
    [wakes], [drains], [queued] and [taken] are history. *)
Record Frames := {
  snapshot : nat;
  ui_effects : list UiEffect;
  wake_gate : bool;
  callbacks : list Z;
  next_id : Z;
  unscheduled : nat;
  repaint : bool;
  pc : FramePc;
  shown : nat;
  wakes : nat;
  drains : nat;
  queued : list UiEffect;
  taken : list UiEffect;
}.
#[export] Instance eta_Frames : Eta Frames := fun f =>
  {| snapshot := snapshot f; ui_effects := ui_effects f; wake_gate := wake_gate f;
     callbacks := callbacks f; next_id := next_id f; unscheduled := unscheduled f;
     repaint := repaint f; pc := pc f; shown := shown f; wakes := wakes f; drains := drains f;
     queued := queued f; taken := taken f |}.

(** [start_app_with_channel], with the window's first frame pending. *)
Definition start_frames : Frames :=
  {| snapshot := 0; ui_effects := []; wake_gate := false; callbacks := []; next_id := 1;
     unscheduled := 0; repaint := true; pc := Idle; shown := 0; wakes := 0; drains := 0;
     queued := []; taken := [] |}.

(** [WakerRegistry] *)
Definition register (f : Frames) : Frames * Z :=
  (f <| callbacks := callbacks f ++ [next_id f] |> <| next_id := u64_succ (next_id f) |>, next_id f).
Definition unregister (f : Frames) (id : Z) : Frames :=
  f <| callbacks := filter (fun registered => registered <> id) (callbacks f) |>.
Definition invoke_all (f : Frames) : Frames :=
  f <| wakes := S (wakes f) |>
    <| repaint := match callbacks f with [] => repaint f | _ => true end |>.

(** [compare_exchange(false, true)], and the wake if it succeeded. *)
Definition schedule_frame (f : Frames) : Frames :=
  if wake_gate f then f else invoke_all (f <| wake_gate := true |>).

Inductive FrameStep :=
| Store (revision : nat)      (* [publish]: the snapshot is stored *)
| Push (e : UiEffect)         (* [UiEffectSender::send]: the effect is queued *)
| Schedule                    (* the second half of either *)
| InstallWaker
| Begin                       (* the window begins a frame *)
| Drain                       (* [drain_ui_effects] *)
| Load.                       (* [AppHandle::snapshot] *)

Definition frame_step (f : Frames) (st : FrameStep) : Frames :=
  match st with
  | Store r => f <| snapshot := r |> <| unscheduled := S (unscheduled f) |>
  | Push e => f <| ui_effects := ui_effects f ++ [e] |> <| queued := queued f ++ [e] |>
                <| unscheduled := S (unscheduled f) |>
  | Schedule =>
      match unscheduled f with
      | O => f
      | S n => schedule_frame (f <| unscheduled := n |>)
      end
  | InstallWaker => fst (register f)
  | Begin =>
      (* the window exists only with its waker installed *)
      match pc f, callbacks f with
      | Idle, _ :: _ => f <| pc := Entered |> <| repaint := false |>
      | _, _ => f
      end
  | Drain =>
      match pc f with
      | Entered => f <| wake_gate := false |> <| taken := taken f ++ ui_effects f |>
                     <| ui_effects := [] |> <| drains := S (drains f) |> <| pc := Drained |>
      | _ => f
      end
  | Load =>
      match pc f with
      | Drained => f <| shown := snapshot f |> <| pc := Idle |>
      | _ => f
      end
  end.
Definition run_frames (steps : list FrameStep) : Frames := fold_left frame_step steps start_frames.

(** ** Nothing is missed *)

(** A raised gate means a frame that has not drained yet. *)
Record frames_ok (f : Frames) : Prop := {
  fo_gate : wake_gate f = true -> repaint f = true \/ pc f = Entered;
  fo_effects : unscheduled f = 0%nat -> ui_effects f <> [] -> wake_gate f = true;
  fo_snapshot : unscheduled f = 0%nat -> pc f <> Drained -> shown f <> snapshot f ->
    wake_gate f = true;
  fo_history : queued f = taken f ++ ui_effects f;
  fo_wakes : (wakes f <= drains f + if wake_gate f then 1 else 0)%nat;
  fo_first : callbacks f = [] -> repaint f = true /\ pc f = Idle;
}.

Lemma schedule_ok f :
  (wake_gate f = true -> repaint f = true \/ pc f = Entered) ->
  queued f = taken f ++ ui_effects f ->
  (wakes f <= drains f + if wake_gate f then 1 else 0)%nat ->
  (callbacks f = [] -> repaint f = true /\ pc f = Idle) ->
  frames_ok (schedule_frame f).
Proof.
  intros Hg Hh Hw Hc. unfold schedule_frame, invoke_all. destruct (wake_gate f) eqn:E.
  - by constructor; rewrite ?E; auto.
  - constructor; cbn; try done; try lia.
    + intros _. left. destruct (callbacks f) eqn:Ec; [by apply Hc|done].
    + intros Ec. rewrite Ec. by apply Hc.
Qed.
Lemma step_frames_ok f st : frames_ok f -> frames_ok (frame_step f st).
Proof.
  intros [O1 O2 O3 O4 O5 O6]. destruct st; cbn.
  - constructor; cbn; done.
  - constructor; cbn; try done. by rewrite O4, app_assoc.
  - destruct (unscheduled f) eqn:Eu; [by constructor; rewrite ?Eu|]. by apply schedule_ok.
  - constructor; cbn; try done. intros E. by apply app_eq_nil in E as [_ ?].
  - destruct (pc f) eqn:Ep; [|by constructor; rewrite ?Ep..].
    destruct (callbacks f) eqn:Ec; [by constructor; rewrite ?Ep, ?Ec|].
    constructor; cbn; try done; auto.
  - destruct (pc f) eqn:Ep; [by constructor; rewrite ?Ep| |by constructor; rewrite ?Ep].
    constructor; cbn; try done.
    + by rewrite app_nil_r.
    + destruct (wake_gate f); lia.
    + intros Ec. destruct (O6 Ec). done.
  - destruct (pc f) eqn:Ep; [by constructor; rewrite ?Ep..|].
    constructor; cbn; try done.
    + intros Hg. destruct (O1 Hg); [by left|done].
    + intros Ec. destruct (O6 Ec). done.
Qed.

Lemma run_frames_ok steps : frames_ok (run_frames steps).
Proof.
  unfold run_frames. assert (frames_ok start_frames) as H0 by (constructor; cbn; try done; lia).
  revert H0. generalize start_frames. induction steps as [|st steps IH]; intros f Hf; [done|].
  cbn. by apply IH, step_frames_ok.
Qed.

(** C24: No publication and no window effect is missed, however the threads
    interleave: the window takes the effects in the order they were queued,
    each once; there is at most one wake per drained frame and one more; and
    when no thread is between storing and scheduling, no frame is running and
    none is requested, then the window has taken every effect and shows the
    newest snapshot. *)
Theorem no_frame_is_missed steps :
  let f := run_frames steps in
  queued f = taken f ++ ui_effects f /\ (wakes f <= S (drains f))%nat /\
  (unscheduled f = 0%nat -> pc f = Idle -> repaint f = false -> ui_effects f = [] /\ shown f = snapshot f).
Proof.
  intros f. destruct (run_frames_ok steps) as [O1 O2 O3 O4 O5 O6]. fold f in O1, O2, O3, O4, O5, O6.
  split; [done|]. split; [destruct (wake_gate f); lia|]. intros Hu Hp Hr.
  assert (wake_gate f <> true) as Hg.
  { intros Hg. destruct (O1 Hg); congruence. }
  split.
  - destruct (ui_effects f) eqn:E; [done|]. exfalso. apply Hg, O2; done.
  - destruct (decide (shown f = snapshot f)) as [E|E]; [done|]. exfalso. apply Hg, O3; [done| |done].
    by rewrite Hp.
Qed.

(** Loading before the drain would lose a publication: the order in the frame
    matters. *)
Example quiet_after_two_publications :
  let f := run_frames [InstallWaker; Store 1; Schedule; Begin; Store 2; Drain; Load; Push UiDropTray;
                       Schedule; Schedule; Begin; Drain; Load] in
  (shown f, taken f, unscheduled f, repaint f) = (2%nat, [UiDropTray], 0%nat, false).
Proof. reflexivity. Qed.
End Frames.
