(* ===== verification/ExecutorProps.v ===== *)
(** * Settings survive a quit; the exit is bounded and happens once

    First what events do to the stored settings ([ReducerSettings]), then the
    settings worker and its queue, then whole runs of the shell. *)

From S2P Require Import Prelude Float32 AppState HardwareCheck Reducer ReducerInv ReducerFacts ReducerTrace Text Bridge Preferences Executor.

Import Preferences.

(** ** What events do to the stored settings

    The window geometry of a reachable state is valid, and the generation of
    the settings moves exactly when they are written. *)

Module ReducerSettings.

(** ** Geometry *)

Lemma f32_max_again x c : f32_max (f32_max x c) c = f32_max x c.
Proof.
  unfold f32_max. destruct (f32_is_nan x) eqn:Ex; [by destruct (f32_is_nan c); [|destruct (f32_ltb c c)]|].
  destruct (f32_is_nan c) eqn:Ec; [by rewrite Ex|].
  destruct (f32_ltb x c) eqn:El; [rewrite Ec; by destruct (f32_ltb c c)|]. by rewrite Ex, El.
Qed.

Lemma f32_max_finite x c :
  f32_is_finite x = true -> f32_is_finite c = true -> f32_is_finite (f32_max x c) = true.
Proof. intros Hx Hc. unfold f32_max. by repeat case_match. Qed.

Definition valid_geometry (g : WindowGeometry) : Prop := validate_geometry g = Some g.

Lemma minimum_finite : f32_is_finite (f32_of_Z 900) = true /\ f32_is_finite (f32_of_Z 600) = true.
Proof. by vm_compute. Qed.

Lemma validated_is_valid g g' : validate_geometry g = Some g' -> valid_geometry g'.
Proof.
  unfold valid_geometry, validate_geometry. intros E.
  destruct (f32_is_finite (geo_width g)) eqn:Ew; [|done].
  destruct (f32_is_finite (geo_height g)) eqn:Eh; [|done]. cbn [negb orb] in E.
  destruct (is_some_and (geo_x g) _) eqn:Ex; [done|]. destruct (is_some_and (geo_y g) _) eqn:Ey; [done|].
  destruct minimum_finite as [H9 H6]. revert E H9 H6.
  generalize (f32_of_Z 900) (f32_of_Z 600). intros c9 c6 E H9 H6. injection E as <-. cbn.
  rewrite !f32_max_finite by done. cbn. by rewrite Ex, Ey, !f32_max_again.
Qed.

Lemma valid_finite g : valid_geometry g -> finite_window g = true.
Proof.
  unfold valid_geometry, validate_geometry, finite_window.
  destruct (f32_is_finite (geo_width g)), (f32_is_finite (geo_height g)); cbn; try done.
  destruct (geo_x g) as [x|], (geo_y g) as [y|]; cbn;
    try destruct (f32_is_finite x); try destruct (f32_is_finite y); done.
Qed.

Lemma default_valid : valid_geometry default_geometry.
Proof. vm_compute. reflexivity. Qed.

(** ** What an event does to the settings *)

Definition persists (effects : list AppEffect) : list (GenerationId * Preferences) :=
  omap (fun e => match e with EffPersistPreferences g v => Some (g, v) | _ => None end) effects.

Section Events.
Context (tl : string -> string).

Ltac by_event e := each_event e; open_handlers; repeat step_split; auto.

Lemma dispatch_geometry s e :
  valid_geometry (win_geometry (window s)) -> valid_geometry (win_geometry (window (dispatch tl s e).1)).
Proof. intros Hg. by_event e. all: by eapply validated_is_valid. Qed.

(** The settings' generation moves exactly when they are written, by one. *)
Lemma dispatch_persists s e :
  (persists (dispatch tl s e).2.1 = []
   /\ gen_preferences (generations (dispatch tl s e).1) = gen_preferences (generations s))
  \/ (persists (dispatch tl s e).2.1
      = [(gen_preferences (generations (dispatch tl s e).1), preferences_from_state (dispatch tl s e).1)]
     /\ gen_preferences (generations (dispatch tl s e).1) = u64_succ (gen_preferences (generations s))).
Proof. by_event e. Qed.

Lemma reduce_geometry s e :
  valid_geometry (win_geometry (window s)) -> valid_geometry (win_geometry (window (reduce tl s e).1)).
Proof.
  intros Hg. rewrite (reduce_outside tl (fun s => win_geometry (window s))) by done.
  destruct (start_suppressed s e); [done|]. by apply dispatch_geometry.
Qed.

Lemma reduce_generation s e :
  gen_preferences (generations (reduce tl s e).1)
  = if start_suppressed s e then gen_preferences (generations s)
    else gen_preferences (generations (dispatch tl s e).1).
Proof.
  destruct (start_suppressed s e) eqn:E; [by rewrite reduce_eq, E|].
  assert (gen_preferences (generations (observed tl s e).1.1)
    = gen_preferences (generations (dispatch tl s e).1)) as Ho.
  { unfold observed. destruct (dispatch tl s e) as [s' [effects c]]. apply observe_generations. }
  by destruct (reduce_state tl s e E) as [->| ->]; rewrite <- Ho.
Qed.

Lemma reduce_persists s e :
  let s' := (reduce tl s e).1 in let l := persists (t_effects (reduce tl s e).2) in
  (l = [] /\ gen_preferences (generations s') = gen_preferences (generations s))
  \/ (l = [(gen_preferences (generations s'), preferences_from_state s')]
     /\ gen_preferences (generations s') = u64_succ (gen_preferences (generations s))).
Proof.
  cbv zeta. rewrite (reduce_outside tl preferences_from_state) by done. rewrite reduce_generation.
  destruct (start_suppressed s e) eqn:E; [left; by rewrite reduce_eq, E|].
  assert (persists (t_effects (reduce tl s e).2) = persists (dispatch tl s e).2.1) as ->.
  { unfold persists. by rewrite (reduce_omap tl), E. }
  apply dispatch_persists.
Qed.

Lemma begin_means_quitting s e :
  EffBeginShutdown ∈ t_effects (reduce tl s e).2 -> shutting_down (reduce tl s e).1 = true.
Proof.
  intros Hx. destruct (reduce_begin_shutdown tl s e) as [E|(_ & _ & ?)]; [|done].
  assert (tt ∈ begin_shutdowns (t_effects (reduce tl s e).2)) as Hi.
  { unfold begin_shutdowns. apply list_elem_of_omap. eexists. by split; [exact Hx|]. }
  rewrite E in Hi. by apply elem_of_nil in Hi.
Qed.

Lemma reduce_shutting_down s e : shutting_down s = true -> shutting_down (reduce tl s e).1 = true.
Proof.
  intros Hs. rewrite (reduce_outside tl shutting_down) by done.
  destruct (start_suppressed s e); [done|]. by apply dispatch_shutdown_monotone.
Qed.

Lemma quit_persists s :
  shutting_down s = false ->
  let r := reduce tl s QuitRequested in
  persists (t_effects r.2) = [(gen_preferences (generations r.1), preferences_from_state r.1)].
Proof.
  intros Hs r. destruct (reduce_persists s QuitRequested) as [[Hp _]|[Hp _]]; [|exact Hp].
  exfalso. revert Hp. unfold persists. rewrite (reduce_omap tl) by done.
  unfold start_suppressed. rewrite andb_false_r. cbn. unfold quit_requested. rewrite Hs. cbn. by destruct (is_running (stream s)).
Qed.

End Events.

End ReducerSettings.

(** ** Settings survive a quit; the exit is bounded and happens once

    First the worker and its queue, then whole runs of the shell. *)
Import Preferences Executor ReducerSettings.

Module ExecutorProps.

(** ** The worker *)

(** Saves the worker will still see: those before a flush. *)
Fixpoint live_saves (q : list PreferencesCommand) : list (GenerationId * Preferences) :=
  match q with
  | Save g v :: q => (g, v) :: live_saves q
  | _ => []
  end.
Definition waiting (d : DebounceState) : list (GenerationId * Preferences) :=
  match pending d with Some p => [(ps_generation p, ps_value p)] | None => [] end.
(** Everything on its way to the file, oldest first. *)
Definition line (w : Worker) : list (GenerationId * Preferences) :=
  if running w then waiting (debounce w) ++ live_saves (queue w) else [].

Definition ordered (l : list (GenerationId * Preferences)) : Prop :=
  StronglySorted (fun a b => a.1 <= b.1) l.
Definition writable (v : Preferences) : Prop :=
  pref_schema_version v = PREFERENCES_SCHEMA_VERSION /\ finite_window (pref_window v) = true.

Lemma live_saves_snoc q g v :
  FlushAndShutdown ∉ q -> live_saves (q ++ [Save g v]) = live_saves q ++ [(g, v)].
Proof.
  induction q as [|[g' v'|] q IH]; intros Hq; cbn; [done| |].
  - f_equal. apply IH. set_solver.
  - exfalso. apply Hq. by left.
Qed.

Lemma live_saves_flush q : live_saves (q ++ [FlushAndShutdown]) = live_saves q.
Proof. induction q as [|[g' v'|] q IH]; cbn; [done|by f_equal|done]. Qed.

Section Worker.
Context `{SettingsJson}.

(** Starting from this folder the shell comes up with [v]. *)
Definition reads (d : Disk) (v : Preferences) : Prop := load d = {| pl_value := v; pl_notice := None |}.

(** [v] is in the file, or is the last thing on its way there. *)
Definition holds (w : Worker) (v : Preferences) : Prop :=
  match last (line w) with Some (_, v') => v' = v | None => reads (disk w) v end.

(** What stays the same whatever the clock says and whatever fails. *)
Lemma commit_frame w g v fault :
  let w' := fst (commit w g v fault) in
  running w' = running w /\ queue w' = queue w /\ debounce w' = debounce w /\
  senders_gone w' = senders_gone w /\ acknowledged w' = acknowledged w.
Proof. unfold commit. by destruct (save_atomic _ _ _) as [d []]. Qed.

(** Fields of a worker that only its queue and its thread own. *)
Definition same_thread (w w' : Worker) : Prop :=
  running w' = running w /\ queue w' = queue w /\ acknowledged w' = acknowledged w.

Lemma commit_due_cases w now fault :
  let w' := commit_due w now fault in
  (debounce w' = debounce w /\ disk w' = disk w \/ waiting (debounce w') = [] /\ pending (debounce w) <> None)
  /\ same_thread w w'.
Proof.
  unfold commit_due, take_due. destruct (pending (debounce w)) as [q|] eqn:Ep.
  - destruct (deadline_ms q <=? now); cbn.
    + rewrite Ep. cbn. pose proof (commit_frame (w <| debounce := {| pending := None |} |>)
        (ps_generation q) (ps_value q) fault) as (H1 & H2 & H3 & H4 & H5).
      destruct (commit _ _ _ _) as [w' []]; cbn in *; (split; [right; split; [by rewrite H3|done]|done]).
    + split; [by left|done].
  - cbn. split; [by left|done].
Qed.

Lemma commit_pending_cases w fault :
  let w' := commit_pending w fault in waiting (debounce w') = [] /\ same_thread w w'.
Proof.
  unfold commit_pending, take_pending. destruct (pending (debounce w)) as [q|]; cbn; [|done].
  pose proof (commit_frame (w <| debounce := {| pending := None |} |>)
        (ps_generation q) (ps_value q) fault) as (H1 & H2 & H3 & H4 & H5).
  cbn in *. by rewrite H3.
Qed.

(** A save is taken over unless a newer one waits already. *)
Lemma accept_save_waits w now g v :
  (forall q, pending (debounce w) = Some q -> ps_generation q <= g) ->
  waiting (debounce (accept_save w now g v)) = [(g, v)].
Proof.
  intros Hg. unfold accept_save, offer, waiting. cbn.
  destruct (pending (debounce w)) as [q|] eqn:Ep; [|done].
  destruct (Z.ltb_spec g (ps_generation q)); [|done]. specialize (Hg q eq_refl). lia.
Qed.

Lemma pending_line w q :
  running w = true -> pending (debounce w) = Some q -> (ps_generation q, ps_value q) ∈ line w.
Proof. intros Hr Ep. unfold line, waiting. rewrite Hr, Ep. apply elem_of_app. left. by left. Qed.

(** The head of a line is at most the rest of it. *)
Lemma pending_before w q g v rest :
  running w = true -> ordered (line w) -> pending (debounce w) = Some q -> queue w = Save g v :: rest ->
  ps_generation q <= g.
Proof.
  unfold ordered, line, waiting. intros Hr Ho Ep Hq. rewrite Hr, Ep, Hq in Ho. cbn in Ho.
  apply StronglySorted_inv in Ho as [_ Hf]. by apply Forall_cons in Hf as [? _].
Qed.

(** Passes take from the front of the line and never put anything back. *)
Lemma iterate_line w now later fault :
  ordered (line w) -> line (iterate w now later fault) `suffix_of` line w.
Proof.
  intros Ho. unfold iterate. destruct (running w) eqn:Hr; cbn [negb]; [|done].
  assert (forall t, line (commit_due w t fault) `suffix_of` line w) as Hdue.
  { intros t. destruct (commit_due_cases w t fault) as [Hd (H1 & H2 & _)].
    unfold line. rewrite H1, H2, Hr. destruct Hd as [[-> _]|[-> _]]; [done|by eexists]. }
  assert (forall r, line ((commit_pending r fault) <| acknowledged := true |> <| running := false |>) = []
          /\ line ((commit_pending r fault) <| running := false |>) = []) as Hend by done.
  assert (forall g v rest, queue w = Save g v :: rest ->
            line (accept_save (w <| queue := rest |>) later g v) `suffix_of` line w) as Hsave.
  { intros g v rest Hq. unfold line at 1.
    change (running (accept_save (w <| queue := rest |>) later g v)) with (running w). rewrite Hr.
    rewrite accept_save_waits by (intros q Ep; by eapply pending_before).
    change (queue (accept_save (w <| queue := rest |>) later g v)) with rest.
    unfold line. rewrite Hr, Hq. by eexists. }
  unfold receive. destruct (peek_deadline (debounce w)) as [t|].
  - destruct (t <=? now); [apply Hdue|].
    destruct (queue w) as [|[g v|] rest] eqn:Hq; [|by apply Hsave|apply suffix_nil].
    destruct (senders_gone w); [apply suffix_nil|apply Hdue].
  - destruct (queue w) as [|[g v|] rest] eqn:Hq; [|by apply Hsave|apply suffix_nil].
    destruct (senders_gone w); [apply suffix_nil|done].
Qed.

(** A worker with no flush in its queue keeps running. *)
Definition calm (w : Worker) : Prop :=
  running w = true /\ senders_gone w = false /\ FlushAndShutdown ∉ queue w.

Lemma commit_due_senders w t fault : senders_gone (commit_due w t fault) = senders_gone w.
Proof.
  unfold commit_due. destruct (take_due _ _) as [d [[g v]|]]; [|done].
  pose proof (commit_frame (w <| debounce := d |>) g v fault) as (_ & _ & _ & E & _).
  by destruct (commit _ _ _ _) as [w' []].
Qed.

Lemma iterate_calm w now later fault : calm w -> calm (iterate w now later fault).
Proof.
  intros (Hr & Hs & Hq). unfold iterate. rewrite Hr. cbn [negb].
  assert (forall t, calm (commit_due w t fault)) as Hdue.
  { intros t. destruct (commit_due_cases w t fault) as [_ (H1 & H2 & _)].
    split; [by rewrite H1|]. split; [by rewrite commit_due_senders|by rewrite H2]. }
  assert (forall g v rest, queue w = Save g v :: rest -> calm (accept_save (w <| queue := rest |>) later g v)) as Hsave.
  { intros g v rest E. split; [done|]. split; [done|]. rewrite E in Hq. cbn. set_solver. }
  unfold receive. rewrite Hs. destruct (peek_deadline (debounce w)); [destruct (_ <=? _); [apply Hdue|]|];
    destruct (queue w) as [|[g v|] rest] eqn:E; try (by apply Hsave); try (by apply Hdue);
    try (exfalso; apply Hq; by left). split; [done|]. split; [done|]. cbn. by rewrite E.
Qed.

Lemma iterate_acknowledged w now later fault :
  (acknowledged w = true -> running w = false) ->
  acknowledged (iterate w now later fault) = true -> running (iterate w now later fault) = false.
Proof.
  intros Ha. unfold iterate. destruct (running w) eqn:Hr; cbn [negb]; [|done].
  assert (acknowledged w = false) as Hn by (destruct (acknowledged w); [by discriminate Ha|done]).
  assert (forall t, acknowledged (commit_due w t fault) = true -> running (commit_due w t fault) = false) as Hdue.
  { intros t. destruct (commit_due_cases w t fault) as [_ (_ & _ & ->)]. by rewrite Hn. }
  unfold receive. destruct (peek_deadline (debounce w)); [destruct (_ <=? _); [apply Hdue|]|];
    destruct (queue w) as [|[g v|] rest] eqn:E; try destruct (senders_gone w); cbn; try done;
    try apply Hdue; by rewrite Hn.
Qed.

End Worker.

Section Written.
Context `{SettingsJson}.
Context (Hprint : forall v, is_Some (to_string_pretty v)).

Lemma save_reads d v :
  writable v -> exists d', save_atomic d v NoFault = (d', Ok tt) /\ reads d' v.
Proof.
  intros [Hs Hf]. unfold save_atomic. rewrite Hs. cbn [negb Z.eqb PREFERENCES_SCHEMA_VERSION].
  destruct (Hprint v) as [raw Hr]. rewrite Hr. eexists. split; [reflexivity|].
  destruct (read_back v raw Hf Hr) as [Hp Hv]. unfold reads, load. cbn.
  unfold parse_settings. rewrite Hp, Hs, Hv. reflexivity.
Qed.

Lemma commit_reads w g v :
  writable v -> exists w', commit w g v NoFault = (w', true) /\ reads (disk w') v /\
    running w' = running w /\ queue w' = queue w /\ debounce w' = debounce w.
Proof.
  intros Hv. unfold commit. destruct (save_reads (disk w) v Hv) as (d' & -> & Hr).
  eexists. split; [reflexivity|]. done.
Qed.

Ltac commits Hwritable :=
  match goal with |- context [commit ?w0 ?g0 ?v0 NoFault] =>
    let w' := fresh "w'" in let E := fresh "E" in
    destruct (commit_reads w0 g0 v0 Hwritable) as (w' & E & Hr & _ & _ & Hd); rewrite E end.

Lemma commit_due_reads w now v :
  (forall q, pending (debounce w) = Some q -> writable (ps_value q)) ->
  last (waiting (debounce w)) = Some v \/ waiting (debounce w) = [] /\ reads (disk w) v.2 ->
  let w' := commit_due w now NoFault in
  last (waiting (debounce w')) = Some v \/ waiting (debounce w') = [] /\ reads (disk w') v.2.
Proof.
  unfold commit_due, take_due, waiting. intros Hw Hv. destruct (pending (debounce w)) as [q|] eqn:Ep; cbn.
  - destruct (deadline_ms q <=? now); cbn; [|by rewrite Ep]. rewrite Ep. cbn.
    commits (Hw q eq_refl). cbn. rewrite Hd. cbn. right. split; [done|].
    destruct Hv as [[= <-]|[? _]]; done.
  - by rewrite Ep.
Qed.

Lemma commit_pending_reads w v :
  (forall q, pending (debounce w) = Some q -> writable (ps_value q)) ->
  last (waiting (debounce w)) = Some v \/ waiting (debounce w) = [] /\ reads (disk w) v.2 ->
  reads (disk (commit_pending w NoFault)) v.2.
Proof.
  unfold commit_pending, take_pending, waiting. intros Hw Hv.
  destruct (pending (debounce w)) as [q|] eqn:Ep; cbn; [|by destruct Hv as [?|[_ ?]]].
  commits (Hw q eq_refl). cbn. by destruct Hv as [[= <-]|[? _]].
Qed.

(** The front of the line decides only when nothing else is queued. *)
Definition front_holds (w : Worker) (v : Preferences) : Prop :=
  exists g, last (waiting (debounce w)) = Some (g, v) \/ waiting (debounce w) = [] /\ reads (disk w) v.

Lemma holds_split w v :
  running w = true ->
  holds w v <-> match last (live_saves (queue w)) with Some x => x.2 = v | None => front_holds w v end.
Proof.
  intros Hr. unfold holds, line, front_holds. rewrite Hr, last_app.
  destruct (last (live_saves (queue w))) as [[g' v']|]; [done|].
  unfold waiting. destruct (pending (debounce w)) as [q|]; cbn.
  - split; [intros <-; eexists; by left|by intros (g & [[= _ ->]|[? _]])].
  - split; [intros Hd; exists 0; by right|by intros (g & [?|[_ ?]])].
Qed.

Lemma eta_queue w : w <| queue := queue w |> = w.
Proof. by destruct w. Qed.

(** Without write failures, what is last in line, or on disk, stays so. *)
Lemma iterate_holds w now later v :
  ordered (line w) -> Forall (fun x => writable x.2) (line w) ->
  holds w v -> holds (iterate w now later NoFault) v.
Proof.
  intros Ho Hw Hv. unfold iterate. destruct (running w) eqn:Hr; cbn [negb]; [|done].
  assert (forall q, pending (debounce w) = Some q -> writable (ps_value q)) as Hp.
  { intros q Ep. rewrite Forall_forall in Hw. by apply (Hw _ (pending_line w q Hr Ep)). }
  apply (holds_split w v Hr) in Hv.
  assert (forall t, holds (commit_due w t NoFault) v) as Hdue.
  { intros t. destruct (commit_due_cases w t NoFault) as [_ (H1 & H2 & _)]. apply holds_split; [by rewrite H1|].
    rewrite H2. destruct (last (live_saves (queue w))); [done|]. destruct Hv as [g Hg]. exists g.
    exact (commit_due_reads w t (g, v) Hp Hg). }
  assert (forall rest, live_saves (queue w) = [] ->
            reads (disk (commit_pending (w <| queue := rest |>) NoFault)) v) as Hend.
  { intros rest E. rewrite E in Hv. destruct Hv as [g Hg].
    apply (commit_pending_reads (w <| queue := rest |>) (g, v)); [exact Hp|exact Hg]. }
  assert (queue w = [] -> reads (disk (commit_pending w NoFault)) v) as Hdone.
  { intros E. rewrite <- (eta_queue w) at 1. apply Hend. by rewrite E. }
  assert (forall g x rest, queue w = Save g x :: rest ->
            holds (accept_save (w <| queue := rest |>) later g x) v) as Hsave.
  { intros g x rest Hq. apply holds_split; [done|].
    change (queue (accept_save (w <| queue := rest |>) later g x)) with rest. rewrite Hq in Hv. cbn in Hv.
    rewrite last_cons in Hv. destruct (last (live_saves rest)); [done|]. exists g. left.
    rewrite accept_save_waits by (intros q Ep; by eapply pending_before). cbn in *. by subst. }
  unfold receive. destruct (peek_deadline (debounce w)) as [t|].
  - destruct (t <=? now); [apply Hdue|].
    destruct (queue w) as [|[g x|] rest] eqn:Hq; [|by apply Hsave|].
    + destruct (senders_gone w); [|apply Hdue]. exact (Hdone eq_refl).
    + exact (Hend rest eq_refl).
  - destruct (queue w) as [|[g x|] rest] eqn:Hq; [|by apply Hsave|].
    + destruct (senders_gone w); [exact (Hdone eq_refl)|].
      apply (holds_split w v Hr). by rewrite Hq.
    + exact (Hend rest eq_refl).
Qed.

End Written.

(** ** Executing effects *)

Definition schedule (w : Worker) (x : GenerationId * Preferences) : Worker := fst (try_schedule w x.1 x.2).

Lemma execute_worker x ans e :
  worker (execute x ans e) = fold_left schedule (persists [e]) (worker x).
Proof.
  destruct e; cbn; unfold send_device, begin_bounded_shutdown; cbn;
    try (repeat case_match; done).
  unfold schedule, try_schedule. by destruct (try_send _ _) as [w []].
Qed.

Lemma execute_all_worker ans es x :
  worker (fold_left (fun x f => execute x ans f) es x) = fold_left schedule (persists es) (worker x).
Proof.
  revert x. induction es as [|e es IH]; intros x; cbn [fold_left]; [done|].
  rewrite IH, execute_worker. change (e :: es) with ([e] ++ es). unfold persists.
  by rewrite (omap_app _ [e] es), fold_left_app.
Qed.

Lemma schedule_line w x :
  line (schedule w x) = line w \/ line (schedule w x) = line w ++ [x].
Proof.
  destruct x as [g v]. unfold schedule, try_schedule, try_send. cbn [fst snd].
  destruct (running w) eqn:Hr; [|by left]. cbn [negb].
  destruct (Nat.leb _ _); [by left|]. unfold line. cbn. rewrite Hr.
  assert (live_saves (queue w ++ [Save g v]) = live_saves (queue w) \/
          live_saves (queue w ++ [Save g v]) = live_saves (queue w) ++ [(g, v)]) as [-> | ->].
  { induction (queue w) as [|[g' v'|] q IH]; cbn; [by right| |by left]. destruct IH as [-> | ->]; auto. }
  - by left.
  - right. by rewrite app_assoc.
Qed.

Lemma schedule_accepted w x :
  calm w -> (length (queue w) < COMMAND_CHANNEL_CAPACITY)%nat -> line (schedule w x) = line w ++ [x].
Proof.
  destruct x as [g v]. intros (Hr & _ & Hq) Hl. unfold schedule, try_schedule, try_send. rewrite Hr. cbn [negb].
  destruct (Nat.leb_spec COMMAND_CHANNEL_CAPACITY (length (queue w))); [lia|].
  unfold line. cbn. rewrite Hr, live_saves_snoc by done. by rewrite app_assoc.
Qed.

Lemma schedule_calm w x : calm w -> calm (schedule w x).
Proof.
  intros (Hr & Hs & Hq). unfold schedule, try_schedule, try_send. rewrite Hr. cbn [negb].
  destruct (Nat.leb _ _); cbn; [done|]. split; [done|]. split; [done|]. cbn. set_solver.
Qed.

Lemma schedule_flags w x : running (schedule w x) = running w /\ acknowledged (schedule w x) = acknowledged w.
Proof. unfold schedule, try_schedule, try_send. by repeat case_match. Qed.

(** The latch. *)
Lemma execute_latch x ans e :
  (begin_shutdown_started (execute x ans e) = true ->
   begin_shutdown_started x = true \/ e = EffBeginShutdown) /\
  (begin_shutdown_started (execute x ans e) = false ->
   begin_shutdown_started x = false /\ coordinator (execute x ans e) = coordinator x).
Proof.
  destruct e; cbn; unfold send_device, begin_bounded_shutdown, report_channel_loss, tell; cbn;
    repeat case_match; cbn; split; intros Hb; auto; congruence.
Qed.

Lemma execute_all_latch ans es x :
  let x' := fold_left (fun x f => execute x ans f) es x in
  (begin_shutdown_started x' = true -> begin_shutdown_started x = true \/ EffBeginShutdown ∈ es) /\
  (begin_shutdown_started x' = false -> begin_shutdown_started x = false /\ coordinator x' = coordinator x).
Proof.
  revert x. induction es as [|e es IH]; intros x; cbn; [auto|].
  destruct (IH (execute x ans e)) as [I1 I2]. destruct (execute_latch x ans e) as [L1 L2]. split.
  - intros [Hb|Hb]%I1; [|right; by right]. destruct (L1 Hb) as [?| ->]; [by left|right; by left].
  - intros [Hb ->]%I2. by apply L2.
Qed.

Lemma execute_all_app ans es x : app (fold_left (fun x f => execute x ans f) es x) = app x.
Proof.
  revert x. induction es as [|e es IH]; intros x; cbn; [done|]. rewrite IH.
  destruct e; cbn; unfold send_device, begin_bounded_shutdown, report_channel_loss, tell;
    repeat case_match; done.
Qed.

(** ** Whole runs *)

Section Shells.
Context `{SettingsJson} (tl : string -> string).

Definition settings_generation (x : Shell) : Z := gen_preferences (generations (app x)).

(** After [n] steps from the start. *)
Record shell_ok (n : nat) (x : Shell) : Prop := {
  so_line : ordered (line (worker x));
  so_bound : Forall (fun y => y.1 <= settings_generation x) (line (worker x));
  so_writable : Forall (fun y => writable y.2) (line (worker x));
  so_geometry : valid_geometry (win_geometry (window (app x)));
  so_generation : 0 <= settings_generation x <= Z.of_nat n;
  so_latch : begin_shutdown_started x = true -> shutting_down (app x) = true;
  so_calm : begin_shutdown_started x = false -> coordinator x = None /\ calm (worker x);
  so_acknowledged : acknowledged (worker x) = true -> running (worker x) = false;
}.

Lemma state_writable s :
  valid_geometry (win_geometry (window s)) -> writable (preferences_from_state s).
Proof. intros Hg. split; [done|]. by apply valid_finite. Qed.

Lemma start_ok loaded locale d b :
  shell_ok 0 (start_shell (initial_state loaded locale) (spawn_preferences_worker d true) b).
Proof.
  constructor; cbn; try done.
  - constructor.
  - unfold initial_state. cbn. destruct (validate_geometry (pref_window (pl_value loaded))) as [g|] eqn:E; cbn.
    + by eapply validated_is_valid.
    + apply default_valid.
  - intros _. split; [done|]. split; [done|]. split; [done|]. cbn. set_solver.
Qed.

Lemma suffix_ordered l l' : l' `suffix_of` l -> ordered l -> ordered l'.
Proof.
  intros [k ->]. unfold ordered. induction k as [|y k IH]; [done|]. cbn. intros [Ho _]%StronglySorted_inv.
  by apply IH.
Qed.
Lemma suffix_forall {A} (P : A -> Prop) l l' : l' `suffix_of` l -> Forall P l -> Forall P l'.
Proof. intros [k ->] Hf. by apply Forall_app in Hf as [_ ?]. Qed.

Lemma ordered_snoc l x : ordered l -> Forall (fun y => y.1 <= x.1) l -> ordered (l ++ [x]).
Proof.
  unfold ordered. induction l as [|y l IH]; intros Ho Hf; cbn; [by repeat constructor|].
  apply StronglySorted_inv in Ho as [Ho Hy]. apply Forall_cons in Hf as [H1 Hf]. constructor; [by apply IH|].
  apply Forall_app. split; [done|]. by repeat constructor.
Qed.

Lemma pass_ok n x now later fault :
  shell_ok n x -> shell_ok (S n) (x <| worker := iterate (worker x) now later fault |>).
Proof.
  intros [I1 I2 I3 I4 I5 I6 I7 I8]. pose proof (iterate_line (worker x) now later fault I1) as Hs.
  constructor; cbn.
  - by eapply suffix_ordered.
  - by eapply suffix_forall.
  - by eapply suffix_forall.
  - exact I4.
  - change (settings_generation _) with (settings_generation x). lia.
  - exact I6.
  - intros Hb. destruct (I7 Hb). split; [done|]. by apply iterate_calm.
  - by apply iterate_acknowledged.
Qed.

Lemma coordinate_ok n x ok : shell_ok n x -> shell_ok (S n) (coordinate x ok).
Proof.
  intros [I1 I2 I3 I4 I5 I6 I7 I8].
  assert (forall x', worker x' = worker x -> app x' = app x ->
            begin_shutdown_started x' = begin_shutdown_started x ->
            (begin_shutdown_started x = false -> coordinator x' = None) -> shell_ok (S n) x') as Hkeep.
  { intros x' Ew Ea Eb Ec. constructor; unfold settings_generation in *; rewrite ?Ew, ?Ea, ?Eb; try done; [lia|].
    intros Hb. destruct (I7 Hb). auto. }
  assert (coordinator x <> None -> begin_shutdown_started x = true) as Hc.
  { intros Hn. destruct (begin_shutdown_started x) eqn:E; [done|]. by destruct (I7 eq_refl). }
  unfold coordinate. destruct (coordinator x) as [[]|] eqn:Es; try specialize (Hc ltac:(done));
    try (apply Hkeep; cbn; (done || congruence)).
  assert (line (fst (try_flush_and_shutdown (worker x))) = line (worker x)
    /\ acknowledged (fst (try_flush_and_shutdown (worker x))) = acknowledged (worker x)
    /\ running (fst (try_flush_and_shutdown (worker x))) = running (worker x)) as (El & Ea & Er).
  { unfold try_flush_and_shutdown, try_send. repeat case_match; cbn; try done. unfold line. cbn.
    by rewrite live_saves_flush. }
  assert (forall st, shell_ok (S n) (x <| calls := calls x ++ [FlushCall] |>
            <| worker := fst (try_flush_and_shutdown (worker x)) |> <| coordinator := Some st |>)) as Hf.
  { intros st. constructor; cbn; rewrite ?El, ?Ea, ?Er; try done;
      [change (settings_generation _) with (settings_generation x); lia|congruence]. }
  change (worker (x <| calls := calls x ++ [FlushCall] |>)) with (worker x).
  destruct (try_flush_and_shutdown (worker x)) as [w []]; apply Hf.
Qed.

Lemma handle_ok n x e ans :
  Z.of_nat n < 2 ^ 64 - 1 -> shell_ok n x -> shell_ok (S n) (handle_event tl x e ans).
Proof.
  intros Hn [I1 I2 I3 I4 I5 I6 I7 I8]. unfold handle_event.
  pose proof (reduce_persists tl (app x) e) as Hp. cbv zeta in Hp.
  pose proof (reduce_geometry tl (app x) e I4) as Hg.
  pose proof (begin_means_quitting tl (app x) e) as Hb. pose proof (reduce_shutting_down tl (app x) e) as Hd.
  destruct (reduce tl (app x) e) as [s t]. cbn [fst snd] in *.
  set (x' := fold_left _ (t_effects t) _).
  assert (app x' = s) as Ea by apply execute_all_app.
  destruct (execute_all_latch ans (t_effects t) (x <| app := s |>)) as [L1 L2]. fold x' in L1, L2. cbn in L1, L2.
  assert (worker x' = fold_left schedule (persists (t_effects t)) (worker x)) as Ew by (unfold x'; by rewrite execute_all_worker).
  assert (settings_generation x <= gen_preferences (generations s) <= Z.of_nat (S n)) as Hgen.
  { unfold settings_generation in *. destruct Hp as [[_ ->]|[_ ->]]; [lia|]. rewrite u64_succ_no_overflow; lia. }
  assert (Forall (fun y => y.1 <= gen_preferences (generations s)) (line (worker x))) as Hbound.
  { eapply Forall_impl; [exact I2|]. cbn. intros y Hy. lia. }
  assert (line (worker x') = line (worker x) \/
          line (worker x') = line (worker x) ++ [(gen_preferences (generations s), preferences_from_state s)]) as Hl.
  { rewrite Ew. destruct Hp as [[-> _]|[-> _]]; cbn [fold_left]; [by left|apply schedule_line]. }
  constructor; unfold settings_generation; rewrite ?Ea; try done.
  - destruct Hl as [-> | ->]; [done|]. by apply ordered_snoc.
  - destruct Hl as [-> | ->]; [done|]. apply Forall_app. split; [done|]. repeat constructor; cbn. lia.
  - destruct Hl as [-> | ->]; [done|]. apply Forall_app. split; [done|]. repeat constructor; cbn.
    by apply state_writable.
  - lia.
  - intros [Hx|Hx]%L1; auto.
  - intros [Hx ->]%L2. destruct (I7 Hx) as [Hc Hcalm]. split; [done|]. rewrite Ew.
    destruct Hp as [[-> _]|[-> _]]; cbn [fold_left]; [done|by apply schedule_calm].
  - rewrite Ew. destruct Hp as [[-> _]|[-> _]]; cbn [fold_left]; [done|].
    destruct (schedule_flags (worker x) (gen_preferences (generations s), preferences_from_state s)) as [-> ->]. done.
Qed.

Lemma step_ok n x st :
  Z.of_nat n < 2 ^ 64 - 1 -> shell_ok n x -> shell_ok (S n) (shell_step tl x st).
Proof.
  intros Hn Hx. destruct st; cbn; [by apply handle_ok|by apply pass_ok|by apply coordinate_ok].
Qed.

Lemma shell_run_ok n x steps :
  Z.of_nat (n + length steps) < 2 ^ 64 - 1 -> shell_ok n x -> shell_ok (n + length steps) (run_shell tl x steps).
Proof.
  revert n x. induction steps as [|st steps IH]; intros n x Hn Hx; cbn [run_shell fold_left length].
  - by rewrite Nat.add_0_r.
  - rewrite Nat.add_succ_r. rewrite <- Nat.add_succ_l. apply IH; [cbn in Hn; lia|].
    apply step_ok; [cbn in Hn; lia|done].
Qed.

Lemma handle_worker x e ans :
  app (handle_event tl x e ans) = (reduce tl (app x) e).1 /\
  worker (handle_event tl x e ans)
  = fold_left schedule (persists (t_effects (reduce tl (app x) e).2)) (worker x).
Proof.
  unfold handle_event. destruct (reduce tl (app x) e) as [s t].
  by rewrite execute_all_app, execute_all_worker.
Qed.

Lemma coordinate_frame x ok :
  app (coordinate x ok) = app x /\ line (worker (coordinate x ok)) = line (worker x)
  /\ disk (worker (coordinate x ok)) = disk (worker x).
Proof.
  unfold coordinate. destruct (coordinator x) as [[]|]; try done.
  unfold try_flush_and_shutdown, try_send. repeat case_match; simplify_eq/=; try done.
  split; [done|]. split; [|done]. unfold line. cbn. by rewrite live_saves_flush.
Qed.

Lemma step_generation n x st :
  Z.of_nat n < 2 ^ 64 - 1 -> shell_ok n x -> settings_generation x <= settings_generation (shell_step tl x st).
Proof.
  intros Hn Hx. pose proof (so_generation _ _ Hx) as Hg. unfold settings_generation in *. destruct st; cbn.
  - rewrite (proj1 (handle_worker x e ans)).
    destruct (reduce_persists tl (app x) e) as [[_ ->]|[_ ->]]; [lia|]. rewrite u64_succ_no_overflow; lia.
  - lia.
  - rewrite (proj1 (coordinate_frame x ok)). lia.
Qed.

Definition no_fault (st : ShellStep) : Prop :=
  match st with WorkerPass _ _ fault => fault = NoFault | _ => True end.

Context (Hprint : forall v, is_Some (to_string_pretty v)).

(** While no setting changes, what is last in line stays so. *)
Lemma step_holds n x st v :
  Z.of_nat n < 2 ^ 64 - 1 -> shell_ok n x -> no_fault st ->
  settings_generation (shell_step tl x st) = settings_generation x ->
  holds (worker x) v -> holds (worker (shell_step tl x st)) v.
Proof.
  intros Hn Hx Hf Hg Hv. pose proof (so_generation _ _ Hx) as Hb. destruct st; cbn in *.
  - destruct (handle_worker x e ans) as [Ea Ew]. unfold settings_generation in *. rewrite Ea in Hg. rewrite Ew.
    destruct (reduce_persists tl (app x) e) as [[-> _]|[_ E]]; [done|].
    rewrite E, u64_succ_no_overflow in Hg; lia.
  - subst fault. apply iterate_holds; [done|apply (so_line _ _ Hx)|apply (so_writable _ _ Hx)|done].
  - destruct (coordinate_frame x ok) as (_ & El & Ed). unfold holds in *. by rewrite El, Ed.
Qed.

Lemma run_holds n x steps v :
  Z.of_nat (n + length steps) < 2 ^ 64 - 1 -> shell_ok n x -> Forall no_fault steps ->
  settings_generation (run_shell tl x steps) = settings_generation x ->
  holds (worker x) v -> holds (worker (run_shell tl x steps)) v.
Proof.
  intros Hn Hx. induction steps as [|st steps IH] using rev_ind; intros Hf Hg Hv; [done|].
  rewrite length_app in Hn. cbn in Hn. apply Forall_app in Hf as [Hf Hst]. apply Forall_cons in Hst as [Hst _].
  unfold run_shell in *. rewrite fold_left_app in *. cbn [fold_left] in *.
  assert (shell_ok (n + length steps) (fold_left (shell_step tl) steps x)) as Hy by (apply shell_run_ok; [lia|done]).
  assert (settings_generation x <= settings_generation (fold_left (shell_step tl) steps x)) as Hle.
  { clear IH Hg Hf Hy Hv. induction steps as [|st' steps IH'] using rev_ind; [done|].
    rewrite length_app in Hn. cbn in Hn. rewrite fold_left_app. cbn [fold_left]. etrans; [apply IH'; lia|].
    apply (step_generation (n + length steps)); [lia|]. apply shell_run_ok; [lia|done]. }
  assert (Z.of_nat (n + length steps) < 2 ^ 64 - 1) as Hm by lia.
  pose proof (step_generation _ _ st Hm Hy) as Hle'.
  eapply step_holds; [exact Hm|exact Hy|done|lia|]. apply IH; [exact Hm|done|lia|done].
Qed.

End Shells.

Lemma restart_settings v n l :
  pref_schema_version v = PREFERENCES_SCHEMA_VERSION -> valid_geometry (pref_window v) ->
  preferences_from_state (initial_state {| pl_value := v; pl_notice := n |} l) = v.
Proof.
  destruct v. unfold valid_geometry, initial_state, preferences_from_state. cbn. intros -> ->. done.
Qed.

(** C8: What the user set is there again after a restart.  The shell runs with any
    events, worker passes and answers of its services, and is then asked to
    quit while the settings queue has room; if afterwards no setting is
    written any more, no write fails, and the worker has acknowledged the
    flush of the shutdown coordinator, then a shell started from the resulting
    folder has exactly the settings (shortcut, theme, language, page, window,
    tray and start-up choices) the first one had when it was asked to quit.
    The run must be shorter than the range of the 64-bit generation counter. *)
Theorem settings_survive_quit `{SettingsJson} (tl : string -> string) loaded locale d b pre ans post locale' :
  (forall v, is_Some (to_string_pretty v)) ->
  Z.of_nat (length pre + length post) < 2 ^ 64 - 2 ->
  let x1 := run_shell tl (start_shell (initial_state loaded locale) (spawn_preferences_worker d true) b) pre in
  let x2 := handle_event tl x1 QuitRequested ans in
  let x3 := run_shell tl x2 post in
  shutting_down (app x1) = false -> (length (queue (worker x1)) < COMMAND_CHANNEL_CAPACITY)%nat ->
  Forall no_fault post ->
  gen_preferences (generations (app x3)) = gen_preferences (generations (app x2)) ->
  acknowledged (worker x3) = true ->
  preferences_from_state (initial_state (load (disk (worker x3))) locale') = preferences_from_state (app x2).
Proof.
  intros Hprint Hlen x1 x2 x3 Hs Hq Hf Hg Ha.
  assert (shell_ok (length pre) x1) as Ok1 by (apply (shell_run_ok tl 0); [lia|apply start_ok]).
  destruct (begin_shutdown_started x1) eqn:Eb; [by rewrite (so_latch _ _ Ok1 Eb) in Hs|].
  destruct (so_calm _ _ Ok1 Eb) as [_ Hcalm].
  assert (shell_ok (S (length pre)) x2) as Ok2 by (apply handle_ok; [lia|done]).
  destruct (handle_worker tl x1 QuitRequested ans) as [Ea Ew]. fold x2 in Ea, Ew.
  rewrite (quit_persists tl (app x1) Hs), <- Ea in Ew. cbn [fold_left] in Ew.
  assert (holds (worker x2) (preferences_from_state (app x2))) as Hv.
  { unfold holds. by rewrite Ew, schedule_accepted, last_snoc. }
  assert (holds (worker x3) (preferences_from_state (app x2))) as Hv3.
  { apply (run_holds tl Hprint (S (length pre))); [lia|done..]. }
  assert (shell_ok (S (length pre) + length post) x3) as Ok3 by (apply shell_run_ok; [lia|done]).
  unfold holds, line in Hv3. rewrite (so_acknowledged _ _ Ok3 Ha) in Hv3. cbn in Hv3.
  unfold reads in Hv3. rewrite Hv3. by apply restart_settings; [|apply (so_geometry _ _ Ok2)].
Qed.
(** ** The flush ends *)

Section Flush.
Context `{SettingsJson}.

(** Passes still needed: two per command at most. *)
Definition work (w : Worker) : nat := 2 * length (queue w) + length (waiting (debounce w)).

Lemma waiting_one d : (length (waiting d) <= 1)%nat.
Proof. unfold waiting. destruct (pending d); cbn; lia. Qed.

Lemma pass_progress w now later fault :
  running w = true -> FlushAndShutdown ∈ queue w ->
  let w' := iterate w now later fault in
  acknowledged w' = true /\ running w' = false \/
  running w' = true /\ FlushAndShutdown ∈ queue w' /\ (work w' < work w)%nat.
Proof.
  intros Hr Hq. unfold iterate. rewrite Hr. cbn [negb]. unfold receive, peek_deadline.
  assert (forall t q, pending (debounce w) = Some q -> deadline_ms q <= t ->
    running (commit_due w t fault) = true /\ FlushAndShutdown ∈ queue (commit_due w t fault)
    /\ (work (commit_due w t fault) < work w)%nat) as Hdue.
  { intros t q Ep Ht. destruct (commit_due_cases w t fault) as [_ (H1 & H2 & _)].
    rewrite H1, H2. split; [done|]. split; [done|]. unfold work. rewrite H2.
    assert (waiting (debounce (commit_due w t fault)) = []) as ->.
    { unfold commit_due, take_due. rewrite Ep. destruct (Z.leb_spec (deadline_ms q) t); [|lia].
      unfold take_pending. rewrite Ep. cbn. unfold commit. by destruct (save_atomic _ _ _) as [? []]. }
    unfold waiting. rewrite Ep. cbn. lia. }
  destruct (queue w) as [|c rest] eqn:Eq; [by apply elem_of_nil in Hq|].
  assert (forall g v, c = Save g v ->
    running (accept_save (w <| queue := rest |>) later g v) = true /\
    FlushAndShutdown ∈ queue (accept_save (w <| queue := rest |>) later g v) /\
    (work (accept_save (w <| queue := rest |>) later g v) < work w)%nat) as Hsave.
  { intros g v ->. split; [done|]. split; [cbn; set_solver|]. unfold work. rewrite Eq. cbn [length].
    change (queue (accept_save (w <| queue := rest |>) later g v)) with rest.
    pose proof (waiting_one (debounce (accept_save (w <| queue := rest |>) later g v))). lia. }
  destruct (pending (debounce w)) as [q|] eqn:Ep; cbn.
  - destruct (Z.leb_spec (deadline_ms q) now) as [Hd|Hd]; [right; by apply (Hdue now q)|].
    destruct c as [g v|]; [right; by apply Hsave|by left].
  - destruct c as [g v|]; [right; by apply Hsave|by left].
Qed.

(** Once the flush of the shutdown is in the settings worker's queue, it is
    acknowledged and the worker ends after at most two passes per queued
    command (thirty-three for a full queue), whatever the clock shows and
    whichever writes fail. *)
Theorem flush_is_acknowledged w passes :
  running w = true -> FlushAndShutdown ∈ queue w -> (work w <= length passes)%nat ->
  let w' := fold_left (fun w (p : Z * Z * Fault) => iterate w p.1.1 p.1.2 p.2) passes w in
  acknowledged w' = true /\ running w' = false.
Proof.
  revert w. induction passes as [|p passes IH]; intros w Hr Hq Hl.
  - exfalso. cbn in Hl. unfold work in Hl. destruct (queue w); [by apply elem_of_nil in Hq|]. cbn in Hl. lia.
  - cbn [fold_left]. destruct (pass_progress w p.1.1 p.1.2 p.2 Hr Hq) as [[Ha Hs]|(Hr' & Hq' & Hw)].
    + assert (fold_left (fun w (p : Z * Z * Fault) => iterate w p.1.1 p.1.2 p.2) passes
                (iterate w p.1.1 p.1.2 p.2) = iterate w p.1.1 p.1.2 p.2) as ->; [|done].
      clear IH Hl. induction passes as [|p' passes IHp]; [done|]. cbn [fold_left].
      assert (iterate (iterate w p.1.1 p.1.2 p.2) p'.1.1 p'.1.2 p'.2 = iterate w p.1.1 p.1.2 p.2) as ->; [|done].
      unfold iterate at 1. by rewrite Hs.
    + apply IH; [done|done|]. cbn [length] in Hl. lia.
Qed.
End Flush.

(** ** The exit *)

#[local] Instance UiEffect_eq_dec : EqDecision UiEffect.
Proof. solve_decision. Defined.
Definition closing (l : list UiEffect) : list UiEffect :=
  filter (fun e => e = UiDropTray \/ e = UiCloseApplication) l.
Definition ui_done (st : Stage) : list UiEffect :=
  match st with
  | ArmValve | DropTheTray => []
  | Done => [UiDropTray; UiCloseApplication]
  | _ => [UiDropTray]
  end.
Definition all_calls (b : ShutdownBudgets) : list StageCall :=
  [ShutdownDevice (b_device b); ShutdownHotkey (b_hotkey b); FlushCall].
Definition calls_done (b : ShutdownBudgets) (st : Stage) : list StageCall :=
  match st with
  | ArmValve | DropTheTray | StopDevice => []
  | StopHotkey => take 1 (all_calls b)
  | FlushPreferences => take 2 (all_calls b)
  | _ => all_calls b
  end.
Definition stages_left (st : Stage) : nat :=
  match st with
  | ArmValve => 7 | DropTheTray => 6 | StopDevice => 5 | StopHotkey => 4 | FlushPreferences => 3
  | AwaitFlush => 2 | CloseUp => 1 | Done => 0
  end.

Record exit_ok (b : ShutdownBudgets) (x : Shell) : Prop := {
  eo_budgets : budgets x = b;
  eo_latch : begin_shutdown_started x = true -> shutting_down (app x) = true;
  eo_idle : begin_shutdown_started x = false -> coordinator x = None /\ closing (ui x) = [] /\ calls x = [];
  eo_no_thread : begin_shutdown_started x = true -> coordinator x = None ->
    closing (ui x) = [UiDropTray; UiCloseApplication] /\ calls x = [];
  eo_thread st : begin_shutdown_started x = true -> coordinator x = Some st ->
    closing (ui x) = ui_done st /\ calls x = calls_done b st;
}.

Lemma closing_snoc l e : closing (l ++ [e]) = closing l ++ closing [e].
Proof. apply filter_app. Qed.

Definition is_coordination (st : ShellStep) : bool := match st with Coordinate _ => true | _ => false end.
Definition coordinations (steps : list ShellStep) : nat := length (List.filter is_coordination steps).

(** Effects other than the shutdown itself leave the exit alone. *)
Lemma execute_exit x ans e :
  e <> EffBeginShutdown ->
  let x' := execute x ans e in
  budgets x' = budgets x /\ begin_shutdown_started x' = begin_shutdown_started x /\
  coordinator x' = coordinator x /\ calls x' = calls x /\ closing (ui x') = closing (ui x).
Proof.
  intros He. destruct e; cbn; unfold send_device, report_channel_loss, tell;
    repeat case_match; try done; cbn; rewrite closing_snoc; cbn; by rewrite app_nil_r.
Qed.

Lemma execute_exit_ok b x ans e :
  (e = EffBeginShutdown -> shutting_down (app x) = true) ->
  exit_ok b x -> exit_ok b (execute x ans e) /\ app (execute x ans e) = app x /\
    (begin_shutdown_started x = true \/ e = EffBeginShutdown ->
     begin_shutdown_started (execute x ans e) = true).
Proof.
  intros Hs Hx. assert (app (execute x ans e) = app x) as Ha by exact (execute_all_app ans [e] x).
  assert (e = EffBeginShutdown \/ e <> EffBeginShutdown) as [->|He] by (destruct e; (by left) || by right).
  - destruct Hx as [B0 B1 B2 B3 B4]. cbn in *. unfold begin_bounded_shutdown in *.
    destruct (begin_shutdown_started x) eqn:Eb; [split; [by constructor; rewrite ?Eb|done]|].
    destruct (B2 eq_refl) as (Hc & Hu & Hl). destruct (coordinator_spawns ans); cbn in *.
    + split; [|done]. constructor; cbn; auto; try done. by intros ? _ [= <-].
    + split; [|done]. constructor; cbn; auto; try done; [|congruence].
      intros _ _. by rewrite !closing_snoc, Hu.
  - destruct (execute_exit x ans e He) as (E1 & E2 & E3 & E4 & E5). destruct Hx as [B0 B1 B2 B3 B4].
    split; [|split; [done|]].
    + constructor; rewrite ?E1, ?E2, ?E3, ?E4, ?E5, ?Ha; auto.
    + rewrite E2. by intros [?| ->].
Qed.

Lemma execute_all_exit b ans es x :
  (EffBeginShutdown ∈ es -> shutting_down (app x) = true) -> exit_ok b x ->
  let x' := fold_left (fun x f => execute x ans f) es x in
  exit_ok b x' /\
  (begin_shutdown_started x = true \/ EffBeginShutdown ∈ es -> begin_shutdown_started x' = true).
Proof.
  revert x. induction es as [|e es IH]; intros x Hs Hx; cbn [fold_left].
  - split; [done|]. intros [?|?%elem_of_nil]; done.
  - destruct (execute_exit_ok b x ans e) as (Hx' & Ha & Hb); [intros ->; apply Hs; by left|done|].
    destruct (IH (execute x ans e)) as [I1 I2]; [rewrite Ha; intros ?; apply Hs; by right|done|].
    split; [done|]. intros [Hin|Hin]; apply I2; [left; auto|].
    apply elem_of_cons in Hin as [<-|Hin]; [left; auto|by right].
Qed.

Section Exit.
Context `{SettingsJson} (tl : string -> string).

Lemma handle_exit b x e ans :
  exit_ok b x -> exit_ok b (handle_event tl x e ans) /\
  (begin_shutdown_started x = true \/ EffBeginShutdown ∈ t_effects (reduce tl (app x) e).2 ->
   begin_shutdown_started (handle_event tl x e ans) = true).
Proof.
  intros Hx. unfold handle_event. pose proof (begin_means_quitting tl (app x) e) as Hb.
  pose proof (reduce_shutting_down tl (app x) e) as Hd. destruct (reduce tl (app x) e) as [s t]. cbn [fst snd] in *.
  set (y := x <| app := s |>). assert (exit_ok b y) as Hy.
  { destruct Hx as [B0 B1 B2 B3 B4]. constructor; cbn; auto. }
  exact (execute_all_exit b ans (t_effects t) y Hb Hy).
Qed.

Lemma coordinate_exit b x ok :
  exit_ok b x ->
  exit_ok b (coordinate x ok) /\ begin_shutdown_started (coordinate x ok) = begin_shutdown_started x /\
  (forall st, coordinator x = Some st -> exists st', coordinator (coordinate x ok) = Some st' /\
     (stages_left st' <= stages_left st - 1)%nat) /\
  (coordinator x = None -> coordinator (coordinate x ok) = None).
Proof.
  intros [B0 B1 B2 B3 B4].
  destruct (coordinator x) as [st|] eqn:Es; [|by unfold coordinate; rewrite Es; split_and!; [by constructor; rewrite ?Es|..]].
  destruct (begin_shutdown_started x) eqn:Eb; [|by destruct (B2 eq_refl)].
  destruct (B4 st eq_refl eq_refl) as [Hu Hc].
  unfold coordinate. rewrite Es.
  assert (forall x' st', budgets x' = b -> app x' = app x -> begin_shutdown_started x' = true ->
    coordinator x' = Some st' -> closing (ui x') = ui_done st' -> calls x' = calls_done b st' ->
    (stages_left st' <= stages_left st - 1)%nat ->
    exit_ok b x' /\ begin_shutdown_started x' = true /\
    (forall s0, Some st = Some s0 -> exists s', coordinator x' = Some s' /\ (stages_left s' <= stages_left s0 - 1)%nat) /\
    (Some st = None -> coordinator x' = None)) as Hgo.
  { intros x' st' E1 E2 E3 E4 E5 E6 Hl. split.
    - constructor; rewrite ?E2, ?E3, ?E4; auto; [done|done|]. by intros ? _ [= <-].
    - split; [done|]. split; [|done]. intros ? [= <-]. eauto. }
  destruct st; cbn in Hu, Hc.
  - eapply Hgo; cbn; eauto. 
  - eapply Hgo; cbn; eauto. by rewrite closing_snoc, Hu.
  - eapply Hgo; cbn; eauto. by rewrite Hc, B0.
  - eapply Hgo; cbn; eauto. by rewrite Hc, B0.
  - destruct (try_flush_and_shutdown _) as [w []]; (eapply Hgo; cbn; eauto; [by rewrite Hc|lia..]).
  - eapply Hgo; cbn; eauto.
  - eapply Hgo; cbn; eauto. by rewrite closing_snoc, Hu.
  - eapply (Hgo x Done); eauto.
Qed.
Lemma run_exit b x steps : exit_ok b x -> exit_ok b (run_shell tl x steps).
Proof.
  revert x. induction steps as [|st steps IH]; intros x Hx; [done|]. apply IH. destruct st; cbn.
  - by apply handle_exit.
  - destruct Hx as [B0 B1 B2 B3 B4]. by constructor.
  - by apply coordinate_exit.
Qed.

Lemma handle_coordinator b x e ans :
  exit_ok b x -> begin_shutdown_started x = true -> coordinator (handle_event tl x e ans) = coordinator x.
Proof.
  intros Hx Hb. unfold handle_event. destruct (reduce tl (app x) e) as [s t].
  assert (forall es y, begin_shutdown_started y = true ->
    coordinator (fold_left (fun x f => execute x ans f) es y) = coordinator y) as Hes; [|set (y := x <| app := s |>); exact (Hes _ y Hb)].
  clear. induction es as [|f es IH]; intros y Hy; [done|]. cbn [fold_left].
  assert (begin_shutdown_started (execute y ans f) = true /\ coordinator (execute y ans f) = coordinator y)
    as [Hy' Hc]; [|by rewrite IH].
  destruct f; cbn; unfold send_device, begin_bounded_shutdown, report_channel_loss, tell; rewrite ?Hy;
    repeat case_match; done.
Qed.

(** A started shutdown ends after seven steps of its coordinator. *)
Lemma shutdown_ends b x steps :
  exit_ok b x -> begin_shutdown_started x = true ->
  (match coordinator x with Some st => stages_left st | None => 0 end <= coordinations steps)%nat ->
  let x' := run_shell tl x steps in
  begin_shutdown_started x' = true /\
  coordinator x' = match coordinator x with Some _ => Some Done | None => None end.
Proof.
  revert x. induction steps as [|st steps IH]; intros x Hx Hb Hl.
  - cbn in *. split; [done|]. destruct (coordinator x) as [[]|]; cbn in Hl; (done || lia).
  - assert (exit_ok b (shell_step tl x st)) as Hy by exact (run_exit b x [st] Hx).
    change (run_shell tl x (st :: steps)) with (run_shell tl (shell_step tl x st) steps).
    unfold coordinations in *. destruct st as [e ans|now later fault|ok]; cbn [shell_step] in *.
    + rewrite <- (handle_coordinator b x e ans Hx Hb) in *. apply IH; [done| |done].
      apply handle_exit with (b := b); auto.
    + by apply (IH _ Hy).
    + destruct (coordinate_exit b x ok Hx) as (_ & E1 & E2 & E3). rewrite Hb in E1.
      destruct (IH _ Hy E1) as [I1 I2].
      * destruct (coordinator x) as [st|] eqn:Es; [|rewrite E3 by done; lia].
        destruct (E2 st eq_refl) as (st' & -> & Hst). cbn in Hl. lia.
      * split; [done|]. rewrite I2. destruct (coordinator x) as [st|] eqn:Es; [|by rewrite E3].
        by destruct (E2 st eq_refl) as (st' & -> & _).
Qed.

Lemma quit_begins s : shutting_down s = false -> EffBeginShutdown ∈ t_effects (reduce tl s QuitRequested).2.
Proof.
  intros Hs. assert (tt ∈ begin_shutdowns (t_effects (reduce tl s QuitRequested).2)) as Hi.
  { unfold begin_shutdowns. rewrite (reduce_omap tl) by done. unfold start_suppressed. rewrite andb_false_r.
    change (tt ∈ begin_shutdowns (dispatch tl s QuitRequested).2.1).
    assert (begin_shutdowns (dispatch tl s QuitRequested).2.1 = [tt]) as ->; [|by left].
    cbn. unfold quit_requested. rewrite Hs. cbn. by destruct (is_running (stream s)). }
  unfold begin_shutdowns in Hi. apply list_elem_of_omap in Hi as (e & He & Hf). by destruct e.
Qed.

(** C9: A quit closes the application exactly once.  Whatever happened before and
    whatever the services answer, seven steps of the coordinator after the quit
    the window has been told to drop the tray icon and to close, in this order
    and once each, also when the coordinator thread or its exit valve could not
    be started; with the thread, the device, the shortcut service and the
    settings worker were shut down in this order, each once and with its own
    budget. *)
Theorem quit_closes_once s0 w b pre ans post :
  let x1 := run_shell tl (start_shell s0 w b) pre in
  let x2 := handle_event tl x1 QuitRequested ans in
  let x3 := run_shell tl x2 post in
  shutting_down (app x1) = false -> (7 <= coordinations post)%nat ->
  closing (ui x3) = [UiDropTray; UiCloseApplication] /\
  calls x3 = match coordinator x2 with Some _ => all_calls b | None => [] end.
Proof.
  intros x1 x2 x3 Hs Hn.
  assert (exit_ok b x1) as Ok1 by (apply run_exit; by constructor).
  destruct (handle_exit b x1 QuitRequested ans Ok1) as [Ok2 Hb]. fold x2 in Ok2, Hb.
  specialize (Hb (or_intror (quit_begins _ Hs))).
  destruct (shutdown_ends b x2 post Ok2 Hb) as [Hb3 Hc]. { destruct (coordinator x2) as [[]|]; cbn; lia. }
  fold x3 in Hb3, Hc. assert (exit_ok b x3) as Ok3 by by apply run_exit.
  destruct (coordinator x2).
  - by apply (eo_thread _ _ Ok3 Done).
  - by apply (eo_no_thread _ _ Ok3).
Qed.
End Exit.

(** The valve opens only after every stage had its budget, with four seconds
    left for the window. *)
Lemma stages_fit_the_valve b :
  0 <= b_device b -> 0 <= b_hotkey b -> b_device b + b_hotkey b + secs 6 <= DURATION_MAX ->
  sum_list_with (fun st => Z.to_nat (stage_budget b st))
    [ArmValve; DropTheTray; StopDevice; StopHotkey; FlushPreferences; AwaitFlush; CloseUp]
  = Z.to_nat (exit_valve b - VIEWPORT_TEARDOWN_SLACK).
Proof.
  intros H1 H2 H3. unfold exit_valve, worst_case, saturating_add, PREFERENCE_FLUSH_BUDGET, VIEWPORT_TEARDOWN_SLACK, secs in *.
  cbn [sum_list_with stage_budget]. unfold PREFERENCE_FLUSH_BUDGET, secs. lia.
Qed.

(** ** Witnesses: a format of thirty numbers *)

Definition write_float (x : f32) : list Z :=
  match x with
  | S754_zero sign => [0; Z.b2z sign; 1; 0]
  | S754_infinity sign => [1; Z.b2z sign; 1; 0]
  | S754_nan => [2; 0; 1; 0]
  | S754_finite sign m e => [3; Z.b2z sign; Zpos m; e]
  end.
Definition read_float (a b c d : Z) : f32 :=
  if a =? 0 then S754_zero (b =? 1)
  else if a =? 1 then S754_infinity (b =? 1)
  else if a =? 2 then S754_nan
  else S754_finite (b =? 1) (Z.to_pos c) d.
Definition write_place (x : option f32) : list Z :=
  match x with None => [0; 0; 0; 0; 0] | Some x => 1 :: write_float x end.
Definition read_place (t a b c d : Z) : option f32 := if t =? 0 then None else Some (read_float a b c d).
Definition page_number (p : Page) : Z :=
  match p with PageHome => 0 | PageSpeakers => 1 | PageGroups => 2 | PageAudio => 3 | PageDiagnostics => 4 | PageSettings => 5 end.
Definition theme_number (t : ThemePreference) : Z :=
  match t with ThemeSystem => 0 | ThemeLight => 1 | ThemeDark => 2 end.
Definition locale_number (l : LocalePreference) : Z :=
  match l with LocaleSystem => 0 | LocaleGerman => 1 | LocaleEnglish => 2 end.
Definition toy_page (n : Z) : Page :=
  nth (Z.to_nat n) [PageHome; PageSpeakers; PageGroups; PageAudio; PageDiagnostics; PageSettings] PageHome.
Definition toy_theme (n : Z) : ThemePreference := nth (Z.to_nat n) [ThemeSystem; ThemeLight; ThemeDark] ThemeSystem.
Definition toy_locale (n : Z) : LocalePreference := nth (Z.to_nat n) [LocaleSystem; LocaleGerman; LocaleEnglish] LocaleSystem.

Definition toy_write (v : Preferences) : text :=
  [pref_schema_version v; Z.b2z (hk_enabled (pref_hotkey v)); hk_modifiers (pref_hotkey v);
   hk_virtual_key (pref_hotkey v); theme_number (pref_theme v); locale_number (pref_locale v);
   Z.b2z (pref_advanced_information v); page_number (pref_last_page v); Z.b2z (pref_close_to_tray v);
   Z.b2z (pref_launch_at_startup v); Z.b2z (geo_maximized (pref_window v))]
  ++ write_float (geo_width (pref_window v)) ++ write_float (geo_height (pref_window v))
  ++ write_place (geo_x (pref_window v)) ++ write_place (geo_y (pref_window v)).
Definition toy_read (raw : text) : option Preferences :=
  match raw with
  | [s; he; hm; hv; th; lo; ad; pg; tr; la; mx; w1; w2; w3; w4; h1; h2; h3; h4; x0; x1; x2; x3; x4;
     y0; y1; y2; y3; y4; _] =>
      Some {| pref_schema_version := s;
              pref_hotkey := {| hk_enabled := he =? 1; hk_modifiers := hm; hk_virtual_key := hv |};
              pref_theme := toy_theme th; pref_locale := toy_locale lo;
              pref_advanced_information := ad =? 1;
              pref_window := {| geo_x := read_place x0 x1 x2 x3 x4; geo_y := read_place y0 y1 y2 y3 y4;
                                geo_width := read_float w1 w2 w3 w4; geo_height := read_float h1 h2 h3 h4;
                                geo_maximized := mx =? 1 |};
              pref_last_page := toy_page pg; pref_close_to_tray := tr =? 1;
              pref_launch_at_startup := la =? 1 |}
  | _ => None
  end.

Lemma bit_back b : (Z.b2z b =? 1) = b.
Proof. by destruct b. Qed.
Lemma float_back x : exists a b c d, write_float x = [a; b; c; d] /\ read_float a b c d = x.
Proof. destruct x as [[]|[]| |[] m e]; do 4 eexists; (split; [reflexivity|]); reflexivity. Qed.
Lemma place_back x : exists t a b c d, write_place x = [t; a; b; c; d] /\ read_place t a b c d = x.
Proof.
  destruct x as [x|]; [|do 5 eexists; split; reflexivity].
  destruct (float_back x) as (a & b & c & d & E1 & E2). cbn. rewrite E1.
  do 5 eexists. split; [reflexivity|]. cbn. by rewrite E2.
Qed.

Lemma toy_read_back v :
  hd_error (toy_write v ++ [LF]) = Some (pref_schema_version v) /\ toy_read (toy_write v ++ [LF]) = Some v.
Proof.
  split; [done|]. destruct v as [s [he hm hv] th lo ad [x y w h mx] pg tr la]. unfold toy_write.
  cbn [pref_schema_version pref_hotkey pref_theme pref_locale pref_advanced_information pref_last_page
       pref_close_to_tray pref_launch_at_startup pref_window geo_x geo_y geo_width geo_height geo_maximized
       hk_enabled hk_modifiers hk_virtual_key].
  destruct (float_back w) as (w1 & w2 & w3 & w4 & -> & Ew). destruct (float_back h) as (h1 & h2 & h3 & h4 & -> & Eh).
  destruct (place_back x) as (x0 & x1 & x2 & x3 & x4 & -> & Ex).
  destruct (place_back y) as (y0 & y1 & y2 & y3 & y4 & -> & Ey).
  cbn [Datatypes.app toy_read]. rewrite Ew, Eh, Ex, Ey, !bit_back.
  assert (toy_theme (theme_number th) = th) as -> by by destruct th.
  assert (toy_locale (locale_number lo) = lo) as -> by by destruct lo.
  assert (toy_page (page_number pg) = pg) as -> by by destruct pg. done.
Qed.

Definition toy_format : SettingsJson :=
  {| probe := hd_error; read_v1 := fun _ => None; read_v2 := toy_read;
     to_string_pretty := fun v => Some (toy_write v);
     read_back := fun v raw _ (E : Some (toy_write v) = Some raw) =>
       eq_ind (toy_write v) (fun raw => hd_error (raw ++ [LF]) = Some (pref_schema_version v) /\ toy_read (raw ++ [LF]) = Some v)
         (toy_read_back v) raw (f_equal (default []) E) |}.

Definition toy_answers : Answers :=
  {| device_answers := fun _ => Err Bridge.PortBusy; hotkey_answers := Ok tt; coordinator_spawns := true |}.
Definition toy_lower (s : string) : string := s.
Definition empty_disk : Disk := {| settings_file := None; temporary_file := None; legacy_hotkey_file := None |}.
Definition first_load : PreferencesLoad := {| pl_value := default_preferences; pl_notice := None |}.
Definition toy_pre : list ShellStep := [Handle (ThemeChanged ThemeDark) toy_answers; WorkerPass 0 10 NoFault].
Definition toy_post : list ShellStep :=
  replicate 5 (Coordinate true) ++ [WorkerPass 20 30 NoFault; WorkerPass 30 31 NoFault] ++ replicate 2 (Coordinate true).
Definition toy_before : Shell :=
  @run_shell toy_format toy_lower (start_shell (initial_state first_load English)
    (spawn_preferences_worker empty_disk true) default_budgets) toy_pre.
Definition toy_quit : Shell := handle_event toy_lower toy_before QuitRequested toy_answers.
Definition toy_end : Shell := @run_shell toy_format toy_lower toy_quit toy_post.

Lemma settings_survive_quit_witness :
  pref_theme (preferences_from_state (app toy_quit)) = ThemeDark /\
  preferences_from_state (initial_state (@load toy_format (disk (worker toy_end))) German)
  = preferences_from_state (app toy_quit).
Proof.
  split; [vm_compute; reflexivity|].
  apply (@settings_survive_quit toy_format toy_lower first_load English empty_disk default_budgets toy_pre
           toy_answers toy_post German).
  - intros v. eexists. reflexivity.
  - vm_compute. reflexivity.
  - vm_compute. reflexivity.
  - vm_compute. repeat constructor.
  - unfold toy_post. cbn. repeat constructor.
  - vm_compute. reflexivity.
  - vm_compute. reflexivity.
Defined.

Lemma quit_closes_once_witness :
  closing (ui toy_end) = [UiDropTray; UiCloseApplication] /\ calls toy_end = all_calls default_budgets.
Proof.
  apply (@quit_closes_once toy_format toy_lower (initial_state first_load English)
           (spawn_preferences_worker empty_disk true) default_budgets toy_pre toy_answers toy_post).
  - vm_compute. reflexivity.
  - vm_compute. repeat constructor.
Defined.

Definition full_queue : Worker :=
  (spawn_preferences_worker empty_disk true)
    <| queue := replicate 15 (Save 1 default_preferences) ++ [FlushAndShutdown] |>.
Definition failing_passes : list (Z * Z * Fault) := replicate 33 (0, 100000, SyncFails).

Lemma flush_is_acknowledged_witness :
  let w' := fold_left (fun w (p : Z * Z * Fault) => @iterate toy_format w p.1.1 p.1.2 p.2) failing_passes full_queue in
  acknowledged w' = true /\ running w' = false.
Proof.
  apply (@flush_is_acknowledged toy_format full_queue failing_passes).
  - reflexivity.
  - apply elem_of_app. right. by left.
  - vm_compute. repeat constructor.
Defined.

(** Settings are lost when the queue is full at the quit: neither the save nor
    the flush is taken, and nothing waits for the worker. *)
Definition stuffed : Shell :=
  (start_shell (initial_state first_load English)
     ((spawn_preferences_worker empty_disk true) <| queue := replicate 16 (Save 1 default_preferences) |>)
     default_budgets) <| app := (initial_state first_load English) <| theme := ThemeDark |> |>.
Lemma full_queue_loses_the_flush :
  let x := @run_shell toy_format toy_lower (handle_event toy_lower stuffed QuitRequested toy_answers)
             (replicate 7 (Coordinate true)) in
  closing (ui x) = [UiDropTray; UiCloseApplication] /\ acknowledged (worker x) = false /\
  FlushAndShutdown ∉ queue (worker x) /\ settings_file (disk (worker x)) = None.
Proof. vm_compute. split_and!; [done|done| |done]. set_solver. Qed.

(** A busy device queue swallows a start: nothing is sent and nobody is told. *)
Lemma busy_start_is_silent x g ids v :
  execute x toy_answers (EffStartSession g ids v) = x.
Proof. done. Qed.
End ExecutorProps.
