(* ===== verification/NetworkMonitor.v ===== *)
(** * Network-change monitor ([apps/openaircast/src/backend/network.rs])

    Folds bursts of interface notifications into one [NetworkChanged] edge per
    settle window, and compares the machine's bindings through an
    order-independent fingerprint.  The coalescing task is a step function:
    each await point is a place where the notifications of the operating
    system, a cancellation and the consumer interleave with it.  The hash
    functions and the address table are inputs. *)

From S2P Require Import Prelude Backend.

Module NetworkMonitor.

Definition NETWORK_SETTLE : Z := 2 * 10 ^ 9.
Definition PULSE_CAPACITY : nat := 32.

(** ** Fingerprint of the bindings *)

Record BindingAccumulator := { acc_xor : Z; acc_sum : Z; acc_count : Z }.
Definition empty_accumulator : BindingAccumulator := {| acc_xor := 0; acc_sum := 0; acc_count := 0 |}.
Definition absorb (a : BindingAccumulator) (row_digest : Z) : BindingAccumulator :=
  {| acc_xor := Z.lxor (acc_xor a) row_digest; acc_sum := wrap 64 (acc_sum a + row_digest);
     acc_count := wrap 64 (acc_count a + 1) |}.

Record AddressRow := {
  preferred : bool;            (* [DadState == IpDadStatePreferred] *)
  interface_luid : Z;
  prefix_length : Z;
  family : Z;
  address : list Z;
}.

Section Fingerprint.
(** [DefaultHasher] over a row and over the three channels. *)
Context (hash_row : AddressRow -> Z) (hash_three : Z -> Z -> Z -> Z).

Definition finish (a : BindingAccumulator) : Z := hash_three (acc_xor a) (acc_sum a) (acc_count a).

(** [None]: the table could not be read. *)
Definition fingerprint (table : option (list AddressRow)) : Z :=
  match table with
  | None => 0
  | Some rows =>
      finish (fold_left (fun a row => if preferred row then absorb a (hash_row row) else a) rows
                empty_accumulator)
  end.

Lemma absorb_swap a x y : absorb (absorb a x) y = absorb (absorb a y) x.
Proof.
  unfold absorb. cbn. f_equal.
  - rewrite !Z.lxor_assoc. f_equal. apply Z.lxor_comm.
  - unfold wrap. rewrite !Zplus_mod_idemp_l. f_equal. lia.
Qed.

Definition absorb_row (a : BindingAccumulator) (row : AddressRow) : BindingAccumulator :=
  if preferred row then absorb a (hash_row row) else a.

Lemma absorb_rows_permutation rows rows' :
  Permutation rows rows' -> forall a, fold_left absorb_row rows a = fold_left absorb_row rows' a.
Proof.
  induction 1 as [|x l l' _ IH|x y l|l l' l'' _ IH1 _ IH2]; intros a; cbn; [done|apply IH| |by rewrite IH1].
  f_equal. unfold absorb_row. destruct (preferred x), (preferred y); try done. apply absorb_swap.
Qed.

(** The order of the rows and the addresses not in use do not matter. *)
Lemma fingerprint_ignores_order rows rows' :
  Permutation (filter (fun r => preferred r = true) rows) (filter (fun r => preferred r = true) rows') ->
  fingerprint (Some rows) = fingerprint (Some rows').
Proof.
  intros Hp. unfold fingerprint. f_equal.
  assert (forall l a, fold_left absorb_row l a
            = fold_left absorb_row (filter (fun r => preferred r = true) l) a) as Hf.
  { induction l as [|r l IH]; intros a; [done|]. cbn [fold_left]. rewrite IH, filter_cons.
    unfold absorb_row at 2. destruct (preferred r) eqn:E; case_decide; try done.
    cbn [fold_left]. unfold absorb_row at 3. by rewrite E. }
  change (fold_left absorb_row rows empty_accumulator = fold_left absorb_row rows' empty_accumulator).
  rewrite Hf, (Hf rows'). by apply absorb_rows_permutation.
Qed.
End Fingerprint.

(** ** The task *)

(** Where it is: the outer select, the inner drain, the inner select, before
    the sample, the publication, after the loop, ended. *)
Inductive TaskPc :=
| Waiting | Draining (deadline : Z) | Selecting (deadline : Z) | Sampling | Publishing (changed : bool)
| Leaving | Ended.

(** [edges] are the published edges with their time, [samples] the fingerprints
    taken, newest first, [released] how often the registration was cancelled;
    [unsampled] tells whether a notification came after the last sample. *)
Record Monitor := {
  pulses : nat;
  sources_gone : bool;
  cancelled : bool;
  last : Z;
  tpc : TaskPc;
  edges : list (Z * Backend.SystemEvent);
  samples : list Z;
  released : nat;
  notified : nat;
  unsampled : bool;
  opened : list Z;
}.
#[export] Instance eta_Monitor : Eta Monitor := fun m =>
  {| pulses := pulses m; sources_gone := sources_gone m; cancelled := cancelled m; last := last m;
     tpc := tpc m; edges := edges m; samples := samples m; released := released m;
     notified := notified m; unsampled := unsampled m; opened := opened m |}.
Definition start_monitor (initial : Z) : Monitor :=
  {| pulses := 0; sources_gone := false; cancelled := false; last := initial; tpc := Waiting;
     edges := []; samples := [initial]; released := 0; notified := 0; unsampled := false; opened := [] |}.

(** [on_interface_change]: a full queue drops the pulse; after the end nobody
    listens. *)
Definition notify (m : Monitor) : Monitor :=
  match tpc m with
  | Ended => m <| notified := S (notified m) |>
  | _ => m <| notified := S (notified m) |>
           <| pulses := if (pulses m <? PULSE_CAPACITY)%nat then S (pulses m) else pulses m |>
           <| unsampled := true |>
  end.

(** What the consumer's queue does with a publication. *)
Inductive Consumer := Takes | Gone | Full.

(** One step of the task: the time, the fingerprint read if it samples, the
    consumer, and which ready arm an unbiased select takes first. *)
Definition task_step (m : Monitor) (now fp : Z) (consumer : Consumer) (cancel_first : bool) : Monitor :=
  match tpc m with
  | Waiting =>
      let received :=
        match pulses m with
        | S n => m <| pulses := n |> <| tpc := Draining (now + NETWORK_SETTLE) |> <| opened := now :: opened m |>
        | O => if sources_gone m then m <| tpc := Leaving |> else m
        end in
      if cancelled m && (cancel_first || ((pulses m =? 0)%nat && negb (sources_gone m)))
      then m <| tpc := Leaving |> else received
  | Draining deadline =>
      let m := m <| pulses := 0%nat |> in
      if sources_gone m then m <| tpc := Leaving |> else m <| tpc := Selecting deadline |>
  | Selecting deadline =>
      if deadline <=? now then m <| tpc := Sampling |>
      else if cancelled m then m <| tpc := Leaving |>
      else match pulses m with
           | S n => m <| pulses := n |> <| tpc := Draining deadline |>
           | O => if sources_gone m then m <| tpc := Leaving |> else m
           end
  | Sampling =>
      m <| samples := fp :: samples m |> <| last := fp |> <| unsampled := false |>
        <| tpc := Publishing (negb (fp =? last m)) |>
  | Publishing changed =>
      if cancelled m then m <| tpc := Leaving |>
      else match consumer with
           | Takes => m <| edges := (now, Backend.NetworkChanged changed) :: edges m |> <| tpc := Waiting |>
           | Gone => m <| tpc := Leaving |>
           | Full => m
           end
  | Leaving => m <| released := S (released m) |> <| tpc := Ended |>
  | Ended => m
  end.

Inductive MonitorStep :=
| Notify | Shutdown | SourcesGone
| Task (now fp : Z) (consumer : Consumer) (cancel_first : bool).
Definition monitor_step (m : Monitor) (st : MonitorStep) : Monitor :=
  match st with
  | Notify => notify m
  | Shutdown => m <| cancelled := true |>
  | SourcesGone => m <| sources_gone := true |>
  | Task now fp consumer cancel_first => task_step m now fp consumer cancel_first
  end.
Definition run_monitor (initial : Z) (steps : list MonitorStep) : Monitor :=
  fold_left monitor_step steps (start_monitor initial).

(** ** One edge per window *)

(** Whether each sample differs from the one before it, newest first. *)
Fixpoint changes (l : list Z) : list bool :=
  match l with
  | a :: (b :: _) as rest => negb (a =? b) :: changes rest
  | _ => []
  end.
Definition flag (e : Z * Backend.SystemEvent) : bool :=
  match e.2 with Backend.NetworkChanged changed => changed | _ => false end.
Definition flags (m : Monitor) : list bool := flag <$> edges m.

(** Edges, newest first, at least a settle window apart. *)
Fixpoint spaced (l : list (Z * Backend.SystemEvent)) : Prop :=
  match l with
  | a :: (b :: _) as rest => b.1 + NETWORK_SETTLE <= a.1 /\ spaced rest
  | _ => True
  end.
Definition after_last (m : Monitor) (t : Z) : Prop :=
  match edges m with [] => True | e :: _ => e.1 <= t end.

Definition time_of (st : MonitorStep) : option Z := match st with Task now _ _ _ => Some now | _ => None end.
(** The clock never runs backwards. *)
Fixpoint clocked (t : Z) (steps : list MonitorStep) : Prop :=
  match steps with
  | [] => True
  | st :: steps => match time_of st with Some now => t <= now /\ clocked now steps | None => clocked t steps end
  end.

Definition in_window (p : TaskPc) : nat :=
  match p with Draining _ | Selecting _ | Sampling | Publishing _ => 1 | _ => 0 end.

(** At time [t]. *)
Record monitor_ok (t : Z) (m : Monitor) : Prop := {
  mo_last : hd_error (samples m) = Some (last m);
  mo_flags : match tpc m with
             | Publishing c => changes (samples m) = c :: flags m
             | Leaving | Ended => exists p, (length p <= 1)%nat /\ changes (samples m) = p ++ flags m
             | _ => changes (samples m) = flags m
             end;
  mo_spaced : spaced (edges m);
  mo_times : match tpc m with
             | Waiting | Leaving | Ended => after_last m t
             | Draining d | Selecting d => after_last m (d - NETWORK_SETTLE) /\ after_last m t
             | Sampling | Publishing _ => after_last m (t - NETWORK_SETTLE)
             end;
  mo_pending : unsampled m = true -> (0 < pulses m)%nat \/ tpc m <> Waiting /\ (forall c, tpc m <> Publishing c);
  mo_count : (length (edges m) + in_window (tpc m) + pulses m <= notified m)%nat;
  mo_released : released m = match tpc m with Ended => 1%nat | _ => 0%nat end;
}.

Lemma after_mono m t t' : t <= t' -> after_last m t -> after_last m t'.
Proof. unfold after_last. destruct (edges m); [done|lia]. Qed.

Lemma settle_positive : 0 <= NETWORK_SETTLE.
Proof. done. Qed.

Lemma notify_ok t m : monitor_ok t m -> monitor_ok t (notify m).
Proof.
  intros [M1 M2 M3 M4 M5 M6 M7]. unfold notify.
  assert (let k := if (pulses m <? PULSE_CAPACITY)%nat then S (pulses m) else pulses m in
    (0 < k <= S (pulses m))%nat) as Hk.
  { cbv zeta. destruct (Nat.ltb_spec (pulses m) PULSE_CAPACITY); unfold PULSE_CAPACITY in *; lia. }
  cbv zeta in Hk. revert Hk. generalize (if (pulses m <? PULSE_CAPACITY)%nat then S (pulses m) else pulses m).
  intros k Hk. destruct (tpc m) eqn:Ep; constructor; cbn; rewrite ?Ep; try done; cbn in *; try lia;
    try (intros _; left; lia).
Qed.

Ltac by_field :=
  constructor; cbn; try done; try (intros _; by right); try (cbn in *; lia);
  try (exists []; split; [cbn; lia|done]); try (by eapply after_mono).

Lemma task_ok t m now fp consumer first :
  t <= now -> monitor_ok t m -> monitor_ok now (task_step m now fp consumer first).
Proof.
  intros Ht [M1 M2 M3 M4 M5 M6 M7]. pose proof settle_positive as Hpos. unfold task_step.
  destruct (tpc m) as [|d|d| |c| |] eqn:Ep.
  - assert (after_last m now) as Ha by by eapply after_mono.
    assert (monitor_ok now (m <| tpc := Leaving |>)) as Hleave by by_field.
    destruct (_ && _); [done|]. destruct (pulses m) as [|n] eqn:Eq.
    + destruct (sources_gone m); [done|]. by constructor; rewrite ?Ep, ?Eq.
    + by_field. split; [|done]. by replace (now + NETWORK_SETTLE - NETWORK_SETTLE) with now by lia.
  - destruct M4 as [M4 M4']. cbn [sources_gone upd]. destruct (sources_gone m); by_field.
    split; [done|]. by eapply after_mono.
  - destruct M4 as [M4 M4']. assert (monitor_ok now (m <| tpc := Leaving |>)) as Hleave by by_field.
    destruct (Z.leb_spec d now); [by_field; eapply after_mono; [|exact M4]; lia|].
    destruct (cancelled m); [done|]. destruct (pulses m) as [|n] eqn:Eq.
    + destruct (sources_gone m); [done|]. constructor; rewrite ?Ep, ?Eq; try done.
      split; [done|]. by eapply after_mono.
    + by_field. split; [done|]. by eapply after_mono.
  - by_field; [|eapply after_mono; [|exact M4]; lia].
    destruct (samples m) as [|x l]; [done|]. cbn in M1. injection M1 as ->. by rewrite M2.
  - assert (after_last m now) as Ha by (eapply after_mono; [|exact M4]; lia).
    assert (monitor_ok now (m <| tpc := Leaving |>)) as Hleave.
    { by_field. exists [c]. split; [cbn; lia|done]. }
    destruct (cancelled m); [done|]. destruct consumer; [|done|].
    + by_field.
      * unfold after_last in M4. destruct (edges m) as [|e l]; [done|]. cbn. split; [lia|done].
      * intros Hu. destruct (M5 Hu) as [?|[_ Hc]]; [by left|]. by destruct (Hc c).
    + constructor; rewrite ?Ep; try done. eapply after_mono; [|exact M4]; lia.
  - by_field.
  - constructor; rewrite ?Ep; try done. by eapply after_mono.
Qed.

Lemma run_monitor_ok t m steps :
  clocked t steps -> monitor_ok t m -> exists t', monitor_ok t' (fold_left monitor_step steps m).
Proof.
  revert t m. induction steps as [|st steps IH]; intros t m Hc Hm; [by exists t|].
  cbn [fold_left]. destruct st as [| | |now fp consumer first]; cbn in Hc.
  - apply (IH t); [done|]. by apply notify_ok.
  - apply (IH t); [done|]. destruct Hm as [M1 M2 M3 M4 M5 M6 M7]. by constructor.
  - apply (IH t); [done|]. destruct Hm as [M1 M2 M3 M4 M5 M6 M7]. by constructor.
  - destruct Hc as [Hn Hc]. apply (IH now); [done|]. by apply (task_ok t).
Qed.

(** C25: However notifications, a cancellation and the consumer interleave with
    the monitor, on a clock that never runs backwards: published edges are at
    least the settle period apart and never more than the notifications; each
    says whether the bindings differ from the sample before it, at most the
    newest sample being unpublished; when the task waits with nothing queued,
    the newest sample was taken after the last notification and is published;
    and the registration is released exactly once, when the task ends. *)
Theorem network_bursts_coalesce initial steps t0 :
  clocked t0 steps ->
  let m := run_monitor initial steps in
  spaced (edges m) /\ (length (edges m) <= notified m)%nat /\
  (exists p, (length p <= 1)%nat /\ changes (samples m) = p ++ flags m) /\
  (tpc m = Waiting -> pulses m = 0%nat -> unsampled m = false /\ changes (samples m) = flags m) /\
  (released m = match tpc m with Ended => 1%nat | _ => 0%nat end).
Proof.
  intros Hc m. destruct (run_monitor_ok t0 (start_monitor initial) steps Hc) as [t [M1 M2 M3 M4 M5 M6 M7]].
  { constructor; cbn; try done. }
  fold (run_monitor initial steps) in *. fold m in M1, M2, M3, M4, M5, M6, M7.
  split; [done|]. split; [lia|]. split.
  { destruct (tpc m) as [|d|d| |c| |]; try done; try (exists []; by split; [cbn; lia|]).
    exists [c]. by split; [cbn; lia|]. }
  split; [|done]. intros E Hp. rewrite E in M2, M5. split; [|done].
  destruct (unsampled m); [|done]. destruct (M5 eq_refl) as [?|[? _]]; [lia|done].
Qed.

Definition flapping : list MonitorStep :=
  [Notify; Notify; Task 5 0 Takes false; Notify; Task 6 0 Takes false; Task (6 + NETWORK_SETTLE) 0 Takes false;
   Task (7 + NETWORK_SETTLE) 9 Takes false; Task (8 + NETWORK_SETTLE) 0 Takes false; Shutdown;
   Task (9 + NETWORK_SETTLE) 0 Takes true; Task (10 + NETWORK_SETTLE) 0 Takes true].
Lemma network_bursts_coalesce_witness :
  let m := run_monitor 4 flapping in
  edges m = [(8 + NETWORK_SETTLE, Backend.NetworkChanged true)] /\
  (spaced (edges m) /\ (length (edges m) <= notified m)%nat /\
  (exists p, (length p <= 1)%nat /\ changes (samples m) = p ++ flags m) /\
  (tpc m = Waiting -> pulses m = 0%nat -> unsampled m = false /\ changes (samples m) = flags m) /\
  (released m = match tpc m with Ended => 1%nat | _ => 0%nat end)).
Proof.
  split; [vm_compute; reflexivity|]. apply (network_bursts_coalesce 4 flapping 0).
  vm_compute. repeat (split; [intros E; discriminate E|]). exact I.
Defined.

(** A table that cannot be read once is reported as two moves of the bindings. *)
Lemma failed_read_looks_like_a_move h1 h3 rows t :
  fingerprint h1 h3 (Some rows) <> 0 ->
  let m := {| pulses := 0; sources_gone := false; cancelled := false; last := fingerprint h1 h3 (Some rows);
              tpc := Sampling; edges := []; samples := [fingerprint h1 h3 (Some rows)]; released := 0;
              notified := 1; unsampled := true; opened := [] |} in
  let m' := task_step (task_step m t (fingerprint h1 h3 None) Takes false) t 0 Takes false in
  edges m' = [(t, Backend.NetworkChanged true)].
Proof.
  generalize (fingerprint h1 h3 (Some rows)). intros x Hn. cbv zeta. unfold task_step at 2. cbn [tpc last upd fingerprint].
  assert ((0 =? x) = false) as -> by (apply Z.eqb_neq; lia). reflexivity.
Qed.
End NetworkMonitor.
