(* ===== verification/LivePcm.v ===== *)
(** * Live PCM: the stable queue, its decoder, and the capture bridge

    [crates/airplay-audio/src/live_decoder.rs]: the bounded queue between the
    capture side and the streamer, with replace-oldest delivery and the
    decoder that cuts it into packets; and, of
    [apps/openaircast/src/backend/capture.rs], the conversion of captured
    samples, the input meter and the thread [PcmBridge] that feeds the queue.
    [apps/openaircast/src/backend/listening_tone.rs] is the tone it plays.

    The queue is shared with the consumer, which may take frames between any
    two operations of the producer: [gaps] lists how many it takes at each of
    those points.  [taken] and [evicted] are not in the source; they record
    where the frames went.  One [turn] is one pass of the bridge's loop, with
    the clock readings it makes; everything other threads do is a [BridgeOp]
    between turns.  A frame of the bridge's log says where it came from.
    [f64::sin] is a parameter of the tone. *)

From S2P Require Import Prelude Float32 AppState Text Backend Controller.

Import Backend (Severity, Info, Warning, DiagnosticPayload, PcmDrop, QueueWatermark, SilenceBridge).
Import Controller (CaptureUpdate, CapStarted, CapReady, CapFrameDrop, CapRecovering, CapStopped, CapSuspended).

Module LivePcm.

(** ** Frames and the queue *)

Record LivePcmFrame := MkFrame { samples : list Z; channels : Z; sample_rate : Z }.

Inductive LiveSendOutcome := Enqueued | ReplacedOldest | Disconnected.

(** [CaptureQueueCounters] *)
Record Counters := MkCounters {
  submitted_frames_total : Z;
  submitted_samples_per_channel_total : Z;
  full_queue_drops_total : Z;
  disconnected_drops_total : Z }.
#[export] Instance Counters_eta : Eta Counters :=
  fun c => MkCounters (submitted_frames_total c) (submitted_samples_per_channel_total c)
             (full_queue_drops_total c) (disconnected_drops_total c).

Definition pcm_frame_samples_per_channel (f : LivePcmFrame) : Z :=
  if channels f =? 0 then 0 else Z.of_nat (length (samples f)) / channels f.

(** A [LiveFrameSender] with its channel and the latch of its decoder;
    [sender_alive] while a sender of the channel is left. *)
Record Pair := MkPair {
  capacity : nat;
  queue : list LivePcmFrame;
  decoder_alive : bool;
  sender_alive : bool;
  stats : Counters;
  taken : list LivePcmFrame;
  evicted : list LivePcmFrame }.
#[export] Instance Pair_eta : Eta Pair :=
  fun p => MkPair (capacity p) (queue p) (decoder_alive p) (sender_alive p) (stats p) (taken p) (evicted p).

Definition create_pair (capacity : nat) : Pair :=
  MkPair capacity [] true true (MkCounters 0 0 0 0) [] [].

Definition u64_add (x y : Z) : Z := wrap 64 (x + y).

Definition count_submitted (f : LivePcmFrame) (p : Pair) : Pair :=
  p <| stats := (stats p)
         <| submitted_frames_total := u64_succ (submitted_frames_total (stats p)) |>
         <| submitted_samples_per_channel_total :=
              u64_add (submitted_samples_per_channel_total (stats p))
                (pcm_frame_samples_per_channel f) |> |>.
Definition count_disconnected_drop (p : Pair) : Pair :=
  p <| stats := (stats p)
         <| disconnected_drops_total := u64_succ (disconnected_drops_total (stats p)) |> |>.
Definition count_full_queue_drop (p : Pair) : Pair :=
  p <| stats := (stats p)
         <| full_queue_drops_total := u64_succ (full_queue_drops_total (stats p)) |> |>.

(** The consumer takes the oldest [n] frames. *)
Definition consume (n : nat) (p : Pair) : Pair :=
  p <| queue := drop n (queue p) |> <| taken := taken p ++ take n (queue p) |>.

(** One point at which the consumer may act. *)
Definition gap (gaps : list nat) (p : Pair) : list nat * Pair :=
  match gaps with [] => ([], p) | n :: rest => (rest, consume n p) end.

Definition has_room (p : Pair) : bool := (length (queue p) <? capacity p)%nat.
Definition enqueue (f : LivePcmFrame) (p : Pair) : Pair := p <| queue := queue p ++ [f] |>.

(** [eviction_rx.try_recv()] *)
Definition evict (p : Pair) : Pair :=
  match queue p with
  | [] => p
  | oldest :: rest =>
      count_full_queue_drop (p <| queue := rest |> <| evicted := evicted p ++ [oldest] |>)
  end.

(** The loop behind a full queue; [None]: it has not returned yet. *)
Fixpoint evict_loop (fuel : nat) (gaps : list nat) (f : LivePcmFrame) (p : Pair)
  : Pair * option LiveSendOutcome :=
  match fuel with
  | O => (p, None)
  | S fuel =>
      let '(gaps, p) := gap gaps p in
      let p := evict p in
      let '(gaps, p) := gap gaps p in
      if has_room p then (enqueue f p, Some ReplacedOldest) else evict_loop fuel gaps f p
  end.

Definition EVICT_FUEL : nat := 1.

Definition try_send_latest (gaps : list nat) (f : LivePcmFrame) (p : Pair)
  : Pair * option LiveSendOutcome :=
  let p := count_submitted f p in
  if negb (decoder_alive p) then (count_disconnected_drop p, Some Disconnected)
  else
    let '(gaps, p) := gap gaps p in
    if has_room p then (enqueue f p, Some Enqueued) else evict_loop EVICT_FUEL gaps f p.

Definition try_send (f : LivePcmFrame) (p : Pair) : Pair * bool :=
  let p := count_submitted f p in
  if negb (decoder_alive p) then (count_disconnected_drop p, false)
  else if has_room p then (enqueue f p, true) else (count_full_queue_drop p, false).

(** ** The decoder *)

Record DecodedFrame := MkDecoded {
  d_samples : list Z; d_channels : Z; d_sample_rate : Z; timestamp : Z }.

(** [LiveAudioDecoder] without a resampler: its source has the rate of its
    target, as the capture pipeline's has. *)
Record Decoder := MkDecoder {
  position_samples : Z; eof : bool; residual_samples : list Z }.
#[export] Instance Decoder_eta : Eta Decoder :=
  fun d => MkDecoder (position_samples d) (eof d) (residual_samples d).

Definition new_decoder : Decoder := MkDecoder 0 false [].

(** [decode_frame] with the zero timeout; an empty channel without senders
    ends the stream.  [None] is the panic of a division by zero. *)
Definition decode_frame (p : Pair) (d : Decoder)
  : option (Pair * Decoder * option DecodedFrame) :=
  if eof d then Some (p, d, None)
  else match queue p with
       | [] => Some (p, if sender_alive p then d else d <| eof := true |>, None)
       | f :: _ =>
           if channels f =? 0 then None
           else Some (consume 1 p,
                      d <| position_samples :=
                             u64_add (position_samples d)
                               (Z.of_nat (length (samples f)) / channels f) |>,
                      Some (MkDecoded (samples f) (channels f) (sample_rate f)
                              (position_samples d)))
       end.

(** The collecting loop: at most one pass per queued frame.  The flag says
    whether there were enough samples. *)
Fixpoint collect (fuel : nat) (target : nat) (acc : list Z) (p : Pair) (d : Decoder)
  : option (Pair * Decoder * list Z * bool) :=
  if (target <=? length acc)%nat then Some (p, d, acc, true)
  else match fuel with
       | O => None
       | S fuel =>
           match decode_frame p d with
           | None => None
           | Some (p, d, None) => Some (p, d, acc, false)
           | Some (p, d, Some f) => collect fuel target (acc ++ d_samples f) p d
           end
       end.

(** [decode_resampled] when source and target rate agree. *)
Definition decode_resampled (target_channels target_rate : Z) (frames_per_packet : nat)
    (p : Pair) (d : Decoder) : option (Pair * Decoder * option DecodedFrame) :=
  let acc := residual_samples d in
  let d := d <| residual_samples := [] |> in
  let target := (frames_per_packet * Z.to_nat target_channels)%nat in
  match collect (S (length (queue p))) target acc p d with
  | None => None
  | Some (p, d, acc, false) =>
      Some (p, match acc with [] => d | _ => d <| residual_samples := acc |> end, None)
  | Some (p, d, acc, true) =>
      match acc with
      | [] => Some (p, d, None)
      | _ =>
          let d := if (target <? length acc)%nat
                   then d <| residual_samples := drop target acc |> else d in
          Some (p, d, Some (MkDecoded (take target acc) target_channels target_rate
                              (position_samples d)))
      end
  end.

Definition mark_eof (d : Decoder) : Decoder := d <| eof := true |>.
Definition is_eof (p : Pair) (d : Decoder) : bool :=
  eof d && match queue p with [] => true | _ => false end.

(** ** Captured samples *)

Definition CAPTURE_SAMPLE_RATE : Z := 44100.
Definition CAPTURE_CHANNELS : Z := 2.
Definition CAPTURE_PCM_CAPACITY : nat := 32.
Definition SILENCE_PERIOD : Z := 50 * 10 ^ 6.
Definition LISTENING_TONE_FRAME_PERIOD : Z := 20 * 10 ^ 6.

(** The integer part of a float, towards zero, and [as i16]. *)
Definition sf_trunc (x : spec_float) : Z :=
  match x with
  | S754_finite s m e =>
      let v := if 0 <=? e then Z.shiftl (Zpos m) e else Z.shiftr (Zpos m) (- e) in
      if s then - v else v
  | _ => 0
  end.
Definition saturate (lo hi : Z) (x : spec_float) : Z :=
  match x with
  | S754_infinity s => if s then lo else hi
  | S754_nan => 0
  | _ => Z.max lo (Z.min hi (sf_trunc x))
  end.
Definition as_i16 (x : spec_float) : Z := saturate (- 2 ^ 15) (2 ^ 15 - 1) x.
Definition as_u16 (x : spec_float) : Z := saturate 0 (2 ^ 16 - 1) x.

(** [round]: to the nearest integer, halves away from zero. *)
Definition sf_round (prec emax : Z) (x : spec_float) : spec_float :=
  match x with
  | S754_finite s m e =>
      if 0 <=? e then x
      else
        let v := Z.shiftr (Zpos m + Z.shiftl 1 (- e - 1)) (- e) in
        binary_normalize prec emax (if s then - v else v) 0 s
  | _ => x
  end.

Definition f32_abs (x : f32) : f32 := SFabs x.
Definition normalized (x : f32) : f32 :=
  if f32_is_nan x then f32_zero else f32_clamp x (SFopp f32_one) f32_one.

(** One sample of [pcm_frame_from_f32_with_meter], and the peak permille. *)
Definition pcm_sample (x : f32) : Z := as_i16 (f32_mul (normalized x) (f32_of_Z 32767)).
Definition peak_of (xs : list f32) : f32 :=
  foldl (fun peak x => f32_max peak (f32_abs (normalized x))) f32_zero xs.
Definition peak_permille (xs : list f32) : Z :=
  as_u16 (f32_clamp (sf_round 24 128 (f32_mul (peak_of xs) (f32_of_Z 1000)))
            f32_zero (f32_of_Z 1000)).
Definition pcm_frame (xs : list f32) : LivePcmFrame :=
  MkFrame (pcm_sample <$> xs) CAPTURE_CHANNELS CAPTURE_SAMPLE_RATE.

Definition silence_frame : LivePcmFrame :=
  MkFrame (repeat 0 (Z.to_nat (CAPTURE_SAMPLE_RATE * CAPTURE_CHANNELS / 20)))
    CAPTURE_CHANNELS CAPTURE_SAMPLE_RATE.

(** ** The input meter *)

Record CaptureInputWindow := MkWindow {
  w_generation : option Z; observed : bool; peak : Z; observed_at : option Z }.
#[export] Instance Window_eta : Eta CaptureInputWindow :=
  fun w => MkWindow (w_generation w) (observed w) (peak w) (observed_at w).

Definition no_window : CaptureInputWindow := MkWindow None false 0 None.
Definition begin_generation (generation : Z) : CaptureInputWindow :=
  MkWindow (Some generation) false 0 None.
Definition cleared (w : CaptureInputWindow) : CaptureInputWindow :=
  w <| observed := false |> <| peak := 0 |> <| observed_at := None |>.
Definition invalidate_generation (generation : Z) (w : CaptureInputWindow) : CaptureInputWindow :=
  if w_generation w ==? Some generation then no_window else w.
Definition discard_window (generation : Z) (w : CaptureInputWindow) : CaptureInputWindow :=
  if w_generation w ==? Some generation then cleared w else w.

Definition METER_WINDOW : Z := 10 ^ 9.

(** [record_peak_at]; a contended lock skips it altogether. *)
Definition record_peak_at (generation peak_permille at_ : Z) (w : CaptureInputWindow)
  : CaptureInputWindow :=
  if negb (w_generation w ==? Some generation) then w
  else
    let w := if is_some_and (observed_at w) (fun oldest => METER_WINDOW <? at_ - oldest)
             then cleared w else w in
    w <| observed := true |> <| peak := Z.max (peak w) (Z.min peak_permille 1000) |>
      <| observed_at := Some (default at_ (observed_at w)) |>.

Definition take_window_at (generation now : Z) (w : CaptureInputWindow)
  : CaptureInputWindow * option Z :=
  if negb (w_generation w ==? Some generation) || negb (observed w) then (w, None)
  else (cleared w,
        if is_some_and (observed_at w) (fun at_ => now - at_ <=? METER_WINDOW)
        then Some (peak w) else None).

(** ** The listening tone *)

Definition f64_of_Z (n : Z) : spec_float := binary_normalize 53 1024 n 0 false.
Definition f64_div (x y : spec_float) : spec_float := SFdiv 53 1024 x y.
Definition f64_mul (x y : spec_float) : spec_float := SFmul 53 1024 x y.
Definition f64_min (x y : spec_float) : spec_float := if SFltb y x then y else x.

Definition LISTENING_TONE_DURATION_SECS : Z := 2.
Definition LISTENING_TONE_FADE_SAMPLES : Z := 1103.
(** [std::f64::consts::TAU], the double 6.283185307179586 *)
Definition TAU : spec_float := Eval vm_compute in S754_finite false 7074237752028440 (-50).

Definition tone_sample (sin : spec_float -> spec_float) (sample_frames index : Z) : Z :=
  let fade_in := f64_div (f64_of_Z index) (f64_of_Z LISTENING_TONE_FADE_SAMPLES) in
  let fade_out := f64_div (f64_of_Z (sample_frames - 1 - index))
                    (f64_of_Z LISTENING_TONE_FADE_SAMPLES) in
  let envelope := f64_min (f64_min fade_in fade_out) (f64_of_Z 1) in
  let phase := f64_div (f64_mul (f64_mul TAU (f64_of_Z 660)) (f64_of_Z index))
                 (f64_of_Z CAPTURE_SAMPLE_RATE) in
  as_i16 (sf_round 53 1024 (f64_mul (f64_mul (sin phase) (f64_of_Z 8192)) envelope)).

Definition generate_listening_tone (sin : spec_float -> spec_float) : list Z :=
  let sample_frames := CAPTURE_SAMPLE_RATE * LISTENING_TONE_DURATION_SECS in
  index ← seqZ 0 sample_frames;
  repeat (tone_sample sin sample_frames index) (Z.to_nat CAPTURE_CHANNELS).

(** ** The bridge *)

(** Where a forwarded frame came from; a tone is named by its request. *)
Inductive Origin := FromTone (request : nat) | Injected | Captured | Silence.

Record ActiveListeningTone := MkTone {
  request : nat; token : nat; offset : nat; next_frame_at : Z }.
#[export] Instance Tone_eta : Eta ActiveListeningTone :=
  fun t => MkTone (request t) (token t) (offset t) (next_frame_at t).

(** [PcmBridge] with the channels and atomics it shares.  [requests] lists
    the tokens of the tones accepted so far; [forwarded] and [published] are records of what
    was sent to the queue and what the update queue accepted. *)
Record Bridge := MkBridge {
  pair : Pair;
  pending_drops : Z;
  in_eviction_run : bool;
  last_frame_was_silence : bool;
  updates : list CaptureUpdate;
  updates_open : bool;
  generation_cell : Z;
  dropped_total : Z;
  listening_tone_active : bool;
  listening_tone : option ActiveListeningTone;
  worker_queue : list LivePcmFrame;
  worker_gone : bool;
  injection_queue : list LivePcmFrame;
  tone_queue : list (nat * nat);
  cancelled : gset nat;
  root_cancelled : bool;
  running : bool;
  requests : list nat;
  forwarded : list (Origin * LivePcmFrame);
  published : list CaptureUpdate;
  emitted : list (Severity * DiagnosticPayload) }.
#[export] Instance Bridge_eta : Eta Bridge := fun b =>
  MkBridge (pair b) (pending_drops b) (in_eviction_run b) (last_frame_was_silence b) (updates b)
    (updates_open b) (generation_cell b) (dropped_total b) (listening_tone_active b)
    (listening_tone b) (worker_queue b) (worker_gone b) (injection_queue b) (tone_queue b)
    (cancelled b) (root_cancelled b) (running b) (requests b) (forwarded b) (published b)
    (emitted b).

Definition new_bridge : Bridge :=
  MkBridge (create_pair CAPTURE_PCM_CAPACITY) 0 false false [] true 0 0 false None [] false [] []
    ∅ false true [] [] [] [].

Definition SUPERVISOR_CAPACITY : nat := 256.

Definition emit_bridge (severity : Severity) (payload : DiagnosticPayload) (b : Bridge) : Bridge :=
  b <| emitted := emitted b ++ [(severity, payload)] |>.

Definition flush_drops (b : Bridge) : Bridge :=
  if pending_drops b =? 0 then b
  else
    let update := CapFrameDrop (generation_cell b) (dropped_total b) in
    if negb (updates_open b) then b
    else if (length (updates b) <? SUPERVISOR_CAPACITY)%nat
    then emit_bridge Warning (PcmDrop (pending_drops b))
           (b <| updates := updates b ++ [update] |> <| published := published b ++ [update] |>
              <| pending_drops := 0 |>)
    else emit_bridge Warning
           (QueueWatermark (Z.of_nat SUPERVISOR_CAPACITY) (Z.of_nat SUPERVISOR_CAPACITY)) b.

Definition forward (gaps : list nat) (origin : Origin) (f : LivePcmFrame) (b : Bridge)
  : Bridge * bool :=
  let '(p, outcome) := try_send_latest gaps f (pair b) in
  let b := b <| pair := p |> in
  match outcome with
  | Some Enqueued =>
      let b := b <| forwarded := forwarded b ++ [(origin, f)] |> in
      (if in_eviction_run b then flush_drops (b <| in_eviction_run := false |>) else b, true)
  | Some ReplacedOldest =>
      let b := b <| forwarded := forwarded b ++ [(origin, f)] |>
                 <| dropped_total := u64_succ (dropped_total b) |>
                 <| pending_drops := pending_drops b + 1 |> in
      (if in_eviction_run b then b else flush_drops (b <| in_eviction_run := true |>), true)
  | Some Disconnected | None => (b, false)
  end.

(** After the loop; leaving it drops the bridge's ends of the channels. *)
Definition finish (b : Bridge) : Bridge :=
  (flush_drops (b <| listening_tone_active := false |>)) <| running := false |>
    <| listening_tone := None |> <| tone_queue := [] |>.

Definition loop_or_finish (x : Bridge * bool) : Bridge :=
  let '(b, more) := x in if more then b else finish b.

Section Turn.
Context (tone : list Z).

(** What one pass reads: the clock before and after building a tone frame,
    and what the consumer takes meanwhile. *)
Record Turn := MkTurn { now : Z; later : Z; turn_gaps : list nat }.

Definition drain_capture_frames (b : Bridge) : Bridge :=
  b <| worker_queue := drop CAPTURE_PCM_CAPACITY (worker_queue b) |>.

(** The first part of the pass: take up a requested tone. *)
Definition accept_tone (t : Turn) (b : Bridge) : Bridge :=
  match listening_tone b, tone_queue b with
  | None, (r, k) :: rest =>
      let b := b <| tone_queue := rest |> in
      if bool_decide (k ∈ cancelled b) then b <| listening_tone_active := false |>
      else (drain_capture_frames b) <| listening_tone := Some (MkTone r k 0 (now t)) |>
  | _, _ => b
  end.

Definition SAMPLES_PER_TONE_FRAME : nat :=
  Z.to_nat (CAPTURE_SAMPLE_RATE * CAPTURE_CHANNELS / 50).

Definition end_tone (b : Bridge) : Bridge :=
  b <| listening_tone := None |> <| listening_tone_active := false |>.

Definition play_tone (t : Turn) (a : ActiveListeningTone) (b : Bridge) : Bridge :=
  let b := drain_capture_frames b in
  if bool_decide (token a ∈ cancelled b) then end_tone b
  else if now t <? next_frame_at a then b
  else
    let end_ := Nat.min (offset a + SAMPLES_PER_TONE_FRAME) (length tone) in
    let f := MkFrame (take (end_ - offset a) (drop (offset a) tone))
               CAPTURE_CHANNELS CAPTURE_SAMPLE_RATE in
    let a := a <| offset := end_ |> <| next_frame_at := later t + LISTENING_TONE_FRAME_PERIOD |> in
    let b := b <| listening_tone := Some a |> <| last_frame_was_silence := false |> in
    let '(b, more) := forward (turn_gaps t) (FromTone (request a)) f b in
    if negb more then finish b
    else if (end_ =? length tone)%nat then end_tone b else b.

Definition turn (t : Turn) (b : Bridge) : Bridge :=
  if negb (running b) then b
  else if root_cancelled b then finish b
  else
    let b := accept_tone t b in
    match listening_tone b with
    | Some a => play_tone t a b
    | None =>
        match injection_queue b with
        | f :: rest =>
            loop_or_finish (forward (turn_gaps t) Injected f
              (b <| injection_queue := rest |> <| last_frame_was_silence := false |>))
        | [] =>
            match worker_queue b with
            | f :: rest =>
                loop_or_finish (forward (turn_gaps t) Captured f
                  (b <| worker_queue := rest |> <| last_frame_was_silence := false |>))
            | [] =>
                if worker_gone b then finish b
                else
                  let b := if last_frame_was_silence b then b
                           else emit_bridge Info (SilenceBridge SILENCE_PERIOD)
                                  (b <| last_frame_was_silence := true |>) in
                  loop_or_finish (forward (turn_gaps t) Silence silence_frame b)
            end
        end
    end.

(** ** Other threads *)

Inductive BridgeOp :=
| OpTurn (t : Turn)
| OpWorker (f : LivePcmFrame)
| OpInject (samples : list Z)
| OpTone (token : nat)
| OpCancel (token : nat)
| OpConsume (n : nat)
| OpDropDecoder
| OpSendersGone
| OpUpdateTaken
| OpUpdatesClosed
| OpGeneration (generation : Z)
| OpSupervisorGone
| OpStop.

(** [frames.try_send] of a worker: a full queue drops the frame. *)
Definition worker_send (f : LivePcmFrame) (b : Bridge) : Bridge :=
  if running b && (length (worker_queue b) <? CAPTURE_PCM_CAPACITY)%nat
  then b <| worker_queue := worker_queue b ++ [f] |> else b.

Definition INJECT_CHUNK : nat := Z.to_nat (CAPTURE_SAMPLE_RATE * CAPTURE_CHANNELS / 20).

(** [samples.chunks(chunk)] *)
Fixpoint chunks (fuel n : nat) (xs : list Z) : list (list Z) :=
  match fuel, xs with
  | _, [] | O, _ => []
  | S fuel, _ => take n xs :: chunks fuel n (drop n xs)
  end.

(** The loop of [inject_pattern]: the first frame that does not fit ends it. *)
Definition inject_pattern (samples : list Z) (b : Bridge) : Bridge :=
  if negb (running b) then b
  else
    let fs := (fun c => MkFrame c CAPTURE_CHANNELS CAPTURE_SAMPLE_RATE)
                <$> chunks (length samples) INJECT_CHUNK samples in
    b <| injection_queue := injection_queue b
           ++ take (CAPTURE_PCM_CAPACITY - length (injection_queue b)) fs |>.

(** The request channel holds one request and closes with the bridge. *)
Definition start_listening_tone (k : nat) (b : Bridge) : Bridge * bool :=
  if bool_decide (k ∈ cancelled b) || listening_tone_active b then (b, false)
  else if running b && (length (tone_queue b) <? 1)%nat
  then (b <| listening_tone_active := true |> <| tone_queue := [(length (requests b), k)] |>
          <| requests := requests b ++ [k] |>, true)
  else (b, false).

Definition apply_op (o : BridgeOp) (b : Bridge) : Bridge :=
  match o with
  | OpTurn t => turn t b
  | OpWorker f => worker_send f b
  | OpInject samples => inject_pattern samples b
  | OpTone k => fst (start_listening_tone k b)
  | OpCancel k => b <| cancelled := {[k]} ∪ cancelled b |>
  | OpConsume n => b <| pair := consume n (pair b) |>
  | OpDropDecoder => b <| pair := (pair b) <| decoder_alive := false |> |>
  | OpSendersGone =>
      if running b then b else b <| pair := (pair b) <| sender_alive := false |> |>
  | OpUpdateTaken => b <| updates := tail (updates b) |>
  | OpUpdatesClosed => b <| updates_open := false |>
  | OpGeneration g => b <| generation_cell := g |>
  | OpSupervisorGone => b <| worker_gone := true |>
  | OpStop => b <| root_cancelled := true |>
  end.

Definition run_bridge (os : list BridgeOp) (b : Bridge) : Bridge :=
  foldl (fun b o => apply_op o b) b os.
End Turn.

(** ** Delivery *)

Definition pair_ok (p : Pair) : Prop := (length (queue p) <= capacity p)%nat /\ (1 <= capacity p)%nat.

Lemma consume_ok n p : pair_ok p -> pair_ok (consume n p).
Proof. unfold pair_ok. cbn. rewrite length_drop. lia. Qed.

Lemma gap_ok gaps p : pair_ok p -> pair_ok (snd (gap gaps p)).
Proof. destruct gaps; [done|]. apply consume_ok. Qed.

(** The books of a queue: what was accepted is what the consumer took, what
    is queued and what was evicted; in the first two nothing changed places. *)
Definition balanced (p : Pair) (accepted : list LivePcmFrame) : Prop :=
  taken p ++ queue p `sublist_of` accepted /\ taken p ++ queue p ++ evicted p ≡ₚ accepted.

Lemma consume_balanced n p acc : balanced p acc -> balanced (consume n p) acc.
Proof.
  intros [Hs Hp]. split; cbn; rewrite <- app_assoc.
  - by rewrite take_drop.
  - by rewrite (app_assoc (take _ _)), take_drop.
Qed.

Lemma gap_balanced gaps p acc : balanced p acc -> balanced (snd (gap gaps p)) acc.
Proof. destruct gaps; [done|]. apply consume_balanced. Qed.

Lemma evict_balanced p acc : balanced p acc -> balanced (evict p) acc.
Proof.
  unfold evict. destruct (queue p) as [|f rest] eqn:E; [done|]. intros [Hs Hp]. rewrite E in *.
  split; cbn.
  - etrans; [|exact Hs]. apply sublist_app; [done|]. by constructor.
  - rewrite <- Hp. f_equiv. cbn. by rewrite app_assoc, <- Permutation_cons_append.
Qed.

Lemma enqueue_balanced f p acc : balanced p acc -> balanced (enqueue f p) (acc ++ [f]).
Proof.
  intros [Hs Hp]. split; cbn.
  - rewrite app_assoc. by apply sublist_app.
  - rewrite <- Hp, <- !app_assoc. do 2 f_equiv. apply Permutation_app_comm.
Qed.

Lemma evict_ok p :
  pair_ok p -> pair_ok (evict p) /\ (length (queue (evict p)) < capacity (evict p))%nat.
Proof.
  unfold evict, pair_ok. destruct (queue p) as [|f rest] eqn:E; cbn; [rewrite E; cbn; lia|lia].
Qed.

Lemma evict_evicted p : (length (evicted (evict p)) <= S (length (evicted p)))%nat.
Proof. unfold evict. destruct (queue p); cbn; [lia|]. rewrite length_app. cbn. lia. Qed.

Lemma gap_evicted gaps p : evicted (snd (gap gaps p)) = evicted p.
Proof. by destruct gaps. Qed.
Lemma gap_capacity gaps p : capacity (snd (gap gaps p)) = capacity p.
Proof. by destruct gaps. Qed.

(** What a send does to the queue, for any interleaving with the consumer:
    the eviction loop always returns in its first pass. *)
Lemma try_send_latest_spec gaps f p acc :
  pair_ok p -> balanced p acc ->
  exists p' outcome, try_send_latest gaps f p = (p', Some outcome) /\ pair_ok p' /\
    match outcome with
    | Disconnected => decoder_alive p = false /\ balanced p' acc /\ evicted p' = evicted p
    | Enqueued => balanced p' (acc ++ [f]) /\ evicted p' = evicted p
    | ReplacedOldest =>
        balanced p' (acc ++ [f]) /\ (length (evicted p') <= S (length (evicted p)))%nat
    end.
Proof.
  intros Hok Hb. unfold try_send_latest. set (p0 := count_submitted f p). cbn zeta.
  assert (Hok0 : pair_ok p0) by done. assert (Hb0 : balanced p0 acc) by done.
  change (decoder_alive p0) with (decoder_alive p).
  destruct (decoder_alive p); cbn [negb]; [|by eexists _, _].
  pose proof (gap_ok gaps p0 Hok0) as Hok1. pose proof (gap_balanced gaps p0 acc Hb0) as Hb1.
  pose proof (gap_evicted gaps p0) as He1. change (evicted p0) with (evicted p) in He1.
  destruct (gap gaps p0) as [g1 p1]. cbn [snd] in *.
  assert (Hroom : forall q, pair_ok q -> (length (queue q) < capacity q)%nat -> pair_ok (enqueue f q)).
  { intros q [? ?] ?. split; cbn; rewrite ?length_app; cbn; lia. }
  destruct (has_room p1) eqn:Er.
  - apply Nat.ltb_lt in Er. eexists _, _. split; [done|]. split; [by apply Hroom|].
    split; [by apply enqueue_balanced|done].
  - unfold EVICT_FUEL. cbn [evict_loop].
    pose proof (gap_ok g1 p1 Hok1) as Hok2. pose proof (gap_balanced g1 p1 acc Hb1) as Hb2.
    pose proof (gap_evicted g1 p1) as He2. destruct (gap g1 p1) as [g2 p2]. cbn [snd] in *.
    destruct (evict_ok p2 Hok2) as [Hok3 Hlt].
    pose proof (evict_balanced p2 acc Hb2) as Hb3. pose proof (evict_evicted p2) as He3.
    pose proof (gap_ok g2 _ Hok3) as Hok4. pose proof (gap_balanced g2 _ acc Hb3) as Hb4.
    pose proof (gap_evicted g2 (evict p2)) as He4. pose proof (gap_capacity g2 (evict p2)) as Hc4.
    assert (Hlt4 : (length (queue (snd (gap g2 (evict p2)))) < capacity (snd (gap g2 (evict p2))))%nat).
    { destruct g2; cbn; [done|]. rewrite length_drop. cbn in Hc4. lia. }
    destruct (gap g2 (evict p2)) as [g3 p3]. cbn [snd] in *.
    unfold has_room. apply Nat.ltb_lt in Hlt4 as Hr. rewrite Hr.
    eexists _, _. split; [done|]. split; [by apply Hroom|].
    split; [by apply enqueue_balanced|]. cbn. rewrite He4. by rewrite He2, He1 in He3.
Qed.

(** A full queue the consumer empties at the right moment: nothing is evicted
    and nothing counted, yet the outcome says that the oldest frame was
    replaced, and the bridge counts a loss. *)
Lemma replaced_without_eviction :
  let f := MkFrame [1; 1] 2 44100 in
  let p := (create_pair 2) <| queue := [f; f] |> in
  let '(p', outcome) := try_send_latest [0; 2]%nat f p in
  outcome = Some ReplacedOldest /\ evicted p' = [] /\ full_queue_drops_total (stats p') = 0.
Proof. vm_compute. repeat split; reflexivity. Qed.

(** ** Cutting packets *)

Lemma collect_takes_frames fuel target acc p d :
  (length (queue p) < fuel)%nat -> Forall (fun f => channels f <> 0) (queue p) -> eof d = false ->
  exists p' d' frames enough,
    collect fuel target acc p d = Some (p', d', acc ++ concat (samples <$> frames), enough) /\
    queue p = frames ++ queue p' /\ taken p' = taken p ++ frames /\
    residual_samples d' = residual_samples d /\
    (enough = true <-> (target <= length (acc ++ concat (samples <$> frames)))%nat) /\
    (enough = false -> queue p' = []).
Proof.
  revert acc p d. induction fuel as [|fuel IH]; intros acc p d Hf Hc He; [lia|].
  cbn [collect]. destruct (Nat.leb_spec target (length acc)) as [Hle|Hlt].
  { exists p, d, [], true. cbn. rewrite !app_nil_r. split_and!; done. }
  unfold decode_frame. rewrite He. destruct (queue p) as [|f rest] eqn:Eq.
  { exists p, (if sender_alive p then d else d <| eof := true |>), [], false.
    cbn. rewrite !app_nil_r, Eq. split_and!; try done; [by destruct (sender_alive p)|].
    split; [done|lia]. }
  apply Forall_cons in Hc as [Hf0 Hc]. apply Z.eqb_neq in Hf0. rewrite Hf0. cbn [d_samples].
  destruct (IH (acc ++ samples f) (consume 1 p)
              (d <| position_samples := u64_add (position_samples d)
                      (Z.of_nat (length (samples f)) / channels f) |>))
    as (p' & d' & frames & enough & E & Eqq & Et & Er & Hen & Hno).
  { unfold consume. cbn. rewrite Eq. cbn in Hf |- *. rewrite drop_0. lia. }
  { unfold consume. cbn. by rewrite Eq. } { done. }
  cbn in Eqq, Et. rewrite Eq in Eqq, Et. cbn in Eqq, Et. rewrite drop_0 in Eqq.
  exists p', d', (f :: frames), enough. cbn [fmap list_fmap concat]. rewrite <- app_assoc in E, Hen.
  split; [exact E|]. rewrite Eqq, Et, <- app_assoc. split_and!; done.
Qed.

(** Packets are cut exactly: a call never panics, takes whole frames from the
    front of the queue, and what it returns followed by what it keeps is what
    it had kept followed by the samples it took; a packet has exactly the size
    asked for, and without one the queue was emptied. *)
Theorem packets_are_cut_exactly target_channels rate fpp p d :
  Forall (fun f => channels f <> 0) (queue p) -> eof d = false ->
  let target := (fpp * Z.to_nat target_channels)%nat in
  exists p' d' out frames,
    decode_resampled target_channels rate fpp p d = Some (p', d', out) /\
    queue p = frames ++ queue p' /\ taken p' = taken p ++ frames /\
    from_option d_samples [] out ++ residual_samples d'
    = residual_samples d ++ concat (samples <$> frames) /\
    match out with
    | Some packet => length (d_samples packet) = target
    | None => (length (residual_samples d') < target)%nat /\ queue p' = [] \/ residual_samples d' = []
    end.
Proof.
  intros Hc He target. unfold decode_resampled. fold target.
  destruct (collect_takes_frames (S (length (queue p))) target (residual_samples d) p
              (d <| residual_samples := [] |>)) as (p' & d' & frames & enough & E & Eq & Et & Er & Hen & Hno);
    [lia|done|done|].
  cbn [residual_samples upd] in *. cbn zeta. rewrite E.
  set (all := residual_samples d ++ concat (samples <$> frames)) in *. cbn in Er.
  destruct enough.
  - assert (target <= length all)%nat as Hle by (by apply Hen).
    destruct all as [|x all'] eqn:Eall.
    + exists p', d', None, frames. rewrite Er. split_and!; try done. by right.
    + rewrite <- Eall in *. clear Eall.
      exists p', (if (target <? length all)%nat then d' <| residual_samples := drop target all |> else d').
      eexists (Some _), frames. split; [reflexivity|]. split; [done|]. split; [done|]. cbn [from_option d_samples].
      split; [|rewrite length_take; lia].
      destruct (Nat.ltb_spec target (length all)).
      * cbn. apply take_drop.
      * rewrite Er, app_nil_r. apply take_ge. fold all. lia.
  - assert (length all < target)%nat as Hlt.
    { destruct (Nat.le_gt_cases target (length all)) as [Hx|]; [|done]. by apply Hen in Hx. }
    eexists p', _, None, frames. split; [reflexivity|]. split; [done|]. split; [done|].
    cbn [from_option app]. destruct all as [|x all'] eqn:Eall.
    + rewrite Er. split; [done|]. by right.
    + cbn [residual_samples upd]. split; [done|]. left. split; [done|by apply Hno].
Qed.

(** Frames that are still queued when the stream is marked as ended are never
    returned, and the end is never reached. *)
Lemma marked_end_is_never_reached p d :
  queue p <> [] -> decode_frame p (mark_eof d) = Some (p, mark_eof d, None) /\
                   is_eof p (mark_eof d) = false.
Proof. intros Hq. unfold is_eof. cbn. by destruct (queue p). Qed.

(** ** The bridge, with everything around it *)

Definition is_busy (b : Bridge) : bool :=
  match listening_tone b, tone_queue b with None, [] => false | _, _ => true end.

(** The frames handed to the queue are where they should be, and each loss was
    counted by the bridge. *)
Definition delivered (b : Bridge) : Prop :=
  capacity (pair b) = CAPTURE_PCM_CAPACITY /\ pair_ok (pair b) /\ balanced (pair b) (snd <$> forwarded b) /\
  exists n, dropped_total b = wrap 64 (Z.of_nat n) /\
    (length (evicted (pair b)) <= n <= length (forwarded b))%nat.

Definition tones_exclusive (b : Bridge) : Prop :=
  listening_tone_active b = is_busy b /\ (length (tone_queue b) <= 1)%nat /\
  (listening_tone b = None \/ tone_queue b = []).

Lemma flush_drops_frame b :
  let b' := flush_drops b in
  pair b' = pair b /\ forwarded b' = forwarded b /\ dropped_total b' = dropped_total b /\
  listening_tone_active b' = listening_tone_active b /\ listening_tone b' = listening_tone b /\
  tone_queue b' = tone_queue b /\ running b' = running b.
Proof. unfold flush_drops, emit_bridge. by repeat case_match. Qed.

Lemma delivered_flush b : delivered b -> delivered (flush_drops b).
Proof.
  unfold delivered. destruct (flush_drops_frame b) as (-> & -> & -> & _). done.
Qed.

Lemma delivered_finish b : delivered b -> delivered (finish b).
Proof.
  intros H. assert (delivered (b <| listening_tone_active := false |>)) as H1 by exact H.
  exact (delivered_flush _ H1).
Qed.

Lemma u64_succ_of_nat n : u64_succ (wrap 64 (Z.of_nat n)) = wrap 64 (Z.of_nat (S n)).
Proof. rewrite Nat2Z.inj_succ. unfold u64_succ, wrap. by rewrite Zplus_mod_idemp_l. Qed.

Lemma evict_capacity p : capacity (evict p) = capacity p.
Proof. unfold evict. by destruct (queue p). Qed.

Lemma send_capacity gaps f p : capacity (fst (try_send_latest gaps f p)) = capacity p.
Proof.
  unfold try_send_latest. cbn zeta. destruct (negb _); [done|].
  set (p0 := count_submitted f p). pose proof (gap_capacity gaps p0) as H1.
  destruct (gap gaps p0) as [g1 p1]. cbn [snd] in H1. destruct (has_room p1); [exact H1|].
  unfold EVICT_FUEL. cbn [evict_loop].
  pose proof (gap_capacity g1 p1) as H2. destruct (gap g1 p1) as [g2 p2]. cbn [snd] in H2.
  pose proof (gap_capacity g2 (evict p2)) as H3. rewrite evict_capacity in H3.
  destruct (gap g2 (evict p2)) as [g3 p3]. cbn [snd] in H3.
  change (capacity p0) with (capacity p) in H1. destruct (has_room p3); cbn; congruence.
Qed.

Lemma delivered_forward gaps origin f b :
  delivered b -> delivered (fst (forward gaps origin f b)).
Proof.
  intros (Hc & Hok & Hb & n & Hn & Hle). unfold forward.
  pose proof (send_capacity gaps f (pair b)) as Hc'. rewrite Hc in Hc'.
  destruct (try_send_latest_spec gaps f _ _ Hok Hb) as (p' & outcome & E & Hok' & Ho).
  rewrite E in *. cbn [fst] in Hc'.
  destruct outcome; cbn zeta.
  - destruct Ho as [Hb' He].
    assert (delivered (b <| pair := p' |> <| forwarded := forwarded b ++ [(origin, f)] |>)).
    { split_and!; cbn; [done..| |exists n].
      - by rewrite fmap_app.
      - rewrite He, length_app. cbn. split; [done|lia]. }
    cbn. case_match; [by apply delivered_flush|done].
  - destruct Ho as [Hb' He].
    assert (delivered (b <| pair := p' |> <| forwarded := forwarded b ++ [(origin, f)] |>
              <| dropped_total := u64_succ (dropped_total b) |>
              <| pending_drops := pending_drops b + 1 |>)).
    { split_and!; cbn; [done..| |exists (S n)].
      - by rewrite fmap_app.
      - rewrite length_app, Hn, u64_succ_of_nat. cbn. split; [done|lia]. }
    cbn. case_match; [done|by apply delivered_flush].
  - destruct Ho as (_ & Hb' & He). split_and!; cbn; [done..|]. exists n. by rewrite He.
Qed.

Lemma delivered_consume n b : delivered b -> delivered (b <| pair := consume n (pair b) |>).
Proof.
  intros (Hc & Hok & Hb & H). split_and!; cbn.
  - exact Hc.
  - apply (gap_ok [n] _ Hok).
  - apply (gap_balanced [n] _ _ Hb).
  - exact H.
Qed.

Lemma forward_tone gaps origin f b :
  let b' := fst (forward gaps origin f b) in
  listening_tone_active b' = listening_tone_active b /\ listening_tone b' = listening_tone b /\
  tone_queue b' = tone_queue b /\ running b' = running b.
Proof.
  unfold forward. destruct (try_send_latest gaps f (pair b)) as [p' [[| |]|]]; cbn zeta;
    repeat case_match; cbn [fst]; try done;
    match goal with |- context [flush_drops ?x] => destruct (flush_drops_frame x) as (_ & _ & _ & ? & ? & ? & ?) end;
    done.
Qed.

Lemma finish_tones b : tones_exclusive (finish b).
Proof.
  destruct (flush_drops_frame (b <| listening_tone_active := false |>)) as (_ & _ & _ & Ha & _).
  unfold finish, tones_exclusive, is_busy.
  destruct (flush_drops (b <| listening_tone_active := false |>)). cbn in *. auto with lia.
Qed.

Lemma tones_loop gaps origin f b :
  tones_exclusive b -> tones_exclusive (loop_or_finish (forward gaps origin f b)).
Proof.
  intros H. unfold loop_or_finish.
  pose proof (forward_tone gaps origin f b) as (Ha & Hl & Hq & _).
  destruct (forward gaps origin f b) as [b' []]; cbn [fst] in *; [|apply finish_tones].
  unfold tones_exclusive, is_busy in *. by rewrite Ha, Hl, Hq.
Qed.

Lemma delivered_loop gaps origin f b :
  delivered b -> delivered (loop_or_finish (forward gaps origin f b)).
Proof.
  intros H. pose proof (delivered_forward gaps origin f b H) as H'. unfold loop_or_finish.
  destruct (forward gaps origin f b) as [b' []]; cbn [fst] in *; [done|by apply delivered_finish].
Qed.

Section Runs.
Context (tone : list Z).

Lemma delivered_turn t b : delivered b -> delivered (turn tone t b).
Proof.
  intros H. unfold turn. destruct (running b); cbn [negb]; [|done].
  destruct (root_cancelled b); [by apply delivered_finish|].
  assert (delivered (accept_tone t b)) as H1 by (unfold accept_tone; by repeat case_match).
  set (b1 := accept_tone t b) in *. clearbody b1. clear H.
  destruct (listening_tone b1) as [a|].
  - unfold play_tone. cbn zeta. case_bool_decide; [done|]. destruct (now t <? next_frame_at a); [done|].
    match goal with |- context [forward ?g ?o ?f ?x] =>
      pose proof (delivered_forward g o f x H1) as H2; destruct (forward g o f x) as [b2 more] end.
    cbn [fst] in H2. destruct more; cbn [negb]; [by case_match|by apply delivered_finish].
  - destruct (injection_queue b1) as [|f rest]; [|by apply delivered_loop].
    destruct (worker_queue b1) as [|f rest]; [|by apply delivered_loop].
    destruct (worker_gone b1); [by apply delivered_finish|].
    apply delivered_loop. by case_match.
Qed.

Lemma accept_tone_exclusive t b : tones_exclusive b -> tones_exclusive (accept_tone t b).
Proof.
  intros H. unfold accept_tone.
  destruct (listening_tone b) as [a|] eqn:El; [done|].
  destruct (tone_queue b) as [|[r k] rest] eqn:Eq; [done|]. destruct H as (Ha & Hn & _).
  rewrite Eq in Hn. unfold is_busy in Ha. rewrite El, Eq in Ha. destruct rest; [|cbn in Hn; lia].
  unfold tones_exclusive, is_busy. case_bool_decide; cbn; rewrite ?El; cbn; auto with lia.
Qed.

Lemma tones_turn t b : tones_exclusive b -> tones_exclusive (turn tone t b).
Proof.
  intros H. unfold turn. destruct (running b); cbn [negb]; [|done].
  destruct (root_cancelled b); [apply finish_tones|].
  apply (accept_tone_exclusive t) in H. set (b1 := accept_tone t b) in *. clearbody b1.
  destruct (listening_tone b1) as [a|] eqn:El.
  - assert (Hq : tone_queue b1 = []) by (destruct H as (_ & _ & [?|?]); congruence).
    assert (Ha : listening_tone_active b1 = true)
      by (destruct H as [-> _]; unfold is_busy; by rewrite El).
    unfold play_tone. cbn zeta.
    case_bool_decide.
    { unfold tones_exclusive, is_busy. cbn. rewrite Hq. cbn. auto with lia. }
    destruct (now t <? next_frame_at a).
    { unfold tones_exclusive, is_busy. cbn. rewrite El, Hq, Ha. cbn. auto with lia. }
    match goal with |- context [forward ?g ?o ?f ?x] =>
      pose proof (forward_tone g o f x) as (Ea & Et & Eq & _); destruct (forward g o f x) as [b2 more] end.
    cbn in Ea, Et, Eq. destruct more; cbn [negb]; [|apply finish_tones].
    unfold tones_exclusive, is_busy. case_match; cbn; rewrite ?Et, ?Eq, ?Ea, ?Hq; cbn; auto with lia.
  - destruct (injection_queue b1) as [|f rest]; [|by apply tones_loop].
    destruct (worker_queue b1) as [|f rest]; [|by apply tones_loop].
    destruct (worker_gone b1); [apply finish_tones|].
    apply tones_loop. by case_match.
Qed.

Lemma tones_start k b : tones_exclusive b -> tones_exclusive (fst (start_listening_tone k b)).
Proof.
  intros H. unfold start_listening_tone.
  destruct (bool_decide (k ∈ cancelled b) || listening_tone_active b) eqn:E; [done|].
  apply orb_false_iff in E as [_ E]. destruct (running b && _); [|done]. destruct H as (Ha & Hn & Hx).
  unfold is_busy in Ha. rewrite E in Ha. destruct (listening_tone b) eqn:El; [by destruct (tone_queue b)|].
  unfold tones_exclusive, is_busy. cbn. rewrite El. auto with lia.
Qed.

Lemma bridge_invariant os b :
  delivered b -> tones_exclusive b ->
  delivered (run_bridge tone os b) /\ tones_exclusive (run_bridge tone os b).
Proof.
  revert b. induction os as [|o os IH]; intros b Hd Ht; [done|].
  cbn [run_bridge foldl]. apply IH.
  - destruct o; cbn [apply_op]; try done.
    + by apply delivered_turn.
    + unfold worker_send. by case_match.
    + unfold inject_pattern. by case_match.
    + unfold start_listening_tone. by repeat case_match.
    + by apply delivered_consume.
    + by case_match.
  - destruct o; cbn [apply_op]; try done.
    + by apply tones_turn.
    + unfold worker_send. by case_match.
    + unfold inject_pattern. by case_match.
    + by apply tones_start.
    + by case_match.
Qed.

(** Whatever the capture workers, the injector, the tone, the decoder and the
    supervisor do between the passes of the bridge: the queue never holds more
    than its 32 frames; the frames the decoder took, followed by those still
    queued, are frames the bridge forwarded, in that order; every other
    forwarded frame was evicted, and the drop counter covers each eviction;
    and the flag that refuses a second tone is up exactly while one is
    requested or playing, of which there is never more than one. *)
Theorem bridge_delivers_in_order os :
  let b := run_bridge tone os new_bridge in
  (length (queue (pair b)) <= CAPTURE_PCM_CAPACITY)%nat /\
  taken (pair b) ++ queue (pair b) `sublist_of` (snd <$> forwarded b) /\
  taken (pair b) ++ queue (pair b) ++ evicted (pair b) ≡ₚ (snd <$> forwarded b) /\
  (exists n, dropped_total b = wrap 64 (Z.of_nat n) /\
     (length (evicted (pair b)) <= n <= length (forwarded b))%nat) /\
  listening_tone_active b = is_busy b /\ (length (tone_queue b) <= 1)%nat /\
  (listening_tone b = None \/ tone_queue b = []).
Proof.
  intros b. destruct (bridge_invariant os new_bridge) as [(Hc & Hok & [Hs Hp] & Hn) (Ha & Hl & Hx)].
  - split_and!; cbn; [done|split; cbn; unfold CAPTURE_PCM_CAPACITY; lia|by split|exists 0%nat; by split].
  - by split_and!; [|cbn; lia|left].
  - destruct Hok as [Hq _]. rewrite Hc in Hq. by split_and!.
Qed.

End Runs.
End LivePcm.
