(* ===== verification/Transport.v ===== *)
(** * Session transport

    [apps/openaircast/src/backend/transport.rs]: how one best-effort group
    connect becomes the transport the session supervisor owns, with the level
    barrier that stands between connecting and audio; and the bounded feed of
    send failures ([GroupRuntimeEventFeed] of
    [crates/airplay-client/src/events.rs]) it drains.

    The client is the class [AirPlayClient], one function per method the
    adapter calls.  The levels are shared with other threads, which act while
    the adapter awaits: an [Await] is what happens during one await or up to
    one look at the levels: the levels stored and the failed sends published
    meanwhile, whether the timer of
    a [tokio::time::timeout] fires, and whether the streaming task still
    holds its half of the release channel.  A script of them drives the
    adapter; a script that has ended is quiet.  A call whose timer fires is
    dropped half way and leaves the client as [dropped_set] or
    [dropped_disconnect] say.  [calls] records, newest first, what the
    receivers and the audio gate saw. *)

From S2P Require Import Prelude Float32 AppState Model Snapshot Supervisor SupervisorPolicy Calibration Device Group GroupConnect GroupConnectProps.
Import Model Supervisor SupervisorPolicy.

Module Transport.

(** ** Stream parameters *)

Definition MIN_MILLIS : Z := 100.
Definition MAX_MILLIS : Z := 10000.

(** [SenderBufferCapacity::from_millis]; the capacity is its milliseconds. *)
Definition from_millis (millis : Z) : option Z :=
  if (MIN_MILLIS <=? millis) && (millis <=? MAX_MILLIS) then Some millis else None.

(** ** The feed of send failures *)

Inductive GroupRuntimeEvent := TargetSendFailed (receiver : DeviceId) (source : string).

(** Both halves of the channel: what is queued, whether the receiver is still
    there, and the loss counter.  [offered] is not in the source: everything
    producers ever tried to publish. *)
Record Feed := MkFeed {
  capacity : nat;
  queued : list GroupRuntimeEvent;
  receiver_alive : bool;
  lost_total : Z;
  offered : list GroupRuntimeEvent }.
#[export] Instance Feed_eta : Eta Feed :=
  fun f => MkFeed (capacity f) (queued f) (receiver_alive f) (lost_total f) (offered f).

Definition GROUP_RUNTIME_EVENT_CAPACITY : nat := 256.

(** [GroupRuntimeEventFeed::channel] *)
Definition channel (capacity : nat) : Feed := MkFeed (Nat.max capacity 1) [] true 0 [].

Definition try_publish (f : Feed) (event : GroupRuntimeEvent) : Feed * bool :=
  let f := f <| offered := offered f ++ [event] |> in
  if receiver_alive f && (length (queued f) <? capacity f)%nat
  then (f <| queued := queued f ++ [event] |>, true)
  else (f <| lost_total := u64_succ (lost_total f) |>, false).

(** ** The protocol seam *)

Definition NO_MEMBER_REACHABLE : string := "no selected receiver could be reached".
Definition AUDIO_START_FAILED : string :=
  "the receivers accepted the session but audio could not start".
Definition INITIAL_VOLUME_FAILED : string :=
  "the receivers accepted the session but safe volume setup failed".
Definition INITIAL_VOLUME_MAX_PASSES : nat := 3.

(** [airplay_client::AirPlayClient], as far as [AirPlayGroupClient] uses it.
    [prepare_live] is [prepare_live_group_with_presentation_delays] when there
    are delays and [start_live_streaming_with_decoder_gated] otherwise. *)
Class AirPlayClient (C Device Decoder Source : Type) := {
  new_client : Result C Group.Error;
  set_sender_buffer_capacity : C -> Z -> C;
  set_render_delay_ms : C -> Z -> C;
  client_diagnostics : C -> Source;
  connect_group_best_effort :
    C -> list Device -> option DeviceId -> C * Result Group.GroupConnectReport Group.Error;
  prepare_live : C -> Decoder -> option (gmap DeviceId Z) -> C * Result unit Group.Error;
  client_probe : C -> C * list (DeviceId * Result Health Group.MemberFailure);
  client_set_volume : C -> DeviceId -> f32 -> C * Result unit Group.MemberFailure;
  client_disconnect : C -> C * Result unit Group.Error;
  dropped_set : C -> DeviceId -> f32 -> C;
  dropped_disconnect : C -> C }.

(** [snapshot_phase] of [session.rs] *)
Definition snapshot_phase (p : Group.SetupPhase) : SetupPhase :=
  match p with
  | Group.Connect => PhaseConnect | Group.Pair => PhasePair
  | Group.PrimaryTiming => PhasePrimaryTiming | Group.RtspSetup => PhaseRtspSetup
  | Group.SetPeers => PhaseSetPeers | Group.BuildSender => PhaseBuildSender
  | Group.StartAudio => PhaseStartAudio
  end.

(** What the supervisor sees of a failure. *)
Definition seen_failure (f : Group.MemberFailure) : MemberFailure :=
  MkFailure (Group.failure_receiver f) (snapshot_phase (Group.failure_phase f))
    (Group.failure_retryable f).
Definition seen_result {A} (r : Result A Group.MemberFailure) : Result A MemberFailure :=
  match r with Ok a => Ok a | Err f => Err (seen_failure f) end.

Record SessionStartFailure := { error : string; failures : list MemberFailure }.

(** What one await lets happen. *)
Record Await := MkAwait {
  stored : list (DeviceId * f32);
  failed_sends : list GroupRuntimeEvent;
  timer_fired : bool;
  gate_held : bool }.
Definition quiet : Await := MkAwait [] [] false true.

(** [level] is the level asked of a receiver and whether it was accepted in
    time; [Released] carries the shared levels at that instant. *)
Inductive Call :=
| CallConnect
| CallLevel (receiver : DeviceId) (volume : f32) (accepted : bool)
| CallPrepare (delays : option (gmap DeviceId Z)) (ok : bool)
| CallRelease (levels : EffectiveVolumes) (received : bool)
| CallProbe
| CallDisconnect.

Section Adapter.
Context {C Device Decoder Source : Type} `{AirPlayClient C Device Decoder Source}.

(** A client with its feed ([AirPlayGroupClient]), the shared levels, the
    script of awaits to come, and the record of calls. *)
Record World := MkWorld {
  client : C;
  feed : Feed;
  levels : EffectiveVolumes;
  script : list Await;
  calls : list Call }.
#[export] Instance World_eta : Eta World :=
  fun w => MkWorld (client w) (feed w) (levels w) (script w) (calls w).

Definition note (a : Call) (w : World) : World := w <| calls := a :: calls w |>.

(** One await, or one look at the shared levels: the other threads act. *)
Definition await (w : World) : World * Await :=
  match script w with
  | [] => (w, quiet)
  | a :: rest =>
      (w <| script := rest |> <| levels := store_all (levels w) (stored a) |>
         <| feed := foldl (fun f e => fst (try_publish f e)) (feed w) (failed_sends a) |>, a)
  end.

(** [client.disconnect().await], without a timer of its own. *)
Definition disconnect (w : World) : World * Result unit Group.Error :=
  let '(w, _) := await w in
  let '(c, r) := client_disconnect (client w) in
  (note CallDisconnect (w <| client := c |>), r).

(** [timeout(TEARDOWN_GROUP, client.disconnect())] *)
Definition disconnect_bounded (w : World) : World :=
  let '(w, a) := await w in
  let c := if timer_fired a then dropped_disconnect (client w)
           else fst (client_disconnect (client w)) in
  note CallDisconnect (w <| client := c |>).

(** [timeout(TEARDOWN_GROUP, client.set_member_volume(receiver, volume))] and
    whether it was [Ok] of an accepting [MemberResult]. *)
Definition set_level (w : World) (receiver : DeviceId) (volume : f32) : World * bool :=
  let '(w, a) := await w in
  if timer_fired a
  then (note (CallLevel receiver volume false)
          (w <| client := dropped_set (client w) receiver volume |>), false)
  else
    let '(c, r) := client_set_volume (client w) receiver volume in
    let accepted := match r with Ok _ => true | Err _ => false end in
    (note (CallLevel receiver volume accepted) (w <| client := c |>), accepted).

(** The loop over the receivers of one pass; it stops at the first refusal. *)
Fixpoint set_levels (w : World) (snap : EffectiveVolumes) (receivers : list DeviceId)
  : World * bool :=
  match receivers with
  | [] => (w, true)
  | receiver :: rest =>
      let '(w, accepted) := set_level w receiver (get_effective snap receiver) in
      if accepted then set_levels w snap rest else (w, false)
  end.

(** ** Starting *)

Inductive Passes := Stable | Unstable | Refused.

(** The passes of the start: set every level, then look whether the levels
    are still the ones just set. *)
Fixpoint initial_passes (passes : nat) (w : World) (receivers : list DeviceId) : World * Passes :=
  match passes with
  | O => (w, Unstable)
  | S passes =>
      let snap := snapshot (levels w) in
      let '(w, accepted) := set_levels w snap receivers in
      if negb accepted then (w, Refused)
      else
        let '(w, _) := await w in
        if is_current (levels w) snap then (w, Stable) else initial_passes passes w receivers
  end.

(** [AirPlayGroupTransport]; its client, its feed and the shared levels are in
    the [World].  [release] is the sender of the release channel, still
    unused; [events] whether it holds the receiver of the feed. *)
Record Transport := MkTransport {
  release : bool;
  t_primary : ReceiverId;
  members : gset ReceiverId;
  t_failures : option (list MemberFailure);
  events : bool;
  lost_seen : Z }.
#[export] Instance Transport_eta : Eta Transport :=
  fun t => MkTransport (release t) (t_primary t) (members t) (t_failures t) (events t)
             (lost_seen t).

Definition start_failure (e : string) (fs : list Group.MemberFailure) : SessionStartFailure :=
  {| error := e; failures := seen_failure <$> fs |}.

(** The streaming entry point: one receiver has nothing to be aligned with. *)
Definition start_audio (w : World) (decoder : Decoder) (report : Group.GroupConnectReport)
    (calibration : Calibration.CalibrationProfile) : World * bool :=
  let go (delays : option (gmap DeviceId Z)) :=
    let '(w, _) := await w in
    let '(c, r) := prepare_live (client w) decoder delays in
    let ok := match r with Ok _ => true | Err _ => false end in
    (note (CallPrepare delays ok) (w <| client := c |>), ok) in
  if (length (Group.report_connected report) <=? 1)%nat then go None
  else match Group.presentation_delays_for (Group.report_connected report) calibration with
       | Ok delays => go (Some delays)
       | Err _ => (w, false)
       end.

(** What follows a report with a primary. *)
Definition start_connected (w : World) (has_events : bool) (lost_baseline : Z)
    (decoder : Decoder) (calibration : Calibration.CalibrationProfile)
    (report : Group.GroupConnectReport) (primary : DeviceId)
  : World * Result Transport SessionStartFailure :=
  let '(w, passes) :=
    initial_passes INITIAL_VOLUME_MAX_PASSES w (Group.report_connected report) in
  match passes with
  | Refused | Unstable =>
      (disconnect_bounded w,
       Err (start_failure INITIAL_VOLUME_FAILED (Group.report_failures report)))
  | Stable =>
      let '(w, ok) := start_audio w decoder report calibration in
      if negb ok
      then (fst (disconnect w),
            Err (start_failure AUDIO_START_FAILED (Group.report_failures report)))
      else (w, Ok (MkTransport true primary (list_to_set (Group.report_connected report))
                     (Some (seen_failure <$> Group.report_failures report)) has_events
                     lost_baseline))
  end.

(** [start_with_volumes] after the client exists.  A new client still has the
    receiver of its feed. *)
Definition start_client (w : World) (desired : list Device) (preferred : option ReceiverId)
    (decoder : Decoder) (sender_buffer : Z) (latency : LatencyConfig)
    (calibration : Calibration.CalibrationProfile)
  : World * Result Transport SessionStartFailure :=
  let w := w <| client := set_sender_buffer_capacity (client w) sender_buffer |> in
  let w := w <| client := set_render_delay_ms (client w) (render_delay_ms latency) |> in
  let lost_baseline := lost_total (feed w) in
  let '(w, _) := await w in
  let '(c, answer) := connect_group_best_effort (client w) desired preferred in
  let w := note CallConnect (w <| client := c |>) in
  match answer with
  | Err _ => (fst (disconnect w), Err (start_failure NO_MEMBER_REACHABLE []))
  | Ok report =>
      match Group.report_primary report with
      | None =>
          (fst (disconnect w), Err (start_failure NO_MEMBER_REACHABLE (Group.report_failures report)))
      | Some primary => start_connected w true lost_baseline decoder calibration report primary
      end
  end.

(** [start_with_volumes] with the production factory: a fresh client and feed
    per attempt. *)
Definition start_with_volumes (volumes : EffectiveVolumes) (awaits : list Await)
    (desired : list Device) (preferred : option ReceiverId) (decoder : Decoder)
    (latency : LatencyConfig) (calibration : Calibration.CalibrationProfile)
  : option World * Result Transport SessionStartFailure :=
  match from_millis (sender_buffer_ms latency) with
  | None => (None, Err (start_failure "the selected sender buffer capacity is invalid" []))
  | Some sender_buffer =>
      match new_client with
      | Err _ =>
          (None, Err (start_failure "the AirPlay stack could not be started on this machine" []))
      | Ok c =>
          let w := MkWorld c (channel GROUP_RUNTIME_EVENT_CAPACITY) volumes awaits [] in
          let '(w, r) :=
            start_client w desired preferred decoder sender_buffer latency calibration in
          (Some w, r)
      end
  end.

(** ** The transport *)

Fixpoint activation_passes (passes : nat) (w : World) (t : Transport)
  : World * Transport * Result unit string :=
  match passes with
  | O => (w, t, Err INITIAL_VOLUME_FAILED)
  | S passes =>
      let snap := snapshot (levels w) in
      let '(w, accepted) := set_levels w snap (sorted_ids (members t)) in
      if negb accepted then (w, t, Err INITIAL_VOLUME_FAILED)
      else
        let '(w, a) := await w in
        let '(sender, released) :=
          release_if_current (levels w) snap (if release t then Some (gate_held a) else None) in
        let w := if is_current (levels w) snap && release t
                 then note (CallRelease (levels w) released) w else w in
        let t := t <| release := negb (is_none sender) |> in
        if released then (w, t, Ok tt) else activation_passes passes w t
  end.

Definition activate (w : World) (t : Transport) : World * Transport * Result unit string :=
  if negb (release t) then (w, t, Ok tt) else activation_passes INITIAL_VOLUME_MAX_PASSES w t.

Definition take_setup_failures (t : Transport) : Transport * list MemberFailure :=
  (t <| t_failures := None |>, default [] (t_failures t)).

(** [try_recv] when the transport holds the receiver, then the loss report. *)
Definition next_runtime_event (w : World) (t : Transport)
  : World * Transport * Result (option GroupRuntimeEvent) Z :=
  match events t, queued (feed w) with
  | true, event :: rest => (w <| feed := (feed w) <| queued := rest |> |>, t, Ok (Some event))
  | _, _ =>
      let lost := lost_total (feed w) in
      if lost_seen t <? lost then (w, t <| lost_seen := lost |>, Err (lost - lost_seen t))
      else (w, t, Ok None)
  end.

Definition probe (w : World) : World * list (DeviceId * Result Health MemberFailure) :=
  let '(c, rs) := client_probe (client w) in
  (note CallProbe (w <| client := c |>), (fun '(r, x) => (r, seen_result x)) <$> rs).

Definition set_volume (w : World) (receiver : ReceiverId) (volume : f32)
  : World * Result unit MemberFailure :=
  let '(c, r) := client_set_volume (client w) receiver volume in
  let accepted := match r with Ok _ => true | Err _ => false end in
  (note (CallLevel receiver volume accepted) (w <| client := c |>), seen_result r).

(** The supervisor's interface, over the transport together with its world. *)
#[export] Instance group_transport : SessionTransport (World * Transport) Source := {
  diagnostics_source x := Some (client_diagnostics (client x.1));
  primary x := Some (t_primary x.2);
  active_members x := members x.2;
  setup_failures x := let '(t, fs) := take_setup_failures x.2 in ((x.1, t), fs);
  try_runtime_event x :=
    let '(w, t, r) := next_runtime_event x.1 x.2 in
    ((w, t), match r with
             | Ok e => Ok ((fun '(TargetSendFailed receiver _) => receiver) <$> e)
             | Err dropped => Err dropped
             end);
  probe_members x := let '(w, rs) := probe x.1 in ((w, x.2), rs);
  set_member_volume x receiver volume :=
    let '(w, r) := set_volume x.1 receiver volume in ((w, x.2), r) }.

(** Everything that can happen to a transport once it exists: its owner's
    calls, and other threads storing a level or reporting a failed send. *)
Inductive Op :=
| OpActivate
| OpSetVolume (receiver : ReceiverId) (volume : f32)
| OpProbe
| OpFailures
| OpEvent
| OpStop
| OpStore (receiver : DeviceId) (volume : f32)
| OpPublish (event : GroupRuntimeEvent).

Definition apply_op (x : World * Transport) (o : Op) : World * Transport :=
  let '(w, t) := x in
  match o with
  | OpActivate => fst (activate w t)
  | OpSetVolume receiver volume => (fst (set_volume w receiver volume), t)
  | OpProbe => (fst (probe w), t)
  | OpFailures => (w, fst (take_setup_failures t))
  | OpEvent => fst (next_runtime_event w t)
  | OpStop => (fst (disconnect w), t)
  | OpStore receiver volume => (w <| levels := set_effective (levels w) receiver volume |>, t)
  | OpPublish event => (w <| feed := fst (try_publish (feed w) event) |>, t)
  end.

Definition run_ops (x : World * Transport) (os : list Op) : World * Transport :=
  foldl apply_op x os.

End Adapter.

(** ** Levels before audio *)

(** The level a receiver last accepted, if its newest request was accepted. *)
Fixpoint level_of (calls : list Call) (r : DeviceId) : option f32 :=
  match calls with
  | [] => None
  | CallLevel r' v ok :: before =>
      if decide (r' = r) then (if ok then Some v else None) else level_of before r
  | _ :: before => level_of before r
  end.

Definition is_release (a : Call) : bool := match a with CallRelease _ _ => true | _ => false end.
Definition unreleased (calls : list Call) : Prop := Forall (fun a => is_release a = false) calls.

(** Every member holds, by its own acceptance, the level shared at that time. *)
Definition all_at (ms : gset DeviceId) (lv : EffectiveVolumes) (calls : list Call) : Prop :=
  forall r, r ∈ ms -> exists v, level_of calls r = Some v /\ same_level v (get_effective lv r).

Fixpoint released_safely (ms : gset DeviceId) (calls : list Call) : Prop :=
  match calls with
  | [] => True
  | CallRelease lv _ :: before => all_at ms lv before /\ unreleased before
  | _ :: before => released_safely ms before
  end.

Lemma unreleased_safely ms cs : unreleased cs -> released_safely ms cs.
Proof. induction cs as [|[] cs IH]; intros Hu; inversion Hu; subst; cbn; try done; by apply IH. Qed.

Lemma released_safely_app ms cs cs' :
  unreleased cs' -> released_safely ms cs -> released_safely ms (cs' ++ cs).
Proof.
  induction cs' as [|[] cs' IH]; intros Hu Hs; inversion Hu; subst; cbn in *; try done; by apply IH.
Qed.

Lemma released_safely_at ms later lv received before :
  released_safely ms (later ++ CallRelease lv received :: before) ->
  all_at ms lv before /\ unreleased later /\ unreleased before.
Proof.
  induction later as [|a later IH]; cbn; [intros []; split_and!; try done; constructor|].
  destruct a; cbn; intros Hs; try (destruct (IH Hs) as (? & ? & ?); split_and!; try done; by constructor).
  destruct Hs as [_ Hu]. unfold unreleased in Hu. rewrite Forall_app, Forall_cons in Hu.
  by destruct Hu as (_ & [=] & _).
Qed.

Section Barrier.
Context {C Device Decoder Source : Type} `{AirPlayClient C Device Decoder Source}.
Implicit Types w : @World C.

Definition stores_of (awaits : list Await) : list (DeviceId * f32) := concat (stored <$> awaits).

Definition sends_of (awaits : list Await) : list GroupRuntimeEvent :=
  concat (failed_sends <$> awaits).
Definition publish_all (f : Feed) (es : list GroupRuntimeEvent) : Feed :=
  foldl (fun f e => fst (try_publish f e)) f es.

Lemma publish_all_app f xs ys : publish_all f (xs ++ ys) = publish_all (publish_all f xs) ys.
Proof. apply foldl_app. Qed.

Lemma store_all_app v xs ys : store_all v (xs ++ ys) = store_all (store_all v xs) ys.
Proof. apply foldl_app. Qed.

Lemma store_all_in_width v ops :
  in_width 64 (version v) -> in_width 64 (version (store_all v ops)).
Proof.
  revert v. induction ops as [|[r x] ops IH]; intros v Hv; [done|]. apply IH.
  unfold set_effective. destruct (volume_changed _ _); cbn; [|done]. by apply wrap_bound.
Qed.

(** A part of the adapter that only awaits and calls the client: what it has
    stored and published is the part of the script it used up, and it releases
    nothing. *)
Definition quietly w w' : Prop :=
  (exists used cs, script w = used ++ script w' /\
     levels w' = store_all (levels w) (stores_of used) /\
     calls w' = cs ++ calls w /\ unreleased cs /\
     feed w' = publish_all (feed w) (sends_of used)).

Lemma quietly_refl w : quietly w w.
Proof. exists [], []. split_and!; try done. constructor. Qed.

Lemma quietly_trans w1 w2 w3 : quietly w1 w2 -> quietly w2 w3 -> quietly w1 w3.
Proof.
  intros (u & cs & Hs & Hl & Hc & Hu & Hf) (u' & cs' & Hs' & Hl' & Hc' & Hu' & Hf').
  exists (u ++ u'), (cs' ++ cs). rewrite Hs, Hs', Hl', Hl, Hc', Hc, Hf', Hf.
  unfold stores_of, sends_of.
  rewrite !fmap_app, !concat_app, store_all_app, publish_all_app, <- !app_assoc. split_and!; try done.
  by apply Forall_app.
Qed.

Lemma await_quietly w : quietly w (fst (await w)).
Proof.
  unfold await. destruct (script w) as [|a rest] eqn:E; [apply quietly_refl|].
  exists [a], []. unfold stores_of, sends_of. cbn. rewrite E, !app_nil_r. split_and!; try done. constructor.
Qed.

Lemma note_quietly w c a : is_release a = false -> quietly w (note a (w <| client := c |>)).
Proof. intros Ha. exists [], [a]. split_and!; try done. constructor; [done|constructor]. Qed.

Lemma set_level_quietly w r v : quietly w (fst (set_level w r v)).
Proof.
  unfold set_level. pose proof (await_quietly w) as Hq. destruct (await w) as [w' a].
  destruct (timer_fired a); [eapply quietly_trans; [exact Hq|by apply note_quietly]|].
  destruct (client_set_volume _ _ _) as [c x].
  eapply quietly_trans; [exact Hq|by apply note_quietly].
Qed.

Lemma set_level_accepted w r v w' :
  set_level w r v = (w', true) ->
  exists w1, quietly w w1 /\ calls w1 = calls w /\ calls w' = CallLevel r v true :: calls w.
Proof.
  unfold set_level. pose proof (await_quietly w) as Hq.
  assert (Hc : calls (fst (await w)) = calls w) by (unfold await; by destruct (script w)).
  destruct (await w) as [w1 a]. destruct (timer_fired a); [done|].
  destruct (client_set_volume _ _ _) as [c [u|e]]; [|done]. intros [= <-].
  exists w1. cbn in *. by rewrite Hc.
Qed.

Lemma set_levels_quietly w snap rs : quietly w (fst (set_levels w snap rs)).
Proof.
  revert w. induction rs as [|r rs IH]; intros w; cbn; [apply quietly_refl|].
  pose proof (set_level_quietly w r (get_effective snap r)) as Hq.
  destruct (set_level w r _) as [w1 []]; [|done]. eapply quietly_trans; [exact Hq|apply IH].
Qed.

(** A pass that nobody refused leaves every receiver at the snapshot's level. *)
Lemma set_levels_accepted w snap rs w' :
  set_levels w snap rs = (w', true) ->
  (forall r, r ∈ rs -> level_of (calls w') r = Some (get_effective snap r)) /\
  (forall r, r ∉ rs -> level_of (calls w') r = level_of (calls w) r).
Proof.
  revert w. induction rs as [|r rs IH]; intros w; cbn [set_levels].
  { intros [= <-]. split; [|done]. intros r Hr. by apply elem_of_nil in Hr. }
  destruct (set_level w r _) as [w1 []] eqn:E; [|done]. intros E'.
  apply set_level_accepted in E as (_ & _ & _ & Hc). destruct (IH w1 E') as [Hin Hout].
  split; intros r' Hr'.
  - destruct (decide (r' ∈ rs)) as [?|Hn]; [by apply Hin|]. rewrite Hout by done. rewrite Hc. cbn.
    apply elem_of_cons in Hr' as [->|?]; [by rewrite decide_True|done].
  - apply not_elem_of_cons in Hr' as [Hne Hr']. rewrite Hout by done. rewrite Hc. cbn.
    by rewrite decide_False.
Qed.

(** The levels a snapshot was taken of and the levels [is_current] was asked
    about: with less than a full turn of the version in between they are the
    same ones. *)
Lemma current_levels_same v ops :
  in_width 64 (version v) -> Z.of_nat (length ops) < 2 ^ 64 ->
  is_current (store_all v ops) (snapshot v) = true ->
  forall r, same_level (get_effective (snapshot v) r) (get_effective (store_all v ops) r).
Proof.
  intros Hw Hl Hc r. symmetry.
  refine (proj2 (released_levels_are_current v ops (Some true) None Hw Hl _) r).
  unfold release_if_current. unfold is_current in Hc. by rewrite Hc.
Qed.

Definition calm w : Prop :=
  in_width 64 (version (levels w)) /\ Z.of_nat (length (stores_of (script w))) < 2 ^ 64.

Lemma quietly_calm w w' : quietly w w' -> calm w -> calm w'.
Proof.
  intros (u & cs & Hs & Hl & _) [Hw Hn]. split; [rewrite Hl; by apply store_all_in_width|].
  rewrite Hs in Hn. unfold stores_of in *. rewrite fmap_app, concat_app, length_app in Hn. lia.
Qed.

(** One whole pass: accepted everywhere, and still current when looked at. *)
Lemma pass_settles w ms rs w1 w2 :
  calm w -> (forall r, r ∈ ms -> r ∈ rs) ->
  set_levels w (snapshot (levels w)) rs = (w1, true) -> fst (await w1) = w2 ->
  is_current (levels w2) (snapshot (levels w)) = true ->
  quietly w w2 /\ all_at ms (levels w2) (calls w2).
Proof.
  intros [Hw Hn] Hms E <- Hcur. pose proof (set_levels_quietly w (snapshot (levels w)) rs) as Hq.
  rewrite E in Hq. cbn in Hq. pose proof (quietly_trans _ _ _ Hq (await_quietly w1)) as Hq2.
  split; [done|]. assert (Hc : calls (fst (await w1)) = calls w1) by (unfold await; by destruct (script w1)).
  destruct Hq2 as (u & cs & Hs & Hl & _). intros r Hr. rewrite Hc.
  exists (get_effective (snapshot (levels w)) r). split; [by apply (set_levels_accepted _ _ _ _ E), Hms|].
  rewrite Hl in *. apply current_levels_same; try done.
  rewrite Hs in Hn. unfold stores_of in *. rewrite fmap_app, concat_app, length_app in Hn. lia.
Qed.

Lemma calls_await w : calls (fst (await w)) = calls w.
Proof. unfold await. by destruct (script w). Qed.

Lemma initial_passes_settle n w rs w' p :
  calm w -> initial_passes n w rs = (w', p) ->
  quietly w w' /\ (p = Stable -> all_at (list_to_set rs) (levels w') (calls w')).
Proof.
  revert w. induction n as [|n IH]; intros w Hc; cbn [initial_passes].
  { intros [= <- <-]. split; [apply quietly_refl|done]. }
  pose proof (set_levels_quietly w (snapshot (levels w)) rs) as Hq.
  destruct (set_levels w _ rs) as [w1 []] eqn:E; cbn [negb fst] in *.
  2:{ intros [= <- <-]. done. }
  pose proof (await_quietly w1) as Hq1. destruct (await w1) as [w2 a] eqn:Ea. cbn [fst] in Hq1.
  destruct (is_current _ _) eqn:Ecur.
  - intros [= <- <-]. destruct (pass_settles w (list_to_set rs) rs w1 w2) as [H1 H2]; try done.
    { intros r. by rewrite elem_of_list_to_set. } { by rewrite Ea. }
  - intros E2. pose proof (quietly_trans _ _ _ Hq Hq1) as Hq2.
    destruct (IH w2 (quietly_calm _ _ Hq2 Hc) E2) as [H1 H2]. split; [|done].
    by eapply quietly_trans.
Qed.

Lemma disconnect_quietly w :
  quietly w (fst (disconnect w)) /\ calls (fst (disconnect w)) = CallDisconnect :: calls w.
Proof.
  unfold disconnect. pose proof (await_quietly w) as Hq. pose proof (calls_await w) as Hc.
  destruct (await w) as [w1 a]. cbn [fst] in *. destruct (client_disconnect _) as [c r]. cbn [fst].
  split; [eapply quietly_trans; [exact Hq|by apply note_quietly]|]. cbn. by rewrite Hc.
Qed.

Lemma disconnect_bounded_quietly w :
  quietly w (disconnect_bounded w) /\ calls (disconnect_bounded w) = CallDisconnect :: calls w.
Proof.
  unfold disconnect_bounded. pose proof (await_quietly w) as Hq. pose proof (calls_await w) as Hc.
  destruct (await w) as [w1 a]. cbn [fst] in *.
  split; [eapply quietly_trans; [exact Hq|by apply note_quietly]|]. cbn. by rewrite Hc.
Qed.

(** The delays a group is prepared with. *)
Definition planned (connected : list DeviceId) (calibration : Calibration.CalibrationProfile)
    (delays : option (gmap DeviceId Z)) : Prop :=
  if (length connected <=? 1)%nat then delays = None
  else exists d, delays = Some d /\ Group.presentation_delays_for connected calibration = Ok d.

Lemma start_audio_quietly w decoder report calibration w' ok :
  start_audio w decoder report calibration = (w', ok) ->
  quietly w w' /\
  (ok = true -> exists delays, calls w' = CallPrepare delays true :: calls w /\
                 planned (Group.report_connected report) calibration delays).
Proof.
  unfold start_audio, planned.
  assert (Hgo : forall delays,
    (let '(w, _) := await w in
     let '(c, r) := prepare_live (client w) decoder delays in
     let ok := match r with Ok _ => true | Err _ => false end in
     (note (CallPrepare delays ok) (w <| client := c |>), ok)) = (w', ok) ->
    quietly w w' /\ (ok = true -> calls w' = CallPrepare delays true :: calls w)).
  { intros delays. pose proof (await_quietly w) as Hq. pose proof (calls_await w) as Hc.
    destruct (await w) as [w1 a]. destruct (prepare_live _ _ _) as [c r]. cbn [fst] in *.
    intros [= <- <-]. split; [eapply quietly_trans; [exact Hq|by apply note_quietly]|].
    intros Hok. cbn in *. rewrite Hok, Hc. done. }
  destruct (_ <=? 1)%nat.
  - intros E. destruct (Hgo _ E) as [H1 H2]. split; [done|]. eauto.
  - destruct (Group.presentation_delays_for _ _) as [d|e] eqn:Ed.
    + intros E. destruct (Hgo _ E) as [H1 H2]. split; [done|]. intros Hok.
      exists (Some d). split; [by apply H2|]. by exists d.
    + intros [= <- <-]. split; [apply quietly_refl|done].
Qed.

(** Only levels were asked of the receivers. *)
Definition is_level (a : Call) : bool := match a with CallLevel _ _ _ => true | _ => false end.
Definition only_levels (from to : list Call) : Prop :=
  exists cs, to = cs ++ from /\ Forall (fun a => is_level a = true) cs.

#[local] Instance only_levels_preorder : PreOrder only_levels.
Proof.
  split.
  - intros cs. exists []. by split; [|constructor].
  - intros a b c (x & -> & Hx) (y & -> & Hy). exists (y ++ x). rewrite app_assoc.
    split; [done|]. by apply Forall_app.
Qed.

Lemma set_levels_only w snap rs : only_levels (calls w) (calls (fst (set_levels w snap rs))).
Proof.
  revert w. induction rs as [|r rs IH]; intros w; cbn; [reflexivity|].
  assert (Hs : only_levels (calls w) (calls (fst (set_level w r (get_effective snap r))))).
  { unfold set_level. pose proof (calls_await w) as Hc. destruct (await w) as [w1 a]. cbn in Hc.
    destruct (timer_fired a); [|destruct (client_set_volume _ _ _) as [c x]];
      (eexists [_]; cbn; rewrite Hc; split; [done|]; constructor; [done|constructor]). }
  destruct (set_level w r _) as [w1 []]; [|done]. etransitivity; [exact Hs|apply IH].
Qed.

Lemma initial_passes_only n w rs : only_levels (calls w) (calls (fst (initial_passes n w rs))).
Proof.
  revert w. induction n as [|n IH]; intros w; cbn [initial_passes]; [reflexivity|].
  pose proof (set_levels_only w (snapshot (levels w)) rs) as Hs.
  destruct (set_levels w _ rs) as [w1 []]; cbn [negb fst] in *; [|done].
  pose proof (calls_await w1) as Hc. destruct (await w1) as [w2 a]. cbn in Hc. rewrite <- Hc in Hs.
  destruct (is_current _ _); [done|]. etransitivity; [exact Hs|apply IH].
Qed.

(** ** The outcome of a start *)

(** What holds when a start returns. *)
Definition started (desired : list Device) (preferred : option ReceiverId)
    (calibration : Calibration.CalibrationProfile) (w : @World C)
    (answer : Result Transport SessionStartFailure) : Prop :=
  match answer with
  | Err f => exists before, calls w = CallDisconnect :: before
  | Ok t =>
      exists (c c' : C) report delays before,
        connect_group_best_effort c desired preferred = (c', Ok report) /\
        Group.report_primary report = Some (t_primary t) /\
        members t = list_to_set (Group.report_connected report) /\
        t_failures t = Some (seen_failure <$> Group.report_failures report) /\
        release t = true /\ events t = true /\ lost_seen t = 0 /\
        calls w = CallPrepare delays true :: before /\
        only_levels [CallConnect] before /\
        planned (Group.report_connected report) calibration delays /\
        forall r, r ∈ members t -> exists v, level_of before r = Some v
  end.

Lemma start_connected_outcome w has lost decoder calibration report prim w' answer :
  calm w -> unreleased (calls w) ->
  start_connected w has lost decoder calibration report prim = (w', answer) ->
  quietly w w' /\
  match answer with
  | Err f => exists before, calls w' = CallDisconnect :: before
  | Ok t => t = MkTransport true prim (list_to_set (Group.report_connected report))
                  (Some (seen_failure <$> Group.report_failures report)) has lost /\
            exists delays before, calls w' = CallPrepare delays true :: before /\
              only_levels (calls w) before /\
              planned (Group.report_connected report) calibration delays /\
              forall r, r ∈ members t -> exists v, level_of before r = Some v
  end.
Proof.
  intros Hc Hu. unfold start_connected.
  pose proof (initial_passes_only INITIAL_VOLUME_MAX_PASSES w (Group.report_connected report)) as Ho.
  destruct (initial_passes _ _ _) as [w1 p] eqn:Ep. cbn [fst] in Ho.
  destruct (initial_passes_settle _ _ _ _ _ Hc Ep) as [Hq Hat].
  destruct p.
  - destruct (start_audio _ _ _ _) as [w2 ok] eqn:Ea.
    destruct (start_audio_quietly _ _ _ _ _ _ Ea) as [Hq2 Hok].
    destruct ok; cbn [negb]; intros [= <- <-].
    + split; [by eapply quietly_trans|]. split; [done|].
      destruct (Hok eq_refl) as (delays & Hcalls & Hpl). exists delays, (calls w1).
      split_and!; try done. intros r Hr. destruct (Hat eq_refl r Hr) as (v & Hv & _). eauto.
    + destruct (disconnect_quietly w2) as [Hq3 Hd].
      split; [|by eexists]. eapply quietly_trans; [exact Hq|]. by eapply quietly_trans.
  - intros [= <- <-]. destruct (disconnect_bounded_quietly w1) as [Hq3 Hd].
    split; [|by eexists]. by eapply quietly_trans.
  - intros [= <- <-]. destruct (disconnect_bounded_quietly w1) as [Hq3 Hd].
    split; [|by eexists]. by eapply quietly_trans.
Qed.

Lemma start_client_outcome w desired preferred decoder buffer latency calibration w' answer :
  calm w -> calls w = [] -> lost_total (feed w) = 0 ->
  start_client w desired preferred decoder buffer latency calibration = (w', answer) ->
  quietly w w' /\ started desired preferred calibration w' answer.
Proof.
  intros Hc Hn Hlost. unfold start_client. cbn zeta.
  set (w0 := upd client _ (upd client _ w)).
  assert (Hq0 : quietly w w0) by (exists [], []; split_and!; try done; constructor).
  pose proof (await_quietly w0) as Hq1. pose proof (calls_await w0) as Hc1.
  destruct (await w0) as [w1 a]. cbn [fst] in *.
  destruct (connect_group_best_effort _ _ _) as [c r] eqn:Econ. cbn zeta.
  pose proof (note_quietly w1 c CallConnect eq_refl) as Hq2.
  set (w2 := note CallConnect _) in *.
  assert (Hq : quietly w w2) by (eapply quietly_trans; [exact Hq0|]; by eapply quietly_trans).
  destruct r as [report|e].
  - destruct (Group.report_primary report) as [prim|] eqn:Eprim.
    + intros E. apply start_connected_outcome in E as [Hq3 Hout].
      * split; [by eapply quietly_trans|]. destruct answer as [t|f]; [|done].
        destruct Hout as (-> & delays & before & Hcs & Ho & Hpl & Hlv). cbn in *.
        rewrite Hc1, Hn in Ho.
        exists (client w1), c, report, delays, before. split_and!; done.
      * by eapply quietly_calm.
      * unfold w2. cbn. rewrite Hc1. unfold w0. cbn. rewrite Hn. constructor; [done|constructor].
    + intros [= <- <-]. destruct (disconnect_quietly w2) as [Hq3 Hd].
      split; [by eapply quietly_trans|by eexists].
  - intros [= <- <-]. destruct (disconnect_quietly w2) as [Hq3 Hd].
    split; [by eapply quietly_trans|by eexists].
Qed.

Lemma start_outcome volumes awaits desired preferred decoder latency calibration w answer :
  in_width 64 (version volumes) -> Z.of_nat (length (stores_of awaits)) < 2 ^ 64 ->
  start_with_volumes volumes awaits desired preferred decoder latency calibration
  = (Some w, answer) ->
  calm w /\ unreleased (calls w) /\ started desired preferred calibration w answer.
Proof.
  intros Hw Hn. unfold start_with_volumes. destruct (from_millis _); [|done].
  destruct new_client as [c|]; [|done]. set (w0 := MkWorld _ _ _ _ _).
  assert (Hc : calm w0) by by split.
  destruct (start_client _ _ _ _ _ _ _) as [w1 r] eqn:E. intros [= <- <-].
  destruct (start_client_outcome _ _ _ _ _ _ _ _ _ Hc eq_refl eq_refl E) as [Hq Hs].
  split; [by eapply quietly_calm|]. split; [|done].
  destruct Hq as (u & cs & _ & _ & -> & Hu & _). apply Forall_app. by split; [|constructor].
Qed.

(** A transport that was just started: its feed has only been published to. *)
Lemma fresh_feed volumes awaits desired preferred decoder latency calibration w t :
  in_width 64 (version volumes) -> Z.of_nat (length (stores_of awaits)) < 2 ^ 64 ->
  start_with_volumes volumes awaits desired preferred decoder latency calibration
  = (Some w, Ok t) ->
  exists sends, feed w = publish_all (channel GROUP_RUNTIME_EVENT_CAPACITY) sends /\
    events t = true /\ lost_seen t = 0.
Proof.
  intros Hw Hn. unfold start_with_volumes. destruct (from_millis _); [|done].
  destruct new_client as [c|]; [|done]. set (w0 := MkWorld _ _ _ _ _).
  assert (Hc : calm w0) by by split.
  destruct (start_client _ _ _ _ _ _ _) as [w1 r] eqn:E. intros [= <- ->].
  destruct (start_client_outcome _ _ _ _ _ _ _ _ _ Hc eq_refl eq_refl E) as [Hq Hs].
  destruct Hs as (_ & _ & _ & _ & _ & _ & _ & _ & _ & _ & He & Hl & _).
  destruct Hq as (u & cs & _ & _ & _ & _ & Hf). exists (sends_of u). by rewrite Hf.
Qed.

(** ** Activation *)

(** What every operation keeps of a transport with these members. *)
Definition safe (ms : gset DeviceId) (x : @World C * Transport) : Prop :=
  calm x.1 /\ members x.2 = ms /\ released_safely ms (calls x.1) /\
  (release x.2 = true -> unreleased (calls x.1)).

Lemma quietly_safe ms w w' t : quietly w w' -> safe ms (w, t) -> safe ms (w', t).
Proof.
  intros Hq (Hc & Hm & Hr & Hu). pose proof (quietly_calm _ _ Hq Hc).
  destruct Hq as (u & cs & _ & _ & Ec & Huc & _). unfold safe. cbn in *. rewrite Ec.
  split_and!; try done; [by apply released_safely_app|].
  intros Ht. apply Forall_app. split; [done|by apply Hu].
Qed.

Lemma elem_of_sorted_ids r (ms : gset DeviceId) : r ∈ sorted_ids ms <-> r ∈ ms.
Proof. unfold sorted_ids. by rewrite isort_perm, elem_of_elements. Qed.

Lemma activation_passes_safe ms n w t :
  safe ms (w, t) -> safe ms (fst (activation_passes n w t)).
Proof.
  revert w t. induction n as [|n IH]; intros w t Hs; cbn [activation_passes]; [done|].
  pose proof (set_levels_quietly w (snapshot (levels w)) (sorted_ids (members t))) as Hq.
  destruct (set_levels w _ _) as [w1 []] eqn:E; cbn [negb fst] in *; [|by eapply quietly_safe].
  pose proof (quietly_trans _ _ _ Hq (await_quietly w1)) as Hq2.
  destruct (await w1) as [w2 a] eqn:Ea. cbn [fst] in Hq2.
  pose proof (quietly_safe _ _ _ _ Hq2 Hs) as Hs2.
  unfold release_if_current. fold (is_current (levels w2) (snapshot (levels w))).
  destruct (is_current _ _) eqn:Ecur; cbn [negb andb].
  - destruct (release t) eqn:Er; cbn [is_none negb].
    + assert (Hs3 : safe ms (note (CallRelease (levels w2) (gate_held a)) w2, t <| release := false |>)).
      { destruct Hs as (Hc & Hm & _). destruct Hs2 as (Hc2 & _ & Hr2 & Hu2).
        split_and!; try done. cbn. split; [|by apply Hu2].
        destruct (pass_settles w ms (sorted_ids (members t)) w1 w2) as [_ Hat]; try done.
        { intros r. rewrite elem_of_sorted_ids. cbn in Hm. by rewrite Hm. } { by rewrite Ea. } }
      destruct (gate_held a); [done|by apply IH].
    + apply IH. by destruct t; cbn in *; subst.
  - assert (Et : t <| release := negb (is_none (if release t then Some (gate_held a) else None)) |> = t)
      by (destruct t as [[] ?]; done).
    rewrite Et. by apply IH.
Qed.

Lemma apply_op_safe ms x o : safe ms x -> safe ms (apply_op x o).
Proof.
  destruct x as [w t]. intros Hs. destruct o; cbn.
  - unfold activate. destruct (release t); [by apply activation_passes_safe|done].
  - unfold set_volume. destruct (client_set_volume _ _ _) as [c r].
    eapply quietly_safe; [by apply note_quietly|done].
  - unfold probe. destruct (client_probe _) as [c rs].
    eapply quietly_safe; [by apply note_quietly|done].
  - done.
  - unfold next_runtime_event. destruct (events t); [destruct (queued _)|];
      try destruct (_ <? _); done.
  - eapply quietly_safe; [apply disconnect_quietly|done].
  - destruct Hs as ([Hw Hn] & Hs). split; [|done]. split; [|done].
    by apply (store_all_in_width _ [(receiver, volume)]).
  - done.
Qed.

Lemma run_ops_safe ms os x : safe ms x -> safe ms (run_ops x os).
Proof. revert x. induction os as [|o os IH]; intros x Hs; [done|]. by apply IH, apply_op_safe. Qed.

(** Audio waits for the levels.  Whatever other threads store while the
    adapter connects, sets levels and activates, and in whatever order its
    owner calls it: when the prepared audio is released, the newest request
    made of every member was accepted, and set it to the level shared at that
    very moment.  The release is used at most once, and never by the start. *)
Theorem audio_waits_for_levels volumes awaits desired preferred (decoder : Decoder) latency
    calibration w t os later lv received before :
  in_width 64 (version volumes) -> Z.of_nat (length (stores_of awaits)) < 2 ^ 64 ->
  start_with_volumes volumes awaits desired preferred decoder latency calibration
  = (Some w, Ok t) ->
  calls (run_ops (w, t) os).1 = later ++ CallRelease lv received :: before ->
  all_at (members t) lv before /\ unreleased later /\ unreleased before /\ unreleased (calls w).
Proof.
  intros Hw Hn E Hc. destruct (start_outcome _ _ _ _ _ _ _ _ _ Hw Hn E) as (Hcalm & Hu & _).
  assert (Hs : safe (members t) (w, t)) by (split_and!; try done; by apply unreleased_safely).
  destruct (run_ops_safe _ os _ Hs) as (_ & _ & Hr & _). rewrite Hc in Hr.
  destruct (released_safely_at _ _ _ _ _ Hr) as (? & ? & ?). by split_and!.
Qed.

(** A start is all or nothing.  Whenever it fails, either no client was
    made, or disconnecting was the last thing done with it and nothing was
    released.  When it succeeds, the transport is what the connect reported:
    its primary, exactly the connected members, the failures; every member
    accepted a level and the audio was prepared last, nothing having been
    disconnected; a group is prepared with the delays computed for exactly the
    members that connected, a single member with none. *)
Theorem start_is_all_or_nothing volumes awaits desired preferred (decoder : Decoder) latency
    calibration :
  in_width 64 (version volumes) -> Z.of_nat (length (stores_of awaits)) < 2 ^ 64 ->
  match start_with_volumes volumes awaits desired preferred decoder latency calibration with
  | (None, answer) => exists f, answer = Err f /\ failures f = []
  | (Some w, answer) => unreleased (calls w) /\ started desired preferred calibration w answer
  end.
Proof.
  intros Hw Hn. destruct (start_with_volumes _ _ _ _ _ _ _) as [[w|] answer] eqn:E.
  - by destruct (start_outcome _ _ _ _ _ _ _ _ _ Hw Hn E) as (_ & ? & ?).
  - unfold start_with_volumes in E. destruct (from_millis _); [destruct new_client as [c|]|].
    + by destruct (start_client _ _ _ _ _ _ _).
    + injection E as <-. by eexists.
    + injection E as <-. by eexists.
Qed.

(** ** Send failures *)

(** What the owner was told by its calls for the next event. *)
Definition op_answer (x : @World C * Transport) (o : Op)
  : option (Result (option GroupRuntimeEvent) Z) :=
  match o with OpEvent => Some (snd (next_runtime_event x.1 x.2)) | _ => None end.

Fixpoint answers (x : @World C * Transport) (os : list Op)
  : list (Result (option GroupRuntimeEvent) Z) :=
  match os with
  | [] => []
  | o :: os => option_list (op_answer x o) ++ answers (apply_op x o) os
  end.

Definition delivered (rs : list (Result (option GroupRuntimeEvent) Z)) : list GroupRuntimeEvent :=
  omap (fun r => match r with Ok e => e | Err _ => None end) rs.
Definition reported_lost (rs : list (Result (option GroupRuntimeEvent) Z)) : Z :=
  foldr (fun r n => match r with Err lost => lost + n | Ok _ => n end) 0 rs.

(** The books of a feed that has handed out [got] and reported [said] losses. *)
Record booked (f : Feed) (t : Transport) (got : list GroupRuntimeEvent) (said : Z) : Prop := {
  bk_alive : receiver_alive f = true;
  bk_events : events t = true;
  bk_kept : got ++ queued f `sublist_of` offered f;
  bk_lost : Z.of_nat (length (offered f))
            = Z.of_nat (length (got ++ queued f)) + lost_total f;
  bk_said : said = lost_seen t;
  bk_seen : 0 <= lost_seen t <= lost_total f }.

Lemma publish_booked f t got said e :
  Z.of_nat (length (offered f)) < 2 ^ 64 - 1 ->
  booked f t got said -> booked (fst (try_publish f e)) t got said.
Proof.
  intros Hn [Ha He Hk Hl Hs Hse]. unfold try_publish. cbn -[Nat.ltb]. rewrite Ha. cbn -[Nat.ltb].
  destruct (length (queued f) <? capacity f)%nat; constructor; cbn; try done.
  - rewrite app_assoc. by apply sublist_app.
  - rewrite app_assoc, !length_app in *. cbn. lia.
  - by apply sublist_inserts_r.
  - rewrite u64_succ_no_overflow by lia. rewrite length_app. cbn. lia.
  - rewrite u64_succ_no_overflow by lia. lia.
Qed.

Lemma publish_all_offered f es : offered (publish_all f es) = offered f ++ es.
Proof.
  revert f. induction es as [|e es IH]; intros f; cbn; [by rewrite app_nil_r|].
  rewrite IH. unfold try_publish. destruct (_ && _); cbn; by rewrite <- app_assoc.
Qed.

Lemma publish_all_booked f t got said es :
  Z.of_nat (length (offered (publish_all f es))) < 2 ^ 64 ->
  booked f t got said -> booked (publish_all f es) t got said.
Proof.
  revert f. induction es as [|e es IH]; intros f Hn Hb; [done|]. cbn. apply IH; [done|].
  apply publish_booked; [|done]. rewrite publish_all_offered, length_app in Hn. cbn in Hn. lia.
Qed.

Lemma activation_passes_quiet n w t :
  exists es, feed (activation_passes n w t).1.1 = publish_all (feed w) es /\
    events (activation_passes n w t).1.2 = events t /\
    lost_seen (activation_passes n w t).1.2 = lost_seen t.
Proof.
  revert w t. induction n as [|n IH]; intros w t; cbn [activation_passes]; [by exists []|].
  pose proof (set_levels_quietly w (snapshot (levels w)) (sorted_ids (members t))) as Hq.
  destruct (set_levels w _ _) as [w1 []]; cbn [negb fst] in *.
  2:{ destruct Hq as (u & cs & _ & _ & _ & _ & Hf). exists (sends_of u). done. }
  pose proof (quietly_trans _ _ _ Hq (await_quietly w1)) as Hq2.
  destruct (await w1) as [w2 a]. cbn [fst] in Hq2.
  destruct Hq2 as (u & cs & _ & _ & _ & _ & Hf).
  destruct (release_if_current _ _ _) as [sender released].
  set (w3 := if _ && _ then _ else _).
  assert (Hf3 : feed w3 = publish_all (feed w) (sends_of u)) by (subst w3; by destruct (_ && _)).
  destruct released; [by exists (sends_of u)|].
  destruct (IH w3 (t <| release := negb (is_none sender) |>)) as (es & E1 & E2 & E3).
  exists (sends_of u ++ es). rewrite E1, E2, E3, Hf3, publish_all_app. done.
Qed.

Lemma apply_op_booked x o got said :
  let x' := apply_op x o in
  let rs := option_list (op_answer x o) in
  Z.of_nat (length (offered (feed x'.1))) < 2 ^ 64 ->
  booked (feed x.1) x.2 got said ->
  booked (feed x'.1) x'.2 (got ++ delivered rs) (said + reported_lost rs).
Proof.
  destruct x as [w t]. cbn zeta. intros Hn Hb.
  destruct o; cbn [op_answer option_list delivered omap list_omap reported_lost foldr];
    rewrite ?app_nil_r, ?Z.add_0_r; cbn [apply_op] in *.
  - unfold activate in *. destruct (release t); cbn [negb] in *; [|done].
    destruct (activation_passes_quiet INITIAL_VOLUME_MAX_PASSES w t) as (es & E1 & E2 & E3).
    cbn [fst] in *. rewrite E1 in *. apply (publish_all_booked _ _ _ _ es Hn) in Hb as [].
    by constructor; rewrite ?E2, ?E3.
  - unfold set_volume. by destruct (client_set_volume _ _ _).
  - unfold probe. by destruct (client_probe _).
  - by destruct Hb; constructor.
  - destruct Hb as [Ha He Hk Hl Hs Hse]. unfold next_runtime_event in *. cbn [fst snd] in *.
    rewrite He in *. destruct (queued (feed w)) as [|e rest] eqn:Eq.
    + destruct (Z.ltb_spec (lost_seen t) (lost_total (feed w))); cbn; constructor; cbn;
        rewrite ?app_nil_r, ?Eq, ?Z.add_0_r in *; rewrite ?app_nil_r in *; try done; lia.
    + cbn. rewrite Z.add_0_r. constructor; cbn; rewrite <- ?app_assoc; done.
  - destruct (disconnect_quietly w) as [(u & cs & _ & _ & _ & _ & Hf) _]. cbn [fst] in *.
    rewrite Hf in *. by apply publish_all_booked.
  - done.
  - apply (publish_all_booked _ _ _ _ [event]); done.
Qed.

Lemma apply_op_offered x o : exists es, offered (feed (apply_op x o).1) = offered (feed x.1) ++ es.
Proof.
  destruct x as [w t]. assert (Hid : exists es, offered (feed w) = offered (feed w) ++ es)
    by (exists []; by rewrite app_nil_r).
  destruct o; cbn [apply_op]; try exact Hid.
  - unfold activate. destruct (release t); cbn [negb fst]; [|exact Hid].
    destruct (activation_passes_quiet INITIAL_VOLUME_MAX_PASSES w t) as (es & E1 & _).
    exists es. by rewrite E1, publish_all_offered.
  - unfold set_volume. by destruct (client_set_volume _ _ _).
  - unfold probe. by destruct (client_probe _).
  - unfold next_runtime_event. destruct (events t); [destruct (queued _)|];
      try destruct (_ <? _); exact Hid.
  - destruct (disconnect_quietly w) as [(u & cs & _ & _ & _ & _ & Hf) _].
    exists (sends_of u). cbn [fst]. by rewrite Hf, publish_all_offered.
  - exists [event]. by rewrite <- (publish_all_offered _ [event]).
Qed.

Lemma run_ops_offered x os : exists es, offered (feed (run_ops x os).1) = offered (feed x.1) ++ es.
Proof.
  revert x. induction os as [|o os IH]; intros x; [exists []; by rewrite app_nil_r|].
  destruct (apply_op_offered x o) as (es & E), (IH (apply_op x o)) as (es' & E').
  exists (es ++ es'). change (run_ops x (o :: os)) with (run_ops (apply_op x o) os).
  by rewrite E', E, app_assoc.
Qed.

Lemma run_ops_booked x os got said :
  Z.of_nat (length (offered (feed (run_ops x os).1))) < 2 ^ 64 ->
  booked (feed x.1) x.2 got said ->
  booked (feed (run_ops x os).1) (run_ops x os).2
    (got ++ delivered (answers x os)) (said + reported_lost (answers x os)).
Proof.
  revert x got said. induction os as [|o os IH]; intros x got said Hn Hb.
  { cbn. by rewrite app_nil_r, Z.add_0_r. }
  cbn [answers]. change (run_ops x (o :: os)) with (run_ops (apply_op x o) os) in *.
  assert (Hb' := apply_op_booked x o got said). cbn zeta in Hb'.
  destruct (run_ops_offered (apply_op x o) os) as (es & E).
  assert (Hn' : Z.of_nat (length (offered (feed (apply_op x o).1))) < 2 ^ 64)
    by (rewrite E, length_app in Hn; lia).
  specialize (IH _ _ _ Hn (Hb' Hn' Hb)). unfold delivered in *. rewrite omap_app, app_assoc.
  assert (Er : reported_lost (option_list (op_answer x o) ++ answers (apply_op x o) os)
               = reported_lost (option_list (op_answer x o)) + reported_lost (answers (apply_op x o) os)).
  { unfold reported_lost. rewrite foldr_app. generalize (answers (apply_op x o) os). intros rs.
    destruct (op_answer x o) as [[]|]; simpl; lia. }
  by rewrite Er, Z.add_assoc.
Qed.

(** Every failed send is accounted for.  However producers publish while
    the owner connects, activates and drains: the events it is handed are, in
    order and each once, events that were published; handed out, still queued,
    reported as lost and not yet reported add up to everything published
    since the client was made; and when it is told that there is nothing left,
    nothing is. *)
Theorem send_failures_accounted volumes awaits desired preferred (decoder : Decoder) latency
    calibration w t os :
  in_width 64 (version volumes) -> Z.of_nat (length (stores_of awaits)) < 2 ^ 64 ->
  start_with_volumes volumes awaits desired preferred decoder latency calibration
  = (Some w, Ok t) ->
  let x := run_ops (w, t) os in
  let told := answers (w, t) os in
  let f := feed x.1 in
  Z.of_nat (length (offered f)) < 2 ^ 64 ->
  delivered told ++ queued f `sublist_of` offered f /\
  Z.of_nat (length (offered f))
    = Z.of_nat (length (delivered told)) + Z.of_nat (length (queued f)) + reported_lost told
      + (lost_total f - lost_seen x.2) /\
  (snd (next_runtime_event x.1 x.2) = Ok None -> queued f = [] /\ lost_seen x.2 = lost_total f).
Proof.
  intros Hw Hn E x told f Hl.
  assert (Hb : booked (feed w) t [] 0).
  { destruct (run_ops_offered (w, t) os) as (es & Eo). cbn [fst] in Eo.
    assert (Hl' : Z.of_nat (length (offered (feed w))) < 2 ^ 64)
      by (unfold f, x in Hl; rewrite Eo, length_app in Hl; lia).
    destruct (fresh_feed _ _ _ _ _ _ _ _ _ Hw Hn E) as (sends & Ef & Ee & Els).
    rewrite Ef in Hl' |- *. apply publish_all_booked; [done|]. by constructor; rewrite ?Els; cbn. }
  destruct (run_ops_booked (w, t) os [] 0 Hl Hb) as [Ha He Hk Hlt Hs Hse].
  fold x in Ha, He, Hk, Hlt, Hs, Hse. fold told in Hk, Hlt, Hs. fold f in Ha, Hk, Hlt, Hse.
  cbn [app] in Hk, Hlt. rewrite length_app in Hlt. rewrite Z.add_0_l in Hs.
  split; [done|]. split; [lia|]. unfold next_runtime_event. rewrite He. fold f.
  destruct (queued f); [|done]. destruct (Z.ltb_spec (lost_seen x.2) (lost_total f)); [done|].
  intros _. split; [done|lia].
Qed.

(** An activation that succeeds has released the audio, and the streaming
    task has received it. *)
Lemma activation_passes_released n w t w' t' :
  activation_passes n w t = (w', t', Ok tt) ->
  exists lv before, calls w' = CallRelease lv true :: before /\ release t' = false.
Proof.
  revert w t. induction n as [|n IH]; intros w t; cbn [activation_passes]; [done|].
  destruct (set_levels w _ _) as [w1 []]; cbn [negb]; [|done]. destruct (await w1) as [w2 a].
  unfold release_if_current. fold (is_current (levels w2) (snapshot (levels w))).
  destruct (is_current _ _); cbn [negb andb]; [|apply IH].
  destruct (release t); cbn [is_none negb]; [|apply IH].
  destruct (gate_held a); [|apply IH]. intros [= <- <-]. by eexists _, _.
Qed.

Theorem activation_releases_audio w t w' t' :
  release t = true -> activate w t = (w', t', Ok tt) ->
  exists lv before, calls w' = CallRelease lv true :: before /\ release t' = false.
Proof. unfold activate. intros ->. apply activation_passes_released. Qed.

(** A transport whose streaming task is gone: activating it fails, but it
    forgets the sender on the way, so that activating it again answers [Ok]
    although no audio was ever released. *)
Lemma second_activation_is_believed w t w' t' e :
  activate w t = (w', t', Err e) -> release t' = false -> activate w' t' = (w', t', Ok tt).
Proof. intros _ Ht. unfold activate. by rewrite Ht. Qed.
End Barrier.

(** ** Concrete runs *)

(** The client of [GroupConnect] over a network in which receiver 2 refuses
    and receiver 1 fails as primary; every level is accepted and every stream
    can be prepared. *)
#[local] Existing Instance GroupConnect.eta_Client.
#[local] Instance sample_client
  : AirPlayClient GroupConnect.Client Device.Device unit unit := {
  new_client := Ok GroupConnectProps.fresh_client;
  set_sender_buffer_capacity c _ := c;
  set_render_delay_ms c ms := c <| GroupConnect.render_delay_ms := ms |>;
  client_diagnostics _ := tt;
  connect_group_best_effort c ds p :=
    default (c, Err Group.ETimeout)
      (GroupConnect.connect_group_best_effort GroupConnectProps.sample_net c ds p);
  prepare_live c _ _ := (c, Ok tt);
  client_probe c := (c, []);
  client_set_volume c _ _ := (c, Ok tt);
  client_disconnect c := GroupConnect.disconnect GroupConnectProps.sample_net c;
  dropped_set c _ _ := c;
  dropped_disconnect c := c }.

Definition low : f32 := f32_quarter.
Definition third : DeviceId := Group.receiver_n 3.
Definition no_calibration : Calibration.CalibrationProfile :=
  {| Calibration.reference_receiver := None; Calibration.requested_relative_delay_ns := ∅ |}.

(** While the first pass sets receiver 3, its level is stored anew. *)
Definition moving : list Await :=
  [quiet; MkAwait [(third, low)] [TargetSendFailed third "send"] false true].
Notation sample_start :=
  (start_with_volumes no_volumes moving GroupConnectProps.four None tt (MkLatency 2000 200)
     no_calibration) (only parsing).

Definition sample_world : @World GroupConnect.Client :=
  Eval vm_compute in
  default (MkWorld GroupConnectProps.fresh_client (channel 1) no_volumes [] []) (fst sample_start).
Definition sample_transport : Transport :=
  Eval vm_compute in
  match snd sample_start with Ok t => t | Err _ => MkTransport false third ∅ None false 0 end.

Lemma sample_starts : sample_start = (Some sample_world, Ok sample_transport).
Proof. vm_compute. reflexivity. Qed.

Definition sample_ops : list Op := [OpStore third f32_one; OpActivate; OpEvent; OpEvent].
Definition sample_levels : EffectiveVolumes :=
  Eval vm_compute in levels (run_ops (sample_world, sample_transport) sample_ops).1.
Definition sample_before : list Call :=
  Eval vm_compute in tail (calls (run_ops (sample_world, sample_transport) sample_ops).1).

Lemma sample_released :
  calls (run_ops (sample_world, sample_transport) sample_ops).1
  = [] ++ CallRelease sample_levels true :: sample_before.
Proof. vm_compute. reflexivity. Qed.

Lemma sample_stores : Z.of_nat (length (stores_of moving)) < 2 ^ 64.
Proof. reflexivity. Qed.
Lemma sample_version : in_width 64 (version no_volumes).
Proof. by split. Qed.

(** The start needed a second pass; the activation set the newest levels. *)
Lemma audio_waits_for_levels_witness :
  all_at (members sample_transport) sample_levels sample_before /\
  level_of sample_before third = Some f32_one.
Proof.
  split; [|vm_compute; reflexivity].
  exact (proj1 (audio_waits_for_levels no_volumes moving GroupConnectProps.four None tt
    (MkLatency 2000 200) no_calibration sample_world sample_transport sample_ops []
    sample_levels true sample_before sample_version sample_stores sample_starts sample_released)).
Defined.

Lemma start_is_all_or_nothing_witness :
  started GroupConnectProps.four None no_calibration sample_world (Ok sample_transport).
Proof.
  pose proof (start_is_all_or_nothing no_volumes moving GroupConnectProps.four None tt
    (MkLatency 2000 200) no_calibration sample_version sample_stores) as Hs.
  rewrite sample_starts in Hs. exact (proj2 Hs).
Defined.

Lemma sample_offered :
  Z.of_nat (length (offered (feed (run_ops (sample_world, sample_transport) sample_ops).1)))
  < 2 ^ 64.
Proof. vm_compute. reflexivity. Qed.

Lemma send_failures_accounted_witness :
  let x := run_ops (sample_world, sample_transport) sample_ops in
  delivered (answers (sample_world, sample_transport) sample_ops) = [TargetSendFailed third "send"] /\
  delivered (answers (sample_world, sample_transport) sample_ops) ++ queued (feed x.1)
    `sublist_of` offered (feed x.1).
Proof.
  split; [vm_compute; reflexivity|].
  exact (proj1 (send_failures_accounted no_volumes moving GroupConnectProps.four
    None tt (MkLatency 2000 200) no_calibration sample_world sample_transport sample_ops
    sample_version sample_stores sample_starts sample_offered)).
Defined.

(** The case of [second_activation_is_believed]: the gate's receiver is gone. *)
Lemma dead_gate_is_forgotten :
  let '(w, t, r) := activate (sample_world <| script := repeat (MkAwait [] [] false false) 9 |>)
                      sample_transport in
  r = Err INITIAL_VOLUME_FAILED /\ release t = false.
Proof. vm_compute. split; reflexivity. Qed.
End Transport.
